(* ===== verification/_CoqProject ===== *)
-Q . S2P
Prelude.v
RbTree.v
RbShape.v
RbBalance.v
RbInsert.v
RbErase.v
RbStore.v
RbTheorems.v
Shadow.v
Cpu.v
CcHelper.v
Excp.v
IntHelper.v
IntRotate.v
IntDiv.v
IntDecimal.v
IntBits.v
Xed.v
Guest.v
Mmu.v
MmuWalk.v
Operand.v
Disas.v
ObjStore.v
CallStack.v
LibMap.v
Tracer.v
TracerInv.v
TracerAccess.v
TracerDemo.v
TracerTheorems.v
Seg.v
SegSpec.v
SegTask.v
SegInt.v
SegCall.v
SegInv.v
SegOps.v
SegTaskInv.v
SoftMmu.v
SegTracer.v
SegDemo.v
SegPriv.v
SegInspect.v
SegRam.v
SoftMmuBytes.v
SegRound.v
SegTheorems.v
Tlb.v
TlbInv.v
TlbWalk.v
TlbCoh.v
TlbMmu.v
TlbSim.v
TlbCode.v
PhysMem.v
CtrlRegs.v
CtrlTlb.v
DebugRegs.v
DebugInv.v
TlbWatch.v
Msr.v
Image.v
Smm.v
SmmRound.v
Svm.v
SvmRound.v
SvmGuest.v
Pic.v
PicInv.v
Apic.v
Board.v
ApicInv.v
ApicTimer.v
BoardTyped.v
Reset.v
Exec.v
ExecInv.v
ExecIrq.v
MemHelper.v
