(* ===== verification/Prelude.v ===== *)
(** * trace_syscall_obj: a kernel-object tracer on QEMU, verified

    The program is QEMU 1.6.2 for a 32-bit x86 guest with a tracer of kernel
    objects in src/target-i386/rev_sem. Translated guest code calls hooks of the
    tracer before each instruction and at each load, store and call; the interrupt
    code of the emulator calls it at each interrupt and return from one. The tracer
    recognises the allocator functions of the guest's kernel, keeps the live
    objects in a red-black tree, marks the bytes written in a shadow memory, names
    each access by the guest's call stack and reports an object's accesses when it
    is released. The development models the tracer and the parts of the emulator
    it stands on: CPU state and flags, exceptions, segmentation and interrupts,
    page tables and the TLB, guest memory, control, debug and model-specific
    registers, system management mode, virtual machines, integer helpers, the
    interrupt controllers of the PC board, and the reset of a CPU and the service of
    its interrupts.

    ** Conventions

    C functions are executable. The tracer's run in the monad [M] below (outcomes:
    a result, a named fault, fuel used up); helpers of the CPU run in [X] (file
    Excp), page walks in [W] (Mmu), segmentation helpers in [K] (Seg), whose
    outcomes are a return, a raised exception, an exit to the SVM monitor and an
    abort of the emulator. Machine integers are [Z] with their wrap-around written
    out ([u32], [s32], [wrap]). The configuration is that of the sources: a 32-bit
    target with system emulation, [TRACE_OBJ] defined, [TRACE_SYSCALL_OBJ] not.

    ** Files and sources (under src/target-i386 unless said otherwise)

    - Prelude: outcomes, the monad, integers, lists, tactics and hints.
    - RbTree: rev_sem/rb_tree.c on a heap of nodes with dangling pointers. RbShape,
      RbBalance, RbInsert, RbErase and RbStore hold its invariants; RbTheorems its
      properties.
    - Shadow: rev_sem/shadow_mem.c, the two-level table.
    - Cpu, CcHelper, Excp: cpu.h, cc_helper.c with its template, excp_helper.c.
    - IntHelper: int_helper.c and shift_helper_template.h; theorems in IntRotate,
      IntDiv, IntDecimal, IntBits.
    - Xed, Guest: rev_sem/qemu-pemu.c, the debug translation of helper.c and
      [cpu_memory_rw_debug] of src/exec.c.
    - Mmu, MmuWalk: [cpu_x86_handle_mmu_fault] of helper.c.
    - Operand, Disas: rev_sem/parse_operand.c and rev_sem/disas.c.
    - ObjStore: the classes through which the tracer uses tree and shadow memory,
      with the two implementations as instances.
    - CallStack, LibMap: rev_sem/lib_map.cpp. Tracer: the hooks of rev_sem/main.c,
      disas.c, linux.c and seg_helper.c. TracerInv, TracerAccess, TracerDemo and
      TracerTheorems: the invariant, runs, a concrete run, the properties.
    - Seg, SegTask, SegInt, SegCall: seg_helper.c: segment registers, task
      switches, interrupts, far transfers. They use guest memory through the class
      [SoftMmu] and the tracer through [IntrHooks]. SegSpec, SegInv, SegOps and
      SegTaskInv hold the program logic and the invariant.
    - SoftMmu, SoftMmuBytes: src/include/exec/softmmu_template.h and [tlb_fill] of
      mem_helper.c, an instance of [SoftMmu]. SegTracer: the instance with the
      tracer's tables beside memory, and the tracer's hooks as [IntrHooks].
    - SegDemo, SegRam: a concrete machine; stacks and descriptors in plain RAM.
      SegPriv, SegInspect, SegRound, SegTheorems: the properties of segmentation.
    - Tlb: src/cputlb.c with the parts of src/exec.c and src/translate-all.c it
      calls, as operations on one record; TlbInv: its invariant. TlbWalk, TlbCoh:
      what a page walk depends on, and when an entry agrees with the tables.
    - TlbMmu: softmmu_header.h and softmmu_template.h through the TLB, a second
      instance of [SoftMmu]; TlbSim: it simulates the instance of SoftMmu. The
      board behind memory-mapped pages is the class [Board]. TlbCode: dirty flags
      and the protection of translated code.
    - PhysMem: the classes of physical memory and chipset that the next files use.
      CtrlRegs: cr0 to cr8, A20, EFER of helper.c and cpu.h, and the control
      instructions of misc_helper.c; CtrlTlb: they keep the TLB in agreement.
    - DebugRegs: breakpoints and watchpoints of helper.c, src/exec.c, misc_helper.c
      and src/cpu-exec.c; DebugInv: their ownership; TlbWatch: watched pages.
    - Msr: [helper_wrmsr] and [helper_rdmsr] of misc_helper.c.
    - Image: state that is stored to memory as a table of words and read back. Smm:
      smm_helper.c; SmmRound: SMI and RSM as a round trip. Svm: svm_helper.c;
      SvmRound, SvmGuest: VMRUN and #VMEXIT as round trips of host and guest.
    - Pic: src/hw/intc/i8259.c and i8259_common.c, the two 8259s as one record with
      the levels they have sent to the CPU; PicInv: priorities, and the link between
      slave, master and CPU. Apic: src/hw/intc/apic.c and apic_common.c, a local APIC
      as a record, the bus as a list. Board: src/hw/intc/ioapic.c, the registers of the
      APICs and the wiring of src/hw/i386/pc.c, on one record of all controllers.
      ApicInv: vectors in service and destinations; ApicTimer: the timer; BoardTyped:
      the types of the registers.
    - Reset: [x86_cpu_reset] of cpu.c, [do_cpu_init] and [do_cpu_sipi] of helper.c and
      [apic_sipi], on a machine that has the board of file Board (class [PcBoard]);
      with what a reset establishes. Exec: the part of [cpu_exec] in src/cpu-exec.c
      that wakes a CPU and serves its requests; ExecInv: INIT and SIPI; ExecIrq: the way
      of an interrupt from a line of a device to its handler.
    - MemHelper: cmpxchg8b and bound of mem_helper.c.

    ** What the theorems show

    - Tree: any admissible sequence of requests refines a sorted list of disjoint
      objects; insertion, erasure, lookup and deletion on every outcome; cost of a
      lookup; termination of the erasing loop.
    - Shadow memory: ranged writes behave as on a flat memory.
    - Tracer: for a guest that behaves ([guest_ok]) no hook faults, aborts or loops
      and the tables refine a list of live objects; what accesses, allocations and
      releases record; the walk of the call stack ends with the chain of frames;
      nested interrupts restore their stack. Two theorems show where the code
      fails: a cyclic frame chain, the release of an interior address.
    - Memory: the tracer's debug translation and byte-wise reads agree with the
      MMU; the softmmu serves accesses of any alignment byte by byte.
    - CPU: flags, exceptions and integer helpers against their arithmetic meaning.
    - Segmentation: hidden flags, level and segments stay coherent over any
      sequence of helpers (sysexit, lsl and lar apart), exceptions included;
      exceptions are precise, the load of the task register apart; interrupts do
      not lead outwards nor returns inwards; a return from an interrupt restores
      what the interrupt saved; [verr] predicts a segment load. One theorem shows
      two ways for user code to gain privileges.
    - TLB: it never returns a stale translation, an access through it is an access
      by a page walk, and a guest that writes cr3 after changing its page tables
      cannot tell that there is a TLB; stores to translated code and accesses to
      watched bytes do not escape. One theorem shows how SMEP and SMAP do.
    - Registers: hidden flags follow the control registers; the debug registers own
      exactly the breakpoints they ask for and report exactly the hits, until a
      task switch, which one theorem shows to leave a freed watchpoint behind;
      model-specific registers read back what was written.
    - Modes: RSM resumes what an SMI interrupted (but for the privilege level), an
      exit resumes the host behind VMRUN, and the next VMRUN resumes the guest (but
      for its interrupt shadow), whatever happens in between to the CPU and to memory
      outside the saved state.
    - Interrupt controllers: an 8259 serves the line of highest rotated priority, and in
      ordinary use no request is lost between a line and the CPU; the vectors in service
      of a local APIC are a stack, a message reaches the APICs it is addressed to
      and no others, a periodic timer does not drift, and registers keep their types.
    - Reset and dispatch: a reset completes and establishes the invariants of the other
      groups; INIT and SIPI start a processor at the page of the message; a line of a
      device reaches the handler of its vector if the CPU takes interrupts, and is kept
      if not.

    ** Fuel and bounds

    Walks of the tree use one more than the number of heap blocks ([heap_fuel]),
    the repair after an erasure one more than that; the theorems show it to be
    enough. The call-stack walk needs at most 8193 rounds, since each frame lies
    higher in a stack of 8192 bytes; the theorems ask for that much. Printing a
    number has one round for each possible digit, bit deposit and extract one for
    each bit, the page-wise debug read one for each byte. An access through the TLB
    refills it at most once ([REDO] is 2 rounds) and a split access recurses once
    ([slow_ld] and [slow_st] have depth 2); the mask of large pages is widened at
    most 33 times. That these are enough is part of the theorems. All other loops
    recurse on a counter the code has.

    ** Parameters

    The XED decoder (class [Xed]), [std::hash], the contents of guest memory, the
    devices and translated blocks behind a page ([Board]), the interrupt controller,
    clock and SMRAM of the machine ([Chipset]); Reset instantiates the first of these
    by the APIC of the board. Theorems about [SoftMmu], [IntrHooks], [PhysMem] and
    [PcBoard] hold for every instance that meets their laws; the instances above
    do.

    ** Not modelled

    - Device models other than the interrupt controllers; the accelerated TPR of
      src/hw/i386/kvmvapic.c, which the model takes to be off; the translator, so what
      invalidating or retranslating a block does beyond the jump cache, and the running
      of blocks in [cpu_exec] with the exit requests between threads.
    - Code for 64-bit targets in seg_helper.c and helper.c, [syscall] and [sysret],
      code for user-mode emulation, code under [#if 0].
    - CPUID and the machine check of helper.c, FPU and SSE.
    - Opening, parsing and dumping of files in lib_map.cpp, logging; start-up
      (pemu.c); size inference and taint analysis (not compiled).
    - KVM, CPU models, migration and the rest of QEMU: services around the CPU that
      the tracer does not look into. *)

From stdpp Require Import base gmap list strings.
From Stdlib Require Import ZArith Lia.

Local Open Scope Z_scope.

(** ** Outcomes of C code

    A C function either returns, runs into behaviour the language gives no
    meaning to (or an assertion), or is still looping when the fuel of the
    model is exhausted. *)

Inductive fault : Type :=
| NullDeref        (** a null pointer is dereferenced *)
| DeadAccess       (** a pointer to a freed block is dereferenced or freed *)
| BufferOverflow   (** a copy writes past the end of its destination *)
| AssertFailed     (** [assert(0)] is reached *)
| BadIndex         (** an array is indexed outside its bounds *)
| Uninit           (** a variable is read that was never written *)
| NoReturn.        (** [exit] is called *)

Inductive res (A : Type) : Type :=
| Ok (a : A)
| Fault (f : fault)
| OutOfFuel.

Arguments Ok {A} a.
Arguments Fault {A} f.
Arguments OutOfFuel {A}.

Definition is_ok {A} (r : res A) : bool :=
  match r with Ok _ => true | _ => false end.

(** ** A state monad over outcomes *)

Definition M (S A : Type) : Type := S -> res (A * S).

Definition ret {S A} (a : A) : M S A := fun s => Ok (a, s).

Definition bind {S A B} (m : M S A) (f : A -> M S B) : M S B :=
  fun s =>
    match m s with
    | Ok (a, s') => f a s'
    | Fault e => Fault e
    | OutOfFuel => OutOfFuel
    end.

Definition fail {S A} (e : fault) : M S A := fun _ => Fault e.
Definition no_fuel {S A} : M S A := fun _ => OutOfFuel.
Definition get {S} : M S S := fun s => Ok (s, s).
Definition put {S} (s : S) : M S unit := fun _ => Ok (tt, s).
Definition when {S} (b : bool) (m : M S unit) : M S unit :=
  if b then m else ret tt.

Declare Scope c_scope.
Delimit Scope c_scope with c.

Notation "x <- m ;; k" := (bind m (fun x => k))
  (at level 100, m at next level, right associativity) : c_scope.
Notation "m ;; k" := (bind m (fun _ => k))
  (at level 100, right associativity) : c_scope.

(** [a && b] on conditions with effects: the right operand is evaluated only
    when the left one holds. *)
Definition and_then {S} (a b : M S bool) : M S bool :=
  bind a (fun x => if x then b else ret false).

Lemma bind_ok {S A B} (m : M S A) (f : A -> M S B) s a s' :
  m s = Ok (a, s') -> bind m f s = f a s'.
Proof. unfold bind. by intros ->. Qed.

Lemma bind_ret {S A B} (a : A) (f : A -> M S B) s : bind (ret a) f s = f a s.
Proof. done. Qed.

Lemma bind_assoc {S A B C} (m : M S A) (f : A -> M S B) (g : B -> M S C) s :
  bind (bind m f) g s = bind m (fun a => bind (f a) g) s.
Proof. unfold bind. by destruct (m s) as [[a s']| |]. Qed.

Lemma and_then_true {S} (a b : M S bool) s s' :
  a s = Ok (true, s') -> and_then a b s = b s'.
Proof. unfold and_then, bind. by intros ->. Qed.

Lemma and_then_false {S} (a b : M S bool) s s' :
  a s = Ok (false, s') -> and_then a b s = Ok (false, s').
Proof. unfold and_then, bind. by intros ->. Qed.

(** ** Machine integers

    An integer of width [w] is a [Z] in [0, 2^w); C's conversions to unsigned
    types truncate, and conversions to signed types are read through the sign
    bit (two's complement, as the compilers QEMU supports do). *)

Definition wrap (w x : Z) : Z := x mod 2 ^ w.
Definition u8 (x : Z) : Z := wrap 8 x.
Definition u16 (x : Z) : Z := wrap 16 x.
Definition u32 (x : Z) : Z := wrap 32 x.
Definition u64 (x : Z) : Z := wrap 64 x.

Definition sext (w x : Z) : Z :=
  let y := wrap w x in if y <? 2 ^ (w - 1) then y else y - 2 ^ w.
Definition s8 (x : Z) : Z := sext 8 x.
Definition s16 (x : Z) : Z := sext 16 x.
Definition s32 (x : Z) : Z := sext 32 x.
Definition s64 (x : Z) : Z := sext 64 x.

(** C's truth values, and [x ? 1 : 0]. *)
Definition b2z (b : bool) : Z := if b then 1 else 0.

Abbreviation in_range w x := (0 <= x < 2 ^ w)%Z.

Lemma wrap_range w x : (0 <= w)%Z -> in_range w (wrap w x).
Proof. intros. apply Z.mod_pos_bound, Z.pow_pos_nonneg; lia. Qed.

Lemma wrap_id w x : in_range w x -> wrap w x = x.
Proof. intros. by apply Z.mod_small. Qed.

Lemma u32_range x : in_range 32 (u32 x).
Proof. by apply wrap_range. Qed.

Lemma u32_id x : in_range 32 x -> u32 x = x.
Proof. apply wrap_id. Qed.

Lemma u8_range x : in_range 8 (u8 x).
Proof. by apply wrap_range. Qed.

(** ** Bits *)

Lemma land_bit x k : 0 <= k -> Z.land x (2 ^ k) = b2z (Z.testbit x k) * 2 ^ k.
Proof.
  intros Hk. apply Z.bits_inj'. intros n Hn.
  rewrite Z.land_spec, Z.pow2_bits_eqb by done.
  destruct (Z.testbit x k) eqn:Hx; simpl b2z.
  - rewrite Z.mul_1_l, Z.pow2_bits_eqb by done. destruct (Z.eqb_spec k n) as [->|]; [by rewrite Hx|].
    by rewrite andb_false_r.
  - rewrite Z.mul_0_l, Z.bits_0. destruct (Z.eqb_spec k n) as [->|]; [by rewrite Hx|].
    by rewrite andb_false_r.
Qed.

Lemma testbit_wrap w x i : 0 <= i < w -> Z.testbit (wrap w x) i = Z.testbit x i.
Proof. intros [? ?]. unfold wrap. rewrite Z.mod_pow2_bits_low by lia. done. Qed.

Lemma testbit_sext w x i : 0 <= i < w -> Z.testbit (sext w x) i = Z.testbit x i.
Proof.
  intros Hi. unfold sext. destruct (_ <? _); [by apply testbit_wrap|].
  rewrite <-(testbit_wrap w x i Hi).
  rewrite <-(Z.mod_pow2_bits_low (wrap w x - 2 ^ w) w) by lia.
  replace (wrap w x - 2 ^ w) with (wrap w x + (-1) * 2 ^ w) by lia.
  rewrite Z.mod_add by (apply Z.pow_nonzero; lia).
  rewrite Z.mod_pow2_bits_low by lia. done.
Qed.

(** The sign bit. *)
Lemma testbit_msb w x : 0 < w -> in_range w x -> Z.testbit x (w - 1) = (2 ^ (w - 1) <=? x).
Proof.
  intros Hw Hx. rewrite Z.testbit_eqb by lia.
  assert (2 ^ w = 2 * 2 ^ (w - 1)) as Hp by (rewrite <-Z.pow_succ_r by lia; f_equal; lia).
  destruct (Z.leb_spec (2 ^ (w - 1)) x) as [H|H].
  - replace (x / 2 ^ (w - 1)) with 1; [done|]. apply (Z.div_unique _ _ _ (x - 2 ^ (w - 1))); lia.
  - rewrite Z.div_small by lia. done.
Qed.

(** A bit of a sum: the bits of the summands and the carry from below. *)
Lemma testbit_add_carry x y c n :
  0 <= n -> 0 <= c <= 1 ->
  Z.testbit (x + y + c) n =
  xorb (xorb (Z.testbit x n) (Z.testbit y n)) (2 ^ n <=? x mod 2 ^ n + y mod 2 ^ n + c).
Proof.
  intros Hn Hc. rewrite !Z.testbit_odd, !Z.shiftr_div_pow2 by done.
  assert (0 < 2 ^ n) as Hp by (by apply Z.pow_pos_nonneg).
  pose proof (Z.mod_pos_bound x _ Hp). pose proof (Z.mod_pos_bound y _ Hp).
  assert ((x + y + c) / 2 ^ n =
    x / 2 ^ n + y / 2 ^ n + b2z (2 ^ n <=? x mod 2 ^ n + y mod 2 ^ n + c)) as ->.
  { rewrite (Z.div_mod x (2 ^ n)) at 1 by lia. rewrite (Z.div_mod y (2 ^ n)) at 1 by lia.
    symmetry. destruct (Z.leb_spec (2 ^ n) (x mod 2 ^ n + y mod 2 ^ n + c)); simpl b2z.
    - apply (Z.div_unique _ _ _ (x mod 2 ^ n + y mod 2 ^ n + c - 2 ^ n)); lia.
    - apply (Z.div_unique _ _ _ (x mod 2 ^ n + y mod 2 ^ n + c)); lia. }
  rewrite !Z.odd_add. by destruct (2 ^ n <=? _).
Qed.

(** ** Counting loops: [for (i = 0; i < n; i++) body] *)

Fixpoint for_loop {A} (n : nat) (body : Z -> A -> A) (a : A) : A :=
  match n with
  | O => a
  | S n' => body (Z.of_nat n') (for_loop n' body a)
  end.

Lemma for_loop_inv {A} (P : Z -> A -> Prop) n body a :
  P 0%Z a ->
  (forall i x, (0 <= i < Z.of_nat n)%Z -> P i x -> P (i + 1)%Z (body i x)) ->
  P (Z.of_nat n) (for_loop n body a).
Proof.
  intros H0 Hs. induction n as [|n IH]; [done|].
  rewrite Nat2Z.inj_succ. apply Hs; [lia|].
  apply IH. intros i x Hi. apply Hs. lia.
Qed.

(** The same loop with effects. *)
Fixpoint mfor {S} (n : nat) (body : Z -> M S unit) : M S unit :=
  match n with
  | O => ret tt
  | S n' => (mfor n' body ;; body (Z.of_nat n'))%c
  end.

Lemma mfor_inv {S} (P : Z -> S -> Prop) n (body : Z -> M S unit) s :
  P 0%Z s ->
  (forall i s, (0 <= i < Z.of_nat n)%Z -> P i s ->
     exists s', body i s = Ok (tt, s') /\ P (i + 1)%Z s') ->
  exists s', mfor n body s = Ok (tt, s') /\ P (Z.of_nat n) s'.
Proof.
  intros H0 Hs. induction n as [|n IH]; [by exists s|].
  destruct IH as (s1 & Hr1 & H1); [intros i s' Hi; apply Hs; lia|].
  destruct (Hs (Z.of_nat n) s1) as (s2 & Hr2 & H2); [lia|done|].
  exists s2. cbn [mfor]. rewrite (bind_ok _ _ _ _ _ Hr1). split; [done|].
  by rewrite Nat2Z.inj_succ.
Qed.

(** ** Automation *)

Create HintDb trace discriminated.
#[export] Hint Resolve wrap_range u32_range u8_range : trace.

(** Splits conjunctions and existentials of the context. *)
Ltac destr_hyps :=
  repeat match goal with
  | H : _ /\ _ |- _ => destruct H
  | H : exists _, _ |- _ => destruct H
  end.

(** Case analysis on every boolean integer comparison in sight. *)
Ltac zcase :=
  repeat match goal with
  | |- context [Z.eqb ?a ?b] => destruct (Z.eqb_spec a b)
  | |- context [Z.leb ?a ?b] => destruct (Z.leb_spec a b)
  | |- context [Z.ltb ?a ?b] => destruct (Z.ltb_spec a b)
  | H : context [Z.eqb ?a ?b] |- _ => destruct (Z.eqb_spec a b)
  | H : context [Z.leb ?a ?b] |- _ => destruct (Z.leb_spec a b)
  | H : context [Z.ltb ?a ?b] |- _ => destruct (Z.ltb_spec a b)
  end.

(** Flattens nested appends. *)
Ltac app_norm := repeat (progress (simpl; rewrite <-?app_assoc)).
