(* ===== verification/RbTree.v ===== *)
(** * The red-black tree of live kernel objects (rev_sem/rb_tree.c)

    The C code keeps one global tree of heap-allocated nodes linked by
    [left], [right] and [parent] pointers, with one statically allocated
    sentinel node standing for every leaf.  Here the store is a finite map
    from pointers to node records, [root] and the sentinel are part of it,
    and each C function is a state-passing function that performs the same
    loads, stores, allocations and frees in the same order. *)

From stdpp Require Import base gmap list strings countable.
From Stdlib Require Import ZArith Lia.
From S2P Require Import Prelude.

Local Open Scope Z_scope.
Local Open Scope c_scope.

(** ** Data (heap_shadow.h) *)

Inductive ptr : Type :=
| NULL
| SENTINEL              (** [&sentinel] *)
| Loc (n : positive).   (** a block returned by [malloc] *)

#[export] Instance ptr_eq_dec : EqDecision ptr.
Proof. solve_decision. Defined.

#[export] Program Instance ptr_countable : Countable ptr :=
  inj_countable'
    (fun p => match p with NULL => inl false | SENTINEL => inl true | Loc n => inr n end)
    (fun x => match x with inl false => NULL | inl true => SENTINEL | inr n => Loc n end) _.
Next Obligation. by intros []. Qed.

Definition ptr_eqb (a b : ptr) : bool := bool_decide (a = b).
#[global] Arguments ptr_eqb : simpl never.

Inductive nodeColor : Type := BLACK | RED.

Definition color_eqb (a b : nodeColor) : bool :=
  match a, b with BLACK, BLACK | RED, RED => true | _, _ => false end.

Inductive RbtStatus : Type :=
| RBT_STATUS_OK
| RBT_STATUS_MEM_EXHAUSTED
| RBT_STATUS_DUPLICATE_KEY
| RBT_STATUS_REALLOC_SMALL
| RBT_STATUS_REALLOC_LARGE
| RBT_STATUS_KEY_NOT_FOUND.

(** The node record; [KeyType] and [pc] are 32-bit, [type] is a [size_t]. *)
Record NodeType : Type := mkNode {
  n_left : ptr;
  n_right : ptr;
  n_parent : ptr;
  n_color : nodeColor;
  n_key : Z;
  n_size : Z;
  n_type : Z;
  n_pc : Z;
  n_obj_name : string
}.

(** The capacity of [obj_name], terminating NUL included. *)
Definition OBJ_NAME_LEN : nat := 30.

Definition set_left (v : ptr) (n : NodeType) : NodeType :=
  mkNode v (n_right n) (n_parent n) (n_color n) (n_key n) (n_size n) (n_type n) (n_pc n) (n_obj_name n).
Definition set_right (v : ptr) (n : NodeType) : NodeType :=
  mkNode (n_left n) v (n_parent n) (n_color n) (n_key n) (n_size n) (n_type n) (n_pc n) (n_obj_name n).
Definition set_parent (v : ptr) (n : NodeType) : NodeType :=
  mkNode (n_left n) (n_right n) v (n_color n) (n_key n) (n_size n) (n_type n) (n_pc n) (n_obj_name n).
Definition set_color (v : nodeColor) (n : NodeType) : NodeType :=
  mkNode (n_left n) (n_right n) (n_parent n) v (n_key n) (n_size n) (n_type n) (n_pc n) (n_obj_name n).
Definition set_key (v : Z) (n : NodeType) : NodeType :=
  mkNode (n_left n) (n_right n) (n_parent n) (n_color n) v (n_size n) (n_type n) (n_pc n) (n_obj_name n).
Definition set_size (v : Z) (n : NodeType) : NodeType :=
  mkNode (n_left n) (n_right n) (n_parent n) (n_color n) (n_key n) v (n_type n) (n_pc n) (n_obj_name n).
Definition set_type (v : Z) (n : NodeType) : NodeType :=
  mkNode (n_left n) (n_right n) (n_parent n) (n_color n) (n_key n) (n_size n) v (n_pc n) (n_obj_name n).
Definition set_pc (v : Z) (n : NodeType) : NodeType :=
  mkNode (n_left n) (n_right n) (n_parent n) (n_color n) (n_key n) (n_size n) (n_type n) v (n_obj_name n).
Definition set_obj_name (v : string) (n : NodeType) : NodeType :=
  mkNode (n_left n) (n_right n) (n_parent n) (n_color n) (n_key n) (n_size n) (n_type n) (n_pc n) v.

(** ** The store

    [avail] is the number of allocations [malloc] can still serve; [next] is
    the name of the next block it hands out. *)
Record rb_state : Type := mkState {
  heap : gmap ptr NodeType;
  root : ptr;
  next : positive;
  avail : nat
}.

Definition upd_heap (f : gmap ptr NodeType -> gmap ptr NodeType) (s : rb_state) : rb_state :=
  mkState (f (heap s)) (root s) (next s) (avail s).
Definition upd_root (r : ptr) (s : rb_state) : rb_state :=
  mkState (heap s) r (next s) (avail s).

(** [static NodeType sentinel = { SENTINEL, SENTINEL, 0, BLACK, 0 }]. *)
Definition sentinel : NodeType :=
  mkNode SENTINEL SENTINEL NULL BLACK 0 0 0 0 EmptyString.

(** The state before the first insertion, with [n] allocations available. *)
Definition rb_init (n : nat) : rb_state :=
  mkState {[ SENTINEL := sentinel ]} SENTINEL 1%positive n.

Definition load (p : ptr) : M rb_state NodeType :=
  fun s =>
    match p with
    | NULL => Fault NullDeref
    | _ => match heap s !! p with Some n => Ok (n, s) | None => Fault DeadAccess end
    end.

Definition store (p : ptr) (n : NodeType) : M rb_state unit :=
  fun s =>
    match p with
    | NULL => Fault NullDeref
    | _ => match heap s !! p with
           | Some _ => Ok (tt, upd_heap (<[p := n]>) s)
           | None => Fault DeadAccess
           end
    end.

(** [p->field] and [p->field = v]. *)
Definition rd {A} (field : NodeType -> A) (p : ptr) : M rb_state A :=
  n <- load p ;; ret (field n).
Definition wr {A} (field : A -> NodeType -> NodeType) (p : ptr) (v : A) : M rb_state unit :=
  n <- load p ;; store p (field v n).

Definition get_root : M rb_state ptr := fun s => Ok (root s, s).
Definition set_root (p : ptr) : M rb_state unit := fun s => Ok (tt, upd_root p s).

(** [malloc (sizeof ( *x))], with the contents it is given right after. *)
Definition malloc_node (n : NodeType) : M rb_state ptr :=
  fun s =>
    match avail s with
    | O => Ok (NULL, s)
    | S a => Ok (Loc (next s),
                 mkState (<[Loc (next s) := n]> (heap s)) (root s) (Pos.succ (next s)) a)
    end.

Definition free (p : ptr) : M rb_state unit :=
  fun s =>
    match p with
    | NULL => Ok (tt, s)
    | SENTINEL => Fault DeadAccess
    | Loc _ => match heap s !! p with
               | Some _ => Ok (tt, upd_heap (delete p) s)
               | None => Fault DeadAccess
               end
    end.

(** [strcpy] into an array of [cap] bytes. *)
Definition strcpy {S} (cap : nat) (src : string) : M S string :=
  if (String.length src <? cap)%nat then ret src else fail BufferOverflow.

(** Enough fuel for a walk along a simple path of the store. *)
Definition heap_fuel (s : rb_state) : nat := S (base.size (heap s)).

(** ** Rotations *)

Definition rotateLeft (x : ptr) : M rb_state unit :=
  y <- rd n_right x ;;
  yl <- rd n_left y ;;
  wr set_right x yl ;;
  yl <- rd n_left y ;;
  when (negb (ptr_eqb yl SENTINEL)) (wr set_parent yl x) ;;
  when (negb (ptr_eqb y SENTINEL)) (xp <- rd n_parent x ;; wr set_parent y xp) ;;
  xp <- rd n_parent x ;;
  (if negb (ptr_eqb xp NULL) then
     xpl <- rd n_left xp ;;
     if ptr_eqb x xpl then wr set_left xp y else wr set_right xp y
   else set_root y) ;;
  wr set_left y x ;;
  when (negb (ptr_eqb x SENTINEL)) (wr set_parent x y).

Definition rotateRight (x : ptr) : M rb_state unit :=
  y <- rd n_left x ;;
  yr <- rd n_right y ;;
  wr set_left x yr ;;
  yr <- rd n_right y ;;
  when (negb (ptr_eqb yr SENTINEL)) (wr set_parent yr x) ;;
  when (negb (ptr_eqb y SENTINEL)) (xp <- rd n_parent x ;; wr set_parent y xp) ;;
  xp <- rd n_parent x ;;
  (if negb (ptr_eqb xp NULL) then
     xpr <- rd n_right xp ;;
     if ptr_eqb x xpr then wr set_right xp y else wr set_left xp y
   else set_root y) ;;
  wr set_right y x ;;
  when (negb (ptr_eqb x SENTINEL)) (wr set_parent x y).

(** ** Insertion *)

(** [x->parent->parent]. *)
Definition grandparent (x : ptr) : M rb_state ptr :=
  p <- rd n_parent x ;; rd n_parent p.

(** One iteration of the loop of [insertFixup]; returns the new [x]. *)
Definition insertFixup_step (x : ptr) : M rb_state ptr :=
  p <- rd n_parent x ;;
  g <- grandparent x ;;
  gl <- rd n_left g ;;
  if ptr_eqb p gl then
    y <- rd n_right g ;;
    yc <- rd n_color y ;;
    if color_eqb yc RED then
      p <- rd n_parent x ;; wr set_color p BLACK ;;
      wr set_color y BLACK ;;
      g <- grandparent x ;; wr set_color g RED ;;
      grandparent x
    else
      p <- rd n_parent x ;;
      pr <- rd n_right p ;;
      x <- (if ptr_eqb x pr then rotateLeft p ;; ret p else ret x) ;;
      p <- rd n_parent x ;; wr set_color p BLACK ;;
      g <- grandparent x ;; wr set_color g RED ;;
      g <- grandparent x ;; rotateRight g ;;
      ret x
  else
    y <- rd n_left g ;;
    yc <- rd n_color y ;;
    if color_eqb yc RED then
      p <- rd n_parent x ;; wr set_color p BLACK ;;
      wr set_color y BLACK ;;
      g <- grandparent x ;; wr set_color g RED ;;
      grandparent x
    else
      p <- rd n_parent x ;;
      pl <- rd n_left p ;;
      x <- (if ptr_eqb x pl then rotateRight p ;; ret p else ret x) ;;
      p <- rd n_parent x ;; wr set_color p BLACK ;;
      g <- grandparent x ;; wr set_color g RED ;;
      g <- grandparent x ;; rotateLeft g ;;
      ret x.

Fixpoint insertFixup_loop (fuel : nat) (x : ptr) : M rb_state unit :=
  match fuel with
  | O => no_fuel
  | S fuel' =>
      c <- and_then
             (r <- get_root ;; ret (negb (ptr_eqb x r)))
             (p <- rd n_parent x ;; pc <- rd n_color p ;; ret (color_eqb pc RED)) ;;
      if c then x <- insertFixup_step x ;; insertFixup_loop fuel' x
      else ret tt
  end.

Definition insertFixup (x : ptr) : M rb_state unit :=
  s <- get ;;
  insertFixup_loop (heap_fuel s) x ;;
  r <- get_root ;; wr set_color r BLACK.

(** The descent of [rbtInsert]: the future parent, or the status of a clash
    with a node that has the same key. *)
Fixpoint rbtInsert_find (fuel : nat) (key size : Z) (current parent : ptr)
  : M rb_state (ptr + RbtStatus) :=
  match fuel with
  | O => no_fuel
  | S fuel' =>
      if ptr_eqb current SENTINEL then ret (inl parent)
      else
        n <- load current ;;
        if key =? n_key n then
          ret (inr (if size =? n_size n then RBT_STATUS_DUPLICATE_KEY
                    else if size <=? n_size n then RBT_STATUS_REALLOC_SMALL
                    else RBT_STATUS_REALLOC_LARGE))
        else
          rbtInsert_find fuel' key size
            (if key <? n_key n then n_left n else n_right n) current
  end.

Definition rbtInsert (key size : Z) (p : NodeType) : M rb_state RbtStatus :=
  s <- get ;;
  r <- get_root ;;
  f <- rbtInsert_find (heap_fuel s) key size r NULL ;;
  match f with
  | inr st => ret st
  | inl parent =>
      x <- malloc_node (mkNode SENTINEL SENTINEL parent RED key size (n_type p) (n_pc p) EmptyString) ;;
      if ptr_eqb x NULL then ret RBT_STATUS_MEM_EXHAUSTED
      else
        name <- strcpy OBJ_NAME_LEN (n_obj_name p) ;;
        wr set_obj_name x name ;;
        (if negb (ptr_eqb parent NULL) then
           pk <- rd n_key parent ;;
           if key <=? pk then wr set_left parent x else wr set_right parent x
         else set_root x) ;;
        insertFixup x ;;
        ret RBT_STATUS_OK
  end.

(** ** Deletion *)

(** The part of an iteration of [deleteFixup] that follows the treatment of a
    red sibling: [x] is a left child and [w] its sibling. *)
Definition deleteFixup_left (x w : ptr) : M rb_state ptr :=
  bb <- and_then
          (wl <- rd n_left w ;; c <- rd n_color wl ;; ret (color_eqb c BLACK))
          (wr_ <- rd n_right w ;; c <- rd n_color wr_ ;; ret (color_eqb c BLACK)) ;;
  if bb then
    wr set_color w RED ;;
    rd n_parent x
  else
    wr_ <- rd n_right w ;;
    c <- rd n_color wr_ ;;
    w <- (if color_eqb c BLACK then
            wl <- rd n_left w ;; wr set_color wl BLACK ;;
            wr set_color w RED ;;
            rotateRight w ;;
            p <- rd n_parent x ;; rd n_right p
          else ret w) ;;
    p <- rd n_parent x ;; pc <- rd n_color p ;; wr set_color w pc ;;
    p <- rd n_parent x ;; wr set_color p BLACK ;;
    wr_ <- rd n_right w ;; wr set_color wr_ BLACK ;;
    p <- rd n_parent x ;; rotateLeft p ;;
    get_root.

(** Its mirror image: [x] is a right child. *)
Definition deleteFixup_right (x w : ptr) : M rb_state ptr :=
  bb <- and_then
          (wr_ <- rd n_right w ;; c <- rd n_color wr_ ;; ret (color_eqb c BLACK))
          (wl <- rd n_left w ;; c <- rd n_color wl ;; ret (color_eqb c BLACK)) ;;
  if bb then
    wr set_color w RED ;;
    rd n_parent x
  else
    wl <- rd n_left w ;;
    c <- rd n_color wl ;;
    w <- (if color_eqb c BLACK then
            wr_ <- rd n_right w ;; wr set_color wr_ BLACK ;;
            wr set_color w RED ;;
            rotateLeft w ;;
            p <- rd n_parent x ;; rd n_left p
          else ret w) ;;
    p <- rd n_parent x ;; pc <- rd n_color p ;; wr set_color w pc ;;
    p <- rd n_parent x ;; wr set_color p BLACK ;;
    wl <- rd n_left w ;; wr set_color wl BLACK ;;
    p <- rd n_parent x ;; rotateRight p ;;
    get_root.

(** One iteration of the loop of [deleteFixup]; returns the new [x]. *)
Definition deleteFixup_step (x : ptr) : M rb_state ptr :=
  p <- rd n_parent x ;;
  pl <- rd n_left p ;;
  if ptr_eqb x pl then
    p <- rd n_parent x ;;
    w <- rd n_right p ;;
    wc <- rd n_color w ;;
    w <- (if color_eqb wc RED then
            wr set_color w BLACK ;;
            p <- rd n_parent x ;; wr set_color p RED ;;
            p <- rd n_parent x ;; rotateLeft p ;;
            p <- rd n_parent x ;; rd n_right p
          else ret w) ;;
    deleteFixup_left x w
  else
    p <- rd n_parent x ;;
    w <- rd n_left p ;;
    wc <- rd n_color w ;;
    w <- (if color_eqb wc RED then
            wr set_color w BLACK ;;
            p <- rd n_parent x ;; wr set_color p RED ;;
            p <- rd n_parent x ;; rotateRight p ;;
            p <- rd n_parent x ;; rd n_left p
          else ret w) ;;
    deleteFixup_right x w.

Fixpoint deleteFixup_loop (fuel : nat) (x : ptr) : M rb_state ptr :=
  match fuel with
  | O => no_fuel
  | S fuel' =>
      c <- and_then
             (r <- get_root ;; ret (negb (ptr_eqb x r)))
             (xc <- rd n_color x ;; ret (color_eqb xc BLACK)) ;;
      if c then x <- deleteFixup_step x ;; deleteFixup_loop fuel' x
      else ret x
  end.

Definition deleteFixup (x : ptr) : M rb_state unit :=
  s <- get ;;
  x <- deleteFixup_loop (S (heap_fuel s)) x ;;
  wr set_color x BLACK.

(** [while (y->left != SENTINEL) y = y->left;] *)
Fixpoint leftmost (fuel : nat) (y : ptr) : M rb_state ptr :=
  match fuel with
  | O => no_fuel
  | S fuel' =>
      yl <- rd n_left y ;;
      if ptr_eqb yl SENTINEL then ret y else leftmost fuel' yl
  end.

(** The node to unlink: [z] itself if it has a free slot, else its successor. *)
Definition erase_pick (z : ptr) : M rb_state ptr :=
  s <- get ;;
  zl <- rd n_left z ;;
  one_child <- (if ptr_eqb zl SENTINEL then ret true
                else zr <- rd n_right z ;; ret (ptr_eqb zr SENTINEL)) ;;
  if one_child then ret z
  else zr <- rd n_right z ;; leftmost (heap_fuel s) zr.

(** Removes [y] from its parent chain; returns its only child [x]. *)
Definition erase_unlink (y : ptr) : M rb_state ptr :=
  yl <- rd n_left y ;;
  x <- (if negb (ptr_eqb yl SENTINEL) then rd n_left y else rd n_right y) ;;
  yp <- rd n_parent y ;;
  wr set_parent x yp ;;
  yp <- rd n_parent y ;;
  (if negb (ptr_eqb yp NULL) then
     ypl <- rd n_left yp ;;
     if ptr_eqb y ypl then wr set_left yp x else wr set_right yp x
   else set_root x) ;;
  ret x.

(** The data copied when the unlinked node is not [z]. *)
Definition erase_copy (z y : ptr) : M rb_state unit :=
  k <- rd n_key y ;; wr set_key z k ;;
  sz <- rd n_size y ;; wr set_size z sz ;;
  t <- rd n_type y ;; wr set_type z t ;;
  pc <- rd n_pc y ;; wr set_pc z pc.

Definition rbtErase (z : ptr) : M rb_state RbtStatus :=
  y <- erase_pick z ;;
  x <- erase_unlink y ;;
  when (negb (ptr_eqb y z)) (erase_copy z y) ;;
  yc <- rd n_color y ;;
  when (color_eqb yc BLACK) (deleteFixup x) ;;
  free y ;;
  ret RBT_STATUS_OK.

(** ** Lookup *)

(** The node test of the search: [key] is in [current->key, key + size),
    the end of the range computed in 32 bits. *)
Definition covers (n : NodeType) (key : Z) : bool :=
  (n_key n <=? key) && (key <? u32 (n_key n + n_size n)).

Fixpoint rbtFind2_loop (fuel : nat) (key : Z) (current : ptr) : M rb_state ptr :=
  match fuel with
  | O => no_fuel
  | S fuel' =>
      if ptr_eqb current SENTINEL then ret NULL
      else
        n <- load current ;;
        if covers n key then ret current
        else rbtFind2_loop fuel' key
               (if key <=? n_key n then n_left n else n_right n)
  end.

Definition ds_code_rbtFind2 (key : Z) : M rb_state ptr :=
  s <- get ;; r <- get_root ;; rbtFind2_loop (heap_fuel s) key r.

(** ** Traversals *)

Fixpoint rbtInorder {P} (fuel : nat) (node : ptr) (callback : NodeType -> P -> P) (p : P)
  : M rb_state P :=
  match fuel with
  | O => no_fuel
  | S fuel' =>
      if ptr_eqb node SENTINEL then ret p
      else
        l <- rd n_left node ;;
        p <- rbtInorder fuel' l callback p ;;
        n <- load node ;;
        r <- rd n_right node ;;
        rbtInorder fuel' r callback (callback n p)
  end.

Definition ds_code_traverse {P} (callback : NodeType -> P -> P) (p : P) : M rb_state P :=
  s <- get ;; r <- get_root ;; rbtInorder (heap_fuel s) r callback p.

(** Delete nodes depth-first. *)
Fixpoint rbtDelete (fuel : nat) (p : ptr) : M rb_state unit :=
  match fuel with
  | O => no_fuel
  | S fuel' =>
      if ptr_eqb p SENTINEL then ret tt
      else
        l <- rd n_left p ;; rbtDelete fuel' l ;;
        r <- rd n_right p ;; rbtDelete fuel' r ;;
        free p
  end.

(** ** The object store built on the tree *)

(** [while (1) { dup = find2(key); if (dup == NULL) break; rbtErase(dup); }],
    the loop of [rbtInsert2] and of [ds_code_erase_all]. *)
Fixpoint erase_covering (fuel : nat) (key : Z) : M rb_state unit :=
  match fuel with
  | O => no_fuel
  | S fuel' =>
      dup <- ds_code_rbtFind2 key ;;
      if ptr_eqb dup NULL then ret tt
      else rbtErase dup ;; erase_covering fuel' key
  end.

Definition ds_code_erase_all (key size : Z) : M rb_state unit :=
  s <- get ;; erase_covering (heap_fuel s) key.

Definition rbtInsert2 (key size : Z) (p : NodeType) : M rb_state RbtStatus :=
  s <- get ;; erase_covering (heap_fuel s) key ;; rbtInsert key size p.

(** [p->size] read after [rbtErase(p)]: when the erasure freed the block, C
    says nothing about the value read; [stale] is that value. *)
Definition size_after_erase (stale : Z) (p : ptr) : M rb_state Z :=
  fun s => match heap s !! p with
           | Some n => Ok (n_size n, s)
           | None => Ok (stale, s)
           end.

(** Returns the value the C function returns (it is declared [void]). *)
Definition ds_code_all_delete_rb (stale : Z) (start_addr : Z) : M rb_state Z :=
  p <- ds_code_rbtFind2 start_addr ;;
  if ptr_eqb p NULL then ret 0
  else
    rbtErase p ;;
    sz <- size_after_erase stale p ;;
    ds_code_erase_all start_addr sz ;;
    ret 1.

(** The tree part of [ds_code_all_insert_rb]: the copy of the name into the
    local [data] and the insertion, with its [assert(0)] on any other status.
    The call of [set_createSys] between the two is in file Tracer. *)
Definition all_insert_name {S} (p : NodeType) : M S string :=
  strcpy OBJ_NAME_LEN (n_obj_name p).

Definition all_insert_tree (start_addr size : Z) (p : NodeType) : M rb_state unit :=
  code <- rbtInsert2 start_addr size p ;;
  match code with
  | RBT_STATUS_OK => ret tt
  | _ => fail AssertFailed
  end.
