(* ===== verification/RbShape.v ===== *)
(** * Shapes of the object tree

    A store of [RbTree] is described by a functional tree whose nodes carry
    the address of the block that holds them; a focused position inside the
    tree is described by a zipper.  The lemmas of this file run the pointer
    operations of rb_tree.c on such descriptions: reads, colour changes and
    the two rotations. *)

From stdpp Require Import base gmap list strings.
From Stdlib Require Import ZArith Lia.
From S2P Require Import Prelude RbTree.

Local Open Scope Z_scope.

(** ** Trees with addresses *)

(** The payload of a node. *)
Record entry : Type := mkEntry {
  e_key : Z;
  e_size : Z;
  e_type : Z;
  e_pc : Z;
  e_name : string
}.

Definition node_of (l r par : ptr) (c : nodeColor) (e : entry) : NodeType :=
  mkNode l r par c (e_key e) (e_size e) (e_type e) (e_pc e) (e_name e).

Definition entry_of (n : NodeType) : entry :=
  mkEntry (n_key n) (n_size n) (n_type n) (n_pc n) (n_obj_name n).

Inductive tree : Type :=
| E
| T (c : nodeColor) (l : tree) (p : positive) (e : entry) (r : tree).

Definition ptr_of (t : tree) : ptr :=
  match t with E => SENTINEL | T _ _ p _ _ => Loc p end.

Definition color_of (t : tree) : nodeColor :=
  match t with E => BLACK | T c _ _ _ _ => c end.

Definition paint (c : nodeColor) (t : tree) : tree :=
  match t with E => E | T _ l p e r => T c l p e r end.

Fixpoint locs (t : tree) : list positive :=
  match t with E => [] | T _ l p _ r => locs l ++ p :: locs r end.

Fixpoint inorder (t : tree) : list entry :=
  match t with E => [] | T _ l _ e r => inorder l ++ e :: inorder r end.

(** Blocks and objects together, left to right. *)
Fixpoint flat (t : tree) : list (positive * entry) :=
  match t with E => [] | T _ l p e r => flat l ++ (p, e) :: flat r end.

Fixpoint height (t : tree) : nat :=
  match t with E => 0 | T _ l _ _ r => S (Nat.max (height l) (height r)) end.

(** ** Zippers: the innermost frame comes first *)

Inductive frame : Type :=
| FL (c : nodeColor) (p : positive) (e : entry) (r : tree)   (** hole on the left *)
| FR (c : nodeColor) (l : tree) (p : positive) (e : entry).  (** hole on the right *)

Definition frame_loc (f : frame) : positive :=
  match f with FL _ p _ _ | FR _ _ p _ => p end.
Definition frame_color (f : frame) : nodeColor :=
  match f with FL c _ _ _ | FR c _ _ _ => c end.
Definition fill (f : frame) (t : tree) : tree :=
  match f with FL c p e r => T c t p e r | FR c l p e => T c l p e t end.

Fixpoint plug (k : list frame) (t : tree) : tree :=
  match k with [] => t | f :: k' => plug k' (fill f t) end.

Definition par_of (k : list frame) : ptr :=
  match k with [] => NULL | f :: _ => Loc (frame_loc f) end.

Fixpoint before {A} (g : tree -> list A) (h : positive -> entry -> A) (k : list frame) : list A :=
  match k with
  | [] => []
  | FL _ _ _ _ :: k' => before g h k'
  | FR _ l p e :: k' => before g h k' ++ g l ++ [h p e]
  end.
Fixpoint after {A} (g : tree -> list A) (h : positive -> entry -> A) (k : list frame) : list A :=
  match k with
  | [] => []
  | FL _ p e r :: k' => (h p e :: g r) ++ after g h k'
  | FR _ _ _ _ :: k' => after g h k'
  end.

Definition locs_before := before locs (fun p _ => p).
Definition locs_after := after locs (fun p _ => p).
Definition ents_before := before inorder (fun _ e => e).
Definition ents_after := after inorder (fun _ e => e).

Lemma locs_plug k t : locs (plug k t) = locs_before k ++ locs t ++ locs_after k.
Proof.
  revert t. induction k as [|[c p e r|c l p e] k IH]; intros t; simpl.
  - by rewrite app_nil_r.
  - rewrite IH. simpl. unfold locs_before, locs_after; simpl. by rewrite <-!app_assoc.
  - rewrite IH. simpl. unfold locs_before, locs_after; simpl. by rewrite <-!app_assoc.
Qed.

Lemma inorder_plug k t : inorder (plug k t) = ents_before k ++ inorder t ++ ents_after k.
Proof.
  revert t. induction k as [|[c p e r|c l p e] k IH]; intros t; simpl.
  - by rewrite app_nil_r.
  - rewrite IH. simpl. unfold ents_before, ents_after; simpl. by rewrite <-!app_assoc.
  - rewrite IH. simpl. unfold ents_before, ents_after; simpl. by rewrite <-!app_assoc.
Qed.

Lemma inorder_plug_eq k t1 t2 :
  inorder t1 = inorder t2 -> inorder (plug k t1) = inorder (plug k t2).
Proof. intros H. by rewrite !inorder_plug, H. Qed.

Lemma locs_flat t : locs t = (flat t).*1.
Proof. induction t as [|c l IHl p e r IHr]; [done|]. simpl. by rewrite fmap_app, IHl, IHr. Qed.

Lemma inorder_flat t : inorder t = (flat t).*2.
Proof. induction t as [|c l IHl p e r IHr]; [done|]. simpl. by rewrite fmap_app, IHl, IHr. Qed.

Lemma flat_plug_eq k t1 t2 : flat t1 = flat t2 -> flat (plug k t1) = flat (plug k t2).
Proof.
  revert t1 t2. induction k as [|f k IH]; intros t1 t2 H; [done|].
  simpl. apply IH. destruct f; simpl; by rewrite H.
Qed.

Lemma paint_flat c t : flat (paint c t) = flat t.
Proof. by destruct t. Qed.

Lemma plug_app k1 k2 t : plug (k1 ++ k2) t = plug k2 (plug k1 t).
Proof. revert t. induction k1 as [|f k1 IH]; intros t; [done|]. simpl. apply IH. Qed.

(** ** Representation *)

Fixpoint rep (h : gmap ptr NodeType) (par : ptr) (t : tree) : Prop :=
  match t with
  | E => True
  | T c l p e r =>
      h !! Loc p = Some (node_of (ptr_of l) (ptr_of r) par c e) /\
      rep h (Loc p) l /\ rep h (Loc p) r
  end.

(** The frames around a hole that is reached through pointer [hp]. *)
Fixpoint rep_ctx (h : gmap ptr NodeType) (rt : ptr) (k : list frame) (hp : ptr) : Prop :=
  match k with
  | [] => rt = hp
  | FL c p e r :: k' =>
      h !! Loc p = Some (node_of hp (ptr_of r) (par_of k') c e) /\
      rep h (Loc p) r /\ rep_ctx h rt k' (Loc p)
  | FR c l p e :: k' =>
      h !! Loc p = Some (node_of (ptr_of l) hp (par_of k') c e) /\
      rep h (Loc p) l /\ rep_ctx h rt k' (Loc p)
  end.

(** What holds of the store as a whole: distinct blocks, the blocks of the
    tree are live, fresh names are fresh, and the sentinel is black. *)
Record good (s : rb_state) (t : tree) : Prop := mkGood {
  g_nodup : NoDup (locs t);
  g_dom : forall p, p ∈ locs t -> is_Some (heap s !! Loc p);
  g_next : forall p, is_Some (heap s !! Loc p) -> (p < next s)%positive;
  g_sent : exists n, heap s !! SENTINEL = Some n /\ n_color n = BLACK
}.

Record zrep (s : rb_state) (k : list frame) (t : tree) : Prop := mkZrep {
  z_ctx : rep_ctx (heap s) (root s) k (ptr_of t);
  z_tree : rep (heap s) (par_of k) t;
  z_good : good s (plug k t)
}.

(** The store [s] holds the tree [t]. *)
Definition rb_rep (s : rb_state) (t : tree) : Prop := zrep s [] t.

(** The same blocks are allocated in both stores. *)
Definition same_blocks (s s' : rb_state) : Prop :=
  (forall p, is_Some (heap s' !! p) <-> is_Some (heap s !! p)) /\
  next s' = next s /\ avail s' = avail s.

(** What the restructuring operations leave alone. *)
Definition keeps (s s' : rb_state) : Prop :=
  heap s' !! SENTINEL = heap s !! SENTINEL /\ same_blocks s s'.

#[export] Instance same_blocks_preorder : PreOrder same_blocks.
Proof.
  split; [by intros ?|]. intros ??? (H1&?&?) (H2&?&?).
  split_and!; [intros p; by rewrite H2, H1|congruence..].
Qed.

Lemma same_blocks_size s s' : same_blocks s s' -> base.size (heap s') = base.size (heap s).
Proof.
  intros [Hd _]. rewrite <-!size_dom. apply set_size_proper. intros p. by rewrite !elem_of_dom.
Qed.

#[export] Instance keeps_preorder : PreOrder keeps.
Proof. split; [by intros ?|]. intros ??? (?&?) (?&?). split; [congruence|by etrans]. Qed.

(** ** Moving the focus *)

Lemma zrep_up s f k t : zrep s (f :: k) t <-> zrep s k (fill f t).
Proof.
  split; intros [Hc Ht Hg]; destruct f; simpl in *; destr_hyps;
    (split; simpl; split_and?; done).
Qed.

Lemma zrep_plug s k t : zrep s k t <-> rb_rep s (plug k t).
Proof.
  unfold rb_rep. revert t. induction k as [|f k IH]; intros t; [done|].
  rewrite zrep_up. apply IH.
Qed.

Lemma rb_rep_plug s k t : zrep s k t -> rb_rep s (plug k t).
Proof. apply zrep_plug. Qed.

Lemma zrep_down_l s k c l p e r : zrep s k (T c l p e r) <-> zrep s (FL c p e r :: k) l.
Proof. by rewrite zrep_up. Qed.

Lemma zrep_down_r s k c l p e r : zrep s k (T c l p e r) <-> zrep s (FR c l p e :: k) r.
Proof. by rewrite zrep_up. Qed.

(** ** Agreement of stores *)

Lemma rep_agree h h' par t :
  (forall p, p ∈ locs t -> h' !! Loc p = h !! Loc p) -> rep h par t -> rep h' par t.
Proof.
  revert par. induction t as [|c l IHl p e r IHr]; intros par Hag; [done|].
  simpl. intros (Hp & Hl & Hr). split_and!.
  - rewrite Hag; [done|]. set_solver.
  - apply IHl; [|done]. intros q Hq. apply Hag. set_solver.
  - apply IHr; [|done]. intros q Hq. apply Hag. set_solver.
Qed.

Lemma rep_ctx_agree h h' rt k hp :
  (forall p, p ∈ locs_before k ++ locs_after k -> h' !! Loc p = h !! Loc p) ->
  rep_ctx h rt k hp -> rep_ctx h' rt k hp.
Proof.
  revert hp. induction k as [|[c p e r|c l p e] k IH]; intros hp Hag; [done|..];
    simpl; intros (Hp & Hs & Hk); unfold locs_before, locs_after in *; simpl in *;
    (split_and!;
     [rewrite Hag; [done|set_solver]
     |eapply rep_agree; [|done]; intros q Hq; apply Hag; clear -Hq; set_solver
     |apply IH; [|done]; intros q Hq; apply Hag; clear -Hq; set_solver]).
Qed.

(** The same tree hanging from another parent. *)
Lemma rep_reparent h h' par par' t :
  (forall p, p ∈ locs t -> Loc p ≠ ptr_of t -> h' !! Loc p = h !! Loc p) ->
  (forall n, h !! ptr_of t = Some n -> t ≠ E -> h' !! ptr_of t = Some (set_parent par' n)) ->
  NoDup (locs t) -> rep h par t -> rep h' par' t.
Proof.
  destruct t as [|c l p e r]; [done|]. simpl.
  intros Hag Hp Hnd (Hn & Hl & Hr).
  apply NoDup_app in Hnd as (_ & Hd & Hnd'). apply NoDup_cons in Hnd' as [Hpr _].
  split_and!.
  - by rewrite (Hp _ Hn).
  - eapply rep_agree; [|done]. intros q Hq. apply Hag; [set_solver|].
    intros [= ->]. set_solver.
  - eapply rep_agree; [|done]. intros q Hq. apply Hag; [set_solver|].
    intros [= ->]. set_solver.
Qed.

(** ** Running loads and stores *)

Lemma load_ok s p n : heap s !! p = Some n -> p ≠ NULL -> load p s = Ok (n, s).
Proof. unfold load. intros H Hp. destruct p; [done|by rewrite H..]. Qed.

Lemma rd_ok {A} (f : NodeType -> A) s p n :
  heap s !! p = Some n -> p ≠ NULL -> rd f p s = Ok (f n, s).
Proof. intros H Hp. unfold rd. by rewrite (bind_ok _ _ _ _ _ (load_ok s p n H Hp)). Qed.

Lemma wr_ok {A} (f : A -> NodeType -> NodeType) s p v n :
  heap s !! p = Some n -> p ≠ NULL ->
  wr f p v s = Ok (tt, upd_heap (alter (f v) p) s).
Proof.
  intros H Hp. unfold wr. rewrite (bind_ok _ _ _ _ _ (load_ok s p n H Hp)).
  unfold store. destruct p; [done|..]; rewrite H; unfold upd_heap; do 3 f_equal;
    apply map_eq; intros q; rewrite lookup_insert, lookup_alter;
    case_decide; subst; by rewrite ?H.
Qed.

Lemma bind_rd {A B} (f : NodeType -> A) p n (g : A -> M rb_state B) s :
  heap s !! p = Some n -> p ≠ NULL -> bind (rd f p) g s = g (f n) s.
Proof. intros. apply bind_ok. by apply rd_ok. Qed.

Lemma bind_wr {A B} (f : A -> NodeType -> NodeType) p v n (g : unit -> M rb_state B) s :
  heap s !! p = Some n -> p ≠ NULL ->
  bind (wr f p v) g s = g tt (upd_heap (alter (f v) p) s).
Proof. intros. apply bind_ok. by eapply wr_ok. Qed.

Lemma ptr_eqb_true a b : a = b -> ptr_eqb a b = true.
Proof. intros ->. unfold ptr_eqb. by rewrite bool_decide_true. Qed.

Lemma ptr_eqb_false a b : a ≠ b -> ptr_eqb a b = false.
Proof. intros. unfold ptr_eqb. by rewrite bool_decide_false. Qed.

Lemma ptr_eqb_spec a b : reflect (a = b) (ptr_eqb a b).
Proof. unfold ptr_eqb. case_bool_decide; by constructor. Qed.

Create HintDb rbptr discriminated.
#[export] Hint Extern 1 (_ ≠ _) => congruence : rbptr.

(** Runs the reads and writes at the head of a program whose nodes have known
    contents in the context. *)
Ltac look :=
  cbn [heap root upd_heap upd_root];
  repeat first
    [ rewrite lookup_alter_eq
    | rewrite lookup_alter_ne by congruence ];
  cbn [fmap option_fmap option_map];
  first [eassumption | match goal with H : _ !! ?p = _ |- context [_ !! ?p] => rewrite H end; reflexivity].

Ltac run1 :=
  rewrite ?bind_assoc, ?bind_ret;
  first
    [ erewrite bind_rd; [|look|congruence]
    | erewrite bind_wr; [|look|congruence]
    | erewrite wr_ok; [|look|congruence]
    | erewrite rd_ok; [|look|congruence]
    | rewrite ptr_eqb_true by congruence; cbn [negb when]
    | rewrite ptr_eqb_false by congruence; cbn [negb when] ];
  cbn [n_left n_right n_parent n_color n_key n_size n_type n_pc n_obj_name node_of
       set_left set_right set_parent set_color set_key set_size set_type set_pc].

Ltac nodup_facts H :=
  repeat (rewrite ?NoDup_app, ?NoDup_cons in H); destruct_and?.

(** ** Relinking the parent of a subtree *)

(** [t]'s root block gets a new parent pointer. *)
Definition adopt (t : tree) (v : ptr) (h : gmap ptr NodeType) : gmap ptr NodeType :=
  match t with E => h | T _ _ _ _ _ => alter (set_parent v) (ptr_of t) h end.

(** The slot of the surrounding frame that holds the hole is overwritten. *)
Definition relink (k : list frame) (np : ptr) (s : rb_state) : rb_state :=
  match k with
  | [] => upd_root np s
  | FL _ p _ _ :: _ => upd_heap (alter (set_left np) (Loc p)) s
  | FR _ _ p _ :: _ => upd_heap (alter (set_right np) (Loc p)) s
  end.

Lemma upd_heap_id s : upd_heap (fun h => h) s = s.
Proof. by destruct s. Qed.

Lemma when_adopt s par t v :
  rep (heap s) par t ->
  when (negb (ptr_eqb (ptr_of t) SENTINEL)) (wr set_parent (ptr_of t) v) s
  = Ok (tt, upd_heap (adopt t v) s).
Proof.
  destruct t as [|c l p e r]; cbn [ptr_of rep].
  - intros _. by destruct s.
  - intros (Hp & _). rewrite ptr_eqb_false by congruence. cbn [negb when].
    by erewrite wr_ok.
Qed.

Lemma adopt_ne t v h q : q ≠ ptr_of t -> adopt t v h !! q = h !! q.
Proof. destruct t; simpl; [done|]. intros. by rewrite lookup_alter_ne by congruence. Qed.

Lemma adopt_eq t v h n : h !! ptr_of t = Some n -> t ≠ E ->
  adopt t v h !! ptr_of t = Some (set_parent v n).
Proof. destruct t; [done|]. simpl. intros H _. by rewrite lookup_alter_eq, H. Qed.

Lemma ptr_of_in t p : ptr_of t = Loc p -> p ∈ locs t.
Proof. destruct t; [done|]. simpl. intros [= ->]. set_solver. Qed.

Lemma relink_ne k np s q : q ≠ par_of k -> heap (relink k np s) !! q = heap s !! q.
Proof.
  destruct k as [|[c p e r|c l p e] k]; simpl; [done|..]; intros;
    by rewrite lookup_alter_ne by congruence.
Qed.

Lemma relink_misc k np s : next (relink k np s) = next s /\ avail (relink k np s) = avail s.
Proof. by destruct k as [|[] ?]. Qed.

Lemma relink_ctx k s hp np :
  NoDup (locs_before k ++ locs_after k) ->
  rep_ctx (heap s) (root s) k hp ->
  rep_ctx (heap (relink k np s)) (root (relink k np s)) k np.
Proof.
  destruct k as [|[c p e r|c l p e] k]; simpl; [done|..];
    unfold locs_before, locs_after; simpl; intros Hnd (Hp & Hs & Hk);
    rewrite ?NoDup_app, ?NoDup_cons in Hnd; destr_hyps.
  - split_and!.
    + by rewrite lookup_alter_eq, Hp.
    + eapply rep_agree; [|done]. intros q Hq. rewrite lookup_alter_ne; [done|].
      intros [= ->]. set_solver.
    + eapply rep_ctx_agree; [|done]. intros q Hq. rewrite lookup_alter_ne; [done|].
      intros [= ->]. unfold locs_before, locs_after in Hq. set_solver.
  - split_and!.
    + by rewrite lookup_alter_eq, Hp.
    + eapply rep_agree; [|done]. intros q Hq. rewrite lookup_alter_ne; [done|].
      intros [= ->]. set_solver.
    + eapply rep_ctx_agree; [|done]. intros q Hq. rewrite lookup_alter_ne; [done|].
      intros [= ->]. unfold locs_before, locs_after in Hq. set_solver.
Qed.

(** The conditional that rewires [x]'s parent to [y], testing the left slot
    first as in [rotateLeft] and [rbtErase]. *)
Lemma relink_left_first k s x np :
  rep_ctx (heap s) (root s) k (Loc x) ->
  x ∉ locs_before k ++ locs_after k ->
  (if negb (ptr_eqb (par_of k) NULL) then
     bind (rd n_left (par_of k)) (fun xpl =>
     if ptr_eqb (Loc x) xpl then wr set_left (par_of k) np else wr set_right (par_of k) np)
   else set_root np) s = Ok (tt, relink k np s).
Proof.
  destruct k as [|[c p e r|c l p e] k]; cbn [rep_ctx par_of frame_loc]; [done|..];
    intros (Hp & Hs & Hk) Hx; rewrite ptr_eqb_false by congruence; cbn [negb]; run1.
  - rewrite ptr_eqb_true by done. by erewrite wr_ok.
  - rewrite ptr_eqb_false; [by erewrite wr_ok|].
    unfold locs_before in Hx; simpl in Hx. intros Heq. symmetry in Heq.
    apply ptr_of_in in Heq. set_solver.
Qed.

(** The mirror image, as in [rotateRight]. *)
Lemma relink_right_first k s x np :
  rep_ctx (heap s) (root s) k (Loc x) ->
  x ∉ locs_before k ++ locs_after k ->
  (if negb (ptr_eqb (par_of k) NULL) then
     bind (rd n_right (par_of k)) (fun xpr =>
     if ptr_eqb (Loc x) xpr then wr set_right (par_of k) np else wr set_left (par_of k) np)
   else set_root np) s = Ok (tt, relink k np s).
Proof.
  destruct k as [|[c p e r|c l p e] k]; cbn [rep_ctx par_of frame_loc]; [done|..];
    intros (Hp & Hs & Hk) Hx; rewrite ptr_eqb_false by congruence; cbn [negb]; run1.
  - rewrite ptr_eqb_false; [by erewrite wr_ok|].
    unfold locs_after in Hx; simpl in Hx. intros Heq. symmetry in Heq.
    apply ptr_of_in in Heq. set_solver.
  - rewrite ptr_eqb_true by done. by erewrite wr_ok.
Qed.

Lemma par_of_in k p : par_of k = Loc p -> p ∈ locs_before k ++ locs_after k.
Proof.
  destruct k as [|[c q e r|c l q e] k]; simpl; [done|..]; intros [= ->];
    unfold locs_before, locs_after; simpl; set_solver.
Qed.

(** ** Distinct blocks *)

Lemma ptr_of_notin t p : p ∉ locs t -> Loc p ≠ ptr_of t.
Proof. intros Hp Heq. apply Hp. by apply ptr_of_in. Qed.
Lemma par_of_notin k p : p ∉ locs_before k -> p ∉ locs_after k -> Loc p ≠ par_of k.
Proof. intros Hp Hq Heq. symmetry in Heq. apply par_of_in, elem_of_app in Heq as []; done. Qed.

Lemma ptr_par_ne t k :
  (forall p, p ∈ locs t -> p ∉ locs_before k /\ p ∉ locs_after k) -> ptr_of t ≠ par_of k.
Proof.
  destruct t as [|c l p e r]; [by destruct k|]. intros H.
  destruct (H p) as [??]; [set_solver|]. by apply par_of_notin.
Qed.

(** Distinctness of the blocks around a rotated pair [x], [y]: [A] and [C] keep
    their parents, [B] moves from one to the other. *)
Record apart (k : list frame) (A : tree) (x : positive) (B : tree) (y : positive) (C : tree) : Prop := {
  ap_xy : Loc x ≠ Loc y;
  ap_xB : Loc x ≠ ptr_of B;
  ap_yB : Loc y ≠ ptr_of B;
  ap_xk : Loc x ≠ par_of k;
  ap_yk : Loc y ≠ par_of k;
  ap_Bk : ptr_of B ≠ par_of k;
  ap_A q : q ∈ locs A -> Loc q ≠ Loc x /\ Loc q ≠ Loc y /\ Loc q ≠ ptr_of B /\ Loc q ≠ par_of k;
  ap_B q : q ∈ locs B -> Loc q ≠ Loc x /\ Loc q ≠ Loc y /\ Loc q ≠ par_of k;
  ap_C q : q ∈ locs C -> Loc q ≠ Loc x /\ Loc q ≠ Loc y /\ Loc q ≠ ptr_of B /\ Loc q ≠ par_of k;
  ap_k q : q ∈ locs_before k ++ locs_after k ->
           q ≠ x /\ q ≠ y /\ Loc q ≠ Loc x /\ Loc q ≠ Loc y /\ Loc q ≠ ptr_of B;
  ap_ndB : NoDup (locs B);
  ap_ndk : NoDup (locs_before k ++ locs_after k)
}.

Lemma apart_intro k A x B y C :
  NoDup (locs_before k ++ (locs A ++ x :: locs B ++ y :: locs C) ++ locs_after k) ->
  apart k A x B y C.
Proof.
  intros Hnd. nodup_facts Hnd.
  assert (Loc x ≠ ptr_of B /\ Loc y ≠ ptr_of B) as [].
  { split; apply ptr_of_notin; set_solver. }
  assert (ptr_of B ≠ par_of k).
  { apply ptr_par_ne. set_solver. }
  split; try done.
  - intros [= ->]; set_solver.
  - apply par_of_notin; set_solver.
  - apply par_of_notin; set_solver.
  - intros q Hq. split_and!; [intros [= ->]; set_solver..|apply ptr_of_notin; set_solver
                             |apply par_of_notin; set_solver].
  - intros q Hq. split_and!; [intros [= ->]; set_solver..|apply par_of_notin; set_solver].
  - intros q Hq. split_and!; [intros [= ->]; set_solver..|apply ptr_of_notin; set_solver
                             |apply par_of_notin; set_solver].
  - intros q [Hq|Hq]%elem_of_app; split_and!; first
      [apply ptr_of_notin; set_solver | intros [= ->]; set_solver | intros ->; set_solver].
  - apply NoDup_app. set_solver.
Qed.

Lemma apart_ne k A x B y C : apart k A x B y C ->
  Loc x ≠ Loc y /\ Loc x ≠ ptr_of B /\ Loc y ≠ ptr_of B /\ Loc x ≠ par_of k /\
  Loc y ≠ par_of k /\ ptr_of B ≠ par_of k.
Proof. by intros []. Qed.

(** Blocks outside the ones written keep their contents. *)
Ltac others :=
  cbn [heap root upd_heap upd_root];
  repeat first
    [ rewrite lookup_alter_ne by congruence
    | rewrite adopt_ne by congruence
    | rewrite relink_ne by congruence; cbn [heap root upd_heap upd_root] ];
  reflexivity.

Ltac look ::=
  cbn [heap root upd_heap upd_root];
  repeat first
    [ rewrite lookup_alter_eq
    | rewrite lookup_alter_ne by congruence
    | rewrite adopt_ne by congruence
    | rewrite relink_ne by congruence; cbn [heap root upd_heap upd_root] ];
  cbn [fmap option_fmap option_map heap root upd_heap upd_root];
  first [eassumption
        | match goal with H : _ !! ?p = _ |- context [_ !! ?p] => rewrite H end; reflexivity].

Lemma zrep_rotate s s' k t t' :
  zrep s k t -> locs t' = locs t ->
  rep_ctx (heap s') (root s') k (ptr_of t') ->
  rep (heap s') (par_of k) t' ->
  keeps s s' -> zrep s' k t' /\ keeps s s'.
Proof.
  intros [_ _ [Hnd Hdom Hnx Hs]] Hl Hc Ht Hk. split; [|done].
  assert (locs (plug k t') = locs (plug k t)) as Hlk by (rewrite !locs_plug; congruence).
  split; [done..|]. destruct Hk as (Hk1 & Hd & Hk2 & Hk3).
  split; rewrite ?Hlk, ?Hk1, ?Hk2; try done; intros p; rewrite Hd; auto.
Qed.

Lemma alter_is_Some (f : NodeType -> NodeType) p (h : gmap ptr NodeType) q :
  is_Some (alter f p h !! q) <-> is_Some (h !! q).
Proof. by rewrite lookup_alter_is_Some. Qed.

Lemma relink_is_Some k np s q : is_Some (heap (relink k np s) !! q) <-> is_Some (heap s !! q).
Proof. destruct k as [|[] ?]; [done|..]; apply alter_is_Some. Qed.

Lemma keeps_alter s f p : keeps s (upd_heap (alter f (Loc p)) s).
Proof.
  split; [simpl; by rewrite lookup_alter_ne|]. split; [|done]. intros q. apply alter_is_Some.
Qed.

Lemma keeps_adopt s t v : keeps s (upd_heap (adopt t v) s).
Proof. destruct t; [done|]. apply keeps_alter. Qed.

Lemma keeps_relink s k np : keeps s (relink k np s).
Proof. destruct k as [|[] ?]; [done|..]; apply keeps_alter. Qed.

(** What the restructuring leaves of the rest of the store. *)
Ltac keeps_tac :=
  repeat first [reflexivity | etrans; [|apply keeps_alter] | etrans; [|apply keeps_adopt]
               | etrans; [|apply keeps_relink]].

(** ** The rotations *)

Lemma rotateLeft_spec s k cx A x ex cy B y ey C :
  zrep s k (T cx A x ex (T cy B y ey C)) ->
  exists s', rotateLeft (Loc x) s = Ok (tt, s') /\
    zrep s' k (T cy (T cx A x ex B) y ey C) /\ keeps s s'.
Proof.
  intros Hz. pose proof Hz as [Hc Ht [Hnd _ _ _]].
  rewrite locs_plug in Hnd. apply apart_intro in Hnd as Hap.
  destruct (apart_ne _ _ _ _ _ _ Hap) as (? & ? & ? & ? & ? & ?).
  simpl in Hc, Ht. destruct Ht as (Hx & HA & Hy & HB & HC).
  unfold rotateLeft. run1. run1. run1. run1.
  set (s1 := upd_heap _ s).
  assert (rep (heap s1) (Loc y) B) as HB1
    by (subst s1; eapply rep_agree; [|done]; intros q (?&?&?)%(ap_B _ _ _ _ _ _ Hap); others).
  rewrite (bind_ok _ _ _ _ _ (when_adopt _ _ _ (Loc x) HB1)). subst s1.
  do 4 run1.
  set (s3 := upd_heap (alter (set_parent _) _) _).
  assert (rep_ctx (heap s3) (root s3) k (Loc x)) as Hc3
    by (subst s3; eapply rep_ctx_agree; [|done]; intros q (?&?&?&?&?)%(ap_k _ _ _ _ _ _ Hap); others).
  erewrite bind_ok; [|apply relink_left_first; [done|by intros (?&?&?)%(ap_k _ _ _ _ _ _ Hap)]].
  pose proof (relink_ctx k s3 (Loc x) (Loc y) (ap_ndk _ _ _ _ _ _ Hap) Hc3) as Hc4.
  subst s3. do 3 run1.
  eexists. split; [done|]. eapply zrep_rotate; [done|..].
  - simpl. by rewrite <-!app_assoc.
  - eapply rep_ctx_agree; [|done]. intros q (?&?&?&?&?)%(ap_k _ _ _ _ _ _ Hap). others.
  - simpl. split_and!; [look|look|..].
    + eapply rep_agree; [|done]; intros q (?&?&?&?)%(ap_A _ _ _ _ _ _ Hap); others.
    + eapply rep_reparent; [| |by apply (ap_ndB _ _ _ _ _ _ Hap)|exact HB]; [intros q (?&?&?)%(ap_B _ _ _ _ _ _ Hap) ?; others|].
      intros n Hn HBE. rewrite !lookup_alter_ne, relink_ne by congruence. cbn [heap upd_heap].
      rewrite lookup_alter_ne by congruence. apply adopt_eq; [|done].
      by rewrite lookup_alter_ne by congruence.
    + eapply rep_agree; [|done]; intros q (?&?&?&?)%(ap_C _ _ _ _ _ _ Hap); others.
  - keeps_tac.
Qed.

Lemma rotateRight_spec s k cx A y ey cy B x ex C :
  zrep s k (T cx (T cy A y ey B) x ex C) ->
  exists s', rotateRight (Loc x) s = Ok (tt, s') /\
    zrep s' k (T cy A y ey (T cx B x ex C)) /\ keeps s s'.
Proof.
  intros Hz. pose proof Hz as [Hc Ht [Hnd _ _ _]].
  assert (apart k A y B x C) as Hap.
  { apply apart_intro. rewrite locs_plug in Hnd. simpl in Hnd.
    by rewrite <-(app_assoc (locs A)) in Hnd. }
  destruct (apart_ne _ _ _ _ _ _ Hap) as (? & ? & ? & ? & ? & ?).
  simpl in Hc, Ht. destruct Ht as (Hx & (Hy & HA & HB) & HC).
  unfold rotateRight. do 4 run1.
  set (s1 := upd_heap _ s).
  assert (rep (heap s1) (Loc y) B) as HB1
    by (subst s1; eapply rep_agree; [|done]; intros q (?&?&?)%(ap_B _ _ _ _ _ _ Hap); others).
  rewrite (bind_ok _ _ _ _ _ (when_adopt _ _ _ (Loc x) HB1)). subst s1.
  do 4 run1.
  set (s3 := upd_heap (alter (set_parent _) _) _).
  assert (rep_ctx (heap s3) (root s3) k (Loc x)) as Hc3
    by (subst s3; eapply rep_ctx_agree; [|done];
        intros q (?&?&?&?&?)%(ap_k _ _ _ _ _ _ Hap); others).
  erewrite bind_ok; [|apply relink_right_first; [done|by intros (?&?&?)%(ap_k _ _ _ _ _ _ Hap)]].
  pose proof (relink_ctx k s3 (Loc x) (Loc y) (ap_ndk _ _ _ _ _ _ Hap) Hc3) as Hc4.
  subst s3. do 3 run1.
  eexists. split; [done|]. eapply zrep_rotate; [done|..].
  - simpl. by rewrite <-!app_assoc.
  - eapply rep_ctx_agree; [|done]. intros q (?&?&?&?&?)%(ap_k _ _ _ _ _ _ Hap). others.
  - simpl. split_and!; [look| |look|..].
    + eapply rep_agree; [|done]; intros q (?&?&?&?)%(ap_A _ _ _ _ _ _ Hap); others.
    + eapply rep_reparent; [| |by apply (ap_ndB _ _ _ _ _ _ Hap)|exact HB];
        [intros q (?&?&?)%(ap_B _ _ _ _ _ _ Hap) ?; others|].
      intros n Hn HBE. rewrite !lookup_alter_ne, relink_ne by congruence. cbn [heap upd_heap].
      rewrite lookup_alter_ne by congruence. apply adopt_eq; [|done].
      by rewrite lookup_alter_ne by congruence.
    + eapply rep_agree; [|done]; intros q (?&?&?&?)%(ap_C _ _ _ _ _ _ Hap); others.
  - keeps_tac.
Qed.

(** ** Colours, parents and the root *)

(** The block at the focus: the sentinel for a leaf. *)
Lemma zrep_color s k t : zrep s k t ->
  exists n, heap s !! ptr_of t = Some n /\ n_color n = color_of t /\ ptr_of t ≠ NULL.
Proof.
  intros [_ Ht [_ _ _ [n [Hn Hc]]]]. destruct t as [|c l p e r]; [by exists n|].
  destruct Ht as [Hp _]. by eexists.
Qed.

(** Writing colour and data of the node at the focus. *)
Lemma zrep_node s k c c' l p e e' r f :
  zrep s k (T c l p e r) ->
  (forall a b par, f (node_of a b par c e) = node_of a b par c' e') ->
  zrep (upd_heap (alter f (Loc p)) s) k (T c' l p e' r).
Proof.
  intros Hz Hf. pose proof Hz as [Hc Ht [Hnd _ _ _]].
  rewrite locs_plug in Hnd. simpl in Hc, Ht, Hnd. destruct Ht as (Hp & Hl & Hr).
  nodup_facts Hnd.
  eapply (zrep_rotate s _ k (T c l p e r)); [done|done|..].
  - eapply rep_ctx_agree; [|done]. intros q Hq. simpl. rewrite lookup_alter_ne; [done|].
    intros [= ->]. apply elem_of_app in Hq. set_solver.
  - simpl. split_and!; [rewrite lookup_alter_eq, Hp; simpl; by rewrite Hf|..];
      (eapply rep_agree; [|done]; intros q Hq; rewrite lookup_alter_ne; [done|];
       intros [= ->]; set_solver).
  - apply keeps_alter.
Qed.

Lemma zrep_paint s k c c' l p e r :
  zrep s k (T c l p e r) ->
  zrep (upd_heap (alter (set_color c') (Loc p)) s) k (T c' l p e r).
Proof. intros Hz. by eapply zrep_node. Qed.

Lemma rep_ctx_root h rt f k hp : rep_ctx h rt (f :: k) hp ->
  exists p, rt = Loc p /\ p ∈ locs_before (f :: k) ++ locs_after (f :: k).
Proof.
  revert f hp. induction k as [|f' k IH]; intros f hp H.
  - exists (frame_loc f). destruct f; simpl in *; destr_hyps; split; try done;
      unfold locs_before, locs_after; simpl; set_solver.
  - assert (exists hp', rep_ctx h rt (f' :: k) hp') as [hp' H'].
    { destruct f; simpl in H; destr_hyps; eauto. }
    destruct (IH _ _ H') as (p & -> & Hp). exists p. split; [done|].
    unfold locs_before, locs_after in *. destruct f; simpl in *; set_solver.
Qed.

(** Only the root is the root. *)
Lemma zrep_not_root s f k t : zrep s (f :: k) t -> root s ≠ ptr_of t.
Proof.
  intros [Hc _ [Hnd _ _ _]]. destruct (rep_ctx_root _ _ _ _ _ Hc) as (p & -> & Hp).
  rewrite locs_plug in Hnd. apply ptr_of_notin.
  apply NoDup_app in Hnd as (_ & H1 & Hnd). apply NoDup_app in Hnd as (_ & H2 & _).
  apply elem_of_app in Hp as [Hp|Hp]; [|by intros ?%H2].
  intros Ht. apply (H1 p Hp), elem_of_app. by left.
Qed.

Lemma zrep_root s t : rb_rep s t -> root s = ptr_of t.
Proof. by intros [Hc _ _]. Qed.

(** ** Automation for programs on described stores *)

(** [zopen H] adds the contents of the blocks that the description [H] of the
    store mentions. *)
Ltac split_conj H :=
  lazymatch type of H with
  | _ /\ _ => let H1 := fresh "Hn" in let H2 := fresh "Hn" in
              destruct H as [H1 H2]; split_conj H1; split_conj H2
  | _ => idtac
  end.
Ltac zopen H :=
  let Hc := fresh "Hc" in let Ht := fresh "Ht" in
  pose proof (z_ctx _ _ _ H) as Hc; pose proof (z_tree _ _ _ H) as Ht;
  cbn [rep rep_ctx ptr_of par_of fill frame_loc] in Hc, Ht; split_conj Hc; split_conj Ht.


Lemma zrep_nodup s k t : zrep s k t -> NoDup (locs t).
Proof.
  intros [_ _ [Hnd _ _ _]]. rewrite locs_plug in Hnd.
  by apply NoDup_app in Hnd as (_ & _ & (? & _)%NoDup_app).
Qed.

(** Proves what a store holds after colour changes inside a described tree. *)
Ltac zpaint_at n :=
  first
    [ rewrite ?zrep_up; cbn [fill]; eassumption
    | eapply zrep_paint; rewrite ?zrep_up; cbn [fill]; zpaint_at 3%nat
    | lazymatch n with
      | S ?m => first [apply zrep_down_l; zpaint_at m | apply zrep_down_r; zpaint_at m]
      end ].
Ltac zpaint := rewrite ?zrep_up; cbn [fill]; zpaint_at 3%nat.

Lemma NoDup_sub {A} (l k : list A) : NoDup k -> l ⊆+ k -> NoDup l.
Proof. intros Hk [k' Hp]%submseteq_Permutation. rewrite Hp in Hk. by apply NoDup_app in Hk as [? _]. Qed.

(** Distinctness of the blocks named in a description. *)
Ltac zdistinct H names :=
  let Hd := fresh "Hd" in
  pose proof (zrep_nodup _ _ _ H) as Hd; cbn [locs] in Hd;
  apply (NoDup_sub names) in Hd; [|solve_submseteq];
  rewrite ?NoDup_cons, ?not_elem_of_cons in Hd; destruct_and?.


(** [x] is not the root of a subtree that does not contain it. *)
Ltac zoutside H x t :=
  let Hd := fresh "Hd" in
  assert (Loc x ≠ ptr_of t) by
    (apply ptr_of_notin; pose proof (zrep_nodup _ _ _ H) as Hd; cbn [locs] in Hd;
     apply (NoDup_sub (x :: locs t)) in Hd; [by apply NoDup_cons in Hd as [? _]|solve_submseteq]).


(** Runs a rotation at the head of the program; [t] describes the store there. *)
Ltac zrotate_with spec rot k t Hz' :=
  rewrite ?bind_assoc;
  match goal with
  | |- context [bind rot _ ?s0] =>
      let H0 := fresh in let s' := fresh "s" in let Hr := fresh in let Hk := fresh "Hk" in
      assert (zrep s0 k t) as H0 by zpaint;
      apply spec in H0 as (s' & Hr & Hz' & Hk); rewrite (bind_ok _ _ _ _ _ Hr); clear Hr
  end.
Tactic Notation "zrotL" constr(x) constr(k) constr(t) "as" ident(H) :=
  zrotate_with rotateLeft_spec (rotateLeft (Loc x)) k t H.
Tactic Notation "zrotR" constr(x) constr(k) constr(t) "as" ident(H) :=
  zrotate_with rotateRight_spec (rotateRight (Loc x)) k t H.

(** Forgets the blocks of earlier stores. *)
Ltac zforget s :=
  repeat match goal with
  | H : heap s !! _ = _ |- _ => clear H
  | H : rep (heap s) _ _ |- _ => clear H
  | H : rep_ctx (heap s) _ _ _ |- _ => clear H
  end.
