(* ===== verification/RbBalance.v ===== *)
(** * The red-black discipline

    The colouring invariant of the object tree, on whole trees and on
    zippers, and the height bound that follows from it. *)

From stdpp Require Import base gmap list strings.
From Stdlib Require Import ZArith Lia.
From S2P Require Import Prelude RbTree RbShape.

(** [rb c n t]: the root of [t] has colour [c], no red node has a red child,
    and every path to a leaf has [n] black nodes. *)
Inductive rb : nodeColor -> nat -> tree -> Prop :=
| rb_E : rb BLACK 0 E
| rb_R n l p e r : rb BLACK n l -> rb BLACK n r -> rb RED n (T RED l p e r)
| rb_B n cl cr l p e r : rb cl n l -> rb cr n r -> rb BLACK (S n) (T BLACK l p e r).

(** [rb_ctx c n k]: filling the hole with a tree of colour [c] and black
    height [n] gives a red-black tree with a black root. *)
Inductive rb_ctx : nodeColor -> nat -> list frame -> Prop :=
| rbc_nil n : rb_ctx BLACK n []
| rbc_RL n p e r k : rb BLACK n r -> rb_ctx RED n k -> rb_ctx BLACK n (FL RED p e r :: k)
| rbc_RR n l p e k : rb BLACK n l -> rb_ctx RED n k -> rb_ctx BLACK n (FR RED l p e :: k)
| rbc_BL c c' n p e r k :
    rb c' n r -> rb_ctx BLACK (S n) k -> rb_ctx c n (FL BLACK p e r :: k)
| rbc_BR c c' n l p e k :
    rb c' n l -> rb_ctx BLACK (S n) k -> rb_ctx c n (FR BLACK l p e :: k).

(** The invariant of the tree between operations. *)
Definition rb_tree (t : tree) : Prop := exists n, rb BLACK n t.

Create HintDb rb discriminated.
#[export] Hint Constructors rb rb_ctx : rb.

Lemma rb_color c n t : rb c n t -> color_of t = c.
Proof. by destruct 1. Qed.

Lemma rb_plug c n k t : rb_ctx c n k -> rb c n t -> rb_tree (plug k t).
Proof.
  intros Hk. revert t. induction Hk; intros t Ht; simpl.
  - by eexists.
  - apply IHHk. eauto with rb.
  - apply IHHk. eauto with rb.
  - apply IHHk. eauto with rb.
  - apply IHHk. eauto with rb.
Qed.

Lemma rb_unplug k t : rb_tree (plug k t) -> exists c n, rb c n t /\ rb_ctx c n k.
Proof.
  revert t. induction k as [|f k IH]; intros t Ht; simpl in *.
  - destruct Ht as [n Hn]. eauto with rb.
  - destruct (IH _ Ht) as (c & n & Hrb & Hk). destruct f; simpl in *;
      inversion Hrb; subst; eauto with rb.
Qed.

(** A context that takes a red tree also takes a black one of that height. *)
Lemma rb_ctx_black n k : rb_ctx RED n k -> rb_ctx BLACK n k.
Proof. inversion 1; subst; eauto with rb. Qed.

(** A red tree can only hang below a black node. *)
Lemma rb_ctx_red_inv n k : rb_ctx RED n k ->
  exists f k', k = f :: k' /\ frame_color f = BLACK.
Proof. inversion 1; subst; eauto. Qed.

Lemma rb_paint c n t : rb c n t -> rb_tree (paint BLACK t).
Proof. destruct 1; eexists; simpl; eauto with rb. Qed.

Lemma rb_paint_black t : rb_tree t -> paint BLACK t = t.
Proof. intros [n Hn]. by inversion Hn. Qed.

Lemma paint_inorder c t : inorder (paint c t) = inorder t.
Proof. by destruct t. Qed.

Lemma paint_locs c t : locs (paint c t) = locs t.
Proof. by destruct t. Qed.

(** ** Height *)

Fixpoint count (t : tree) : nat :=
  match t with E => 0 | T _ l _ _ r => S (count l + count r) end.

Lemma count_inorder t : count t = length (inorder t).
Proof. induction t; simpl; [done|]. rewrite length_app. simpl. lia. Qed.

Lemma count_locs t : count t = length (locs t).
Proof. induction t; simpl; [done|]. rewrite length_app. simpl. lia. Qed.

Lemma height_count t : (height t <= count t)%nat.
Proof. induction t; simpl; lia. Qed.

Lemma rb_count c n t : rb c n t -> (2 ^ n <= S (count t))%nat.
Proof. induction 1; simpl in *; lia. Qed.

Lemma rb_height c n t : rb c n t ->
  (height t <= 2 * n + match c with RED => 1 | BLACK => 0 end)%nat.
Proof.
  induction 1; simpl in *; [lia|lia|]. destruct cl, cr; lia.
Qed.

(** A tree that satisfies the invariant is at most twice as high as a perfectly
    balanced one. *)
Lemma rb_tree_height t : rb_tree t -> (height t <= 2 * Nat.log2 (S (count t)))%nat.
Proof.
  intros [n Hn]. apply rb_height in Hn as Hh. apply rb_count in Hn as Hc.
  apply Nat.log2_le_mono in Hc. rewrite Nat.log2_pow2 in Hc by lia. lia.
Qed.

(** ** Enough fuel *)

Lemma length_plug k t : (length k + height t <= height (plug k t))%nat.
Proof.
  revert t. induction k as [|f k IH]; intros t; simpl; [lia|].
  specialize (IH (fill f t)). destruct f; simpl in *; lia.
Qed.

Lemma count_heap s t : rb_rep s t -> (count t < base.size (heap s))%nat.
Proof.
  intros [_ _ [Hnd Hdom _ [n [Hs _]]]].
  assert (size (list_to_set (SENTINEL :: (Loc <$> locs t)) : gset ptr) = S (count t)) as Hsz.
  { rewrite size_list_to_set.
    - simpl. by rewrite length_fmap, count_locs.
    - apply NoDup_cons. split; [intros (q & ? & _)%list_elem_of_fmap; done|].
      apply NoDup_fmap_2; [by intros ?? [=]|done]. }
  rewrite <-size_dom. unfold lt. rewrite <-Hsz. apply subseteq_size.
  intros q Hq. apply elem_of_dom. rewrite elem_of_list_to_set in Hq.
  apply elem_of_cons in Hq as [->|(p & -> & Hp)%list_elem_of_fmap]; [by rewrite Hs|].
  by apply Hdom.
Qed.

(** A path of the tree is shorter than the fuel of the loops. *)
Lemma heap_fuel_enough s k t : zrep s k t -> (length k + height t < heap_fuel s)%nat.
Proof.
  intros Hz%zrep_plug. pose proof (count_heap _ _ Hz). pose proof (length_plug k t).
  pose proof (height_count (plug k t)). unfold heap_fuel. lia.
Qed.
