(* ===== verification/RbInsert.v ===== *)
(** * Insertion into the object tree

    [insertFixup] restores the red-black discipline and keeps the in-order
    sequence; [rbtInsert] puts the new object at its place in that sequence or
    reports the clash. *)

From stdpp Require Import base gmap list strings.
From Stdlib Require Import ZArith Lia Sorted.
From S2P Require Import Prelude RbTree RbShape RbBalance.

(** ** One iteration of [insertFixup]

    [g] is the grandparent of [x]; the uncle is red in the first two lemmas
    and black in the other four. *)

Lemma fixup_red_L s k f l x e r g eg yl y ey yr :
  frame_color f = RED ->
  zrep s (f :: FL BLACK g eg (T RED yl y ey yr) :: k) (T RED l x e r) ->
  exists s', insertFixup_step (Loc x) s = Ok (Loc g, s') /\
    zrep s' k (T RED (paint BLACK (fill f (T RED l x e r))) g eg (T BLACK yl y ey yr)) /\ keeps s s'.
Proof.
  destruct f as [c p ep u|c u p ep]; simpl; intros -> Hz; rewrite !zrep_up in Hz; cbn [fill] in Hz;
    zdistinct Hz [x; p; g; y]; zopen Hz; unfold insertFixup_step, grandparent;
    repeat run1; cbn [color_eqb]; repeat run1;
    (eexists; split; [done|]; split; [zpaint|keeps_tac]).
Qed.

Lemma fixup_red_R s k f l x e r g eg yl y ey yr :
  frame_color f = RED ->
  zrep s (f :: FR BLACK (T RED yl y ey yr) g eg :: k) (T RED l x e r) ->
  exists s', insertFixup_step (Loc x) s = Ok (Loc g, s') /\
    zrep s' k (T RED (T BLACK yl y ey yr) g eg (paint BLACK (fill f (T RED l x e r)))) /\ keeps s s'.
Proof.
  destruct f as [c p ep u|c u p ep]; simpl; intros -> Hz; rewrite !zrep_up in Hz; cbn [fill] in Hz;
    zdistinct Hz [x; p; g; y]; zopen Hz; unfold insertFixup_step, grandparent;
    repeat run1; cbn [color_eqb]; repeat run1;
    (eexists; split; [done|]; split; [zpaint|keeps_tac]).
Qed.


Lemma fixup_LL s k l x e r p ep u g eg y :
  color_of y = BLACK ->
  zrep s (FL RED p ep u :: FL BLACK g eg y :: k) (T RED l x e r) ->
  exists s', insertFixup_step (Loc x) s = Ok (Loc x, s') /\
    zrep s' (FL BLACK p ep (T RED u g eg y) :: k) (T RED l x e r) /\ keeps s s'.
Proof.
  intros Hcy Hz. rewrite !zrep_up in Hz; cbn [fill] in Hz.
  destruct (zrep_color s (FR BLACK (T RED (T RED l x e r) p ep u) g eg :: k) y)
    as (ny & Hy & Hyc & ?); [by rewrite zrep_up|].
  zdistinct Hz [x; p; g]. zoutside Hz x u. zopen Hz. unfold insertFixup_step, grandparent.
  repeat run1. rewrite Hyc, Hcy. cbn [color_eqb]. repeat run1.
  zrotR g k (T RED (T BLACK (T RED l x e r) p ep u) g eg y) as Hz1.
  eexists. split; [done|]. split; [zpaint|]. etrans; [|done]. keeps_tac.
Qed.

Lemma fixup_LR s k l x e r p ep u g eg y :
  color_of y = BLACK ->
  zrep s (FR RED u p ep :: FL BLACK g eg y :: k) (T RED l x e r) ->
  exists s', insertFixup_step (Loc x) s = Ok (Loc p, s') /\
    zrep s' (FL BLACK x e (T RED r g eg y) :: k) (T RED u p ep l) /\ keeps s s'.
Proof.
  intros Hcy Hz. rewrite !zrep_up in Hz; cbn [fill] in Hz.
  destruct (zrep_color s (FR BLACK (T RED u p ep (T RED l x e r)) g eg :: k) y)
    as (ny & Hy & Hyc & ?); [by rewrite zrep_up|].
  zdistinct Hz [x; p; g]. zopen Hz. unfold insertFixup_step, grandparent.
  repeat run1. rewrite Hyc, Hcy. cbn [color_eqb]. repeat run1.
  zrotL p (FL BLACK g eg y :: k) (T RED u p ep (T RED l x e r)) as Hz1.
  rewrite zrep_up in Hz1. cbn [fill] in Hz1. zforget s. zopen Hz1. repeat run1.
  zrotR g k (T RED (T BLACK (T RED u p ep l) x e r) g eg y) as Hz2.
  eexists. split; [done|]. split; [zpaint|]. etrans; [done|]. etrans; [|done]. keeps_tac.
Qed.

Lemma fixup_RR s k l x e r p ep u g eg y :
  color_of y = BLACK ->
  zrep s (FR RED u p ep :: FR BLACK y g eg :: k) (T RED l x e r) ->
  exists s', insertFixup_step (Loc x) s = Ok (Loc x, s') /\
    zrep s' (FR BLACK (T RED y g eg u) p ep :: k) (T RED l x e r) /\ keeps s s'.
Proof.
  intros Hcy Hz. rewrite !zrep_up in Hz; cbn [fill] in Hz.
  destruct (zrep_color s (FL BLACK g eg (T RED u p ep (T RED l x e r)) :: k) y)
    as (ny & Hy & Hyc & ?); [by rewrite zrep_up|].
  zdistinct Hz [x; p; g]. zoutside Hz x u. zoutside Hz p y. zopen Hz.
  unfold insertFixup_step, grandparent.
  repeat run1. rewrite Hyc, Hcy. cbn [color_eqb]. repeat run1.
  zrotL g k (T RED y g eg (T BLACK u p ep (T RED l x e r))) as Hz1.
  eexists. split; [done|]. split; [zpaint|]. etrans; [|done]. keeps_tac.
Qed.

Lemma fixup_RL s k l x e r p ep u g eg y :
  color_of y = BLACK ->
  zrep s (FL RED p ep u :: FR BLACK y g eg :: k) (T RED l x e r) ->
  exists s', insertFixup_step (Loc x) s = Ok (Loc p, s') /\
    zrep s' (FR BLACK (T RED y g eg l) x e :: k) (T RED r p ep u) /\ keeps s s'.
Proof.
  intros Hcy Hz. rewrite !zrep_up in Hz; cbn [fill] in Hz.
  destruct (zrep_color s (FL BLACK g eg (T RED (T RED l x e r) p ep u) :: k) y)
    as (ny & Hy & Hyc & ?); [by rewrite zrep_up|].
  zdistinct Hz [x; p; g]. zoutside Hz p y. zopen Hz. unfold insertFixup_step, grandparent.
  repeat run1. rewrite Hyc, Hcy. cbn [color_eqb]. repeat run1.
  zrotR p (FR BLACK y g eg :: k) (T RED (T RED l x e r) p ep u) as Hz1.
  rewrite zrep_up in Hz1. cbn [fill] in Hz1. zforget s. zopen Hz1. repeat run1.
  zrotL g k (T RED y g eg (T BLACK l x e (T RED r p ep u))) as Hz2.
  eexists. split; [done|]. split; [zpaint|]. etrans; [done|]. etrans; [|done]. keeps_tac.
Qed.

(** ** The loop *)

Lemma not_root_test s x : root s ≠ x ->
  bind get_root (fun r => ret (negb (ptr_eqb x r))) s = Ok (true, s).
Proof. intros. unfold bind, get_root. by rewrite ptr_eqb_false. Qed.

Lemma is_root_test s x : root s = x ->
  bind get_root (fun r => ret (negb (ptr_eqb x r))) s = Ok (false, s).
Proof. intros. unfold bind, get_root. by rewrite ptr_eqb_true. Qed.

Lemma insert_loop_stop fuel s f k t :
  zrep s (f :: k) t -> t ≠ E -> frame_color f = BLACK ->
  insertFixup_loop (S fuel) (ptr_of t) s = Ok (tt, s).
Proof.
  intros Hz Ht Hf. pose proof (zrep_not_root _ _ _ _ Hz) as Hr.
  destruct t as [|c l x e r]; [done|]. cbn [insertFixup_loop ptr_of] in *.
  erewrite bind_ok; [|rewrite (and_then_true _ _ _ _ (not_root_test _ _ Hr));
    destruct f; cbn [frame_color] in Hf; subst; zopen Hz; repeat run1; done].
  done.
Qed.

Lemma insert_loop_root fuel s t :
  rb_rep s t -> insertFixup_loop (S fuel) (ptr_of t) s = Ok (tt, s).
Proof.
  intros Hz. pose proof (zrep_root _ _ Hz) as Hr. cbn [insertFixup_loop].
  by rewrite (bind_ok _ _ _ _ _ (and_then_false _ _ _ _ (is_root_test _ _ Hr))).
Qed.

Lemma insert_loop_step fuel s f k t x' s' :
  zrep s (f :: k) t -> t ≠ E -> frame_color f = RED ->
  insertFixup_step (ptr_of t) s = Ok (x', s') ->
  insertFixup_loop (S fuel) (ptr_of t) s = insertFixup_loop fuel x' s'.
Proof.
  intros Hz Ht Hf Hs. pose proof (zrep_not_root _ _ _ _ Hz) as Hr.
  destruct t as [|c l x e r]; [done|]. cbn [insertFixup_loop ptr_of] in *.
  erewrite bind_ok; [|rewrite (and_then_true _ _ _ _ (not_root_test _ _ Hr));
    destruct f; cbn [frame_color] in Hf; subst; zopen Hz; repeat run1; done].
  cbn [color_eqb]. by rewrite (bind_ok _ _ _ _ _ Hs).
Qed.

(** Discharges the colouring, height and order obligations of a case. *)
Ltac rb_done Hk Hy Hk2 :=
  inversion Hk; subst; inversion Hy; subst; simpl in *; try discriminate;
  split_and?; try done; try lia;
  try (eapply (rb_plug BLACK); [exact Hk2|]);
  try (by eauto 8 with rb);
  try (apply inorder_plug_eq; app_norm; done).

(** What one iteration achieves when the parent of [x] is red: either the
    violation moves two levels up, or it is gone. *)
Lemma insertFixup_step_spec s f k l x e r n :
  zrep s (f :: k) (T RED l x e r) -> frame_color f = RED ->
  rb BLACK n l -> rb BLACK n r -> rb_ctx BLACK n (f :: k) ->
  exists s' x', insertFixup_step (Loc x) s = Ok (x', s') /\ keeps s s' /\
    ((exists k' l' g eg r', x' = Loc g /\ zrep s' k' (T RED l' g eg r') /\
        (length k' < length k)%nat /\ rb BLACK (S n) l' /\ rb BLACK (S n) r' /\
        rb_ctx BLACK (S n) k' /\
        inorder (plug k' (T RED l' g eg r')) = inorder (plug (f :: k) (T RED l x e r))) \/
     (exists f' k' t', x' = ptr_of t' /\ t' ≠ E /\ zrep s' (f' :: k') t' /\
        frame_color f' = BLACK /\ rb_tree (plug (f' :: k') t') /\
        inorder (plug (f' :: k') t') = inorder (plug (f :: k) (T RED l x e r)))).
Proof.
  intros Hz Hf Hl Hr Hk.
  assert (rb_ctx RED n k) as Hk' by (destruct f; simpl in Hf; subst; by inversion Hk).
  destruct (rb_ctx_red_inv _ _ Hk') as (f2 & k2 & -> & Hf2).
  assert (forall c m t, rb c m t -> color_of t = RED -> exists tl p te tr, t = T RED tl p te tr)
    as Hred by (intros ??? [] ?; simpl in *; naive_solver).
  destruct f2 as [c2 g eg y|c2 y g eg]; simpl in Hf2; subst c2.
  - assert (exists cy, rb cy n y /\ rb_ctx BLACK (S n) k2) as (cy & Hy & Hk2)
      by (inversion Hk'; subst; eauto).
    destruct (color_of y) eqn:Hcy.
    + destruct f as [c p ep u|c u p ep]; simpl in Hf; subst c.
      * destruct (fixup_LL _ _ _ _ _ _ _ _ _ _ _ _ Hcy Hz) as (s' & Hs & Hz' & Hkp).
        eexists _, _. split_and!; [done..|right].
        exists (FL BLACK p ep (T RED u g eg y)), k2, (T RED l x e r). rb_done Hk Hy Hk2.
      * destruct (fixup_LR _ _ _ _ _ _ _ _ _ _ _ _ Hcy Hz) as (s' & Hs & Hz' & Hkp).
        eexists _, _. split_and!; [done..|right].
        exists (FL BLACK x e (T RED r g eg y)), k2, (T RED u p ep l). rb_done Hk Hy Hk2.
    + destruct (Hred _ _ _ Hy Hcy) as (yl & yp & ey & yr & ->).
      destruct (fixup_red_L _ _ _ _ _ _ _ _ _ _ _ _ _ Hf Hz) as (s' & Hs & Hz' & Hkp).
      eexists _, _. split_and!; [done..|left].
      eexists k2, _, g, eg, _. split; [done|]. split; [done|].
      destruct f as [c p ep u|c u p ep]; simpl in Hf; subst c; rb_done Hk Hy Hk2.
  - assert (exists cy, rb cy n y /\ rb_ctx BLACK (S n) k2) as (cy & Hy & Hk2)
      by (inversion Hk'; subst; eauto).
    destruct (color_of y) eqn:Hcy.
    + destruct f as [c p ep u|c u p ep]; simpl in Hf; subst c.
      * destruct (fixup_RL _ _ _ _ _ _ _ _ _ _ _ _ Hcy Hz) as (s' & Hs & Hz' & Hkp).
        eexists _, _. split_and!; [done..|right].
        exists (FR BLACK (T RED y g eg l) x e), k2, (T RED r p ep u). rb_done Hk Hy Hk2.
      * destruct (fixup_RR _ _ _ _ _ _ _ _ _ _ _ _ Hcy Hz) as (s' & Hs & Hz' & Hkp).
        eexists _, _. split_and!; [done..|right].
        exists (FR BLACK (T RED y g eg u) p ep), k2, (T RED l x e r). rb_done Hk Hy Hk2.
    + destruct (Hred _ _ _ Hy Hcy) as (yl & yp & ey & yr & ->).
      destruct (fixup_red_R _ _ _ _ _ _ _ _ _ _ _ _ _ Hf Hz) as (s' & Hs & Hz' & Hkp).
      eexists _, _. split_and!; [done..|left].
      eexists k2, _, g, eg, _. split; [done|]. split; [done|].
      destruct f as [c p ep u|c u p ep]; simpl in Hf; subst c; rb_done Hk Hy Hk2.
Qed.

Lemma insertFixup_loop_spec fuel s k l x e r n :
  zrep s k (T RED l x e r) -> rb BLACK n l -> rb BLACK n r -> rb_ctx BLACK n k ->
  (length k < fuel)%nat ->
  exists s' t', insertFixup_loop fuel (Loc x) s = Ok (tt, s') /\ rb_rep s' t' /\
    keeps s s' /\ rb_tree (paint BLACK t') /\ inorder t' = inorder (plug k (T RED l x e r)).
Proof.
  revert s k l x e r n.
  induction fuel as [|fuel IH]; intros s k l x e r n Hz Hl Hr Hk Hf; [lia|].
  destruct k as [|f k].
  - eexists s, _. split; [by apply (insert_loop_root _ _ (T RED l x e r))|].
    split_and!; [done|done| |done]. eexists. simpl. eauto with rb.
  - destruct (frame_color f) eqn:Hfc.
    + exists s, (plug (f :: k) (T RED l x e r)).
      split; [by apply (insert_loop_stop _ _ f k (T RED l x e r))|].
      assert (rb_tree (plug (f :: k) (T RED l x e r))) as Hrb.
      { apply (rb_plug RED n); [destruct f; simpl in Hfc; subst; inversion Hk; eauto with rb|].
        eauto with rb. }
      split_and!; [by apply rb_rep_plug|done|by rewrite rb_paint_black|done].
    + destruct (insertFixup_step_spec _ _ _ _ _ _ _ _ Hz Hfc Hl Hr Hk)
        as (s1 & x1 & Hs & Hkp & Hcase).
      rewrite (insert_loop_step _ _ _ _ (T RED l x e r) _ _ Hz ltac:(done) Hfc Hs).
      destruct Hcase as [(k' & l' & g & eg & r' & -> & Hz1 & Hlen & Hl' & Hr' & Hk' & Hin)
                        |(f' & k' & t' & -> & Ht' & Hz1 & Hf' & Hrb & Hin)].
      * simpl in Hf. destruct (IH _ _ _ _ _ _ _ Hz1 Hl' Hr' Hk' ltac:(lia))
          as (s2 & t2 & Hrun & Hrep & Hkp2 & Hrb2 & Hin2).
        exists s2, t2. split_and!; [done|done|by etrans|done|by rewrite Hin2].
      * destruct fuel as [|fuel]; [simpl in Hf; lia|].
        exists s1, (plug (f' :: k') t'). split; [by eapply insert_loop_stop|].
        split_and!; [by apply rb_rep_plug|done|by rewrite rb_paint_black|done].
Qed.

(** Painting the node at the focus black; a leaf is the sentinel, black already. *)
Lemma paint_focus s k t :
  zrep s k t ->
  exists s', wr set_color (ptr_of t) BLACK s = Ok (tt, s') /\
    zrep s' k (paint BLACK t) /\ same_blocks s s'.
Proof.
  intros Hz. destruct (zrep_color _ _ _ Hz) as (n & Hn & Hc & Hnn).
  erewrite wr_ok by done. eexists. split; [done|].
  split; [|split; [intros q; apply alter_is_Some|done]].
  destruct t as [|c l p e r]; [|by eapply zrep_paint].
  pose proof Hz as [Hctx _ [Hnd Hdom Hnx _]]. simpl in Hn, Hctx.
  assert (forall q, heap (upd_heap (alter (set_color BLACK) SENTINEL) s) !! Loc q = heap s !! Loc q)
    as Hold by (intros q; simpl; by rewrite lookup_alter_ne).
  split; [eapply rep_ctx_agree; [|done]; intros; apply Hold|done|].
  split; [done|intros p; rewrite Hold; apply Hdom|intros p; rewrite Hold; apply Hnx|].
  exists (set_color BLACK n). simpl. by rewrite lookup_alter_eq, Hn.
Qed.

Lemma paint_root s t :
  rb_rep s t ->
  exists s', bind get_root (fun r => wr set_color r BLACK) s = Ok (tt, s') /\
    rb_rep s' (paint BLACK t) /\ same_blocks s s'.
Proof.
  intros Hz. rewrite (bind_ok get_root _ s (root s) s) by done. rewrite (zrep_root _ _ Hz).
  by apply paint_focus.
Qed.

Theorem insertFixup_spec s k l x e r n :
  zrep s k (T RED l x e r) -> rb BLACK n l -> rb BLACK n r -> rb_ctx BLACK n k ->
  exists s' t', insertFixup (Loc x) s = Ok (tt, s') /\ rb_rep s' t' /\ rb_tree t' /\
    inorder t' = inorder (plug k (T RED l x e r)) /\
    same_blocks s s'.
Proof.
  intros Hz Hl Hr Hk. pose proof (heap_fuel_enough _ _ _ Hz) as Hfuel.
  destruct (insertFixup_loop_spec (heap_fuel s) _ _ _ _ _ _ _ Hz Hl Hr Hk ltac:(lia))
    as (s1 & t1 & Hrun & Hrep & (_ & Hk1) & Hrb & Hin).
  destruct (paint_root _ _ Hrep) as (s2 & Hp & Hrep2 & Hk2).
  exists s2, (paint BLACK t1). unfold insertFixup.
  rewrite (bind_ok get _ s s s) by done. rewrite (bind_ok _ _ _ _ _ Hrun).
  rewrite paint_inorder. split_and!; [done..|by etrans].
Qed.

(** ** Searching the place of a new object *)

Definition key_lt (a b : entry) : Prop := (e_key a < e_key b)%Z.

(** The search order of the tree: strictly increasing keys, left to right. *)
Definition bst (t : tree) : Prop := StronglySorted key_lt (inorder t).

Lemma StronglySorted_mid {A} (R : A -> A -> Prop) l x r :
  StronglySorted R (l ++ x :: r) <->
  StronglySorted R (l ++ r) /\ Forall (fun y => R y x) l /\ Forall (R x) r.
Proof.
  induction l as [|y l IH]; simpl.
  - split; [by inversion 1|]. intros (? & _ & ?). by constructor.
  - split.
    + inversion 1 as [|?? Hs Hf]; subst. apply IH in Hs as (? & ? & ?).
      apply Forall_app in Hf as [? Hf]. inversion Hf; subst.
      split_and!; [constructor; [done|by apply Forall_app]|by constructor|done].
    + intros (Hs & Hl & Hr). inversion Hs as [|?? Hs' Hf]; subst. inversion Hl; subst.
      constructor; [by apply IH|]. apply Forall_app in Hf as [? ?].
      apply Forall_app. split; [done|by constructor].
Qed.

(** The answer to a key that is already there. *)
Definition clash (size : Z) (e : entry) : RbtStatus :=
  if (size =? e_size e)%Z then RBT_STATUS_DUPLICATE_KEY
  else if (size <=? e_size e)%Z then RBT_STATUS_REALLOC_SMALL
  else RBT_STATUS_REALLOC_LARGE.

Lemma rbtInsert_find_spec fuel s k t key size :
  zrep s k t -> bst (plug k t) ->
  Forall (fun e => (e_key e < key)%Z) (ents_before k) ->
  Forall (fun e => (key < e_key e)%Z) (ents_after k) ->
  (height t < fuel)%nat ->
  (exists e, e ∈ inorder t /\ e_key e = key /\
     rbtInsert_find fuel key size (ptr_of t) (par_of k) s = Ok (inr (clash size e), s)) \/
  (exists k', plug k' E = plug k t /\ zrep s k' E /\
     Forall (fun e => (e_key e < key)%Z) (ents_before k') /\
     Forall (fun e => (key < e_key e)%Z) (ents_after k') /\
     rbtInsert_find fuel key size (ptr_of t) (par_of k) s = Ok (inl (par_of k'), s)).
Proof.
  revert k t. induction fuel as [|fuel IH]; intros k t Hz Hb Hlo Hhi Hf; [lia|].
  destruct t as [|c l p e r]; cbn [rbtInsert_find ptr_of].
  - right. exists k. rewrite ptr_eqb_true by done. split_and!; done.
  - rewrite ptr_eqb_false by done. pose proof Hz as [_ [Hp _] _].
    rewrite (bind_ok _ _ _ _ _ (load_ok _ _ _ Hp ltac:(done))). cbn [n_key n_size n_left n_right node_of].
    assert (Forall (fun y => (e_key y < e_key e)%Z) (ents_before k ++ inorder l) /\
            Forall (fun y => (e_key e < e_key y)%Z) (inorder r ++ ents_after k)) as [Hle Hge].
    { unfold bst in Hb. rewrite inorder_plug in Hb. simpl in Hb.
      rewrite <-app_assoc, (app_assoc (ents_before k)) in Hb. simpl in Hb.
      by apply StronglySorted_mid in Hb as (_ & ? & ?). }
    apply Forall_app in Hle as [_ Hle]. apply Forall_app in Hge as [Hge _]. simpl in Hf.
    destruct (Z.eqb_spec key (e_key e)) as [->|Hne].
    + left. exists e. split_and!; [simpl; set_solver|done|done].
    + destruct (Z.ltb_spec key (e_key e)) as [Hlt|Hlt].
      * destruct (IH (FL c p e r :: k) l) as [(e' & Hin & Hk & Hrun)|H]; [|done|done| |lia|..].
        -- by apply zrep_down_l.
        -- unfold ents_after; simpl. constructor; [done|]. apply Forall_app. split; [|done].
           eapply Forall_impl; [exact Hge|]. simpl. lia.
        -- left. exists e'. split_and!; [simpl; set_solver|done|done].
        -- right. done.
      * destruct (IH (FR c l p e :: k) r) as [(e' & Hin & Hk & Hrun)|H]; [|done| |done|lia|..].
        -- by apply zrep_down_r.
        -- unfold ents_before; simpl. rewrite !Forall_app. split_and!; [done| |constructor; [lia|done]].
           eapply Forall_impl; [exact Hle|]. simpl. lia.
        -- left. exists e'. split_and!; [simpl; set_solver|done|done].
        -- right. done.
Qed.

(** ** Linking the new node *)

(** The store right after [malloc] and the assignments to the new block. *)
Definition alloc_state (s : rb_state) (n : NodeType) (a : nat) : rb_state :=
  mkState (<[Loc (next s) := n]> (heap s)) (root s) (Pos.succ (next s)) a.

Lemma next_fresh s k t : zrep s k t -> next s ∉ locs (plug k t).
Proof. intros [_ _ [_ Hdom Hnx _]] Hin. apply Hdom, Hnx in Hin. lia. Qed.

Lemma relink_size k np s : base.size (heap (relink k np s)) = base.size (heap s).
Proof.
  rewrite <-!size_dom. apply set_size_proper. intros p. by rewrite !elem_of_dom, relink_is_Some.
Qed.

Lemma link_new s k e a :
  zrep s k E ->
  zrep (relink k (Loc (next s))
         (alloc_state s (node_of SENTINEL SENTINEL (par_of k) RED e) a))
       k (T RED E (next s) e E).
Proof.
  intros Hz. pose proof (next_fresh _ _ _ Hz) as Hfr.
  pose proof Hz as [Hc _ [Hnd Hdom Hnx Hs]]. rewrite locs_plug in Hfr, Hnd. simpl in Hfr, Hnd.
  set (s1 := alloc_state _ _ _).
  assert (Loc (next s) ≠ par_of k) as Hpk by (apply par_of_notin; set_solver).
  assert (forall q, q ≠ next s -> heap s1 !! Loc q = heap s !! Loc q) as Hold.
  { intros q Hq. subst s1. simpl. rewrite lookup_insert_ne; congruence. }
  assert (rep_ctx (heap s1) (root s1) k SENTINEL) as Hc1.
  { eapply rep_ctx_agree; [|exact Hc]. intros q Hq. apply Hold. intros ->. set_solver. }
  split.
  - apply (relink_ctx _ _ SENTINEL); [|done]. done.
  - simpl. split; [|done]. rewrite relink_ne by done. subst s1. simpl. by rewrite lookup_insert_eq.
  - split; rewrite ?locs_plug; simpl.
    + apply NoDup_app in Hnd as (? & ? & ?). apply NoDup_app. split_and!; [done|set_solver|].
      apply NoDup_cons. set_solver.
    + intros q Hq. rewrite relink_is_Some. destruct (decide (q = next s)) as [->|Hq'].
      * subst s1. simpl. by rewrite lookup_insert_eq.
      * rewrite Hold by done. apply Hdom. rewrite locs_plug. simpl. set_solver.
    + destruct (relink_misc k (Loc (next s)) s1) as [-> _].
      intros q. rewrite relink_is_Some. destruct (decide (q = next s)) as [->|Hq'].
      * subst s1. simpl. lia.
      * rewrite Hold by done. intros Hq%Hnx. subst s1. simpl. lia.
    + destruct Hs as (n & Hn & Hcol). exists n. split; [|done].
      rewrite relink_ne by (by destruct k). subst s1. simpl. by rewrite lookup_insert_ne.
Qed.

(** The test [key <= parent->key] picks the free slot. *)
Lemma link_slot s k key np :
  rep_ctx (heap s) (root s) k SENTINEL ->
  Forall (fun e => (e_key e < key)%Z) (ents_before k) ->
  Forall (fun e => (key < e_key e)%Z) (ents_after k) ->
  (if negb (ptr_eqb (par_of k) NULL) then
     bind (rd n_key (par_of k)) (fun pk =>
     if (key <=? pk)%Z then wr set_left (par_of k) np else wr set_right (par_of k) np)
   else set_root np) s = Ok (tt, relink k np s).
Proof.
  unfold ents_before, ents_after.
  destruct k as [|[c p e r|c l p e] k]; cbn [rep_ctx par_of frame_loc before after]; [done|..];
    intros (Hp & Hs & Hk) Hb Ha; rewrite ptr_eqb_false by congruence; cbn [negb]; run1.
  - inversion Ha; subst. destruct (Z.leb_spec key (e_key e)); [|lia]. by erewrite wr_ok.
  - apply Forall_app in Hb as [_ Hb]. apply Forall_app in Hb as [_ Hb]. inversion Hb; subst.
    destruct (Z.leb_spec key (e_key e)); [lia|]. by erewrite wr_ok.
Qed.

Definition new_entry (key size : Z) (p : NodeType) : entry :=
  mkEntry key size (n_type p) (n_pc p) (n_obj_name p).

(** Everything [rbtInsert] can do on a well-formed tree. *)
Inductive insert_outcome (key size : Z) (p : NodeType) (s : rb_state) (t : tree)
  : res (RbtStatus * rb_state) -> Prop :=
| ins_clash e :
    e ∈ inorder t -> e_key e = key -> insert_outcome key size p s t (Ok (clash size e, s))
| ins_nomem :
    avail s = 0%nat -> (forall e, e ∈ inorder t -> e_key e ≠ key) ->
    insert_outcome key size p s t (Ok (RBT_STATUS_MEM_EXHAUSTED, s))
| ins_overflow :
    (OBJ_NAME_LEN <= String.length (n_obj_name p))%nat -> avail s ≠ 0%nat ->
    insert_outcome key size p s t (Fault BufferOverflow)
| ins_ok s' t' l1 l2 :
    (String.length (n_obj_name p) < OBJ_NAME_LEN)%nat ->
    avail s = S (avail s') ->
    base.size (heap s') = S (base.size (heap s)) ->
    rb_rep s' t' -> rb_tree t' ->
    inorder t = l1 ++ l2 -> inorder t' = l1 ++ new_entry key size p :: l2 ->
    Forall (fun e => (e_key e < key)%Z) l1 -> Forall (fun e => (key < e_key e)%Z) l2 ->
    insert_outcome key size p s t (Ok (RBT_STATUS_OK, s')).

Lemma rbtInsert_outcome key size p s t :
  rb_rep s t -> rb_tree t -> bst t ->
  insert_outcome key size p s t (rbtInsert key size p s).
Proof.
  intros Hz Hrb Hb. pose proof (zrep_root _ _ Hz) as Hroot.
  pose proof (heap_fuel_enough _ _ _ Hz) as Hfuel. simpl in Hfuel.
  unfold rbtInsert. rewrite (bind_ok get _ s s s), (bind_ok get_root _ s (root s) s) by done.
  rewrite Hroot.
  destruct (rbtInsert_find_spec (heap_fuel s) s [] t key size)
    as [(e & Hin & Hk & Hrun)|(k & Hpl & Hzk & Hlo & Hhi & Hrun)]; try done;
    change NULL with (par_of []); rewrite (bind_ok _ _ _ _ _ Hrun).
  { by apply ins_clash. }
  simpl in Hpl. assert (inorder t = ents_before k ++ ents_after k) as Hin.
  { rewrite <-Hpl, inorder_plug. done. }
  unfold malloc_node, bind at 1. destruct (avail s) as [|a] eqn:Hav.
  { apply ins_nomem; [done|]. intros e He Hk. rewrite Hin in He.
    apply elem_of_app in He as [He|He]; [rewrite Forall_forall in Hlo; apply Hlo in He
                                        |rewrite Forall_forall in Hhi; apply Hhi in He]; lia. }
  rewrite ptr_eqb_false by done. unfold strcpy.
  destruct (Nat.ltb_spec (String.length (n_obj_name p)) OBJ_NAME_LEN) as [Hlen|Hlen].
  2:{ apply ins_overflow; [done|congruence]. }
  rewrite bind_ret. erewrite bind_wr; [|apply lookup_insert_eq|done].
  set (e := new_entry key size p).
  set (s1 := upd_heap _ _).
  assert (s1 = alloc_state s (node_of SENTINEL SENTINEL (par_of k) RED e) a) as Hs1.
  { subst s1. unfold upd_heap, alloc_state. cbn [heap root next avail]. by rewrite alter_insert_eq. }
  clearbody s1. subst s1. set (s1 := alloc_state _ _ _).
  assert (rep_ctx (heap s1) (root s1) k SENTINEL) as Hc1.
  { eapply rep_ctx_agree; [|apply Hzk]. intros q Hq. simpl. rewrite lookup_insert_ne; [done|].
    intros [= <-]. apply (next_fresh _ _ _ Hzk). rewrite locs_plug. simpl. done. }
  rewrite (bind_ok _ _ _ _ _ (link_slot s1 k key (Loc (next s)) Hc1 Hlo Hhi)). subst s1.
  pose proof (link_new s k e a Hzk) as Hz2.
  destruct (rb_unplug k E) as (c & n & Hrb0 & Hk); [by rewrite Hpl|].
  inversion Hrb0; subst c n.
  destruct (insertFixup_spec _ _ _ _ _ _ _ Hz2 rb_E rb_E Hk)
    as (s' & t' & Hrun' & Hrep & Hrb' & Hin' & Hd & Hnx & Hav').
  rewrite (bind_ok _ _ _ _ _ Hrun').
  destruct (relink_misc k (Loc (next s))
    (alloc_state s (node_of SENTINEL SENTINEL (par_of k) RED e) a)) as [Hm1 Hm2].
  eapply (ins_ok _ _ _ _ _ s' t'); try done.
  - rewrite Hav, Hav', Hm2. done.
  - rewrite (same_blocks_size _ _ (conj Hd (conj Hnx Hav'))), relink_size. apply map_size_insert_None.
    apply eq_None_not_Some. intros Hs. apply (z_good _ _ _ Hzk) in Hs. lia.
  - rewrite Hin', inorder_plug. done.
Qed.
