(* ===== verification/RbErase.v ===== *)
(** * Removal from the object tree

    [deleteFixup] restores the red-black discipline after a black node has
    been unlinked; [rbtErase] removes one object from the in-order sequence. *)

From stdpp Require Import base gmap list strings.
From Stdlib Require Import ZArith Lia Sorted.
From S2P Require Import Prelude RbTree RbShape RbBalance RbInsert.

(** ** The parent pointer of the focus

    For a leaf this is the [parent] field of the sentinel, which [rbtErase]
    sets before it calls [deleteFixup]. *)

Definition par_ok (s : rb_state) (k : list frame) (t : tree) : Prop :=
  exists n, heap s !! ptr_of t = Some n /\ n_parent n = par_of k /\ n_color n = color_of t.

Lemma ptr_of_not_null t : ptr_of t ≠ NULL.
Proof. by destruct t. Qed.

Lemma par_ok_node s k c l p e r : zrep s k (T c l p e r) -> par_ok s k (T c l p e r).
Proof. intros [_ [Hp _] _]. by eexists. Qed.

Lemma par_ok_keeps s s' k k' t :
  par_ok s k t -> keeps s s' -> zrep s' k' t -> par_of k' = par_of k -> par_ok s' k' t.
Proof.
  intros (n & Hn & Hp & Hc) [Hk _] Hz Hpar. destruct t as [|c l p e r].
  - exists n. simpl in *. by rewrite Hk, Hpar.
  - by apply par_ok_node.
Qed.

(** ** A black sibling *)

(** The block at the root of the subtree [t], whose context is [k]. *)
Ltac zcolor H k t n Hc :=
  lazymatch type of H with
  | zrep ?s _ _ =>
      destruct (zrep_color s k t) as (n & ? & Hc & ?); [rewrite ?zrep_up; exact H|]
  end.

(** Runs a program whose tests on colours are decided by the equations [tac]
    rewrites with. *)
Ltac colors tac := repeat first [run1 | progress (tac; cbn [color_eqb]; rewrite ?bind_ret; cbv iota)].

Lemma delete_left_recolor s k cp p ep wl w we wr t :
  zrep s (FL cp p ep (T BLACK wl w we wr) :: k) t ->
  par_ok s (FL cp p ep (T BLACK wl w we wr) :: k) t ->
  color_of wl = BLACK -> color_of wr = BLACK ->
  exists s', deleteFixup_left (ptr_of t) (Loc w) s = Ok (Loc p, s') /\
    zrep s' k (T cp t p ep (T RED wl w we wr)) /\ keeps s s'.
Proof.
  intros Hz (nt & Hnt & Hpar & _) Hwl Hwr. rewrite zrep_up in Hz. cbn [fill] in Hz.
  zcolor Hz (FL BLACK w we wr :: FR cp t p ep :: k) wl nl Hcl.
  zcolor Hz (FR BLACK wl w we :: FR cp t p ep :: k) wr nr Hcr.
  pose proof (ptr_of_not_null t).
  zdistinct Hz [p; w]. zoutside Hz w t. zopen Hz. unfold deleteFixup_left, and_then.
  colors ltac:(rewrite ?Hcl, ?Hwl, ?Hcr, ?Hwr). rewrite Hpar.
  eexists. split; [done|]. split; [zpaint|keeps_tac].
Qed.

Lemma delete_left_outer s k cp p ep wl w we a q eq b t :
  zrep s (FL cp p ep (T BLACK wl w we (T RED a q eq b)) :: k) t ->
  par_ok s (FL cp p ep (T BLACK wl w we (T RED a q eq b)) :: k) t ->
  exists s', deleteFixup_left (ptr_of t) (Loc w) s = Ok (root s', s') /\
    zrep s' k (T cp (T BLACK t p ep wl) w we (T BLACK a q eq b)) /\ keeps s s'.
Proof.
  intros Hz (nt & Hnt & Hpar & _). rewrite zrep_up in Hz. cbn [fill] in Hz.
  zcolor Hz (FL BLACK w we (T RED a q eq b) :: FR cp t p ep :: k) wl nl Hcl.
  pose proof (ptr_of_not_null t).
  zdistinct Hz [p; w; q]. zoutside Hz w t. zoutside Hz p t. zoutside Hz q t.
  zopen Hz. unfold deleteFixup_left, and_then.
  destruct (color_of wl) eqn:Hwl;
  colors ltac:(rewrite ?Hcl, ?Hpar; cbn [par_of frame_loc]).
  all: zrotL p k (T BLACK t p ep (T cp wl w we (T BLACK a q eq b))) as Hz1;
  eexists; (split; [done|]); (split; [zpaint|]); (etrans; [|done]); keeps_tac.
Qed.

Lemma delete_left_inner s k cp p ep a q eq b w we wr t :
  zrep s (FL cp p ep (T BLACK (T RED a q eq b) w we wr) :: k) t ->
  par_ok s (FL cp p ep (T BLACK (T RED a q eq b) w we wr) :: k) t ->
  color_of wr = BLACK ->
  exists s', deleteFixup_left (ptr_of t) (Loc w) s = Ok (root s', s') /\
    zrep s' k (T cp (T BLACK t p ep a) q eq (T BLACK b w we wr)) /\ keeps s s'.
Proof.
  intros Hz Hp Hwr. pose proof Hp as (nt & Hnt & Hpar & _).
  pose proof Hz as Hz0. rewrite zrep_up in Hz. cbn [fill] in Hz.
  zcolor Hz (FR BLACK (T RED a q eq b) w we :: FR cp t p ep :: k) wr nr Hcr.
  pose proof (ptr_of_not_null t).
  zdistinct Hz [p; w; q]. zoutside Hz w t. zoutside Hz p t. zoutside Hz q t.
  zopen Hz. unfold deleteFixup_left, and_then. colors ltac:(rewrite ?Hcr, ?Hwr).
  zrotR w (FR cp t p ep :: k) (T RED (T BLACK a q eq b) w we wr) as Hz1.
  rewrite zrep_up in Hz1. cbn [fill] in Hz1.
  assert (keeps s s0) as Hk' by (etrans; [|done]; keeps_tac).
  assert (par_ok s0 (FL cp p ep (T BLACK a q eq (T RED b w we wr)) :: k) t) as (nt1 & Hnt1 & Hpar1 & _)
    by (eapply par_ok_keeps; [exact Hp|done|by rewrite zrep_up|done]).
  clear Hnt. zforget s. zopen Hz1. colors ltac:(rewrite ?Hpar1; cbn [par_of frame_loc]).
  zrotL p k (T BLACK t p ep (T cp a q eq (T BLACK b w we wr))) as Hz2.
  eexists. split; [done|]. split; [zpaint|]. etrans; [done|]. etrans; [|done]. keeps_tac.
Qed.

(** The mirror images. *)

Lemma delete_right_recolor s k cp p ep wl w we wr t :
  zrep s (FR cp (T BLACK wl w we wr) p ep :: k) t ->
  par_ok s (FR cp (T BLACK wl w we wr) p ep :: k) t ->
  color_of wl = BLACK -> color_of wr = BLACK ->
  exists s', deleteFixup_right (ptr_of t) (Loc w) s = Ok (Loc p, s') /\
    zrep s' k (T cp (T RED wl w we wr) p ep t) /\ keeps s s'.
Proof.
  intros Hz (nt & Hnt & Hpar & _) Hwl Hwr. rewrite zrep_up in Hz. cbn [fill] in Hz.
  zcolor Hz (FL BLACK w we wr :: FL cp p ep t :: k) wl nl Hcl.
  zcolor Hz (FR BLACK wl w we :: FL cp p ep t :: k) wr nr Hcr.
  pose proof (ptr_of_not_null t).
  zdistinct Hz [p; w]. zoutside Hz w t. zopen Hz. unfold deleteFixup_right, and_then.
  colors ltac:(rewrite ?Hcl, ?Hwl, ?Hcr, ?Hwr). rewrite Hpar.
  eexists. split; [done|]. split; [zpaint|keeps_tac].
Qed.

Lemma delete_right_outer s k cp p ep a q eq b w we wr t :
  zrep s (FR cp (T BLACK (T RED a q eq b) w we wr) p ep :: k) t ->
  par_ok s (FR cp (T BLACK (T RED a q eq b) w we wr) p ep :: k) t ->
  exists s', deleteFixup_right (ptr_of t) (Loc w) s = Ok (root s', s') /\
    zrep s' k (T cp (T BLACK a q eq b) w we (T BLACK wr p ep t)) /\ keeps s s'.
Proof.
  intros Hz (nt & Hnt & Hpar & _). rewrite zrep_up in Hz. cbn [fill] in Hz.
  zcolor Hz (FR BLACK (T RED a q eq b) w we :: FL cp p ep t :: k) wr nr Hcr.
  pose proof (ptr_of_not_null t).
  zdistinct Hz [p; w; q]. zoutside Hz w t. zoutside Hz p t. zoutside Hz q t.
  zopen Hz. unfold deleteFixup_right, and_then.
  destruct (color_of wr) eqn:Hwr;
  colors ltac:(rewrite ?Hcr, ?Hpar; cbn [par_of frame_loc]).
  all: zrotR p k (T BLACK (T cp (T BLACK a q eq b) w we wr) p ep t) as Hz1;
  eexists; (split; [done|]); (split; [zpaint|]); (etrans; [|done]); keeps_tac.
Qed.

Lemma delete_right_inner s k cp p ep wl w we a q eq b t :
  zrep s (FR cp (T BLACK wl w we (T RED a q eq b)) p ep :: k) t ->
  par_ok s (FR cp (T BLACK wl w we (T RED a q eq b)) p ep :: k) t ->
  color_of wl = BLACK ->
  exists s', deleteFixup_right (ptr_of t) (Loc w) s = Ok (root s', s') /\
    zrep s' k (T cp (T BLACK wl w we a) q eq (T BLACK b p ep t)) /\ keeps s s'.
Proof.
  intros Hz Hp Hwl. pose proof Hp as (nt & Hnt & Hpar & _).
  rewrite zrep_up in Hz. cbn [fill] in Hz.
  zcolor Hz (FL BLACK w we (T RED a q eq b) :: FL cp p ep t :: k) wl nl Hcl.
  pose proof (ptr_of_not_null t).
  zdistinct Hz [p; w; q]. zoutside Hz w t. zoutside Hz p t. zoutside Hz q t.
  zopen Hz. unfold deleteFixup_right, and_then. colors ltac:(rewrite ?Hcl, ?Hwl).
  zrotL w (FL cp p ep t :: k) (T RED wl w we (T BLACK a q eq b)) as Hz1.
  rewrite zrep_up in Hz1. cbn [fill] in Hz1.
  assert (keeps s s0) as Hk' by (etrans; [|done]; keeps_tac).
  assert (par_ok s0 (FR cp (T BLACK (T RED wl w we a) q eq b) p ep :: k) t) as (nt1 & Hnt1 & Hpar1 & _)
    by (eapply par_ok_keeps; [exact Hp|done|by rewrite zrep_up|done]).
  clear Hnt. zforget s. zopen Hz1. colors ltac:(rewrite ?Hpar1; cbn [par_of frame_loc]).
  zrotR p k (T BLACK (T cp (T BLACK wl w we a) q eq b) p ep t) as Hz2.
  eexists. split; [done|]. split; [zpaint|]. etrans; [done|]. etrans; [|done]. keeps_tac.
Qed.

(** ** One iteration

    The subtree at the focus lacks one black node: either it is black and its
    black height is one too small, or it is red and repainting it suffices. *)

Definition deficient (k : list frame) (t : tree) : Prop :=
  exists n, rb_ctx BLACK (S n) k /\
    (rb BLACK n t \/ color_of t = RED /\ rb BLACK (S n) (paint BLACK t)).

(** A black sibling is treated at once; a red one is first rotated above the
    parent, which leaves a black one. *)
Lemma delete_left_start s k cp p ep wl w we wr t :
  zrep s (FL cp p ep (T BLACK wl w we wr) :: k) t ->
  par_ok s (FL cp p ep (T BLACK wl w we wr) :: k) t ->
  deleteFixup_step (ptr_of t) s = deleteFixup_left (ptr_of t) (Loc w) s.
Proof.
  intros Hz (nt & Hnt & Hpar & _). rewrite zrep_up in Hz. cbn [fill] in Hz.
  pose proof (ptr_of_not_null t). zopen Hz. unfold deleteFixup_step.
  colors ltac:(rewrite ?Hpar; cbn [par_of frame_loc]). done.
Qed.

Lemma delete_left_red s k p ep wl w we wr t :
  zrep s (FL BLACK p ep (T RED wl w we wr) :: k) t ->
  par_ok s (FL BLACK p ep (T RED wl w we wr) :: k) t ->
  exists s', deleteFixup_step (ptr_of t) s = deleteFixup_left (ptr_of t) (ptr_of wl) s' /\
    zrep s' (FL RED p ep wl :: FL BLACK w we wr :: k) t /\ keeps s s'.
Proof.
  intros Hz Hp. pose proof Hp as (nt & Hnt & Hpar & _).
  rewrite zrep_up in Hz. cbn [fill] in Hz.
  pose proof (ptr_of_not_null t). zdistinct Hz [p; w]. zoutside Hz w t. zoutside Hz p t.
  zopen Hz. unfold deleteFixup_step. colors ltac:(rewrite ?Hpar; cbn [par_of frame_loc]).
  zrotL p k (T RED t p ep (T BLACK wl w we wr)) as Hz1.
  assert (keeps s s0) as Hk' by (etrans; [|done]; keeps_tac).
  assert (par_ok s0 (FL RED p ep wl :: FL BLACK w we wr :: k) t) as (nt1 & Hnt1 & Hpar1 & _)
    by (eapply par_ok_keeps; [exact Hp|done|by rewrite !zrep_up|done]).
  clear Hnt. zforget s. zopen Hz1. colors ltac:(rewrite ?Hpar1; cbn [par_of frame_loc]).
  exists s0. rewrite !zrep_up. done.
Qed.

Lemma delete_right_start s k cp p ep wl w we wr t :
  zrep s (FR cp (T BLACK wl w we wr) p ep :: k) t ->
  par_ok s (FR cp (T BLACK wl w we wr) p ep :: k) t ->
  deleteFixup_step (ptr_of t) s = deleteFixup_right (ptr_of t) (Loc w) s.
Proof.
  intros Hz (nt & Hnt & Hpar & _). rewrite zrep_up in Hz. cbn [fill] in Hz.
  pose proof (ptr_of_not_null t). zoutside Hz w t. zopen Hz. unfold deleteFixup_step.
  colors ltac:(rewrite ?Hpar; cbn [par_of frame_loc]). done.
Qed.

Lemma delete_right_red s k p ep wl w we wr t :
  zrep s (FR BLACK (T RED wl w we wr) p ep :: k) t ->
  par_ok s (FR BLACK (T RED wl w we wr) p ep :: k) t ->
  exists s', deleteFixup_step (ptr_of t) s = deleteFixup_right (ptr_of t) (ptr_of wr) s' /\
    zrep s' (FR RED wr p ep :: FR BLACK wl w we :: k) t /\ keeps s s'.
Proof.
  intros Hz Hp. pose proof Hp as (nt & Hnt & Hpar & _).
  rewrite zrep_up in Hz. cbn [fill] in Hz.
  pose proof (ptr_of_not_null t). zdistinct Hz [p; w]. zoutside Hz w t. zoutside Hz p t.
  zopen Hz. unfold deleteFixup_step. colors ltac:(rewrite ?Hpar; cbn [par_of frame_loc]).
  zrotR p k (T RED (T BLACK wl w we wr) p ep t) as Hz1.
  assert (keeps s s0) as Hk' by (etrans; [|done]; keeps_tac).
  assert (par_ok s0 (FR RED wr p ep :: FR BLACK wl w we :: k) t) as (nt1 & Hnt1 & Hpar1 & _)
    by (eapply par_ok_keeps; [exact Hp|done|by rewrite !zrep_up|done]).
  clear Hnt. zforget s. zopen Hz1. colors ltac:(rewrite ?Hpar1; cbn [par_of frame_loc]).
  exists s0. rewrite !zrep_up. done.
Qed.

(** What an iteration leaves: a legal tree and [x] at the root, or a deficient
    subtree that is red or, where the parent was black ([c]), one level up.
    [m] bounds the distance to the root. *)
Definition delete_progress (s' : rb_state) (x' : ptr) (c : nodeColor) (m : nat)
  (es : list (positive * entry)) : Prop :=
  (exists t', x' = root s' /\ rb_rep s' t' /\ rb_tree t' /\ flat t' = es) \/
  (exists k' t', x' = ptr_of t' /\ t' ≠ E /\ zrep s' k' t' /\ deficient k' t' /\
     flat (plug k' t') = es /\ (color_of t' = RED \/ c = BLACK /\ (length k' <= m)%nat)).

Lemma delete_done s' k t' c n c' m es :
  zrep s' k t' -> rb c n t' -> rb_ctx c n k -> flat (plug k t') = es ->
  delete_progress s' (root s') c' m es.
Proof.
  intros Hz Hrb Hk Hes. left. exists (plug k t').
  split_and!; [done|by apply rb_rep_plug|by eapply rb_plug|done].
Qed.

Lemma delete_left_black s k cp p ep w t n :
  zrep s (FL cp p ep w :: k) t -> par_ok s (FL cp p ep w :: k) t ->
  rb BLACK n t -> rb BLACK (S n) w -> rb_ctx BLACK (S n) (FL cp p ep w :: k) ->
  exists s' x', deleteFixup_left (ptr_of t) (ptr_of w) s = Ok (x', s') /\ keeps s s' /\
    delete_progress s' x' cp (length k) (flat (plug (FL cp p ep w :: k) t)).
Proof.
  intros Hz Hp Ht Hw Hk. inversion Hw as [| |? cl cr wl pw we wr Hwl Hwr]; subst.
  pose proof (rb_color _ _ _ Hwl) as Hcl. pose proof (rb_color _ _ _ Hwr) as Hcr.
  destruct cr; [destruct cl|].
  - destruct (delete_left_recolor _ _ _ _ _ _ _ _ _ _ Hz Hp Hcl Hcr) as (s' & Hr & Hz' & Hkp).
    exists s', (Loc p). split_and!; [done..|right].
    exists k, (T cp t p ep (T RED wl pw we wr)). split_and!; [done..| |by apply (flat_plug_eq k)|].
    + inversion Hk; subst; [exists n|exists (S n)]; eauto 10 using rb_ctx_black with rb.
    + destruct cp; auto.
  - inversion Hwl as [|? a q eq b Ha Hb|]; subst.
    destruct (delete_left_inner _ _ _ _ _ _ _ _ _ _ _ _ _ Hz Hp Hcr) as (s' & Hr & Hz' & Hkp).
    exists s', (root s'). split_and!; [done..|].
    inversion Hk; subst; (eapply delete_done;
      [exact Hz'|eauto with rb|eauto with rb|apply (flat_plug_eq k); app_norm; done]).
  - inversion Hwr as [|? a q eq b Ha Hb|]; subst.
    destruct (delete_left_outer _ _ _ _ _ _ _ _ _ _ _ _ _ Hz Hp) as (s' & Hr & Hz' & Hkp).
    exists s', (root s'). split_and!; [done..|].
    inversion Hk; subst; (eapply delete_done;
      [exact Hz'|eauto with rb|eauto with rb|apply (flat_plug_eq k); app_norm; done]).
Qed.

Lemma delete_right_black s k cp p ep w t n :
  zrep s (FR cp w p ep :: k) t -> par_ok s (FR cp w p ep :: k) t ->
  rb BLACK n t -> rb BLACK (S n) w -> rb_ctx BLACK (S n) (FR cp w p ep :: k) ->
  exists s' x', deleteFixup_right (ptr_of t) (ptr_of w) s = Ok (x', s') /\ keeps s s' /\
    delete_progress s' x' cp (length k) (flat (plug (FR cp w p ep :: k) t)).
Proof.
  intros Hz Hp Ht Hw Hk. inversion Hw as [| |? cl cr wl pw we wr Hwl Hwr]; subst.
  pose proof (rb_color _ _ _ Hwl) as Hcl. pose proof (rb_color _ _ _ Hwr) as Hcr.
  destruct cl; [destruct cr|].
  - destruct (delete_right_recolor _ _ _ _ _ _ _ _ _ _ Hz Hp Hcl Hcr) as (s' & Hr & Hz' & Hkp).
    exists s', (Loc p). split_and!; [done..|right].
    exists k, (T cp (T RED wl pw we wr) p ep t). split_and!; [done..| |by apply (flat_plug_eq k)|].
    + inversion Hk; subst; [exists n|exists (S n)]; eauto 10 using rb_ctx_black with rb.
    + destruct cp; auto.
  - inversion Hwr as [|? a q eq b Ha Hb|]; subst.
    destruct (delete_right_inner _ _ _ _ _ _ _ _ _ _ _ _ _ Hz Hp Hcl) as (s' & Hr & Hz' & Hkp).
    exists s', (root s'). split_and!; [done..|].
    inversion Hk; subst; (eapply delete_done;
      [exact Hz'|eauto with rb|eauto with rb|apply (flat_plug_eq k); app_norm; done]).
  - inversion Hwl as [|? a q eq b Ha Hb|]; subst.
    destruct (delete_right_outer _ _ _ _ _ _ _ _ _ _ _ _ _ Hz Hp) as (s' & Hr & Hz' & Hkp).
    exists s', (root s'). split_and!; [done..|].
    inversion Hk; subst; (eapply delete_done;
      [exact Hz'|eauto with rb|eauto with rb|apply (flat_plug_eq k); app_norm; done]).
Qed.

Lemma delete_progress_weaken s' x' c m m' es :
  delete_progress s' x' c m es -> (c = BLACK -> (m <= m')%nat) ->
  delete_progress s' x' BLACK m' es.
Proof.
  intros [?|(k' & t' & ? & ? & ? & ? & ? & Hc)] Hm; [by left|right].
  exists k', t'. split_and!; try done. destruct Hc as [?|[? ?]]; [by left|right].
  split; [done|]. etrans; [done|by apply Hm].
Qed.

Lemma deleteFixup_step_spec s f k t n :
  zrep s (f :: k) t -> par_ok s (f :: k) t -> rb BLACK n t -> rb_ctx BLACK (S n) (f :: k) ->
  exists s' x', deleteFixup_step (ptr_of t) s = Ok (x', s') /\ keeps s s' /\
    delete_progress s' x' BLACK (length k) (flat (plug (f :: k) t)).
Proof.
  intros Hz Hp Ht Hk. destruct f as [cp p ep w|cp w p ep].
  - assert (exists c, rb c (S n) w /\ (c = RED -> cp = BLACK)) as (c & Hw & Hc)
      by (inversion Hk; subst; eauto).
    destruct c; inversion Hw as [|? wl pw we wr Hwl Hwr|]; subst.
    + rewrite (delete_left_start _ _ _ _ _ _ _ _ _ _ Hz Hp).
      destruct (delete_left_black _ _ _ _ _ _ _ _ Hz Hp Ht Hw Hk) as (s' & x' & ? & ? & ?).
      exists s', x'. split_and!; [done..|by eapply delete_progress_weaken].
    + rewrite (Hc eq_refl) in *. inversion Hk; subst.
      destruct (delete_left_red _ _ _ _ _ _ _ _ _ Hz Hp) as (s1 & Hs1 & Hz1 & Hk1).
      assert (par_ok s1 (FL RED p ep wl :: FL BLACK pw we wr :: k) t) as Hp1
        by by eapply par_ok_keeps.
      destruct (delete_left_black _ _ _ _ _ _ _ _ Hz1 Hp1 Ht Hwl) as (s2 & x2 & Hs2 & Hk2 & Hd).
      { eauto with rb. }
      rewrite Hs1. exists s2, x2. split_and!; [done|by etrans|].
      cbn [plug fill] in *. eapply delete_progress_weaken.
      * erewrite flat_plug_eq; [exact Hd|app_norm; done].
      * done.
  - assert (exists c, rb c (S n) w /\ (c = RED -> cp = BLACK)) as (c & Hw & Hc)
      by (inversion Hk; subst; eauto).
    destruct c; inversion Hw as [|? wl pw we wr Hwl Hwr|]; subst.
    + rewrite (delete_right_start _ _ _ _ _ _ _ _ _ _ Hz Hp).
      destruct (delete_right_black _ _ _ _ _ _ _ _ Hz Hp Ht Hw Hk) as (s' & x' & ? & ? & ?).
      exists s', x'. split_and!; [done..|by eapply delete_progress_weaken].
    + rewrite (Hc eq_refl) in *. inversion Hk; subst.
      destruct (delete_right_red _ _ _ _ _ _ _ _ _ Hz Hp) as (s1 & Hs1 & Hz1 & Hk1).
      assert (par_ok s1 (FR RED wr p ep :: FR BLACK wl pw we :: k) t) as Hp1
        by by eapply par_ok_keeps.
      destruct (delete_right_black _ _ _ _ _ _ _ _ Hz1 Hp1 Ht Hwr) as (s2 & x2 & Hs2 & Hk2 & Hd).
      { eauto with rb. }
      rewrite Hs1. exists s2, x2. split_and!; [done|by etrans|].
      cbn [plug fill] in *. eapply delete_progress_weaken.
      * erewrite flat_plug_eq; [exact Hd|app_norm; done].
      * done.
Qed.

(** ** The loop *)

Lemma delete_loop_stop fuel s k t :
  zrep s k t -> k = [] \/ color_of t = RED ->
  deleteFixup_loop (S fuel) (ptr_of t) s = Ok (ptr_of t, s).
Proof.
  intros Hz Hst. destruct (zrep_color _ _ _ Hz) as (n & Hn & Hc & ?).
  cbn [deleteFixup_loop]. unfold and_then. rewrite !bind_assoc.
  rewrite (bind_ok get_root _ s (root s) s), bind_ret by done.
  destruct (ptr_eqb_spec (ptr_of t) (root s)) as [Hr|Hr]; cbn [negb]; [done|].
  destruct Hst as [->|Hred]; [by rewrite (zrep_root _ _ Hz) in Hr|].
  repeat run1. rewrite Hc, Hred. done.
Qed.

Lemma delete_loop_step fuel s f k t s' x' :
  zrep s (f :: k) t -> color_of t = BLACK ->
  deleteFixup_step (ptr_of t) s = Ok (x', s') ->
  deleteFixup_loop (S fuel) (ptr_of t) s = deleteFixup_loop fuel x' s'.
Proof.
  intros Hz Hb Hs. destruct (zrep_color _ _ _ Hz) as (n & Hn & Hc & ?).
  pose proof (zrep_not_root _ _ _ _ Hz) as Hr.
  cbn [deleteFixup_loop]. unfold and_then. rewrite !bind_assoc.
  rewrite (bind_ok get_root _ s (root s) s), bind_ret by done.
  rewrite ptr_eqb_false by congruence. cbn [negb].
  repeat run1. rewrite Hc, Hb. cbn [color_eqb]. rewrite bind_ret. by apply bind_ok.
Qed.

Lemma deleteFixup_loop_spec fuel s k t :
  zrep s k t -> par_ok s k t -> deficient k t -> (S (length k) < fuel)%nat ->
  exists s' k' t', deleteFixup_loop fuel (ptr_of t) s = Ok (ptr_of t', s') /\
    zrep s' k' t' /\ keeps s s' /\ rb_tree (plug k' (paint BLACK t')) /\
    flat (plug k' t') = flat (plug k t).
Proof.
  revert s k t. induction fuel as [|fuel IH]; intros s k t Hz Hp (n & Hk & Ht) Hf; [lia|].
  destruct Ht as [Ht|[Hred Ht]].
  2:{ exists s, k, t. split; [by eapply delete_loop_stop; eauto|].
      split_and!; [done..|by eapply rb_plug|done]. }
  destruct k as [|f k].
  { exists s, [], t. split; [eapply delete_loop_stop; eauto|].
    split_and!; [done..|by eapply rb_paint|done]. }
  destruct (deleteFixup_step_spec _ _ _ _ _ Hz Hp Ht Hk) as (s1 & x1 & Hs & Hkp & Hd).
  rewrite (delete_loop_step _ _ _ _ _ _ _ Hz (rb_color _ _ _ Ht) Hs). simpl in Hf.
  destruct Hd as [(t1 & -> & Hr1 & Hb1 & Hes)|(k1 & t1 & -> & HE & Hz1 & Hd1 & Hes & Hm)].
  - exists s1, [], t1. rewrite (zrep_root _ _ Hr1).
    destruct fuel as [|fuel]; [lia|].
    split; [eapply delete_loop_stop; eauto|].
    split_and!; [done..|simpl; by rewrite rb_paint_black|done].
  - destruct Hm as [Hred|[_ Hm]].
    + destruct fuel as [|fuel]; [lia|]. exists s1, k1, t1.
      split; [eapply delete_loop_stop; eauto|]. destruct Hd1 as (n1 & Hk1 & Hd1).
      split_and!; [done..| |done]. destruct Hd1 as [Hd1|[_ Hd1]]; [|by eapply rb_plug].
      apply rb_color in Hd1. congruence.
    + destruct (IH s1 k1 t1) as (s2 & k2 & t2 & Hrun & Hz2 & Hkp2 & Hrb2 & Hes2); [done| |done|lia|].
      { destruct t1; [done|]. by apply par_ok_node. }
      exists s2, k2, t2. split_and!; [done|done|by etrans|done|congruence].
Qed.

(** [deleteFixup] always ends, and leaves a legal tree with the same objects. *)
Lemma deleteFixup_spec s k t :
  zrep s k t -> par_ok s k t -> deficient k t ->
  exists s' t', deleteFixup (ptr_of t) s = Ok (tt, s') /\
    rb_rep s' t' /\ rb_tree t' /\ flat t' = flat (plug k t) /\ same_blocks s s'.
Proof.
  intros Hz Hp Hd. pose proof (heap_fuel_enough _ _ _ Hz) as Hfuel.
  destruct (deleteFixup_loop_spec (S (heap_fuel s)) s k t)
    as (s1 & k1 & t1 & Hrun & Hz1 & [_ Hb1] & Hrb & Hes); try done; [lia|].
  destruct (paint_focus _ _ _ Hz1) as (s2 & Hp2 & Hz2 & Hb2).
  exists s2, (plug k1 (paint BLACK t1)). unfold deleteFixup.
  rewrite (bind_ok get _ s s s) by done. rewrite (bind_ok _ _ _ _ _ Hrun).
  split_and!; [done|by apply rb_rep_plug|done| |by etrans].
  rewrite <-Hes. apply flat_plug_eq, paint_flat.
Qed.

(** ** Unlinking a node with a free slot *)

(** The only child of a node one of whose subtrees is empty. *)
Definition only (l r : tree) : tree := match l with E => r | T _ _ _ _ _ => l end.

Lemma only_locs c l y e r : l = E \/ r = E -> locs (T c l y e r) ≡ₚ y :: locs (only l r).
Proof.
  intros [->| ->]; [done|]. destruct l as [|cl ll pl el rl]; [done|].
  cbn [locs only]. by rewrite Permutation_app_comm.
Qed.

Lemma only_rep h y l r : rep h y l -> rep h y r -> rep h y (only l r).
Proof. by destruct l. Qed.

Definition unlinked (s : rb_state) (k : list frame) (X : tree) : rb_state :=
  relink k (ptr_of X) (upd_heap (alter (set_parent (par_of k)) (ptr_of X)) s).

Record unlink_facts (s : rb_state) (k : list frame) (y : positive) (X : tree) : Prop := {
  u_nodup : NoDup (locs_before k ++ locs X ++ locs_after k);
  u_notin : y ∉ locs_before k ++ locs X ++ locs_after k;
  u_sep : forall q, q ∈ locs X -> q ∉ locs_before k /\ q ∉ locs_after k;
  u_rep : rep (heap s) (Loc y) X;
  u_node : exists n, heap s !! ptr_of X = Some n /\ n_color n = color_of X
}.

Lemma unlink_intro s k c l y e r :
  zrep s k (T c l y e r) -> l = E \/ r = E -> unlink_facts s k y (only l r).
Proof.
  intros Hz Hlr. pose proof Hz as [Hc Ht [Hnd _ _ _]].
  cbn [rep ptr_of] in Ht. destruct Ht as (Hy & Hl & Hr).
  assert (NoDup (y :: locs_before k ++ locs (only l r) ++ locs_after k)) as [HyX HndX]%NoDup_cons.
  { rewrite locs_plug, (only_locs _ _ _ _ _ Hlr) in Hnd. eapply NoDup_sub; [exact Hnd|].
    solve_submseteq. }
  split; [done..| |by apply only_rep|].
  - apply NoDup_app in HndX as (_ & H1 & (_ & H2 & _)%NoDup_app). intros q Hq.
    split; [intros ?%H1; set_solver|intros ?; by eapply H2].
  - destruct (zrep_color s (match l with E => FR c l y e | T _ _ _ _ _ => FL c y e r end :: k)
      (only l r)) as (nx & ? & ? & _); [by destruct l; rewrite zrep_up|eauto].
Qed.

Lemma unlinked_blocks s k X : same_blocks s (unlinked s k X).
Proof.
  unfold unlinked. split; [intros q; rewrite relink_is_Some; apply alter_is_Some|].
  destruct (relink_misc k (ptr_of X) (upd_heap (alter (set_parent (par_of k)) (ptr_of X)) s))
    as [-> ->]. done.
Qed.

Lemma unlinked_node s k y X : unlink_facts s k y X ->
  exists n, heap (unlinked s k X) !! ptr_of X = Some (set_parent (par_of k) n) /\
    heap s !! ptr_of X = Some n /\ n_color n = color_of X.
Proof.
  intros [_ _ Hsep _ (n & Hn & Hc)]. exists n. split_and!; [|done..].
  unfold unlinked. rewrite relink_ne by by apply ptr_par_ne. simpl. by rewrite lookup_alter_eq, Hn.
Qed.

Lemma unlinked_zrep s k c l y e r :
  zrep s k (T c l y e r) -> l = E \/ r = E -> zrep (unlinked s k (only l r)) k (only l r).
Proof.
  intros Hz Hlr. pose proof (unlink_intro _ _ _ _ _ _ _ Hz Hlr) as HU.
  destruct (unlinked_node _ _ _ _ HU) as (nx & Hx & Hx0 & Hcx).
  destruct (unlinked_blocks s k (only l r)) as (Hd & Hn & _).
  pose proof Hz as [Hc _ [_ Hdom Hnx (ns & Hns & Hcs)]].
  destruct HU as [HndX HyX Hsep HX _]. set (X := only l r) in *.
  assert (forall q, q ∈ locs_before k ++ locs_after k -> Loc q ≠ ptr_of X) as Hk.
  { intros q Hq Heq. symmetry in Heq. apply ptr_of_in, Hsep in Heq as [??]. set_solver. }
  split.
  - eapply relink_ctx.
    + eapply NoDup_sub; [exact HndX|]. solve_submseteq.
    + eapply rep_ctx_agree; [|exact Hc]. intros q Hq. simpl.
      rewrite lookup_alter_ne; [done|]. apply not_eq_sym. auto.
  - eapply rep_reparent; [| | |exact HX].
    + intros q Hq Hne. unfold unlinked. rewrite relink_ne.
      * simpl. by rewrite lookup_alter_ne.
      * destruct (Hsep q Hq). by apply par_of_notin.
    + intros n Hn' _. congruence.
    + by apply NoDup_app in HndX as (_ & _ & (? & _)%NoDup_app).
  - split.
    + by rewrite locs_plug.
    + intros q Hq. apply Hd, Hdom. rewrite locs_plug in Hq |- *.
      rewrite (only_locs _ _ _ _ _ Hlr). set_solver.
    + intros q. rewrite Hd, Hn. apply Hnx.
    + destruct (decide (ptr_of X = SENTINEL)) as [HE|HE].
      * rewrite HE in Hx, Hx0. rewrite Hx. eexists. split; [done|]. simpl. congruence.
      * exists ns. split; [|done]. unfold unlinked. rewrite relink_ne by by destruct k.
        simpl. by rewrite lookup_alter_ne.
Qed.

Lemma erase_unlink_spec s k c l y e r :
  zrep s k (T c l y e r) -> l = E \/ r = E ->
  exists s1, erase_unlink (Loc y) s = Ok (ptr_of (only l r), s1) /\
    zrep s1 k (only l r) /\ par_ok s1 k (only l r) /\ same_blocks s s1 /\
    heap s1 !! Loc y = Some (node_of (ptr_of l) (ptr_of r) (par_of k) c e) /\
    y ∉ locs (plug k (only l r)).
Proof.
  intros Hz Hlr. pose proof (unlink_intro _ _ _ _ _ _ _ Hz Hlr) as HU.
  destruct (unlinked_node _ _ _ _ HU) as (nx & Hx & Hx0 & Hcx).
  pose proof (u_notin _ _ _ _ HU) as Hy.
  assert (Loc y ≠ ptr_of (only l r)) as HyX1 by (apply ptr_of_notin; set_solver).
  assert (Loc y ≠ par_of k) as Hyk by (apply par_of_notin; set_solver).
  pose proof (ptr_of_not_null (only l r)) as HX0.
  pose proof (unlinked_zrep _ _ _ _ _ _ _ Hz Hlr) as Hz1.
  exists (unlinked s k (only l r)). split_and!; [|done| |apply unlinked_blocks| |].
  - zopen Hz. unfold erase_unlink. run1.
    assert (forall g, bind (if negb (ptr_eqb (ptr_of l) SENTINEL) then rd n_left (Loc y)
                  else rd n_right (Loc y)) g s = g (ptr_of (only l r)) s) as ->.
    { intros g. destruct l; cbn [ptr_of only];
        [rewrite ptr_eqb_true by done|rewrite ptr_eqb_false by done]; cbn [negb]; by run1. }
    do 3 run1. rewrite (bind_ok _ _ _ tt (unlinked s k (only l r))); [done|].
    apply relink_left_first; [|set_solver].
    eapply rep_ctx_agree; [|exact Hc]. intros q Hq. simpl. rewrite lookup_alter_ne; [done|].
    intros Heq. apply ptr_of_in, (u_sep _ _ _ _ HU) in Heq as [??]. set_solver.
  - exists (set_parent (par_of k) nx). done.
  - unfold unlinked. rewrite relink_ne by done. simpl. rewrite lookup_alter_ne by done.
    by destruct (z_tree _ _ _ Hz) as [? _].
  - by rewrite locs_plug.
Qed.

(** ** The successor *)

(** A path that only turns left. *)
Definition left_path (k : list frame) : Prop :=
  Forall (fun f => match f with FL _ _ _ _ => True | FR _ _ _ _ => False end) k.

Lemma left_path_flat k t1 t2 h :
  left_path k -> flat t1 = h ++ flat t2 -> flat (plug k t1) = h ++ flat (plug k t2).
Proof.
  intros Hk. revert t1 t2. induction Hk as [|[c p e r|] k Hf Hk IH]; intros t1 t2 Ht; try done.
  simpl. apply IH. simpl. rewrite Ht. by app_norm.
Qed.

Lemma left_path_snoc k c p e r : left_path k -> left_path (k ++ [FL c p e r]).
Proof. intros. apply Forall_app. split; [done|by constructor]. Qed.

Lemma leftmost_spec fuel s k c l y e r :
  zrep s k (T c l y e r) -> (height (T c l y e r) <= fuel)%nat ->
  exists k' c' y' e' r', leftmost fuel (Loc y) s = Ok (Loc y', s) /\
    T c l y e r = plug k' (T c' E y' e' r') /\ left_path k'.
Proof.
  revert k c l y e r. induction fuel as [|fuel IH]; intros k c l y e r Hz Hh; [simpl in Hh; lia|].
  pose proof Hz as Hz0. zopen Hz. cbn [leftmost]. run1.
  destruct l as [|cl ll pl el rl]; cbn [ptr_of].
  - exists [], c, y, e, r. rewrite ptr_eqb_true by done. split_and!; [done..|by constructor].
  - rewrite ptr_eqb_false by done.
    destruct (IH (FL c y e r :: k) cl ll pl el rl) as (k' & c' & y' & e' & r' & Hrun & Heq & Hk').
    + by rewrite zrep_up.
    + cbn [height] in Hh |- *. lia.
    + exists (k' ++ [FL c y e r]), c', y', e', r'. split_and!; [done| |by apply left_path_snoc].
      by rewrite plug_app, <-Heq.
Qed.

(** ** Changing the data of a node *)

(** What [z] holds after the copy: all the fields of the successor but the name. *)
Definition copied (e e' : entry) : entry :=
  mkEntry (e_key e') (e_size e') (e_type e') (e_pc e') (e_name e).

Lemma erase_copy_spec s k c l z e r y ny :
  zrep s k (T c l z e r) -> heap s !! Loc y = Some ny -> y ≠ z ->
  exists s', erase_copy (Loc z) (Loc y) s = Ok (tt, s') /\
    zrep s' k (T c l z (copied e (entry_of ny)) r) /\ keeps s s' /\
    (forall q, q ≠ Loc z -> heap s' !! q = heap s !! q).
Proof.
  intros Hz Hy Hne. pose proof Hz as Hz0. zopen Hz. unfold erase_copy. repeat run1.
  eexists. split; [done|]. split; [|split; [keeps_tac|]].
  - destruct e as [k0 sz0 ty0 pc0 nm0].
    eapply (zrep_node _ _ c c _ _ (mkEntry (n_key ny) (n_size ny) (n_type ny) pc0 nm0)); [|done].
    eapply (zrep_node _ _ c c _ _ (mkEntry (n_key ny) (n_size ny) ty0 pc0 nm0)); [|done].
    eapply (zrep_node _ _ c c _ _ (mkEntry (n_key ny) sz0 ty0 pc0 nm0)); [|done].
    eapply (zrep_node _ _ c c); [exact Hz0|done].
  - intros q Hq. simpl. by rewrite !lookup_alter_ne.
Qed.

(** ** Freeing the unlinked node *)

Lemma free_spec s t y :
  rb_rep s t -> y ∉ locs t -> is_Some (heap s !! Loc y) ->
  exists s', free (Loc y) s = Ok (tt, s') /\ rb_rep s' t /\
    base.size (heap s) = S (base.size (heap s')) /\ next s' = next s /\ avail s' = avail s /\
    heap s' = delete (Loc y) (heap s).
Proof.
  intros [Hc Ht [Hnd Hdom Hnx (n & Hn & Hcol)]] Hy [ny Hny]. simpl. rewrite Hny.
  eexists. split; [done|].
  assert (forall q, q ∈ locs t -> heap (upd_heap (delete (Loc y)) s) !! Loc q = heap s !! Loc q)
    as Hold.
  { intros q Hq. simpl. rewrite lookup_delete_ne; [done|]. intros [= ->]. done. }
  split; [|split_and!; try done].
  - split; [by eapply rep_ctx_agree|by eapply rep_agree|].
    split; [done|intros q Hq; rewrite Hold by done; auto| |].
    + intros q Hq. simpl in Hq. apply Hnx. apply lookup_delete_is_Some in Hq as [_ ?]. done.
    + exists n. simpl. by rewrite lookup_delete_ne.
  - simpl. rewrite map_size_delete_Some by (by rewrite Hny). 
    assert (base.size (heap s) ≠ 0%nat); [|lia].
    intros He%map_size_empty_inv. by rewrite He in Hny.
Qed.

(** ** The whole operation *)

(** The colour of the unlinked node decides what its removal breaks. *)
Definition unlink_legal (c : nodeColor) (k : list frame) (X : tree) : Prop :=
  match c with BLACK => deficient k X | RED => rb_tree (plug k X) end.

Lemma unlink_legal_intro k c l y e r :
  rb_tree (plug k (T c l y e r)) -> l = E \/ r = E -> unlink_legal c k (only l r).
Proof.
  intros (c' & n & Hrb & Hk)%rb_unplug Hlr.
  assert (forall m c1 t, rb c1 m t -> rb BLACK m t \/ color_of t = RED /\ rb BLACK (S m) (paint BLACK t))
    as Hpaint by (intros m c1 t []; simpl; eauto with rb).
  inversion Hrb; subst; simpl.
  - eapply (rb_plug BLACK); [by apply rb_ctx_black|]. by destruct l.
  - destruct l as [|cl' ll pl el rl]; simpl; eexists; (split; [done|]); eauto.
Qed.

Lemma erase_finish s k X y ny :
  zrep s k X -> par_ok s k X -> heap s !! Loc y = Some ny -> y ∉ locs (plug k X) ->
  unlink_legal (n_color ny) k X ->
  exists s' t',
    bind (rd n_color (Loc y)) (fun yc => bind (when (color_eqb yc BLACK) (deleteFixup (ptr_of X)))
      (fun _ => bind (free (Loc y)) (fun _ => ret RBT_STATUS_OK))) s = Ok (RBT_STATUS_OK, s') /\
    rb_rep s' t' /\ rb_tree t' /\ flat t' = flat (plug k X) /\
    base.size (heap s) = S (base.size (heap s')) /\ avail s' = avail s.
Proof.
  intros Hz Hp Hy Hni Hleg. run1.
  assert (exists s1 t1, when (color_eqb (n_color ny) BLACK) (deleteFixup (ptr_of X)) s = Ok (tt, s1) /\
    rb_rep s1 t1 /\ rb_tree t1 /\ flat t1 = flat (plug k X) /\ same_blocks s s1)
    as (s1 & t1 & Hrun & Hr1 & Hb1 & Hf1 & Hsb).
  { destruct (n_color ny); simpl in *; [by apply deleteFixup_spec|].
    exists s, (plug k X). split_and!; [done|by apply rb_rep_plug|done..]. }
  rewrite (bind_ok _ _ _ _ _ Hrun).
  destruct (free_spec s1 t1 y) as (s2 & Hfree & Hr2 & Hsz & _ & Hav & _); [done| | |].
  { by rewrite locs_flat, Hf1, <-locs_flat. }
  { apply Hsb. by rewrite Hy. }
  rewrite (bind_ok _ _ _ _ _ Hfree). exists s2, t1.
  split_and!; [done..| |]; [rewrite <-(same_blocks_size _ _ Hsb); done|].
  destruct Hsb as (_ & _ & ?). congruence.
Qed.

(** The objects left when the node holding [e] between the subtrees [l] and
    [r] is erased. With two subtrees the successor of [e] moves into its node,
    where it finds the name of [e]. *)
Definition erased (l : tree) (e : entry) (r : tree) : list entry :=
  match l, r with
  | T _ _ _ _ _, T _ _ _ _ _ =>
      inorder l ++ match inorder r with [] => [] | e' :: es => copied e e' :: es end
  | _, _ => inorder l ++ inorder r
  end.

Lemma only_inorder l e r : l = E \/ r = E -> inorder (only l r) = erased l e r.
Proof. intros [->| ->]; [by destruct r|]. destruct l; [done|]. simpl. by rewrite app_nil_r. Qed.

(** A node with a free slot is unlinked itself. *)
Lemma erase_pick_self s k c l z e r :
  zrep s k (T c l z e r) -> l = E \/ r = E -> erase_pick (Loc z) s = Ok (Loc z, s).
Proof.
  intros Hz Hlr. zopen Hz. unfold erase_pick. rewrite (bind_ok get _ s s s) by done. run1.
  destruct Hlr as [->| ->]; cbn [ptr_of].
  - by rewrite ptr_eqb_true.
  - destruct (ptr_eqb (ptr_of l) SENTINEL); [done|]. run1. by rewrite ptr_eqb_true.
Qed.

Lemma erase_pick_succ s k c l z e cr lr pr er rr :
  zrep s k (T c l z e (T cr lr pr er rr)) -> l ≠ E ->
  exists k' c' y e' r', erase_pick (Loc z) s = Ok (Loc y, s) /\
    T cr lr pr er rr = plug k' (T c' E y e' r') /\ left_path k'.
Proof.
  intros Hz Hl. pose proof (heap_fuel_enough _ _ _ Hz) as Hf. cbn [height] in Hf.
  pose proof Hz as Hz0. zopen Hz. rewrite zrep_down_r in Hz0.
  destruct (leftmost_spec (heap_fuel s) s _ _ _ _ _ _ Hz0) as (k' & c' & y & e' & r' & Hrun & ? & ?).
  { cbn [height]. lia. }
  exists k', c', y, e', r'. split_and!; [|done..].
  unfold erase_pick. rewrite (bind_ok get _ s s s) by done. run1.
  destruct l; [done|]. cbn [ptr_of]. rewrite ptr_eqb_false by done. run1.
  rewrite ptr_eqb_false by done. rewrite bind_ret. by run1.
Qed.

Lemma rb_tree_data k c l p e e' r :
  rb_tree (plug k (T c l p e r)) -> rb_tree (plug k (T c l p e' r)).
Proof.
  intros (c' & n & Hrb & Hk)%rb_unplug. eapply rb_plug; [exact Hk|].
  inversion Hrb; subst; eauto with rb.
Qed.

Lemma zrep_split s k k' f t : zrep s (k' ++ f :: k) t <-> zrep s k (fill f (plug k' t)).
Proof. by rewrite (zrep_plug s (k' ++ f :: k)), plug_app, (zrep_plug s k). Qed.

(** The store after the successor [y] has been unlinked and copied into [z]. *)
Lemma erase_succ s k c l z e k' c' y e' r' :
  zrep s k (T c l z e (plug k' (T c' E y e' r'))) ->
  exists s1 s2, erase_unlink (Loc y) s = Ok (ptr_of r', s1) /\
    erase_copy (Loc z) (Loc y) s1 = Ok (tt, s2) /\ y ≠ z /\
    zrep s2 (k' ++ FR c l z (copied e e') :: k) r' /\
    par_ok s2 (k' ++ FR c l z (copied e e') :: k) r' /\ same_blocks s s2 /\
    (exists ny, heap s2 !! Loc y = Some ny /\ n_color ny = c') /\
    y ∉ locs (plug (k' ++ FR c l z (copied e e') :: k) r').
Proof.
  intros Hz.
  pose proof (zrep_nodup _ _ _ Hz) as Hnd. cbn [locs] in Hnd. rewrite locs_plug in Hnd. cbn [locs] in Hnd.
  assert (y ≠ z /\ Loc z ≠ ptr_of r') as [Hyz Hzr].
  { apply (NoDup_sub (y :: z :: locs r')) in Hnd; [|solve_submseteq].
    rewrite !NoDup_cons in Hnd. destruct Hnd as (? & ? & _). split; [set_solver|by apply ptr_of_notin]. }
  pose proof (proj2 (zrep_split s k k' (FR c l z e) (T c' E y e' r')) Hz) as HzK.
  destruct (erase_unlink_spec _ _ _ _ _ _ _ HzK) as (s1 & Hun & Hz1 & Hp1 & Hsb1 & Hy1 & Hni); [by left|].
  cbn [only] in *. apply zrep_split in Hz1. cbn [fill] in Hz1.
  destruct (erase_copy_spec _ _ _ _ _ _ _ _ _ Hz1 Hy1 Hyz) as (s2 & Hcp & Hz2 & [_ Hsb2] & Hoth).
  exists s1, s2. split_and!; [done..| | |by etrans| |].
  - by apply zrep_split.
  - destruct Hp1 as (nx & Hx & Hpar & Hcx). exists nx.
    rewrite Hoth by congruence. split_and!; [done| |done]. rewrite Hpar. by destruct k'.
  - eexists. rewrite Hoth by congruence. done.
  - rewrite !plug_app in Hni |- *. cbn [plug fill] in Hni |- *. rewrite locs_plug in Hni |- *. done.
Qed.

Lemma rbtErase_two s k c l z e r :
  zrep s k (T c l z e r) -> rb_tree (plug k (T c l z e r)) -> l ≠ E -> r ≠ E ->
  exists s' t', rbtErase (Loc z) s = Ok (RBT_STATUS_OK, s') /\ rb_rep s' t' /\ rb_tree t' /\
    inorder t' = ents_before k ++ erased l e r ++ ents_after k /\
    base.size (heap s) = S (base.size (heap s')) /\ avail s' = avail s.
Proof.
  intros Hz Hrb Hl Hr. destruct r as [|cr lr pr er rr]; [done|].
  destruct (erase_pick_succ _ _ _ _ _ _ _ _ _ _ _ Hz Hl)
    as (k' & c' & y & e' & r' & Hpick & Heq & Hleft).
  unfold rbtErase. rewrite (bind_ok _ _ _ _ _ Hpick). rewrite Heq in Hz, Hrb.
  destruct (erase_succ _ _ _ _ _ _ _ _ _ _ _ Hz)
    as (s1 & s2 & Hun & Hcp & Hyz & Hz2 & Hp2 & Hsb & (ny & Hny & Hcy) & Hni).
  rewrite (bind_ok _ _ _ _ _ Hun), ptr_eqb_false by congruence. cbn [negb when].
  rewrite (bind_ok _ _ _ _ _ Hcp).
  destruct (erase_finish _ _ _ _ _ Hz2 Hp2 Hny Hni) as (s' & t' & Hfin & Hr' & Hb' & Hf' & Hsz & Hav).
  { rewrite Hcy. apply (unlink_legal_intro _ _ E y e' r'); [|by left].
    rewrite plug_app. by eapply rb_tree_data. }
  exists s', t'. split_and!; [done..| | |destruct Hsb as (_ & _ & ?); congruence].
  - rewrite inorder_flat, Hf', <-inorder_flat, plug_app. cbn [plug fill]. rewrite inorder_plug.
    assert (inorder (T cr lr pr er rr) = e' :: inorder (plug k' r')) as Hin.
    { rewrite Heq, !inorder_flat. by rewrite (left_path_flat k' (T c' E y e' r') r' [(y, e')]). }
    destruct l; [done|]. unfold erased. rewrite Hin. done.
  - by rewrite <-(same_blocks_size _ _ Hsb).
Qed.

(** [rbtErase] on a node of a well-formed tree never fails. *)
Lemma rbtErase_spec s k c l z e r :
  zrep s k (T c l z e r) -> rb_tree (plug k (T c l z e r)) ->
  exists s' t', rbtErase (Loc z) s = Ok (RBT_STATUS_OK, s') /\ rb_rep s' t' /\ rb_tree t' /\
    inorder t' = ents_before k ++ erased l e r ++ ents_after k /\
    base.size (heap s) = S (base.size (heap s')) /\ avail s' = avail s.
Proof.
  intros Hz Hrb.
  assert ((l = E \/ r = E) \/ l ≠ E /\ r ≠ E) as [Hlr|[Hl Hr]]
    by (destruct l, r; eauto); [|by apply (rbtErase_two _ _ c)].
  unfold rbtErase. rewrite (bind_ok _ _ _ _ _ (erase_pick_self _ _ _ _ _ _ _ Hz Hlr)).
  destruct (erase_unlink_spec _ _ _ _ _ _ _ Hz Hlr) as (s1 & Hun & Hz1 & Hp1 & Hsb & Hy & Hni).
  rewrite (bind_ok _ _ _ _ _ Hun), ptr_eqb_true by done. cbn [negb when]. rewrite bind_ret.
  destruct (erase_finish _ _ _ _ _ Hz1 Hp1 Hy Hni) as (s' & t' & Hfin & Hr' & Hb' & Hf' & Hsz & Hav).
  { simpl. by eapply unlink_legal_intro. }
  exists s', t'. split_and!; [done..| | |destruct Hsb as (_ & _ & ?); congruence].
  - by rewrite inorder_flat, Hf', <-inorder_flat, inorder_plug, <-only_inorder.
  - by rewrite <-(same_blocks_size _ _ Hsb).
Qed.
