(* ===== verification/RbStore.v ===== *)
(** * The store of kernel objects

    The functions of rev_sem/rb_tree.c that the tracer calls, seen from outside:
    the tree holds a sequence of objects sorted by address. The file proves what
    lookup, insertion, erasure and traversal do to that sequence. *)

From stdpp Require Import base gmap list strings.
From Stdlib Require Import ZArith Lia Sorted.
From S2P Require Import Prelude RbTree RbShape RbBalance RbInsert RbErase.

(** ** Objects

    An object is a range of addresses with the type and the allocation site
    recorded for it. The name of a node is not part of it. *)

Record obj : Type := mkObj { o_key : Z; o_size : Z; o_type : Z; o_pc : Z }.

Definition obj_of (e : entry) : obj := mkObj (e_key e) (e_size e) (e_type e) (e_pc e).
Definition objs (t : tree) : list obj := obj_of <$> inorder t.

(** The 32-bit range test of [ds_code_rbtFind2]. *)
Definition o_covers (o : obj) (key : Z) : bool :=
  (o_key o <=? key)%Z && (key <? u32 (o_key o + o_size o))%Z.

Definition obj_lt (a b : obj) : Prop := (o_key a < o_key b)%Z.

(** [a] ends where [b] starts or before. *)
Definition o_below (a b : obj) : Prop := (o_key a + o_size a <= o_key b)%Z.

(** A non-empty range that does not wrap around the address space. *)
Definition o_valid (o : obj) : Prop :=
  (0 <= o_key o)%Z /\ (0 < o_size o)%Z /\ (o_key o + o_size o < 2 ^ 32)%Z.

(** Valid, pairwise disjoint objects in the order of their addresses. *)
Definition objs_ok (os : list obj) : Prop := StronglySorted o_below os /\ Forall o_valid os.

#[export] Instance obj_eq_dec : EqDecision obj.
Proof. solve_decision. Defined.
#[export] Instance obj_lt_dec : RelDecision obj_lt.
Proof. intros a b. unfold obj_lt. apply _. Defined.
#[export] Instance o_below_dec : RelDecision o_below.
Proof. intros a b. unfold o_below. apply _. Defined.
#[export] Instance o_valid_dec o : Decision (o_valid o).
Proof. unfold o_valid. apply _. Defined.

#[export] Instance StronglySorted_dec {A} (R : A -> A -> Prop) `{!RelDecision R} l :
  Decision (StronglySorted R l).
Proof.
  induction l as [|a l IH]; [left; constructor|].
  destruct IH as [Hs|Hs]; [|right; by inversion 1].
  destruct (decide (Forall (R a) l)); [left; by constructor|right; by inversion 1].
Defined.

#[export] Instance objs_ok_dec os : Decision (objs_ok os).
Proof. unfold objs_ok. apply _. Defined.

Lemma o_covers_valid o key :
  o_valid o -> o_covers o key = true <-> (o_key o <= key < o_key o + o_size o)%Z.
Proof.
  intros (? & ? & ?). unfold o_covers. rewrite u32_id by lia.
  rewrite andb_true_iff, Z.leb_le, Z.ltb_lt. lia.
Qed.

Lemma StronglySorted_impl {A} (R R' : A -> A -> Prop) l :
  (forall a b, a ∈ l -> b ∈ l -> R a b -> R' a b) -> StronglySorted R l -> StronglySorted R' l.
Proof.
  intros HR Hl. induction Hl as [|a l Hs IH Hf]; constructor.
  - apply IH. intros b c Hb Hc. apply HR; set_solver.
  - rewrite Forall_forall in Hf |- *. intros b Hb. apply HR; [set_solver..|auto].
Qed.

Lemma objs_ok_lt os : objs_ok os -> StronglySorted obj_lt os.
Proof.
  intros [Hs Hv]. eapply StronglySorted_impl; [|done]. rewrite Forall_forall in Hv.
  intros a b Ha _ Hab. destruct (Hv a Ha) as (? & ? & ?). unfold o_below, obj_lt in *. lia.
Qed.

Lemma objs_ok_app l r : objs_ok (l ++ r) -> objs_ok l /\ objs_ok r.
Proof.
  intros [Hs [? ?]%Forall_app]. unfold objs_ok.
  enough (StronglySorted o_below l /\ StronglySorted o_below r) as [? ?] by done. clear -Hs.
  induction l as [|a l IH]; simpl in *; [split; [constructor|done]|].
  inversion Hs as [|?? Hs' Hf]; subst. apply Forall_app in Hf as [? ?]. destruct (IH Hs'). split; [by constructor|done].
Qed.

Lemma objs_ok_del l o r : objs_ok (l ++ o :: r) -> objs_ok (l ++ r).
Proof.
  intros [Hs Hv]. split; [by apply StronglySorted_mid in Hs as [? _]|].
  apply Forall_app in Hv as [? Hv]. inversion Hv; subst. by apply Forall_app.
Qed.

Lemma StronglySorted_fmap {A B} (f : A -> B) (R : A -> A -> Prop) (R' : B -> B -> Prop) l :
  (forall a b, R a b <-> R' (f a) (f b)) -> StronglySorted R l <-> StronglySorted R' (f <$> l).
Proof.
  intros HR. induction l as [|a l IH]; [split; constructor|]. rewrite fmap_cons.
  split; inversion 1 as [|?? Hs Hf]; subst; constructor.
  - by apply IH.
  - apply Forall_fmap. eapply Forall_impl; [exact Hf|]. intros b. apply HR.
  - by apply IH.
  - rewrite Forall_fmap in Hf. eapply Forall_impl; [exact Hf|]. intros b. apply HR.
Qed.

Lemma bst_objs t : bst t <-> StronglySorted obj_lt (objs t).
Proof. by apply StronglySorted_fmap. Qed.

(** ** The abstraction

    [store s os]: the tree in [s] is a red-black search tree that holds the
    objects [os], in order, and every allocated node is in it. *)

Definition store (s : rb_state) (os : list obj) : Prop :=
  exists t, rb_rep s t /\ rb_tree t /\ objs t = os /\ StronglySorted obj_lt os /\
    base.size (heap s) = S (length os).

Lemma count_objs t : length (objs t) = count t.
Proof. unfold objs. by rewrite length_fmap, count_inorder. Qed.

(** A store with as many blocks as objects has no block outside the tree. *)
Lemma store_tight s t q :
  rb_rep s t -> base.size (heap s) = S (count t) -> q ∉ locs t -> heap s !! Loc q = None.
Proof.
  intros Hz Hsz Hq. destruct (heap s !! Loc q) as [n|] eqn:Hn; [|done]. exfalso.
  destruct (free_spec s t q Hz Hq) as (s' & _ & Hz' & Hsz' & _); [by rewrite Hn|].
  pose proof (count_heap _ _ Hz'). lia.
Qed.

Lemma objs_plug k t : objs (plug k t) = (obj_of <$> ents_before k) ++ objs t ++ (obj_of <$> ents_after k).
Proof. unfold objs. by rewrite inorder_plug, !fmap_app. Qed.

Lemma objs_node c l p e r : objs (T c l p e r) = objs l ++ obj_of e :: objs r.
Proof. unfold objs. simpl. by rewrite fmap_app. Qed.

Lemma covers_node l r par c e key : covers (node_of l r par c e) key = o_covers (obj_of e) key.
Proof. done. Qed.

(** ** Lookup *)

(** Nothing in [os] covers [key]. *)
Definition uncovered (os : list obj) (key : Z) : Prop := Forall (fun o => o_covers o key = false) os.

Lemma uncovered_above o os key :
  Forall (obj_lt o) os -> (key <= o_key o)%Z -> uncovered os key.
Proof.
  intros Hf Hk. eapply Forall_impl; [exact Hf|]. intros o' Ho. unfold obj_lt in Ho.
  unfold o_covers. destruct (Z.leb_spec (o_key o') key); [lia|done].
Qed.

Lemma uncovered_below o os key :
  Forall (fun o' => o_below o' o) os -> Forall o_valid os -> (o_key o < key)%Z -> uncovered os key.
Proof.
  intros Hf Hv Hk. unfold uncovered. rewrite Forall_forall in Hf, Hv |- *. intros o' Ho.
  specialize (Hf _ Ho). specialize (Hv _ Ho). unfold o_below in Hf.
  destruct (o_covers o' key) eqn:Hc; [|done]. apply o_covers_valid in Hc; [lia|done].
Qed.

(** The loop stops within the height of the subtree: at a node that covers
    [key], or at the sentinel; in the latter case no object of the subtree
    covers [key], provided the objects are disjoint. *)
Lemma rbtFind2_loop_spec fuel s k t key :
  zrep s k t -> (height t < fuel)%nat ->
  (exists k' c l p e r, rbtFind2_loop fuel key (ptr_of t) s = Ok (Loc p, s) /\
     plug k' (T c l p e r) = plug k t /\ zrep s k' (T c l p e r) /\ o_covers (obj_of e) key = true) \/
  (rbtFind2_loop fuel key (ptr_of t) s = Ok (NULL, s) /\ (objs_ok (objs t) -> uncovered (objs t) key)).
Proof.
  revert k t. induction fuel as [|fuel IH]; intros k t Hz Hh; [lia|].
  destruct t as [|c l p e r].
  { right. split; [done|]. by constructor. }
  pose proof Hz as Hz0. zopen Hz. cbn [ptr_of rbtFind2_loop height] in Hh |- *.
  rewrite ptr_eqb_false by done. erewrite bind_ok by (by apply load_ok).
  rewrite covers_node. destruct (o_covers (obj_of e) key) eqn:Hcov.
  { left. exists k, c, l, p, e, r. done. }
  cbn [n_key n_left n_right node_of]. destruct (Z.leb_spec key (e_key e)) as [Hle|Hlt].
  - destruct (IH (FL c p e r :: k) l) as [(k' & c' & l' & p' & e' & r' & ?)|[Hrun Hno]];
      [by rewrite zrep_up|lia| |].
    { left. by exists k', c', l', p', e', r'. }
    right. split; [done|]. rewrite objs_node. intros Hok.
    apply Forall_app. split; [apply Hno; by apply objs_ok_app in Hok as [? _]|].
    apply Forall_cons. split; [done|]. apply objs_ok_app in Hok as [_ Hok%objs_ok_lt].
    inversion Hok; subst. by eapply uncovered_above.
  - destruct (IH (FR c l p e :: k) r) as [(k' & c' & l' & p' & e' & r' & ?)|[Hrun Hno]];
      [by rewrite zrep_up|lia| |].
    { left. by exists k', c', l', p', e', r'. }
    right. split; [done|]. rewrite objs_node. intros Hok. pose proof Hok as [Hs Hv].
    apply StronglySorted_mid in Hs as (_ & Hbl & _). apply Forall_app in Hv as [Hvl _].
    apply Forall_app. split; [by eapply uncovered_below|].
    apply Forall_cons. split; [done|]. apply Hno.
    apply (objs_ok_app (objs l ++ [obj_of e])). by rewrite <-app_assoc.
Qed.

(** More fuel than the height of the subtree changes nothing. *)
Lemma rbtFind2_loop_fuel fuel fuel' s k t key :
  zrep s k t -> (height t < fuel)%nat -> (height t < fuel')%nat ->
  rbtFind2_loop fuel key (ptr_of t) s = rbtFind2_loop fuel' key (ptr_of t) s.
Proof.
  revert fuel fuel' k. induction t as [|c l IHl p e r IHr]; intros fuel fuel' k Hz Hf Hf';
    (destruct fuel as [|fuel]; [simpl in Hf; lia|]); (destruct fuel' as [|fuel']; [simpl in Hf'; lia|]);
    [done|].
  pose proof Hz as Hz0. zopen Hz. cbn [ptr_of rbtFind2_loop height] in Hf, Hf' |- *.
  rewrite ptr_eqb_false by done. rewrite !(bind_ok (load (Loc p)) _ s _ s (load_ok _ _ _ ltac:(eassumption) ltac:(done))).
  destruct (covers _ key); [done|]. cbn [n_key n_left n_right node_of].
  destruct (key <=? e_key e)%Z.
  - eapply IHl; [by apply zrep_down_l|lia..].
  - eapply IHr; [by apply zrep_down_r|lia..].
Qed.

(** The node [p] of [s] holds the object [o]. *)
Definition holds (s : rb_state) (p : ptr) (o : obj) : Prop :=
  exists n, heap s !! p = Some n /\ obj_of (entry_of n) = o.

Lemma erased_objs l e r : obj_of <$> erased l e r = objs l ++ objs r.
Proof.
  unfold erased, objs. destruct l as [|cl ll pl el rl], r as [|cr lr pr er rr];
    rewrite <-?fmap_app; try done.
  rewrite !fmap_app. f_equal. destruct (inorder (T cr lr pr er rr)) as [|e' es]; [done|].
  by rewrite !fmap_cons.
Qed.

(** The two answers of [ds_code_rbtFind2]; what erasing the node found does. *)
Lemma find2_cases s os key :
  store s os ->
  (exists p l o r s', ds_code_rbtFind2 key s = Ok (Loc p, s) /\ os = l ++ o :: r /\
     holds s (Loc p) o /\ o_covers o key = true /\
     rbtErase (Loc p) s = Ok (RBT_STATUS_OK, s') /\ store s' (l ++ r) /\ avail s' = avail s) \/
  (ds_code_rbtFind2 key s = Ok (NULL, s) /\ (objs_ok os -> uncovered os key)).
Proof.
  intros (t & Hz & Hrb & <- & Hs & Hsz). pose proof (heap_fuel_enough _ _ _ Hz) as Hf.
  unfold ds_code_rbtFind2.
  rewrite (bind_ok get _ s s s), (bind_ok get_root _ s (root s) s), (zrep_root _ _ Hz) by done.
  destruct (rbtFind2_loop_spec (heap_fuel s) s [] t key)
    as [(k' & c & l & p & e & r & Hrun & Hpl & Hz' & Hcov)|[Hrun Hno]]; [done|simpl in Hf; lia|left|by right].
  simpl in Hpl. subst t.
  destruct (rbtErase_spec _ _ _ _ _ _ _ Hz' Hrb) as (s' & t' & He & Hz1 & Hrb1 & Hin & Hsz1 & Hav).
  rewrite objs_plug, objs_node in *. 
  exists p, ((obj_of <$> ents_before k') ++ objs l), (obj_of e),
    (objs r ++ (obj_of <$> ents_after k')), s'.
  assert (objs t' = ((obj_of <$> ents_before k') ++ objs l) ++ objs r ++ (obj_of <$> ents_after k')) as Hobjs.
  { unfold objs. rewrite Hin, !fmap_app, <-!app_assoc. f_equal. by rewrite erased_objs, <-app_assoc. }
  split_and!; [done|by app_norm| |done|done| |done].
  - zopen Hz'. eexists. split; [done|]. by destruct e.
  - exists t'. split_and!; [done..| |].
    + eapply StronglySorted_mid. by rewrite <-!app_assoc in Hs |- *.
    + rewrite !length_app in Hsz |- *. simpl in Hsz. lia.
Qed.

(** ** Erasing every object that covers an address *)

(** [os'] is what is left of [os] after some objects that cover [key] are gone. *)
Inductive removes (key : Z) : list obj -> list obj -> Prop :=
| removes_refl os : removes key os os
| removes_step l o r os' :
    o_covers o key = true -> removes key (l ++ r) os' -> removes key (l ++ o :: r) os'.

Definition survivors (key : Z) (os : list obj) : list obj :=
  filter (fun o => o_covers o key = false) os.

Lemma removes_survivors key os os' : removes key os os' -> survivors key os' = survivors key os.
Proof.
  unfold survivors. induction 1 as [|l o r os' Hc _ IH]; [done|].
  rewrite IH, !filter_app, filter_cons, decide_False; [done|]. by rewrite Hc.
Qed.

Lemma survivors_uncovered key os : uncovered os key -> survivors key os = os.
Proof.
  unfold survivors, uncovered. induction 1 as [|o os Ho _ IH]; [done|].
  by rewrite filter_cons, decide_True, IH.
Qed.

Lemma removes_ok key os os' : removes key os os' -> objs_ok os -> objs_ok os'.
Proof. induction 1 as [|l o r os' _ _ IH]; [done|]. intros Hok. by eapply IH, objs_ok_del. Qed.

Lemma removes_survive key os os' o :
  removes key os os' -> o ∈ os -> o_covers o key = false -> o ∈ os'.
Proof.
  induction 1 as [|l o' r os' Hc _ IH]; [done|]. intros Hin Ho. apply IH; [|done].
  apply elem_of_app in Hin as [?|[->|?]%elem_of_cons]; [set_solver|congruence|set_solver].
Qed.

(** The loop always ends. Afterwards a lookup of [key] fails, and only objects
    that cover [key] are gone. *)
Lemma erase_covering_spec fuel s os key :
  store s os -> (length os < fuel)%nat ->
  exists s' os', erase_covering fuel key s = Ok (tt, s') /\ store s' os' /\ removes key os os' /\
    ds_code_rbtFind2 key s' = Ok (NULL, s') /\ (objs_ok os -> os' = survivors key os) /\
    avail s' = avail s.
Proof.
  revert s os. induction fuel as [|fuel IH]; intros s os Hst Hf; [lia|]. cbn [erase_covering].
  destruct (find2_cases s os key Hst)
    as [(p & l & o & r & s1 & Hfind & -> & Hh & Hc & He & Hst1 & Hav)|[Hfind Hno]];
    rewrite (bind_ok _ _ _ _ _ Hfind).
  - rewrite ptr_eqb_false, (bind_ok _ _ _ _ _ He) by done.
    destruct (IH s1 (l ++ r) Hst1) as (s' & os' & Hrun & Hst' & Hrem & Hnull & Hsurv & Hav').
    { rewrite length_app in Hf |- *. simpl in Hf. lia. }
    exists s', os'. split_and!; [done..|by constructor|done| |congruence].
    intros Hok. rewrite Hsurv by by eapply objs_ok_del. unfold survivors.
    rewrite !filter_app, filter_cons, decide_False; [done|]. by rewrite Hc.
  - rewrite ptr_eqb_true by done. exists s, os.
    split_and!; [done..|constructor|done| |done]. intros Hok. symmetry. by apply survivors_uncovered, Hno.
Qed.

Lemma store_fuel s os : store s os -> (length os < heap_fuel s)%nat.
Proof. intros (t & _ & _ & _ & _ & Hsz). unfold heap_fuel. lia. Qed.

(** ** Insertion *)

Fixpoint ins_obj (o : obj) (os : list obj) : list obj :=
  match os with
  | [] => [o]
  | o' :: os' => if (o_key o' <? o_key o)%Z then o' :: ins_obj o os' else o :: os
  end.

Lemma ins_obj_app o l1 l2 :
  Forall (fun o' => obj_lt o' o) l1 -> Forall (obj_lt o) l2 -> ins_obj o (l1 ++ l2) = l1 ++ o :: l2.
Proof.
  unfold obj_lt. induction 1 as [|o' l1 Ho _ IH]; simpl; intros Hl2.
  - destruct Hl2 as [|o2 l2 Ho2 _]; simpl; [done|]. destruct (Z.ltb_spec (o_key o2) (o_key o)); [lia|done].
  - destruct (Z.ltb_spec (o_key o') (o_key o)); [|lia]. by rewrite IH.
Qed.

Definition new_obj (key size : Z) (p : NodeType) : obj := mkObj key size (n_type p) (n_pc p).

(** What [rbtInsert] answers, in terms of the objects. *)
Inductive store_insert (key size : Z) (p : NodeType) (s : rb_state) (os : list obj)
  : res (RbtStatus * rb_state) -> Prop :=
| sti_clash o c :
    o ∈ os -> o_key o = key -> c ≠ RBT_STATUS_OK -> store_insert key size p s os (Ok (c, s))
| sti_nomem :
    avail s = 0%nat -> store_insert key size p s os (Ok (RBT_STATUS_MEM_EXHAUSTED, s))
| sti_overflow :
    (OBJ_NAME_LEN <= String.length (n_obj_name p))%nat -> avail s ≠ 0%nat ->
    store_insert key size p s os (Fault BufferOverflow)
| sti_ok s' :
    (String.length (n_obj_name p) < OBJ_NAME_LEN)%nat -> avail s = S (avail s') ->
    (forall o, o ∈ os -> o_key o ≠ key) ->
    store s' (ins_obj (new_obj key size p) os) ->
    store_insert key size p s os (Ok (RBT_STATUS_OK, s')).

Lemma clash_not_ok size e : clash size e ≠ RBT_STATUS_OK.
Proof. unfold clash. by repeat case_match. Qed.

Lemma rbtInsert_store key size p s os :
  store s os -> store_insert key size p s os (rbtInsert key size p s).
Proof.
  intros (t & Hz & Hrb & <- & Hs & Hsz).
  destruct (rbtInsert_outcome key size p s t Hz Hrb) as
    [e He Hk|Hav _|Hlen Hav|s' t' l1 l2 Hlen Hav Hsz' Hz' Hrb' Hin Hin' Hl1 Hl2]; [by apply bst_objs|..].
  - eapply (sti_clash _ _ _ _ _ (obj_of e)); [|done|apply clash_not_ok].
    apply list_elem_of_fmap. eauto.
  - by apply sti_nomem.
  - by apply sti_overflow.
  - assert (Forall (fun o' => obj_lt o' (new_obj key size p)) (obj_of <$> l1)) as Ho1 by by apply Forall_fmap.
    assert (Forall (obj_lt (new_obj key size p)) (obj_of <$> l2)) as Ho2 by by apply Forall_fmap.
    assert (objs t = (obj_of <$> l1) ++ (obj_of <$> l2)) as Ht by (unfold objs; by rewrite Hin, fmap_app).
    apply sti_ok; [done..| |].
    + intros o Ho. rewrite Ht in Ho. rewrite Forall_forall in Ho1, Ho2.
      apply elem_of_app in Ho as [Ho%Ho1|Ho%Ho2]; unfold obj_lt, new_obj in Ho; simpl in Ho; lia.
    + rewrite Ht, ins_obj_app by done. exists t'. split_and!; [done..| | |].
      * unfold objs. by rewrite Hin', fmap_app.
      * rewrite Ht in Hs. by apply StronglySorted_mid.
      * rewrite Hsz', Hsz, Ht, !length_app. simpl. lia.
Qed.

(** [rbtInsert2] inserts into what the erasure of the objects covering the new
    start address leaves. *)
Lemma rbtInsert2_store key size p s os :
  store s os ->
  exists s1 os1, store s1 os1 /\ removes key os os1 /\ ds_code_rbtFind2 key s1 = Ok (NULL, s1) /\
    (objs_ok os -> os1 = survivors key os) /\ avail s1 = avail s /\
    rbtInsert2 key size p s = rbtInsert key size p s1.
Proof.
  intros Hst. pose proof (store_fuel _ _ Hst) as Hf.
  destruct (erase_covering_spec (heap_fuel s) s os key Hst Hf)
    as (s1 & os1 & Hrun & Hst1 & Hrem & Hnull & Hsurv & Hav).
  exists s1, os1. split_and!; [done..|]. unfold rbtInsert2.
  rewrite (bind_ok get _ s s s) by done. by rewrite (bind_ok _ _ _ _ _ Hrun).
Qed.

Lemma survivors_key key os o :
  objs_ok os -> o ∈ survivors key os -> o_key o ≠ key.
Proof.
  intros [_ Hv] [Hc Ho]%list_elem_of_filter Hk. rewrite Forall_forall in Hv.
  specialize (Hv _ Ho). assert (o_covers o key = true); [|congruence].
  apply o_covers_valid; [done|]. destruct Hv as (? & ? & ?). lia.
Qed.

(** The insertion the tracer performs for a new kernel object. *)
Lemma rbtInsert2_ok key size p s os :
  store s os -> objs_ok os ->
  (String.length (n_obj_name p) < OBJ_NAME_LEN)%nat -> avail s ≠ 0%nat ->
  exists s', rbtInsert2 key size p s = Ok (RBT_STATUS_OK, s') /\
    store s' (ins_obj (new_obj key size p) (survivors key os)) /\ avail s = S (avail s').
Proof.
  intros Hst Hok Hlen Hav.
  destruct (rbtInsert2_store key size p s os Hst) as (s1 & os1 & Hst1 & _ & _ & Hsurv & Hav1 & ->).
  specialize (Hsurv Hok). subst os1.
  destruct (rbtInsert_store key size p s1 _ Hst1) as [o c Ho Hk|Hav'|Hlen'|s' _ Hav' _ Hst'].
  - by destruct (survivors_key key os o).
  - congruence.
  - lia.
  - exists s'. split_and!; [done..|congruence].
Qed.

(** An object that does not cover its own address stays, and makes every
    further insertion at that address abort. *)
Lemma all_insert_clash key size p s os o :
  store s os -> o ∈ os -> o_key o = key -> o_covers o key = false ->
  (String.length (n_obj_name p) < OBJ_NAME_LEN)%nat ->
  all_insert_tree key size p s = Fault AssertFailed.
Proof.
  intros Hst Ho Hk Hc Hlen.
  destruct (rbtInsert2_store key size p s os Hst) as (s1 & os1 & Hst1 & Hrem & _ & _ & _ & Hrun).
  unfold all_insert_tree, bind. rewrite Hrun.
  destruct (rbtInsert_store key size p s1 _ Hst1) as [o' c _ _ Hc'|Hav'|Hlen'|s' _ _ Hno _].
  - by destruct c.
  - done.
  - lia.
  - destruct (Hno o); [by eapply removes_survive|done].
Qed.

(** The new range meets no object that starts inside it. *)
Definition room (key size : Z) (os : list obj) : Prop :=
  Forall (fun o => (o_key o < key \/ key + size <= o_key o)%Z) os.

Lemma elem_of_ins o o' os : o' ∈ ins_obj o os <-> o' = o \/ o' ∈ os.
Proof.
  induction os as [|o1 os IH]; simpl; [set_solver|].
  destruct (_ <? _)%Z; set_solver.
Qed.

Lemma Forall_ins P o os : P o -> Forall P os -> Forall P (ins_obj o os).
Proof.
  intros Ho Hos. rewrite Forall_forall in Hos |- *. intros o' [->|?]%elem_of_ins; auto.
Qed.

(** Disjointness is kept when the survivors that start before the new object
    also end before it, and those that start after it leave it room. *)
Lemma ins_obj_ok o os :
  objs_ok os -> o_valid o -> uncovered os (o_key o) -> room (o_key o) (o_size o) os ->
  objs_ok (ins_obj o os).
Proof.
  intros [Hs Hv] Ho Hun Hroom. split; [|by apply Forall_ins].
  induction Hs as [|o1 os Hs IH Hf]; simpl; [by repeat constructor|].
  inversion Hv as [|?? Hv1 Hv2]; inversion Hun as [|?? Hu1 Hu2]; inversion Hroom as [|?? Hr1 Hr2]; subst.
  assert (o_key o1 < o_key o -> o_below o1 o)%Z as Hb.
  { intros Hlt. destruct (Z.leb_spec (o_key o1 + o_size o1) (o_key o)) as [?|Hgt]; [done|].
    assert (o_covers o1 (o_key o) = true); [|congruence]. apply o_covers_valid; [done|lia]. }
  destruct (Z.ltb_spec (o_key o1) (o_key o)) as [Hlt|Hge].
  - constructor; [by apply IH|]. by apply Forall_ins; [apply Hb|].
  - constructor; [by constructor|]. destruct Hr1 as [?|Hr1]; [lia|].
    apply Forall_cons. split; [done|]. eapply Forall_impl; [exact Hf|].
    intros o2 Ho2. unfold o_below in *. destruct Hv1 as (? & ? & ?). lia.
Qed.

Lemma survivors_ok key os : objs_ok os -> objs_ok (survivors key os).
Proof.
  intros [Hs Hv]. unfold survivors. split.
  - induction Hs as [|o os Hs IH Hf]; [constructor|]. inversion Hv; subst.
    rewrite filter_cons. destruct (decide _); [|by apply IH].
    constructor; [by apply IH|]. rewrite Forall_forall in Hf |- *.
    intros o' [_ ?]%list_elem_of_filter. auto.
  - rewrite Forall_forall in Hv |- *. intros o [_ ?]%list_elem_of_filter. auto.
Qed.

Lemma survivors_are_uncovered key os : uncovered (survivors key os) key.
Proof. apply Forall_forall. by intros o [? _]%list_elem_of_filter. Qed.

(** ** Deletion by address *)

Lemma ds_code_erase_all_store key size s os :
  store s os ->
  exists s' os', ds_code_erase_all key size s = Ok (tt, s') /\ store s' os' /\ removes key os os' /\
    ds_code_rbtFind2 key s' = Ok (NULL, s') /\ (objs_ok os -> os' = survivors key os) /\
    avail s' = avail s.
Proof.
  intros Hst. unfold ds_code_erase_all. rewrite (bind_ok get _ s s s) by done.
  apply erase_covering_spec; [done|]. by apply store_fuel.
Qed.

(** [ds_code_all_delete_rb] does the same whatever value the read of a freed
    block yields; it returns 1 exactly if an object covered the address. *)
Lemma ds_code_all_delete_rb_store stale key s os :
  store s os ->
  exists s' os' v, ds_code_all_delete_rb stale key s = Ok (v, s') /\ store s' os' /\
    removes key os os' /\ ds_code_rbtFind2 key s' = Ok (NULL, s') /\
    (objs_ok os -> os' = survivors key os) /\ avail s' = avail s /\
    (v = 0%Z /\ os' = os \/ v = 1%Z /\ (length os' < length os)%nat).
Proof.
  intros Hst. unfold ds_code_all_delete_rb.
  destruct (find2_cases s os key Hst)
    as [(p & l & o & r & s1 & Hfind & -> & Hh & Hc & He & Hst1 & Hav)|[Hfind Hno]];
    rewrite (bind_ok _ _ _ _ _ Hfind).
  - rewrite ptr_eqb_false, (bind_ok _ _ _ _ _ He) by done.
    assert (exists sz, size_after_erase stale (Loc p) s1 = Ok (sz, s1)) as [sz Hsz].
    { unfold size_after_erase. destruct (heap s1 !! Loc p); eauto. }
    rewrite (bind_ok _ _ _ _ _ Hsz).
    destruct (ds_code_erase_all_store key sz s1 (l ++ r) Hst1)
      as (s' & os' & Hrun & Hst' & Hrem & Hnull & Hsurv & Hav').
    rewrite (bind_ok _ _ _ _ _ Hrun). exists s', os', 1%Z.
    split_and!; [done..|by constructor|done| |congruence|right; split; [done|]].
    + intros Hok. rewrite Hsurv by by eapply objs_ok_del. unfold survivors.
      rewrite !filter_app, filter_cons, decide_False; [done|]. by rewrite Hc.
    + assert (length os' <= length (l ++ r))%nat as Hle.
      { clear -Hrem. induction Hrem; [done|]. rewrite length_app in *. simpl. lia. }
      rewrite length_app in *. simpl. lia.
  - rewrite ptr_eqb_true by done. exists s, os, 0%Z.
    split_and!; [done..|constructor|done| |done|by left].
    intros Hok. symmetry. by apply survivors_uncovered, Hno.
Qed.

Lemma ds_code_all_delete_rb_stale stale stale' key s :
  ds_code_all_delete_rb stale key s = ds_code_all_delete_rb stale' key s.
Proof.
  unfold ds_code_all_delete_rb, bind at 1 5. destruct (ds_code_rbtFind2 key s) as [[p s1]| |]; [|done..].
  destruct (ptr_eqb p NULL); [done|]. unfold bind at 1 4.
  destruct (rbtErase p s1) as [[u s2]| |]; [|done..].
  unfold bind at 1 3, size_after_erase. by destruct (heap s2 !! p).
Qed.

(** ** Traversals *)

(** Folding a callback that looks at the data of a node only. *)
Lemma rbtInorder_spec {P} fuel s par t (cb : entry -> P -> P) p :
  rep (heap s) par t -> (height t < fuel)%nat ->
  rbtInorder fuel (ptr_of t) (fun n => cb (entry_of n)) p s =
  Ok (foldl (fun acc e => cb e acc) p (inorder t), s).
Proof.
  revert fuel par p. induction t as [|c l IHl q e r IHr]; intros fuel par p Ht Hf;
    (destruct fuel as [|fuel]; [simpl in Hf; lia|]); cbn [rbtInorder ptr_of height] in Hf |- *.
  - by rewrite ptr_eqb_true.
  - rewrite ptr_eqb_false by done. destruct Ht as (Hq & Hl & Hr). run1.
    rewrite (bind_ok _ _ _ _ _ (IHl fuel (Loc q) p Hl ltac:(lia))).
    erewrite bind_ok by (by apply load_ok). run1.
    rewrite (IHr fuel (Loc q)); [|done|lia]. simpl. rewrite foldl_app. simpl. by destruct e.
Qed.

Lemma ds_code_traverse_spec {P} s t (cb : entry -> P -> P) p :
  rb_rep s t ->
  ds_code_traverse (fun n => cb (entry_of n)) p s = Ok (foldl (fun acc e => cb e acc) p (inorder t), s).
Proof.
  intros Hz. pose proof (heap_fuel_enough _ _ _ Hz) as Hf. unfold ds_code_traverse.
  rewrite (bind_ok get _ s s s), (bind_ok get_root _ s (root s) s), (zrep_root _ _ Hz) by done.
  eapply rbtInorder_spec; [apply Hz|simpl in Hf; lia].
Qed.

(** Freeing the whole tree: every node once, nothing else. *)
Lemma rbtDelete_spec fuel s par t :
  rep (heap s) par t -> NoDup (locs t) -> (height t < fuel)%nat ->
  exists s', rbtDelete fuel (ptr_of t) s = Ok (tt, s') /\
    (forall q, q ∈ locs t -> heap s' !! Loc q = None) /\
    (forall q, (forall p, p ∈ locs t -> q ≠ Loc p) -> heap s' !! q = heap s !! q).
Proof.
  revert fuel s par. induction t as [|c l IHl q e r IHr]; intros fuel s par Ht Hnd Hf;
    (destruct fuel as [|fuel]; [simpl in Hf; lia|]); cbn [rbtDelete ptr_of height] in Hf |- *.
  - rewrite ptr_eqb_true by done. exists s. split_and!; [done| |done].
    intros q Hq. by apply elem_of_nil in Hq.
  - rewrite ptr_eqb_false by done. destruct Ht as (Hq & Hl & Hr). cbn [locs] in Hnd |- *.
    apply NoDup_app in Hnd as (Hndl & Hlq & [Hqr Hndr]%NoDup_cons).
    run1. destruct (IHl fuel s (Loc q) Hl Hndl ltac:(lia)) as (s1 & Hrun1 & Hgone1 & Hsame1).
    rewrite (bind_ok _ _ _ _ _ Hrun1).
    assert (heap s1 !! Loc q = heap s !! Loc q) as Hq1.
    { apply Hsame1. intros p Hp [= ->]. apply (Hlq p Hp). set_solver. }
    rewrite Hq in Hq1. run1.
    destruct (IHr fuel s1 (Loc q)) as (s2 & Hrun2 & Hgone2 & Hsame2); [|done|lia|].
    { eapply rep_agree; [|exact Hr]. intros p Hp. apply Hsame1.
      intros p' Hp' [= ->]. apply (Hlq p' Hp'). set_solver. }
    rewrite (bind_ok _ _ _ _ _ Hrun2).
    assert (heap s2 !! Loc q = heap s1 !! Loc q) as Hq2 by (apply Hsame2; intros p Hp [= ->]; done).
    rewrite Hq1 in Hq2. simpl. rewrite Hq2. eexists. split_and!; [done|..]; simpl.
    + intros p Hp. destruct (decide (p = q)) as [->|Hne]; [by rewrite lookup_delete_eq|].
      rewrite lookup_delete_ne by congruence.
      destruct (decide (p ∈ locs r)) as [Hpr|Hpr]; [by apply Hgone2|].
      rewrite Hsame2 by (intros p' ? [= ->]; done). apply Hgone1. set_solver.
    + intros p Hp. rewrite lookup_delete_ne by (symmetry; apply Hp; set_solver).
      rewrite Hsame2, Hsame1; [done|..]; intros p' Hp'; apply Hp; set_solver.
Qed.

(** ** Sequences of requests

    The tracer's requests to the store: an allocation and a release. *)

Inductive request : Type :=
| ReqInsert (key size : Z) (p : NodeType)
| ReqDelete (key : Z).

Definition serve (stale : Z) (q : request) : M rb_state unit :=
  match q with
  | ReqInsert key size p => all_insert_tree key size p
  | ReqDelete key => (_ <- ds_code_all_delete_rb stale key ;; ret tt)%c
  end.

Fixpoint serve_all (stale : Z) (qs : list request) : M rb_state unit :=
  match qs with
  | [] => ret tt
  | q :: qs' => (serve stale q ;; serve_all stale qs')%c
  end.

(** The specification: a list of objects. *)
Definition spec_step (os : list obj) (q : request) : list obj :=
  match q with
  | ReqInsert key size p => ins_obj (new_obj key size p) (survivors key os)
  | ReqDelete key => survivors key os
  end.

(** What the specification asks of a request: a valid range that meets no
    object starting inside it, and a name that fits. *)
Definition admissible (os : list obj) (q : request) : Prop :=
  match q with
  | ReqInsert key size p =>
      o_valid (new_obj key size p) /\ room key size (survivors key os) /\
      (String.length (n_obj_name p) < OBJ_NAME_LEN)%nat
  | ReqDelete _ => True
  end.

Fixpoint admissible_all (os : list obj) (qs : list request) : Prop :=
  match qs with
  | [] => True
  | q :: qs' => admissible os q /\ admissible_all (spec_step os q) qs'
  end.

#[export] Instance admissible_dec os q : Decision (admissible os q).
Proof. destruct q; simpl; unfold room; apply _. Defined.

#[export] Instance admissible_all_dec os qs : Decision (admissible_all os qs).
Proof. revert os. induction qs; intros os; simpl; apply _. Defined.

Lemma spec_step_ok os q : objs_ok os -> admissible os q -> objs_ok (spec_step os q).
Proof.
  intros Hok Hq. destruct q as [key size p|key]; simpl in *; [|by apply survivors_ok].
  destruct Hq as (Hv & Hroom & _).
  apply ins_obj_ok; [by apply survivors_ok|done|apply survivors_are_uncovered|done].
Qed.

Lemma serve_spec stale s os q :
  store s os -> objs_ok os -> admissible os q -> avail s ≠ 0%nat ->
  exists s', serve stale q s = Ok (tt, s') /\ store s' (spec_step os q) /\ (avail s <= S (avail s'))%nat.
Proof.
  intros Hst Hok Hq Hav. destruct q as [key size p|key]; simpl in *.
  - destruct Hq as (_ & _ & Hlen).
    destruct (rbtInsert2_ok key size p s os Hst Hok Hlen Hav) as (s' & Hrun & Hst' & Hav').
    exists s'. unfold all_insert_tree. rewrite (bind_ok _ _ _ _ _ Hrun). split_and!; [done..|lia].
  - destruct (ds_code_all_delete_rb_store stale key s os Hst)
      as (s' & os' & v & Hrun & Hst' & _ & _ & Hsurv & Hav' & _).
    rewrite (Hsurv Hok) in Hst'. exists s'. rewrite (bind_ok _ _ _ _ _ Hrun). split_and!; [done..|lia].
Qed.

Lemma serve_all_spec stale qs s os :
  store s os -> objs_ok os -> admissible_all os qs -> (length qs <= avail s)%nat ->
  exists s', serve_all stale qs s = Ok (tt, s') /\ store s' (foldl spec_step os qs) /\
    objs_ok (foldl spec_step os qs).
Proof.
  revert s os. induction qs as [|q qs IH]; intros s os Hst Hok Hq Hav; simpl in *; [by exists s|].
  destruct Hq as [Hq Hqs].
  destruct (serve_spec stale s os q Hst Hok Hq ltac:(lia)) as (s1 & Hrun & Hst1 & Hav1).
  rewrite (bind_ok _ _ _ _ _ Hrun). apply IH; [done|by apply spec_step_ok|done|lia].
Qed.

Lemma store_init a : store (rb_init a) [].
Proof.
  exists E. split_and!; [|by eexists; constructor|done|constructor|].
  - split; [done..|]. split; simpl.
    + constructor.
    + intros p Hp. by apply elem_of_nil in Hp.
    + intros p [n Hn]. rewrite lookup_singleton_ne in Hn by done. done.
    + eexists. by rewrite lookup_singleton_eq.
  - simpl. by rewrite map_size_singleton.
Qed.
