(* ===== verification/RbTheorems.v ===== *)
(** * What the object store guarantees

    The properties of rev_sem/rb_tree.c that the rest of the tracer relies on,
    with concrete stores on which they apply. *)

From stdpp Require Import base gmap list strings.
From Stdlib Require Import ZArith Lia Sorted.
From S2P Require Import Prelude RbTree RbShape RbBalance RbInsert RbErase RbStore.

(** ** Concrete stores *)

(** The node argument of an insertion; only the data fields are read. *)
Definition item (type pc : Z) (name : string) : NodeType :=
  mkNode NULL NULL NULL BLACK 0 0 type pc name.

Definition state_of (r : res (unit * rb_state)) : rb_state :=
  match r with Ok (_, s) => s | _ => rb_init 0 end.

Definition demo_requests : list request :=
  [ReqInsert 0xc1000000 0x100 (item 1 0xc0100000 "task");
   ReqInsert 0xc1000100 0x40 (item 2 0xc0100010 "cred");
   ReqInsert 0xc1000200 0x80 (item 3 0xc0100020 "file");
   ReqInsert 0xc0ffff00 0x80 (item 4 0xc0100030 "inode")].

Definition demo : rb_state := state_of (serve_all 0 demo_requests (rb_init 8)).
Definition demo_objs : list obj := foldl spec_step [] demo_requests.

Lemma objs_ok_nil : objs_ok [].
Proof. split; constructor. Qed.

Lemma demo_admissible : admissible_all [] demo_requests.
Proof. by apply (bool_decide_unpack _). Qed.

Lemma demo_objs_ok : objs_ok demo_objs.
Proof. by apply (bool_decide_unpack _). Qed.

Lemma demo_store : store demo demo_objs.
Proof.
  destruct (serve_all_spec 0 demo_requests (rb_init 8) []) as (s & Hs & Hst & _).
  - apply store_init.
  - apply objs_ok_nil.
  - apply demo_admissible.
  - simpl. lia.
  - unfold demo. by rewrite Hs.
Qed.

(** ** Lookup *)

(** C36: In a store of valid, disjoint objects [ds_code_rbtFind2] is exact: it
    returns a node holding the object whose range contains the address, or NULL
    when no range contains it; it always ends and changes nothing. *)
Theorem find2_exact key s os :
  store s os -> objs_ok os ->
  (exists q o, ds_code_rbtFind2 key s = Ok (q, s) /\ q ≠ NULL /\ o ∈ os /\ holds s q o /\
     (o_key o <= key < o_key o + o_size o)%Z) \/
  (ds_code_rbtFind2 key s = Ok (NULL, s) /\
     forall o, o ∈ os -> ~ (o_key o <= key < o_key o + o_size o)%Z).
Proof.
  intros Hst Hok. pose proof (proj2 Hok) as Hv. rewrite Forall_forall in Hv.
  destruct (find2_cases s os key Hst)
    as [(p & l & o & r & s1 & Hfind & -> & Hh & Hc & _)|[Hfind Hno]]; [left|right].
  - assert (o ∈ l ++ o :: r) as Ho by set_solver.
    apply o_covers_valid in Hc; [|by apply Hv]. by exists (Loc p), o.
  - split; [done|]. intros o Ho Hr. specialize (Hno Hok). unfold uncovered in Hno.
    rewrite Forall_forall in Hno. specialize (Hno _ Ho).
    apply o_covers_valid in Hr; [congruence|by apply Hv].
Qed.

Lemma find2_exact_witness :
  (exists q o, ds_code_rbtFind2 0xc1000120 demo = Ok (q, demo) /\ q ≠ NULL /\ o ∈ demo_objs /\
     holds demo q o /\ (o_key o <= 0xc1000120 < o_key o + o_size o)%Z) \/
  (ds_code_rbtFind2 0xc1000120 demo = Ok (NULL, demo) /\
     forall o, o ∈ demo_objs -> ~ (o_key o <= 0xc1000120 < o_key o + o_size o)%Z).
Proof. apply (find2_exact 0xc1000120 demo demo_objs demo_store demo_objs_ok). Defined.



(** ** Insertion and removal *)

(** C22: [rbtInsert] on a red-black search tree: it rejects a key that is
    present (with the code for the sizes), reports exhausted memory, overruns
    the name buffer of the node for a name of 30 bytes or more, and otherwise
    links one new node so that the tree is again red-black, the new object is at
    its place in the in-order sequence and nothing else changed. *)
Theorem rbtInsert_correct key size p s t :
  rb_rep s t -> rb_tree t -> bst t -> insert_outcome key size p s t (rbtInsert key size p s).
Proof. apply rbtInsert_outcome. Qed.

Lemma rbtInsert_correct_witness :
  exists s t, rb_rep s t /\ rb_tree t /\ bst t /\ length (inorder t) = 4 /\
    insert_outcome 0xc1000300 16 (item 5 0 "x") s t (rbtInsert 0xc1000300 16 (item 5 0 "x") s).
Proof.
  destruct demo_store as (t & Hz & Hrb & Ho & Hs & _). exists demo, t.
  assert (bst t) as Hb by (apply bst_objs; by rewrite Ho).
  split; [exact Hz|]. split; [exact Hrb|]. split; [exact Hb|].
  split; [|exact (rbtInsert_correct 0xc1000300 16 (item 5 0 "x") demo t Hz Hrb Hb)].
  apply (f_equal length) in Ho. unfold objs in Ho. rewrite length_fmap in Ho. exact Ho.
Defined.

(** C21: [rbtErase] on any node of a red-black tree succeeds without touching a
    dead block, frees exactly one block, leaves a red-black tree and removes
    exactly the object of that node from the in-order sequence. When the node has
    two children its successor is moved into it with every field but the name:
    it then carries the name of the erased object. *)
Theorem rbtErase_correct s k c l z e r :
  zrep s k (T c l z e r) -> rb_tree (plug k (T c l z e r)) ->
  exists s' t', rbtErase (Loc z) s = Ok (RBT_STATUS_OK, s') /\ rb_rep s' t' /\ rb_tree t' /\
    inorder t' = ents_before k ++ erased l e r ++ ents_after k /\
    base.size (heap s) = S (base.size (heap s')) /\ avail s' = avail s.
Proof. apply rbtErase_spec. Qed.

Lemma rbtErase_correct_witness :
  exists k c l z e r, zrep demo k (T c l z e r) /\ root demo = Loc z /\
    exists s' t', rbtErase (Loc z) demo = Ok (RBT_STATUS_OK, s') /\ rb_rep s' t' /\ rb_tree t' /\
      inorder t' = ents_before k ++ erased l e r ++ ents_after k /\
      base.size (heap demo) = S (base.size (heap s')) /\ avail s' = avail demo.
Proof.
  destruct demo_store as (t & Hz & Hrb & Ho & _).
  destruct t as [|c l z e r]; [by vm_compute in Ho|]. exists [], c, l, z, e, r.
  split; [exact Hz|]. split; [exact (zrep_root _ _ Hz)|].
  exact (rbtErase_correct demo [] c l z e r Hz Hrb).
Defined.

(** [ds_code_all_insert_rb]'s tree part on a store of valid, disjoint
    objects, with a name that fits and memory left: it never reaches its
    [assert(0)], removes exactly the objects whose range contains the new start
    address and adds the new one; if no other object starts inside the new range
    the store is again one of valid, disjoint objects. *)
Theorem all_insert_correct key size p s os :
  store s os -> objs_ok os ->
  (String.length (n_obj_name p) < OBJ_NAME_LEN)%nat -> avail s ≠ 0%nat ->
  exists s', all_insert_tree key size p s = Ok (tt, s') /\
    store s' (ins_obj (new_obj key size p) (survivors key os)) /\
    (o_valid (new_obj key size p) -> room key size (survivors key os) ->
     objs_ok (ins_obj (new_obj key size p) (survivors key os))).
Proof.
  intros Hst Hok Hlen Hav.
  destruct (rbtInsert2_ok key size p s os Hst Hok Hlen Hav) as (s' & Hrun & Hst' & _).
  exists s'. unfold all_insert_tree. rewrite (bind_ok _ _ _ _ _ Hrun). split_and!; [done..|].
  intros Hv Hroom.
  apply ins_obj_ok; [by apply survivors_ok|done|apply survivors_are_uncovered|done].
Qed.

Lemma all_insert_correct_witness :
  exists s', all_insert_tree 0xc1000080 0x40 (item 9 0 "new") demo = Ok (tt, s') /\
    store s' (ins_obj (new_obj 0xc1000080 0x40 (item 9 0 "new")) (survivors 0xc1000080 demo_objs)) /\
    (o_valid (new_obj 0xc1000080 0x40 (item 9 0 "new")) ->
     room 0xc1000080 0x40 (survivors 0xc1000080 demo_objs) ->
     objs_ok (ins_obj (new_obj 0xc1000080 0x40 (item 9 0 "new")) (survivors 0xc1000080 demo_objs))).
Proof.
  apply (all_insert_correct 0xc1000080 0x40 (item 9 0 "new") demo demo_objs demo_store demo_objs_ok).
  - vm_compute. lia.
  - by vm_compute.
Defined.

(** [ds_code_all_delete_rb] ends, never faults although it reads the node
    after erasing it, and the value it reads has no effect: the objects covering
    the address are gone, the others stay, and the result says whether there was
    one. *)
Theorem all_delete_correct key s os :
  store s os -> objs_ok os ->
  exists v s', (forall stale, ds_code_all_delete_rb stale key s = Ok (v, s')) /\
    store s' (survivors key os) /\ (v = if decide (survivors key os = os) then 0 else 1)%Z.
Proof.
  intros Hst Hok.
  destruct (ds_code_all_delete_rb_store 0 key s os Hst)
    as (s' & os' & v & Hrun & Hst' & Hrem & _ & Hsurv & _ & Hv).
  specialize (Hsurv Hok). subst os'. exists v, s'. split_and!; [|done|].
  - intros stale. rewrite <-Hrun. apply ds_code_all_delete_rb_stale.
  - destruct Hv as [[-> Hsame]|[-> Hlen]]; case_decide as Hd; try done.
    rewrite Hd in Hlen. lia.
Qed.

Lemma all_delete_correct_witness :
  exists v s', (forall stale, ds_code_all_delete_rb stale 0xc1000110 demo = Ok (v, s')) /\
    store s' (survivors 0xc1000110 demo_objs) /\
    (v = if decide (survivors 0xc1000110 demo_objs = demo_objs) then 0 else 1)%Z.
Proof. apply (all_delete_correct 0xc1000110 demo demo_objs demo_store demo_objs_ok). Defined.

(** Without any assumption on sizes or overlaps: the erasing loop of
    [ds_code_erase_all] ends, the address is then covered by no object a lookup
    can reach, and only objects covering it were removed. *)
Theorem erase_all_terminates key size s os :
  store s os ->
  exists s' os', ds_code_erase_all key size s = Ok (tt, s') /\ store s' os' /\ removes key os os' /\
    ds_code_rbtFind2 key s' = Ok (NULL, s').
Proof.
  intros Hst. destruct (ds_code_erase_all_store key size s os Hst) as (s' & os' & ? & ? & ? & ? & _).
  by exists s', os'.
Qed.

Lemma erase_all_terminates_witness :
  exists s' os', ds_code_erase_all 0xc1000000 0 demo = Ok (tt, s') /\ store s' os' /\
    removes 0xc1000000 demo_objs os' /\ ds_code_rbtFind2 0xc1000000 s' = Ok (NULL, s').
Proof. apply (erase_all_terminates 0xc1000000 0 demo demo_objs demo_store). Defined.



(** ** Traversal and disposal *)

(** [ds_code_traverse] calls the callback once per object, in the order of
    the addresses, and leaves the store unchanged. *)
Theorem traverse_in_order {P} s t (cb : entry -> P -> P) p :
  rb_rep s t -> bst t ->
  ds_code_traverse (fun n => cb (entry_of n)) p s =
    Ok (foldl (fun acc e => cb e acc) p (inorder t), s) /\
  StronglySorted key_lt (inorder t).
Proof. intros Hz Hb. split; [by apply ds_code_traverse_spec|done]. Qed.

Lemma traverse_in_order_witness :
  exists t, objs t = demo_objs /\
    ds_code_traverse (fun n acc => acc ++ [obj_of (entry_of n)]) [] demo =
      Ok (foldl (fun acc e => acc ++ [obj_of e]) [] (inorder t), demo) /\
    StronglySorted key_lt (inorder t).
Proof.
  destruct demo_store as (t & Hz & _ & Ho & Hs & _). exists t. split; [exact Ho|].
  refine (traverse_in_order demo t (fun e acc => acc ++ [obj_of e]) [] Hz _).
  apply bst_objs. by rewrite Ho.
Defined.

(** [rbtDelete] at the root frees every node of the tree exactly once:
    only the sentinel remains. *)
Theorem rbtDelete_frees_all s os :
  store s os ->
  exists s', rbtDelete (heap_fuel s) (root s) s = Ok (tt, s') /\
    (forall q, heap s' !! Loc q = None) /\ heap s' !! SENTINEL = heap s !! SENTINEL.
Proof.
  intros (t & Hz & _ & Ho & _ & Hsz). pose proof (heap_fuel_enough _ _ _ Hz) as Hf. simpl in Hf.
  pose proof Hz as [_ Ht [Hnd _ _ _]]. simpl in Ht, Hnd.
  destruct (rbtDelete_spec (heap_fuel s) s NULL t Ht Hnd ltac:(lia)) as (s' & Hrun & Hgone & Hsame).
  exists s'. rewrite (zrep_root _ _ Hz). split_and!; [done| |by apply Hsame].
  intros q. destruct (decide (q ∈ locs t)) as [Hq|Hq]; [by apply Hgone|].
  rewrite Hsame by (intros p Hp [= ->]; done).
  apply (store_tight s t); [done| |done]. by rewrite Hsz, <-Ho, count_objs.
Qed.

Lemma rbtDelete_frees_all_witness :
  exists s', rbtDelete (heap_fuel demo) (root demo) demo = Ok (tt, s') /\
    (forall q, heap s' !! Loc q = None) /\ heap s' !! SENTINEL = heap demo !! SENTINEL.
Proof. apply (rbtDelete_frees_all demo demo_objs demo_store). Defined.

(** ** Limits of the store *)

(** Recording an object of size 0 twice at the same address stops the
    program: the first one covers no address, so the second insertion does not
    remove it, finds its key taken and runs into [assert(0)], whatever the size
    of the second object. *)
Theorem insert_zero_size_twice key size p q a :
  (0 <= key < 2 ^ 32)%Z ->
  (String.length (n_obj_name p) < OBJ_NAME_LEN)%nat ->
  (String.length (n_obj_name q) < OBJ_NAME_LEN)%nat ->
  bind (all_insert_tree key 0 p) (fun _ => all_insert_tree key size q) (rb_init (S a)) =
  Fault AssertFailed.
Proof.
  intros Hk Hp Hq.
  destruct (rbtInsert2_ok key 0 p (rb_init (S a)) [] (store_init _) objs_ok_nil Hp) as (s' & Hrun & Hst & _);
    [done|].
  rewrite (bind_ok _ _ _ tt s').
  - eapply (all_insert_clash _ _ _ _ _ (new_obj key 0 p)); [exact Hst|simpl; set_solver|done| |done].
    unfold o_covers. simpl. rewrite Z.add_0_r, u32_id by done. by rewrite Z.ltb_irrefl, andb_false_r.
  - unfold all_insert_tree. by rewrite (bind_ok _ _ _ _ _ Hrun).
Qed.

Lemma insert_zero_size_twice_witness :
  bind (all_insert_tree 0xc1000000 0 (item 1 0 "a")) (fun _ => all_insert_tree 0xc1000000 16 (item 2 0 "b"))
    (rb_init 5) = Fault AssertFailed.
Proof.
  apply (insert_zero_size_twice 0xc1000000 16 (item 1 0 "a") (item 2 0 "b") 4); [lia|vm_compute; lia..].
Defined.

Definition overlap_requests : list request :=
  [ReqInsert 0xc1000000 0x10 (item 1 0 "inner"); ReqInsert 0xc0fffff0 0x1000 (item 2 0 "outer")].

(** An insertion removes the objects around its start address only. A new
    object whose range encloses an older one leaves both in the tree, and the
    lookup of an address of the new object behind the older one finds nothing. *)
Theorem overlap_hides_object :
  exists s, serve_all 0 overlap_requests (rb_init 4) = Ok (tt, s) /\
    ds_code_rbtFind2 0xc1000050 s = Ok (NULL, s) /\
    ds_code_traverse (fun n acc => acc ++ [obj_of (entry_of n)]) [] s =
      Ok ([mkObj 0xc0fffff0 0x1000 2 0; mkObj 0xc1000000 0x10 1 0], s) /\
    o_covers (mkObj 0xc0fffff0 0x1000 2 0) 0xc1000050 = true.
Proof.
  exists (state_of (serve_all 0 overlap_requests (rb_init 4))). split_and!; vm_compute; reflexivity.
Qed.

Definition rename_requests : list request :=
  [ReqInsert 0x1000 16 (item 1 0 "inode"); ReqInsert 0x2000 16 (item 2 0 "task");
   ReqInsert 0x3000 16 (item 3 0 "file"); ReqDelete 0x2000].

(** After the object with two children has been erased, its successor
    carries the erased object's name: the object at 0x3000, recorded as "file",
    is listed as "task" with its own type. *)
Theorem erase_renames_successor :
  exists s, serve_all 0 rename_requests (rb_init 4) = Ok (tt, s) /\
    ds_code_traverse (fun n acc => acc ++ [(n_key n, n_type n, n_obj_name n)]) [] s =
      Ok ([(0x1000%Z, 1%Z, "inode"%string); (0x3000%Z, 3%Z, "task"%string)], s).
Proof.
  exists (state_of (serve_all 0 rename_requests (rb_init 4))). split; vm_compute; reflexivity.
Qed.
