(* ===== verification/Shadow.v ===== *)
(** * Shadow memory

    rev_sem/shadow_mem.c (and the same code at the head of rev_sem/taint2.c):
    one 32-bit value per byte of the guest's address space, in a two-level
    table whose untouched pages share one distinguished page. The file models
    the tables with their pointers and proves that they implement a flat
    memory. *)

From stdpp Require Import base gmap list.
From Stdlib Require Import ZArith Lia.
From S2P Require Import Prelude.

Local Open Scope Z_scope.
Local Open Scope c_scope.

Definition UNTAINTED : Z := 0.
Definition TAINTED : Z := 1.

Definition PAGE_SIZE : Z := 65536.
Definition PAGE_NUM : Z := 65536.

(** [sizeof(SecMap)]: [PAGE_SIZE] values of four bytes. *)
Definition SECMAP_SIZE : Z := 4 * PAGE_SIZE.

(** The array of a [SecMap]; an index without an entry was never written. *)
Abbreviation SecMap := (gmap Z Z).

Inductive smptr : Type := SNull | Distinguished | Sec (p : positive).

#[export] Instance smptr_eq_dec : EqDecision smptr.
Proof. solve_decision. Defined.

Record shadow : Type := mkShadow {
  distinguished_secondary_map : SecMap;   (** static, hence zero at the start *)
  ii_primary_map : gmap Z smptr;          (** static, hence NULL at the start *)
  secs : gmap positive SecMap;            (** the allocated maps *)
  sh_next : positive;
  sh_avail : nat;                         (** successful allocations left *)
  shadow_bytes : Z
}.

Definition static_shadow (n : nat) : shadow := mkShadow ∅ ∅ ∅ 1 n 0.

(** ** Access to the tables *)

Definition primary_get (i : Z) : M shadow smptr :=
  fun s => if (0 <=? i) && (i <? PAGE_NUM) then Ok (default SNull (ii_primary_map s !! i), s)
           else Fault BadIndex.

Definition primary_set (i : Z) (r : smptr) : M shadow unit :=
  fun s => if (0 <=? i) && (i <? PAGE_NUM) then
             Ok (tt, mkShadow (distinguished_secondary_map s) (<[i := r]> (ii_primary_map s))
                       (secs s) (sh_next s) (sh_avail s) (shadow_bytes s))
           else Fault BadIndex.

Definition with_dist (f : SecMap -> SecMap) (s : shadow) : shadow :=
  mkShadow (f (distinguished_secondary_map s)) (ii_primary_map s) (secs s) (sh_next s) (sh_avail s)
    (shadow_bytes s).

Definition with_secs (f : gmap positive SecMap -> gmap positive SecMap) (s : shadow) : shadow :=
  mkShadow (distinguished_secondary_map s) (ii_primary_map s) (f (secs s)) (sh_next s) (sh_avail s)
    (shadow_bytes s).

(** [sm->byte[off]] *)
Definition byte_get (sm : smptr) (off : Z) : M shadow Z :=
  fun s =>
    match sm with
    | SNull => Fault NullDeref
    | Distinguished => Ok (default 0 (distinguished_secondary_map s !! off), s)
    | Sec p => match secs s !! p with
               | Some m => match m !! off with Some v => Ok (v, s) | None => Fault DeadAccess end
               | None => Fault DeadAccess
               end
    end.

(** [sm->byte[off] = v] *)
Definition byte_set (sm : smptr) (off v : Z) : M shadow unit :=
  fun s =>
    match sm with
    | SNull => Fault NullDeref
    | Distinguished => Ok (tt, with_dist (fun m => <[off := v]> m) s)
    | Sec p => match secs s !! p with
               | Some m => Ok (tt, with_secs (<[p := <[off := v]> m]>) s)
               | None => Fault DeadAccess
               end
    end.

(** [malloc(sizeof(SecMap))]: a block without contents, or NULL. *)
Definition malloc_sec : M shadow smptr :=
  fun s =>
    match sh_avail s with
    | O => Ok (SNull, s)
    | S a => Ok (Sec (sh_next s),
                 mkShadow (distinguished_secondary_map s) (ii_primary_map s)
                   (<[sh_next s := ∅]> (secs s)) (Pos.succ (sh_next s)) a (shadow_bytes s))
    end.

Definition free_sec (r : smptr) : M shadow unit :=
  fun s =>
    match r with
    | SNull => Ok (tt, s)
    | Distinguished => Fault DeadAccess
    | Sec p => match secs s !! p with
               | Some _ => Ok (tt, with_secs (delete p) s)
               | None => Fault DeadAccess
               end
    end.

Definition add_shadow_bytes (n : Z) : M shadow unit :=
  fun s => Ok (tt, mkShadow (distinguished_secondary_map s) (ii_primary_map s) (secs s) (sh_next s)
                     (sh_avail s) (u32 (shadow_bytes s + n))).

Definition is_distinguished (r : smptr) : bool :=
  match r with Distinguished => true | _ => false end.

(** ** The functions of the file *)

Definition init_shadow_memory : M shadow unit :=
  mfor (Z.to_nat PAGE_SIZE) (fun i => byte_set Distinguished i UNTAINTED) ;;
  mfor (Z.to_nat PAGE_NUM) (fun i => primary_set i Distinguished).

Definition free_shadow_memory : M shadow unit :=
  mfor (Z.to_nat PAGE_NUM) (fun i =>
    r <- primary_get i ;;
    when (negb (is_distinguished r)) (free_sec r)).

Definition alloc_secondary_map : M shadow smptr :=
  map <- malloc_sec ;;
  add_shadow_bytes SECMAP_SIZE ;;
  mfor (Z.to_nat PAGE_SIZE) (fun i => byte_set map i UNTAINTED) ;;
  ret map.

(** The macro [ENSURE_MAPPABLE_BYTE_GRANUITY]. *)
Definition ensure_mappable (addr : Z) : M shadow unit :=
  r <- primary_get (Z.shiftr addr 16) ;;
  when (is_distinguished r)
    (map <- alloc_secondary_map ;; primary_set (Z.shiftr addr 16) map).

Definition get_mem_taint2 (a : Z) : M shadow Z :=
  sm <- primary_get (Z.shiftr a 16) ;;
  byte_get sm (Z.land a 0xFFFF).

Definition set_mem_taint2 (a bytes : Z) : M shadow unit :=
  ensure_mappable a ;;
  sm <- primary_get (Z.shiftr a 16) ;;
  byte_set sm (Z.land a 0xFFFF) bytes.

(** The addresses [a+i] are computed in 32 bits. *)
Definition set_mem_taint_bysize2 (a bytes size : Z) : M shadow unit :=
  mfor (Z.to_nat size) (fun i => set_mem_taint2 (u32 (a + i)) bytes).

Definition taintInit2 : M shadow unit := init_shadow_memory.

(** ** Addresses *)

Definition hi (a : Z) : Z := Z.shiftr a 16.
Definition lo (a : Z) : Z := Z.land a 0xFFFF.

Lemma hi_div a : hi a = a / 65536.
Proof. unfold hi. by rewrite Z.shiftr_div_pow2. Qed.

Lemma lo_mod a : lo a = a mod 65536.
Proof. unfold lo. change 0xFFFF with (Z.ones 16). by rewrite Z.land_ones. Qed.

Lemma hi_range a : in_range 32 a -> 0 <= hi a < PAGE_NUM.
Proof.
  intros [H0 H1]. rewrite hi_div. unfold PAGE_NUM. split; [by apply Z.div_pos|].
  apply Z.div_lt_upper_bound; [done|]. exact H1.
Qed.

Lemma lo_range a : 0 <= lo a < PAGE_SIZE.
Proof. rewrite lo_mod. by apply Z.mod_pos_bound. Qed.

(** The two indices determine the address. *)
Lemma split_inj a b : hi a = hi b -> lo a = lo b -> a = b.
Proof.
  rewrite !hi_div, !lo_mod. intros H1 H2.
  rewrite (Z_div_mod_eq_full a 65536), (Z_div_mod_eq_full b 65536). congruence.
Qed.

(** ** The flat view and the invariant *)

Definition peek (s : shadow) (a : Z) : Z :=
  match ii_primary_map s !! hi a with
  | Some (Sec p) => default 0 (secs s !! p ≫= (!!) (lo a))
  | _ => UNTAINTED
  end.

Definition sec_full (m : SecMap) : Prop := forall j, 0 <= j < PAGE_SIZE -> is_Some (m !! j).

(** Pages still on the distinguished map. *)
Definition unmapped (s : shadow) : nat :=
  size (filter (fun x : Z * smptr => x.2 = Distinguished) (ii_primary_map s)).

Record shadow_ok (s : shadow) : Prop := mkShadowOk {
  so_dist : forall j, 0 <= j < PAGE_SIZE -> distinguished_secondary_map s !! j = Some UNTAINTED;
  so_prim : forall i, 0 <= i < PAGE_NUM ->
    ii_primary_map s !! i = Some Distinguished \/
    exists p m, ii_primary_map s !! i = Some (Sec p) /\ secs s !! p = Some m /\ sec_full m;
  so_inj : forall i j p, 0 <= i < PAGE_NUM -> 0 <= j < PAGE_NUM ->
    ii_primary_map s !! i = Some (Sec p) -> ii_primary_map s !! j = Some (Sec p) -> i = j;
  so_next : forall p, is_Some (secs s !! p) -> (p < sh_next s)%positive;
  so_bytes : shadow_bytes s = u32 (SECMAP_SIZE * Z.of_nat (size (secs s)))
}.

(** Memory for a map per page that has none. *)
Definition enough (s : shadow) : Prop := (unmapped s <= sh_avail s)%nat.

Lemma index_ok i n : 0 <= i < n -> (0 <=? i) && (i <? n) = true.
Proof. intros. apply andb_true_iff. rewrite Z.leb_le, Z.ltb_lt. lia. Qed.

Lemma primary_get_ok s i r : 0 <= i < PAGE_NUM -> ii_primary_map s !! i = Some r ->
  primary_get i s = Ok (r, s).
Proof. intros Hi Hr. unfold primary_get. by rewrite index_ok, Hr. Qed.

(** ** Reading *)

Lemma get_mem_taint2_spec s a : shadow_ok s -> in_range 32 a -> get_mem_taint2 a s = Ok (peek s a, s).
Proof.
  intros Hs Ha. pose proof (hi_range a Ha) as Hh. pose proof (lo_range a) as Hl.
  unfold get_mem_taint2, peek. fold (hi a) (lo a).
  destruct (so_prim s Hs (hi a) Hh) as [Hp|(p & m & Hp & Hm & Hf)];
    rewrite (bind_ok _ _ _ _ _ (primary_get_ok _ _ _ Hh Hp)), Hp; simpl.
  - by rewrite (so_dist s Hs _ Hl).
  - rewrite Hm. simpl. by destruct (Hf _ Hl) as [v ->].
Qed.

(** ** Allocating a page *)

Lemma mfor_page_fill s p :
  secs s !! p = Some ∅ ->
  exists m, mfor (Z.to_nat PAGE_SIZE) (fun i => byte_set (Sec p) i UNTAINTED) s =
      Ok (tt, with_secs (<[p := m]>) s) /\
    (forall j, 0 <= j < PAGE_SIZE -> m !! j = Some UNTAINTED).
Proof.
  intros Hp.
  destruct (mfor_inv (fun i s' => exists m, s' = with_secs (<[p := m]>) s /\
      forall j, 0 <= j < i -> m !! j = Some UNTAINTED)
    (Z.to_nat PAGE_SIZE) (fun i => byte_set (Sec p) i UNTAINTED) s) as (s' & Hrun & m & -> & Hm).
  - exists ∅. split; [|intros; lia]. unfold with_secs. rewrite insert_id by done. by destruct s.
  - intros i s' Hi (m & -> & Hm). unfold byte_set at 1. simpl. rewrite lookup_insert_eq.
    eexists. split; [done|]. exists (<[i := UNTAINTED]> m). split.
    + unfold with_secs. simpl. by rewrite insert_insert_eq.
    + intros j Hj. destruct (decide (j = i)) as [->|Hne]; [by rewrite lookup_insert_eq|].
      rewrite lookup_insert_ne by done. apply Hm. lia.
  - exists m. split; [done|]. intros j Hj. apply Hm. rewrite Z2Nat.id; [done|]. done.
Qed.

(** The store after a page has been given its own map. *)
Definition mapped (s : shadow) (i : Z) (m : SecMap) : shadow :=
  mkShadow (distinguished_secondary_map s) (<[i := Sec (sh_next s)]> (ii_primary_map s))
    (<[sh_next s := m]> (secs s)) (Pos.succ (sh_next s)) (pred (sh_avail s))
    (u32 (shadow_bytes s + SECMAP_SIZE)).

Lemma ensure_alloc s a :
  in_range 32 a -> ii_primary_map s !! hi a = Some Distinguished -> sh_avail s ≠ 0%nat ->
  exists m, ensure_mappable a s = Ok (tt, mapped s (hi a) m) /\
    (forall j, 0 <= j < PAGE_SIZE -> m !! j = Some UNTAINTED).
Proof.
  intros Ha Hd Hav. pose proof (hi_range a Ha) as Hh.
  unfold ensure_mappable. fold (hi a). rewrite (bind_ok _ _ _ _ _ (primary_get_ok _ _ _ Hh Hd)).
  cbn [is_distinguished when]. unfold alloc_secondary_map. rewrite !bind_assoc.
  unfold bind at 1, malloc_sec. destruct (sh_avail s) as [|n] eqn:Hn; [done|].
  rewrite !bind_assoc. unfold bind at 1, add_shadow_bytes. cbn [distinguished_secondary_map
    ii_primary_map secs sh_next sh_avail shadow_bytes].
  set (s1 := mkShadow _ _ _ _ _ _).
  destruct (mfor_page_fill s1 (sh_next s)) as (m & Hrun & Hm); [subst s1; simpl; by rewrite lookup_insert_eq|].
  exists m. split; [|done]. rewrite !bind_assoc, (bind_ok _ _ _ _ _ Hrun), bind_ret.
  unfold primary_set. rewrite index_ok by done. subst s1. unfold mapped. rewrite Hn. simpl.
  by rewrite insert_insert_eq.
Qed.

Lemma alloc_failure s a :
  in_range 32 a -> ii_primary_map s !! hi a = Some Distinguished -> sh_avail s = 0%nat ->
  ensure_mappable a s = Fault NullDeref.
Proof.
  intros Ha Hd Hav. pose proof (hi_range a Ha) as Hh.
  unfold ensure_mappable. fold (hi a). rewrite (bind_ok _ _ _ _ _ (primary_get_ok _ _ _ Hh Hd)).
  cbn [is_distinguished when]. unfold alloc_secondary_map. rewrite !bind_assoc.
  unfold bind at 1, malloc_sec. rewrite Hav. rewrite !bind_assoc.
  unfold bind at 1, add_shadow_bytes. rewrite !bind_assoc.
  assert (forall n s', mfor (S n) (fun i => byte_set SNull i UNTAINTED) s' = Fault NullDeref) as Hf.
  { induction n as [|n IH]; intros s'; [done|].
    change (mfor (S (S n)) (fun i => byte_set SNull i UNTAINTED) s') with
      (bind (mfor (S n) (fun i => byte_set SNull i UNTAINTED)) (fun _ => byte_set SNull (Z.of_nat (S n)) UNTAINTED) s').
    unfold bind at 1. by rewrite IH. }
  destruct (Z.to_nat PAGE_SIZE) as [|n] eqn:Hn; [by apply (f_equal Z.of_nat) in Hn|].
  unfold bind at 1. by rewrite Hf.
Qed.

Lemma size_mapped (M : gmap Z smptr) i p :
  M !! i = Some Distinguished ->
  size (filter (fun x : Z * smptr => x.2 = Distinguished) M) =
  S (size (filter (fun x : Z * smptr => x.2 = Distinguished) (<[i := Sec p]> M))).
Proof.
  intros Hi. rewrite map_filter_insert_False by done.
  rewrite map_filter_delete, map_size_delete_Some.
  - assert (size (filter (fun x : Z * smptr => x.2 = Distinguished) M) ≠ 0%nat); [|lia].
    intros H%map_size_empty_inv. apply (f_equal (lookup i)) in H.
    rewrite lookup_empty, map_lookup_filter_None in H. destruct H as [H|H]; [congruence|].
    by apply (H Distinguished).
  - exists Distinguished. by apply map_lookup_filter_Some.
Qed.

Lemma mapped_ok s i m :
  shadow_ok s -> 0 <= i < PAGE_NUM -> ii_primary_map s !! i = Some Distinguished ->
  (forall j, 0 <= j < PAGE_SIZE -> m !! j = Some UNTAINTED) -> shadow_ok (mapped s i m).
Proof.
  intros [Hd Hp Hi Hn Hb] Hir Hdi Hm.
  assert (secs s !! sh_next s = None) as Hfr.
  { apply eq_None_not_Some. intros ?%Hn. lia. }
  assert (forall j p, ii_primary_map s !! j = Some (Sec p) -> 0 <= j < PAGE_NUM -> p ≠ sh_next s) as Hne.
  { intros j p Hj Hjr ->. destruct (Hp j Hjr) as [?|(p' & m' & ? & ? & _)]; congruence. }
  split; simpl.
  - done.
  - intros j Hj. destruct (decide (j = i)) as [->|Hji].
    + right. exists (sh_next s), m. rewrite !lookup_insert_eq. split_and!; [done..|].
      intros k Hk. by rewrite Hm.
    + rewrite lookup_insert_ne by done. destruct (Hp j Hj) as [?|(p & m' & Hpj & Hpm & Hf)]; [by left|right].
      exists p, m'. split_and!; [done| |done]. rewrite lookup_insert_ne; [done|].
      apply not_eq_sym. by eapply Hne.
  - intros j k p Hj Hk. destruct (decide (j = i)) as [->|Hji], (decide (k = i)) as [->|Hki];
      rewrite ?lookup_insert_eq, ?lookup_insert_ne by done; [done|..].
    + intros [= <-] Hc. by apply (Hne _ _ Hc) in Hk.
    + intros Hc [= <-]. by apply (Hne _ _ Hc) in Hj.
    + by apply Hi.
  - intros p. destruct (decide (p = sh_next s)) as [->|Hps]; [lia|].
    rewrite lookup_insert_ne by done. intros ?%Hn. lia.
  - rewrite map_size_insert_None by done. rewrite Hb. unfold u32, wrap.
    rewrite Zplus_mod_idemp_l. f_equal. lia.
Qed.

Lemma mapped_peek s i m b :
  shadow_ok s -> 0 <= i < PAGE_NUM -> ii_primary_map s !! i = Some Distinguished ->
  (forall j, 0 <= j < PAGE_SIZE -> m !! j = Some UNTAINTED) -> in_range 32 b ->
  peek (mapped s i m) b = peek s b.
Proof.
  intros [_ Hp _ Hn _] Hir Hdi Hm Hb. pose proof (hi_range b Hb) as Hh. pose proof (lo_range b) as Hl.
  unfold peek. simpl. destruct (decide (hi b = i)) as [->|Hbi].
  - rewrite lookup_insert_eq, Hdi, lookup_insert_eq. simpl. by rewrite Hm.
  - rewrite lookup_insert_ne by done. destruct (Hp _ Hh) as [->|(p & m' & -> & Hpm & _)]; [done|].
    rewrite lookup_insert_ne; [done|]. intros <-. assert (sh_next s < sh_next s)%positive; [|lia].
    apply Hn. by rewrite Hpm.
Qed.

Lemma ensure_mappable_spec s a :
  shadow_ok s -> in_range 32 a -> enough s ->
  exists s1 p m, ensure_mappable a s = Ok (tt, s1) /\ shadow_ok s1 /\ enough s1 /\
    ii_primary_map s1 !! hi a = Some (Sec p) /\ secs s1 !! p = Some m /\ sec_full m /\
    forall b, in_range 32 b -> peek s1 b = peek s b.
Proof.
  intros Hs Ha Hen. pose proof (hi_range a Ha) as Hh.
  destruct (so_prim s Hs _ Hh) as [Hd|(p & m & Hp & Hm & Hf)].
  - unfold enough, unmapped in Hen. rewrite (size_mapped _ _ (sh_next s) Hd) in Hen.
    destruct (ensure_alloc s a Ha Hd) as (m & Hrun & Hm); [lia|].
    exists (mapped s (hi a) m), (sh_next s), m. simpl. rewrite !lookup_insert_eq.
    split_and!; [done|by apply mapped_ok| |done..| |].
    + unfold enough, unmapped. simpl. lia.
    + intros j Hj. by rewrite Hm.
    + intros b Hb. by apply mapped_peek.
  - exists s, p, m. split_and!; try done. unfold ensure_mappable. fold (hi a).
    by rewrite (bind_ok _ _ _ _ _ (primary_get_ok _ _ _ Hh Hp)).
Qed.

(** ** Writing *)

Lemma write_ok s p m a v :
  shadow_ok s -> in_range 32 a -> ii_primary_map s !! hi a = Some (Sec p) -> secs s !! p = Some m ->
  sec_full m ->
  shadow_ok (with_secs (<[p := <[lo a := v]> m]>) s) /\
  forall b, in_range 32 b ->
    peek (with_secs (<[p := <[lo a := v]> m]>) s) b = if b =? a then v else peek s b.
Proof.
  intros [Hd Hp Hi Hn Hb] Ha Hpa Hm Hf. pose proof (hi_range a Ha) as Hh. split.
  - split; simpl; [done| |done| |].
    + intros i Hir. destruct (Hp i Hir) as [?|(p' & m' & Hpi & Hm' & Hf')]; [by left|right].
      destruct (decide (p' = p)) as [->|Hne].
      * exists p, (<[lo a := v]> m). rewrite lookup_insert_eq. split_and!; [done..|].
        intros j Hj. rewrite lookup_insert_is_Some. destruct (decide (lo a = j)); [by left|right; auto].
      * exists p', m'. rewrite lookup_insert_ne by done. done.
    + intros q. destruct (decide (q = p)) as [->|Hne]; [intros _; apply Hn; by rewrite Hm|].
      rewrite lookup_insert_ne by done. apply Hn.
    + by rewrite map_size_insert_Some.
  - intros b Hbr. unfold peek. simpl. destruct (Z.eqb_spec b a) as [->|Hba].
    + rewrite Hpa, lookup_insert_eq. simpl. by rewrite lookup_insert_eq.
    + destruct (Hp (hi b) (hi_range b Hbr)) as [->|(p' & m' & Hpb & Hm' & _)]; [done|]. rewrite Hpb.
      destruct (decide (p' = p)) as [->|Hne]; [|by rewrite lookup_insert_ne].
      rewrite lookup_insert_eq. simpl. rewrite lookup_insert_ne.
      * rewrite Hm. done.
      * intros Hlo. apply Hba, split_inj; [|done]. by apply (Hi _ _ p (hi_range b Hbr) Hh).
Qed.

Lemma set_mem_taint2_spec s a v :
  shadow_ok s -> in_range 32 a -> enough s ->
  exists s', set_mem_taint2 a v s = Ok (tt, s') /\ shadow_ok s' /\ enough s' /\
    forall b, in_range 32 b -> peek s' b = if b =? a then v else peek s b.
Proof.
  intros Hs Ha Hen.
  destruct (ensure_mappable_spec s a Hs Ha Hen) as (s1 & p & m & Hrun & Hs1 & Hen1 & Hp & Hm & Hf & Hpk).
  destruct (write_ok s1 p m a v Hs1 Ha Hp Hm Hf) as [Hok Hpk'].
  eexists. unfold set_mem_taint2. fold (hi a) (lo a). rewrite (bind_ok _ _ _ _ _ Hrun).
  rewrite (bind_ok _ _ _ _ _ (primary_get_ok _ _ _ (hi_range a Ha) Hp)). simpl. rewrite Hm.
  split_and!; [done|exact Hok|exact Hen1|]. intros b Hb. rewrite Hpk' by done. by rewrite Hpk.
Qed.

(** The distance from [a] up to [b], around the end of the address space. *)
Definition offset (a b : Z) : Z := u32 (b - a).

Lemma set_mem_taint_bysize2_spec s a v size :
  shadow_ok s -> in_range 32 a -> in_range 32 size -> enough s ->
  exists s', set_mem_taint_bysize2 a v size s = Ok (tt, s') /\ shadow_ok s' /\ enough s' /\
    forall b, in_range 32 b -> peek s' b = if offset a b <? size then v else peek s b.
Proof.
  intros Hs Ha Hsz Hen. unfold set_mem_taint_bysize2.
  destruct (mfor_inv (fun i s' => shadow_ok s' /\ enough s' /\
      forall b, in_range 32 b -> peek s' b = if offset a b <? i then v else peek s b)
    (Z.to_nat size) (fun i => set_mem_taint2 (u32 (a + i)) v) s) as (s' & Hrun & Hs' & Hen' & Hpk).
  - split_and!; [done..|]. intros b Hb. destruct (Z.ltb_spec (offset a b) 0) as [H|]; [|done].
    pose proof (u32_range (b - a)). unfold offset in H. lia.
  - intros i s1 Hi (Hs1 & Hen1 & Hpk1).
    destruct (set_mem_taint2_spec s1 (u32 (a + i)) v Hs1 (u32_range _) Hen1) as (s2 & Hr2 & Hs2 & Hen2 & Hpk2).
    exists s2. split_and!; [done..|]. intros b Hb. rewrite Hpk2, Hpk1 by done.
    assert (b = u32 (a + i) <-> offset a b = i) as Hiff.
    { unfold offset, u32, wrap. rewrite Z2Nat.id in Hi by lia. split.
      - intros ->. rewrite Zminus_mod_idemp_l. replace (a + i - a) with i by lia. apply Z.mod_small. lia.
      - intros <-. rewrite Zplus_mod_idemp_r. replace (a + (b - a)) with b by lia. symmetry. by apply Z.mod_small. }
    destruct (Z.eqb_spec b (u32 (a + i))), (Z.ltb_spec (offset a b) i), (Z.ltb_spec (offset a b) (i + 1));
      try done; try lia; exfalso; intuition lia.
  - exists s'. split_and!; [done..|]. rewrite Z2Nat.id in Hpk by lia. done.
Qed.

(** ** Initialisation *)

Lemma init_dist s :
  exists m, mfor (Z.to_nat PAGE_SIZE) (fun i => byte_set Distinguished i UNTAINTED) s =
      Ok (tt, with_dist (fun _ => m) s) /\
    forall j, 0 <= j < PAGE_SIZE -> m !! j = Some UNTAINTED.
Proof.
  destruct (mfor_inv (fun i s' => exists m, s' = with_dist (fun _ => m) s /\
      forall j, 0 <= j < i -> m !! j = Some UNTAINTED)
    (Z.to_nat PAGE_SIZE) (fun i => byte_set Distinguished i UNTAINTED) s) as (s' & Hrun & m & -> & Hm).
  - exists (distinguished_secondary_map s). split; [by destruct s|intros; lia].
  - intros i s' Hi (m & -> & Hm). eexists. split; [done|]. exists (<[i := UNTAINTED]> m).
    split; [done|]. intros j Hj. destruct (decide (j = i)) as [->|Hne]; [by rewrite lookup_insert_eq|].
    rewrite lookup_insert_ne by done. apply Hm. lia.
  - exists m. split; [done|]. intros j Hj. apply Hm. by rewrite Z2Nat.id.
Qed.

Definition with_primary (M : gmap Z smptr) (s : shadow) : shadow :=
  mkShadow (distinguished_secondary_map s) M (secs s) (sh_next s) (sh_avail s) (shadow_bytes s).

Lemma init_primary s :
  exists M, mfor (Z.to_nat PAGE_NUM) (fun i => primary_set i Distinguished) s = Ok (tt, with_primary M s) /\
    forall j, M !! j = if (0 <=? j) && (j <? PAGE_NUM) then Some Distinguished else ii_primary_map s !! j.
Proof.
  destruct (mfor_inv (fun i s' => exists M, s' = with_primary M s /\
      forall j, M !! j = if (0 <=? j) && (j <? i) then Some Distinguished else ii_primary_map s !! j)
    (Z.to_nat PAGE_NUM) (fun i => primary_set i Distinguished) s) as (s' & Hrun & M & -> & HM).
  - exists (ii_primary_map s). split; [by destruct s|]. intros j. zcase; simpl; done || lia.
  - intros i s' Hi (M & -> & HM). rewrite Z2Nat.id in Hi by done.
    unfold primary_set. rewrite index_ok by done. eexists. split; [done|].
    exists (<[i := Distinguished]> M). split; [done|]. intros j.
    destruct (decide (j = i)) as [->|Hne].
    + rewrite lookup_insert_eq, index_ok by lia. done.
    + rewrite lookup_insert_ne, HM by done. zcase; simpl; done || lia.
  - exists M. split; [done|]. intros j. by rewrite HM, Z2Nat.id.
Qed.

(** Every page starts on the distinguished map. *)
Lemma unmapped_bound s :
  (forall i r, ii_primary_map s !! i = Some r -> 0 <= i < PAGE_NUM) -> Z.of_nat (unmapped s) <= PAGE_NUM.
Proof.
  intros Hr. unfold unmapped.
  set (F := filter (fun x : Z * smptr => x.2 = Distinguished) (ii_primary_map s)).
  rewrite <-(size_dom (D := gset Z)).
  transitivity (Z.of_nat (size (list_to_set (seqZ 0 PAGE_NUM) : gset Z))).
  - apply inj_le, subseteq_size. intros i Hi. apply elem_of_dom in Hi as [r Hi].
    apply map_lookup_filter_Some in Hi as [Hi _]. apply Hr in Hi.
    apply elem_of_list_to_set, elem_of_seqZ. lia.
  - rewrite size_list_to_set by apply NoDup_seqZ. rewrite length_seqZ, Z2Nat.id by done. done.
Qed.

Lemma taintInit2_spec n :
  exists s, taintInit2 (static_shadow n) = Ok (tt, s) /\ shadow_ok s /\ sh_avail s = n /\
    Z.of_nat (unmapped s) <= PAGE_NUM /\ forall a, peek s a = UNTAINTED.
Proof.
  unfold taintInit2, init_shadow_memory.
  destruct (init_dist (static_shadow n)) as (m & Hr1 & Hm). rewrite (bind_ok _ _ _ _ _ Hr1).
  destruct (init_primary (with_dist (fun _ => m) (static_shadow n))) as (M & Hr2 & HM).
  exists (with_primary M (with_dist (fun _ => m) (static_shadow n))).
  assert (forall j r, M !! j = Some r -> 0 <= j < PAGE_NUM /\ r = Distinguished) as Hin.
  { clear Hr1 Hr2. intros j r Hj. rewrite HM in Hj. simpl in Hj. rewrite lookup_empty in Hj.
    zcase; simpl in Hj; [|congruence..]. split; [lia|congruence]. }
  split; [exact Hr2|]. clear Hr1 Hr2. split_and!; [|done| |].
  - split; simpl.
    + done.
    + intros i Hi. left. by rewrite HM, index_ok.
    + intros i j p _ _ Hi. apply Hin in Hi as [_ ?]. done.
    + intros p [? Hp]. by rewrite lookup_empty in Hp.
    + done.
  - apply unmapped_bound. simpl. intros i r Hi. by apply Hin in Hi as [? _].
  - intros a. unfold peek. simpl. destruct (M !! hi a) eqn:HMa; [|done]. by apply Hin in HMa as [_ ->].
Qed.

(** ** Disposal *)

Lemma free_shadow_memory_spec s :
  shadow_ok s ->
  exists F, free_shadow_memory s = Ok (tt, with_secs (fun _ => F) s) /\
    (forall j p, 0 <= j < PAGE_NUM -> ii_primary_map s !! j = Some (Sec p) -> F !! p = None).
Proof.
  intros Hs. unfold free_shadow_memory.
  destruct (mfor_inv (fun i s' => exists F, s' = with_secs (fun _ => F) s /\
      (forall j p, 0 <= j < i -> ii_primary_map s !! j = Some (Sec p) -> F !! p = None) /\
      (forall p, (forall j, 0 <= j < i -> ii_primary_map s !! j ≠ Some (Sec p)) -> F !! p = secs s !! p))
    (Z.to_nat PAGE_NUM)
    (fun i => bind (primary_get i) (fun r => when (negb (is_distinguished r)) (free_sec r))) s)
    as (s' & Hrun & F & -> & HF & _).
  - exists (secs s). split_and!; [by destruct s|intros; lia|done].
  - intros i s' Hi (F & -> & HF & HK). rewrite Z2Nat.id in Hi by done.
    destruct (so_prim s Hs i Hi) as [Hd|(p & m & Hp & Hm & _)].
    + rewrite (bind_ok _ _ _ _ _ (primary_get_ok (with_secs (fun _ => F) s) i _ Hi Hd)).
      eexists. split; [done|]. exists F. split_and!; [done|..].
      * intros j p Hj Hjp. apply (HF j); [|done]. assert (j ≠ i) by congruence. lia.
      * intros p Hno. apply HK. intros j Hj. apply Hno. lia.
    + rewrite (bind_ok _ _ _ _ _ (primary_get_ok (with_secs (fun _ => F) s) i _ Hi Hp)).
      simpl. rewrite HK, Hm.
      2:{ intros j Hj Hc. assert (j = i); [|lia]. by apply (so_inj s Hs _ _ p); [lia|..]. }
      eexists. split; [done|]. exists (delete p F). split_and!; [done|..].
      * intros j q Hj Hq. destruct (decide (j = i)) as [->|Hji].
        { simplify_eq. by rewrite lookup_delete_eq. }
        rewrite lookup_delete_None. right. apply (HF j); [lia|done].
      * intros q Hno. rewrite lookup_delete_ne.
        { apply HK. intros j Hj. apply Hno. lia. }
        intros ->. apply (Hno i); [lia|done].
  - exists F. split; [done|]. rewrite Z2Nat.id in HF by done. done.
Qed.

(** ** What the shadow memory guarantees *)

(** C39: The two-level table is a flat memory: after
    [set_mem_taint_bysize2 a v size] every address in the range of [size] bytes
    from [a] (around the end of the address space) reads [v], and every other
    address reads what it read before; no access leaves the tables, and the
    shared distinguished page is never written. *)
Theorem shadow_write_read s a v size :
  shadow_ok s -> enough s -> in_range 32 a -> in_range 32 size ->
  exists s', set_mem_taint_bysize2 a v size s = Ok (tt, s') /\ shadow_ok s' /\ enough s' /\
    forall b, in_range 32 b -> exists old,
      get_mem_taint2 b s = Ok (old, s) /\
      get_mem_taint2 b s' = Ok (if offset a b <? size then v else old, s').
Proof.
  intros Hs Hen Ha Hsz.
  destruct (set_mem_taint_bysize2_spec s a v size Hs Ha Hsz Hen) as (s' & Hrun & Hs' & Hen' & Hpk).
  exists s'. split_and!; [done..|]. intros b Hb. exists (peek s b).
  rewrite !get_mem_taint2_spec by done. by rewrite Hpk.
Qed.

(** [taintInit2] establishes the invariant: every address reads
    [UNTAINTED], no page has a map of its own, and 65536 successful allocations
    are enough for everything that follows. *)
Theorem shadow_init_untainted n :
  exists s, taintInit2 (static_shadow n) = Ok (tt, s) /\ shadow_ok s /\
    (forall a, in_range 32 a -> get_mem_taint2 a s = Ok (UNTAINTED, s)) /\
    (PAGE_NUM <= Z.of_nat n -> enough s).
Proof.
  destruct (taintInit2_spec n) as (s & Hrun & Hs & Hav & Hun & Hpk).
  exists s. split; [exact Hrun|]. clear Hrun. split_and!; [done|..].
  - intros a Ha. by rewrite get_mem_taint2_spec, Hpk.
  - intros Hn. unfold enough. lia.
Qed.

Lemma shadow_write_read_witness :
  exists s s', set_mem_taint_bysize2 0xFFFFFFF0 TAINTED 32 s = Ok (tt, s') /\ shadow_ok s' /\ enough s' /\
    forall b, in_range 32 b -> exists old,
      get_mem_taint2 b s = Ok (old, s) /\
      get_mem_taint2 b s' = Ok (if offset 0xFFFFFFF0 b <? 32 then TAINTED else old, s').
Proof.
  destruct (taintInit2_spec (Z.to_nat PAGE_NUM)) as (s & _ & Hs & Hav & Hun & _). exists s.
  apply (shadow_write_read s 0xFFFFFFF0 TAINTED 32); [exact Hs| |split; reflexivity || discriminate..].
  unfold enough. rewrite Hav. apply Nat2Z.inj_le. rewrite Z2Nat.id by discriminate. exact Hun.
Defined.

(** A write to a page without a map of its own, when [malloc] returns
    NULL, dereferences the null pointer: the result of [malloc] is not checked. *)
Theorem shadow_write_no_memory s a v :
  in_range 32 a -> ii_primary_map s !! hi a = Some Distinguished -> sh_avail s = 0%nat ->
  set_mem_taint2 a v s = Fault NullDeref.
Proof. intros Ha Hd Hav. unfold set_mem_taint2, bind at 1. by rewrite alloc_failure. Qed.

Lemma shadow_write_no_memory_witness :
  set_mem_taint2 0xc0000000 TAINTED
    (mkShadow ∅ {[ hi 0xc0000000 := Distinguished ]} ∅ 1 0 0) = Fault NullDeref.
Proof.
  apply (shadow_write_no_memory (mkShadow ∅ {[ hi 0xc0000000 := Distinguished ]} ∅ 1 0 0) 0xc0000000 TAINTED).
  - split; reflexivity || discriminate.
  - reflexivity.
  - reflexivity.
Defined.

(** [free_shadow_memory] releases every page exactly once (no double
    free), but leaves the pointers in the primary map: a later read of an address
    on such a page touches freed memory. *)
Theorem shadow_free_dangles s :
  shadow_ok s ->
  exists s', free_shadow_memory s = Ok (tt, s') /\
    forall a p, in_range 32 a -> ii_primary_map s !! hi a = Some (Sec p) ->
      get_mem_taint2 a s' = Fault DeadAccess.
Proof.
  intros Hs. destruct (free_shadow_memory_spec s Hs) as (F & Hrun & HF).
  eexists. split; [exact Hrun|]. clear Hrun. intros a p Ha Hp. unfold get_mem_taint2. fold (hi a) (lo a).
  rewrite (bind_ok _ _ _ _ _ (primary_get_ok (with_secs (fun _ => F) s) _ _ (hi_range a Ha) Hp)).
  simpl. by rewrite (HF _ _ (hi_range a Ha) Hp).
Qed.

Lemma shadow_free_dangles_witness :
  exists s s', free_shadow_memory s = Ok (tt, s') /\
    forall a p, in_range 32 a -> ii_primary_map s !! hi a = Some (Sec p) ->
      get_mem_taint2 a s' = Fault DeadAccess.
Proof.
  destruct (taintInit2_spec 1) as (s & _ & Hs & _). exists s. exact (shadow_free_dangles s Hs).
Defined.
