(* ===== verification/Cpu.v ===== *)
(** * The state of the emulated CPU

    The part of [struct CPUX86State] (target-i386/cpu.h) that the modelled
    helpers read and write, for the 32-bit target: [target_ulong] is a 32-bit
    unsigned integer, [target_long] its signed reading. *)

From stdpp Require Import base list.
From Stdlib Require Import ZArith Lia.
From S2P Require Import Prelude.

Local Open Scope Z_scope.
Local Open Scope c_scope.

(** ** Masks of eflags, hflags, control registers and descriptors *)

Definition CC_C : Z := 0x0001.
Definition CC_P : Z := 0x0004.
Definition CC_A : Z := 0x0010.
Definition CC_Z : Z := 0x0040.
Definition CC_S : Z := 0x0080.
Definition CC_O : Z := 0x0800.
Definition TF_MASK : Z := 0x00000100.
Definition IF_MASK : Z := 0x00000200.
Definition DF_MASK : Z := 0x00000400.
Definition IOPL_MASK : Z := 0x00003000.
Definition NT_MASK : Z := 0x00004000.
Definition RF_MASK : Z := 0x00010000.
Definition VM_MASK : Z := 0x00020000.
Definition AC_MASK : Z := 0x00040000.
Definition VIF_MASK : Z := 0x00080000.
Definition VIP_MASK : Z := 0x00100000.
Definition ID_MASK : Z := 0x00200000.
Definition HF_CPL_MASK : Z := 0x3.
Definition HF_INHIBIT_IRQ_MASK : Z := 0x8.
Definition HF_CS32_MASK : Z := 0x10.
Definition HF_SS32_MASK : Z := 0x20.
Definition HF_ADDSEG_MASK : Z := 0x40.
Definition HF_PE_MASK : Z := 0x80.
Definition HF_TS_MASK : Z := 0x800.
Definition HF_LMA_MASK : Z := 0x4000.
Definition HF_CS64_MASK : Z := 0x8000.
Definition HF_SVMI_MASK : Z := Z.shiftl 1 21.
Definition CR0_PE_MASK : Z := 0x1.
Definition CR0_MP_MASK : Z := 0x2.
Definition CR0_EM_MASK : Z := 0x4.
Definition CR0_TS_MASK : Z := 0x8.
Definition CR0_PG_MASK : Z := 0x80000000.
Definition CR0_WP_MASK : Z := 0x10000.
Definition CR4_PSE_MASK : Z := 0x10.
Definition CR4_PAE_MASK : Z := 0x20.
Definition CR4_SMEP_MASK : Z := 0x100000.
Definition CR4_SMAP_MASK : Z := 0x200000.
Definition MSR_EFER_NXE : Z := 0x800.
Definition DESC_G_MASK : Z := 0x800000.
Definition DESC_B_MASK : Z := 0x400000.
Definition DESC_L_MASK : Z := 0x200000.
Definition DESC_AVL_MASK : Z := 0x100000.
Definition DESC_P_MASK : Z := 0x8000.
Definition DESC_DPL_MASK : Z := 0x6000.
Definition DESC_S_MASK : Z := 0x1000.
Definition DESC_TYPE_MASK : Z := 0xf00.
Definition DESC_A_MASK : Z := 0x100.
Definition DESC_CS_MASK : Z := 0x800.
Definition DESC_C_MASK : Z := 0x400.
Definition DESC_R_MASK : Z := 0x200.
Definition DESC_E_MASK : Z := 0x400.
Definition DESC_W_MASK : Z := 0x200.
Definition DESC_TSS_BUSY_MASK : Z := 0x200.

(** ** How the condition codes are represented: [enum] of the [CC_OP_] constants *)

Inductive CC_OP : Type :=
| CC_OP_DYNAMIC | CC_OP_EFLAGS | CC_OP_MULB | CC_OP_MULW | CC_OP_MULL | CC_OP_MULQ
| CC_OP_ADDB | CC_OP_ADDW | CC_OP_ADDL | CC_OP_ADDQ | CC_OP_ADCB | CC_OP_ADCW
| CC_OP_ADCL | CC_OP_ADCQ | CC_OP_SUBB | CC_OP_SUBW | CC_OP_SUBL | CC_OP_SUBQ
| CC_OP_SBBB | CC_OP_SBBW | CC_OP_SBBL | CC_OP_SBBQ | CC_OP_LOGICB | CC_OP_LOGICW
| CC_OP_LOGICL | CC_OP_LOGICQ | CC_OP_INCB | CC_OP_INCW | CC_OP_INCL | CC_OP_INCQ
| CC_OP_DECB | CC_OP_DECW | CC_OP_DECL | CC_OP_DECQ | CC_OP_SHLB | CC_OP_SHLW
| CC_OP_SHLL | CC_OP_SHLQ | CC_OP_SARB | CC_OP_SARW | CC_OP_SARL | CC_OP_SARQ
| CC_OP_BMILGB | CC_OP_BMILGW | CC_OP_BMILGL | CC_OP_BMILGQ | CC_OP_ADCX | CC_OP_ADOX
| CC_OP_ADCOX | CC_OP_CLR.

Record SegmentCache : Type := mkSeg { selector : Z; base : Z; limit : Z; sflags : Z }.

(** ** Breakpoints and watchpoints (include/exec/cpu-defs.h) *)

Record CPUBreakpoint : Type := mkBp { bp_pc : Z; bp_flags : Z }.
Record CPUWatchpoint : Type := mkWp { wp_vaddr : Z; wp_len_mask : Z; wp_flags : Z }.

(** ** Registers of the virtual machine extension and of the model

    Fields of [struct CPUX86State] that only svm_helper.c uses, and those that
    [rdmsr] and [wrmsr] use. *)

Record SvmState : Type := mkSvm {
  vm_hsave : Z; tsc_offset : Z; intercept_cr_read : Z; intercept_cr_write : Z;
  intercept_dr_read : Z; intercept_dr_write : Z; v_tpr : Z; interrupt_request : Z
}.

Record MsrState : Type := mkMsr {
  pat : Z; mtrr_fixed : list Z; mtrr_deftype : Z; mtrr_var : list (Z * Z);
  mcg_status : Z; mcg_cap : Z; mcg_ctl : Z; mce_banks : list Z;
  tsc_aux : Z; msr_ia32_misc_enable : Z
}.

(** ** The state

    [reset_requested] is the machine's pending reset (vl.c) and
    [interrupt_request] a field of [CPUState], not of the structure. A breakpoint or watchpoint is a number that
    stands for its pointer, with what it points to; [next_ptr] is the next number
    [g_malloc] returns. [cpu_breakpoint] is the union of the two arrays of pointers
    that the debug registers own. *)

Record CPUX86State : Type := mkCPU {
  regs : list Z;
  eip : Z;
  eflags : Z;
  cc_dst : Z;
  cc_src : Z;
  cc_src2 : Z;
  cc_op : CC_OP;
  df : Z;
  hflags : Z;
  hflags2 : Z;
  segs : list SegmentCache;
  ldt : SegmentCache;
  tr : SegmentCache;
  gdt : SegmentCache;
  idt : SegmentCache;
  cr : list Z;
  dr : list Z;
  cpu_breakpoint : list (option Z);
  breakpoints : list (Z * CPUBreakpoint);
  watchpoints : list (Z * CPUWatchpoint);
  watchpoint_hit : option Z;
  next_ptr : Z;
  smbase : Z;
  a20_mask : Z;
  sysenter_cs : Z;
  sysenter_esp : Z;
  sysenter_eip : Z;
  efer : Z;
  star : Z;
  msrs : MsrState;
  features : list Z;
  error_code : Z;
  exception_is_int : Z;
  exception_next_eip : Z;
  exception_index : Z;
  old_exception : Z;
  vm_vmcb : Z;
  intercept : Z;
  intercept_exceptions : Z;
  svm : SvmState;
  reset_requested : bool
}.

(** Writing one field. *)
Definition with_regs (v : list Z) (s : CPUX86State) : CPUX86State :=
  mkCPU v (eip s) (eflags s) (cc_dst s) (cc_src s) (cc_src2 s) (cc_op s) (df s) (hflags
    s) (hflags2 s) (segs s) (ldt s) (tr s) (gdt s) (idt s) (cr s) (dr s) (cpu_breakpoint
    s) (breakpoints s) (watchpoints s) (watchpoint_hit s) (next_ptr s) (smbase s)
    (a20_mask s) (sysenter_cs s) (sysenter_esp s) (sysenter_eip s) (efer s) (star s)
    (msrs s) (features s) (error_code s) (exception_is_int s) (exception_next_eip s)
    (exception_index s) (old_exception s) (vm_vmcb s) (intercept s)
    (intercept_exceptions s) (svm s) (reset_requested s).
Definition with_eip (v : Z) (s : CPUX86State) : CPUX86State :=
  mkCPU (regs s) v (eflags s) (cc_dst s) (cc_src s) (cc_src2 s) (cc_op s) (df s) (hflags
    s) (hflags2 s) (segs s) (ldt s) (tr s) (gdt s) (idt s) (cr s) (dr s) (cpu_breakpoint
    s) (breakpoints s) (watchpoints s) (watchpoint_hit s) (next_ptr s) (smbase s)
    (a20_mask s) (sysenter_cs s) (sysenter_esp s) (sysenter_eip s) (efer s) (star s)
    (msrs s) (features s) (error_code s) (exception_is_int s) (exception_next_eip s)
    (exception_index s) (old_exception s) (vm_vmcb s) (intercept s)
    (intercept_exceptions s) (svm s) (reset_requested s).
Definition with_eflags (v : Z) (s : CPUX86State) : CPUX86State :=
  mkCPU (regs s) (eip s) v (cc_dst s) (cc_src s) (cc_src2 s) (cc_op s) (df s) (hflags s)
    (hflags2 s) (segs s) (ldt s) (tr s) (gdt s) (idt s) (cr s) (dr s) (cpu_breakpoint s)
    (breakpoints s) (watchpoints s) (watchpoint_hit s) (next_ptr s) (smbase s) (a20_mask
    s) (sysenter_cs s) (sysenter_esp s) (sysenter_eip s) (efer s) (star s) (msrs s)
    (features s) (error_code s) (exception_is_int s) (exception_next_eip s)
    (exception_index s) (old_exception s) (vm_vmcb s) (intercept s)
    (intercept_exceptions s) (svm s) (reset_requested s).
Definition with_cc_dst (v : Z) (s : CPUX86State) : CPUX86State :=
  mkCPU (regs s) (eip s) (eflags s) v (cc_src s) (cc_src2 s) (cc_op s) (df s) (hflags s)
    (hflags2 s) (segs s) (ldt s) (tr s) (gdt s) (idt s) (cr s) (dr s) (cpu_breakpoint s)
    (breakpoints s) (watchpoints s) (watchpoint_hit s) (next_ptr s) (smbase s) (a20_mask
    s) (sysenter_cs s) (sysenter_esp s) (sysenter_eip s) (efer s) (star s) (msrs s)
    (features s) (error_code s) (exception_is_int s) (exception_next_eip s)
    (exception_index s) (old_exception s) (vm_vmcb s) (intercept s)
    (intercept_exceptions s) (svm s) (reset_requested s).
Definition with_cc_src (v : Z) (s : CPUX86State) : CPUX86State :=
  mkCPU (regs s) (eip s) (eflags s) (cc_dst s) v (cc_src2 s) (cc_op s) (df s) (hflags s)
    (hflags2 s) (segs s) (ldt s) (tr s) (gdt s) (idt s) (cr s) (dr s) (cpu_breakpoint s)
    (breakpoints s) (watchpoints s) (watchpoint_hit s) (next_ptr s) (smbase s) (a20_mask
    s) (sysenter_cs s) (sysenter_esp s) (sysenter_eip s) (efer s) (star s) (msrs s)
    (features s) (error_code s) (exception_is_int s) (exception_next_eip s)
    (exception_index s) (old_exception s) (vm_vmcb s) (intercept s)
    (intercept_exceptions s) (svm s) (reset_requested s).
Definition with_cc_src2 (v : Z) (s : CPUX86State) : CPUX86State :=
  mkCPU (regs s) (eip s) (eflags s) (cc_dst s) (cc_src s) v (cc_op s) (df s) (hflags s)
    (hflags2 s) (segs s) (ldt s) (tr s) (gdt s) (idt s) (cr s) (dr s) (cpu_breakpoint s)
    (breakpoints s) (watchpoints s) (watchpoint_hit s) (next_ptr s) (smbase s) (a20_mask
    s) (sysenter_cs s) (sysenter_esp s) (sysenter_eip s) (efer s) (star s) (msrs s)
    (features s) (error_code s) (exception_is_int s) (exception_next_eip s)
    (exception_index s) (old_exception s) (vm_vmcb s) (intercept s)
    (intercept_exceptions s) (svm s) (reset_requested s).
Definition with_cc_op (v : CC_OP) (s : CPUX86State) : CPUX86State :=
  mkCPU (regs s) (eip s) (eflags s) (cc_dst s) (cc_src s) (cc_src2 s) v (df s) (hflags
    s) (hflags2 s) (segs s) (ldt s) (tr s) (gdt s) (idt s) (cr s) (dr s) (cpu_breakpoint
    s) (breakpoints s) (watchpoints s) (watchpoint_hit s) (next_ptr s) (smbase s)
    (a20_mask s) (sysenter_cs s) (sysenter_esp s) (sysenter_eip s) (efer s) (star s)
    (msrs s) (features s) (error_code s) (exception_is_int s) (exception_next_eip s)
    (exception_index s) (old_exception s) (vm_vmcb s) (intercept s)
    (intercept_exceptions s) (svm s) (reset_requested s).
Definition with_df (v : Z) (s : CPUX86State) : CPUX86State :=
  mkCPU (regs s) (eip s) (eflags s) (cc_dst s) (cc_src s) (cc_src2 s) (cc_op s) v
    (hflags s) (hflags2 s) (segs s) (ldt s) (tr s) (gdt s) (idt s) (cr s) (dr s)
    (cpu_breakpoint s) (breakpoints s) (watchpoints s) (watchpoint_hit s) (next_ptr s)
    (smbase s) (a20_mask s) (sysenter_cs s) (sysenter_esp s) (sysenter_eip s) (efer s)
    (star s) (msrs s) (features s) (error_code s) (exception_is_int s)
    (exception_next_eip s) (exception_index s) (old_exception s) (vm_vmcb s) (intercept
    s) (intercept_exceptions s) (svm s) (reset_requested s).
Definition with_hflags (v : Z) (s : CPUX86State) : CPUX86State :=
  mkCPU (regs s) (eip s) (eflags s) (cc_dst s) (cc_src s) (cc_src2 s) (cc_op s) (df s) v
    (hflags2 s) (segs s) (ldt s) (tr s) (gdt s) (idt s) (cr s) (dr s) (cpu_breakpoint s)
    (breakpoints s) (watchpoints s) (watchpoint_hit s) (next_ptr s) (smbase s) (a20_mask
    s) (sysenter_cs s) (sysenter_esp s) (sysenter_eip s) (efer s) (star s) (msrs s)
    (features s) (error_code s) (exception_is_int s) (exception_next_eip s)
    (exception_index s) (old_exception s) (vm_vmcb s) (intercept s)
    (intercept_exceptions s) (svm s) (reset_requested s).
Definition with_hflags2 (v : Z) (s : CPUX86State) : CPUX86State :=
  mkCPU (regs s) (eip s) (eflags s) (cc_dst s) (cc_src s) (cc_src2 s) (cc_op s) (df s)
    (hflags s) v (segs s) (ldt s) (tr s) (gdt s) (idt s) (cr s) (dr s) (cpu_breakpoint
    s) (breakpoints s) (watchpoints s) (watchpoint_hit s) (next_ptr s) (smbase s)
    (a20_mask s) (sysenter_cs s) (sysenter_esp s) (sysenter_eip s) (efer s) (star s)
    (msrs s) (features s) (error_code s) (exception_is_int s) (exception_next_eip s)
    (exception_index s) (old_exception s) (vm_vmcb s) (intercept s)
    (intercept_exceptions s) (svm s) (reset_requested s).
Definition with_segs (v : list SegmentCache) (s : CPUX86State) : CPUX86State :=
  mkCPU (regs s) (eip s) (eflags s) (cc_dst s) (cc_src s) (cc_src2 s) (cc_op s) (df s)
    (hflags s) (hflags2 s) v (ldt s) (tr s) (gdt s) (idt s) (cr s) (dr s)
    (cpu_breakpoint s) (breakpoints s) (watchpoints s) (watchpoint_hit s) (next_ptr s)
    (smbase s) (a20_mask s) (sysenter_cs s) (sysenter_esp s) (sysenter_eip s) (efer s)
    (star s) (msrs s) (features s) (error_code s) (exception_is_int s)
    (exception_next_eip s) (exception_index s) (old_exception s) (vm_vmcb s) (intercept
    s) (intercept_exceptions s) (svm s) (reset_requested s).
Definition with_ldt (v : SegmentCache) (s : CPUX86State) : CPUX86State :=
  mkCPU (regs s) (eip s) (eflags s) (cc_dst s) (cc_src s) (cc_src2 s) (cc_op s) (df s)
    (hflags s) (hflags2 s) (segs s) v (tr s) (gdt s) (idt s) (cr s) (dr s)
    (cpu_breakpoint s) (breakpoints s) (watchpoints s) (watchpoint_hit s) (next_ptr s)
    (smbase s) (a20_mask s) (sysenter_cs s) (sysenter_esp s) (sysenter_eip s) (efer s)
    (star s) (msrs s) (features s) (error_code s) (exception_is_int s)
    (exception_next_eip s) (exception_index s) (old_exception s) (vm_vmcb s) (intercept
    s) (intercept_exceptions s) (svm s) (reset_requested s).
Definition with_tr (v : SegmentCache) (s : CPUX86State) : CPUX86State :=
  mkCPU (regs s) (eip s) (eflags s) (cc_dst s) (cc_src s) (cc_src2 s) (cc_op s) (df s)
    (hflags s) (hflags2 s) (segs s) (ldt s) v (gdt s) (idt s) (cr s) (dr s)
    (cpu_breakpoint s) (breakpoints s) (watchpoints s) (watchpoint_hit s) (next_ptr s)
    (smbase s) (a20_mask s) (sysenter_cs s) (sysenter_esp s) (sysenter_eip s) (efer s)
    (star s) (msrs s) (features s) (error_code s) (exception_is_int s)
    (exception_next_eip s) (exception_index s) (old_exception s) (vm_vmcb s) (intercept
    s) (intercept_exceptions s) (svm s) (reset_requested s).
Definition with_gdt (v : SegmentCache) (s : CPUX86State) : CPUX86State :=
  mkCPU (regs s) (eip s) (eflags s) (cc_dst s) (cc_src s) (cc_src2 s) (cc_op s) (df s)
    (hflags s) (hflags2 s) (segs s) (ldt s) (tr s) v (idt s) (cr s) (dr s)
    (cpu_breakpoint s) (breakpoints s) (watchpoints s) (watchpoint_hit s) (next_ptr s)
    (smbase s) (a20_mask s) (sysenter_cs s) (sysenter_esp s) (sysenter_eip s) (efer s)
    (star s) (msrs s) (features s) (error_code s) (exception_is_int s)
    (exception_next_eip s) (exception_index s) (old_exception s) (vm_vmcb s) (intercept
    s) (intercept_exceptions s) (svm s) (reset_requested s).
Definition with_idt (v : SegmentCache) (s : CPUX86State) : CPUX86State :=
  mkCPU (regs s) (eip s) (eflags s) (cc_dst s) (cc_src s) (cc_src2 s) (cc_op s) (df s)
    (hflags s) (hflags2 s) (segs s) (ldt s) (tr s) (gdt s) v (cr s) (dr s)
    (cpu_breakpoint s) (breakpoints s) (watchpoints s) (watchpoint_hit s) (next_ptr s)
    (smbase s) (a20_mask s) (sysenter_cs s) (sysenter_esp s) (sysenter_eip s) (efer s)
    (star s) (msrs s) (features s) (error_code s) (exception_is_int s)
    (exception_next_eip s) (exception_index s) (old_exception s) (vm_vmcb s) (intercept
    s) (intercept_exceptions s) (svm s) (reset_requested s).
Definition with_cr (v : list Z) (s : CPUX86State) : CPUX86State :=
  mkCPU (regs s) (eip s) (eflags s) (cc_dst s) (cc_src s) (cc_src2 s) (cc_op s) (df s)
    (hflags s) (hflags2 s) (segs s) (ldt s) (tr s) (gdt s) (idt s) v (dr s)
    (cpu_breakpoint s) (breakpoints s) (watchpoints s) (watchpoint_hit s) (next_ptr s)
    (smbase s) (a20_mask s) (sysenter_cs s) (sysenter_esp s) (sysenter_eip s) (efer s)
    (star s) (msrs s) (features s) (error_code s) (exception_is_int s)
    (exception_next_eip s) (exception_index s) (old_exception s) (vm_vmcb s) (intercept
    s) (intercept_exceptions s) (svm s) (reset_requested s).
Definition with_dr (v : list Z) (s : CPUX86State) : CPUX86State :=
  mkCPU (regs s) (eip s) (eflags s) (cc_dst s) (cc_src s) (cc_src2 s) (cc_op s) (df s)
    (hflags s) (hflags2 s) (segs s) (ldt s) (tr s) (gdt s) (idt s) (cr s) v
    (cpu_breakpoint s) (breakpoints s) (watchpoints s) (watchpoint_hit s) (next_ptr s)
    (smbase s) (a20_mask s) (sysenter_cs s) (sysenter_esp s) (sysenter_eip s) (efer s)
    (star s) (msrs s) (features s) (error_code s) (exception_is_int s)
    (exception_next_eip s) (exception_index s) (old_exception s) (vm_vmcb s) (intercept
    s) (intercept_exceptions s) (svm s) (reset_requested s).
Definition with_cpu_breakpoint (v : list (option Z)) (s : CPUX86State) : CPUX86State :=
  mkCPU (regs s) (eip s) (eflags s) (cc_dst s) (cc_src s) (cc_src2 s) (cc_op s) (df s)
    (hflags s) (hflags2 s) (segs s) (ldt s) (tr s) (gdt s) (idt s) (cr s) (dr s) v
    (breakpoints s) (watchpoints s) (watchpoint_hit s) (next_ptr s) (smbase s) (a20_mask
    s) (sysenter_cs s) (sysenter_esp s) (sysenter_eip s) (efer s) (star s) (msrs s)
    (features s) (error_code s) (exception_is_int s) (exception_next_eip s)
    (exception_index s) (old_exception s) (vm_vmcb s) (intercept s)
    (intercept_exceptions s) (svm s) (reset_requested s).
Definition with_breakpoints (v : list (Z * CPUBreakpoint)) (s : CPUX86State) : CPUX86State :=
  mkCPU (regs s) (eip s) (eflags s) (cc_dst s) (cc_src s) (cc_src2 s) (cc_op s) (df s)
    (hflags s) (hflags2 s) (segs s) (ldt s) (tr s) (gdt s) (idt s) (cr s) (dr s)
    (cpu_breakpoint s) v (watchpoints s) (watchpoint_hit s) (next_ptr s) (smbase s)
    (a20_mask s) (sysenter_cs s) (sysenter_esp s) (sysenter_eip s) (efer s) (star s)
    (msrs s) (features s) (error_code s) (exception_is_int s) (exception_next_eip s)
    (exception_index s) (old_exception s) (vm_vmcb s) (intercept s)
    (intercept_exceptions s) (svm s) (reset_requested s).
Definition with_watchpoints (v : list (Z * CPUWatchpoint)) (s : CPUX86State) : CPUX86State :=
  mkCPU (regs s) (eip s) (eflags s) (cc_dst s) (cc_src s) (cc_src2 s) (cc_op s) (df s)
    (hflags s) (hflags2 s) (segs s) (ldt s) (tr s) (gdt s) (idt s) (cr s) (dr s)
    (cpu_breakpoint s) (breakpoints s) v (watchpoint_hit s) (next_ptr s) (smbase s)
    (a20_mask s) (sysenter_cs s) (sysenter_esp s) (sysenter_eip s) (efer s) (star s)
    (msrs s) (features s) (error_code s) (exception_is_int s) (exception_next_eip s)
    (exception_index s) (old_exception s) (vm_vmcb s) (intercept s)
    (intercept_exceptions s) (svm s) (reset_requested s).
Definition with_watchpoint_hit (v : option Z) (s : CPUX86State) : CPUX86State :=
  mkCPU (regs s) (eip s) (eflags s) (cc_dst s) (cc_src s) (cc_src2 s) (cc_op s) (df s)
    (hflags s) (hflags2 s) (segs s) (ldt s) (tr s) (gdt s) (idt s) (cr s) (dr s)
    (cpu_breakpoint s) (breakpoints s) (watchpoints s) v (next_ptr s) (smbase s)
    (a20_mask s) (sysenter_cs s) (sysenter_esp s) (sysenter_eip s) (efer s) (star s)
    (msrs s) (features s) (error_code s) (exception_is_int s) (exception_next_eip s)
    (exception_index s) (old_exception s) (vm_vmcb s) (intercept s)
    (intercept_exceptions s) (svm s) (reset_requested s).
Definition with_next_ptr (v : Z) (s : CPUX86State) : CPUX86State :=
  mkCPU (regs s) (eip s) (eflags s) (cc_dst s) (cc_src s) (cc_src2 s) (cc_op s) (df s)
    (hflags s) (hflags2 s) (segs s) (ldt s) (tr s) (gdt s) (idt s) (cr s) (dr s)
    (cpu_breakpoint s) (breakpoints s) (watchpoints s) (watchpoint_hit s) v (smbase s)
    (a20_mask s) (sysenter_cs s) (sysenter_esp s) (sysenter_eip s) (efer s) (star s)
    (msrs s) (features s) (error_code s) (exception_is_int s) (exception_next_eip s)
    (exception_index s) (old_exception s) (vm_vmcb s) (intercept s)
    (intercept_exceptions s) (svm s) (reset_requested s).
Definition with_smbase (v : Z) (s : CPUX86State) : CPUX86State :=
  mkCPU (regs s) (eip s) (eflags s) (cc_dst s) (cc_src s) (cc_src2 s) (cc_op s) (df s)
    (hflags s) (hflags2 s) (segs s) (ldt s) (tr s) (gdt s) (idt s) (cr s) (dr s)
    (cpu_breakpoint s) (breakpoints s) (watchpoints s) (watchpoint_hit s) (next_ptr s) v
    (a20_mask s) (sysenter_cs s) (sysenter_esp s) (sysenter_eip s) (efer s) (star s)
    (msrs s) (features s) (error_code s) (exception_is_int s) (exception_next_eip s)
    (exception_index s) (old_exception s) (vm_vmcb s) (intercept s)
    (intercept_exceptions s) (svm s) (reset_requested s).
Definition with_a20_mask (v : Z) (s : CPUX86State) : CPUX86State :=
  mkCPU (regs s) (eip s) (eflags s) (cc_dst s) (cc_src s) (cc_src2 s) (cc_op s) (df s)
    (hflags s) (hflags2 s) (segs s) (ldt s) (tr s) (gdt s) (idt s) (cr s) (dr s)
    (cpu_breakpoint s) (breakpoints s) (watchpoints s) (watchpoint_hit s) (next_ptr s)
    (smbase s) v (sysenter_cs s) (sysenter_esp s) (sysenter_eip s) (efer s) (star s)
    (msrs s) (features s) (error_code s) (exception_is_int s) (exception_next_eip s)
    (exception_index s) (old_exception s) (vm_vmcb s) (intercept s)
    (intercept_exceptions s) (svm s) (reset_requested s).
Definition with_sysenter_cs (v : Z) (s : CPUX86State) : CPUX86State :=
  mkCPU (regs s) (eip s) (eflags s) (cc_dst s) (cc_src s) (cc_src2 s) (cc_op s) (df s)
    (hflags s) (hflags2 s) (segs s) (ldt s) (tr s) (gdt s) (idt s) (cr s) (dr s)
    (cpu_breakpoint s) (breakpoints s) (watchpoints s) (watchpoint_hit s) (next_ptr s)
    (smbase s) (a20_mask s) v (sysenter_esp s) (sysenter_eip s) (efer s) (star s) (msrs
    s) (features s) (error_code s) (exception_is_int s) (exception_next_eip s)
    (exception_index s) (old_exception s) (vm_vmcb s) (intercept s)
    (intercept_exceptions s) (svm s) (reset_requested s).
Definition with_sysenter_esp (v : Z) (s : CPUX86State) : CPUX86State :=
  mkCPU (regs s) (eip s) (eflags s) (cc_dst s) (cc_src s) (cc_src2 s) (cc_op s) (df s)
    (hflags s) (hflags2 s) (segs s) (ldt s) (tr s) (gdt s) (idt s) (cr s) (dr s)
    (cpu_breakpoint s) (breakpoints s) (watchpoints s) (watchpoint_hit s) (next_ptr s)
    (smbase s) (a20_mask s) (sysenter_cs s) v (sysenter_eip s) (efer s) (star s) (msrs
    s) (features s) (error_code s) (exception_is_int s) (exception_next_eip s)
    (exception_index s) (old_exception s) (vm_vmcb s) (intercept s)
    (intercept_exceptions s) (svm s) (reset_requested s).
Definition with_sysenter_eip (v : Z) (s : CPUX86State) : CPUX86State :=
  mkCPU (regs s) (eip s) (eflags s) (cc_dst s) (cc_src s) (cc_src2 s) (cc_op s) (df s)
    (hflags s) (hflags2 s) (segs s) (ldt s) (tr s) (gdt s) (idt s) (cr s) (dr s)
    (cpu_breakpoint s) (breakpoints s) (watchpoints s) (watchpoint_hit s) (next_ptr s)
    (smbase s) (a20_mask s) (sysenter_cs s) (sysenter_esp s) v (efer s) (star s) (msrs
    s) (features s) (error_code s) (exception_is_int s) (exception_next_eip s)
    (exception_index s) (old_exception s) (vm_vmcb s) (intercept s)
    (intercept_exceptions s) (svm s) (reset_requested s).
Definition with_efer (v : Z) (s : CPUX86State) : CPUX86State :=
  mkCPU (regs s) (eip s) (eflags s) (cc_dst s) (cc_src s) (cc_src2 s) (cc_op s) (df s)
    (hflags s) (hflags2 s) (segs s) (ldt s) (tr s) (gdt s) (idt s) (cr s) (dr s)
    (cpu_breakpoint s) (breakpoints s) (watchpoints s) (watchpoint_hit s) (next_ptr s)
    (smbase s) (a20_mask s) (sysenter_cs s) (sysenter_esp s) (sysenter_eip s) v (star s)
    (msrs s) (features s) (error_code s) (exception_is_int s) (exception_next_eip s)
    (exception_index s) (old_exception s) (vm_vmcb s) (intercept s)
    (intercept_exceptions s) (svm s) (reset_requested s).
Definition with_star (v : Z) (s : CPUX86State) : CPUX86State :=
  mkCPU (regs s) (eip s) (eflags s) (cc_dst s) (cc_src s) (cc_src2 s) (cc_op s) (df s)
    (hflags s) (hflags2 s) (segs s) (ldt s) (tr s) (gdt s) (idt s) (cr s) (dr s)
    (cpu_breakpoint s) (breakpoints s) (watchpoints s) (watchpoint_hit s) (next_ptr s)
    (smbase s) (a20_mask s) (sysenter_cs s) (sysenter_esp s) (sysenter_eip s) (efer s) v
    (msrs s) (features s) (error_code s) (exception_is_int s) (exception_next_eip s)
    (exception_index s) (old_exception s) (vm_vmcb s) (intercept s)
    (intercept_exceptions s) (svm s) (reset_requested s).
Definition with_msrs (v : MsrState) (s : CPUX86State) : CPUX86State :=
  mkCPU (regs s) (eip s) (eflags s) (cc_dst s) (cc_src s) (cc_src2 s) (cc_op s) (df s)
    (hflags s) (hflags2 s) (segs s) (ldt s) (tr s) (gdt s) (idt s) (cr s) (dr s)
    (cpu_breakpoint s) (breakpoints s) (watchpoints s) (watchpoint_hit s) (next_ptr s)
    (smbase s) (a20_mask s) (sysenter_cs s) (sysenter_esp s) (sysenter_eip s) (efer s)
    (star s) v (features s) (error_code s) (exception_is_int s) (exception_next_eip s)
    (exception_index s) (old_exception s) (vm_vmcb s) (intercept s)
    (intercept_exceptions s) (svm s) (reset_requested s).
Definition with_features (v : list Z) (s : CPUX86State) : CPUX86State :=
  mkCPU (regs s) (eip s) (eflags s) (cc_dst s) (cc_src s) (cc_src2 s) (cc_op s) (df s)
    (hflags s) (hflags2 s) (segs s) (ldt s) (tr s) (gdt s) (idt s) (cr s) (dr s)
    (cpu_breakpoint s) (breakpoints s) (watchpoints s) (watchpoint_hit s) (next_ptr s)
    (smbase s) (a20_mask s) (sysenter_cs s) (sysenter_esp s) (sysenter_eip s) (efer s)
    (star s) (msrs s) v (error_code s) (exception_is_int s) (exception_next_eip s)
    (exception_index s) (old_exception s) (vm_vmcb s) (intercept s)
    (intercept_exceptions s) (svm s) (reset_requested s).
Definition with_error_code (v : Z) (s : CPUX86State) : CPUX86State :=
  mkCPU (regs s) (eip s) (eflags s) (cc_dst s) (cc_src s) (cc_src2 s) (cc_op s) (df s)
    (hflags s) (hflags2 s) (segs s) (ldt s) (tr s) (gdt s) (idt s) (cr s) (dr s)
    (cpu_breakpoint s) (breakpoints s) (watchpoints s) (watchpoint_hit s) (next_ptr s)
    (smbase s) (a20_mask s) (sysenter_cs s) (sysenter_esp s) (sysenter_eip s) (efer s)
    (star s) (msrs s) (features s) v (exception_is_int s) (exception_next_eip s)
    (exception_index s) (old_exception s) (vm_vmcb s) (intercept s)
    (intercept_exceptions s) (svm s) (reset_requested s).
Definition with_exception_is_int (v : Z) (s : CPUX86State) : CPUX86State :=
  mkCPU (regs s) (eip s) (eflags s) (cc_dst s) (cc_src s) (cc_src2 s) (cc_op s) (df s)
    (hflags s) (hflags2 s) (segs s) (ldt s) (tr s) (gdt s) (idt s) (cr s) (dr s)
    (cpu_breakpoint s) (breakpoints s) (watchpoints s) (watchpoint_hit s) (next_ptr s)
    (smbase s) (a20_mask s) (sysenter_cs s) (sysenter_esp s) (sysenter_eip s) (efer s)
    (star s) (msrs s) (features s) (error_code s) v (exception_next_eip s)
    (exception_index s) (old_exception s) (vm_vmcb s) (intercept s)
    (intercept_exceptions s) (svm s) (reset_requested s).
Definition with_exception_next_eip (v : Z) (s : CPUX86State) : CPUX86State :=
  mkCPU (regs s) (eip s) (eflags s) (cc_dst s) (cc_src s) (cc_src2 s) (cc_op s) (df s)
    (hflags s) (hflags2 s) (segs s) (ldt s) (tr s) (gdt s) (idt s) (cr s) (dr s)
    (cpu_breakpoint s) (breakpoints s) (watchpoints s) (watchpoint_hit s) (next_ptr s)
    (smbase s) (a20_mask s) (sysenter_cs s) (sysenter_esp s) (sysenter_eip s) (efer s)
    (star s) (msrs s) (features s) (error_code s) (exception_is_int s) v
    (exception_index s) (old_exception s) (vm_vmcb s) (intercept s)
    (intercept_exceptions s) (svm s) (reset_requested s).
Definition with_exception_index (v : Z) (s : CPUX86State) : CPUX86State :=
  mkCPU (regs s) (eip s) (eflags s) (cc_dst s) (cc_src s) (cc_src2 s) (cc_op s) (df s)
    (hflags s) (hflags2 s) (segs s) (ldt s) (tr s) (gdt s) (idt s) (cr s) (dr s)
    (cpu_breakpoint s) (breakpoints s) (watchpoints s) (watchpoint_hit s) (next_ptr s)
    (smbase s) (a20_mask s) (sysenter_cs s) (sysenter_esp s) (sysenter_eip s) (efer s)
    (star s) (msrs s) (features s) (error_code s) (exception_is_int s)
    (exception_next_eip s) v (old_exception s) (vm_vmcb s) (intercept s)
    (intercept_exceptions s) (svm s) (reset_requested s).
Definition with_old_exception (v : Z) (s : CPUX86State) : CPUX86State :=
  mkCPU (regs s) (eip s) (eflags s) (cc_dst s) (cc_src s) (cc_src2 s) (cc_op s) (df s)
    (hflags s) (hflags2 s) (segs s) (ldt s) (tr s) (gdt s) (idt s) (cr s) (dr s)
    (cpu_breakpoint s) (breakpoints s) (watchpoints s) (watchpoint_hit s) (next_ptr s)
    (smbase s) (a20_mask s) (sysenter_cs s) (sysenter_esp s) (sysenter_eip s) (efer s)
    (star s) (msrs s) (features s) (error_code s) (exception_is_int s)
    (exception_next_eip s) (exception_index s) v (vm_vmcb s) (intercept s)
    (intercept_exceptions s) (svm s) (reset_requested s).
Definition with_vm_vmcb (v : Z) (s : CPUX86State) : CPUX86State :=
  mkCPU (regs s) (eip s) (eflags s) (cc_dst s) (cc_src s) (cc_src2 s) (cc_op s) (df s)
    (hflags s) (hflags2 s) (segs s) (ldt s) (tr s) (gdt s) (idt s) (cr s) (dr s)
    (cpu_breakpoint s) (breakpoints s) (watchpoints s) (watchpoint_hit s) (next_ptr s)
    (smbase s) (a20_mask s) (sysenter_cs s) (sysenter_esp s) (sysenter_eip s) (efer s)
    (star s) (msrs s) (features s) (error_code s) (exception_is_int s)
    (exception_next_eip s) (exception_index s) (old_exception s) v (intercept s)
    (intercept_exceptions s) (svm s) (reset_requested s).
Definition with_intercept (v : Z) (s : CPUX86State) : CPUX86State :=
  mkCPU (regs s) (eip s) (eflags s) (cc_dst s) (cc_src s) (cc_src2 s) (cc_op s) (df s)
    (hflags s) (hflags2 s) (segs s) (ldt s) (tr s) (gdt s) (idt s) (cr s) (dr s)
    (cpu_breakpoint s) (breakpoints s) (watchpoints s) (watchpoint_hit s) (next_ptr s)
    (smbase s) (a20_mask s) (sysenter_cs s) (sysenter_esp s) (sysenter_eip s) (efer s)
    (star s) (msrs s) (features s) (error_code s) (exception_is_int s)
    (exception_next_eip s) (exception_index s) (old_exception s) (vm_vmcb s) v
    (intercept_exceptions s) (svm s) (reset_requested s).
Definition with_intercept_exceptions (v : Z) (s : CPUX86State) : CPUX86State :=
  mkCPU (regs s) (eip s) (eflags s) (cc_dst s) (cc_src s) (cc_src2 s) (cc_op s) (df s)
    (hflags s) (hflags2 s) (segs s) (ldt s) (tr s) (gdt s) (idt s) (cr s) (dr s)
    (cpu_breakpoint s) (breakpoints s) (watchpoints s) (watchpoint_hit s) (next_ptr s)
    (smbase s) (a20_mask s) (sysenter_cs s) (sysenter_esp s) (sysenter_eip s) (efer s)
    (star s) (msrs s) (features s) (error_code s) (exception_is_int s)
    (exception_next_eip s) (exception_index s) (old_exception s) (vm_vmcb s) (intercept
    s) v (svm s) (reset_requested s).
Definition with_svm (v : SvmState) (s : CPUX86State) : CPUX86State :=
  mkCPU (regs s) (eip s) (eflags s) (cc_dst s) (cc_src s) (cc_src2 s) (cc_op s) (df s)
    (hflags s) (hflags2 s) (segs s) (ldt s) (tr s) (gdt s) (idt s) (cr s) (dr s)
    (cpu_breakpoint s) (breakpoints s) (watchpoints s) (watchpoint_hit s) (next_ptr s)
    (smbase s) (a20_mask s) (sysenter_cs s) (sysenter_esp s) (sysenter_eip s) (efer s)
    (star s) (msrs s) (features s) (error_code s) (exception_is_int s)
    (exception_next_eip s) (exception_index s) (old_exception s) (vm_vmcb s) (intercept
    s) (intercept_exceptions s) v (reset_requested s).
Definition with_reset_requested (v : bool) (s : CPUX86State) : CPUX86State :=
  mkCPU (regs s) (eip s) (eflags s) (cc_dst s) (cc_src s) (cc_src2 s) (cc_op s) (df s)
    (hflags s) (hflags2 s) (segs s) (ldt s) (tr s) (gdt s) (idt s) (cr s) (dr s)
    (cpu_breakpoint s) (breakpoints s) (watchpoints s) (watchpoint_hit s) (next_ptr s)
    (smbase s) (a20_mask s) (sysenter_cs s) (sysenter_esp s) (sysenter_eip s) (efer s)
    (star s) (msrs s) (features s) (error_code s) (exception_is_int s)
    (exception_next_eip s) (exception_index s) (old_exception s) (vm_vmcb s) (intercept
    s) (intercept_exceptions s) (svm s) v.

(** ** Registers

    [env->regs[r]] with a constant or decoded index: an index outside the
    array is out of bounds. *)

Definition reg_get (r : Z) : M CPUX86State Z :=
  fun s => match (if r <? 0 then None else regs s !! Z.to_nat r) with
           | Some v => Ok (v, s)
           | None => Fault BadIndex
           end.

Definition reg_set (r v : Z) : M CPUX86State unit :=
  fun s => match (if r <? 0 then None else regs s !! Z.to_nat r) with
           | Some _ => Ok (tt, with_regs (<[Z.to_nat r := v]> (regs s)) s)
           | None => Fault BadIndex
           end.

(** [lshift] of cpu.h on a [target_long] of [tl] bits: a shift to the left
    loses the high bits, a shift by a negative count is an arithmetic shift to
    the right. *)
Definition lshift (tl x n : Z) : Z :=
  if 0 <=? n then sext tl (Z.shiftl (sext tl x) n) else Z.shiftr (sext tl x) (- n).

(** A CPU with cleared registers, in the middle of a subtraction. *)
Definition seg0 : SegmentCache := mkSeg 0 0 0 0.
Definition svm0 : SvmState := mkSvm 0 0 0 0 0 0 0 0.
Definition msr0 : MsrState := mkMsr 0 (replicate 11 0) 0 (replicate 8 (0, 0)) 0 0 0 (replicate 40 0) 0 0.
Definition blank_cpu : CPUX86State :=
  mkCPU (replicate 8 0) 0 0x202 0xffffffff 1 0 CC_OP_SUBL 1 0 0 (replicate 6 seg0) seg0 seg0 seg0 seg0
    (replicate 5 0) [0; 0; 0; 0; 0; 0; 0xffff0ff0; 0x400] (replicate 4 None) [] [] None 0 0x30000 (-1)
    0 0 0 0 0 msr0 (replicate 8 0) 0 0 0 0 0 0 0 0 svm0 false.
