(* ===== verification/CcHelper.v ===== *)
(** * Condition codes

    target-i386/cc_helper.c and cc_helper_template.h. The emulator keeps the
    operands of the last arithmetic instruction and computes the flags when
    they are needed. The template is instantiated by the operand width [w] (8, 16
    or 32 bits); [tl] is the width of [target_long]. *)

From stdpp Require Import base list.
From Stdlib Require Import ZArith Lia.
From S2P Require Import Prelude Cpu.

Local Open Scope Z_scope.
Local Open Scope c_scope.

Definition parity_table : list Z :=
 [CC_P; 0; 0; CC_P; 0; CC_P; CC_P; 0;
  0; CC_P; CC_P; 0; CC_P; 0; 0; CC_P;
  0; CC_P; CC_P; 0; CC_P; 0; 0; CC_P;
  CC_P; 0; 0; CC_P; 0; CC_P; CC_P; 0;
  0; CC_P; CC_P; 0; CC_P; 0; 0; CC_P;
  CC_P; 0; 0; CC_P; 0; CC_P; CC_P; 0;
  CC_P; 0; 0; CC_P; 0; CC_P; CC_P; 0;
  0; CC_P; CC_P; 0; CC_P; 0; 0; CC_P;
  0; CC_P; CC_P; 0; CC_P; 0; 0; CC_P;
  CC_P; 0; 0; CC_P; 0; CC_P; CC_P; 0;
  CC_P; 0; 0; CC_P; 0; CC_P; CC_P; 0;
  0; CC_P; CC_P; 0; CC_P; 0; 0; CC_P;
  CC_P; 0; 0; CC_P; 0; CC_P; CC_P; 0;
  0; CC_P; CC_P; 0; CC_P; 0; 0; CC_P;
  0; CC_P; CC_P; 0; CC_P; 0; 0; CC_P;
  CC_P; 0; 0; CC_P; 0; CC_P; CC_P; 0;
  0; CC_P; CC_P; 0; CC_P; 0; 0; CC_P;
  CC_P; 0; 0; CC_P; 0; CC_P; CC_P; 0;
  CC_P; 0; 0; CC_P; 0; CC_P; CC_P; 0;
  0; CC_P; CC_P; 0; CC_P; 0; 0; CC_P;
  CC_P; 0; 0; CC_P; 0; CC_P; CC_P; 0;
  0; CC_P; CC_P; 0; CC_P; 0; 0; CC_P;
  0; CC_P; CC_P; 0; CC_P; 0; 0; CC_P;
  CC_P; 0; 0; CC_P; 0; CC_P; CC_P; 0;
  CC_P; 0; 0; CC_P; 0; CC_P; CC_P; 0;
  0; CC_P; CC_P; 0; CC_P; 0; 0; CC_P;
  0; CC_P; CC_P; 0; CC_P; 0; 0; CC_P;
  CC_P; 0; 0; CC_P; 0; CC_P; CC_P; 0;
  0; CC_P; CC_P; 0; CC_P; 0; 0; CC_P;
  CC_P; 0; 0; CC_P; 0; CC_P; CC_P; 0;
  CC_P; 0; 0; CC_P; 0; CC_P; CC_P; 0;
  0; CC_P; CC_P; 0; CC_P; 0; 0; CC_P].

(** [parity_table[(uint8_t)x]] *)
Definition parity (x : Z) : Z := nth (Z.to_nat (u8 x)) parity_table 0.

Definition lor6 (cf pf af zf sf ovf : Z) : Z :=
  Z.lor (Z.lor (Z.lor (Z.lor (Z.lor cf pf) af) zf) sf) ovf.

Section Template.
Context (tl w : Z).

(** [((DATA_TYPE)1) << (DATA_BITS - 1)] *)
Definition SIGN_MASK : Z := Z.shiftl 1 (w - 1).

Definition sf_of (dst : Z) : Z := Z.land (lshift tl dst (8 - w)) CC_S.
Definition zf_of (dst : Z) : Z := b2z (dst =? 0) * CC_Z.
Definition of_of (x : Z) : Z := Z.land (lshift tl x (12 - w)) CC_O.

Definition compute_all_add (dst src1 : Z) : Z :=
  let src2 := wrap w (dst - src1) in
  let cf := b2z (dst <? src1) in
  let pf := parity dst in
  let af := Z.land (Z.lxor (Z.lxor dst src1) src2) CC_A in
  let zf := zf_of dst in
  let sf := sf_of dst in
  let ovf := of_of (Z.land (Z.lxor (Z.lxor src1 src2) (-1)) (Z.lxor src1 dst)) in
  lor6 cf pf af zf sf ovf.

Definition compute_c_add (dst src1 : Z) : Z := b2z (dst <? src1).

Definition compute_all_adc (dst src1 src3 : Z) : Z :=
  let src2 := wrap w (dst - src1 - src3) in
  let cf := b2z (if negb (src3 =? 0) then dst <=? src1 else dst <? src1) in
  let pf := parity dst in
  let af := Z.land (Z.lxor (Z.lxor dst src1) src2) 0x10 in
  let zf := Z.shiftl (b2z (dst =? 0)) 6 in
  let sf := Z.land (lshift tl dst (8 - w)) 0x80 in
  let ovf := of_of (Z.land (Z.lxor (Z.lxor src1 src2) (-1)) (Z.lxor src1 dst)) in
  lor6 cf pf af zf sf ovf.

Definition compute_c_adc (dst src1 src3 : Z) : Z :=
  b2z (if negb (src3 =? 0) then dst <=? src1 else dst <? src1).

Definition compute_all_sub (dst src2 : Z) : Z :=
  let src1 := wrap w (dst + src2) in
  let cf := b2z (src1 <? src2) in
  let pf := parity dst in
  let af := Z.land (Z.lxor (Z.lxor dst src1) src2) CC_A in
  let zf := zf_of dst in
  let sf := sf_of dst in
  let ovf := of_of (Z.land (Z.lxor src1 src2) (Z.lxor src1 dst)) in
  lor6 cf pf af zf sf ovf.

Definition compute_c_sub (dst src2 : Z) : Z :=
  let src1 := wrap w (dst + src2) in b2z (src1 <? src2).

Definition compute_all_sbb (dst src2 src3 : Z) : Z :=
  let src1 := wrap w (dst + src2 + src3) in
  let cf := b2z (if negb (src3 =? 0) then src1 <=? src2 else src1 <? src2) in
  let pf := parity dst in
  let af := Z.land (Z.lxor (Z.lxor dst src1) src2) 0x10 in
  let zf := Z.shiftl (b2z (dst =? 0)) 6 in
  let sf := Z.land (lshift tl dst (8 - w)) 0x80 in
  let ovf := of_of (Z.land (Z.lxor src1 src2) (Z.lxor src1 dst)) in
  lor6 cf pf af zf sf ovf.

Definition compute_c_sbb (dst src2 src3 : Z) : Z :=
  let src1 := wrap w (dst + src2 + src3) in
  b2z (if negb (src3 =? 0) then src1 <=? src2 else src1 <? src2).

Definition compute_all_logic (dst src1 : Z) : Z :=
  lor6 0 (parity dst) 0 (zf_of dst) (sf_of dst) 0.

Definition compute_all_inc (dst src1 : Z) : Z :=
  let cf := src1 in
  let src1 := wrap w (dst - 1) in
  let src2 := 1 in
  let pf := parity dst in
  let af := Z.land (Z.lxor (Z.lxor dst src1) src2) CC_A in
  let ovf := b2z (dst =? SIGN_MASK) * CC_O in
  lor6 cf pf af (zf_of dst) (sf_of dst) ovf.

Definition compute_all_dec (dst src1 : Z) : Z :=
  let cf := src1 in
  let src1 := wrap w (dst + 1) in
  let src2 := 1 in
  let pf := parity dst in
  let af := Z.land (Z.lxor (Z.lxor dst src1) src2) CC_A in
  let ovf := b2z (dst =? SIGN_MASK - 1) * CC_O in
  lor6 cf pf af (zf_of dst) (sf_of dst) ovf.

Definition compute_all_shl (dst src1 : Z) : Z :=
  let cf := Z.land (Z.shiftr src1 (w - 1)) CC_C in
  let ovf := of_of (Z.lxor src1 dst) in
  lor6 cf (parity dst) 0 (zf_of dst) (sf_of dst) ovf.

Definition compute_c_shl (dst src1 : Z) : Z := Z.land (Z.shiftr src1 (w - 1)) CC_C.

Definition compute_all_sar (dst src1 : Z) : Z :=
  let cf := Z.land src1 1 in
  let ovf := of_of (Z.lxor src1 dst) in
  lor6 cf (parity dst) 0 (zf_of dst) (sf_of dst) ovf.

(** [src1] is not truncated to the operand width. *)
Definition compute_all_mul (dst src1 : Z) : Z :=
  let cf := b2z (negb (src1 =? 0)) in
  lor6 cf (parity dst) 0 (zf_of dst) (sf_of dst) (cf * CC_O).

Definition compute_all_bmilg (dst src1 : Z) : Z :=
  lor6 (b2z (src1 =? 0)) 0 0 (zf_of dst) (sf_of dst) 0.

Definition compute_c_bmilg (dst src1 : Z) : Z := b2z (src1 =? 0).
End Template.

(** ** The flags that are kept in place *)

Definition compute_all_adcx (dst src1 src2 : Z) : Z :=
  Z.lor (Z.land src1 (u32 (Z.lnot CC_C))) (u32 (dst * CC_C)).

Definition compute_all_adox (dst src1 src2 : Z) : Z :=
  Z.lor (Z.land src1 (u32 (Z.lnot CC_O))) (u32 (src2 * CC_O)).

Definition compute_all_adcox (dst src1 src2 : Z) : Z :=
  Z.lor (Z.lor (Z.land src1 (u32 (Z.lnot (Z.lor CC_C CC_O)))) (u32 (dst * CC_C))) (u32 (src2 * CC_O)).

(** ** Dispatch on the representation

    An argument of type [target_ulong] is truncated when it is passed to an
    instance for a smaller width. *)

Definition helper_cc_compute_all (dst src1 src2 : Z) (op : CC_OP) : Z :=
  match op with
  | CC_OP_EFLAGS => src1
  | CC_OP_CLR => CC_Z
  | CC_OP_MULB => compute_all_mul 32 8 (wrap 8 dst) (s32 src1)
  | CC_OP_MULW => compute_all_mul 32 16 (wrap 16 dst) (s32 src1)
  | CC_OP_MULL => compute_all_mul 32 32 (wrap 32 dst) (s32 src1)
  | CC_OP_ADDB => compute_all_add 32 8 (wrap 8 dst) (wrap 8 src1)
  | CC_OP_ADDW => compute_all_add 32 16 (wrap 16 dst) (wrap 16 src1)
  | CC_OP_ADDL => compute_all_add 32 32 (wrap 32 dst) (wrap 32 src1)
  | CC_OP_ADCB => compute_all_adc 32 8 (wrap 8 dst) (wrap 8 src1) (wrap 8 src2)
  | CC_OP_ADCW => compute_all_adc 32 16 (wrap 16 dst) (wrap 16 src1) (wrap 16 src2)
  | CC_OP_ADCL => compute_all_adc 32 32 (wrap 32 dst) (wrap 32 src1) (wrap 32 src2)
  | CC_OP_SUBB => compute_all_sub 32 8 (wrap 8 dst) (wrap 8 src1)
  | CC_OP_SUBW => compute_all_sub 32 16 (wrap 16 dst) (wrap 16 src1)
  | CC_OP_SUBL => compute_all_sub 32 32 (wrap 32 dst) (wrap 32 src1)
  | CC_OP_SBBB => compute_all_sbb 32 8 (wrap 8 dst) (wrap 8 src1) (wrap 8 src2)
  | CC_OP_SBBW => compute_all_sbb 32 16 (wrap 16 dst) (wrap 16 src1) (wrap 16 src2)
  | CC_OP_SBBL => compute_all_sbb 32 32 (wrap 32 dst) (wrap 32 src1) (wrap 32 src2)
  | CC_OP_LOGICB => compute_all_logic 32 8 (wrap 8 dst) (wrap 8 src1)
  | CC_OP_LOGICW => compute_all_logic 32 16 (wrap 16 dst) (wrap 16 src1)
  | CC_OP_LOGICL => compute_all_logic 32 32 (wrap 32 dst) (wrap 32 src1)
  | CC_OP_INCB => compute_all_inc 32 8 (wrap 8 dst) (wrap 8 src1)
  | CC_OP_INCW => compute_all_inc 32 16 (wrap 16 dst) (wrap 16 src1)
  | CC_OP_INCL => compute_all_inc 32 32 (wrap 32 dst) (wrap 32 src1)
  | CC_OP_DECB => compute_all_dec 32 8 (wrap 8 dst) (wrap 8 src1)
  | CC_OP_DECW => compute_all_dec 32 16 (wrap 16 dst) (wrap 16 src1)
  | CC_OP_DECL => compute_all_dec 32 32 (wrap 32 dst) (wrap 32 src1)
  | CC_OP_SHLB => compute_all_shl 32 8 (wrap 8 dst) (wrap 8 src1)
  | CC_OP_SHLW => compute_all_shl 32 16 (wrap 16 dst) (wrap 16 src1)
  | CC_OP_SHLL => compute_all_shl 32 32 (wrap 32 dst) (wrap 32 src1)
  | CC_OP_SARB => compute_all_sar 32 8 (wrap 8 dst) (wrap 8 src1)
  | CC_OP_SARW => compute_all_sar 32 16 (wrap 16 dst) (wrap 16 src1)
  | CC_OP_SARL => compute_all_sar 32 32 (wrap 32 dst) (wrap 32 src1)
  | CC_OP_BMILGB => compute_all_bmilg 32 8 (wrap 8 dst) (wrap 8 src1)
  | CC_OP_BMILGW => compute_all_bmilg 32 16 (wrap 16 dst) (wrap 16 src1)
  | CC_OP_BMILGL => compute_all_bmilg 32 32 (wrap 32 dst) (wrap 32 src1)
  | CC_OP_ADCX => compute_all_adcx dst src1 src2
  | CC_OP_ADOX => compute_all_adox dst src1 src2
  | CC_OP_ADCOX => compute_all_adcox dst src1 src2
  | _ => 0   (** should never happen *)
  end.

Definition helper_cc_compute_c (dst src1 src2 : Z) (op : CC_OP) : Z :=
  match op with
  | CC_OP_EFLAGS | CC_OP_SARB | CC_OP_SARW | CC_OP_SARL | CC_OP_SARQ | CC_OP_ADOX => Z.land src1 1
  | CC_OP_INCB | CC_OP_INCW | CC_OP_INCL | CC_OP_INCQ
  | CC_OP_DECB | CC_OP_DECW | CC_OP_DECL | CC_OP_DECQ => src1
  | CC_OP_MULB | CC_OP_MULW | CC_OP_MULL | CC_OP_MULQ => b2z (negb (src1 =? 0))
  | CC_OP_ADCX | CC_OP_ADCOX => dst
  | CC_OP_ADDB => compute_c_add (wrap 8 dst) (wrap 8 src1)
  | CC_OP_ADDW => compute_c_add (wrap 16 dst) (wrap 16 src1)
  | CC_OP_ADDL => compute_c_add (wrap 32 dst) (wrap 32 src1)
  | CC_OP_ADCB => compute_c_adc (wrap 8 dst) (wrap 8 src1) (wrap 8 src2)
  | CC_OP_ADCW => compute_c_adc (wrap 16 dst) (wrap 16 src1) (wrap 16 src2)
  | CC_OP_ADCL => compute_c_adc (wrap 32 dst) (wrap 32 src1) (wrap 32 src2)
  | CC_OP_SUBB => compute_c_sub 8 (wrap 8 dst) (wrap 8 src1)
  | CC_OP_SUBW => compute_c_sub 16 (wrap 16 dst) (wrap 16 src1)
  | CC_OP_SUBL => compute_c_sub 32 (wrap 32 dst) (wrap 32 src1)
  | CC_OP_SBBB => compute_c_sbb 8 (wrap 8 dst) (wrap 8 src1) (wrap 8 src2)
  | CC_OP_SBBW => compute_c_sbb 16 (wrap 16 dst) (wrap 16 src1) (wrap 16 src2)
  | CC_OP_SBBL => compute_c_sbb 32 (wrap 32 dst) (wrap 32 src1) (wrap 32 src2)
  | CC_OP_SHLB => compute_c_shl 8 (wrap 8 dst) (wrap 8 src1)
  | CC_OP_SHLW => compute_c_shl 16 (wrap 16 dst) (wrap 16 src1)
  | CC_OP_SHLL => compute_c_shl 32 (wrap 32 dst) (wrap 32 src1)
  | CC_OP_BMILGB => compute_c_bmilg (wrap 8 dst) (wrap 8 src1)
  | CC_OP_BMILGW => compute_c_bmilg (wrap 16 dst) (wrap 16 src1)
  | CC_OP_BMILGL => compute_c_bmilg (wrap 32 dst) (wrap 32 src1)
  | _ => 0
  end.

(** ** Eflags *)

Definition cpu_cc_compute_all (env : CPUX86State) (op : CC_OP) : Z :=
  helper_cc_compute_all (cc_dst env) (cc_src env) (cc_src2 env) op.

Definition cpu_compute_eflags (env : CPUX86State) : Z :=
  Z.lor (Z.lor (eflags env) (cpu_cc_compute_all env (cc_op env))) (u32 (Z.land (df env) DF_MASK)).

Definition CC_ALL : Z := Z.lor (Z.lor (Z.lor (Z.lor (Z.lor CC_O CC_S) CC_Z) CC_A) CC_P) CC_C.

Definition cpu_load_eflags (fl update_mask : Z) (env : CPUX86State) : CPUX86State :=
  let env := with_cc_src (u32 (Z.land fl CC_ALL)) env in
  let env := with_df (1 - 2 * Z.land (Z.shiftr fl 10) 1) env in
  with_eflags (Z.lor (Z.lor (Z.land (eflags env) (u32 (Z.lnot update_mask)))
                            (u32 (Z.land fl update_mask))) 0x2) env.

Definition helper_write_eflags (t0 update_mask : Z) (env : CPUX86State) : CPUX86State :=
  cpu_load_eflags t0 update_mask env.

Definition helper_read_eflags (env : CPUX86State) : Z :=
  let fl := cpu_cc_compute_all env (cc_op env) in
  let fl := Z.lor fl (u32 (Z.land (df env) DF_MASK)) in
  Z.lor fl (Z.land (eflags env) (u32 (Z.lnot (Z.lor VM_MASK RF_MASK)))).

Definition helper_clts (env : CPUX86State) : CPUX86State :=
  let env := with_cr (<[0%nat := Z.land (nth 0 (cr env) 0) (u32 (Z.lnot CR0_TS_MASK))]> (cr env)) env in
  with_hflags (Z.land (hflags env) (u32 (Z.lnot HF_TS_MASK))) env.

Definition eflags_clear (mask : Z) (env : CPUX86State) : CPUX86State :=
  with_eflags (Z.land (eflags env) (u32 (Z.lnot mask))) env.
Definition eflags_set (mask : Z) (env : CPUX86State) : CPUX86State :=
  with_eflags (Z.lor (eflags env) mask) env.

Definition helper_reset_rf : CPUX86State -> CPUX86State := eflags_clear RF_MASK.
Definition helper_cli : CPUX86State -> CPUX86State := eflags_clear IF_MASK.
Definition helper_sti : CPUX86State -> CPUX86State := eflags_set IF_MASK.
Definition helper_clac : CPUX86State -> CPUX86State := eflags_clear AC_MASK.
Definition helper_stac : CPUX86State -> CPUX86State := eflags_set AC_MASK.

Definition helper_set_inhibit_irq (env : CPUX86State) : CPUX86State :=
  with_hflags (Z.lor (hflags env) HF_INHIBIT_IRQ_MASK) env.
Definition helper_reset_inhibit_irq (env : CPUX86State) : CPUX86State :=
  with_hflags (Z.land (hflags env) (u32 (Z.lnot HF_INHIBIT_IRQ_MASK))) env.

(** ** The architecture's definition of the flags *)

Record aflags : Type := mkFlags { f_c : bool; f_p : bool; f_a : bool; f_z : bool; f_s : bool; f_o : bool }.

(** Their places in eflags. *)
Definition pack (f : aflags) : Z :=
  lor6 (b2z (f_c f)) (b2z (f_p f) * CC_P) (b2z (f_a f) * CC_A) (b2z (f_z f) * CC_Z)
    (b2z (f_s f) * CC_S) (b2z (f_o f) * CC_O).

(** The number of ones in the low byte is even. *)
Fixpoint ones (n : nat) (x : Z) : nat :=
  match n with O => 0%nat | S n' => ((if Z.testbit x (Z.of_nat n') then 1 else 0) + ones n' x)%nat end.
Definition even_parity (x : Z) : bool := Nat.even (ones 8 x).

(** [v] is not a [w]-bit signed number. *)
Definition overflows (w v : Z) : bool := (v <? - 2 ^ (w - 1)) || (2 ^ (w - 1) <=? v).

(** The flags of [a + b + c] on [w] bits. *)
Definition add_flags (w a b c : Z) : aflags :=
  let r := wrap w (a + b + c) in
  mkFlags (2 ^ w <=? a + b + c) (even_parity r) (16 <=? a mod 16 + b mod 16 + c) (r =? 0)
    (2 ^ (w - 1) <=? r) (overflows w (sext w a + sext w b + c)).

(** The flags of [a - b - c] on [w] bits. *)
Definition sub_flags (w a b c : Z) : aflags :=
  let r := wrap w (a - b - c) in
  mkFlags (a <? b + c) (even_parity r) (a mod 16 <? b mod 16 + c) (r =? 0)
    (2 ^ (w - 1) <=? r) (overflows w (sext w a - sext w b - c)).

(** ** The parts of the computation *)

Lemma parity_ok x : parity x = b2z (even_parity x) * CC_P.
Proof.
  assert (forall n, (n < 256)%nat ->
    nth n parity_table 0 = b2z (even_parity (Z.of_nat n)) * CC_P) as Ht.
  { assert (forallb (fun n => nth n parity_table 0 =? b2z (even_parity (Z.of_nat n)) * CC_P) (seq 0 256)
      = true) as Hall by by vm_compute.
    rewrite forallb_forall in Hall. intros n Hn. apply Z.eqb_eq, Hall, in_seq. lia. }
  unfold parity. pose proof (u8_range x) as Hr. change (2 ^ 8) with 256 in Hr.
  rewrite Ht by (apply Nat2Z.inj_lt; rewrite Z2Nat.id by lia; lia).
  rewrite Z2Nat.id by lia. f_equal. f_equal. unfold even_parity, u8. f_equal.
  assert (forall n, (n <= 8)%nat -> ones n (wrap 8 x) = ones n x) as Ho; [|by apply Ho].
  induction n as [|n IH]; [done|]. intros Hn. cbn [ones]. rewrite testbit_wrap by lia. rewrite IH by lia. done.
Qed.

Section Parts.
Context (tl w : Z) (Hw : 8 <= w <= tl) (Htl : 12 <= tl).

Lemma lshift_bit x n i :
  0 <= i < tl -> 0 <= i - n < tl -> Z.testbit (lshift tl x n) i = Z.testbit x (i - n).
Proof.
  intros Hi Hin. unfold lshift. destruct (Z.leb_spec 0 n).
  - rewrite testbit_sext, Z.shiftl_spec by lia. by apply testbit_sext.
  - rewrite Z.shiftr_spec by lia. replace (i + - n) with (i - n) by lia. by apply testbit_sext.
Qed.

Lemma sf_ok r : in_range w r -> sf_of tl w r = b2z (2 ^ (w - 1) <=? r) * CC_S.
Proof.
  intros Hr. unfold sf_of. change CC_S with (2 ^ 7). rewrite land_bit, lshift_bit by lia.
  replace (7 - (8 - w)) with (w - 1) by lia. by rewrite testbit_msb by (done || lia).
Qed.

Lemma of_ok x : of_of tl w x = b2z (Z.testbit x (w - 1)) * CC_O.
Proof.
  unfold of_of. change CC_O with (2 ^ 11). rewrite land_bit, lshift_bit by lia.
  by replace (11 - (12 - w)) with (w - 1) by lia.
Qed.

Lemma pow_split : 2 ^ w = 2 * 2 ^ (w - 1) /\ 0 < 2 ^ (w - 1).
Proof.
  split; [rewrite <-Z.pow_succ_r by lia; f_equal; lia|]. apply Z.pow_pos_nonneg; lia.
Qed.

Lemma sext_in_range x : in_range w x -> sext w x = if 2 ^ (w - 1) <=? x then x - 2 ^ w else x.
Proof.
  intros Hx. unfold sext. rewrite wrap_id by done.
  destruct (Z.ltb_spec x (2 ^ (w - 1))), (Z.leb_spec (2 ^ (w - 1)) x); lia.
Qed.

(** A sum with carry, truncated: what it loses is the carry. *)
Lemma wrap_sum a b c :
  in_range w a -> in_range w b -> 0 <= c <= 1 ->
  wrap w (a + b + c) = if 2 ^ w <=? a + b + c then a + b + c - 2 ^ w else a + b + c.
Proof.
  intros Ha Hb Hc. unfold wrap. destruct (Z.leb_spec (2 ^ w) (a + b + c)).
  - symmetry. apply (Z.mod_unique _ _ 1); lia.
  - apply Z.mod_small. lia.
Qed.

Lemma adc_bits a b c :
  in_range w a -> in_range w b -> 0 <= c <= 1 ->
  let r := wrap w (a + b + c) in
  Z.land (Z.lxor (Z.lxor r a) b) CC_A = b2z (16 <=? a mod 16 + b mod 16 + c) * CC_A /\
  of_of tl w (Z.land (Z.lxor (Z.lxor a b) (-1)) (Z.lxor a r)) =
    b2z (overflows w (sext w a + sext w b + c)) * CC_O.
Proof.
  intros Ha Hb Hc r. split.
  - change CC_A with (2 ^ 4). rewrite land_bit by done. f_equal. f_equal.
    rewrite !Z.lxor_spec. subst r. rewrite testbit_wrap, testbit_add_carry by lia.
    change (2 ^ 4) with 16. by destruct (Z.testbit a 4), (Z.testbit b 4), (16 <=? _).
  - rewrite of_ok. f_equal. f_equal. rewrite Z.land_spec, !Z.lxor_spec, Z.bits_m1 by lia.
    assert (in_range w r) as Hr by (apply wrap_range; lia).
    rewrite !testbit_msb by (done || lia). subst r. rewrite !sext_in_range, wrap_sum in * by done.
    destruct pow_split as [Hp Hp0]. unfold overflows. rewrite Hp in *. set (H := 2 ^ (w - 1)) in *.
    zcase; simpl; done || lia.
Qed.

Lemma compute_all_adc_ok a b c :
  in_range w a -> in_range w b -> 0 <= c <= 1 ->
  compute_all_adc tl w (wrap w (a + b + c)) a c = pack (add_flags w a b c).
Proof.
  intros Ha Hb Hc. destruct (adc_bits a b c Ha Hb Hc) as [Haf Hof].
  assert (in_range w (wrap w (a + b + c))) as Hr by (apply wrap_range; lia).
  unfold compute_all_adc, pack, add_flags. cbn [f_c f_p f_a f_z f_s f_o].
  assert (wrap w (wrap w (a + b + c) - a - c) = b) as ->.
  { unfold wrap. rewrite <-Z.sub_add_distr, Zminus_mod_idemp_l.
    replace (a + b + c - (a + c)) with b by lia. by apply Z.mod_small. }
  f_equal.
  - f_equal. rewrite wrap_sum by done. destruct pow_split.
    destruct (Z.eqb_spec c 0); simpl; zcase; done || lia.
  - apply parity_ok.
  - exact Haf.
  - unfold CC_Z. by destruct (_ =? 0).
  - by apply sf_ok.
  - exact Hof.
Qed.

(** A difference with borrow, truncated: what it gains is the borrow. *)
Lemma wrap_diff a b c :
  in_range w a -> in_range w b -> 0 <= c <= 1 ->
  wrap w (a - b - c) = if a <? b + c then a - b - c + 2 ^ w else a - b - c.
Proof.
  intros Ha Hb Hc. unfold wrap. destruct (Z.ltb_spec a (b + c)).
  - symmetry. apply (Z.mod_unique _ _ (-1)); lia.
  - apply Z.mod_small. lia.
Qed.

Lemma undo_diff a b c : in_range w a -> wrap w (wrap w (a - b - c) + b + c) = a.
Proof.
  intros Ha. unfold wrap. rewrite <-Z.add_assoc, Zplus_mod_idemp_l.
  replace (a - b - c + (b + c)) with a by lia. by apply Z.mod_small.
Qed.

Lemma wrap_mod16 x : wrap w x mod 16 = x mod 16.
Proof.
  unfold wrap. replace (2 ^ w) with (16 * 2 ^ (w - 4)).
  2: { change 16 with (2 ^ 4). rewrite <-Z.pow_add_r by lia. f_equal. lia. }
  rewrite Z.rem_mul_r by (try apply Z.pow_nonzero; try apply Z.pow_pos_nonneg; lia).
  rewrite Z.mul_comm, Z.mod_add by done. by rewrite Z.mod_mod.
Qed.

Lemma sbb_bits a b c :
  in_range w a -> in_range w b -> 0 <= c <= 1 ->
  let r := wrap w (a - b - c) in
  Z.land (Z.lxor (Z.lxor r a) b) CC_A = b2z (a mod 16 <? b mod 16 + c) * CC_A /\
  of_of tl w (Z.land (Z.lxor a b) (Z.lxor a r)) =
    b2z (overflows w (sext w a - sext w b - c)) * CC_O.
Proof.
  intros Ha Hb Hc r. split.
  - change CC_A with (2 ^ 4). rewrite land_bit by done. f_equal. f_equal.
    rewrite !Z.lxor_spec.
    assert (Z.testbit a 4 = Z.testbit (r + b + c) 4) as ->.
    { rewrite <-(undo_diff a b c Ha) at 1. by rewrite testbit_wrap by lia. }
    rewrite testbit_add_carry by lia.
    pose proof (Z.mod_pos_bound r 16 ltac:(lia)). pose proof (Z.mod_pos_bound a 16 ltac:(lia)).
    assert (a mod 16 = (r mod 16 + b mod 16 + c) mod 16) as Hm.
    { rewrite <-(undo_diff a b c Ha) at 1. rewrite wrap_mod16. fold r. Z.to_euclidean_division_equations; lia. }
    assert ((a mod 16 <? b mod 16 + c) = (16 <=? r mod 16 + b mod 16 + c)) as ->.
    { Z.to_euclidean_division_equations; zcase; lia. }
    change (2 ^ 4) with 16. by destruct (Z.testbit r 4), (Z.testbit b 4), (16 <=? _).
  - rewrite of_ok. f_equal. f_equal. rewrite Z.land_spec, !Z.lxor_spec by lia.
    assert (in_range w r) as Hr by (apply wrap_range; lia).
    rewrite !testbit_msb by (done || lia). subst r. rewrite !sext_in_range, wrap_diff in * by done.
    destruct pow_split as [Hp Hp0]. unfold overflows. rewrite Hp in *. set (H := 2 ^ (w - 1)) in *.
    zcase; simpl; done || lia.
Qed.

Lemma compute_all_sbb_ok a b c :
  in_range w a -> in_range w b -> 0 <= c <= 1 ->
  compute_all_sbb tl w (wrap w (a - b - c)) b c = pack (sub_flags w a b c).
Proof.
  intros Ha Hb Hc. destruct (sbb_bits a b c Ha Hb Hc) as [Haf Hof].
  assert (in_range w (wrap w (a - b - c))) as Hr by (apply wrap_range; lia).
  unfold compute_all_sbb, pack, sub_flags. cbn [f_c f_p f_a f_z f_s f_o].
  rewrite undo_diff by done. f_equal.
  - f_equal. destruct (Z.eqb_spec c 0); simpl; zcase; done || lia.
  - apply parity_ok.
  - exact Haf.
  - unfold CC_Z. by destruct (_ =? 0).
  - by apply sf_ok.
  - exact Hof.
Qed.

(** Without a carry: the instances for [ADD] and [SUB]. *)
Lemma compute_all_add_adc dst src1 : compute_all_add tl w dst src1 = compute_all_adc tl w dst src1 0.
Proof.
  unfold compute_all_add, compute_all_adc, zf_of, CC_Z. rewrite Z.sub_0_r. by destruct (dst =? 0).
Qed.
Lemma compute_all_sub_sbb dst src2 : compute_all_sub tl w dst src2 = compute_all_sbb tl w dst src2 0.
Proof.
  unfold compute_all_sub, compute_all_sbb, zf_of, CC_Z. rewrite Z.add_0_r. by destruct (dst =? 0).
Qed.

(** [INC] and [DEC] keep the carry flag, which the emulator passes in [src1]. *)
Definition keep_carry (cf : bool) (f : aflags) : aflags :=
  mkFlags cf (f_p f) (f_a f) (f_z f) (f_s f) (f_o f).

Lemma SIGN_MASK_pow : SIGN_MASK w = 2 ^ (w - 1).
Proof. unfold SIGN_MASK. rewrite Z.shiftl_mul_pow2 by lia. lia. Qed.

Lemma one_in_range : in_range w 1.
Proof. destruct pow_split. pose proof (Z.pow_le_mono_r 2 7 (w - 1)). lia. Qed.

Lemma compute_all_inc_ok a cf :
  in_range w a ->
  compute_all_inc tl w (wrap w (a + 1)) (b2z cf) = pack (keep_carry cf (add_flags w a 1 0)).
Proof.
  intros Ha. pose proof one_in_range as H1.
  destruct (adc_bits a 1 0 Ha H1 ltac:(lia)) as [Haf _]. rewrite !Z.add_0_r in Haf.
  assert (in_range w (wrap w (a + 1))) as Hr by (apply wrap_range; lia).
  unfold compute_all_inc, pack, keep_carry, add_flags. cbn [f_c f_p f_a f_z f_s f_o].
  rewrite !Z.add_0_r.
  assert (wrap w (wrap w (a + 1) - 1) = a) as ->.
  { unfold wrap. rewrite Zminus_mod_idemp_l. replace (a + 1 - 1) with a by lia. by apply Z.mod_small. }
  f_equal; [apply parity_ok|exact Haf|by apply sf_ok|].
  f_equal. f_equal. rewrite SIGN_MASK_pow, !sext_in_range by done.
  pose proof (wrap_sum a 1 0 Ha H1 ltac:(lia)) as Hs. rewrite Z.add_0_r in Hs. rewrite Hs.
  destruct pow_split as [Hp Hp0]. pose proof (Z.pow_le_mono_r 2 7 (w - 1)). unfold overflows. rewrite Hp in *.
  zcase; simpl; done || lia.
Qed.

Lemma compute_all_dec_ok a cf :
  in_range w a ->
  compute_all_dec tl w (wrap w (a - 1)) (b2z cf) = pack (keep_carry cf (sub_flags w a 1 0)).
Proof.
  intros Ha. pose proof one_in_range as H1.
  destruct (sbb_bits a 1 0 Ha H1 ltac:(lia)) as [Haf _]. rewrite Z.sub_0_r, Z.add_0_r in Haf.
  assert (in_range w (wrap w (a - 1))) as Hr by (apply wrap_range; lia).
  unfold compute_all_dec, pack, keep_carry, sub_flags. cbn [f_c f_p f_a f_z f_s f_o].
  rewrite !Z.sub_0_r, ?Z.add_0_r.
  assert (wrap w (wrap w (a - 1) + 1) = a) as ->.
  { unfold wrap. rewrite Zplus_mod_idemp_l. replace (a - 1 + 1) with a by lia. by apply Z.mod_small. }
  f_equal; [apply parity_ok|exact Haf|by apply sf_ok|].
  f_equal. f_equal. rewrite SIGN_MASK_pow, !sext_in_range by done.
  pose proof (wrap_diff a 1 0 Ha H1 ltac:(lia)) as Hs. rewrite Z.sub_0_r, Z.add_0_r in Hs. rewrite Hs.
  destruct pow_split as [Hp Hp0]. pose proof (Z.pow_le_mono_r 2 7 (w - 1)). unfold overflows. rewrite Hp in *.
  zcase; simpl; done || lia.
Qed.
End Parts.

(** ** Sets of flags *)

(** The ones of [x] are ones of [m]. *)
Definition within (m x : Z) : Prop := Z.land x m = x.

Lemma within_lor m x y : within m x -> within m y -> within m (Z.lor x y).
Proof. unfold within. rewrite Z.land_lor_distr_l. by intros -> ->. Qed.

Lemma within_land_r m x k : within m k -> within m (Z.land x k).
Proof. unfold within. intros Hk. by rewrite <-Z.land_assoc, Hk. Qed.

Lemma within_land_l m x k : within m x -> within m (Z.land x k).
Proof. rewrite Z.land_comm. apply within_land_r. Qed.

Lemma within_b2z m b k : within m k -> within m (b2z b * k).
Proof. unfold within. destruct b; [by rewrite Z.mul_1_l|done]. Qed.

Lemma within_bit m b : within m 1 -> within m (b2z b).
Proof. by destruct b. Qed.

Lemma within_parity m x : within m CC_P -> within m (parity x).
Proof. rewrite parity_ok. apply within_b2z. Qed.

Lemma within_zf m x : within m CC_Z -> within m (Z.shiftl (b2z x) 6).
Proof. by destruct x. Qed.

Lemma within_disjoint m k x : within m x -> Z.land m k = 0 -> Z.land x k = 0.
Proof. unfold within. intros <- Hk. by rewrite <-Z.land_assoc, Hk, Z.land_0_r. Qed.

Create HintDb flags discriminated.
#[export] Hint Resolve within_lor within_land_r within_b2z within_bit within_parity within_zf : flags.
#[export] Hint Extern 0 (within _ _) => reflexivity : flags.

(** ** Representations of the condition codes

    What the translator leaves in [cc_src] and [cc_dst] for the
    representations that keep flags in place; the 64-bit ones do not occur. *)

Definition is_bit (x : Z) : Prop := x = 0 \/ x = 1.

Definition cc_ok (dst src1 src2 : Z) (op : CC_OP) : Prop :=
  in_range 32 dst /\ in_range 32 src1 /\ in_range 32 src2 /\
  match op with
  | CC_OP_EFLAGS => within CC_ALL src1
  | CC_OP_INCB | CC_OP_INCW | CC_OP_INCL | CC_OP_DECB | CC_OP_DECW | CC_OP_DECL => is_bit src1
  | CC_OP_ADCX => within CC_ALL src1 /\ is_bit dst
  | CC_OP_ADOX => within CC_ALL src1 /\ is_bit src2
  | CC_OP_ADCOX => within CC_ALL src1 /\ is_bit dst /\ is_bit src2
  | CC_OP_MULQ | CC_OP_ADDQ | CC_OP_ADCQ | CC_OP_SUBQ | CC_OP_SBBQ | CC_OP_LOGICQ
  | CC_OP_INCQ | CC_OP_DECQ | CC_OP_SHLQ | CC_OP_SARQ | CC_OP_BMILGQ => False
  | _ => True
  end.

Lemma is_bit_b2z x : is_bit x -> exists b, x = b2z b.
Proof. intros [->| ->]; [by exists false|by exists true]. Qed.

Lemma wrap_b2z w b : 1 <= w -> wrap w (b2z b) = b2z b.
Proof.
  intros Hw. apply wrap_id. pose proof (Z.pow_le_mono_r 2 1 w ltac:(lia) Hw). destruct b; simpl; lia.
Qed.

Lemma is_bit_wrap w x : 1 <= w -> is_bit x -> wrap w x = x.
Proof. intros Hw (b & ->)%is_bit_b2z. by apply wrap_b2z. Qed.

Lemma is_bit_within m x : is_bit x -> within m 1 -> within m x.
Proof. by intros (b & ->)%is_bit_b2z ?; apply within_bit. Qed.

Lemma is_bit_flag m x k : is_bit x -> 0 <= k < 2 ^ 32 -> within m k -> within m (u32 (x * k)).
Proof.
  intros (b & ->)%is_bit_b2z Hk ?. unfold u32. rewrite wrap_id; [by apply within_b2z|].
  destruct b; simpl; lia.
Qed.

(** Every representation yields a set of the six flags. *)
Lemma compute_all_within dst src1 src2 op :
  cc_ok dst src1 src2 op -> within CC_ALL (helper_cc_compute_all dst src1 src2 op).
Proof.
  intros (_ & _ & _ & H). destruct op; try done; simpl in *; destr_hyps;
  unfold compute_all_mul, compute_all_add, compute_all_adc, compute_all_sub, compute_all_sbb,
    compute_all_logic, compute_all_inc, compute_all_dec, compute_all_shl, compute_all_sar, compute_all_bmilg,
    compute_all_adcx, compute_all_adox, compute_all_adcox,
    lor6, zf_of, sf_of, of_of; cbv zeta; try rewrite is_bit_wrap by (done || lia);
  repeat apply within_lor; auto using within_land_l, is_bit_within, is_bit_flag with flags.
  all: try by apply is_bit_within.
  all: by apply is_bit_flag.
Qed.

Lemma land_lor_other x y k : within (Z.lnot k) y -> Z.land (Z.lor x y) k = Z.land x k.
Proof.
  intros Hy. rewrite Z.land_lor_distr_l, (within_disjoint _ _ _ Hy), Z.lor_0_r; [done|].
  rewrite Z.land_comm. apply Z.land_lnot_diag.
Qed.

Lemma carry_lor6 cf pf af zf sf ovf :
  within (Z.lnot CC_C) pf -> within (Z.lnot CC_C) af -> within (Z.lnot CC_C) zf ->
  within (Z.lnot CC_C) sf -> within (Z.lnot CC_C) ovf ->
  Z.land (lor6 cf pf af zf sf ovf) CC_C = Z.land cf CC_C.
Proof. intros. unfold lor6. by rewrite !land_lor_other. Qed.

Lemma land_bit0 b : Z.land (b2z b) CC_C = b2z b.
Proof. by destruct b. Qed.

Lemma s32_zero x : in_range 32 x -> (s32 x =? 0) = (x =? 0).
Proof.
  intros Hx. unfold s32. rewrite (sext_in_range 32) by done.
  change (2 ^ 32) with 4294967296 in *. change (2 ^ (32 - 1)) with 2147483648. zcase; lia.
Qed.

Lemma wrap_land1 w x : 1 <= w -> Z.land (wrap w x) 1 = Z.land x 1.
Proof. intros Hw. change 1 with (2 ^ 0). by rewrite !land_bit, testbit_wrap by lia. Qed.

(** The short computation of the carry. *)
Lemma compute_c_agrees dst src1 src2 op :
  cc_ok dst src1 src2 op ->
  helper_cc_compute_c dst src1 src2 op = Z.land (helper_cc_compute_all dst src1 src2 op) CC_C.
Proof.
  intros (Hd & H1 & H2 & H). destruct op; try done; simpl in *; destr_hyps;
  unfold compute_all_mul, compute_all_add, compute_all_adc, compute_all_sub, compute_all_sbb,
    compute_all_logic, compute_all_inc, compute_all_dec, compute_all_shl, compute_all_sar, compute_all_bmilg,
    compute_all_adcx, compute_all_adox, compute_all_adcox,
    compute_c_add, compute_c_adc, compute_c_sub, compute_c_sbb, compute_c_shl, compute_c_bmilg; cbv zeta.
  all: try rewrite (carry_lor6 _ (parity _)) by (unfold zf_of, sf_of, of_of; auto with flags).
  all: try rewrite (carry_lor6 _ 0 0) by (unfold zf_of, sf_of, of_of; auto with flags).
  all: try done; try (by rewrite land_bit0); try (by rewrite <-Z.land_assoc).
  all: try (by rewrite s32_zero, land_bit0).
  all: try (rewrite is_bit_wrap by (done || lia); by destruct H as [->| ->]).
  all: try (by rewrite <-Z.land_assoc, wrap_land1).
  all: rewrite !Z.land_lor_distr_l, <-Z.land_assoc.
  - destruct H0 as [->| ->]; by rewrite Z.land_0_r.
  - destruct H0 as [->| ->]; by rewrite Z.lor_0_r.
  - destruct H0 as [->| ->], H3 as [->| ->]; by rewrite Z.land_0_r.
Qed.

(** ** Arithmetic through the helper

    The translator adds the 32-bit temporaries and stores the sum, the second
    operand and the carry; the operation is on the low bits of the operands. *)

Inductive opsize : Type := SzB | SzW | SzL.
Definition bits (sz : opsize) : Z := match sz with SzB => 8 | SzW => 16 | SzL => 32 end.
Definition of_size {A} (b w l : A) (sz : opsize) : A := match sz with SzB => b | SzW => w | SzL => l end.

Definition cc_add := of_size CC_OP_ADDB CC_OP_ADDW CC_OP_ADDL.
Definition cc_adc := of_size CC_OP_ADCB CC_OP_ADCW CC_OP_ADCL.
Definition cc_sub := of_size CC_OP_SUBB CC_OP_SUBW CC_OP_SUBL.
Definition cc_sbb := of_size CC_OP_SBBB CC_OP_SBBW CC_OP_SBBL.
Definition cc_inc := of_size CC_OP_INCB CC_OP_INCW CC_OP_INCL.
Definition cc_dec := of_size CC_OP_DECB CC_OP_DECW CC_OP_DECL.

Lemma bits_range sz : 8 <= bits sz <= 32.
Proof. destruct sz; simpl; lia. Qed.

Lemma wrap_wrap w v x : 0 <= w <= v -> wrap w (wrap v x) = wrap w x.
Proof.
  intros Hw. unfold wrap. symmetry. replace v with (w + (v - w)) by lia.
  rewrite Z.pow_add_r by lia. rewrite Z.rem_mul_r by (try apply Z.pow_nonzero; try apply Z.pow_pos_nonneg; lia).
  rewrite Z.mul_comm, Z.mod_add by (apply Z.pow_nonzero; lia). by rewrite Z.mod_mod by (apply Z.pow_nonzero; lia).
Qed.

Lemma wrap_add_parts w x y c : 0 <= w -> wrap w (wrap w x + wrap w y + c) = wrap w (x + y + c).
Proof.
  intros Hw. unfold wrap. rewrite <-!Z.add_assoc, Zplus_mod_idemp_l.
  rewrite !Z.add_assoc, (Z.add_comm x), <-!Z.add_assoc, Zplus_mod_idemp_l. f_equal. lia.
Qed.

Lemma wrap_sub_parts w x y c : 0 <= w -> wrap w (wrap w x - wrap w y - c) = wrap w (x - y - c).
Proof.
  intros Hw. unfold wrap. rewrite <-!Z.sub_add_distr, Zminus_mod_idemp_l.
  replace (x - (y mod 2 ^ w + c)) with (x - c - y mod 2 ^ w) by lia. rewrite Zminus_mod_idemp_r. f_equal. lia.
Qed.

Lemma add_flags_comm w a b c : add_flags w a b c = add_flags w b a c.
Proof.
  unfold add_flags. by rewrite (Z.add_comm a b), (Z.add_comm (a mod 16)), (Z.add_comm (sext w a)).
Qed.

Lemma adc_through sz x y cf :
  compute_all_adc 32 (bits sz) (wrap (bits sz) (u32 (x + y + b2z cf))) (wrap (bits sz) y) (b2z cf) =
  pack (add_flags (bits sz) (wrap (bits sz) x) (wrap (bits sz) y) (b2z cf)).
Proof.
  pose proof (bits_range sz). unfold u32. rewrite wrap_wrap, add_flags_comm by lia.
  rewrite (Z.add_comm x y), <-wrap_add_parts by lia.
  apply compute_all_adc_ok; try lia; try (apply wrap_range; lia). destruct cf; simpl; lia.
Qed.

Lemma sbb_through sz x y cf :
  compute_all_sbb 32 (bits sz) (wrap (bits sz) (u32 (x - y - b2z cf))) (wrap (bits sz) y) (b2z cf) =
  pack (sub_flags (bits sz) (wrap (bits sz) x) (wrap (bits sz) y) (b2z cf)).
Proof.
  pose proof (bits_range sz). unfold u32. rewrite wrap_wrap, <-wrap_sub_parts by lia.
  apply compute_all_sbb_ok; try lia; try (apply wrap_range; lia). destruct cf; simpl; lia.
Qed.

Lemma inc_through sz x cf :
  compute_all_inc 32 (bits sz) (wrap (bits sz) (u32 (x + 1))) (b2z cf) =
  pack (keep_carry cf (add_flags (bits sz) (wrap (bits sz) x) 1 0)).
Proof.
  pose proof (bits_range sz). unfold u32. rewrite wrap_wrap by lia.
  rewrite <-(compute_all_inc_ok 32) by (lia || (apply wrap_range; lia)). f_equal.
  unfold wrap. by rewrite Zplus_mod_idemp_l.
Qed.

Lemma dec_through sz x cf :
  compute_all_dec 32 (bits sz) (wrap (bits sz) (u32 (x - 1))) (b2z cf) =
  pack (keep_carry cf (sub_flags (bits sz) (wrap (bits sz) x) 1 0)).
Proof.
  pose proof (bits_range sz). unfold u32. rewrite wrap_wrap by lia.
  rewrite <-(compute_all_dec_ok 32) by (lia || (apply wrap_range; lia)). f_equal.
  unfold wrap. by rewrite Zminus_mod_idemp_l.
Qed.

(** ** Eflags as stored and as read *)

(** No arithmetic flag and no direction flag is kept in [eflags], and bit 1 is set. *)
Definition eflags_ok (env : CPUX86State) : Prop :=
  in_range 32 (eflags env) /\ Z.land (eflags env) (Z.lor CC_ALL DF_MASK) = 0 /\ Z.testbit (eflags env) 1 = true /\
  (df env = 1 \/ df env = -1) /\ cc_ok (cc_dst env) (cc_src env) (cc_src2 env) (cc_op env).

(** What [popf] and [iret] do after loading the flags: the representation
    becomes the flags themselves. *)
Definition load_eflags (fl update_mask : Z) (env : CPUX86State) : CPUX86State :=
  with_cc_op CC_OP_EFLAGS (helper_write_eflags fl update_mask env).

Lemma df_bit env : df env = 1 \/ df env = -1 ->
  u32 (Z.land (df env) DF_MASK) = b2z (df env =? -1) * DF_MASK.
Proof. by intros [-> | ->]. Qed.

Lemma testbit_lnot_wrap m i : 0 <= i < 32 -> Z.testbit (u32 (Z.lnot m)) i = negb (Z.testbit m i).
Proof. intros Hi. unfold u32. rewrite testbit_wrap, Z.lnot_spec by lia. done. Qed.

Lemma testbit_high w x i : 0 <= w <= i -> in_range w x -> Z.testbit x i = false.
Proof.
  intros Hi Hx. rewrite <-(wrap_id w x Hx). unfold wrap. by apply Z.mod_pow2_bits_high.
Qed.

Lemma in_range_lor x y : in_range 32 x -> in_range 32 y -> in_range 32 (Z.lor x y).
Proof.
  intros Hx Hy. rewrite <-(wrap_id 32 x Hx), <-(wrap_id 32 y Hy).
  assert (Z.lor (wrap 32 x) (wrap 32 y) = wrap 32 (Z.lor x y)) as ->; [|by apply wrap_range].
  apply Z.bits_inj'. intros i Hi. rewrite Z.lor_spec. unfold wrap. destruct (Z.lt_ge_cases i 32).
  - by rewrite !Z.mod_pow2_bits_low, Z.lor_spec by lia.
  - by rewrite !Z.mod_pow2_bits_high by lia.
Qed.

Lemma in_range_within m x : in_range 32 m -> within m x -> in_range 32 x.
Proof.
  intros Hm Hx. assert (0 <= x <= m); [|lia]. apply Z.ldiff_le; [lia|].
  unfold within in Hx. by rewrite Z.ldiff_land, <-Hx, <-Z.land_assoc, Z.land_lnot_diag, Z.land_0_r.
Qed.

(** The three parts the flags are assembled from. *)
Lemma compute_eflags_parts env :
  eflags_ok env ->
  exists cc d : Z,
    cpu_cc_compute_all env (cc_op env) = cc /\ in_range 32 cc /\ within CC_ALL cc /\
    d = b2z (df env =? -1) /\ df env = 1 - 2 * d /\
    cpu_compute_eflags env = Z.lor (Z.lor (eflags env) cc) (d * DF_MASK).
Proof.
  intros (He & Hd & Hb & Hdf & Hcc). eexists _, _. split; [done|].
  pose proof (compute_all_within _ _ _ _ Hcc).
  split; [by apply (in_range_within CC_ALL)|]. split; [done|]. split; [done|].
  split; [by destruct Hdf as [-> | ->]|]. unfold cpu_compute_eflags. by rewrite df_bit by done.
Qed.

Lemma compute_eflags_range env : eflags_ok env -> in_range 32 (cpu_compute_eflags env).
Proof.
  intros Hok. destruct (compute_eflags_parts env Hok) as (cc & d & _ & Hcc & _ & Hd & _ & ->).
  destruct Hok as (He & _). apply in_range_lor; [by apply in_range_lor|]. rewrite Hd. by destruct (_ =? _).
Qed.

(** Loading the flags that were read leaves the arithmetic flags and the
    direction where they were. *)
Lemma load_eflags_parts env mask cc d :
  Z.land (eflags env) (Z.lor CC_ALL DF_MASK) = 0 -> in_range 32 cc -> within CC_ALL cc -> d = 0 \/ d = 1 ->
  let fl := Z.lor (Z.lor (eflags env) cc) (d * DF_MASK) in
  cc_src (load_eflags fl mask env) = cc /\ df (load_eflags fl mask env) = 1 - 2 * d.
Proof.
  intros He Hcc Hin Hd fl. rewrite Z.land_lor_distr_r in He. apply Z.lor_eq_0_iff in He as [Ha Hf].
  split; cbn -[Z.land Z.lor CC_ALL DF_MASK].
  - subst fl. rewrite !Z.land_lor_distr_l, Ha, Hin, Z.lor_0_l.
    replace (Z.land (d * DF_MASK) CC_ALL) with 0 by (by destruct Hd as [-> | ->]).
    rewrite Z.lor_0_r. by apply wrap_id.
  - f_equal. f_equal. change 1 with (2 ^ 0). rewrite land_bit, Z.shiftr_spec by lia. change (0 + 10) with 10.
    assert (Z.testbit fl 10 = (d =? 1)) as ->; [|by destruct Hd as [-> | ->]].
    apply (f_equal (fun z => Z.testbit z 10)) in Hf. rewrite Z.land_spec in Hf.
    change (Z.testbit DF_MASK 10) with true in Hf. rewrite Z.bits_0, andb_true_r in Hf.
    apply (f_equal (fun z => Z.testbit z 10)) in Hin. rewrite Z.land_spec in Hin.
    change (Z.testbit CC_ALL 10) with false in Hin. rewrite andb_false_r in Hin.
    subst fl. rewrite !Z.lor_spec, Hf, <-Hin. by destruct Hd as [-> | ->].
Qed.

Lemma eflags_reload env mask :
  eflags_ok env -> cpu_compute_eflags (load_eflags (cpu_compute_eflags env) mask env) = cpu_compute_eflags env.
Proof.
  intros Hok. destruct (compute_eflags_parts env Hok) as (cc & d & Hc & Hcr & Hcin & Hd & Hdf & ->).
  destruct Hok as (He & Hz & Hb & _ & _).
  assert (d = 0 \/ d = 1) as Hd' by (subst d; destruct (df env =? -1); auto).
  destruct (load_eflags_parts env mask cc d Hz Hcr Hcin Hd') as [H1 H2].
  unfold cpu_compute_eflags at 1. rewrite df_bit, H2 by (rewrite H2; lia).
  assert ((1 - 2 * d =? -1) = (d =? 1)) as -> by (zcase; lia).
  assert (b2z (d =? 1) = d) as -> by (by destruct Hd' as [-> | ->]).
  unfold cpu_cc_compute_all. cbn -[Z.land Z.lor DF_MASK u32]. cbn in H1. rewrite H1. clear H1 H2.
  set (fl := Z.lor (Z.lor (eflags env) cc) _). apply Z.bits_inj'. intros i Hi. rewrite !Z.lor_spec, !Z.land_spec.
  destruct (Z.lt_ge_cases i 32).
  - rewrite testbit_lnot_wrap by lia. unfold u32. rewrite testbit_wrap, Z.land_spec by lia.
    unfold fl. rewrite !Z.lor_spec. destruct (Z.eqb_spec i 1) as [->|]; [rewrite Hb; change (Z.testbit 2 1) with true; by rewrite !orb_true_r|].
    assert (Z.testbit 2 i = false) as -> by (change 2 with (2 ^ 1); apply Z.pow2_bits_false; lia).
    by destruct (Z.testbit mask i), (Z.testbit (eflags env) i), (Z.testbit cc i), (Z.testbit _ i).
  - unfold fl. rewrite !Z.lor_spec. unfold u32. rewrite !(testbit_high 32 (wrap _ _)) by (lia || by apply wrap_range).
    rewrite (testbit_high 32 (eflags env)), (testbit_high 32 2) by lia. done.
Qed.

(** ** Properties *)

(** C32: for every operand size and all operands, the flags computed from what
    the translator saved are the architecture's flags of the operation: carry,
    even parity of the low byte, carry out of bit 3, zero, sign, and signed
    overflow, for ADD, ADC, SUB, SBB, INC and DEC. *)
Theorem arith_flags_correct sz x y cf :
  let w := bits sz in
  let a := wrap w x in
  let b := wrap w y in
  let c := b2z cf in
  helper_cc_compute_all (u32 (x + y)) y 0 (cc_add sz) = pack (add_flags w a b 0) /\
  helper_cc_compute_all (u32 (x + y + c)) y c (cc_adc sz) = pack (add_flags w a b c) /\
  helper_cc_compute_all (u32 (x - y)) y 0 (cc_sub sz) = pack (sub_flags w a b 0) /\
  helper_cc_compute_all (u32 (x - y - c)) y c (cc_sbb sz) = pack (sub_flags w a b c) /\
  helper_cc_compute_all (u32 (x + 1)) c 0 (cc_inc sz) = pack (keep_carry cf (add_flags w a 1 0)) /\
  helper_cc_compute_all (u32 (x - 1)) c 0 (cc_dec sz) = pack (keep_carry cf (sub_flags w a 1 0)).
Proof.
  intros w a b c.
  pose proof (adc_through sz x y false) as H1. pose proof (adc_through sz x y cf) as H2.
  pose proof (sbb_through sz x y false) as H3. pose proof (sbb_through sz x y cf) as H4.
  pose proof (inc_through sz x cf) as H5. pose proof (dec_through sz x cf) as H6.
  simpl b2z in H1, H3. rewrite Z.add_0_r, <-compute_all_add_adc in H1.
  rewrite Z.sub_0_r, <-compute_all_sub_sbb in H3. subst w a b c.
  destruct sz; cbn [bits of_size cc_add cc_adc cc_sub cc_sbb cc_inc cc_dec helper_cc_compute_all] in *;
  repeat split; try done; rewrite wrap_b2z by lia; done.
Qed.

(** Computing only the carry flag agrees with computing all the flags,
    for every representation of the condition codes. *)
Theorem carry_agrees dst src1 src2 op :
  cc_ok dst src1 src2 op ->
  helper_cc_compute_c dst src1 src2 op = Z.land (helper_cc_compute_all dst src1 src2 op) CC_C.
Proof. apply compute_c_agrees. Qed.

Lemma carry_agrees_witness :
  helper_cc_compute_c 0x12 0xf0 1 CC_OP_ADCB = 1 /\
  Z.land (helper_cc_compute_all 0x12 0xf0 1 CC_OP_ADCB) CC_C = 1.
Proof.
  split; [done|]. rewrite <-(carry_agrees 0x12 0xf0 1 CC_OP_ADCB); [done|].
  repeat split; simpl; lia.
Defined.

(** Eflags that are saved and loaded again, under any update mask, read
    the same as before, although the lazily computed flags have been
    replaced by a stored copy. *)
Theorem eflags_save_restore env mask :
  eflags_ok env -> cpu_compute_eflags (load_eflags (cpu_compute_eflags env) mask env) = cpu_compute_eflags env.
Proof. apply eflags_reload. Qed.

Lemma eflags_save_restore_witness :
  cpu_compute_eflags blank_cpu = 0x297 /\
  cpu_compute_eflags (load_eflags (cpu_compute_eflags blank_cpu) TF_MASK blank_cpu) = 0x297.
Proof.
  split; [done|]. rewrite (eflags_save_restore blank_cpu TF_MASK); [done|].
  repeat split; simpl; try lia; by left.
Defined.
