(* ===== verification/Excp.v ===== *)
(** * Exceptions of the emulated CPU

    target-i386/excp_helper.c. A helper that raises an exception does not return:
    it leaves the exception in the CPU state and jumps back to the main loop
    ([cpu_loop_exit]). A guest that runs under SVM may be stopped by an exit to
    its monitor instead; what the monitor's exit does ([helper_vmexit]) is
    outside the model, which ends there. *)

From stdpp Require Import base list.
From Stdlib Require Import ZArith Lia.
From S2P Require Import Prelude Cpu.

Local Open Scope Z_scope.

(** ** Helpers: they return, leave through the main loop, exit to the monitor,
    or have no defined behaviour on the host *)

Inductive xres (A : Type) : Type :=
| XRet (a : A) (env : CPUX86State)
| XLoopExit (env : CPUX86State)
| XVmexit (code info : Z) (env : CPUX86State)
| XHostTrap.   (** the host's division instruction traps *)
Arguments XRet {A} a env.
Arguments XLoopExit {A} env.
Arguments XVmexit {A} code info env.
Arguments XHostTrap {A}.

Definition X (A : Type) : Type := CPUX86State -> xres A.

Definition xret {A} (a : A) : X A := fun env => XRet a env.
Definition xbind {A B} (m : X A) (k : A -> X B) : X B :=
  fun env =>
    match m env with
    | XRet a env' => k a env'
    | XLoopExit env' => XLoopExit env'
    | XVmexit c i env' => XVmexit c i env'
    | XHostTrap => XHostTrap
    end.
Definition xget : X CPUX86State := fun env => XRet env env.
Definition xmod (f : CPUX86State -> CPUX86State) : X unit := fun env => XRet tt (f env).
Definition xloop_exit {A} : X A := fun env => XLoopExit env.
Definition xtrap {A} : X A := fun _ => XHostTrap.

Declare Scope x_scope.
Delimit Scope x_scope with x.
Notation "a <- m ;; k" := (xbind m (fun a => k))
  (at level 100, m at next level, right associativity) : x_scope.
Notation "m ;; k" := (xbind m (fun _ => k))
  (at level 100, right associativity) : x_scope.
Local Open Scope x_scope.

Definition R_EAX : nat := 0.
Definition R_ECX : nat := 1.
Definition R_EDX : nat := 2.

(** [env->regs[r]] with a constant index. *)
Definition reg (env : CPUX86State) (r : nat) : Z := nth r (regs env) 0.
Definition set_reg (r : nat) (v : Z) : X unit := xmod (fun env => with_regs (<[r := u32 v]> (regs env)) env).

(** ** Raising *)

Definition EXCP00_DIVZ : Z := 0.
Definition EXCP08_DBLE : Z := 8.
Definition EXCP0E_PAGE : Z := 14.
Definition EXCP_HLT : Z := 0x10001.
Definition SVM_EXIT_EXCP_BASE : Z := 0x40.
Definition SVM_EXIT_INTR : Z := 0x60.
Definition SVM_EXIT_SWINT : Z := 0x75.
Definition SVM_EXIT_SHUTDOWN : Z := 0x7f.

Definition in_svm (env : CPUX86State) : bool := negb (Z.land (hflags env) HF_SVMI_MASK =? 0).

Definition vmexit {A} (code info : Z) : X A := fun env => XVmexit code info env.

(** The cases of the intercept check for an exception, and for an event with a
    bit of its own. *)
Definition svm_check_exception (intno param : Z) : X unit :=
  env <- xget ;;
  if in_svm env && Z.testbit (intercept_exceptions env) intno
  then vmexit (SVM_EXIT_EXCP_BASE + intno) param else xret tt.

Definition svm_check_event (type param : Z) : X unit :=
  env <- xget ;;
  if in_svm env && Z.testbit (intercept env) (type - SVM_EXIT_INTR)
  then vmexit type param else xret tt.

Definition contributory (n : Z) : bool := (n =? 0) || ((10 <=? n) && (n <=? 13)).

(** The new exception number and error code. *)
Definition check_exception (intno err : Z) : X (Z * Z) :=
  env <- xget ;;
  let first_contributory := contributory (old_exception env) in
  let second_contributory := contributory intno in
  if old_exception env =? EXCP08_DBLE then
    if in_svm env then vmexit SVM_EXIT_SHUTDOWN 0
    else xmod (with_reset_requested true) ;; xret (EXCP_HLT, err)
  else
    let '(intno, err) :=
      if (first_contributory && second_contributory)
         || ((old_exception env =? EXCP0E_PAGE) && (second_contributory || (intno =? EXCP0E_PAGE)))
      then (EXCP08_DBLE, 0) else (intno, err) in
    (if second_contributory || (intno =? EXCP0E_PAGE) || (intno =? EXCP08_DBLE)
     then xmod (with_old_exception intno) else xret tt) ;;
    xret (intno, err).

Definition raise_interrupt2 {A} (intno : Z) (is_int : bool) (err next_eip_addend : Z) : X A :=
  ie <- (if negb is_int
         then svm_check_exception intno err ;; check_exception intno err
         else svm_check_event SVM_EXIT_SWINT 0 ;; xret (intno, err)) ;;
  xmod (with_exception_index (fst ie)) ;;
  xmod (with_error_code (snd ie)) ;;
  xmod (with_exception_is_int (b2z is_int)) ;;
  xmod (fun env => with_exception_next_eip (u32 (eip env + next_eip_addend)) env) ;;
  xloop_exit.

Definition raise_interrupt {A} (intno : Z) (is_int : bool) (err next_eip_addend : Z) : X A :=
  raise_interrupt2 intno is_int err next_eip_addend.
Definition helper_raise_interrupt {A} (intno next_eip_addend : Z) : X A :=
  raise_interrupt intno true 0 next_eip_addend.
Definition raise_exception_err {A} (index err : Z) : X A := raise_interrupt2 index false err 0.
Definition raise_exception {A} (index : Z) : X A := raise_interrupt2 index false 0 0.
Definition helper_raise_exception {A} (index : Z) : X A := raise_exception index.

(** ** Behaviour outside SVM *)

(** The exception that a fault [intno] during the delivery of [old] turns into. *)
Definition escalate (old intno err : Z) : Z * Z :=
  if (contributory old && contributory intno)
     || ((old =? EXCP0E_PAGE) && (contributory intno || (intno =? EXCP0E_PAGE)))
  then (EXCP08_DBLE, 0) else (intno, err).

Definition remembered (intno old : Z) : Z :=
  if contributory intno || (intno =? EXCP0E_PAGE) || (intno =? EXCP08_DBLE) then intno else old.

(** The state in which the main loop finds exception [ie]. *)
Definition pending (ie : Z * Z) (is_int : bool) (next_eip : Z) (env : CPUX86State) : CPUX86State :=
  with_exception_next_eip next_eip (with_exception_is_int (b2z is_int)
    (with_error_code (snd ie) (with_exception_index (fst ie) env))).

Lemma escalate_remembered old intno err :
  let '(n, _) := escalate old intno err in
  (contributory intno || (n =? EXCP0E_PAGE) || (n =? EXCP08_DBLE)) =
  (contributory n || (n =? EXCP0E_PAGE) || (n =? EXCP08_DBLE)).
Proof.
  unfold escalate. destruct (contributory old && contributory intno || _) eqn:E; [|done].
  by rewrite !orb_true_r.
Qed.

Lemma raise_exception_err_spec {A} intno err env :
  in_svm env = false -> in_range 32 (eip env) ->
  raise_exception_err (A := A) intno err env =
  if old_exception env =? EXCP08_DBLE
  then XLoopExit (pending (EXCP_HLT, err) false (eip env) (with_reset_requested true env))
  else let ie := escalate (old_exception env) intno err in
       XLoopExit (pending ie false (eip env) (with_old_exception (remembered (fst ie) (old_exception env)) env)).
Proof.
  intros Hs He. pose proof (escalate_remembered (old_exception env) intno err) as Hr.
  unfold raise_exception_err, raise_interrupt2, svm_check_exception, check_exception, xbind, xget, xret.
  cbn [negb]. rewrite Hs. cbn [andb].
  destruct (_ =? EXCP08_DBLE) eqn:E8.
  - rewrite Hs. cbn. rewrite Z.add_0_r. by unfold u32; rewrite wrap_id.
  - fold (escalate (old_exception env) intno err).
    destruct (escalate (old_exception env) intno err) as [n er] eqn:En.
    unfold remembered. cbn [fst]. rewrite Hr. destruct (contributory n || _ || _);
    cbn; rewrite Z.add_0_r; unfold u32; rewrite wrap_id by done; [done|by destruct env].
Qed.

Lemma raise_exception_spec {A} intno env : raise_exception (A := A) intno env = raise_exception_err intno 0 env.
Proof. done. Qed.

(** ** Properties *)

(** Two faults in a row that make a double fault. *)
Definition doubles (first second : Z) : bool :=
  (contributory first && contributory second)
  || ((first =? EXCP0E_PAGE) && (contributory second || (second =? EXCP0E_PAGE))).

(** Faults during the delivery of faults escalate as the architecture
    says. A first fault is delivered as it is; a second one that does not
    combine with it replaces it; one that combines is delivered as a double
    fault with error code 0; and any fault while the double fault is being
    delivered halts the CPU and requests a reset. *)
Theorem faults_escalate env e1 err1 e2 err2 e3 err3 :
  in_svm env = false -> in_range 32 (eip env) -> old_exception env = -1 ->
  contributory e1 = true \/ e1 = EXCP0E_PAGE ->
  exists env1,
    raise_exception_err (A := unit) e1 err1 env = XLoopExit env1 /\
    exception_index env1 = e1 /\ error_code env1 = err1 /\
    exists env2,
      raise_exception_err (A := unit) e2 err2 env1 = XLoopExit env2 /\
      (exception_index env2, error_code env2) =
        (if doubles e1 e2 then (EXCP08_DBLE, 0) else (e2, err2)) /\
      (doubles e1 e2 = true ->
       exists env3,
         raise_exception_err (A := unit) e3 err3 env2 = XLoopExit env3 /\
         exception_index env3 = EXCP_HLT /\ reset_requested env3 = true).
Proof.
  intros Hs He Ho H1. rewrite raise_exception_err_spec, Ho by done. cbn [Z.eqb EXCP08_DBLE].
  change (escalate (-1) e1 err1) with (e1, err1). cbn [fst snd].
  assert (remembered e1 (-1) = e1) as -> by (unfold remembered; destruct H1 as [-> | ->]; done).
  eexists. split; [done|]. split; [done|]. split; [done|].
  rewrite raise_exception_err_spec by done. cbn [old_exception pending with_exception_next_eip
    with_exception_is_int with_error_code with_exception_index with_old_exception fst snd].
  assert ((e1 =? EXCP08_DBLE) = false) as ->.
  { destruct H1 as [H1| ->]; [|done]. by destruct (Z.eqb_spec e1 EXCP08_DBLE) as [->|]. }
  assert (forall e err, escalate e1 e err = if doubles e1 e then (EXCP08_DBLE, 0) else (e, err)) as Hesc by done.
  eexists. split; [done|]. rewrite Hesc. split; [by destruct (doubles e1 e2)|]. intros Hd. rewrite Hd.
  rewrite raise_exception_err_spec by done. cbn. eexists. split; [done|]. done.
Qed.

Lemma faults_escalate_witness :
  exists env1, raise_exception_err (A := unit) 14 2 (with_old_exception (-1) blank_cpu) = XLoopExit env1 /\
  exists env2, raise_exception_err (A := unit) 13 5 env1 = XLoopExit env2 /\ exception_index env2 = 8.
Proof.
  destruct (faults_escalate (with_old_exception (-1) blank_cpu) 14 2 13 5 0 0)
    as (env1 & H1 & _ & _ & env2 & H2 & H3 & _).
  - done.
  - simpl. lia.
  - done.
  - by right.
  - exists env1. split; [done|]. exists env2. split; [done|]. by injection H3.
Defined.
