(* ===== verification/IntHelper.v ===== *)
(** * Integer helpers

    target-i386/int_helper.c and shift_helper_template.h: division, decimal
    adjustment, the 128-bit division, parallel bit deposit and extract, and the
    rotations through carry. Register values are 32-bit; a division the
    host's instruction cannot perform (the least signed number by -1) is
    undefined in C and traps on the host. *)

From stdpp Require Import base list.
From Stdlib Require Import ZArith Lia.
From S2P Require Import Prelude Cpu CcHelper Excp.

Local Open Scope Z_scope.
Local Open Scope x_scope.

Definition rclb_table : list Z :=
  [0; 1; 2; 3; 4; 5; 6; 7;
   8; 0; 1; 2; 3; 4; 5; 6;
   7; 8; 0; 1; 2; 3; 4; 5;
   6; 7; 8; 0; 1; 2; 3; 4].

Definition rclw_table : list Z :=
  [0; 1; 2; 3; 4; 5; 6; 7;
   8; 9; 10; 11; 12; 13; 14; 15;
   16; 0; 1; 2; 3; 4; 5; 6;
   7; 8; 9; 10; 11; 12; 13; 14].

(** [~m] as a [target_ulong]. *)
Definition inv (m : Z) : Z := u32 (Z.lnot m).

(** C's [/] and [%] on signed operands of [w] bits. *)
Definition sdiv (w n d : Z) : X (Z * Z) :=
  if (n =? - 2 ^ (w - 1)) && (d =? -1) then xtrap else xret (Z.quot n d, Z.rem n d).

(** ** Division *)

Definition helper_divb_AL (t0 : Z) : X unit :=
  env <- xget ;;
  let num := Z.land (reg env R_EAX) 0xffff in
  let den := Z.land t0 0xff in
  if den =? 0 then raise_exception EXCP00_DIVZ
  else
    let q := num / den in
    if 0xff <? q then raise_exception EXCP00_DIVZ
    else
      let q := Z.land q 0xff in
      let r := Z.land (num mod den) 0xff in
      set_reg R_EAX (Z.lor (Z.lor (Z.land (reg env R_EAX) (inv 0xffff)) (Z.shiftl r 8)) q).

Definition helper_idivb_AL (t0 : Z) : X unit :=
  env <- xget ;;
  let num := s16 (reg env R_EAX) in
  let den := s8 t0 in
  if den =? 0 then raise_exception EXCP00_DIVZ
  else
    qr <- sdiv 32 num den ;;
    let q := fst qr in
    if negb (q =? s8 q) then raise_exception EXCP00_DIVZ
    else
      let q := Z.land q 0xff in
      let r := Z.land (snd qr) 0xff in
      set_reg R_EAX (Z.lor (Z.lor (Z.land (reg env R_EAX) (inv 0xffff)) (Z.shiftl r 8)) q).

(** [(env->regs[R_EAX] & 0xffff) | ((env->regs[R_EDX] & 0xffff) << 16)] *)
Definition dx_ax (env : CPUX86State) : Z :=
  Z.lor (Z.land (reg env R_EAX) 0xffff) (Z.shiftl (Z.land (reg env R_EDX) 0xffff) 16).

Definition set_ax_dx (env : CPUX86State) (q r : Z) : X unit :=
  set_reg R_EAX (Z.lor (Z.land (reg env R_EAX) (inv 0xffff)) q) ;;
  set_reg R_EDX (Z.lor (Z.land (reg env R_EDX) (inv 0xffff)) r).

Definition helper_divw_AX (t0 : Z) : X unit :=
  env <- xget ;;
  let num := dx_ax env in
  let den := Z.land t0 0xffff in
  if den =? 0 then raise_exception EXCP00_DIVZ
  else
    let q := num / den in
    if 0xffff <? q then raise_exception EXCP00_DIVZ
    else set_ax_dx env (Z.land q 0xffff) (Z.land (num mod den) 0xffff).

Definition helper_idivw_AX (t0 : Z) : X unit :=
  env <- xget ;;
  let num := s32 (dx_ax env) in
  let den := s16 t0 in
  if den =? 0 then raise_exception EXCP00_DIVZ
  else
    qr <- sdiv 32 num den ;;
    let q := fst qr in
    if negb (q =? s16 q) then raise_exception EXCP00_DIVZ
    else set_ax_dx env (Z.land q 0xffff) (Z.land (snd qr) 0xffff).

(** [((uint32_t)EAX) | ((uint64_t)((uint32_t)EDX) << 32)] *)
Definition edx_eax (env : CPUX86State) : Z :=
  Z.lor (u32 (reg env R_EAX)) (Z.shiftl (u32 (reg env R_EDX)) 32).

Definition helper_divl_EAX (t0 : Z) : X unit :=
  env <- xget ;;
  let num := edx_eax env in
  let den := u32 t0 in
  if den =? 0 then raise_exception EXCP00_DIVZ
  else
    let q := num / den in
    let r := num mod den in
    if 0xffffffff <? q then raise_exception EXCP00_DIVZ
    else set_reg R_EAX (u32 q) ;; set_reg R_EDX (u32 r).

Definition helper_idivl_EAX (t0 : Z) : X unit :=
  env <- xget ;;
  let num := s64 (edx_eax env) in
  let den := s32 t0 in
  if den =? 0 then raise_exception EXCP00_DIVZ
  else
    qr <- sdiv 64 num den ;;
    let q := fst qr in
    if negb (q =? s32 q) then raise_exception EXCP00_DIVZ
    else set_reg R_EAX (u32 q) ;; set_reg R_EDX (u32 (snd qr)).

(** ** Decimal adjustment *)

(** A zero [base] is not tested for. *)
Definition helper_aam (b : Z) : X unit :=
  env <- xget ;;
  let al := Z.land (reg env R_EAX) 0xff in
  if b =? 0 then xtrap
  else
    let ah := Z.quot al b in
    let al := Z.rem al b in
    set_reg R_EAX (Z.lor (Z.lor (Z.land (reg env R_EAX) (inv 0xffff)) al) (Z.shiftl ah 8)) ;;
    xmod (with_cc_dst (u32 al)).

Definition helper_aad (b : Z) : X unit :=
  env <- xget ;;
  let al := Z.land (reg env R_EAX) 0xff in
  let ah := Z.land (Z.shiftr (reg env R_EAX) 8) 0xff in
  let al := Z.land (ah * b + al) 0xff in
  set_reg R_EAX (Z.lor (Z.land (reg env R_EAX) (inv 0xffff)) al) ;;
  xmod (with_cc_dst (u32 al)).

Definition nz (x : Z) : bool := negb (x =? 0).

Definition helper_aaa : X unit :=
  env <- xget ;;
  let eflags := cpu_cc_compute_all env (cc_op env) in
  let af := Z.land eflags CC_A in
  let al := Z.land (reg env R_EAX) 0xff in
  let ah := Z.land (Z.shiftr (reg env R_EAX) 8) 0xff in
  let icarry := b2z (0xf9 <? al) in
  let '(al, ah, eflags) :=
    if (9 <? Z.land al 0x0f) || nz af
    then (Z.land (al + 6) 0x0f, Z.land (ah + 1 + icarry) 0xff, Z.lor eflags (Z.lor CC_C CC_A))
    else (Z.land al 0x0f, ah, Z.land eflags (Z.lnot (Z.lor CC_C CC_A))) in
  set_reg R_EAX (Z.lor (Z.lor (Z.land (reg env R_EAX) (inv 0xffff)) al) (Z.shiftl ah 8)) ;;
  xmod (with_cc_src (u32 eflags)).

Definition helper_aas : X unit :=
  env <- xget ;;
  let eflags := cpu_cc_compute_all env (cc_op env) in
  let af := Z.land eflags CC_A in
  let al := Z.land (reg env R_EAX) 0xff in
  let ah := Z.land (Z.shiftr (reg env R_EAX) 8) 0xff in
  let icarry := b2z (al <? 6) in
  let '(al, ah, eflags) :=
    if (9 <? Z.land al 0x0f) || nz af
    then (Z.land (al - 6) 0x0f, Z.land (ah - 1 - icarry) 0xff, Z.lor eflags (Z.lor CC_C CC_A))
    else (Z.land al 0x0f, ah, Z.land eflags (Z.lnot (Z.lor CC_C CC_A))) in
  set_reg R_EAX (Z.lor (Z.lor (Z.land (reg env R_EAX) (inv 0xffff)) al) (Z.shiftl ah 8)) ;;
  xmod (with_cc_src (u32 eflags)).

(** The flags both decimal adjustments compute by hand. *)
Definition szp_flags (al eflags : Z) : Z :=
  let eflags := Z.lor eflags (Z.shiftl (b2z (al =? 0)) 6) in
  let eflags := Z.lor eflags (parity al) in
  Z.lor eflags (Z.land al 0x80).

Definition helper_daa : X unit :=
  env <- xget ;;
  let eflags := cpu_cc_compute_all env (cc_op env) in
  let cf := Z.land eflags CC_C in
  let af := Z.land eflags CC_A in
  let old_al := Z.land (reg env R_EAX) 0xff in
  let al := old_al in
  let eflags := 0 in
  let '(al, eflags) :=
    if (9 <? Z.land al 0x0f) || nz af then (Z.land (al + 6) 0xff, Z.lor eflags CC_A) else (al, eflags) in
  let '(al, eflags) :=
    if (0x99 <? old_al) || nz cf then (Z.land (al + 0x60) 0xff, Z.lor eflags CC_C) else (al, eflags) in
  set_reg R_EAX (Z.lor (Z.land (reg env R_EAX) (inv 0xff)) al) ;;
  xmod (with_cc_src (u32 (szp_flags al eflags))).

Definition helper_das : X unit :=
  env <- xget ;;
  let eflags := cpu_cc_compute_all env (cc_op env) in
  let cf := Z.land eflags CC_C in
  let af := Z.land eflags CC_A in
  let al := Z.land (reg env R_EAX) 0xff in
  let eflags := 0 in
  let al1 := al in
  let '(al, eflags) :=
    if (9 <? Z.land al 0x0f) || nz af then
      let eflags := Z.lor eflags CC_A in
      let eflags := if (al <? 6) || nz cf then Z.lor eflags CC_C else eflags in
      (Z.land (al - 6) 0xff, eflags)
    else (al, eflags) in
  let '(al, eflags) :=
    if (0x99 <? al1) || nz cf then (Z.land (al - 0x60) 0xff, Z.lor eflags CC_C) else (al, eflags) in
  set_reg R_EAX (Z.lor (Z.land (reg env R_EAX) (inv 0xff)) al) ;;
  xmod (with_cc_src (u32 (szp_flags al eflags))).

(** ** 128-bit division: the pair is (low, high) *)

Definition add128 (p : Z * Z) (a b : Z) : Z * Z :=
  let '(low, high) := p in
  let low := u64 (low + a) in
  let high := if low <? a then u64 (high + 1) else high in
  (low, u64 (high + b)).

Definition neg128 (p : Z * Z) : Z * Z :=
  let '(low, high) := p in
  add128 (u64 (Z.lnot low), u64 (Z.lnot high)) 1 0.

Definition div64_step (b : Z) (a : Z * Z) : Z * Z :=
  let '(a0, a1) := a in
  let ab := Z.shiftr a1 63 in
  let a1 := Z.lor (u64 (Z.shiftl a1 1)) (Z.shiftr a0 63) in
  let '(a1, qb) := if nz ab || (b <=? a1) then (u64 (a1 - b), 1) else (a1, 0) in
  (Z.lor (u64 (Z.shiftl a0 1)) qb, a1).

(** [None]: TRUE is returned, an overflow. *)
Definition div64 (p : Z * Z) (b : Z) : option (Z * Z) :=
  let '(a0, a1) := p in
  if a1 =? 0 then Some (a0 / b, a0 mod b)
  else if b <=? a1 then None
  else Some (for_loop 64 (fun _ => div64_step b) (a0, a1)).

(** [b = -b] of the least number is taken to wrap. *)
Definition idiv64 (p : Z * Z) (b : Z) : option (Z * Z) :=
  let sa := s64 (snd p) <? 0 in
  let p := if sa then neg128 p else p in
  let sb := b <? 0 in
  let b := if sb then s64 (- b) else b in
  match div64 p (u64 b) with
  | None => None
  | Some (low, high) =>
      let result :=
        if xorb sa sb
        then if Z.shiftl 1 63 <? low then None else Some (u64 (- low))
        else if Z.shiftl 1 63 <=? low then None else Some low in
      match result with
      | None => None
      | Some low => Some (low, if sa then u64 (- high) else high)
      end
  end.

(** ** Bit operations *)

(** The number of zeros below the lowest one of [n] bits. *)
Fixpoint count_low (n : nat) (x : Z) : Z :=
  match n with
  | O => 0
  | S n' => if Z.testbit x 0 then 0 else 1 + count_low n' (Z.shiftr x 1)
  end.
Definition ctz32 (x : Z) : Z := if nz x then count_low 32 x else 32.

Fixpoint count_high (n : nat) (x : Z) : Z :=
  match n with
  | O => 0
  | S n' => if Z.testbit x (Z.of_nat n') then 0 else 1 + count_high n' x
  end.
Definition clz32 (x : Z) : Z := if nz x then count_high 32 x else 32.

Definition helper_ctz (t0 : Z) : Z := ctz32 t0.
Definition helper_clz (t0 : Z) : Z := clz32 t0.

(** [mask &= mask - 1] *)
Definition drop_lowest (mask : Z) : Z := Z.land mask (u32 (mask - 1)).

Fixpoint pdep_loop (fuel : nat) (i src mask dest : Z) : option Z :=
  match fuel with
  | O => None
  | S fuel' =>
      if mask =? 0 then Some dest
      else
        let o := ctz32 mask in
        pdep_loop fuel' (i + 1) src (drop_lowest mask)
          (Z.lor dest (u32 (Z.shiftl (Z.land (Z.shiftr src i) 1) o)))
  end.
(** A mask of 32 bits has at most 32 ones. *)
Definition helper_pdep (src mask : Z) : option Z := pdep_loop 33 0 src mask 0.

Fixpoint pext_loop (fuel : nat) (o src mask dest : Z) : option Z :=
  match fuel with
  | O => None
  | S fuel' =>
      if mask =? 0 then Some dest
      else
        let i := ctz32 mask in
        pext_loop fuel' (o + 1) src (drop_lowest mask)
          (Z.lor dest (u32 (Z.shiftl (Z.land (Z.shiftr src i) 1) o)))
  end.
Definition helper_pext (src mask : Z) : option Z := pext_loop 33 0 src mask 0.

(** ** Rotations through carry, on operands of [w] bits (8, 16 or 32) *)

Section Rotate.
Context (w : Z).

Definition DATA_MASK : Z := 2 ^ w - 1.

(** [t1 & SHIFT1_MASK], reduced by the table of the operand size. *)
Definition rotate_count (t1 : Z) : Z :=
  let count := Z.land t1 0x1f in
  if w =? 16 then nth (Z.to_nat count) rclw_table 0
  else if w =? 8 then nth (Z.to_nat count) rclb_table 0
  else count.

(** [res] *)
Definition rcl_res (eflags t0 count : Z) : Z :=
  let res := Z.lor (u32 (Z.shiftl t0 count)) (u32 (Z.shiftl (Z.land eflags CC_C) (count - 1))) in
  if 1 <? count then Z.lor res (Z.shiftr t0 (w + 1 - count)) else res.

Definition rcr_res (eflags t0 count : Z) : Z :=
  let res := Z.lor (Z.shiftr t0 count) (u32 (Z.shiftl (Z.land eflags CC_C) (w - count))) in
  if 1 <? count then Z.lor res (u32 (Z.shiftl t0 (w + 1 - count))) else res.

(** The new [cc_src]; the carry is bit [k] of the operand. *)
Definition rotate_src (eflags src t0 k : Z) : Z :=
  u32 (Z.lor (Z.lor (Z.land eflags (Z.lnot (Z.lor CC_C CC_O)))
             (Z.land (lshift 32 (Z.lxor src t0) (11 - (w - 1))) CC_O))
        (Z.land (Z.shiftr src k) CC_C)).

(** The result and the new [cc_src]. *)
Definition helper_rcl (cc_src t0 t1 : Z) : Z * Z :=
  let count := rotate_count t1 in
  if nz count then
    let eflags := cc_src in
    let src := Z.land t0 DATA_MASK in
    let t0 := rcl_res eflags src count in
    (t0, rotate_src eflags src t0 (w - count))
  else (t0, cc_src).

Definition helper_rcr (cc_src t0 t1 : Z) : Z * Z :=
  let count := rotate_count t1 in
  if nz count then
    let eflags := cc_src in
    let src := Z.land t0 DATA_MASK in
    let t0 := rcr_res eflags src count in
    (t0, rotate_src eflags src t0 (count - 1))
  else (t0, cc_src).
End Rotate.
