(* ===== verification/IntRotate.v ===== *)
(** * Rotations through carry

    The rotate helpers of IntHelper.v rotate the word that the operand and the
    carry flag make up. *)

From stdpp Require Import base list.
From Stdlib Require Import ZArith Lia.
From S2P Require Import Prelude Cpu CcHelper Excp IntHelper.

Local Open Scope Z_scope.
Local Open Scope x_scope.

(** ** Rotation: the operand and the carry as one word of [w + 1] bits *)

Definition carry_bit (w : Z) (cf : bool) (x i : Z) : bool := if i =? w then cf else Z.testbit x i.

Section RotateLemmas.
Context (w : Z) (Hw : w = 8 \/ w = 16 \/ w = 32).

Lemma rotate_count_mod t1 : rotate_count w t1 = Z.land t1 0x1f mod (w + 1).
Proof.
  assert (0 <= Z.land t1 0x1f < 32) as Hc.
  { change 0x1f with (Z.ones 5). rewrite Z.land_ones by done. by apply Z.mod_pos_bound. }
  unfold rotate_count. set (c := Z.land t1 31) in *. clearbody c.
  assert (forall n, (n < 32)%nat -> let c := Z.of_nat n in
    nth n rclb_table 0 = c mod 9 /\ nth n rclw_table 0 = c mod 17 /\ c = c mod 33) as Ht.
  { intros n Hn. do 32 (destruct n as [|n]; [done|]). lia. }
  destruct (Ht (Z.to_nat c)) as (H1 & H2 & H3); [lia|]. rewrite Z2Nat.id in * by lia.
  destruct Hw as [-> | [-> | ->]]; done.
Qed.

Lemma rotate_count_range t1 : 0 <= rotate_count w t1 <= Z.min w 31.
Proof.
  rewrite rotate_count_mod.
  assert (0 <= Z.land t1 0x1f < 32) as Hc.
  { change 0x1f with (Z.ones 5). rewrite Z.land_ones by done. by apply Z.mod_pos_bound. }
  pose proof (Z.mod_pos_bound (Z.land t1 0x1f) (w + 1) ltac:(lia)).
  pose proof (Z.mod_le (Z.land t1 0x1f) (w + 1) ltac:(lia) ltac:(lia)). lia.
Qed.

Lemma data_mask_wrap t0 : Z.land t0 (DATA_MASK w) = wrap w t0.
Proof.
  unfold DATA_MASK. replace (2 ^ w - 1) with (Z.ones w) by (rewrite Z.ones_equiv; lia).
  by rewrite Z.land_ones by lia.
Qed.

Lemma testbit_u32 x i : 0 <= i < w -> Z.testbit (u32 x) i = Z.testbit x i.
Proof. intros Hi. unfold u32. apply testbit_wrap. lia. Qed.

Lemma testbit_wrap_full t0 i : Z.testbit (wrap w t0) i = (i <? w) && Z.testbit t0 i.
Proof.
  unfold wrap. destruct (Z.ltb_spec i w).
  - destruct (Z.lt_ge_cases i 0); [by rewrite !Z.testbit_neg_r by done|].
    by rewrite Z.mod_pow2_bits_low by lia.
  - by rewrite Z.mod_pow2_bits_high by lia.
Qed.

Lemma testbit_carry x i k : 0 <= k -> Z.testbit (Z.shiftl (Z.land x CC_C) k) i = (i =? k) && Z.testbit x 0.
Proof.
  intros Hk. change CC_C with (2 ^ 0). rewrite land_bit by done. destruct (Z.testbit x 0); simpl b2z.
  - rewrite Z.mul_1_l. change (2 ^ 0) with 1. rewrite andb_true_r, Z.shiftl_1_l, Z.pow2_bits_eqb by done.
    apply Z.eqb_sym.
  - by rewrite Z.mul_0_l, Z.shiftl_0_l, Z.bits_0, andb_false_r.
Qed.

Lemma rotate_src_ok eflags src t0 k :
  0 <= k ->
  let f := rotate_src w eflags src t0 k in
  Z.testbit f 0 = Z.testbit src k /\
  Z.testbit f 11 = xorb (Z.testbit src (w - 1)) (Z.testbit t0 (w - 1)) /\
  Z.land f (Z.lnot (Z.lor CC_C CC_O)) = Z.land (u32 eflags) (Z.lnot (Z.lor CC_C CC_O)).
Proof.
  intros Hk f. unfold f, rotate_src, u32. split_and!.
  - rewrite testbit_wrap by lia. rewrite !Z.lor_spec, !Z.land_spec, Z.shiftr_spec by done.
    change (Z.testbit CC_C 0) with true. change (Z.testbit CC_O 0) with false.
    change (Z.testbit (Z.lnot (Z.lor CC_C CC_O)) 0) with false.
    by rewrite !andb_false_r, andb_true_r.
  - rewrite testbit_wrap by lia. rewrite !Z.lor_spec, !Z.land_spec.
    change (Z.testbit CC_C 11) with false. change (Z.testbit CC_O 11) with true.
    change (Z.testbit (Z.lnot (Z.lor CC_C CC_O)) 11) with false.
    rewrite !andb_false_r, andb_true_r, orb_false_r. cbn [orb]. rewrite (lshift_bit 32), Z.lxor_spec by lia.
    by replace (11 - (11 - (w - 1))) with (w - 1) by lia.
  - apply Z.bits_inj'. intros i Hi. rewrite !Z.land_spec. unfold wrap.
    destruct (Z.testbit (Z.lnot (Z.lor CC_C CC_O)) i) eqn:E; [|by rewrite !andb_false_r].
    rewrite !andb_true_r. destruct (Z.lt_ge_cases i 32); [|by rewrite !Z.mod_pow2_bits_high by lia].
    rewrite !Z.mod_pow2_bits_low by lia. rewrite !Z.lor_spec, !Z.land_spec, E.
    rewrite Z.lnot_spec, Z.lor_spec, negb_true_iff in E by done. apply orb_false_iff in E as [-> ->].
    by rewrite !andb_false_r, andb_true_r, !orb_false_r.
Qed.

Lemma rcl_res_bit eflags t0 c i :
  0 < c <= w -> 0 <= i < w ->
  Z.testbit (rcl_res w eflags (wrap w t0) c) i =
  carry_bit w (Z.testbit eflags 0) t0 ((i - c) mod (w + 1)).
Proof.
  intros Hc Hi.
  assert (Z.testbit (rcl_res w eflags (wrap w t0) c) i =
    Z.testbit (wrap w t0) (i - c) || ((i =? c - 1) && Z.testbit eflags 0)
      || ((1 <? c) && Z.testbit (wrap w t0) (i + (w + 1 - c)))) as ->.
  { unfold rcl_res. destruct (1 <? c); rewrite !Z.lor_spec, !testbit_u32, testbit_carry, Z.shiftl_spec by lia;
    [by rewrite Z.shiftr_spec by lia|by rewrite orb_false_r]. }
  rewrite !testbit_wrap_full. unfold carry_bit. destruct (Z.lt_ge_cases i c).
  - assert ((i - c) mod (w + 1) = i - c + (w + 1)) as ->.
    { symmetry. apply (Z.mod_unique _ _ (-1)); lia. }
    rewrite (Z.testbit_neg_r t0 (i - c)), andb_false_r by lia. cbn [orb].
    zcase; try lia; cbn [andb orb]; rewrite ?andb_false_r, ?orb_false_r; try done. f_equal. lia.
  - rewrite Z.mod_small by lia. zcase; try lia; cbn [andb orb]; by rewrite ?andb_false_r, !orb_false_r.
Qed.

Lemma rcr_res_bit eflags t0 c i :
  0 < c <= w -> 0 <= i < w ->
  Z.testbit (rcr_res w eflags (wrap w t0) c) i =
  carry_bit w (Z.testbit eflags 0) t0 ((i + c) mod (w + 1)).
Proof.
  intros Hc Hi.
  assert (Z.testbit (rcr_res w eflags (wrap w t0) c) i =
    Z.testbit (wrap w t0) (i + c) || ((i =? w - c) && Z.testbit eflags 0)
      || ((1 <? c) && Z.testbit (wrap w t0) (i - (w + 1 - c)))) as ->.
  { unfold rcr_res. destruct (1 <? c); rewrite !Z.lor_spec, ?testbit_u32, testbit_carry, Z.shiftr_spec by lia;
    [by rewrite Z.shiftl_spec by lia|by rewrite orb_false_r]. }
  rewrite !testbit_wrap_full. unfold carry_bit. destruct (Z.le_gt_cases (i + c) w).
  - rewrite Z.mod_small by lia. rewrite (Z.testbit_neg_r t0 (i - _)), !andb_false_r, orb_false_r by lia.
    zcase; try lia; cbn [andb orb]; by rewrite ?orb_false_r.
  - assert ((i + c) mod (w + 1) = i - (w + 1 - c)) as ->.
    { symmetry. apply (Z.mod_unique _ _ 1); lia. }
    zcase; try lia; cbn [andb orb]; by rewrite ?andb_false_r, ?orb_false_r.
Qed.

Lemma helper_rcl_bits cc_src t0 t1 i :
  0 <= i <= w ->
  let '(r, src') := helper_rcl w cc_src t0 t1 in
  carry_bit w (Z.testbit src' 0) r i = carry_bit w (Z.testbit cc_src 0) t0 ((i - rotate_count w t1) mod (w + 1)).
Proof.
  intros Hi. pose proof (rotate_count_range t1) as Hc. unfold helper_rcl, nz.
  set (c := rotate_count w t1) in *. destruct (Z.eqb_spec c 0) as [->|Hc0]; cbn [negb].
  { by rewrite Z.sub_0_r, Z.mod_small by lia. }
  rewrite data_mask_wrap. unfold carry_bit at 1. destruct (Z.eqb_spec i w) as [->|Hiw].
  - destruct (rotate_src_ok cc_src (wrap w t0) (rcl_res w cc_src (wrap w t0) c) (w - c)) as [-> _]; [lia|].
    unfold carry_bit. rewrite Z.mod_small, testbit_wrap_full by lia. zcase; try lia. done.
  - apply rcl_res_bit; lia.
Qed.

Lemma helper_rcr_bits cc_src t0 t1 i :
  0 <= i <= w ->
  let '(r, src') := helper_rcr w cc_src t0 t1 in
  carry_bit w (Z.testbit src' 0) r i = carry_bit w (Z.testbit cc_src 0) t0 ((i + rotate_count w t1) mod (w + 1)).
Proof.
  intros Hi. pose proof (rotate_count_range t1) as Hc. unfold helper_rcr, nz.
  set (c := rotate_count w t1) in *. destruct (Z.eqb_spec c 0) as [->|Hc0]; cbn [negb].
  { by rewrite Z.add_0_r, Z.mod_small by lia. }
  rewrite data_mask_wrap. unfold carry_bit at 1. destruct (Z.eqb_spec i w) as [->|Hiw].
  - destruct (rotate_src_ok cc_src (wrap w t0) (rcr_res w cc_src (wrap w t0) c) (c - 1)) as [-> _]; [lia|].
    assert ((w + c) mod (w + 1) = c - 1) as -> by (symmetry; apply (Z.mod_unique _ _ 1); lia).
    unfold carry_bit. rewrite testbit_wrap_full. zcase; try lia. done.
  - apply rcr_res_bit; lia.
Qed.
End RotateLemmas.

(** ** Properties *)

Lemma carry_bit_ext w cf cf' x x' :
  0 <= w -> (forall i, 0 <= i <= w -> carry_bit w cf x i = carry_bit w cf' x' i) -> cf = cf' /\ wrap w x = wrap w x'.
Proof.
  intros Hw H. split.
  - specialize (H w ltac:(lia)). unfold carry_bit in H. by rewrite Z.eqb_refl in H.
  - apply Z.bits_inj'. intros i Hi. unfold wrap. destruct (Z.lt_ge_cases i w).
    + rewrite !Z.mod_pow2_bits_low by done. specialize (H i ltac:(lia)). unfold carry_bit in H.
      by destruct (Z.eqb_spec i w); [lia|].
    + by rewrite !Z.mod_pow2_bits_high by lia.
Qed.

(** RCL rotates the operand and the carry flag, as one word of [w + 1]
    bits, to the left by the count modulo [w + 1], RCR to the right; so each
    undoes the other, carry included. *)
Theorem rotates_through_carry sz cc_src t0 t1 :
  let w := bits sz in
  let c := Z.land t1 0x1f mod (w + 1) in
  (let '(r, src') := helper_rcl w cc_src t0 t1 in
   (forall i, 0 <= i <= w ->
      carry_bit w (Z.testbit src' 0) r i = carry_bit w (Z.testbit cc_src 0) t0 ((i - c) mod (w + 1))) /\
   let '(r2, src2) := helper_rcr w src' r t1 in
   wrap w r2 = wrap w t0 /\ Z.testbit src2 0 = Z.testbit cc_src 0) /\
  (let '(r, src') := helper_rcr w cc_src t0 t1 in
   forall i, 0 <= i <= w ->
     carry_bit w (Z.testbit src' 0) r i = carry_bit w (Z.testbit cc_src 0) t0 ((i + c) mod (w + 1))).
Proof.
  intros w c. assert (w = 8 \/ w = 16 \/ w = 32) as Hw by (subst w; destruct sz; simpl; auto).
  assert (rotate_count w t1 = c) as Hc by (by apply rotate_count_mod).
  pose proof (fun i Hi => helper_rcl_bits w Hw cc_src t0 t1 i Hi) as Hl.
  pose proof (fun i Hi => helper_rcr_bits w Hw cc_src t0 t1 i Hi) as Hr. rewrite Hc in Hl, Hr.
  split; [|by destruct (helper_rcr w cc_src t0 t1) as [r s]].
  destruct (helper_rcl w cc_src t0 t1) as [r s]. split; [exact Hl|].
  pose proof (fun i Hi => helper_rcr_bits w Hw s r t1 i Hi) as Hr2. rewrite Hc in Hr2.
  destruct (helper_rcr w s r t1) as [r2 s2].
  destruct (carry_bit_ext w (Z.testbit s2 0) (Z.testbit cc_src 0) r2 t0) as [H1 H2]; [lia| |done].
  intros i Hi. rewrite Hr2 by done. pose proof (Z.mod_pos_bound (i + c) (w + 1)). rewrite Hl by lia.
  f_equal. rewrite Zminus_mod_idemp_l. rewrite Z.add_simpl_r. apply Z.mod_small. lia.
Qed.
