(* ===== verification/IntDiv.v ===== *)
(** * Division

    The division helpers of IntHelper.v against the definition of division. *)

From stdpp Require Import base list.
From Stdlib Require Import ZArith Lia.
From S2P Require Import Prelude Cpu CcHelper Excp IntHelper.

Local Open Scope Z_scope.
Local Open Scope x_scope.

(** ** Parts of registers *)

Lemma lor_low k a b : 0 <= k -> 0 <= b < 2 ^ k -> Z.lor (a * 2 ^ k) b = a * 2 ^ k + b.
Proof.
  intros Hk Hb. apply Z.bits_inj'. intros n Hn. rewrite Z.lor_spec.
  assert (0 < 2 ^ k) by (by apply Z.pow_pos_nonneg).
  destruct (Z.lt_ge_cases n k).
  - rewrite Z.mul_pow2_bits_low by done. cbn [orb].
    rewrite <-(Z.mod_pow2_bits_low (a * 2 ^ k + b) k) by done.
    by rewrite Z.add_comm, Z.mod_add, Z.mod_small by lia.
  - rewrite Z.mul_pow2_bits by done.
    assert (Z.testbit b n = false) as -> by (apply (testbit_high k); lia). rewrite orb_false_r.
    replace n with (n - k + k) at 2 by lia. rewrite <-Z.div_pow2_bits by lia.
    by rewrite Z.div_add_l, Z.div_small, Z.add_0_r by lia.
Qed.

Lemma land_low x k : 0 <= k -> Z.land x (Z.ones k) = x mod 2 ^ k.
Proof. apply Z.land_ones. Qed.

(** [x & ~(2^k - 1)] *)
Lemma land_high x k : 0 <= k <= 32 -> in_range 32 x -> Z.land x (inv (Z.ones k)) = x / 2 ^ k * 2 ^ k.
Proof.
  intros Hk Hx. apply Z.bits_inj'. intros n Hn. rewrite Z.land_spec. unfold inv, u32.
  destruct (Z.lt_ge_cases n k).
  - rewrite Z.mul_pow2_bits_low by done. rewrite testbit_wrap, Z.lnot_spec, Z.ones_spec_low by lia.
    by rewrite andb_false_r.
  - rewrite Z.mul_pow2_bits, Z.div_pow2_bits by lia. replace (n - k + k) with n by lia.
    destruct (Z.lt_ge_cases n 32).
    + rewrite testbit_wrap, Z.lnot_spec, Z.ones_spec_high by lia. by rewrite andb_true_r.
    + by rewrite (testbit_high 32 x) by lia.
Qed.

(** Replacing the low [k] bits. *)
Lemma put_low x k v : 0 <= k <= 32 -> in_range 32 x -> 0 <= v < 2 ^ k ->
  Z.lor (Z.land x (inv (Z.ones k))) v = x / 2 ^ k * 2 ^ k + v /\ in_range 32 (x / 2 ^ k * 2 ^ k + v).
Proof.
  intros Hk Hx Hv. rewrite land_high, lor_low by lia. split; [done|].
  assert (0 < 2 ^ k) as Hp by (apply Z.pow_pos_nonneg; lia).
  pose proof (Z.div_mod x (2 ^ k) ltac:(lia)). pose proof (Z.mod_pos_bound x _ Hp).
  pose proof (Z.div_pos x (2 ^ k) ltac:(lia) Hp).
  assert (x / 2 ^ k < 2 ^ (32 - k)).
  { apply Z.div_lt_upper_bound; [done|]. rewrite <-Z.pow_add_r by lia. replace (k + (32 - k)) with 32 by lia. lia. }
  assert (2 ^ 32 = 2 ^ (32 - k) * 2 ^ k) as -> by (rewrite <-Z.pow_add_r by lia; f_equal; lia). nia.
Qed.

Lemma read_low hi k v : 0 <= k -> 0 <= v < 2 ^ k -> (hi * 2 ^ k + v) mod 2 ^ k = v /\ (hi * 2 ^ k + v) / 2 ^ k = hi.
Proof.
  intros Hk Hv. split.
  - by rewrite Z.add_comm, Z.mod_add, Z.mod_small by lia.
  - by rewrite Z.div_add_l, Z.div_small, Z.add_0_r by lia.
Qed.

Definition regs_ok (env : CPUX86State) : Prop :=
  length (regs env) = 8%nat /\ Forall (fun v => in_range 32 v) (regs env).

Lemma reg_range env r : regs_ok env -> in_range 32 (reg env r).
Proof.
  intros [_ H]. unfold reg. rewrite nth_lookup. destruct (regs env !! r) eqn:E; simpl; [|lia].
  by eapply Forall_lookup in H.
Qed.

Lemma reg_with_same env r v : (r < length (regs env))%nat -> reg (with_regs (<[r := v]> (regs env)) env) r = v.
Proof. intros Hr. unfold reg. cbn [regs with_regs]. rewrite nth_lookup, list_lookup_insert_eq; done. Qed.
Lemma reg_with_other env r r' v : r <> r' -> reg (with_regs (<[r := v]> (regs env)) env) r' = reg env r'.
Proof. intros Hr. unfold reg. cbn [regs with_regs]. rewrite !nth_lookup, list_lookup_insert_ne; done. Qed.

(** ** Division: where the operands are and where the results go *)

Definition dividend (sz : opsize) (env : CPUX86State) : Z :=
  of_size (reg env R_EAX mod 2 ^ 16)
    (reg env R_EDX mod 2 ^ 16 * 2 ^ 16 + reg env R_EAX mod 2 ^ 16)
    (reg env R_EDX * 2 ^ 32 + reg env R_EAX) sz.

(** AL and AH, AX and DX, EAX and EDX. *)
Definition results (sz : opsize) (env : CPUX86State) : Z * Z :=
  of_size (reg env R_EAX mod 2 ^ 8, reg env R_EAX / 2 ^ 8 mod 2 ^ 8)
    (reg env R_EAX mod 2 ^ 16, reg env R_EDX mod 2 ^ 16)
    (reg env R_EAX, reg env R_EDX) sz.

(** What a division leaves as it was. *)
Definition div_frame (sz : opsize) (env env' : CPUX86State) : Prop :=
  (exists rs, env' = with_regs rs env /\ length rs = length (regs env)) /\
  (forall i, i <> R_EAX -> i <> R_EDX -> reg env' i = reg env i) /\
  of_size (reg env' R_EAX / 2 ^ 16 = reg env R_EAX / 2 ^ 16 /\ reg env' R_EDX = reg env R_EDX)
    (reg env' R_EAX / 2 ^ 16 = reg env R_EAX / 2 ^ 16 /\ reg env' R_EDX / 2 ^ 16 = reg env R_EDX / 2 ^ 16)
    True sz.

Definition helper_div (sz : opsize) : Z -> X unit := of_size helper_divb_AL helper_divw_AX helper_divl_EAX sz.
Definition helper_idiv (sz : opsize) : Z -> X unit := of_size helper_idivb_AL helper_idivw_AX helper_idivl_EAX sz.

Definition two_regs (a d : Z) (env : CPUX86State) : CPUX86State :=
  with_regs (<[R_EDX := d]> (<[R_EAX := a]> (regs env))) env.

Lemma two_regs_eax a d env : regs_ok env -> reg (two_regs a d env) R_EAX = a.
Proof.
  intros [Hl _]. unfold two_regs, reg. cbn [regs with_regs].
  rewrite nth_lookup, list_lookup_insert_ne, list_lookup_insert_eq by (done || (unfold R_EAX; lia)). done.
Qed.
Lemma two_regs_edx a d env : regs_ok env -> reg (two_regs a d env) R_EDX = d.
Proof.
  intros [Hl _]. unfold two_regs, reg. cbn [regs with_regs].
  rewrite nth_lookup, list_lookup_insert_eq by (rewrite length_insert; unfold R_EDX; lia). done.
Qed.
Lemma two_regs_frame a d env :
  (exists rs, two_regs a d env = with_regs rs env /\ length rs = length (regs env)) /\
  (forall i, i <> R_EAX -> i <> R_EDX -> reg (two_regs a d env) i = reg env i).
Proof.
  split; [eexists; split; [done|]; by rewrite !length_insert|].
  intros i H0 H2. unfold two_regs, reg. cbn [regs with_regs].
  by rewrite !nth_lookup, !list_lookup_insert_ne by done.
Qed.

(** Writing EAX alone. *)
Lemma set_eax env v :
  regs_ok env -> in_range 32 v -> set_reg R_EAX v env = XRet tt (two_regs v (reg env R_EDX) env).
Proof.
  intros [Hl _] Hv. unfold set_reg, xmod, two_regs, u32. rewrite wrap_id by done. f_equal.
  assert (is_Some (regs env !! R_EDX)) as [x Hx] by (apply lookup_lt_is_Some; unfold R_EDX; lia).
  f_equal. symmetry. apply list_insert_id. rewrite list_lookup_insert_ne by done.
  unfold reg. by rewrite nth_lookup, Hx.
Qed.

Lemma set_eax_edx env a d :
  in_range 32 a -> in_range 32 d ->
  (set_reg R_EAX a ;; set_reg R_EDX d) env = XRet tt (two_regs a d env).
Proof. intros Ha Hd. unfold set_reg, xbind, xmod, two_regs, u32. by rewrite !wrap_id by done. Qed.

Lemma store_b env q r :
  regs_ok env -> in_range 8 q -> in_range 8 r ->
  exists env',
    set_reg R_EAX (Z.lor (Z.lor (Z.land (reg env R_EAX) (inv 0xffff)) (Z.shiftl r 8)) q) env = XRet tt env' /\
    results SzB env' = (q, r) /\ div_frame SzB env env'.
Proof.
  intros Hok Hq Hr. pose proof (reg_range env R_EAX Hok) as He. change 0xffff with (Z.ones 16).
  rewrite <-Z.lor_assoc, Z.shiftl_mul_pow2, lor_low by done.
  assert (0 <= r * 2 ^ 8 + q < 2 ^ 16) as Hv by (change (2 ^ 8) with 256 in *; change (2 ^ 16) with 65536; lia).
  destruct (put_low (reg env R_EAX) 16 (r * 2 ^ 8 + q)) as [-> Hin]; [done..|].
  eexists. split; [by apply set_eax|]. unfold results, div_frame, of_size.
  rewrite two_regs_eax, two_regs_edx by done. destruct (two_regs_frame
    (reg env R_EAX / 2 ^ 16 * 2 ^ 16 + (r * 2 ^ 8 + q)) (reg env R_EDX) env) as [Hf1 Hf2].
  split; [|split; [done|]; split; [done|]; split; [by apply read_low|done]].
  assert (reg env R_EAX / 2 ^ 16 * 2 ^ 16 + (r * 2 ^ 8 + q) =
    (reg env R_EAX / 2 ^ 16 * 2 ^ 8 + r) * 2 ^ 8 + q) as -> by (change (2 ^ 16) with (2 ^ 8 * 2 ^ 8); lia).
  destruct (read_low (reg env R_EAX / 2 ^ 16 * 2 ^ 8 + r) 8 q) as [-> ->]; [done..|].
  by destruct (read_low (reg env R_EAX / 2 ^ 16) 8 r) as [-> _].
Qed.

Lemma store_w env q r :
  regs_ok env -> in_range 16 q -> in_range 16 r ->
  exists env', set_ax_dx env q r env = XRet tt env' /\ results SzW env' = (q, r) /\ div_frame SzW env env'.
Proof.
  intros Hok Hq Hr. unfold set_ax_dx. change 0xffff with (Z.ones 16).
  destruct (put_low (reg env R_EAX) 16 q) as [-> H1]; [done|by apply reg_range|done|].
  destruct (put_low (reg env R_EDX) 16 r) as [-> H2]; [done|by apply reg_range|done|].
  eexists. split; [by apply set_eax_edx|]. unfold results, div_frame, of_size.
  rewrite two_regs_eax, two_regs_edx by done.
  destruct (read_low (reg env R_EAX / 2 ^ 16) 16 q) as [-> ->]; [done..|].
  destruct (read_low (reg env R_EDX / 2 ^ 16) 16 r) as [-> ->]; [done..|].
  split; [done|]. split; [apply two_regs_frame|]. split; [apply two_regs_frame|done].
Qed.

Lemma store_l env q r :
  regs_ok env ->
  exists env',
    (set_reg R_EAX (u32 q) ;; set_reg R_EDX (u32 r)) env = XRet tt env' /\
    results SzL env' = (u32 q, u32 r) /\ div_frame SzL env env'.
Proof.
  intros Hok. eexists. split; [apply set_eax_edx; apply u32_range|]. unfold results, div_frame, of_size.
  rewrite two_regs_eax, two_regs_edx by done. split; [done|]. split; [apply two_regs_frame|].
  split; [apply two_regs_frame|done].
Qed.

(** ** The helpers' dividends *)

Lemma land_ffff x : Z.land x 0xffff = x mod 2 ^ 16.
Proof. change 0xffff with (Z.ones 16). by apply Z.land_ones. Qed.
Lemma land_ff x : Z.land x 0xff = x mod 2 ^ 8.
Proof. change 0xff with (Z.ones 8). by apply Z.land_ones. Qed.

Lemma dx_ax_dividend env : dx_ax env = dividend SzW env.
Proof.
  unfold dx_ax, dividend, of_size. rewrite !land_ffff, Z.shiftl_mul_pow2, Z.lor_comm by done.
  apply lor_low; [done|]. by apply Z.mod_pos_bound.
Qed.
Lemma edx_eax_dividend env : regs_ok env -> edx_eax env = dividend SzL env.
Proof.
  intros Hok. unfold edx_eax, dividend, of_size, u32.
  rewrite !wrap_id by (by apply reg_range). rewrite Z.shiftl_mul_pow2, Z.lor_comm by done.
  apply lor_low; [done|]. by apply reg_range.
Qed.

Lemma dividend_range sz env : regs_ok env -> in_range (2 * bits sz) (dividend sz env).
Proof.
  intros Hok. pose proof (reg_range env R_EAX Hok). pose proof (reg_range env R_EDX Hok).
  pose proof (Z.mod_pos_bound (reg env R_EAX) (2 ^ 16) ltac:(done)).
  pose proof (Z.mod_pos_bound (reg env R_EDX) (2 ^ 16) ltac:(done)).
  destruct sz; cbn [dividend of_size bits]; [done|..].
  - change (2 ^ (2 * 16)) with (2 ^ 16 * 2 ^ 16). lia.
  - change (2 ^ (2 * 32)) with (2 ^ 32 * 2 ^ 32). lia.
Qed.

(** ** Unsigned *)

(** What holds of an outcome of [helper_div]: quotient and remainder, or the
    divide exception when there is no quotient that fits. *)
Definition div_outcome (sz : opsize) (t0 : Z) (env : CPUX86State) (o : xres unit) : Prop :=
  let num := dividend sz env in
  let den := wrap (bits sz) t0 in
  (exists env', o = XRet tt env' /\ div_frame sz env env' /\
     let '(q, r) := results sz env' in
     num = q * den + r /\ 0 <= r < den /\ in_range (bits sz) q) \/
  (o = raise_exception EXCP00_DIVZ env /\
     forall q r, num = q * den + r -> 0 <= r < den -> 2 ^ bits sz <= q).

Lemma div_fits num den w : 0 <= num -> 0 < den -> num / den < 2 ^ w -> 0 <= w ->
  in_range w (num / den) /\ 0 <= num mod den < den /\ num = num / den * den + num mod den.
Proof.
  intros Hn Hd Hq Hw. split; [split; [by apply Z.div_pos|done]|]. split; [by apply Z.mod_pos_bound|].
  pose proof (Z.div_mod num den). lia.
Qed.

Lemma div_no_fit num den w q r :
  2 ^ w <= num / den -> num = q * den + r -> 0 <= r < den -> 2 ^ w <= q.
Proof.
  intros Hq -> Hr. assert ((q * den + r) / den = q) as <-; [|done].
  symmetry. apply (Z.div_unique _ _ _ r); lia.
Qed.

Section Unsigned.
Context (sz : opsize) (t0 : Z) (env : CPUX86State) (Hok : regs_ok env).

Lemma div_outcome_raise o :
  o = raise_exception EXCP00_DIVZ env ->
  wrap (bits sz) t0 = 0 \/ 2 ^ bits sz <= dividend sz env / wrap (bits sz) t0 ->
  div_outcome sz t0 env o.
Proof.
  intros -> H. right. split; [done|]. intros q r Hn Hr. destruct H as [H|H]; [lia|]. by eapply div_no_fit.
Qed.

Lemma div_outcome_ret o :
  wrap (bits sz) t0 <> 0 -> dividend sz env / wrap (bits sz) t0 < 2 ^ bits sz ->
  (in_range (bits sz) (dividend sz env / wrap (bits sz) t0) ->
   in_range (bits sz) (dividend sz env mod wrap (bits sz) t0) ->
   exists env', o = XRet tt env' /\
     results sz env' = (dividend sz env / wrap (bits sz) t0, dividend sz env mod wrap (bits sz) t0) /\
     div_frame sz env env') ->
  div_outcome sz t0 env o.
Proof.
  intros H0 Hq H. pose proof (dividend_range sz env Hok) as [Hn _]. pose proof (bits_range sz) as Hsz.
  assert (in_range (bits sz) (wrap (bits sz) t0)) as Hd by (apply wrap_range; lia).
  destruct (div_fits (dividend sz env) (wrap (bits sz) t0) (bits sz)) as (H1 & H2 & H3); [lia..|].
  destruct H as (env' & -> & Hr & Hf); [done|lia|]. left. exists env'. rewrite Hr. done.
Qed.
End Unsigned.

Lemma helper_div_outcome sz t0 env : regs_ok env -> div_outcome sz t0 env (helper_div sz t0 env).
Proof.
  intros Hok. destruct sz; unfold helper_div, of_size.
  - unfold helper_divb_AL, xbind, xget. rewrite land_ffff, !land_ff. fold (wrap 8 t0).
    change (reg env R_EAX mod 2 ^ 16) with (dividend SzB env).
    destruct (Z.eqb_spec (wrap 8 t0) 0) as [H0|H0]; [by apply div_outcome_raise; auto|].
    destruct (Z.ltb_spec 0xff (dividend SzB env / wrap 8 t0)) as [Hq|Hq].
    + apply div_outcome_raise; [done|]. right. simpl bits. lia.
    + apply div_outcome_ret; [done..|simpl bits; lia|]. simpl bits. intros H1 H2.
      rewrite (Z.mod_small (_ / _)), (Z.mod_small (_ mod _)) by done. by apply store_b.
  - unfold helper_divw_AX, xbind, xget. rewrite dx_ax_dividend, !land_ffff. fold (wrap 16 t0).
    destruct (Z.eqb_spec (wrap 16 t0) 0) as [H0|H0]; [by apply div_outcome_raise; auto|].
    destruct (Z.ltb_spec 0xffff (dividend SzW env / wrap 16 t0)) as [Hq|Hq].
    + apply div_outcome_raise; [done|]. right. simpl bits. lia.
    + apply div_outcome_ret; [done..|simpl bits; lia|]. simpl bits. intros H1 H2.
      rewrite (Z.mod_small (_ / _)), (Z.mod_small (_ mod _)) by done. by apply store_w.
  - unfold helper_divl_EAX. cbv beta delta [xbind xget] iota zeta. rewrite edx_eax_dividend by done. unfold u32 at 1 2 3.
    destruct (Z.eqb_spec (wrap 32 t0) 0) as [H0|H0]; [by apply div_outcome_raise; auto|].
    fold (wrap 32 t0).
    destruct (Z.ltb_spec 0xffffffff (dividend SzL env / wrap 32 t0)) as [Hq|Hq].
    + apply div_outcome_raise; [done|]. right. simpl bits. lia.
    + apply div_outcome_ret; [done..|simpl bits; lia|]. simpl bits. intros H1 H2.
      destruct (store_l env (dividend SzL env / wrap 32 t0) (dividend SzL env mod wrap 32 t0) Hok) as (env' & E & R & F).
      exists env'. split; [exact E|]. split; [|done]. rewrite R. f_equal; by apply wrap_id.
Qed.

(** ** Signed *)

Definition sdividend (sz : opsize) (env : CPUX86State) : Z := sext (2 * bits sz) (dividend sz env).
Definition sresults (sz : opsize) (env : CPUX86State) : Z * Z :=
  let '(q, r) := results sz env in (sext (bits sz) q, sext (bits sz) r).

(** Truncating division: the remainder is smaller than the divisor and has the
    sign of the dividend. *)
Definition quot_rem (num den q r : Z) : Prop :=
  num = q * den + r /\ Z.abs r < Z.abs den /\ 0 <= r * num.

Definition fits (w q : Z) : Prop := - 2 ^ (w - 1) <= q < 2 ^ (w - 1).

Definition idiv_outcome (sz : opsize) (t0 : Z) (env : CPUX86State) (o : xres unit) : Prop :=
  let num := sdividend sz env in
  let den := sext (bits sz) t0 in
  (exists env', o = XRet tt env' /\ div_frame sz env env' /\
     let '(q, r) := sresults sz env' in quot_rem num den q r) \/
  (o = raise_exception EXCP00_DIVZ env /\ forall q r, quot_rem num den q r -> ~ fits (bits sz) q) \/
  (sz <> SzB /\ num = - 2 ^ (2 * bits sz - 1) /\ den = -1 /\ o = XHostTrap).

Lemma quot_rem_quot num den : den <> 0 -> quot_rem num den (Z.quot num den) (Z.rem num den).
Proof.
  intros Hd. split; [|split; [by apply Z.rem_bound_abs|by apply Z.rem_sign_mul]].
  pose proof (Z.quot_rem num den Hd). lia.
Qed.

Lemma quot_rem_unique num den q r q' r' :
  quot_rem num den q r -> quot_rem num den q' r' -> q = q' /\ r = r'.
Proof.
  intros (Hn & Hr & Hs) (Hn' & Hr' & Hs').
  assert (r - r' = (q' - q) * den) as Hd by lia.
  assert (q = q') as ->; [|lia]. destruct (Z.eq_dec q q') as [|Hq]; [done|exfalso].
  assert (Z.abs den <= Z.abs (r - r')) by (rewrite Hd, Z.abs_mul; nia).
  destruct (Z.lt_trichotomy num 0) as [?|[->|?]].
  - assert (r <= 0 /\ r' <= 0) by nia. lia.
  - assert (q = 0) by nia. assert (q' = 0) by nia. lia.
  - assert (0 <= r /\ 0 <= r') by nia. lia.
Qed.

(** A number fits when extending its low bits gives it back. *)
Lemma fits_sext w q : 0 < w -> fits w q <-> q = sext w q.
Proof.
  intros Hw. unfold fits, sext, wrap.
  assert (2 ^ w = 2 * 2 ^ (w - 1)) as Hp by (rewrite <-Z.pow_succ_r by lia; f_equal; lia).
  assert (0 < 2 ^ (w - 1)) by (apply Z.pow_pos_nonneg; lia).
  pose proof (Z.mod_pos_bound q (2 ^ w) ltac:(lia)). split.
  - intros Hq. destruct (Z.lt_ge_cases q 0).
    + assert (q mod 2 ^ w = q + 2 ^ w) as -> by (symmetry; apply (Z.mod_unique _ _ (-1)); lia). zcase; lia.
    + rewrite Z.mod_small by lia. zcase; lia.
  - zcase; lia.
Qed.

Lemma sext_wrap w x : 0 <= w -> sext w (wrap w x) = sext w x.
Proof. intros. unfold sext. by rewrite wrap_wrap by lia. Qed.

Lemma sext_fits w x : 0 < w -> fits w (sext w x).
Proof.
  intros Hw. unfold fits, sext. pose proof (wrap_range w x ltac:(lia)).
  assert (2 ^ w = 2 * 2 ^ (w - 1)) as Hp by (rewrite <-Z.pow_succ_r by lia; f_equal; lia). zcase; lia.
Qed.

Section Signed.
Context (sz : opsize) (t0 : Z) (env : CPUX86State) (Hok : regs_ok env).
Let num := sdividend sz env.
Let den := sext (bits sz) t0.

Lemma idiv_outcome_raise o :
  o = raise_exception EXCP00_DIVZ env -> den = 0 \/ Z.quot num den <> sext (bits sz) (Z.quot num den) ->
  idiv_outcome sz t0 env o.
Proof.
  intros -> H. right. left. split; [done|]. fold num den. intros q r Hqr Hf.
  destruct (Z.eq_dec den 0) as [H0|H0]; [destruct Hqr as (_ & ? & _); lia|].
  destruct H as [H|H]; [done|]. apply H. apply fits_sext; [pose proof (bits_range sz); lia|].
  by destruct (quot_rem_unique _ _ _ _ _ _ Hqr (quot_rem_quot num den H0)) as [<- _].
Qed.

Lemma idiv_outcome_ret o :
  den <> 0 -> Z.quot num den = sext (bits sz) (Z.quot num den) ->
  (exists env', o = XRet tt env' /\
     results sz env' = (wrap (bits sz) (Z.quot num den), wrap (bits sz) (Z.rem num den)) /\
     div_frame sz env env') ->
  idiv_outcome sz t0 env o.
Proof.
  intros H0 Hq (env' & -> & Hr & Hf). pose proof (bits_range sz) as Hsz. left. exists env'.
  split; [done|]. split; [done|]. unfold sresults. rewrite Hr, !sext_wrap, <-Hq by lia. fold num den.
  assert (sext (bits sz) (Z.rem num den) = Z.rem num den) as ->; [|by apply quot_rem_quot].
  symmetry. apply fits_sext; [lia|]. pose proof (sext_fits (bits sz) t0 ltac:(lia)) as Hd. fold den in Hd.
  destruct (quot_rem_quot num den H0) as (_ & Hb & _). unfold fits in *. lia.
Qed.
End Signed.

Lemma helper_idiv_outcome sz t0 env : regs_ok env -> idiv_outcome sz t0 env (helper_idiv sz t0 env).
Proof.
  intros Hok. destruct sz; unfold helper_idiv, of_size.
  - unfold helper_idivb_AL, xbind, xget, sdiv, s8, s16.
    assert (sext 16 (reg env R_EAX) = sdividend SzB env) as -> by (symmetry; by apply (sext_wrap 16)).
    set (num := sdividend SzB env). set (den := sext 8 t0).
    destruct (Z.eqb_spec den 0) as [H0|H0]; [by apply idiv_outcome_raise; auto|].
    destruct (Z.eqb_spec num (- 2 ^ (32 - 1))) as [H1|H1]; cbn [andb].
    { pose proof (sext_fits 16 (dividend SzB env) ltac:(done)) as Hf. unfold fits in Hf.
      change (sext 16 (dividend SzB env)) with num in Hf. lia. }
    cbn [xret fst snd]. destruct (Z.eqb_spec (Z.quot num den) (sext 8 (Z.quot num den))) as [Hq|Hq]; cbn [negb].
    + apply idiv_outcome_ret; [done..|]. rewrite !land_ff. apply store_b; [done|..]; by apply wrap_range.
    + apply idiv_outcome_raise; [done|]. by right.
  - unfold helper_idivw_AX, xbind, xget, sdiv, s32, s16. rewrite dx_ax_dividend.
    change (sext 32 (dividend SzW env)) with (sdividend SzW env).
    set (num := sdividend SzW env). set (den := sext 16 t0).
    destruct (Z.eqb_spec den 0) as [H0|H0]; [by apply idiv_outcome_raise; auto|].
    destruct (Z.eqb_spec num (- 2 ^ (32 - 1))) as [H1|H1], (Z.eqb_spec den (-1)) as [H2|H2]; cbn [andb];
      [by right; right| | |];
    (cbn [xret fst snd]; destruct (Z.eqb_spec (Z.quot num den) (sext 16 (Z.quot num den))) as [Hq|Hq]; cbn [negb];
     [apply idiv_outcome_ret; [done..|]; rewrite !land_ffff; apply store_w; [done|..]; by apply wrap_range
     |apply idiv_outcome_raise; [done|]; by right]).
  - unfold helper_idivl_EAX. cbv beta delta [xbind xget sdiv] iota zeta. rewrite edx_eax_dividend by done.
    change (s64 (dividend SzL env)) with (sdividend SzL env).
    set (num := sdividend SzL env). change (s32 t0) with (sext 32 t0). set (den := sext 32 t0).
    destruct (Z.eqb_spec den 0) as [H0|H0]; [by apply idiv_outcome_raise; auto|].
    destruct (Z.eqb_spec num (- 2 ^ (64 - 1))) as [H1|H1], (Z.eqb_spec den (-1)) as [H2|H2]; cbn [andb];
      [by right; right| | |];
    (cbn [xret fst snd]; unfold s32;
     destruct (Z.eqb_spec (Z.quot num den) (sext 32 (Z.quot num den))) as [Hq|Hq]; cbn [negb];
     [apply idiv_outcome_ret; [done..|]; by apply store_l
     |apply idiv_outcome_raise; [done|]; by right]).
Qed.

(** ** Properties *)

(** DIV of every operand size leaves quotient and remainder (the dividend
    is their combination, the remainder is smaller than the divisor) in its
    registers and nothing else changed; it raises the divide exception exactly
    when the divisor is zero or the quotient does not fit. *)
Theorem div_correct sz t0 env :
  regs_ok env ->
  let num := dividend sz env in
  let den := wrap (bits sz) t0 in
  (exists env', helper_div sz t0 env = XRet tt env' /\ div_frame sz env env' /\
     let '(q, r) := results sz env' in
     num = q * den + r /\ 0 <= r < den /\ in_range (bits sz) q) \/
  (helper_div sz t0 env = raise_exception EXCP00_DIVZ env /\
     forall q r, num = q * den + r -> 0 <= r < den -> 2 ^ bits sz <= q).
Proof. apply helper_div_outcome. Qed.

Definition cpu_with (eax edx : Z) : CPUX86State :=
  with_regs (<[R_EDX := edx]> (<[R_EAX := eax]> (regs blank_cpu))) blank_cpu.

Lemma cpu_with_ok eax edx : in_range 32 eax -> in_range 32 edx -> regs_ok (cpu_with eax edx).
Proof.
  intros Ha Hd. split; [done|]. unfold cpu_with. cbn [regs with_regs].
  apply Forall_insert; [|done]. apply Forall_insert; [|done]. by apply (bool_decide_unpack _).
Qed.

Lemma div_correct_witness :
  exists env', helper_div SzL 7 (cpu_with 100 0) = XRet tt env' /\ results SzL env' = (14, 2).
Proof.
  destruct (div_correct SzL 7 (cpu_with 100 0)) as [(env' & E & _ & H)|[E _]].
  - apply cpu_with_ok; lia.
  - exists env'. split; [exact E|]. destruct (results SzL env') as [q r].
    change (dividend SzL (cpu_with 100 0)) with 100 in H. change (wrap (bits SzL) 7) with 7 in H. f_equal; lia.
  - vm_compute in E. discriminate E.
Defined.

(** IDIV of every operand size leaves the truncated quotient and the
    remainder, or raises the divide exception exactly when no quotient fits;
    but a 16- or 32-bit division of the least dividend by -1 reaches the host's
    own division, which traps. *)
Theorem idiv_correct sz t0 env :
  regs_ok env ->
  let num := sdividend sz env in
  let den := sext (bits sz) t0 in
  (exists env', helper_idiv sz t0 env = XRet tt env' /\ div_frame sz env env' /\
     let '(q, r) := sresults sz env' in quot_rem num den q r) \/
  (helper_idiv sz t0 env = raise_exception EXCP00_DIVZ env /\
     forall q r, quot_rem num den q r -> ~ fits (bits sz) q) \/
  (sz <> SzB /\ num = - 2 ^ (2 * bits sz - 1) /\ den = -1 /\ helper_idiv sz t0 env = XHostTrap).
Proof. apply helper_idiv_outcome. Qed.

Lemma idiv_correct_witness :
  exists env', helper_idiv SzL 7 (cpu_with 0xffffff9c 0xffffffff) = XRet tt env' /\
    quot_rem (-100) 7 (fst (sresults SzL env')) (snd (sresults SzL env')).
Proof.
  destruct (idiv_correct SzL 7 (cpu_with 0xffffff9c 0xffffffff)) as [(env' & E & _ & H)|[[E _]|(_ & _ & H & _)]].
  - apply cpu_with_ok; lia.
  - exists env'. split; [exact E|]. by destruct (sresults SzL env') as [q r].
  - vm_compute in E. discriminate E.
  - vm_compute in H. discriminate H.
Defined.

(** A guest can reach that trap: with 0x8000000000000000 in EDX:EAX,
    IDIV by -1 ends the emulator instead of raising an exception in the
    guest. *)
Theorem idiv_host_trap : helper_idivl_EAX 0xffffffff (cpu_with 0 0x80000000) = XHostTrap.
Proof. reflexivity. Qed.

(** ** 128-bit division

    [div64] and [idiv64] of IntHelper.v divide a 128-bit number by a 64-bit one
    with a shift-and-subtract loop. *)

(** The number a pair (low, high) stands for. *)
Definition num128 (p : Z * Z) : Z := snd p * 2 ^ 64 + fst p.

(** [(x << 1) | c] *)
Lemma shift_in x c : in_range 64 x -> 0 <= c <= 1 ->
  Z.lor (u64 (Z.shiftl x 1)) c = 2 * x + c - x / 2 ^ 63 * 2 ^ 64 /\ 0 <= x / 2 ^ 63 <= 1.
Proof.
  intros Hx Hc. assert (0 <= x / 2 ^ 63 <= 1) as Hd.
  { split; [apply Z.div_pos; lia|]. assert (x / 2 ^ 63 < 2); [|lia]. apply Z.div_lt_upper_bound; lia. }
  split; [|done]. rewrite Z.shiftl_mul_pow2 by done. unfold u64, wrap.
  assert ((x * 2 ^ 1) mod 2 ^ 64 = (x mod 2 ^ 63) * 2 ^ 1) as ->.
  { change (2 ^ 64) with (2 ^ 63 * 2 ^ 1). by rewrite Z.mul_mod_distr_r. }
  rewrite lor_low by lia. pose proof (Z.div_mod x (2 ^ 63) ltac:(done)).
  change (2 ^ 64) with (2 * 2 ^ 63). change (2 ^ 1) with 2. lia.
Qed.

(** The state after [i] rounds: [q] is the quotient so far, [rest] the bits of
    the low word still to be shifted in; [I] and [P] are [2^i] and [2^(63-i)]. *)
Definition round (A b I P : Z) (a : Z * Z) : Prop :=
  exists q rest, 0 <= q < I /\ 0 <= rest < 2 * P /\ fst a = rest * I + q /\ 0 <= snd a < b /\
    A = (q * b + snd a) * (2 * P) + rest.

Lemma div64_step_round A b I P a :
  0 < b < 2 ^ 64 -> 0 < I -> 0 < P -> I * P = 2 ^ 63 -> round A b I P a ->
  let a' := div64_step b a in
  exists q rest, 0 <= q < 2 * I /\ 0 <= rest < P /\ fst a' = rest * (2 * I) + q /\ 0 <= snd a' < b /\
    A = (q * b + snd a') * P + rest.
Proof.
  intros Hb HI HP HIP (q & rest & Hq & Hrest & Ha0 & Ha1 & HA). destruct a as [a0 a1]. cbn [fst snd] in *.
  assert (in_range 64 a0) as H0 by (change (2 ^ 64) with (2 * 2 ^ 63); nia).
  assert (in_range 64 a1) as H1 by lia.
  set (bit := rest / P). assert (0 <= bit <= 1) as Hbit.
  { split; [apply Z.div_pos; lia|]. assert (rest / P < 2); [|subst bit; lia]. apply Z.div_lt_upper_bound; lia. }
  pose proof (Z.div_mod rest P ltac:(lia)) as Hdm. fold bit in Hdm.
  pose proof (Z.mod_pos_bound rest P HP) as Hrm. set (rest' := rest mod P) in *.
  assert (a0 / 2 ^ 63 = bit) as Htop.
  { symmetry. apply (Z.div_unique _ _ _ (rest' * I + q)); [left|]; rewrite <-HIP; nia. }
  unfold div64_step. rewrite !Z.shiftr_div_pow2 by done. rewrite Htop.
  destruct (shift_in a1 bit H1 Hbit) as [Hs1 Hc1]. rewrite Hs1.
  set (V := 2 * a1 + bit). set (c := a1 / 2 ^ 63) in *.
  assert (0 <= V - c * 2 ^ 64 < 2 ^ 64) as HV.
  { pose proof (Z.div_mod a1 (2 ^ 63) ltac:(done)). pose proof (Z.mod_pos_bound a1 (2 ^ 63) ltac:(done)).
    fold c in H. subst V. change (2 ^ 64) with (2 * 2 ^ 63). lia. }
  assert (exists qb, 0 <= qb <= 1 /\ 0 <= V - qb * b < b /\
    (if nz c || (b <=? V - c * 2 ^ 64) then (u64 (V - c * 2 ^ 64 - b), 1) else (V - c * 2 ^ 64, 0)) =
    (V - qb * b, qb)) as (qb & Hqb & Hr & ->).
  { unfold nz. destruct (Z.eqb_spec c 0) as [Hc0|Hc0]; cbn [negb orb].
    - rewrite Hc0, Z.mul_0_l, Z.sub_0_r. destruct (Z.leb_spec b V).
      + exists 1. split; [lia|]. split; [lia|]. unfold u64. rewrite wrap_id by lia. f_equal; lia.
      + exists 0. split; [lia|]. split; [lia|]. f_equal; lia.
    - exists 1. assert (c = 1) as -> by lia. split; [lia|]. split; [lia|]. f_equal.
      unfold u64, wrap. symmetry. apply (Z.mod_unique _ _ (-1)); lia. }
  destruct (shift_in a0 qb H0 Hqb) as [Hs0 _]. cbn [fst snd]. rewrite Hs0, Htop.
  exists (2 * q + qb), rest'. split; [lia|]. split; [lia|].
  split; [|split; [lia|subst V; nia]].
  rewrite Ha0. change (2 ^ 64) with (2 * 2 ^ 63). rewrite <-HIP. nia.
Qed.

Lemma div64_rounds A b a0 a1 n :
  0 < b < 2 ^ 64 -> in_range 64 a0 -> 0 <= a1 < b -> A = a1 * 2 ^ 64 + a0 -> (n <= 64)%nat ->
  exists q rest,
    let a := for_loop n (fun _ => div64_step b) (a0, a1) in
    0 <= q < 2 ^ Z.of_nat n /\ 0 <= rest < 2 ^ (64 - Z.of_nat n) /\
    fst a = rest * 2 ^ Z.of_nat n + q /\ 0 <= snd a < b /\
    A = (q * b + snd a) * 2 ^ (64 - Z.of_nat n) + rest.
Proof.
  intros Hb H0 H1 HA. induction n as [|n IH]; intros Hn.
  - exists 0, a0. simpl. change (2 ^ 64) with 18446744073709551616 in *. lia.
  - destruct IH as (q & rest & IHq); [lia|]. cbv zeta in IHq. cbn [for_loop].
    replace (2 ^ Z.of_nat (S n)) with (2 * 2 ^ Z.of_nat n)
      by (rewrite Nat2Z.inj_succ, Z.pow_succ_r by lia; done).
    replace (64 - Z.of_nat (S n)) with (63 - Z.of_nat n) by lia.
    apply div64_step_round; [done|apply Z.pow_pos_nonneg; lia..| |].
    + rewrite <-Z.pow_add_r by lia. f_equal. lia.
    + exists q, rest. replace (2 * 2 ^ (63 - Z.of_nat n)) with (2 ^ (64 - Z.of_nat n))
        by (rewrite <-Z.pow_succ_r by lia; f_equal; lia). done.
Qed.

Lemma div64_spec p b :
  in_range 64 (fst p) -> in_range 64 (snd p) -> 0 < b < 2 ^ 64 ->
  div64 p b = if num128 p / b <? 2 ^ 64 then Some (num128 p / b, num128 p mod b) else None.
Proof.
  destruct p as [a0 a1]. unfold num128. cbn [fst snd]. intros H0 H1 Hb. unfold div64.
  destruct (Z.eqb_spec a1 0) as [->|Hn0].
  { rewrite Z.mul_0_l, Z.add_0_l. pose proof (Z.div_le_upper_bound a0 b a0). destruct (Z.ltb_spec (a0 / b) (2 ^ 64)); [done|nia]. }
  destruct (Z.leb_spec b a1).
  { destruct (Z.ltb_spec ((a1 * 2 ^ 64 + a0) / b) (2 ^ 64)) as [Hlt|]; [exfalso|done].
    pose proof (Z.div_le_lower_bound (a1 * 2 ^ 64 + a0) b (2 ^ 64)). nia. }
  destruct (div64_rounds (a1 * 2 ^ 64 + a0) b a0 a1 64) as (q & rest & Hq & Hr & Hf & Hs & HA); [done..|lia|done|lia|].
  destruct (for_loop 64 _ (a0, a1)) as [l h]. cbn [fst snd] in *. change (Z.of_nat 64) with 64 in *.
  change (2 ^ (64 - 64)) with 1 in *.
  assert ((a1 * 2 ^ 64 + a0) / b = q) as -> by (symmetry; apply (Z.div_unique _ _ _ h); lia).
  assert ((a1 * 2 ^ 64 + a0) mod b = h) as -> by (symmetry; apply (Z.mod_unique _ _ q); lia).
  destruct (Z.ltb_spec q (2 ^ 64)); [|lia]. f_equal. f_equal. lia.
Qed.

(** ** Signed *)

Lemma u64_lnot x : in_range 64 x -> u64 (Z.lnot x) = 2 ^ 64 - 1 - x.
Proof.
  intros Hx. unfold u64, wrap. symmetry. apply (Z.mod_unique _ _ (-1)); [lia|].
  unfold Z.lnot. lia.
Qed.

Lemma neg128_spec p :
  in_range 64 (fst p) -> in_range 64 (snd p) -> num128 p <> 0 ->
  num128 (neg128 p) = 2 ^ 128 - num128 p /\ in_range 64 (fst (neg128 p)) /\ in_range 64 (snd (neg128 p)).
Proof.
  destruct p as [l h]. unfold num128. cbn [fst snd]. intros Hl Hh Hn.
  unfold neg128, add128. rewrite !u64_lnot by done. change (2 ^ 128) with (2 ^ 64 * 2 ^ 64).
  destruct (Z.eq_dec l 0) as [->|Hl0].
  - assert (u64 (2 ^ 64 - 1 - 0 + 1) = 0) as -> by done. cbn [Z.ltb Z.compare].
    assert (u64 (2 ^ 64 - 1 - h + 1) = 2 ^ 64 - h) as -> by (unfold u64; rewrite wrap_id; lia).
    unfold u64. rewrite wrap_id by lia. cbn [fst snd]. lia.
  - assert (u64 (2 ^ 64 - 1 - l + 1) = 2 ^ 64 - l) as -> by (unfold u64; rewrite wrap_id; lia).
    destruct (Z.ltb_spec (2 ^ 64 - l) 1); [lia|]. unfold u64. rewrite wrap_id by lia. cbn [fst snd]. lia.
Qed.

Lemma sext_cases w x : 0 < w -> in_range w x ->
  sext w x = x - (if sext w x <? 0 then 2 ^ w else 0) /\ (sext w x <? 0) = (2 ^ (w - 1) <=? x).
Proof.
  intros Hw Hx. assert (2 ^ w = 2 * 2 ^ (w - 1)) as Hp by (rewrite <-Z.pow_succ_r by lia; f_equal; lia).
  unfold sext. rewrite wrap_id by done. zcase; lia.
Qed.

(** The signed reading of the pair. *)
Definition snum128 (p : Z * Z) : Z := sext 128 (num128 p).

Lemma num128_range p : in_range 64 (fst p) -> in_range 64 (snd p) -> in_range 128 (num128 p).
Proof. unfold num128. intros. change (2 ^ 128) with (2 ^ 64 * 2 ^ 64). lia. Qed.

Lemma snum128_sign p : in_range 64 (fst p) -> in_range 64 (snd p) -> (s64 (snd p) <? 0) = (snum128 p <? 0).
Proof.
  intros Hl Hh. unfold snum128, s64. destruct (sext_cases 64 (snd p) ltac:(done) Hh) as [_ ->].
  destruct (sext_cases 128 (num128 p) ltac:(done) (num128_range p Hl Hh)) as [_ ->].
  unfold num128. change (2 ^ (64 - 1)) with (2 ^ 63). change (2 ^ (128 - 1)) with (2 ^ 63 * 2 ^ 64). zcase; lia.
Qed.

(** The pair without its sign. *)
Lemma abs128 p : in_range 64 (fst p) -> in_range 64 (snd p) ->
  let p' := if snum128 p <? 0 then neg128 p else p in
  num128 p' = Z.abs (snum128 p) /\ in_range 64 (fst p') /\ in_range 64 (snd p').
Proof.
  intros Hl Hh p'. subst p'. destruct (sext_cases 128 (num128 p) ltac:(done) (num128_range p Hl Hh)) as [Hs Hc].
  fold (snum128 p) in Hs, Hc. destruct (Z.ltb_spec (snum128 p) 0) as [Hn|Hn].
  - pose proof (num128_range p Hl Hh). destruct (neg128_spec p Hl Hh) as (-> & H1 & H2); [lia|]. lia.
  - split; [lia|done].
Qed.

Lemma abs64 b : fits 64 b -> b <> 0 -> u64 (if b <? 0 then s64 (- b) else b) = Z.abs b /\ 0 < Z.abs b <= 2 ^ 63.
Proof.
  unfold fits. change (2 ^ (64 - 1)) with (2 ^ 63). intros Hb H0. split; [|lia].
  destruct (Z.ltb_spec b 0).
  - unfold u64, s64, sext. rewrite (wrap_id 64 (- b)) by lia.
    destruct (Z.ltb_spec (- b) (2 ^ (64 - 1))) as [?|H1]; [rewrite wrap_id; lia|].
    change (2 ^ (64 - 1)) with (2 ^ 63) in H1. assert (b = - 2 ^ 63) as -> by lia. done.
  - unfold u64. rewrite wrap_id; lia.
Qed.

Lemma idiv64_spec p b :
  in_range 64 (fst p) -> in_range 64 (snd p) -> fits 64 b -> b <> 0 ->
  let q := Z.quot (snum128 p) b in
  idiv64 p b =
    if (- 2 ^ 63 <=? q) && (q <? 2 ^ 63) then Some (u64 q, u64 (Z.rem (snum128 p) b)) else None.
Proof.
  intros Hl Hh Hb H0 q. destruct (abs64 b Hb H0) as [Ha Hr]. unfold idiv64.
  rewrite snum128_sign, Ha by done. destruct (abs128 p Hl Hh) as (Hn & H1 & H2).
  rewrite (div64_spec _ _ H1 H2) by lia. rewrite Hn. set (N := snum128 p) in *. clearbody N. clear Hn H1 H2.
  assert (q = Z.sgn N * Z.sgn b * (Z.abs N / Z.abs b)) as Hq by (by apply Z.quot_div).
  assert (Z.rem N b = Z.sgn N * (Z.abs N mod Z.abs b)) as Hm by (by apply Z.rem_mod).
  set (Q := Z.abs N / Z.abs b) in *. set (R := Z.abs N mod Z.abs b) in *.
  assert (0 <= Q) by (apply Z.div_pos; lia). assert (0 <= R < Z.abs b) by (apply Z.mod_pos_bound; lia).
  assert (N = 0 -> Q = 0) by (intros ->; apply Z.div_0_l; lia).
  change (Z.shiftl 1 63) with (2 ^ 63).
  assert (forall x, in_range 64 x -> u64 x = x) as Hu by (intros; by apply wrap_id).
  destruct (Z.ltb_spec N 0), (Z.ltb_spec b 0); cbn [xorb];
  rewrite ?(Z.sgn_neg N), ?(Z.sgn_neg b), ?(Z.sgn_pos b) in * by lia.
  - assert (q = Q) as -> by lia. assert (Z.rem N b = - R) as -> by lia.
    zcase; cbn [andb]; rewrite ?(Hu Q), ?(Hu R) by lia; done || lia.
  - assert (q = - Q) as -> by lia. assert (Z.rem N b = - R) as -> by lia. zcase; cbn [andb]; done || lia.
  - assert (q = - Q) as -> by (destruct (Z.eq_dec N 0); [lia|rewrite (Z.sgn_pos N) in * by lia; lia]).
    assert (Z.rem N b = R) as -> by (destruct (Z.eq_dec N 0) as [->|]; [done|rewrite (Z.sgn_pos N) in * by lia; lia]).
    zcase; cbn [andb]; rewrite ?(Hu R) by lia; done || lia.
  - assert (q = Q) as -> by (destruct (Z.eq_dec N 0); [lia|rewrite (Z.sgn_pos N) in * by lia; lia]).
    assert (Z.rem N b = R) as -> by (destruct (Z.eq_dec N 0) as [->|]; [done|rewrite (Z.sgn_pos N) in * by lia; lia]).
    zcase; cbn [andb]; rewrite ?(Hu Q), ?(Hu R) by lia; done || lia.
Qed.

(** ** Properties *)

(** The shift-and-subtract loop divides: for every 128-bit dividend and
    every non-zero divisor [div64] returns quotient and remainder, and reports
    an overflow exactly when the quotient does not fit in 64 bits. *)
Theorem div64_divides p b :
  in_range 64 (fst p) -> in_range 64 (snd p) -> 0 < b < 2 ^ 64 ->
  div64 p b = if num128 p / b <? 2 ^ 64 then Some (num128 p / b, num128 p mod b) else None.
Proof. apply div64_spec. Qed.

Lemma div64_divides_witness : div64 (5, 3) 7 = Some ((3 * 2 ^ 64 + 5) / 7, (3 * 2 ^ 64 + 5) mod 7).
Proof. rewrite (div64_divides (5, 3) 7); [reflexivity|simpl; lia..]. Defined.

(** [idiv64] is truncating signed division of the 128-bit number, with
    an overflow exactly when the quotient is not a signed 64-bit number. *)
Theorem idiv64_divides p b :
  in_range 64 (fst p) -> in_range 64 (snd p) -> fits 64 b -> b <> 0 ->
  let q := Z.quot (snum128 p) b in
  idiv64 p b =
    if (- 2 ^ 63 <=? q) && (q <? 2 ^ 63) then Some (u64 q, u64 (Z.rem (snum128 p) b)) else None.
Proof. apply idiv64_spec. Qed.

Lemma idiv64_divides_witness : idiv64 (u64 (-100), u64 (-1)) 7 = Some (u64 (-14), u64 (-2)).
Proof. rewrite (idiv64_divides (u64 (-100), u64 (-1)) 7); [reflexivity|vm_compute; intuition discriminate..|lia]. Defined.
