(* ===== verification/IntDecimal.v ===== *)
(** * Decimal adjustment

    The adjustments of IntHelper.v turn the binary sum or difference of
    decimal operands into a decimal one. The packed ones are checked for all
    pairs of two-digit operands. *)

From stdpp Require Import base list.
From Stdlib Require Import ZArith Lia.
From S2P Require Import Prelude Cpu CcHelper Excp IntHelper IntDiv.

Local Open Scope Z_scope.
Local Open Scope x_scope.

(** Two decimal digits in a byte. *)
Definition bcd (n : Z) : Z := n / 10 * 16 + n mod 10.

(** AL, and the flags after an adjustment (the representation becomes the
    flags themselves). *)
Definition al (env : CPUX86State) : Z := reg env R_EAX mod 2 ^ 8.
Definition ah (env : CPUX86State) : Z := reg env R_EAX / 2 ^ 8 mod 2 ^ 8.
Definition carry_of (env : CPUX86State) : bool := Z.testbit (cc_src env) 0.

(** ** The adjustments as functions of AL and of the flags *)

Definition daa_byte (a fl : Z) : Z * Z :=
  let cf := Z.land fl CC_C in
  let af := Z.land fl CC_A in
  let '(x, e) := if (9 <? Z.land a 0x0f) || nz af then (Z.land (a + 6) 0xff, CC_A) else (a, 0) in
  if (0x99 <? a) || nz cf then (Z.land (x + 0x60) 0xff, Z.lor e CC_C) else (x, e).

Definition das_byte (a fl : Z) : Z * Z :=
  let cf := Z.land fl CC_C in
  let af := Z.land fl CC_A in
  let '(x, e) :=
    if (9 <? Z.land a 0x0f) || nz af
    then (Z.land (a - 6) 0xff, if (a <? 6) || nz cf then Z.lor CC_A CC_C else CC_A) else (a, 0) in
  if (0x99 <? a) || nz cf then (Z.land (x - 0x60) 0xff, Z.lor e CC_C) else (x, e).

(** Storing the adjusted byte and its flags. *)
Definition put_al (env : CPUX86State) (x e : Z) : X unit :=
  set_reg R_EAX (Z.lor (Z.land (reg env R_EAX) (inv 0xff)) x) ;;
  xmod (with_cc_src (u32 (szp_flags x e))).

Lemma helper_daa_byte env :
  helper_daa env =
  let '(x, e) := daa_byte (al env) (cpu_cc_compute_all env (cc_op env)) in put_al env x e env.
Proof.
  unfold helper_daa, daa_byte, al. cbv beta delta [xbind xget] iota zeta. rewrite land_ff.
  destruct (_ || nz _), (_ || nz _); reflexivity.
Qed.

Lemma helper_das_byte env :
  helper_das env =
  let '(x, e) := das_byte (al env) (cpu_cc_compute_all env (cc_op env)) in put_al env x e env.
Proof.
  unfold helper_das, das_byte, al. cbv beta delta [xbind xget] iota zeta. rewrite land_ff.
  destruct (_ || nz (Z.land _ CC_A)), (_ || nz (Z.land _ CC_C)); try reflexivity.
Qed.

Lemma szp_carry x e : 0 <= x < 256 -> Z.testbit (u32 (szp_flags x e)) 0 = Z.testbit e 0.
Proof.
  intros Hx. unfold u32, szp_flags. rewrite testbit_wrap, !Z.lor_spec, Z.land_spec, parity_ok by lia.
  change (Z.testbit 128 0) with false. rewrite andb_false_r, orb_false_r.
  destruct (x =? 0), (even_parity x); cbn; by rewrite !orb_false_r.
Qed.

Lemma put_al_spec env x e :
  regs_ok env -> in_range 8 x ->
  exists env', put_al env x e env = XRet tt env' /\ al env' = x /\ carry_of env' = Z.testbit e 0 /\
    reg env' R_EAX / 2 ^ 8 = reg env R_EAX / 2 ^ 8.
Proof.
  intros Hok Hx. unfold put_al. change 0xff with (Z.ones 8).
  destruct (put_low (reg env R_EAX) 8 x) as [-> H1]; [done|by apply reg_range|done|].
  eexists. unfold xbind, set_reg, xmod. split; [done|].
  unfold al, carry_of. cbn [cc_src with_cc_src].
  assert (forall v, reg (with_cc_src v (with_regs (<[R_EAX:=u32 (reg env R_EAX / 2 ^ 8 * 2 ^ 8 + x)]> (regs env)) env)) R_EAX
    = reg env R_EAX / 2 ^ 8 * 2 ^ 8 + x) as ->.
  { intros v. unfold u32. rewrite wrap_id by done. apply reg_with_same. destruct Hok as [-> _]. unfold R_EAX. lia. }
  rewrite szp_carry by done. destruct (read_low (reg env R_EAX / 2 ^ 8) 8 x) as [-> ->]; done.
Qed.

(** ** All pairs of operands *)

Definition digits (n : nat) : list Z := Z.of_nat <$> seq 0 n.

Definition daa_good (a b : Z) : bool :=
  let '(x, e) := daa_byte ((bcd a + bcd b) mod 2 ^ 8)
                   (helper_cc_compute_all (bcd a + bcd b) (bcd b) 0 CC_OP_ADDB) in
  (x =? bcd ((a + b) mod 100)) && eqb (Z.testbit e 0) (100 <=? a + b).

Definition das_good (a b : Z) : bool :=
  let '(x, e) := das_byte ((bcd a - bcd b) mod 2 ^ 8)
                   (helper_cc_compute_all (u32 (bcd a - bcd b)) (bcd b) 0 CC_OP_SUBB) in
  (x =? bcd ((a - b) mod 100)) && eqb (Z.testbit e 0) (a <? b).

Lemma daa_all : forallb (fun a => forallb (daa_good a) (digits 100)) (digits 100) = true.
Proof. vm_compute. reflexivity. Qed.

Lemma das_all : forallb (fun a => forallb (das_good a) (digits 100)) (digits 100) = true.
Proof. vm_compute. reflexivity. Qed.

Lemma in_digits n a : 0 <= a < Z.of_nat n -> In a (digits n).
Proof.
  intros Ha. apply list_elem_of_In, list_elem_of_fmap. exists (Z.to_nat a).
  split; [by rewrite Z2Nat.id by lia|]. apply list_elem_of_In, in_seq. lia.
Qed.

Lemma all_pairs (f : Z -> Z -> bool) n a b :
  forallb (fun a => forallb (f a) (digits n)) (digits n) = true ->
  0 <= a < Z.of_nat n -> 0 <= b < Z.of_nat n -> f a b = true.
Proof.
  intros H Ha Hb. rewrite forallb_forall in H. specialize (H a (in_digits n a Ha)).
  rewrite forallb_forall in H. by apply H, in_digits.
Qed.

Lemma bcd_range n : 0 <= n < 100 -> in_range 8 (bcd n).
Proof.
  intros Hn. unfold bcd. change (2 ^ 8) with 256. pose proof (Z.mod_pos_bound n 10 ltac:(done)).
  pose proof (Z.div_lt_upper_bound n 10 10 ltac:(done) ltac:(lia)). pose proof (Z.div_pos n 10). lia.
Qed.

(** ** Unpacked digits *)

Definition aaa_bytes (a h fl : Z) : Z * Z * Z :=
  if (9 <? Z.land a 0x0f) || nz (Z.land fl CC_A)
  then (Z.land (a + 6) 0x0f, Z.land (h + 1 + b2z (0xf9 <? a)) 0xff, Z.lor fl (Z.lor CC_C CC_A))
  else (Z.land a 0x0f, h, Z.land fl (Z.lnot (Z.lor CC_C CC_A))).

Definition aas_bytes (a h fl : Z) : Z * Z * Z :=
  if (9 <? Z.land a 0x0f) || nz (Z.land fl CC_A)
  then (Z.land (a - 6) 0x0f, Z.land (h - 1 - b2z (a <? 6)) 0xff, Z.lor fl (Z.lor CC_C CC_A))
  else (Z.land a 0x0f, h, Z.land fl (Z.lnot (Z.lor CC_C CC_A))).

Definition put_ax (env : CPUX86State) (x : Z * Z * Z) : X unit :=
  set_reg R_EAX (Z.lor (Z.lor (Z.land (reg env R_EAX) (inv 0xffff)) (fst (fst x))) (Z.shiftl (snd (fst x)) 8)) ;;
  xmod (with_cc_src (u32 (snd x))).

Lemma ah_shift env : Z.land (Z.shiftr (reg env R_EAX) 8) 0xff = ah env.
Proof. by rewrite land_ff, Z.shiftr_div_pow2. Qed.

Lemma helper_aaa_bytes env :
  helper_aaa env = put_ax env (aaa_bytes (al env) (ah env) (cpu_cc_compute_all env (cc_op env))) env.
Proof.
  unfold helper_aaa, aaa_bytes. cbv beta delta [xbind xget] iota zeta. rewrite ah_shift, land_ff.
  fold (al env). by destruct (_ || nz _).
Qed.

Lemma helper_aas_bytes env :
  helper_aas env = put_ax env (aas_bytes (al env) (ah env) (cpu_cc_compute_all env (cc_op env))) env.
Proof.
  unfold helper_aas, aas_bytes. cbv beta delta [xbind xget] iota zeta. rewrite ah_shift, land_ff.
  fold (al env). by destruct (_ || nz _).
Qed.

(** AX, by bytes. *)
Lemma ax_word env x h :
  regs_ok env -> in_range 8 x -> in_range 8 h ->
  exists v,
    Z.lor (Z.lor (Z.land (reg env R_EAX) (inv 0xffff)) x) (Z.shiftl h 8) = v /\ in_range 32 v /\
    v mod 2 ^ 8 = x /\ v / 2 ^ 8 mod 2 ^ 8 = h.
Proof.
  intros Hok Hx Hh. rewrite <-Z.lor_assoc, (Z.lor_comm x), Z.shiftl_mul_pow2, lor_low by done.
  change 0xffff with (Z.ones 16).
  assert (0 <= h * 2 ^ 8 + x < 2 ^ 16) as Hv by (change (2 ^ 8) with 256 in *; change (2 ^ 16) with 65536; lia).
  destruct (put_low (reg env R_EAX) 16 (h * 2 ^ 8 + x)) as [-> Hin]; [done|by apply reg_range|done|].
  eexists. split; [done|]. split; [done|].
  assert (reg env R_EAX / 2 ^ 16 * 2 ^ 16 + (h * 2 ^ 8 + x) =
    (reg env R_EAX / 2 ^ 16 * 2 ^ 8 + h) * 2 ^ 8 + x) as -> by (change (2 ^ 16) with (2 ^ 8 * 2 ^ 8); lia).
  destruct (read_low (reg env R_EAX / 2 ^ 16 * 2 ^ 8 + h) 8 x) as [-> ->]; [done..|].
  split; [done|]. by apply read_low.
Qed.

Lemma reg_eax_after env v (f : CPUX86State -> CPUX86State) :
  regs_ok env -> in_range 32 v -> (forall e, regs (f e) = regs e) ->
  reg (f (with_regs (<[R_EAX := u32 v]> (regs env)) env)) R_EAX = v.
Proof.
  intros [Hl _] Hv Hf. unfold reg. rewrite Hf. unfold u32. rewrite wrap_id by done.
  apply reg_with_same. rewrite Hl. unfold R_EAX. lia.
Qed.

Lemma put_ax_spec env x h e :
  regs_ok env -> in_range 8 x -> in_range 8 h ->
  exists env', put_ax env (x, h, e) env = XRet tt env' /\ al env' = x /\ ah env' = h /\
    carry_of env' = Z.testbit e 0.
Proof.
  intros Hok Hx Hh. destruct (ax_word env x h Hok Hx Hh) as (v & E & Hv & Hl & Hhi).
  unfold put_ax. cbn [fst snd]. rewrite E. eexists. unfold xbind, set_reg, xmod. split; [done|].
  unfold al, ah. rewrite (reg_eax_after env v (with_cc_src (u32 e))) by done.
  split; [done|]. split; [done|]. unfold carry_of. cbn [cc_src with_cc_src]. unfold u32. by rewrite testbit_wrap by lia.
Qed.

(** Digits [a] and [b] as numbers ([z = 0]) or as characters ([z = 0x30]). *)
Definition aaa_good (z a b : Z) : bool :=
  let fl := helper_cc_compute_all (z + a + (z + b)) (z + b) 0 CC_OP_ADDB in
  let t := (z + a + (z + b)) mod 2 ^ 8 in
  let adj := (9 <? Z.land t 0x0f) || nz (Z.land fl CC_A) in
  eqb adj (10 <=? a + b) && negb (0xf9 <? t) &&
  (if adj then Z.land (t + 6) 0x0f =? a + b - 10 else Z.land t 0x0f =? a + b).

Definition aas_good (z a b : Z) : bool :=
  let fl := helper_cc_compute_all (u32 (z + a - (z + b))) (z + b) 0 CC_OP_SUBB in
  let t := (z + a - (z + b)) mod 2 ^ 8 in
  let adj := (9 <? Z.land t 0x0f) || nz (Z.land fl CC_A) in
  eqb adj (a <? b) && (negb adj || negb (t <? 6)) &&
  (if adj then Z.land (t - 6) 0x0f =? a - b + 10 else Z.land t 0x0f =? a - b).

Lemma aaa_all :
  forallb (fun a => forallb (aaa_good 0 a) (digits 10)) (digits 10) = true /\
  forallb (fun a => forallb (aaa_good 0x30 a) (digits 10)) (digits 10) = true.
Proof. split; vm_compute; reflexivity. Qed.

Lemma aas_all :
  forallb (fun a => forallb (aas_good 0 a) (digits 10)) (digits 10) = true /\
  forallb (fun a => forallb (aas_good 0x30 a) (digits 10)) (digits 10) = true.
Proof. split; vm_compute; reflexivity. Qed.

Lemma compute_all_addb_src2 d s s2 :
  helper_cc_compute_all d s s2 CC_OP_ADDB = helper_cc_compute_all d s 0 CC_OP_ADDB.
Proof. reflexivity. Qed.
Lemma compute_all_subb_src2 d s s2 :
  helper_cc_compute_all d s s2 CC_OP_SUBB = helper_cc_compute_all d s 0 CC_OP_SUBB.
Proof. reflexivity. Qed.

Lemma ah_range env : in_range 8 (ah env).
Proof. by apply Z.mod_pos_bound. Qed.

(** ** Properties *)

(** The CPU has just added (or subtracted) bytes [x] and [y]. *)
Definition after_add (x y : Z) (env : CPUX86State) : Prop :=
  regs_ok env /\ cc_op env = CC_OP_ADDB /\ cc_dst env = x + y /\ cc_src env = y /\ al env = (x + y) mod 2 ^ 8.
Definition after_sub (x y : Z) (env : CPUX86State) : Prop :=
  regs_ok env /\ cc_op env = CC_OP_SUBB /\ cc_dst env = u32 (x - y) /\ cc_src env = y /\ al env = (x - y) mod 2 ^ 8.

(** After the addition of two-digit decimal numbers, DAA leaves their
    decimal sum in AL and the carry tells whether it reached 100; after a
    subtraction DAS leaves the decimal difference and the borrow; the rest
    of EAX is untouched. *)
Theorem packed_decimal_correct a b :
  0 <= a < 100 -> 0 <= b < 100 ->
  (forall env, after_add (bcd a) (bcd b) env ->
     exists env', helper_daa env = XRet tt env' /\ al env' = bcd ((a + b) mod 100) /\
       carry_of env' = (100 <=? a + b) /\ reg env' R_EAX / 2 ^ 8 = reg env R_EAX / 2 ^ 8) /\
  (forall env, after_sub (bcd a) (bcd b) env ->
     exists env', helper_das env = XRet tt env' /\ al env' = bcd ((a - b) mod 100) /\
       carry_of env' = (a <? b) /\ reg env' R_EAX / 2 ^ 8 = reg env R_EAX / 2 ^ 8).
Proof.
  intros Ha Hb. split; intros env (Hok & Ho & Hd & Hs & Hal).
  - rewrite helper_daa_byte. unfold cpu_cc_compute_all. rewrite Ho, Hd, Hs, Hal.
    pose proof (all_pairs _ 100 a b daa_all ltac:(lia) ltac:(lia)) as Hg. unfold daa_good in Hg.
    rewrite compute_all_addb_src2.
    destruct (daa_byte _ _) as [x e]. apply andb_true_iff in Hg as [->%Z.eqb_eq He%eqb_prop].
    rewrite <-He. apply put_al_spec; [done|]. apply bcd_range. by apply Z.mod_pos_bound.
  - rewrite helper_das_byte. unfold cpu_cc_compute_all. rewrite Ho, Hd, Hs, Hal.
    pose proof (all_pairs _ 100 a b das_all ltac:(lia) ltac:(lia)) as Hg. unfold das_good in Hg.
    rewrite compute_all_subb_src2.
    destruct (das_byte _ _) as [x e]. apply andb_true_iff in Hg as [->%Z.eqb_eq He%eqb_prop].
    rewrite <-He. apply put_al_spec; [done|]. apply bcd_range. by apply Z.mod_pos_bound.
Qed.

Definition added (x y : Z) : CPUX86State :=
  with_regs (<[R_EAX := (x + y) mod 2 ^ 8]> (regs blank_cpu))
    (with_cc_op CC_OP_ADDB (with_cc_dst (x + y) (with_cc_src y blank_cpu))).

Lemma packed_decimal_correct_witness :
  exists env', helper_daa (added 0x58 0x67) = XRet tt env' /\ al env' = 0x25 /\ carry_of env' = true.
Proof.
  destruct (packed_decimal_correct 58 67 ltac:(lia) ltac:(lia)) as [H _].
  destruct (H (added 0x58 0x67)) as (env' & E & H1 & H2 & _).
  - repeat split; try done. by apply (bool_decide_unpack _).
  - exists env'. split; [exact E|]. split; [exact H1|exact H2].
Defined.

Lemma land_carry_clear fl : Z.testbit (Z.land fl (Z.lnot (Z.lor CC_C CC_A))) 0 = false.
Proof. by rewrite Z.land_spec, andb_false_r. Qed.
Lemma lor_carry_set fl : Z.testbit (Z.lor fl (Z.lor CC_C CC_A)) 0 = true.
Proof. by rewrite Z.lor_spec, orb_true_r. Qed.

Lemma aaa_digits z a b env :
  z = 0 \/ z = 0x30 -> 0 <= a < 10 -> 0 <= b < 10 -> after_add (z + a) (z + b) env ->
  exists env', helper_aaa env = XRet tt env' /\ al env' = (a + b) mod 10 /\
    ah env' = (ah env + (a + b) / 10) mod 2 ^ 8 /\ carry_of env' = (10 <=? a + b).
Proof.
  intros Hz Ha Hb (Hok & Ho & Hd & Hs & Hal). pose proof (ah_range env) as Hh.
  rewrite helper_aaa_bytes. unfold cpu_cc_compute_all. rewrite Ho, Hd, Hs, Hal.
  assert (aaa_good z a b = true) as Hg.
  { destruct aaa_all as [A0 A3]. destruct Hz as [-> | ->].
    - by apply (all_pairs _ 10 a b A0). - by apply (all_pairs _ 10 a b A3). }
  unfold aaa_good in Hg. unfold aaa_bytes.
  rewrite compute_all_addb_src2.
  apply andb_true_iff in Hg as [[Hadj%eqb_prop Hi%negb_true_iff]%andb_true_iff Hv]. rewrite Hadj, Hi in *.
  rewrite Z.add_0_r, land_ff. destruct (Z.leb_spec 10 (a + b)).
  - apply Z.eqb_eq in Hv. rewrite Hv, <-(lor_carry_set (helper_cc_compute_all (z + a + (z + b)) (z + b) 0 CC_OP_ADDB)).
    assert ((a + b) mod 10 = a + b - 10) as -> by (symmetry; apply (Z.mod_unique _ _ 1); lia).
    assert ((a + b) / 10 = 1) as -> by (symmetry; apply (Z.div_unique _ _ _ (a + b - 10)); lia).
    apply put_ax_spec; [done|change (2 ^ 8) with 256; lia|by apply Z.mod_pos_bound].
  - apply Z.eqb_eq in Hv. rewrite Hv, <-(land_carry_clear (helper_cc_compute_all (z + a + (z + b)) (z + b) 0 CC_OP_ADDB)).
    rewrite Z.mod_small, Z.div_small, Z.add_0_r, Z.mod_small by lia.
    apply put_ax_spec; [done|change (2 ^ 8) with 256; lia|done].
Qed.

Lemma aas_digits z a b env :
  z = 0 \/ z = 0x30 -> 0 <= a < 10 -> 0 <= b < 10 -> after_sub (z + a) (z + b) env ->
  exists env', helper_aas env = XRet tt env' /\ al env' = (a - b) mod 10 /\
    ah env' = (ah env + (a - b) / 10) mod 2 ^ 8 /\ carry_of env' = (a <? b).
Proof.
  intros Hz Ha Hb (Hok & Ho & Hd & Hs & Hal). pose proof (ah_range env) as Hh.
  rewrite helper_aas_bytes. unfold cpu_cc_compute_all. rewrite Ho, Hd, Hs, Hal.
  assert (aas_good z a b = true) as Hg.
  { destruct aas_all as [A0 A3]. destruct Hz as [-> | ->].
    - by apply (all_pairs _ 10 a b A0). - by apply (all_pairs _ 10 a b A3). }
  unfold aas_good in Hg. unfold aas_bytes.
  rewrite compute_all_subb_src2.
  apply andb_true_iff in Hg as [[Hadj%eqb_prop Hi]%andb_true_iff Hv]. rewrite Hadj in *.
  rewrite land_ff. destruct (Z.ltb_spec a b).
  - apply negb_true_iff in Hi. rewrite Hi. apply Z.eqb_eq in Hv.
    rewrite Hv, <-(lor_carry_set (helper_cc_compute_all (u32 (z + a - (z + b))) (z + b) 0 CC_OP_SUBB)).
    assert ((a - b) mod 10 = a - b + 10) as -> by (symmetry; apply (Z.mod_unique _ _ (-1)); lia).
    assert ((a - b) / 10 = -1) as -> by (symmetry; apply (Z.div_unique _ _ _ (a - b + 10)); lia).
    rewrite Z.sub_0_r. apply put_ax_spec; [done|change (2 ^ 8) with 256; lia|by apply Z.mod_pos_bound].
  - apply Z.eqb_eq in Hv. rewrite Hv, <-(land_carry_clear (helper_cc_compute_all (u32 (z + a - (z + b))) (z + b) 0 CC_OP_SUBB)).
    rewrite Z.mod_small, Z.div_small, Z.add_0_r, (Z.mod_small (ah env)) by lia.
    apply put_ax_spec; [done|change (2 ^ 8) with 256; lia|done].
Qed.

Lemma regs_ok_insert env r v e : regs_ok env -> in_range 32 v -> regs e = <[r := v]> (regs env) -> regs_ok e.
Proof.
  intros [Hl Hf] Hv He. split; [by rewrite He, length_insert|]. rewrite He. by apply Forall_insert.
Qed.

Lemma aam_aad env :
  regs_ok env ->
  exists env1 env2,
    helper_aam 10 env = XRet tt env1 /\ ah env1 = al env / 10 /\ al env1 = al env mod 10 /\
    helper_aad 10 env1 = XRet tt env2 /\ al env2 = al env /\ ah env2 = 0.
Proof.
  intros Hok. assert (0 <= al env < 256) as Hal by (by apply Z.mod_pos_bound).
  assert (in_range 8 (al env mod 10) /\ in_range 8 (al env / 10)) as [Hm Hd].
  { change (2 ^ 8) with 256. Z.to_euclidean_division_equations; lia. }
  destruct (ax_word env _ _ Hok Hm Hd) as (v & E & Hv & Hl & Hh).
  unfold helper_aam. cbv beta delta [xbind xget] iota zeta. rewrite land_ff. fold (al env).
  rewrite Z.quot_div_nonneg, Z.rem_mod_nonneg by lia. cbn [Z.eqb]. rewrite E.
  unfold set_reg, xmod. set (env1 := with_cc_dst _ _).
  assert (reg env1 R_EAX = v) as H1 by (by apply (reg_eax_after env v (with_cc_dst _))).
  assert (regs_ok env1) as Hok1 by (eapply regs_ok_insert; [exact Hok|apply u32_range|done]).
  assert (al env1 = al env mod 10) as Ha1 by (unfold al; by rewrite H1).
  assert (ah env1 = al env / 10) as Hh1 by (unfold ah; by rewrite H1).
  exists env1. rewrite Ha1, Hh1. unfold helper_aad. cbv beta delta [xbind xget] iota zeta. rewrite ah_shift, !land_ff. fold (al env1).
  rewrite Ha1, Hh1.
  assert (al env / 10 * 10 + al env mod 10 = al env) as -> by (pose proof (Z.div_mod (al env) 10); lia).
  rewrite (Z.mod_small (al env) (2 ^ 8)) by (change (2 ^ 8) with 256; lia). destruct (ax_word env1 (al env) 0 Hok1) as (v2 & E2 & Hv2 & Hl2 & Hh2); [done|lia|].
  rewrite Z.shiftl_0_l, Z.lor_0_r in E2. rewrite E2. unfold set_reg, xmod.
  eexists. split; [done|]. split; [done|]. split; [done|]. split; [done|].
  unfold al, ah. rewrite (reg_eax_after env1 v2 (with_cc_dst _)) by done. done.
Qed.

(** After the addition of two digits, given as numbers or as characters,
    AAA leaves the last digit of the sum in AL and adds the carry to AH;
    AAS likewise for a difference; and AAD undoes AAM, which splits AL into
    its decimal digits. *)
Theorem unpacked_decimal_correct z a b :
  z = 0 \/ z = 0x30 -> 0 <= a < 10 -> 0 <= b < 10 ->
  (forall env, after_add (z + a) (z + b) env ->
     exists env', helper_aaa env = XRet tt env' /\ al env' = (a + b) mod 10 /\
       ah env' = (ah env + (a + b) / 10) mod 2 ^ 8 /\ carry_of env' = (10 <=? a + b)) /\
  (forall env, after_sub (z + a) (z + b) env ->
     exists env', helper_aas env = XRet tt env' /\ al env' = (a - b) mod 10 /\
       ah env' = (ah env + (a - b) / 10) mod 2 ^ 8 /\ carry_of env' = (a <? b)) /\
  (forall env, regs_ok env ->
     exists env1 env2,
       helper_aam 10 env = XRet tt env1 /\ ah env1 = al env / 10 /\ al env1 = al env mod 10 /\
       helper_aad 10 env1 = XRet tt env2 /\ al env2 = al env /\ ah env2 = 0).
Proof.
  intros Hz Ha Hb. split; [|split].
  - intros env. by apply aaa_digits.
  - intros env. by apply aas_digits.
  - intros env. apply aam_aad.
Qed.

Lemma unpacked_decimal_correct_witness :
  exists env', helper_aaa (added 0x37 0x38) = XRet tt env' /\ al env' = 5 /\ ah env' = 1.
Proof.
  destruct (unpacked_decimal_correct 0x30 7 8 ltac:(lia) ltac:(lia) ltac:(lia)) as [H _].
  destruct (H (added 0x37 0x38)) as (env' & E & H1 & H2 & _).
  - repeat split; try done. by apply (bool_decide_unpack _).
  - exists env'. split; [exact E|]. split; [exact H1|exact H2].
Defined.
