(* ===== verification/IntBits.v ===== *)
(** * Bit counting, deposit and extraction

    [helper_pdep] and [helper_pext] of IntHelper.v move bits between the low end
    of a word and the places a mask selects. *)

From Stdlib Require Import ZArith Lia.
From stdpp Require Import base list numbers.
From S2P Require Import Prelude Cpu CcHelper Excp IntHelper.

Local Open Scope Z_scope.

(** ** The lowest one *)

Definition lowest (m o : Z) : Prop :=
  0 <= o /\ Z.testbit m o = true /\ forall i, 0 <= i < o -> Z.testbit m i = false.

Lemma count_low_spec n m :
  in_range (Z.of_nat n) m -> m <> 0 -> lowest m (count_low n m) /\ count_low n m < Z.of_nat n.
Proof.
  revert m. induction n as [|n IH]; intros m Hm H0; [simpl in Hm; lia|].
  rewrite Nat2Z.inj_succ, Z.pow_succ_r in Hm by lia. cbn [count_low].
  destruct (Z.testbit m 0) eqn:E.
  - split; [|lia]. split; [lia|]. split; [done|lia].
  - assert (m = 2 * Z.shiftr m 1) as Hd.
    { rewrite Z.shiftr_div_pow2 by lia. change (2 ^ 1) with 2. rewrite Z.bit0_odd in E.
      pose proof (Zdiv2_odd_eqn m) as H. rewrite E, Z.div2_div in H. lia. }
    destruct (IH (Z.shiftr m 1)) as [(H1 & H2 & H3) H4]; [lia..|].
    split; [|lia]. split; [lia|]. split.
    + rewrite Z.shiftr_spec in H2 by lia. by rewrite Z.add_comm.
    + intros i Hi. destruct (Z.eq_dec i 0) as [->|]; [done|].
      specialize (H3 (i - 1) ltac:(lia)). rewrite Z.shiftr_spec in H3 by lia.
      by replace (i - 1 + 1) with i in H3 by lia.
Qed.

Lemma ctz32_spec m : in_range 32 m -> m <> 0 -> lowest m (ctz32 m) /\ ctz32 m < 32.
Proof.
  intros Hm H0. unfold ctz32, nz. destruct (Z.eqb_spec m 0); [done|]. cbn [negb].
  by apply (count_low_spec 32).
Qed.

Lemma lowest_div m o : lowest m o -> m mod 2 ^ o = 0 /\ m / 2 ^ o = 2 * (m / 2 ^ (o + 1)) + 1.
Proof.
  intros (H0 & H1 & H2). split.
  - apply Z.bits_inj'. intros i Hi. rewrite Z.bits_0. destruct (Z.lt_ge_cases i o).
    + rewrite Z.mod_pow2_bits_low by done. by apply H2.
    + by apply Z.mod_pow2_bits_high.
  - rewrite Z.testbit_odd, Z.shiftr_div_pow2 in H1 by done.
    pose proof (Zdiv2_odd_eqn (m / 2 ^ o)) as H. rewrite H1, Z.div2_div, Z.div_div in H
      by (try apply Z.pow_nonzero; lia).
    rewrite <-Z.pow_succ_r in H || rewrite (Z.mul_comm _ 2), <-Z.pow_succ_r in H by lia.
    replace (Z.succ o) with (o + 1) in H by lia. done.
Qed.

(** [mask & (mask - 1)] clears it. *)
Lemma drop_lowest_bits m o i :
  in_range 32 m -> lowest m o -> 0 <= i ->
  Z.testbit (drop_lowest m) i = Z.testbit m i && negb (i =? o).
Proof.
  intros Hm Hl Hi. destruct (lowest_div m o Hl) as [Hmod Hdiv]. destruct Hl as (H0 & H1 & H2).
  assert (0 < 2 ^ o) as Hp by (by apply Z.pow_pos_nonneg).
  assert (m = (m / 2 ^ o) * 2 ^ o) as Hm' by (pose proof (Z.div_mod m (2 ^ o)); lia).
  assert (1 <= m) by (destruct (Z.eq_dec m 0) as [->|]; [by rewrite Z.bits_0 in H1|lia]).
  assert ((m - 1) / 2 ^ o = 2 * (m / 2 ^ (o + 1))) as Hd1.
  { symmetry. apply (Z.div_unique _ _ _ (2 ^ o - 1)); lia. }
  unfold drop_lowest, u32. rewrite wrap_id, Z.land_spec by lia.
  destruct (Z.lt_ge_cases i o); [by rewrite H2 by lia|].
  assert (forall x, Z.testbit x i = Z.testbit (x / 2 ^ o) (i - o)) as Hb.
  { intros x. rewrite Z.div_pow2_bits by lia. f_equal. lia. }
  rewrite (Hb (m - 1)), Hd1, (Hb m), Hdiv.
  destruct (Z.eqb_spec i o) as [->|].
  - by rewrite Z.sub_diag, Z.testbit_even_0, !andb_false_r.
  - replace (i - o) with (Z.succ (i - o - 1)) by lia. rewrite Z.testbit_odd_succ, Z.testbit_even_succ by lia.
    by rewrite andb_diag, andb_true_r.
Qed.

Lemma drop_lowest_range m : in_range 32 m -> 1 <= m -> in_range 32 (drop_lowest m).
Proof.
  intros Hm H1. assert (drop_lowest m = wrap 32 (drop_lowest m)) as ->; [|by apply wrap_range].
  unfold drop_lowest, u32, wrap. apply Z.bits_inj'. intros i Hi. destruct (Z.lt_ge_cases i 32).
  - by rewrite (Z.mod_pow2_bits_low _ 32 i) by done.
  - rewrite (Z.mod_pow2_bits_high (Z.land _ _)) by lia. rewrite Z.land_spec.
    by rewrite Z.mod_pow2_bits_high, andb_false_r by lia.
Qed.

(** ** The places a mask selects, in increasing order *)

Definition places (m : Z) : list Z := filter (fun i => Z.testbit m i = true) (seqZ 0 32).

Lemma filter_agree {A} (P Q : A -> Prop) `{!forall x, Decision (P x), !forall x, Decision (Q x)} (l : list A) :
  (forall x, x ∈ l -> P x <-> Q x) -> filter P l = filter Q l.
Proof.
  induction l as [|x l IH]; intros Hpq; [done|]. rewrite !filter_cons, IH by (intros; apply Hpq; by right).
  specialize (Hpq x ltac:(by left)). destruct (decide (P x)), (decide (Q x)); naive_solver.
Qed.

Lemma places_step m :
  in_range 32 m -> m <> 0 -> places m = ctz32 m :: places (drop_lowest m).
Proof.
  intros Hm H0. destruct (ctz32_spec m Hm H0) as [Hl Ho]. set (o := ctz32 m) in *.
  pose proof Hl as (Ho0 & Ho1 & Ho2). unfold places.
  assert (seqZ 0 32 = seqZ 0 o ++ o :: seqZ (o + 1) (31 - o)) as ->.
  { replace 32 with (o + (32 - o)) at 1 by lia. rewrite seqZ_app by lia. f_equal.
    rewrite (seqZ_cons (0 + o)) by lia. rewrite Z.add_0_l. f_equal. f_equal; lia. }
  assert (forall k, filter (fun i => Z.testbit k i = true) (seqZ 0 o) = [] \/ exists i, 0 <= i < o /\ Z.testbit k i = true) as Hlow.
  { intros k. destruct (filter _ (seqZ 0 o)) as [|i l] eqn:E; [by left|right].
    assert (i ∈ filter (fun i => Z.testbit k i = true) (seqZ 0 o)) as Hi by (rewrite E; left).
    apply list_elem_of_filter in Hi as [? ?%elem_of_seqZ]. exists i. split; [lia|done]. }
  rewrite !list.filter_app. destruct (Hlow m) as [->|(i & ? & Hi)]; [|rewrite Ho2 in Hi by done; done].
  destruct (Hlow (drop_lowest m)) as [->|(i & ? & Hi)];
    [|rewrite (drop_lowest_bits m o i Hm Hl), Ho2 in Hi by lia; done].
  cbn [app]. rewrite filter_cons_True by done. rewrite filter_cons_False.
  2: { rewrite (drop_lowest_bits m o o Hm Hl), Z.eqb_refl, andb_false_r by lia. done. }
  f_equal. apply filter_agree. intros i Hi%elem_of_seqZ.
  rewrite (drop_lowest_bits m o i Hm Hl) by lia. destruct (Z.eqb_spec i o); [lia|]. by rewrite andb_true_r.
Qed.

Lemma places_zero : places 0 = [].
Proof. done. Qed.

Lemma places_NoDup m : NoDup (places m).
Proof. apply list.NoDup_filter, NoDup_seqZ. Qed.

Lemma elem_of_places m p : p ∈ places m <-> Z.testbit m p = true /\ 0 <= p < 32.
Proof. unfold places. rewrite list_elem_of_filter, elem_of_seqZ. naive_solver lia. Qed.

Lemma places_length m : (length (places m) <= 32)%nat.
Proof. unfold places. etrans; [apply list.length_filter|]. by rewrite length_seqZ. Qed.

(** ** The loops, on the list of places *)

Definition bit_at (x i : Z) : Z := Z.land (Z.shiftr x i) 1.

Lemma bit_at_testbit x i o n : 0 <= i -> 0 <= o < 32 -> 0 <= n ->
  Z.testbit (u32 (Z.shiftl (bit_at x i) o)) n = (n =? o) && Z.testbit x i.
Proof.
  intros Hi Ho Hn. unfold bit_at. change 1 with (2 ^ 0). rewrite land_bit, Z.shiftr_spec, Z.add_0_l by lia.
  rewrite Z.mul_1_r. destruct (Z.testbit x i); simpl b2z.
  - unfold u32. rewrite Z.shiftl_1_l, wrap_id.
    + rewrite Z.pow2_bits_eqb, andb_true_r by lia. apply Z.eqb_sym.
    + split; [by apply Z.pow_nonneg|apply Z.pow_lt_mono_r; lia].
  - by rewrite Z.shiftl_0_l, andb_false_r, Z.bits_0.
Qed.

Fixpoint deposit (i src : Z) (ps : list Z) (dest : Z) : Z :=
  match ps with
  | [] => dest
  | p :: ps' => deposit (i + 1) src ps' (Z.lor dest (u32 (Z.shiftl (bit_at src i) p)))
  end.

Fixpoint extract (o src : Z) (ps : list Z) (dest : Z) : Z :=
  match ps with
  | [] => dest
  | p :: ps' => extract (o + 1) src ps' (Z.lor dest (u32 (Z.shiftl (bit_at src p) o)))
  end.

Lemma pdep_loop_places fuel i src m dest :
  in_range 32 m -> (length (places m) < fuel)%nat ->
  pdep_loop fuel i src m dest = Some (deposit i src (places m) dest).
Proof.
  revert i m dest. induction fuel as [|fuel IH]; intros i m dest Hm Hl; [lia|]. cbn [pdep_loop].
  destruct (Z.eqb_spec m 0) as [->|H0]; [done|]. rewrite places_step in Hl |- * by done. cbn [length] in Hl.
  cbn [deposit]. rewrite IH; [done|apply drop_lowest_range; lia|lia].
Qed.

Lemma pext_loop_places fuel o src m dest :
  in_range 32 m -> (length (places m) < fuel)%nat ->
  pext_loop fuel o src m dest = Some (extract o src (places m) dest).
Proof.
  revert o m dest. induction fuel as [|fuel IH]; intros o m dest Hm Hl; [lia|]. cbn [pext_loop].
  destruct (Z.eqb_spec m 0) as [->|H0]; [done|]. rewrite places_step in Hl |- * by done. cbn [length] in Hl.
  cbn [extract]. rewrite IH; [done|apply drop_lowest_range; lia|lia].
Qed.

(** Bit [n] of a deposit comes from the index of [n] among the places. *)
Lemma deposit_bit i src ps dest n :
  0 <= i -> 0 <= n -> Forall (fun p => 0 <= p < 32) ps ->
  Z.testbit (deposit i src ps dest) n = true <->
  Z.testbit dest n = true \/ exists k, ps !! k = Some n /\ Z.testbit src (i + Z.of_nat k) = true.
Proof.
  revert i dest. induction ps as [|p ps IH]; intros i dest Hi Hn Hps; cbn [deposit].
  - naive_solver.
  - apply list.Forall_cons in Hps as [Hp Hps]. rewrite IH by (done || lia). rewrite Z.lor_spec, bit_at_testbit by done.
    rewrite orb_true_iff, andb_true_iff, Z.eqb_eq. split.
    + intros [[H|[-> H]]|(k & H1 & H2)]; [by left| |].
      * right. exists 0%nat. by rewrite Z.add_0_r.
      * right. exists (S k). split; [done|]. by replace (i + Z.of_nat (S k)) with (i + 1 + Z.of_nat k) by lia.
    + intros [H|([|k] & H1 & H2)]; [by left; left| |].
      * left. right. rewrite Z.add_0_r in H2. by injection H1 as ->.
      * right. exists k. split; [done|]. by replace (i + Z.of_nat (S k)) with (i + 1 + Z.of_nat k) in H2 by lia.
Qed.

(** Bit [o + k] of an extraction is the bit at the [k]-th place. *)
Lemma extract_bit o src ps dest n :
  0 <= o -> o + Z.of_nat (length ps) <= 32 -> 0 <= n -> Forall (fun p => 0 <= p < 32) ps ->
  Z.testbit (extract o src ps dest) n = true <->
  Z.testbit dest n = true \/
  exists k p, n = o + Z.of_nat k /\ ps !! k = Some p /\ Z.testbit src p = true.
Proof.
  revert o dest. induction ps as [|p ps IH]; intros o dest Ho Hl Hn Hps; cbn [extract length] in *.
  - naive_solver.
  - apply list.Forall_cons in Hps as [Hp Hps]. rewrite IH by (done || lia).
    rewrite Z.lor_spec, bit_at_testbit by lia. rewrite orb_true_iff, andb_true_iff, Z.eqb_eq. split.
    + intros [[H|[-> H]]|(k & q & -> & H1 & H2)]; [by left| |].
      * right. exists 0%nat, p. split; [lia|done].
      * right. exists (S k), q. split; [lia|done].
    + intros [H|([|k] & q & -> & H1 & H2)]; [by left; left| |].
      * left. right. split; [lia|]. by injection H1 as ->.
      * right. exists k, q. split; [lia|done].
Qed.

Lemma places_Forall m : Forall (fun p => 0 <= p < 32) (places m).
Proof. apply list.Forall_forall. intros p Hp. by apply elem_of_places in Hp as [_ ?]. Qed.

Lemma deposit_places src m n : 0 <= n ->
  Z.testbit (deposit 0 src (places m) 0) n = true <->
  exists k, places m !! k = Some n /\ Z.testbit src (Z.of_nat k) = true.
Proof.
  intros Hn. rewrite deposit_bit by (done || apply places_Forall). rewrite Z.bits_0.
  setoid_rewrite Z.add_0_l. naive_solver.
Qed.

Lemma extract_places src m n : 0 <= n ->
  Z.testbit (extract 0 src (places m) 0) n = true <->
  exists k p, n = Z.of_nat k /\ places m !! k = Some p /\ Z.testbit src p = true.
Proof.
  intros Hn. pose proof (places_length m). rewrite extract_bit by (done || lia || apply places_Forall).
  rewrite Z.bits_0. setoid_rewrite Z.add_0_l. naive_solver.
Qed.

Lemma extract_deposit src m :
  extract 0 (deposit 0 src (places m) 0) (places m) 0 = src mod 2 ^ Z.of_nat (length (places m)).
Proof.
  apply Z.bits_inj'. intros n Hn. apply eq_true_iff_eq. rewrite extract_places by done.
  destruct (Z.lt_ge_cases n (Z.of_nat (length (places m)))) as [Hlt|Hge].
  - rewrite Z.mod_pow2_bits_low by done.
    destruct (lookup_lt_is_Some_2 (places m) (Z.to_nat n)) as [p Hp]; [lia|].
    assert (0 <= p) by (apply list_elem_of_lookup_2, elem_of_places in Hp; lia). split.
    + intros (k & q & -> & Hq & Hd). apply deposit_places in Hd as (k' & Hk' & Hs).
      2: { apply list_elem_of_lookup_2, elem_of_places in Hq. lia. }
      by rewrite (NoDup_lookup _ _ _ _ (places_NoDup m) Hq Hk').
    + intros Hs. exists (Z.to_nat n), p. split; [lia|]. split; [done|]. apply deposit_places; [done|].
      exists (Z.to_nat n). by rewrite Z2Nat.id by lia.
  - rewrite Z.mod_pow2_bits_high by lia. split; [|done].
    intros (k & q & -> & Hq%lookup_lt_Some & _). lia.
Qed.

Lemma deposit_extract src m :
  in_range 32 m -> deposit 0 (extract 0 src (places m) 0) (places m) 0 = Z.land src m.
Proof.
  intros Hm. apply Z.bits_inj'. intros n Hn. apply eq_true_iff_eq.
  rewrite deposit_places, Z.land_spec, andb_true_iff by done. split.
  - intros (k & Hk & (k' & p & Hkk & Hp & Hs)%extract_places); [|lia]. apply Nat2Z.inj in Hkk as <-.
    rewrite Hk in Hp. injection Hp as ->. apply list_elem_of_lookup_2, elem_of_places in Hk. naive_solver.
  - intros [Hs Hb]. assert (n < 32).
    { destruct (Z.lt_ge_cases n 32); [done|]. by rewrite (testbit_high 32 m n) in Hb by lia. }
    assert (n ∈ places m) as [k Hk]%list_elem_of_lookup by (by apply elem_of_places).
    exists k. split; [done|]. apply extract_places; [lia|]. by exists k, n.
Qed.

(** ** Properties *)

(** Deposit and extract are inverse to each other: extracting what was
    deposited gives back as many low bits as the mask has ones, depositing what
    was extracted gives back the bits under the mask. The loops end after one
    round per one of the mask. *)
Theorem pdep_pext_inverse src mask :
  in_range 32 src -> in_range 32 mask ->
  (exists d, helper_pdep src mask = Some d /\
     helper_pext d mask = Some (src mod 2 ^ Z.of_nat (length (places mask)))) /\
  (exists e, helper_pext src mask = Some e /\ helper_pdep e mask = Some (Z.land src mask)).
Proof.
  intros Hs Hm. pose proof (places_length mask). unfold helper_pdep, helper_pext. split; eexists.
  - rewrite pdep_loop_places, pext_loop_places by (done || lia). split; [done|]. by rewrite extract_deposit.
  - rewrite pext_loop_places, pdep_loop_places by (done || lia). split; [done|]. by rewrite deposit_extract.
Qed.

Lemma pdep_pext_inverse_witness :
  exists d, helper_pdep 0x0005 0xf0f0 = Some d /\ d = 0x0050 /\ helper_pext d 0xf0f0 = Some 0x0005.
Proof.
  destruct (pdep_pext_inverse 0x0005 0xf0f0 ltac:(lia) ltac:(lia)) as [(d & Hd & He) _].
  exists d. split; [exact Hd|]. split; [|exact He].
  assert (helper_pdep 0x0005 0xf0f0 = Some 0x0050) as E by (vm_compute; reflexivity).
  rewrite E in Hd. by injection Hd.
Defined.
