(* ===== verification/Xed.v ===== *)
(** * Registers

    The register numbers of the XED decoder (xed-reg-enum.h) and the tracer's
    table [xed_regmapping] (rev_sem/qemu-pemu.c), which relates them to the
    registers of the emulated CPU. *)

From stdpp Require Import base list.
From Stdlib Require Import ZArith Lia.
From S2P Require Import Prelude.

Local Open Scope Z_scope.
Local Open Scope c_scope.

(** ** [xed_reg_enum_t], in the order of the header *)

Inductive xed_reg : Type :=
| XED_REG_INVALID | XED_REG_CR0 | XED_REG_CR1 | XED_REG_CR2 | XED_REG_CR3 | XED_REG_CR4
| XED_REG_CR5 | XED_REG_CR6 | XED_REG_CR7 | XED_REG_CR8 | XED_REG_CR9 | XED_REG_CR10
| XED_REG_CR11 | XED_REG_CR12 | XED_REG_CR13 | XED_REG_CR14 | XED_REG_CR15 | XED_REG_DR0
| XED_REG_DR1 | XED_REG_DR2 | XED_REG_DR3 | XED_REG_DR4 | XED_REG_DR5 | XED_REG_DR6
| XED_REG_DR7 | XED_REG_DR8 | XED_REG_DR9 | XED_REG_DR10 | XED_REG_DR11 | XED_REG_DR12
| XED_REG_DR13 | XED_REG_DR14 | XED_REG_DR15 | XED_REG_FLAGS | XED_REG_EFLAGS
| XED_REG_RFLAGS | XED_REG_AX | XED_REG_CX | XED_REG_DX | XED_REG_BX | XED_REG_SP
| XED_REG_BP | XED_REG_SI | XED_REG_DI | XED_REG_R8W | XED_REG_R9W | XED_REG_R10W
| XED_REG_R11W | XED_REG_R12W | XED_REG_R13W | XED_REG_R14W | XED_REG_R15W | XED_REG_EAX
| XED_REG_ECX | XED_REG_EDX | XED_REG_EBX | XED_REG_ESP | XED_REG_EBP | XED_REG_ESI
| XED_REG_EDI | XED_REG_R8D | XED_REG_R9D | XED_REG_R10D | XED_REG_R11D | XED_REG_R12D
| XED_REG_R13D | XED_REG_R14D | XED_REG_R15D | XED_REG_RAX | XED_REG_RCX | XED_REG_RDX
| XED_REG_RBX | XED_REG_RSP | XED_REG_RBP | XED_REG_RSI | XED_REG_RDI | XED_REG_R8
| XED_REG_R9 | XED_REG_R10 | XED_REG_R11 | XED_REG_R12 | XED_REG_R13 | XED_REG_R14
| XED_REG_R15 | XED_REG_AL | XED_REG_CL | XED_REG_DL | XED_REG_BL | XED_REG_SPL
| XED_REG_BPL | XED_REG_SIL | XED_REG_DIL | XED_REG_R8B | XED_REG_R9B | XED_REG_R10B
| XED_REG_R11B | XED_REG_R12B | XED_REG_R13B | XED_REG_R14B | XED_REG_R15B | XED_REG_AH
| XED_REG_CH | XED_REG_DH | XED_REG_BH | XED_REG_ERROR | XED_REG_RIP | XED_REG_EIP
| XED_REG_IP | XED_REG_MMX0 | XED_REG_MMX1 | XED_REG_MMX2 | XED_REG_MMX3 | XED_REG_MMX4
| XED_REG_MMX5 | XED_REG_MMX6 | XED_REG_MMX7 | XED_REG_MXCSR | XED_REG_STACKPUSH
| XED_REG_STACKPOP | XED_REG_GDTR | XED_REG_LDTR | XED_REG_IDTR | XED_REG_TR | XED_REG_TSC
| XED_REG_TSCAUX | XED_REG_MSRS | XED_REG_X87CONTROL | XED_REG_X87STATUS | XED_REG_X87TOP
| XED_REG_X87TAG | XED_REG_X87PUSH | XED_REG_X87POP | XED_REG_X87POP2 | XED_REG_CS
| XED_REG_DS | XED_REG_ES | XED_REG_SS | XED_REG_FS | XED_REG_GS | XED_REG_TMP0
| XED_REG_TMP1 | XED_REG_TMP2 | XED_REG_TMP3 | XED_REG_TMP4 | XED_REG_TMP5 | XED_REG_TMP6
| XED_REG_TMP7 | XED_REG_TMP8 | XED_REG_TMP9 | XED_REG_TMP10 | XED_REG_TMP11
| XED_REG_TMP12 | XED_REG_TMP13 | XED_REG_TMP14 | XED_REG_TMP15 | XED_REG_ST0 | XED_REG_ST1
| XED_REG_ST2 | XED_REG_ST3 | XED_REG_ST4 | XED_REG_ST5 | XED_REG_ST6 | XED_REG_ST7
| XED_REG_XMM0 | XED_REG_XMM1 | XED_REG_XMM2 | XED_REG_XMM3 | XED_REG_XMM4 | XED_REG_XMM5
| XED_REG_XMM6 | XED_REG_XMM7 | XED_REG_XMM8 | XED_REG_XMM9 | XED_REG_XMM10 | XED_REG_XMM11
| XED_REG_XMM12 | XED_REG_XMM13 | XED_REG_XMM14 | XED_REG_XMM15 | XED_REG_YMM0
| XED_REG_YMM1 | XED_REG_YMM2 | XED_REG_YMM3 | XED_REG_YMM4 | XED_REG_YMM5 | XED_REG_YMM6
| XED_REG_YMM7 | XED_REG_YMM8 | XED_REG_YMM9 | XED_REG_YMM10 | XED_REG_YMM11
| XED_REG_YMM12 | XED_REG_YMM13 | XED_REG_YMM14 | XED_REG_YMM15.

(** The numeric value of an enumerator. *)
Definition reg_index (r : xed_reg) : Z :=
  match r with
  | XED_REG_INVALID => 0 | XED_REG_CR0 => 1 | XED_REG_CR1 => 2 | XED_REG_CR2 => 3
  | XED_REG_CR3 => 4 | XED_REG_CR4 => 5 | XED_REG_CR5 => 6 | XED_REG_CR6 => 7
  | XED_REG_CR7 => 8 | XED_REG_CR8 => 9 | XED_REG_CR9 => 10 | XED_REG_CR10 => 11
  | XED_REG_CR11 => 12 | XED_REG_CR12 => 13 | XED_REG_CR13 => 14 | XED_REG_CR14 => 15
  | XED_REG_CR15 => 16 | XED_REG_DR0 => 17 | XED_REG_DR1 => 18 | XED_REG_DR2 => 19
  | XED_REG_DR3 => 20 | XED_REG_DR4 => 21 | XED_REG_DR5 => 22 | XED_REG_DR6 => 23
  | XED_REG_DR7 => 24 | XED_REG_DR8 => 25 | XED_REG_DR9 => 26 | XED_REG_DR10 => 27
  | XED_REG_DR11 => 28 | XED_REG_DR12 => 29 | XED_REG_DR13 => 30 | XED_REG_DR14 => 31
  | XED_REG_DR15 => 32 | XED_REG_FLAGS => 33 | XED_REG_EFLAGS => 34 | XED_REG_RFLAGS => 35
  | XED_REG_AX => 36 | XED_REG_CX => 37 | XED_REG_DX => 38 | XED_REG_BX => 39
  | XED_REG_SP => 40 | XED_REG_BP => 41 | XED_REG_SI => 42 | XED_REG_DI => 43
  | XED_REG_R8W => 44 | XED_REG_R9W => 45 | XED_REG_R10W => 46 | XED_REG_R11W => 47
  | XED_REG_R12W => 48 | XED_REG_R13W => 49 | XED_REG_R14W => 50 | XED_REG_R15W => 51
  | XED_REG_EAX => 52 | XED_REG_ECX => 53 | XED_REG_EDX => 54 | XED_REG_EBX => 55
  | XED_REG_ESP => 56 | XED_REG_EBP => 57 | XED_REG_ESI => 58 | XED_REG_EDI => 59
  | XED_REG_R8D => 60 | XED_REG_R9D => 61 | XED_REG_R10D => 62 | XED_REG_R11D => 63
  | XED_REG_R12D => 64 | XED_REG_R13D => 65 | XED_REG_R14D => 66 | XED_REG_R15D => 67
  | XED_REG_RAX => 68 | XED_REG_RCX => 69 | XED_REG_RDX => 70 | XED_REG_RBX => 71
  | XED_REG_RSP => 72 | XED_REG_RBP => 73 | XED_REG_RSI => 74 | XED_REG_RDI => 75
  | XED_REG_R8 => 76 | XED_REG_R9 => 77 | XED_REG_R10 => 78 | XED_REG_R11 => 79
  | XED_REG_R12 => 80 | XED_REG_R13 => 81 | XED_REG_R14 => 82 | XED_REG_R15 => 83
  | XED_REG_AL => 84 | XED_REG_CL => 85 | XED_REG_DL => 86 | XED_REG_BL => 87
  | XED_REG_SPL => 88 | XED_REG_BPL => 89 | XED_REG_SIL => 90 | XED_REG_DIL => 91
  | XED_REG_R8B => 92 | XED_REG_R9B => 93 | XED_REG_R10B => 94 | XED_REG_R11B => 95
  | XED_REG_R12B => 96 | XED_REG_R13B => 97 | XED_REG_R14B => 98 | XED_REG_R15B => 99
  | XED_REG_AH => 100 | XED_REG_CH => 101 | XED_REG_DH => 102 | XED_REG_BH => 103
  | XED_REG_ERROR => 104 | XED_REG_RIP => 105 | XED_REG_EIP => 106 | XED_REG_IP => 107
  | XED_REG_MMX0 => 108 | XED_REG_MMX1 => 109 | XED_REG_MMX2 => 110 | XED_REG_MMX3 => 111
  | XED_REG_MMX4 => 112 | XED_REG_MMX5 => 113 | XED_REG_MMX6 => 114 | XED_REG_MMX7 => 115
  | XED_REG_MXCSR => 116 | XED_REG_STACKPUSH => 117 | XED_REG_STACKPOP => 118
  | XED_REG_GDTR => 119 | XED_REG_LDTR => 120 | XED_REG_IDTR => 121 | XED_REG_TR => 122
  | XED_REG_TSC => 123 | XED_REG_TSCAUX => 124 | XED_REG_MSRS => 125
  | XED_REG_X87CONTROL => 126 | XED_REG_X87STATUS => 127 | XED_REG_X87TOP => 128
  | XED_REG_X87TAG => 129 | XED_REG_X87PUSH => 130 | XED_REG_X87POP => 131
  | XED_REG_X87POP2 => 132 | XED_REG_CS => 133 | XED_REG_DS => 134 | XED_REG_ES => 135
  | XED_REG_SS => 136 | XED_REG_FS => 137 | XED_REG_GS => 138 | XED_REG_TMP0 => 139
  | XED_REG_TMP1 => 140 | XED_REG_TMP2 => 141 | XED_REG_TMP3 => 142 | XED_REG_TMP4 => 143
  | XED_REG_TMP5 => 144 | XED_REG_TMP6 => 145 | XED_REG_TMP7 => 146 | XED_REG_TMP8 => 147
  | XED_REG_TMP9 => 148 | XED_REG_TMP10 => 149 | XED_REG_TMP11 => 150 | XED_REG_TMP12 => 151
  | XED_REG_TMP13 => 152 | XED_REG_TMP14 => 153 | XED_REG_TMP15 => 154 | XED_REG_ST0 => 155
  | XED_REG_ST1 => 156 | XED_REG_ST2 => 157 | XED_REG_ST3 => 158 | XED_REG_ST4 => 159
  | XED_REG_ST5 => 160 | XED_REG_ST6 => 161 | XED_REG_ST7 => 162 | XED_REG_XMM0 => 163
  | XED_REG_XMM1 => 164 | XED_REG_XMM2 => 165 | XED_REG_XMM3 => 166 | XED_REG_XMM4 => 167
  | XED_REG_XMM5 => 168 | XED_REG_XMM6 => 169 | XED_REG_XMM7 => 170 | XED_REG_XMM8 => 171
  | XED_REG_XMM9 => 172 | XED_REG_XMM10 => 173 | XED_REG_XMM11 => 174 | XED_REG_XMM12 => 175
  | XED_REG_XMM13 => 176 | XED_REG_XMM14 => 177 | XED_REG_XMM15 => 178 | XED_REG_YMM0 => 179
  | XED_REG_YMM1 => 180 | XED_REG_YMM2 => 181 | XED_REG_YMM3 => 182 | XED_REG_YMM4 => 183
  | XED_REG_YMM5 => 184 | XED_REG_YMM6 => 185 | XED_REG_YMM7 => 186 | XED_REG_YMM8 => 187
  | XED_REG_YMM9 => 188 | XED_REG_YMM10 => 189 | XED_REG_YMM11 => 190 | XED_REG_YMM12 => 191
  | XED_REG_YMM13 => 192 | XED_REG_YMM14 => 193 | XED_REG_YMM15 => 194
  end.

Definition XED_REG_LAST : Z := 195.

(** All registers, in order. *)
Definition all_regs : list xed_reg :=
  [XED_REG_INVALID; XED_REG_CR0; XED_REG_CR1; XED_REG_CR2; XED_REG_CR3; XED_REG_CR4
   ; XED_REG_CR5; XED_REG_CR6; XED_REG_CR7; XED_REG_CR8; XED_REG_CR9; XED_REG_CR10
   ; XED_REG_CR11; XED_REG_CR12; XED_REG_CR13; XED_REG_CR14; XED_REG_CR15; XED_REG_DR0
   ; XED_REG_DR1; XED_REG_DR2; XED_REG_DR3; XED_REG_DR4; XED_REG_DR5; XED_REG_DR6
   ; XED_REG_DR7; XED_REG_DR8; XED_REG_DR9; XED_REG_DR10; XED_REG_DR11; XED_REG_DR12
   ; XED_REG_DR13; XED_REG_DR14; XED_REG_DR15; XED_REG_FLAGS; XED_REG_EFLAGS
   ; XED_REG_RFLAGS; XED_REG_AX; XED_REG_CX; XED_REG_DX; XED_REG_BX; XED_REG_SP; XED_REG_BP
   ; XED_REG_SI; XED_REG_DI; XED_REG_R8W; XED_REG_R9W; XED_REG_R10W; XED_REG_R11W
   ; XED_REG_R12W; XED_REG_R13W; XED_REG_R14W; XED_REG_R15W; XED_REG_EAX; XED_REG_ECX
   ; XED_REG_EDX; XED_REG_EBX; XED_REG_ESP; XED_REG_EBP; XED_REG_ESI; XED_REG_EDI
   ; XED_REG_R8D; XED_REG_R9D; XED_REG_R10D; XED_REG_R11D; XED_REG_R12D; XED_REG_R13D
   ; XED_REG_R14D; XED_REG_R15D; XED_REG_RAX; XED_REG_RCX; XED_REG_RDX; XED_REG_RBX
   ; XED_REG_RSP; XED_REG_RBP; XED_REG_RSI; XED_REG_RDI; XED_REG_R8; XED_REG_R9
   ; XED_REG_R10; XED_REG_R11; XED_REG_R12; XED_REG_R13; XED_REG_R14; XED_REG_R15
   ; XED_REG_AL; XED_REG_CL; XED_REG_DL; XED_REG_BL; XED_REG_SPL; XED_REG_BPL; XED_REG_SIL
   ; XED_REG_DIL; XED_REG_R8B; XED_REG_R9B; XED_REG_R10B; XED_REG_R11B; XED_REG_R12B
   ; XED_REG_R13B; XED_REG_R14B; XED_REG_R15B; XED_REG_AH; XED_REG_CH; XED_REG_DH
   ; XED_REG_BH; XED_REG_ERROR; XED_REG_RIP; XED_REG_EIP; XED_REG_IP; XED_REG_MMX0
   ; XED_REG_MMX1; XED_REG_MMX2; XED_REG_MMX3; XED_REG_MMX4; XED_REG_MMX5; XED_REG_MMX6
   ; XED_REG_MMX7; XED_REG_MXCSR; XED_REG_STACKPUSH; XED_REG_STACKPOP; XED_REG_GDTR
   ; XED_REG_LDTR; XED_REG_IDTR; XED_REG_TR; XED_REG_TSC; XED_REG_TSCAUX; XED_REG_MSRS
   ; XED_REG_X87CONTROL; XED_REG_X87STATUS; XED_REG_X87TOP; XED_REG_X87TAG; XED_REG_X87PUSH
   ; XED_REG_X87POP; XED_REG_X87POP2; XED_REG_CS; XED_REG_DS; XED_REG_ES; XED_REG_SS
   ; XED_REG_FS; XED_REG_GS; XED_REG_TMP0; XED_REG_TMP1; XED_REG_TMP2; XED_REG_TMP3
   ; XED_REG_TMP4; XED_REG_TMP5; XED_REG_TMP6; XED_REG_TMP7; XED_REG_TMP8; XED_REG_TMP9
   ; XED_REG_TMP10; XED_REG_TMP11; XED_REG_TMP12; XED_REG_TMP13; XED_REG_TMP14
   ; XED_REG_TMP15; XED_REG_ST0; XED_REG_ST1; XED_REG_ST2; XED_REG_ST3; XED_REG_ST4
   ; XED_REG_ST5; XED_REG_ST6; XED_REG_ST7; XED_REG_XMM0; XED_REG_XMM1; XED_REG_XMM2
   ; XED_REG_XMM3; XED_REG_XMM4; XED_REG_XMM5; XED_REG_XMM6; XED_REG_XMM7; XED_REG_XMM8
   ; XED_REG_XMM9; XED_REG_XMM10; XED_REG_XMM11; XED_REG_XMM12; XED_REG_XMM13
   ; XED_REG_XMM14; XED_REG_XMM15; XED_REG_YMM0; XED_REG_YMM1; XED_REG_YMM2; XED_REG_YMM3
   ; XED_REG_YMM4; XED_REG_YMM5; XED_REG_YMM6; XED_REG_YMM7; XED_REG_YMM8; XED_REG_YMM9
   ; XED_REG_YMM10; XED_REG_YMM11; XED_REG_YMM12; XED_REG_YMM13; XED_REG_YMM14
   ; XED_REG_YMM15].

Lemma all_regs_index r : all_regs !! Z.to_nat (reg_index r) = Some r.
Proof. by destruct r. Qed.

Lemma reg_index_range r : 0 <= reg_index r < XED_REG_LAST.
Proof. destruct r; by split. Qed.

Lemma reg_index_inj r r' : reg_index r = reg_index r' -> r = r'.
Proof. intros H. pose proof (all_regs_index r) as Hr. rewrite H, all_regs_index in Hr. congruence. Qed.

#[export] Instance xed_reg_eq_dec : EqDecision xed_reg.
Proof.
  intros r r'. destruct (Z.eq_dec (reg_index r) (reg_index r')) as [H|H].
  - left. by apply reg_index_inj.
  - right. congruence.
Defined.

(** ** [xed_regmapping] *)

Definition R_EAX := 0.
Definition R_ECX := 1.
Definition R_EDX := 2.
Definition R_EBX := 3.
Definition R_ESP := 4.
Definition R_EBP := 5.
Definition R_ESI := 6.
Definition R_EDI := 7.

Definition R_ES := 0.
Definition R_CS := 1.
Definition R_SS := 2.
Definition R_DS := 3.
Definition R_FS := 4.
Definition R_GS := 5.

(** A row of the table; most rows are [{-1,-1,-1}]. *)
Definition row (r : Z) : list Z := [r; -1; -1].
Definition rows (n : nat) : list (list Z) := replicate n (row (-1)).

(** The table has one row per enumerator, the pseudo registers behind
    [XED_REG_LAST] included. *)
Definition xed_regmapping : list (list Z) :=
  rows 36 ++
  [row R_EAX; row R_ECX; row R_EDX; row R_EBX; row R_ESP; row R_EBP; row R_ESI; row R_EDI] ++
  rows 8 ++
  [row R_EAX; row R_ECX; row R_EDX; row R_EBX; row R_ESP; row R_EBP; row R_ESI; row R_EDI] ++
  rows 24 ++
  [row R_EAX; row R_ECX; row R_EDX; row R_EBX] ++
  rows 12 ++
  [row R_EAX; row R_ECX; row R_EDX; row R_EBX] ++
  rows 29 ++
  [row R_CS; row R_DS; row R_ES; row R_SS; row R_FS; row R_GS] ++
  rows 93.
