(* ===== verification/Guest.v ===== *)
(** * The guest machine as the tracer sees it

    Physical memory, the debug translation of virtual addresses
    ([x86_cpu_get_phys_page_debug] of target-i386/helper.c), reads through it
    ([cpu_memory_rw_debug] of exec.c) and the accessors of rev_sem/qemu-pemu.c.
    The contents of physical memory are the guest's: a function from addresses
    to bytes. *)

From stdpp Require Import base list.
From Stdlib Require Import ZArith Lia.
From S2P Require Import Prelude Cpu Xed.

Local Open Scope Z_scope.

Record machine : Type := mkMachine { m_cpu : CPUX86State; m_phys : Z -> Z }.

(** ** Physical memory *)

Definition ldub_phys (m : machine) (a : Z) : Z := u8 (m_phys m a).

(** The number the [n] bytes at [a] make up, least significant first. *)
Fixpoint ld_phys (m : machine) (n : nat) (a : Z) : Z :=
  match n with
  | O => 0
  | S n' => ldub_phys m a + 256 * ld_phys m n' (a + 1)
  end.
Definition ldl_phys (m : machine) (a : Z) : Z := ld_phys m 4 a.
Definition ldq_phys (m : machine) (a : Z) : Z := ld_phys m 8 a.

(** ** Page tables *)

Definition PG_PRESENT_MASK : Z := 0x1.
Definition PG_RW_MASK : Z := 0x2.
Definition PG_USER_MASK : Z := 0x4.
Definition PG_ACCESSED_MASK : Z := 0x20.
Definition PG_DIRTY_MASK : Z := 0x40.
Definition PG_PSE_MASK : Z := 0x80.
Definition PG_HI_USER_MASK : Z := 0x7ff0000000000000.
Definition PG_NX_MASK : Z := 0x8000000000000000.

Definition TARGET_PAGE_BITS : Z := 12.
Definition TARGET_PAGE_SIZE : Z := Z.shiftl 1 TARGET_PAGE_BITS.
Definition TARGET_PAGE_MASK : Z := Z.lnot (TARGET_PAGE_SIZE - 1).

Definition crn (m : machine) (n : nat) : Z := nth n (cr (m_cpu m)) 0.
Definition has (x mask : Z) : bool := negb (Z.land x mask =? 0).

(** An address of a table entry is a [target_ulong]. *)
Definition a20 (m : machine) (x : Z) : Z := u32 (Z.land x (a20_mask (m_cpu m))).

Definition LOW_PAGE : Z := Z.lnot 0xfff.
Definition FRAME64 (x : Z) : Z := Z.land (Z.land x LOW_PAGE) (Z.lnot (Z.lor PG_NX_MASK PG_HI_USER_MASK)).

(** The page table entry and the page size; [None] is the early [return -1]. *)
Definition debug_walk_pae (m : machine) (addr : Z) : option (Z * Z) :=
  let pdpe_addr := a20 m (Z.land (crn m 3) (Z.lnot 0x1f) + Z.land (Z.shiftr addr 27) 0x18) in
  let pdpe := ldq_phys m pdpe_addr in
  if negb (has pdpe PG_PRESENT_MASK) then None
  else
    let pde_addr := a20 m (FRAME64 pdpe + Z.shiftl (Z.land (Z.shiftr addr 21) 0x1ff) 3) in
    let pde := ldq_phys m pde_addr in
    if negb (has pde PG_PRESENT_MASK) then None
    else
      let '(pte, page_size) :=
        if has pde PG_PSE_MASK then
          let page_size := 2048 * 1024 in
          (Z.land pde (Z.lnot (Z.land (page_size - 1) LOW_PAGE)), page_size)
        else
          let pte_addr := a20 m (FRAME64 pde + Z.shiftl (Z.land (Z.shiftr addr 12) 0x1ff) 3) in
          (ldq_phys m pte_addr, 4096) in
      let pte := Z.land pte (Z.lnot (Z.lor PG_NX_MASK PG_HI_USER_MASK)) in
      if negb (has pte PG_PRESENT_MASK) then None else Some (pte, page_size).

Definition debug_walk_32 (m : machine) (addr : Z) : option (Z * Z) :=
  let pde_addr := a20 m (Z.land (crn m 3) LOW_PAGE + Z.land (Z.shiftr addr 20) 0xffc) in
  let pde := ldl_phys m pde_addr in
  if negb (has pde PG_PRESENT_MASK) then None
  else
    let entry :=
      if has pde PG_PSE_MASK && has (crn m 4) CR4_PSE_MASK then
        Some (Z.land pde (Z.lnot 0x003ff000), 4096 * 1024)
      else
        let pte_addr := a20 m (Z.land pde LOW_PAGE + Z.land (Z.shiftr addr 10) 0xffc) in
        let pte := ldl_phys m pte_addr in
        if negb (has pte PG_PRESENT_MASK) then None else Some (pte, 4096) in
    match entry with
    | None => None
    | Some (pte, page_size) => Some (Z.land pte (a20_mask (m_cpu m)), page_size)
    end.

(** The result is a [hwaddr]; [None] stands for -1. *)
Definition x86_cpu_get_phys_page_debug (m : machine) (addr : Z) : option Z :=
  let entry :=
    if negb (has (crn m 0) CR0_PG_MASK) then Some (Z.land addr (a20_mask (m_cpu m)), 4096)
    else if has (crn m 4) CR4_PAE_MASK then debug_walk_pae m addr
    else debug_walk_32 m addr in
  match entry with
  | None => None
  | Some (pte, page_size) =>
      let page_offset := u32 (Z.land (Z.land addr TARGET_PAGE_MASK) (page_size - 1)) in
      Some (u64 (Z.land pte TARGET_PAGE_MASK + page_offset))
  end.

(** ** Reading through the debug translation *)

Fixpoint phys_bytes (m : machine) (n : nat) (a : Z) : list Z :=
  match n with
  | O => []
  | S n' => ldub_phys m a :: phys_bytes m n' (a + 1)
  end.

(** The bytes stored into the buffer, and whether 0 is returned; a run of
    the loop consumes at least one byte, so [len] bounds the rounds. *)
Fixpoint rw_debug_loop (m : machine) (fuel : nat) (addr len : Z) : list Z * bool :=
  match fuel with
  | O => ([], true)
  | S fuel' =>
      if len <=? 0 then ([], true)
      else
        let page := u32 (Z.land addr TARGET_PAGE_MASK) in
        match x86_cpu_get_phys_page_debug m page with
        | None => ([], false)
        | Some phys_addr =>
            let l := s32 (u32 (page + TARGET_PAGE_SIZE - addr)) in
            let l := if len <? l then len else l in
            let phys_addr := phys_addr + Z.land addr (Z.lnot TARGET_PAGE_MASK) in
            let bytes := phys_bytes m (Z.to_nat l) phys_addr in
            let '(rest, ok) := rw_debug_loop m fuel' (u32 (addr + l)) (len - l) in
            (bytes ++ rest, ok)
        end
  end.

Definition cpu_memory_rw_debug (m : machine) (addr len : Z) : list Z * bool :=
  rw_debug_loop m (Z.to_nat len) addr len.

(** What [PEMU_read_mem] stores into its buffer, and whether it returns 0. *)
Definition PEMU_read_mem (m : machine) (vaddr len : Z) : list Z * bool :=
  cpu_memory_rw_debug m vaddr len.

(** A number from its bytes. *)
Fixpoint le_num (bs : list Z) : Z :=
  match bs with
  | [] => 0
  | b :: bs' => b + 256 * le_num bs'
  end.

(** A fresh 4-byte variable filled by a read, and then used: undefined unless all
    of it was stored. *)
Definition read_u32 {S} (m : machine) (vaddr : Z) : M S Z :=
  let '(bs, ok) := PEMU_read_mem m vaddr 4 in
  if ok then ret (le_num bs) else fail Uninit.

(** ** Registers *)

(** [xed_regmapping[reg_id][0]], as an [int]. *)
Definition mapped (r : xed_reg) : Z := nth 0 (nth (Z.to_nat (reg_index r)) xed_regmapping []) (-1).

(** Array accesses with the mapped number as an unsigned index. *)
Definition segs_base {S} (m : machine) (i : Z) : M S Z :=
  match (if i <? 0 then None else segs (m_cpu m) !! Z.to_nat i) with
  | Some sc => ret (base sc)
  | None => fail BadIndex
  end.
Definition regs_at {S} (m : machine) (i : Z) : M S Z :=
  match (if i <? 0 then None else regs (m_cpu m) !! Z.to_nat i) with
  | Some v => ret v
  | None => fail BadIndex
  end.

Definition PEMU_get_seg {S} (m : machine) (reg_id : xed_reg) : M S Z :=
  if decide (reg_id = XED_REG_INVALID) then ret 0 else segs_base m (mapped reg_id).

Definition PEMU_get_reg {S} (m : machine) (reg_id : xed_reg) : M S Z :=
  if decide (reg_id = XED_REG_INVALID) then ret 0 else regs_at m (mapped reg_id).

Definition PEMU_get_cr3 (m : machine) : Z := crn m 3.

(** ** Reads, byte by byte *)

(** The physical address of a virtual one. *)
Definition translate (m : machine) (a : Z) : option Z :=
  match x86_cpu_get_phys_page_debug m (a / 4096 * 4096) with
  | Some p => Some (p + a mod 4096)
  | None => None
  end.

Fixpoint read_bytes (m : machine) (n : nat) (a : Z) : list Z * bool :=
  match n with
  | O => ([], true)
  | S n' =>
      match translate m a with
      | None => ([], false)
      | Some p => let '(bs, ok) := read_bytes m n' (u32 (a + 1)) in (ldub_phys m p :: bs, ok)
      end
  end.

Lemma page_mask a : Z.land a TARGET_PAGE_MASK = a / 4096 * 4096.
Proof.
  unfold TARGET_PAGE_MASK, TARGET_PAGE_SIZE, TARGET_PAGE_BITS. change (Z.shiftl 1 12 - 1) with (Z.ones 12).
  rewrite <-Z.ldiff_land, Z.ldiff_ones_r, Z.shiftl_mul_pow2, Z.shiftr_div_pow2 by done. done.
Qed.

Lemma page_low a : Z.land a (Z.lnot TARGET_PAGE_MASK) = a mod 4096.
Proof.
  unfold TARGET_PAGE_MASK, TARGET_PAGE_SIZE, TARGET_PAGE_BITS. rewrite Z.lnot_involutive.
  change (Z.shiftl 1 12 - 1) with (Z.ones 12). by rewrite Z.land_ones.
Qed.

Lemma page_u32 a : in_range 32 a -> u32 (a / 4096 * 4096) = a / 4096 * 4096.
Proof. intros Ha. apply wrap_id. Z.to_euclidean_division_equations; lia. Qed.

Lemma page_left a : in_range 32 a -> s32 (u32 (a / 4096 * 4096 + TARGET_PAGE_SIZE - a)) = 4096 - a mod 4096.
Proof.
  intros Ha. change TARGET_PAGE_SIZE with 4096. pose proof (Z.mod_pos_bound a 4096 ltac:(done)).
  replace (a / 4096 * 4096 + 4096 - a) with (4096 - a mod 4096) by (pose proof (Z.div_mod a 4096); lia).
  unfold s32, sext, u32. rewrite !wrap_id by (rewrite ?wrap_id; lia). zcase; lia.
Qed.

(** A run of bytes inside one page. *)
Lemma read_bytes_page m l k a p :
  in_range 32 a -> a mod 4096 + Z.of_nat l <= 4096 ->
  x86_cpu_get_phys_page_debug m (a / 4096 * 4096) = Some p ->
  read_bytes m (l + k) a =
  (phys_bytes m l (p + a mod 4096) ++ fst (read_bytes m k (u32 (a + Z.of_nat l))),
   snd (read_bytes m k (u32 (a + Z.of_nat l)))).
Proof.
  intros Ha. remember (a mod 4096) as off eqn:Hoff. revert a off Ha Hoff.
  induction l as [|l IH]; intros a off Ha Hoff Hl Hp.
  - simpl. rewrite Z.add_0_r. unfold u32. rewrite wrap_id by done. by destruct (read_bytes m k a).
  - cbn [Nat.add read_bytes phys_bytes]. unfold translate. rewrite Hp, <-Hoff.
    destruct (Z.eq_dec (off + 1) 4096) as [He|Hne].
    + assert (l = 0%nat) as -> by lia. cbn [Nat.add phys_bytes app].
      replace (a + Z.of_nat 1) with (a + 1) by lia. by destruct (read_bytes m k (u32 (a + 1))).
    + assert (u32 (a + 1) = a + 1) as Hu by (apply wrap_id; Z.to_euclidean_division_equations; lia).
      assert ((a + 1) / 4096 = a / 4096 /\ (a + 1) mod 4096 = off + 1) as [Hd Hm]
        by (Z.to_euclidean_division_equations; lia).
      assert (in_range 32 (a + 1)) as Ha1 by (rewrite <-Hu; apply u32_range).
      rewrite Hu, (IH (a + 1) (off + 1)); [|done|done|lia|by rewrite Hd].
      replace (a + 1 + Z.of_nat l) with (a + Z.of_nat (S l)) by lia. cbn [app].
      by rewrite Z.add_assoc.
Qed.

Lemma read_bytes_fault m k a :
  x86_cpu_get_phys_page_debug m (a / 4096 * 4096) = None -> (0 < k)%nat -> read_bytes m k a = ([], false).
Proof. intros H Hk. destruct k; [lia|]. simpl. unfold translate. by rewrite H. Qed.

Lemma rw_debug_bytes m fuel a len :
  in_range 32 a -> 0 <= len <= Z.of_nat fuel -> rw_debug_loop m fuel a len = read_bytes m (Z.to_nat len) a.
Proof.
  revert a len. induction fuel as [|fuel IH]; intros a len Ha Hlen.
  - by replace len with 0 by lia.
  - cbn [rw_debug_loop]. destruct (Z.leb_spec len 0); [by replace len with 0 by lia|].
    rewrite page_mask, page_u32, page_low, page_left by done.
    destruct (x86_cpu_get_phys_page_debug m (a / 4096 * 4096)) as [p|] eqn:Hp.
    2: { rewrite read_bytes_fault; [done|done|lia]. }
    pose proof (Z.mod_pos_bound a 4096 ltac:(done)) as Hoff.
    set (l := if len <? 4096 - a mod 4096 then len else 4096 - a mod 4096).
    assert (1 <= l <= len /\ a mod 4096 + l <= 4096) as [Hl1 Hl2] by (unfold l; zcase; lia).
    assert (Z.to_nat len = (Z.to_nat l + Z.to_nat (len - l))%nat) as -> by lia.
    rewrite (read_bytes_page m _ _ a p) by (done || lia). rewrite Z2Nat.id by lia.
    rewrite IH by (apply u32_range || lia). by destruct (read_bytes m (Z.to_nat (len - l)) (u32 (a + l))).
Qed.

(** ** Properties *)

(** A read through the debug translation, which copies page by page,
    stores the bytes that translating each address on its own gives, up to the
    first address that is not mapped, and succeeds when all of them are. *)
Theorem read_mem_bytewise m vaddr len :
  in_range 32 vaddr -> 0 <= len -> PEMU_read_mem m vaddr len = read_bytes m (Z.to_nat len) vaddr.
Proof. intros Ha Hl. apply rw_debug_bytes; [done|lia]. Qed.

Definition flat_machine : machine := mkMachine blank_cpu (fun x => x mod 256).

Lemma read_mem_bytewise_witness :
  PEMU_read_mem flat_machine 0xffe 4 = ([0xfe; 0xff; 0x00; 0x01], true) /\
  read_bytes flat_machine 4 0xffe = ([0xfe; 0xff; 0x00; 0x01], true).
Proof.
  split; [reflexivity|]. change 4%nat with (Z.to_nat 4).
  rewrite <-(read_mem_bytewise flat_machine 0xffe 4); [reflexivity|lia..].
Defined.

(** The general register that a name denotes a part of. *)
Definition container (r : xed_reg) : option Z :=
  match r with
  | XED_REG_AX | XED_REG_EAX | XED_REG_AL | XED_REG_AH => Some 0
  | XED_REG_CX | XED_REG_ECX | XED_REG_CL | XED_REG_CH => Some 1
  | XED_REG_DX | XED_REG_EDX | XED_REG_DL | XED_REG_DH => Some 2
  | XED_REG_BX | XED_REG_EBX | XED_REG_BL | XED_REG_BH => Some 3
  | XED_REG_SP | XED_REG_ESP => Some 4
  | XED_REG_BP | XED_REG_EBP => Some 5
  | XED_REG_SI | XED_REG_ESI => Some 6
  | XED_REG_DI | XED_REG_EDI => Some 7
  | _ => None
  end.

Definition segment (r : xed_reg) : option Z :=
  match r with
  | XED_REG_ES => Some 0 | XED_REG_CS => Some 1 | XED_REG_SS => Some 2
  | XED_REG_DS => Some 3 | XED_REG_FS => Some 4 | XED_REG_GS => Some 5
  | _ => None
  end.

Lemma mapped_spec r :
  mapped r = match container r, segment r with
             | Some i, _ => i
             | None, Some i => i
             | None, None => -1
             end.
Proof. destruct r; reflexivity. Qed.

(** For all 195 register names, [PEMU_get_reg] returns the whole 32-bit
    register that contains the named one and [PEMU_get_seg] the base of the
    named segment; a name that is neither indexes outside the register file. *)
Theorem register_access m r (s : unit) :
  length (regs (m_cpu m)) = 8%nat -> length (segs (m_cpu m)) = 6%nat -> r <> XED_REG_INVALID ->
  (forall i, container r = Some i ->
     PEMU_get_reg m r s = Ok (nth (Z.to_nat i) (regs (m_cpu m)) 0, s)) /\
  (forall i, segment r = Some i ->
     PEMU_get_seg m r s = Ok (base (nth (Z.to_nat i) (segs (m_cpu m)) seg0), s)) /\
  (container r = None -> segment r = None ->
     PEMU_get_reg m r s = Fault BadIndex /\ PEMU_get_seg m r s = Fault BadIndex).
Proof.
  intros Hr Hs Hi. unfold PEMU_get_reg, PEMU_get_seg. rewrite !(decide_False (P := r = XED_REG_INVALID)) by done. rewrite mapped_spec.
  split_and!.
  - intros i Hc. rewrite Hc. assert (0 <= i < 8) as Hb by (clear Hi; destruct r; simpl in *; simplify_eq; lia).
    unfold regs_at. destruct (Z.ltb_spec i 0); [lia|].
    destruct (lookup_lt_is_Some_2 (regs (m_cpu m)) (Z.to_nat i)) as [v Hv]; [lia|].
    by rewrite Hv, nth_lookup, Hv.
  - intros i Hsi. assert (container r = None) as -> by (by destruct r). rewrite Hsi.
    assert (0 <= i < 6) as Hb by (clear Hi; destruct r; simpl in *; simplify_eq; lia).
    unfold segs_base. destruct (Z.ltb_spec i 0); [lia|].
    destruct (lookup_lt_is_Some_2 (segs (m_cpu m)) (Z.to_nat i)) as [v Hv]; [lia|].
    by rewrite Hv, nth_lookup, Hv.
  - by intros -> ->.
Qed.

Lemma register_access_witness :
  PEMU_get_reg flat_machine XED_REG_AH tt = Ok (0, tt) /\ PEMU_get_reg flat_machine XED_REG_EIP tt = Fault BadIndex.
Proof.
  split.
  - destruct (register_access flat_machine XED_REG_AH tt) as (H & _ & _); [done..|]. exact (H 0 eq_refl).
  - destruct (register_access flat_machine XED_REG_EIP tt) as (_ & _ & H); [done..|]. by apply H.
Defined.
