(* ===== verification/Mmu.v ===== *)
(** * The MMU

    [cpu_x86_handle_mmu_fault] of target-i386/helper.c: the page table walk that
    fills the TLB, with its protection checks, its updates of the accessed and
    dirty bits and its page faults. The debug translation of Guest.v walks the
    same tables without checks or updates. *)

From stdpp Require Import base list.
From Stdlib Require Import ZArith Lia.
From S2P Require Import Prelude Cpu Xed Guest.

Local Open Scope Z_scope.

(** ** Walks: a value, or a page fault with its error code *)

Inductive wres (A : Type) : Type :=
| WOk (a : A) (m : machine)
| WFault (error_code : Z) (m : machine).
Arguments WOk {A} a m.
Arguments WFault {A} error_code m.

Definition W (A : Type) : Type := machine -> wres A.
Definition wret {A} (a : A) : W A := fun m => WOk a m.
Definition wbind {A B} (x : W A) (k : A -> W B) : W B :=
  fun m => match x m with WOk a m' => k a m' | WFault e m' => WFault e m' end.
Definition wget : W machine := fun m => WOk m m.
Definition wfault {A} (e : Z) : W A := fun m => WFault e m.
Definition wguard (b : bool) (e : Z) : W unit := if b then wfault e else wret tt.

Declare Scope w_scope.
Delimit Scope w_scope with w.
Notation "a <- x ;; k" := (wbind x (fun a => k))
  (at level 100, x at next level, right associativity) : w_scope.
Notation "x ;; k" := (wbind x (fun _ => k))
  (at level 100, right associativity) : w_scope.
Local Open Scope w_scope.

(** ** Physical stores *)

(** The byte of [v] stored at [x] by a write of [n] bytes at [a]. *)
Definition poke (n a v : Z) (f : Z -> Z) : Z -> Z :=
  fun x => if (a <=? x) && (x <? a + n) then Z.shiftr v (8 * (x - a)) mod 256 else f x.

Definition st_phys (n a v : Z) : W unit :=
  fun m => WOk tt (mkMachine (m_cpu m) (poke n a v (m_phys m))).
Definition stl_phys_notdirty (a v : Z) : W unit := st_phys 4 a (u32 v).
Definition stq_phys (a v : Z) : W unit := st_phys 8 a (u64 v).

(** ** Constants *)

Definition MMU_KERNEL_IDX : Z := 0.
Definition MMU_USER_IDX : Z := 1.
Definition MMU_KSMAP_IDX : Z := 2.
Definition PAGE_READ : Z := 0x1.
Definition PAGE_WRITE : Z := 0x2.
Definition PAGE_EXEC : Z := 0x4.
Definition PG_ERROR_P_MASK : Z := 0x01.
Definition PG_ERROR_W_BIT : Z := 1.
Definition PG_ERROR_U_MASK : Z := 0x04.
Definition PG_ERROR_RSVD_MASK : Z := 0x08.
Definition PG_ERROR_I_D_MASK : Z := 0x10.
Definition PHYS_ADDR_MASK : Z := 0xffffff000.
Definition EXCP0E_PAGE : Z := 14.
(** offsetof(struct vmcb, control.exit_info_2) *)
Definition vmcb_exit_info_2 : Z := 0x80.

Section Fault.
(** [addr], [is_write1] (0 read, 1 write, 2 fetch) and [mmu_idx] *)
Context (addr is_write1 mmu_idx : Z).

Definition is_user : bool := mmu_idx =? MMU_USER_IDX.
Definition is_write : bool := Z.testbit is_write1 0.

(** The [switch (mmu_idx)] on the combined protection bits; every failure is
    [goto do_fault_protect]. *)
Definition check_access (ptep : Z) : W unit :=
  m <- wget ;;
  let user := has ptep PG_USER_MASK in
  let rw := has ptep PG_RW_MASK in
  let ksmap :=
    wguard ((is_write1 =? 2) && has (crn m 4) CR4_SMEP_MASK && user) PG_ERROR_P_MASK ;;
    wguard (has (crn m 0) CR0_WP_MASK && is_write && negb rw) PG_ERROR_P_MASK in
  if mmu_idx =? MMU_USER_IDX then
    wguard (negb user) PG_ERROR_P_MASK ;;
    wguard (is_write && negb rw) PG_ERROR_P_MASK
  else if mmu_idx =? MMU_KERNEL_IDX then
    wguard (negb (is_write1 =? 2) && has (crn m 4) CR4_SMAP_MASK && user) PG_ERROR_P_MASK ;;
    ksmap
  else if mmu_idx =? MMU_KSMAP_IDX then ksmap
  else wret tt.

(** Sets the accessed bit, and the dirty bit on a write, of the last entry. *)
Definition touch_entry (a e : Z) : W Z :=
  let is_dirty := is_write && negb (has e PG_DIRTY_MASK) in
  if negb (has e PG_ACCESSED_MASK) || is_dirty then
    let e := Z.lor e PG_ACCESSED_MASK in
    let e := if is_dirty then Z.lor e PG_DIRTY_MASK else e in
    stl_phys_notdirty a e ;; wret e
  else wret e.

(** Sets the accessed bit of a directory entry. *)
Definition touch_dir (a e : Z) : W Z :=
  if negb (has e PG_ACCESSED_MASK) then
    let e := Z.lor e PG_ACCESSED_MASK in stl_phys_notdirty a e ;; wret e
  else wret e.

(** No-execute is reserved unless it is enabled. *)
Definition check_nx_reserved (m : machine) (e : Z) : W unit :=
  wguard (negb (has (efer (m_cpu m)) MSR_EFER_NXE) && has e PG_NX_MASK) PG_ERROR_RSVD_MASK.

(** [pte], [ptep], [page_size] and [virt_addr]. *)
Definition entry : Type := Z * Z * Z * Z.

(** The leaf of a PAE walk: a 2 MB page. *)
Definition pae_large (pde_addr pde ptep : Z) : W entry :=
  let page_size := 2048 * 1024 in
  let ptep := Z.lxor ptep PG_NX_MASK in
  wguard (has ptep PG_NX_MASK && (is_write1 =? 2)) PG_ERROR_P_MASK ;;
  check_access ptep ;;
  pde <- touch_entry pde_addr pde ;;
  let pte := Z.land pde (Z.lor (Z.land PHYS_ADDR_MASK (Z.lnot (page_size - 1))) 0xfff) in
  wret (pte, ptep, page_size, u32 (Z.land addr (Z.lnot (page_size - 1)))).

(** ... or a 4 KB page. *)
Definition pae_small (pde_addr pde ptep : Z) : W entry :=
  pde <- touch_dir pde_addr pde ;;
  m <- wget ;;
  let pte_addr := a20 m (Z.land pde PHYS_ADDR_MASK + Z.shiftl (Z.land (Z.shiftr addr 12) 0x1ff) 3) in
  let pte := ldq_phys m pte_addr in
  wguard (negb (has pte PG_PRESENT_MASK)) 0 ;;
  check_nx_reserved m pte ;;
  let ptep := Z.land ptep (Z.lxor pte PG_NX_MASK) in
  let ptep := Z.lxor ptep PG_NX_MASK in
  wguard (has ptep PG_NX_MASK && (is_write1 =? 2)) PG_ERROR_P_MASK ;;
  check_access ptep ;;
  pte <- touch_entry pte_addr pte ;;
  wret (Z.land pte (Z.lor PHYS_ADDR_MASK 0xfff), ptep, 4096, u32 (Z.land addr LOW_PAGE)).

Definition walk_pae : W entry :=
  m <- wget ;;
  let pdpe_addr := a20 m (Z.land (crn m 3) (Z.lnot 0x1f) + Z.land (Z.shiftr addr 27) 0x18) in
  let pdpe := ldq_phys m pdpe_addr in
  wguard (negb (has pdpe PG_PRESENT_MASK)) 0 ;;
  let ptep := Z.lor (Z.lor PG_NX_MASK PG_USER_MASK) PG_RW_MASK in
  let pde_addr := a20 m (Z.land pdpe PHYS_ADDR_MASK + Z.shiftl (Z.land (Z.shiftr addr 21) 0x1ff) 3) in
  let pde := ldq_phys m pde_addr in
  wguard (negb (has pde PG_PRESENT_MASK)) 0 ;;
  check_nx_reserved m pde ;;
  let ptep := Z.land ptep (Z.lxor pde PG_NX_MASK) in
  if has pde PG_PSE_MASK then pae_large pde_addr pde ptep else pae_small pde_addr pde ptep.

(** The leaves of a walk of two levels: a 4 MB page, or a 4 KB page. *)
Definition large_32 (pde_addr pde : Z) : W entry :=
  let page_size := 4096 * 1024 in
  check_access pde ;;
  pde <- touch_entry pde_addr pde ;;
  let pte := Z.land pde (Z.lnot (Z.land (page_size - 1) LOW_PAGE)) in
  wret (pte, pte, page_size, u32 (Z.land addr (Z.lnot (page_size - 1)))).

Definition small_32 (pde_addr pde : Z) : W entry :=
  pde <- touch_dir pde_addr pde ;;
  m <- wget ;;
  let pte_addr := a20 m (Z.land pde LOW_PAGE + Z.land (Z.shiftr addr 10) 0xffc) in
  let pte := ldl_phys m pte_addr in
  wguard (negb (has pte PG_PRESENT_MASK)) 0 ;;
  let ptep := Z.land pte pde in
  check_access ptep ;;
  pte <- touch_entry pte_addr pte ;;
  wret (pte, ptep, 4096, u32 (Z.land addr LOW_PAGE)).

Definition walk_32 : W entry :=
  m <- wget ;;
  let pde_addr := a20 m (Z.land (crn m 3) LOW_PAGE + Z.land (Z.shiftr addr 20) 0xffc) in
  let pde := ldl_phys m pde_addr in
  wguard (negb (has pde PG_PRESENT_MASK)) 0 ;;
  if has pde PG_PSE_MASK && has (crn m 4) CR4_PSE_MASK
  then large_32 pde_addr pde else small_32 pde_addr pde.

(** The protection of the TLB entry. *)
Definition page_prot (m : machine) (pte ptep : Z) : Z :=
  let prot := PAGE_READ in
  let prot := if negb (has ptep PG_NX_MASK) then Z.lor prot PAGE_EXEC else prot in
  if has pte PG_DIRTY_MASK then
    if is_user then (if has ptep PG_RW_MASK then Z.lor prot PAGE_WRITE else prot)
    else if negb (has (crn m 0) CR0_WP_MASK) || has ptep PG_RW_MASK then Z.lor prot PAGE_WRITE else prot
  else prot.

(** The arguments of [tlb_set_page]. *)
Record tlb_entry : Type := mkTlb { t_vaddr : Z; t_paddr : Z; t_prot : Z; t_idx : Z; t_size : Z }.

Definition do_mapping (m : machine) (pte virt_addr prot page_size : Z) : tlb_entry :=
  let pte := Z.land pte (a20_mask (m_cpu m)) in
  let page_offset := u32 (Z.land (Z.land addr TARGET_PAGE_MASK) (page_size - 1)) in
  mkTlb (u32 (virt_addr + page_offset)) (u64 (Z.land pte TARGET_PAGE_MASK + page_offset)) prot mmu_idx page_size.

(** [do_fault]: the page fault left for the main loop. *)
Definition do_fault (error_code : Z) (m : machine) : machine :=
  let e := Z.lor error_code (Z.shiftl (b2z is_write) PG_ERROR_W_BIT) in
  let e := if is_user then Z.lor e PG_ERROR_U_MASK else e in
  let e :=
    if (is_write1 =? 2) &&
       ((has (efer (m_cpu m)) MSR_EFER_NXE && has (crn m 4) CR4_PAE_MASK) || has (crn m 4) CR4_SMEP_MASK)
    then Z.lor e PG_ERROR_I_D_MASK else e in
  let m :=
    if Z.testbit (intercept_exceptions (m_cpu m)) EXCP0E_PAGE
    then mkMachine (m_cpu m) (poke 8 (vm_vmcb (m_cpu m) + vmcb_exit_info_2) (u64 addr) (m_phys m))
    else mkMachine (with_cr (<[2%nat := addr]> (cr (m_cpu m))) (m_cpu m)) (m_phys m) in
  mkMachine (with_exception_index EXCP0E_PAGE (with_error_code e (m_cpu m))) (m_phys m).

(** The page that was mapped, or [None] when 1 is returned. *)
Definition cpu_x86_handle_mmu_fault (m : machine) : option tlb_entry * machine :=
  if negb (has (crn m 0) CR0_PG_MASK) then
    (Some (do_mapping m addr (u32 (Z.land addr TARGET_PAGE_MASK))
             (Z.lor (Z.lor PAGE_READ PAGE_WRITE) PAGE_EXEC) 4096), m)
  else
    match (if has (crn m 4) CR4_PAE_MASK then walk_pae else walk_32) m with
    | WOk (pte, ptep, page_size, virt_addr) m' =>
        (Some (do_mapping m' pte virt_addr (page_prot m' pte ptep) page_size), m')
    | WFault e m' => (None, do_fault e m')
    end.
End Fault.
