(* ===== verification/MmuWalk.v ===== *)
(** * The two page table walks agree

    The debug translation that the tracer reads through (Guest.v) gives the
    physical page that the MMU (Mmu.v) would map, although the MMU's walk updates
    the tables while it reads them. *)

From stdpp Require Import base list.
From Stdlib Require Import ZArith Lia.
From S2P Require Import Prelude Cpu CcHelper Xed Guest Mmu.

Local Open Scope Z_scope.
Local Open Scope w_scope.

(** ** Loads after stores *)

Lemma ld_phys_ext m m' n a :
  (forall x, a <= x < a + Z.of_nat n -> m_phys m' x = m_phys m x) -> ld_phys m' n a = ld_phys m n a.
Proof.
  revert a. induction n as [|n IH]; intros a H; [done|]. cbn [ld_phys]. unfold ldub_phys.
  rewrite H by lia. f_equal. f_equal. apply IH. intros x Hx. apply H. lia.
Qed.

Lemma ld_phys_app m n k a :
  ld_phys m (n + k) a = ld_phys m n a + 256 ^ Z.of_nat n * ld_phys m k (a + Z.of_nat n).
Proof.
  revert a. induction n as [|n IH]; intros a.
  - cbn [Nat.add ld_phys]. rewrite Z.add_0_r. change (256 ^ Z.of_nat 0) with 1. lia.
  - cbn [Nat.add ld_phys]. rewrite IH, Nat2Z.inj_succ, Z.pow_succ_r by lia.
    replace (a + 1 + Z.of_nat n) with (a + Z.succ (Z.of_nat n)) by lia. ring.
Qed.

Lemma ld_phys_range m n a : 0 <= ld_phys m n a < 256 ^ Z.of_nat n.
Proof.
  revert a. induction n as [|n IH]; intros a; [cbn; lia|].
  cbn [ld_phys]. rewrite Nat2Z.inj_succ, Z.pow_succ_r by lia. specialize (IH (a + 1)).
  pose proof (u8_range (m_phys m a)) as Hb. unfold ldub_phys. change (2 ^ 8) with 256 in Hb. lia.
Qed.

(** Bytes of a number, read back. *)
Lemma ld_phys_bytes m n a v :
  (forall x, a <= x < a + Z.of_nat n -> m_phys m x = Z.shiftr v (8 * (x - a)) mod 256) ->
  ld_phys m n a = v mod 256 ^ Z.of_nat n.
Proof.
  revert a v. induction n as [|n IH]; intros a v H; [cbn; by rewrite Z.mod_1_r|].
  cbn [ld_phys]. rewrite (IH (a + 1) (Z.shiftr v 8)).
  - unfold ldub_phys. rewrite H by lia. replace (8 * (a - a)) with 0 by lia. rewrite Z.shiftr_0_r.
    unfold u8, wrap. change (2 ^ 8) with 256. rewrite Z.mod_mod by done.
    rewrite Nat2Z.inj_succ, Z.pow_succ_r, Z.shiftr_div_pow2 by lia. change (2 ^ 8) with 256.
    rewrite Z.rem_mul_r by (try apply Z.pow_pos_nonneg; lia). done.
  - intros x Hx. rewrite H by lia. rewrite Z.shiftr_shiftr by lia. do 2 f_equal. lia.
Qed.

(** An entry whose accessed bit may have been set meanwhile. *)
Definition touched (e e' : Z) : Prop := e' = e \/ e' = Z.lor e PG_ACCESSED_MASK.

(** ... and the dirty bit. *)
Definition aged (e e' : Z) : Prop := exists k, Z.land k (Z.lor PG_ACCESSED_MASK PG_DIRTY_MASK) = k /\ e' = Z.lor e k.

Lemma touched_aged e e' : touched e e' -> aged e e'.
Proof. intros [->| ->]; [exists 0|exists PG_ACCESSED_MASK]; (split; [done|]); by rewrite ?Z.lor_0_r. Qed.

Lemma aged_land e e' mask :
  aged e e' -> Z.land (Z.lor PG_ACCESSED_MASK PG_DIRTY_MASK) mask = 0 -> Z.land e' mask = Z.land e mask.
Proof.
  intros (k & Hk & ->) Hm. rewrite Z.land_lor_distr_l, <-Hk, <-Z.land_assoc, Hm, Z.land_0_r, Z.lor_0_r. done.
Qed.

Lemma aged_has e e' mask :
  aged e e' -> Z.land (Z.lor PG_ACCESSED_MASK PG_DIRTY_MASK) mask = 0 -> has e' mask = has e mask.
Proof. intros H Hm. unfold has. by rewrite (aged_land e e' mask). Qed.

Lemma lor_low_part e : 0 <= e ->
  Z.lor e PG_ACCESSED_MASK = u32 (Z.lor e PG_ACCESSED_MASK) + 2 ^ 32 * (e / 2 ^ 32).
Proof.
  intros He. unfold u32, wrap. rewrite (Z.div_mod (Z.lor e PG_ACCESSED_MASK) (2 ^ 32)) at 1 by done.
  rewrite Z.add_comm. f_equal. f_equal. rewrite <-!Z.shiftr_div_pow2, Z.shiftr_lor by done.
  change (Z.shiftr PG_ACCESSED_MASK 32) with 0. apply Z.lor_0_r.
Qed.

(** A store of an entry with its accessed bit set, and any aligned load after it. *)
Lemma ld_after_touch m n a b :
  n = 4%nat \/ n = 8%nat -> a mod Z.of_nat n = 0 -> b mod Z.of_nat n = 0 ->
  let m' := mkMachine (m_cpu m) (poke 4 a (u32 (Z.lor (ld_phys m n a) PG_ACCESSED_MASK)) (m_phys m)) in
  touched (ld_phys m n b) (ld_phys m' n b).
Proof.
  intros Hn Ha Hb m'. destruct (Z.eq_dec a b) as [<-|Hne].
  - right. assert (ld_phys m' 4 a = u32 (Z.lor (ld_phys m n a) PG_ACCESSED_MASK)) as Hlo.
    { rewrite (ld_phys_bytes m' 4 a (u32 (Z.lor (ld_phys m n a) PG_ACCESSED_MASK))).
      - change (256 ^ Z.of_nat 4) with (2 ^ 32). by apply wrap_id, u32_range.
      - intros x Hx. unfold m', poke. cbn [m_phys]. zcase; try lia. done. }
    destruct Hn as [-> | ->].
    + rewrite Hlo. unfold u32. apply wrap_id.
      pose proof (ld_phys_range m 4 a) as Hr. change (256 ^ Z.of_nat 4) with (2 ^ 32) in Hr.
      by apply in_range_lor.
    + pose proof (ld_phys_app m' 4 4 a : ld_phys m' 8 a = ld_phys m' 4 a + 2 ^ 32 * ld_phys m' 4 (a + 4)) as E'.
      pose proof (ld_phys_app m 4 4 a : ld_phys m 8 a = ld_phys m 4 a + 2 ^ 32 * ld_phys m 4 (a + 4)) as E.
      rewrite E', Hlo, (ld_phys_ext m m' 4 (a + 4)).
      2: { intros x Hx. unfold m', poke. cbn [m_phys]. zcase; try lia; done. }
      pose proof (ld_phys_range m 8 a) as Hr8. rewrite (lor_low_part (ld_phys m 8 a)) at 2 by lia. f_equal. f_equal.
      pose proof (ld_phys_range m 4 a) as Hr. change (256 ^ Z.of_nat 4) with (2 ^ 32) in Hr.
      apply (Z.div_unique _ _ _ (ld_phys m 4 a)); lia.
  - left. apply ld_phys_ext. intros x Hx. unfold m', poke. cbn [m_phys].
    assert (b + Z.of_nat n <= a \/ a + 4 <= b) by (destruct Hn as [-> | ->]; Z.to_euclidean_division_equations; lia).
    zcase; try lia; done.
Qed.

Lemma touch_dir_spec m n a e :
  n = 4%nat \/ n = 8%nat -> a mod Z.of_nat n = 0 -> e = ld_phys m n a ->
  exists e' m', touch_dir a e m = WOk e' m' /\ m_cpu m' = m_cpu m /\ touched e e' /\
    forall b, b mod Z.of_nat n = 0 -> touched (ld_phys m n b) (ld_phys m' n b).
Proof.
  intros Hn Ha ->. unfold touch_dir. destruct (has _ PG_ACCESSED_MASK); cbn [negb].
  - eexists _, m. split; [done|]. split; [done|]. split; [by left|]. intros. by left.
  - eexists _, _. split; [done|]. split; [done|]. split; [by right|]. intros b Hb. by apply ld_after_touch.
Qed.

Lemma touch_entry_spec is_write1 a e m :
  exists e' m', touch_entry is_write1 a e m = WOk e' m' /\ m_cpu m' = m_cpu m /\ aged e e'.
Proof.
  unfold touch_entry. destruct (negb (has e PG_ACCESSED_MASK) || _).
  - destruct (is_write is_write1 && _).
    + eexists _, _. split; [done|]. split; [done|]. exists (Z.lor PG_ACCESSED_MASK PG_DIRTY_MASK).
      split; [done|]. by rewrite Z.lor_assoc.
    + eexists _, _. split; [done|]. split; [done|]. by exists PG_ACCESSED_MASK.
  - eexists _, m. split; [done|]. split; [done|]. exists 0. split; [done|]. by rewrite Z.lor_0_r.
Qed.

Lemma check_access_spec is_write1 mmu_idx ptep m :
  check_access is_write1 mmu_idx ptep m = WOk tt m \/ check_access is_write1 mmu_idx ptep m = WFault PG_ERROR_P_MASK m.
Proof.
  unfold check_access, wbind, wget, wguard, wret, wfault.
  repeat case_match; simplify_eq; auto.
Qed.

(** ** Addresses *)

Definition page_of (a : Z) : Z := a / 4096 * 4096.

Lemma page_of_bits a i : 0 <= i -> Z.testbit (page_of a) i = (12 <=? i) && Z.testbit a i.
Proof.
  intros Hi. unfold page_of. change 4096 with (2 ^ 12). destruct (Z.leb_spec 12 i).
  - rewrite Z.mul_pow2_bits, Z.div_pow2_bits by lia. cbn [andb]. f_equal. lia.
  - by rewrite Z.mul_pow2_bits_low by lia.
Qed.

(** Indexes into the tables do not depend on the page offset. *)
Lemma index_page a k mask :
  0 <= k -> Z.land mask (Z.ones (Z.max 0 (12 - k))) = 0 ->
  Z.land (Z.shiftr (page_of a) k) mask = Z.land (Z.shiftr a k) mask.
Proof.
  intros Hk Hm. apply Z.bits_inj'. intros i Hi. rewrite !Z.land_spec, !Z.shiftr_spec, page_of_bits by lia.
  destruct (Z.leb_spec 12 (i + k)); [done|].
  apply (f_equal (fun z => Z.testbit z i)) in Hm. rewrite Z.land_spec, Z.ones_spec_low, Z.bits_0, andb_true_r in Hm by lia.
  by rewrite Hm, !andb_false_r.
Qed.

Lemma a20_all m x : a20_mask (m_cpu m) = -1 -> a20 m x = u32 x.
Proof. intros H. unfold a20. by rewrite H, Z.land_m1_r. Qed.

Lemma u32_aligned x n : n = 4 \/ n = 8 -> x mod n = 0 -> u32 x mod n = 0.
Proof.
  intros Hn Hx. unfold u32, wrap.
  assert (exists k, 2 ^ 32 = k * n) as [k Hk]
    by (destruct Hn as [-> | ->]; [exists (2 ^ 30)|exists (2 ^ 29)]; done).
  rewrite (Z.mod_eq x (2 ^ 32)) by done. rewrite Hk.
  replace (x - k * n * (x / (k * n))) with (x + (- k * (x / (k * n))) * n) by ring.
  by rewrite Z.mod_add by lia.
Qed.

Lemma mask_aligned x y n :
  n = 4 \/ n = 8 -> Z.land x (n - 1) = 0 -> Z.land y (n - 1) = 0 -> (x + y) mod n = 0.
Proof.
  intros Hn Hx Hy. assert (forall z, Z.land z (n - 1) = z mod n) as Hl.
  { intros z. destruct Hn as [-> | ->]; [change (4 - 1) with (Z.ones 2)|change (8 - 1) with (Z.ones 3)]; by rewrite Z.land_ones. }
  rewrite Hl in Hx, Hy. rewrite Z.add_mod, Hx, Hy by lia. apply Z.mod_0_l. lia.
Qed.

Lemma land_land_0 x a b : Z.land a b = 0 -> Z.land (Z.land x a) b = 0.
Proof. intros H. by rewrite <-Z.land_assoc, H, Z.land_0_r. Qed.

(** The start of the page is where the large page starts plus the offset in it. *)
Lemma page_sum a k : 12 <= k ->
  Z.land a (Z.lnot (2 ^ k - 1)) + Z.land (Z.land a TARGET_PAGE_MASK) (2 ^ k - 1) = page_of a.
Proof.
  intros Hk. replace (2 ^ k - 1) with (Z.ones k) by (rewrite Z.ones_equiv; lia).
  rewrite page_mask. fold (page_of a). rewrite <-Z.ldiff_land, Z.ldiff_ones_r, Z.land_ones by lia.
  rewrite Z.shiftl_mul_pow2, Z.shiftr_div_pow2 by lia.
  assert (a / 2 ^ k = page_of a / 2 ^ k) as ->.
  { rewrite <-!Z.shiftr_div_pow2 by lia. apply Z.bits_inj'. intros i Hi.
    rewrite !Z.shiftr_spec, page_of_bits by lia. by zcase; [|lia]. }
  pose proof (Z.div_mod (page_of a) (2 ^ k)). assert (2 ^ k <> 0) by (apply Z.pow_nonzero; lia). lia.
Qed.

Lemma page_of_range a : in_range 32 a -> in_range 32 (page_of a).
Proof. unfold page_of. intros. Z.to_euclidean_division_equations; lia. Qed.

Lemma page_of_page a : page_of (page_of a) = page_of a.
Proof. unfold page_of. Z.to_euclidean_division_equations; lia. Qed.

(** ** The walks *)

(** The MMU's outcome against the entry the debug walk finds. *)
Definition agrees (addr : Z) (m : machine) (d : option (Z * Z)) (o : wres entry) : Prop :=
  match d with
  | None => exists e m', o = WFault e m' /\ m_cpu m' = m_cpu m /\ (e = 0 \/ e = PG_ERROR_RSVD_MASK)
  | Some (pte, size) =>
      (exists e m', o = WFault e m' /\ m_cpu m' = m_cpu m /\ (e = PG_ERROR_P_MASK \/ e = PG_ERROR_RSVD_MASK)) \/
      (exists pte' ptep m',
         o = WOk (pte', ptep, size, u32 (Z.land addr (Z.lnot (size - 1)))) m' /\ m_cpu m' = m_cpu m /\
         Z.land pte' TARGET_PAGE_MASK = Z.land pte TARGET_PAGE_MASK /\ exists k, size = 2 ^ k /\ 12 <= k <= 22)
  end.

(** An entry of a PAE table that points below 2^36, where the MMU's physical
    addresses end. *)
Definition below36 (e : Z) : Prop := Z.land e 0x000ffff000000000 = 0.

(** The bits such an entry can have. *)
Definition ENTRY36 : Z := Z.land (Z.ones 64) (Z.lnot 0x000ffff000000000).

Lemma below36_mask e : 0 <= e < 2 ^ 64 -> below36 e -> Z.land e ENTRY36 = e.
Proof.
  intros He Hb. unfold ENTRY36. rewrite Z.land_assoc, Z.land_ones, Z.mod_small by lia.
  apply Z.bits_inj'. intros i Hi. apply (f_equal (fun z => Z.testbit z i)) in Hb.
  rewrite Z.land_spec, Z.bits_0 in Hb. rewrite Z.land_spec, Z.lnot_spec by done.
  by destruct (Z.testbit e i), (Z.testbit _ i).
Qed.

Lemma mask_switch e S M1 M2 : Z.land e S = e -> Z.land S M1 = Z.land S M2 -> Z.land e M1 = Z.land e M2.
Proof. intros He HM. by rewrite <-He, <-!Z.land_assoc, HM. Qed.

Lemma ldq_range m a : 0 <= ldq_phys m a < 2 ^ 64.
Proof. exact (ld_phys_range m 8 a). Qed.

Lemma frame_eq e : 0 <= e < 2 ^ 64 -> below36 e -> FRAME64 e = Z.land e PHYS_ADDR_MASK.
Proof.
  intros He Hb. unfold FRAME64. rewrite <-Z.land_assoc. 
  apply (mask_switch e ENTRY36); [by apply below36_mask|done].
Qed.

(** The entries a PAE walk reads. *)
Definition pdpe_at (m : machine) (addr : Z) : Z :=
  ldq_phys m (a20 m (Z.land (crn m 3) (Z.lnot 0x1f) + Z.land (Z.shiftr addr 27) 0x18)).
Definition pde_addr_at (m : machine) (addr : Z) : Z :=
  a20 m (FRAME64 (pdpe_at m addr) + Z.shiftl (Z.land (Z.shiftr addr 21) 0x1ff) 3).
Definition pde_at (m : machine) (addr : Z) : Z := ldq_phys m (pde_addr_at m addr).
Definition pte_addr_at (m : machine) (addr : Z) : Z :=
  a20 m (FRAME64 (pde_at m addr) + Z.shiftl (Z.land (Z.shiftr addr 12) 0x1ff) 3).
Definition pte_at (m : machine) (addr : Z) : Z := ldq_phys m (pte_addr_at m addr).

Definition pae_below36 (m : machine) (addr : Z) : Prop :=
  below36 (pdpe_at m addr) /\ below36 (pde_at m addr) /\ below36 (pte_at m addr).

Section Walks.
Context (addr is_write1 mmu_idx : Z) (m : machine) (H20 : a20_mask (m_cpu m) = -1).

Lemma large_32_agrees pde_addr pde :
  agrees addr m (Some (Z.land (Z.land pde (Z.lnot 0x003ff000)) (a20_mask (m_cpu m)), 4096 * 1024))
    (large_32 addr is_write1 mmu_idx pde_addr pde m).
Proof.
  unfold large_32, wbind at 1. destruct (check_access_spec is_write1 mmu_idx pde m) as [-> | ->].
  2: { left. eexists _, m. auto. }
  unfold wbind. destruct (touch_entry_spec is_write1 pde_addr pde m) as (e' & m' & -> & Hc & Hag).
  right. eexists _, _, m'. split; [done|]. split; [done|]. split; [|by exists 22].
  rewrite H20, Z.land_m1_r. change (Z.lnot (Z.land (4096 * 1024 - 1) LOW_PAGE)) with (Z.lnot 0x003ff000).
  rewrite <-!Z.land_assoc. by apply aged_land.
Qed.

Lemma small_32_agrees pde_addr pde :
  pde_addr mod 4 = 0 -> pde = ldl_phys m pde_addr ->
  let pte := ldl_phys m (a20 m (Z.land pde LOW_PAGE + Z.land (Z.shiftr addr 10) 0xffc)) in
  agrees addr m
    (if negb (has pte PG_PRESENT_MASK) then None else Some (Z.land pte (a20_mask (m_cpu m)), 4096))
    (small_32 addr is_write1 mmu_idx pde_addr pde m).
Proof.
  intros Hal Hpde pte. unfold small_32, wbind at 1.
  destruct (touch_dir_spec m 4 pde_addr pde) as (pde' & m' & -> & Hc & Ht & Hld); [by left|done|done|].
  unfold wbind at 1, wget. rewrite a20_all by (by rewrite Hc).
  rewrite (aged_land pde pde') by (done || by apply touched_aged). subst pte. rewrite a20_all by done.
  set (pte_addr := u32 (Z.land pde LOW_PAGE + Z.land (Z.shiftr addr 10) 0xffc)).
  assert (pte_addr mod 4 = 0) as Hal2.
  { apply u32_aligned; [by left|]. apply mask_aligned; [by left|by apply land_land_0..]. }
  specialize (Hld pte_addr Hal2). apply touched_aged in Hld.
  unfold ldl_phys. set (pte := ld_phys m 4 pte_addr) in *. set (pte' := ld_phys m' 4 pte_addr) in *.
  unfold wbind at 1, wguard. rewrite (aged_has pte pte') by done.
  destruct (has pte PG_PRESENT_MASK); cbn [negb]; [|by exists 0, m'; auto]. unfold wret at 1, wbind at 1.
  destruct (check_access_spec is_write1 mmu_idx (Z.land pte' pde') m') as [-> | ->].
  2: { left. eexists _, m'. auto. }
  unfold wbind. destruct (touch_entry_spec is_write1 pte_addr pte' m') as (e' & m2 & -> & Hc2 & Hag).
  right. eexists _, _, m2. split; [done|]. split; [congruence|]. split; [|by exists 12].
  rewrite H20, Z.land_m1_r, (aged_land pte' e') by done. by apply aged_land.
Qed.

Lemma walk_32_agrees : agrees addr m (debug_walk_32 m (page_of addr)) (walk_32 addr is_write1 mmu_idx m).
Proof.
  unfold debug_walk_32, walk_32, wbind at 1, wget at 1. rewrite !(index_page addr) by done.
  set (pde_addr := a20 m (Z.land (crn m 3) LOW_PAGE + Z.land (Z.shiftr addr 20) 0xffc)).
  assert (pde_addr mod 4 = 0) as Hal.
  { unfold pde_addr. rewrite a20_all by done.
    apply u32_aligned; [by left|]. apply mask_aligned; [by left|by apply land_land_0..]. }
  set (pde := ldl_phys m pde_addr). unfold wbind, wguard.
  destruct (has pde PG_PRESENT_MASK); cbn [negb]; [|by exists 0, m; auto]. unfold wret.
  destruct (has pde PG_PSE_MASK && has (crn m 4) CR4_PSE_MASK); [apply large_32_agrees|].
  pose proof (small_32_agrees pde_addr pde Hal eq_refl) as H. cbv zeta in H. by destruct (negb _).
Qed.

Lemma shiftl3_aligned x : Z.land (Z.shiftl x 3) (8 - 1) = 0.
Proof. change (8 - 1) with (Z.ones 3). rewrite Z.land_ones, Z.shiftl_mul_pow2 by done. by apply Z.mod_mul. Qed.

Lemma frame_aligned e k : a20 m (FRAME64 e + Z.shiftl k 3) mod Z.of_nat 8 = 0.
Proof.
  rewrite a20_all by done. apply u32_aligned; [by right|]. apply mask_aligned; [by right| |apply shiftl3_aligned].
  unfold FRAME64. rewrite <-Z.land_assoc. by apply land_land_0.
Qed.

Lemma nx_reserved_spec e m0 :
  check_nx_reserved m0 e m0 = WOk tt m0 \/ check_nx_reserved m0 e m0 = WFault PG_ERROR_RSVD_MASK m0.
Proof. unfold check_nx_reserved, wguard, wret, wfault. case_match; auto. Qed.

Definition NO_NX : Z := Z.lnot (Z.lor PG_NX_MASK PG_HI_USER_MASK).

Lemma pae_large_agrees pde_addr pde ptep :
  0 <= pde < 2 ^ 64 -> below36 pde ->
  agrees addr m (Some (Z.land (Z.land pde (Z.lnot (Z.land (2048 * 1024 - 1) LOW_PAGE))) NO_NX, 2048 * 1024))
    (pae_large addr is_write1 mmu_idx pde_addr pde ptep m).
Proof.
  intros Hr B. unfold pae_large, wbind at 1, wguard at 1. destruct (_ && (is_write1 =? 2)).
  { left. eexists _, m. auto. }
  unfold wret at 1, wbind at 1. destruct (check_access_spec is_write1 mmu_idx (Z.lxor ptep PG_NX_MASK) m) as [-> | ->].
  2: { left. eexists _, m. auto. }
  unfold wbind. destruct (touch_entry_spec is_write1 pde_addr pde m) as (e' & m' & -> & Hc & Hag).
  right. eexists _, _, m'. split; [done|]. split; [done|]. split; [|by exists 21].
  rewrite <-!Z.land_assoc. rewrite (aged_land pde e') by done.
  apply (mask_switch pde ENTRY36); [by apply below36_mask|done].
Qed.

Lemma pae_small_agrees pde_addr pde ptep :
  pde_addr mod Z.of_nat 8 = 0 -> pde = ldq_phys m pde_addr -> below36 pde ->
  let pte := ldq_phys m (a20 m (FRAME64 pde + Z.shiftl (Z.land (Z.shiftr addr 12) 0x1ff) 3)) in
  below36 pte ->
  agrees addr m
    (if negb (has (Z.land pte NO_NX) PG_PRESENT_MASK) then None else Some (Z.land pte NO_NX, 4096))
    (pae_small addr is_write1 mmu_idx pde_addr pde ptep m).
Proof.
  intros Hal Hpde B2 pte B3. unfold pae_small, wbind at 1.
  destruct (touch_dir_spec m 8 pde_addr pde) as (pde' & m' & -> & Hc & Ht & Hld); [by right|done|done|].
  unfold wbind at 1, wget. rewrite a20_all by (by rewrite Hc).
  rewrite (aged_land pde pde') by (done || by apply touched_aged).
  rewrite <-(frame_eq pde), <-(a20_all m) by (done || (rewrite Hpde; apply ldq_range)).
  subst pte. set (pte_addr := a20 m (FRAME64 pde + _)) in *.
  specialize (Hld pte_addr (frame_aligned _ _)). apply touched_aged in Hld.
  unfold ldq_phys in *. set (pte := ld_phys m 8 pte_addr) in *. set (pte' := ld_phys m' 8 pte_addr) in *.
  assert (has (Z.land pte NO_NX) PG_PRESENT_MASK = has pte PG_PRESENT_MASK) as -> by (unfold has; by rewrite <-Z.land_assoc).
  unfold wbind at 1, wguard at 1. rewrite (aged_has pte pte') by done.
  destruct (has pte PG_PRESENT_MASK); cbn [negb]; [|by exists 0, m'; auto]. unfold wret at 1, wbind at 1.
  destruct (nx_reserved_spec pte' m') as [-> | ->].
  2: { left. eexists _, m'. auto. }
  unfold wbind at 1, wguard at 1. destruct (_ && (is_write1 =? 2)).
  { left. eexists _, m'. auto. }
  unfold wret at 1, wbind at 1. destruct (check_access_spec is_write1 mmu_idx
    (Z.lxor (Z.land ptep (Z.lxor pte' PG_NX_MASK)) PG_NX_MASK) m') as [-> | ->].
  2: { left. eexists _, m'. auto. }
  unfold wbind. destruct (touch_entry_spec is_write1 pte_addr pte' m') as (e' & m2 & -> & Hc2 & Hag).
  right. eexists _, _, m2. split; [done|]. split; [congruence|]. split; [|by exists 12].
  rewrite <-!Z.land_assoc, (aged_land pte' e'), (aged_land pte pte') by done.
  apply (mask_switch pte ENTRY36); [apply below36_mask; [exact (ldq_range m pte_addr)|done]|done].
Qed.

Lemma walk_pae_agrees :
  pae_below36 m (page_of addr) ->
  agrees addr m (debug_walk_pae m (page_of addr)) (walk_pae addr is_write1 mmu_idx m).
Proof.
  intros (B1 & B2 & B3). unfold debug_walk_pae.
  fold (pdpe_at m (page_of addr)). fold (pde_addr_at m (page_of addr)). fold (pde_at m (page_of addr)).
  fold (pte_addr_at m (page_of addr)). fold (pte_at m (page_of addr)). fold NO_NX.
  unfold walk_pae, wbind at 1, wget at 1. rewrite <-(index_page addr 27) by done. fold (pdpe_at m (page_of addr)).
  unfold wbind at 1, wguard at 1.
  destruct (has (pdpe_at m (page_of addr)) PG_PRESENT_MASK); cbn [negb]; [|by exists 0, m; auto]. unfold wret at 1.
  rewrite <-(index_page addr 21), <-(frame_eq (pdpe_at m (page_of addr)) (ldq_range _ _) B1) by done.
  fold (pde_addr_at m (page_of addr)). fold (pde_at m (page_of addr)).
  unfold wbind at 1, wguard at 1.
  destruct (has (pde_at m (page_of addr)) PG_PRESENT_MASK) eqn:Hp; cbn [negb]; [|by exists 0, m; auto].
  unfold wret at 1, wbind at 1. destruct (nx_reserved_spec (pde_at m (page_of addr)) m) as [-> | ->].
  2: { assert (forall d : option (Z * Z), agrees addr m d (WFault PG_ERROR_RSVD_MASK m)) as Hr.
       { intros [[? ?]|]; [left|]; eexists _, m; auto. }
       destruct (has (pde_at m (page_of addr)) PG_PSE_MASK); destruct (negb _); apply Hr. }
  destruct (has (pde_at m (page_of addr)) PG_PSE_MASK).
  - assert (has (Z.land (Z.land (pde_at m (page_of addr)) (Z.lnot (Z.land (2048 * 1024 - 1) LOW_PAGE))) NO_NX)
      PG_PRESENT_MASK = true) as -> by (unfold has in *; rewrite <-!Z.land_assoc; exact Hp).
    apply pae_large_agrees; [apply ldq_range|done].
  - pose proof (pae_small_agrees (pde_addr_at m (page_of addr)) (pde_at m (page_of addr))
      (Z.land (Z.lor (Z.lor PG_NX_MASK PG_USER_MASK) PG_RW_MASK) (Z.lxor (pde_at m (page_of addr)) PG_NX_MASK))
      (frame_aligned _ _) eq_refl B2) as H.
    rewrite <-(index_page addr 12) in H by done. by apply H.
Qed.
End Walks.

(** ** Properties *)

Lemma page_mask_of a : Z.land a TARGET_PAGE_MASK = page_of a.
Proof. apply page_mask. Qed.

(** The page fault's error code, for a walk that failed with [e]. *)
Lemma do_fault_code addr is_write1 mmu_idx e m i :
  i = 0 \/ i = 3 ->
  exception_index (m_cpu (do_fault addr is_write1 mmu_idx e m)) = EXCP0E_PAGE /\
  Z.testbit (error_code (m_cpu (do_fault addr is_write1 mmu_idx e m))) i = Z.testbit e i.
Proof.
  intros Hi. split; [done|]. unfold do_fault. cbn [m_cpu error_code with_error_code with_exception_index].
  set (b := (_ : bool) && _). destruct b, (is_user mmu_idx), (is_write is_write1), Hi as [-> | ->];
  rewrite ?Z.lor_spec, ?orb_false_r; done || (cbn; by rewrite ?orb_false_r).
Qed.

Lemma do_mapping_page addr mmu_idx m pte prot size k :
  in_range 32 addr -> a20_mask (m_cpu m) = -1 -> size = 2 ^ k -> 12 <= k <= 22 ->
  let t := do_mapping addr mmu_idx m pte (u32 (Z.land addr (Z.lnot (size - 1)))) prot size in
  t_vaddr t = page_of addr /\
  t_paddr t = u64 (Z.land pte TARGET_PAGE_MASK + u32 (Z.land (Z.land (page_of addr) TARGET_PAGE_MASK) (size - 1))).
Proof.
  intros Ha H20 -> Hk t. subst t. unfold do_mapping. cbn [t_vaddr t_paddr]. rewrite H20, Z.land_m1_r. split.
  - unfold u32. rewrite <-(Z.add_0_r (wrap 32 _ + wrap 32 _)), wrap_add_parts, Z.add_0_r, page_sum by lia.
    apply wrap_id. by apply page_of_range.
  - by rewrite !page_mask_of, page_of_page.
Qed.


(** A page directory at 0x1000 whose first entry is a table at 0x2000, which maps
    page 3 to frame 0x5000; the accessed bits are clear. *)
Definition demo_phys (x : Z) : Z :=
  if x =? 0x1000 then 0x07 else if x =? 0x1001 then 0x20
  else if x =? 0x200c then 0x07 else if x =? 0x200d then 0x50 else 0.
Definition demo_machine : machine :=
  mkMachine (with_cr [CR0_PG_MASK; 0; 0; 0x1000; 0] blank_cpu) demo_phys.

