(* ===== verification/Operand.v ===== *)
(** * Operands of decoded instructions

    rev_sem/parse_operand.c. The XED decoder is a library the tracer calls: a
    decoded instruction is what its accessors return, and decoding is an
    interface ([Xed]) that the routines of Disas.v are written against. *)

From stdpp Require Import base list.
From Stdlib Require Import ZArith Lia.
From S2P Require Import Prelude Cpu Xed Guest.

Local Open Scope Z_scope.
Local Open Scope c_scope.

(** ** What XED returns *)

(** [xed_operand_enum_t]; [XED_OPERAND_OTHER] stands for the enumerators the
    tracer does not name. *)
Inductive xed_operand : Type :=
| XED_OPERAND_AGEN | XED_OPERAND_MEM0 | XED_OPERAND_MEM1
| XED_OPERAND_IMM0 | XED_OPERAND_IMM1 | XED_OPERAND_PTR | XED_OPERAND_RELBR
| XED_OPERAND_REG0 | XED_OPERAND_REG1 | XED_OPERAND_REG2 | XED_OPERAND_REG3
| XED_OPERAND_REG4 | XED_OPERAND_REG5 | XED_OPERAND_REG6 | XED_OPERAND_REG7
| XED_OPERAND_REG8 | XED_OPERAND_REG9 | XED_OPERAND_REG10 | XED_OPERAND_REG11
| XED_OPERAND_REG12 | XED_OPERAND_REG13 | XED_OPERAND_REG14 | XED_OPERAND_REG15
| XED_OPERAND_OTHER.

#[export] Instance xed_operand_eq_dec : EqDecision xed_operand.
Proof. solve_decision. Defined.

(** The accessors of a decoded instruction; memory accessors take the number of
    the memory operand. *)
Record xed_decoded : Type := mkDecoded {
  x_call_near : bool;                    (** the class is XED_ICLASS_CALL_NEAR *)
  x_length : Z;
  x_operands : list xed_operand;         (** the names of the operands, in order *)
  x_get_reg : xed_operand -> xed_reg;
  x_base_reg : Z -> xed_reg;
  x_index_reg : Z -> xed_reg;
  x_seg_reg : Z -> xed_reg;
  x_scale : Z -> Z;
  x_displacement : Z -> Z;
  x_default_segment : Z -> bool;
  x_branch_displacement : Z;
  x_immediate_is_signed : bool;
  x_signed_immediate : Z;
  x_unsigned_immediate : Z;
  x_second_immediate : Z;
  x_operand_length : Z -> Z
}.

Definition operand_name (d : xed_decoded) (i : nat) : xed_operand :=
  nth i (x_operands d) XED_OPERAND_OTHER.

(** [xed_error_enum_t] *)
Inductive xed_error : Type := XED_ERROR_NONE | XED_ERROR_DECODE (code : Z) | XED_ERROR_LAST.

(** Decoding 15 bytes in the mode [init_inst] sets (32-bit legacy). *)
Class Xed : Type := { xed_decode : list Z -> xed_error * xed_decoded }.

(** ** The tracer's globals: [pemu_inst] and the parts of the last memory operand *)

Record pemu : Type := mkPemu {
  xedd_g : xed_decoded;
  inst_buf : list Z;
  s_base : Z;
  s_dis : Z;
  s_base_regid : xed_reg;
  s_index_regid : xed_reg
}.

Definition set_operand_parts (b dis : Z) (p : pemu) : pemu :=
  mkPemu (xedd_g p) (inst_buf p) b dis (s_base_regid p) (s_index_regid p).
Definition set_operand_regs (br ir : xed_reg) (p : pemu) : pemu :=
  mkPemu (xedd_g p) (inst_buf p) (s_base p) (s_dis p) br ir.
Definition set_inst (d : xed_decoded) (buf : list Z) (p : pemu) : pemu :=
  mkPemu d buf (s_base p) (s_dis p) (s_base_regid p) (s_index_regid p).

Definition modify {S} (f : S -> S) : M S unit := fun s => Ok (tt, f s).
Definition decoded : M pemu xed_decoded := fun p => Ok (xedd_g p, p).

(** ** Kinds of operands

    A routine that returns 1 and stores a result gives [Some]. *)

Definition is_reg_name (op : xed_operand) : bool :=
  match op with
  | XED_OPERAND_REG0 | XED_OPERAND_REG1 | XED_OPERAND_REG2 | XED_OPERAND_REG3
  | XED_OPERAND_REG4 | XED_OPERAND_REG5 | XED_OPERAND_REG6 | XED_OPERAND_REG7
  | XED_OPERAND_REG8 | XED_OPERAND_REG9 | XED_OPERAND_REG10 | XED_OPERAND_REG11
  | XED_OPERAND_REG12 | XED_OPERAND_REG13 | XED_OPERAND_REG14 | XED_OPERAND_REG15 => true
  | _ => false
  end.

Definition operand_is_reg (op : xed_operand) : M pemu (option xed_reg) :=
  d <- decoded ;; ret (if is_reg_name op then Some (x_get_reg d op) else None).

Definition operand_is_relbr (op : xed_operand) : M pemu (option Z) :=
  d <- decoded ;;
  ret (match op with
       | XED_OPERAND_PTR | XED_OPERAND_RELBR => Some (u32 (x_branch_displacement d))
       | _ => None
       end).

Definition operand_is_imm (op : xed_operand) : M pemu (option Z) :=
  d <- decoded ;;
  ret (match op with
       | XED_OPERAND_IMM0 =>
           Some (u32 (if x_immediate_is_signed d then x_signed_immediate d else x_unsigned_immediate d))
       | XED_OPERAND_IMM1 => Some (u8 (x_second_immediate d))
       | _ => None
       end).

Definition is_mem_name (op : xed_operand) : bool :=
  match op with
  | XED_OPERAND_AGEN | XED_OPERAND_MEM0 | XED_OPERAND_MEM1 => true
  | _ => false
  end.

Definition get_mem_operand_size (op : xed_operand) (operand_i : Z) : M pemu Z :=
  d <- decoded ;; ret (if is_mem_name op then x_operand_length d operand_i else 0).

(** ** Effective addresses *)

Definition mem_idx (op : xed_operand) : Z :=
  match op with XED_OPERAND_MEM1 => 1 | _ => 0 end.

(** [index] and [scale]: the index register of the first memory operand only;
    the scale is tested for the operand's position and taken for the memory
    operand's number. *)
Definition index_scaled (m : machine) (d : xed_decoded) (mi operand_i : Z) : M pemu (Z * Z) :=
  if (mi =? 0) && negb (bool_decide (x_index_reg d mi = XED_REG_INVALID)) then
    index <- PEMU_get_reg m (x_index_reg d mi) ;;
    ret (index, if negb (x_scale d operand_i =? 0) then x_scale d mi else 0)
  else ret (0, 0).

Definition operand_is_mem (m : machine) (op : xed_operand) (operand_i : Z) : M pemu (option Z) :=
  if negb (is_mem_name op) then ret None
  else
    d <- decoded ;;
    let mi := mem_idx op in
    let base_regid := x_base_reg d mi in
    base <- PEMU_get_reg m base_regid ;;
    let index_regid := x_index_reg d mi in
    modify (set_operand_regs base_regid index_regid) ;;
    ix <- index_scaled m d mi operand_i ;;
    let displacement := x_displacement d mi in
    let seg_regid := x_seg_reg d mi in
    segbase <- (if bool_decide (seg_regid = XED_REG_INVALID) || x_default_segment d mi
                then ret 0 else segs_base m (mapped seg_regid)) ;;
    modify (set_operand_parts (u32 base) (u32 (segbase + displacement))) ;;
    ret (Some (u32 (segbase + base + fst ix * snd ix + displacement))).

(** ** The destination of a call *)

Definition get_callDest (m : machine) (xi : xed_decoded) (cur_pc : Z) : M pemu Z :=
  let op_name := operand_name xi 0 in
  mem <- operand_is_mem m op_name 0 ;;
  match mem with
  | Some dest => read_u32 m dest
  | None =>
      reg <- operand_is_reg op_name ;;
      match reg with
      | Some r => PEMU_get_reg m r
      | None =>
          rel <- operand_is_relbr op_name ;;
          match rel with
          | Some dest => d <- decoded ;; ret (u32 (dest + (cur_pc + x_length d)))
          | None => ret 0
          end
      end
  end.

(** ** Behaviour *)

(** The value a register name contributes to an address, and the base of a
    segment. *)
Definition reg_value (m : machine) (r : xed_reg) : Z :=
  match container r with Some i => nth (Z.to_nat i) (regs (m_cpu m)) 0 | None => 0 end.
Definition seg_value (m : machine) (r : xed_reg) : Z :=
  match segment r with Some i => base (nth (Z.to_nat i) (segs (m_cpu m)) seg0) | None => 0 end.

(** The decoder returns general registers for base and index, and a segment
    register, or none of them. *)
Definition addressable (d : xed_decoded) (mi : Z) : Prop :=
  (x_base_reg d mi = XED_REG_INVALID \/ is_Some (container (x_base_reg d mi))) /\
  (x_index_reg d mi = XED_REG_INVALID \/ is_Some (container (x_index_reg d mi))) /\
  (x_seg_reg d mi = XED_REG_INVALID \/ is_Some (segment (x_seg_reg d mi))).

Definition cpu_sized (m : machine) : Prop :=
  length (regs (m_cpu m)) = 8%nat /\ length (segs (m_cpu m)) = 6%nat.

Lemma container_segment r i : segment r = Some i -> container r = None.
Proof. by destruct r. Qed.
Lemma container_range r i : container r = Some i -> 0 <= i < 8.
Proof. destruct r; simpl; intros; simplify_eq; lia. Qed.
Lemma segment_range r i : segment r = Some i -> 0 <= i < 6.
Proof. destruct r; simpl; intros; simplify_eq; lia. Qed.

Lemma get_reg_value {S} m r (s : S) :
  cpu_sized m -> r = XED_REG_INVALID \/ is_Some (container r) -> PEMU_get_reg m r s = Ok (reg_value m r, s).
Proof.
  intros [Hr _] [->|[i Hi]]; [done|]. unfold PEMU_get_reg, reg_value, regs_at.
  rewrite decide_False by (by intros ->). rewrite mapped_spec, Hi. pose proof (container_range r i Hi).
  destruct (Z.ltb_spec i 0); [lia|]. rewrite nth_lookup.
  destruct (lookup_lt_is_Some_2 (regs (m_cpu m)) (Z.to_nat i)) as [v ->]; [lia|done].
Qed.

Lemma segs_base_value {S} m r i (s : S) :
  cpu_sized m -> segment r = Some i -> segs_base m (mapped r) s = Ok (seg_value m r, s).
Proof.
  intros [_ Hs] Hi. unfold seg_value, segs_base. rewrite mapped_spec, Hi, (container_segment r i Hi).
  pose proof (segment_range r i Hi). destruct (Z.ltb_spec i 0); [lia|]. rewrite nth_lookup.
  destruct (lookup_lt_is_Some_2 (segs (m_cpu m)) (Z.to_nat i)) as [v ->]; [lia|done].
Qed.

(** What the index adds: nothing for the second memory operand, and nothing
    when the scale at the operand's position reads as zero. *)
Definition index_term (m : machine) (d : xed_decoded) (mi operand_i : Z) : Z :=
  if (mi =? 0) && negb (x_scale d operand_i =? 0) then reg_value m (x_index_reg d mi) * x_scale d mi else 0.

Lemma index_scaled_value m d mi operand_i p :
  cpu_sized m -> addressable d mi ->
  exists i sc, index_scaled m d mi operand_i p = Ok ((i, sc), p) /\ i * sc = index_term m d mi operand_i.
Proof.
  intros Hs (_ & Hi & _). unfold index_scaled, index_term. destruct (mi =? 0); cbn [andb]; [|by eexists _, _].
  case_bool_decide as Hinv; cbn [negb].
  - eexists _, _. split; [done|]. rewrite Hinv. by destruct (negb _).
  - rewrite (bind_ok _ _ _ _ _ (get_reg_value m _ p Hs Hi)). eexists _, _. split; [done|].
    destruct (negb _); lia.
Qed.

Definition seg_part (m : machine) (d : xed_decoded) (mi : Z) : Z :=
  if x_default_segment d mi then 0 else seg_value m (x_seg_reg d mi).

(** The effective address and the parts that are remembered of it. *)
Lemma operand_is_mem_value m op operand_i p :
  cpu_sized m -> is_mem_name op = true -> addressable (xedd_g p) (mem_idx op) ->
  let d := xedd_g p in
  let mi := mem_idx op in
  let b := reg_value m (x_base_reg d mi) in
  let s := seg_part m d mi in
  operand_is_mem m op operand_i p =
  Ok (Some (u32 (s + b + index_term m d mi operand_i + x_displacement d mi)),
      mkPemu d (inst_buf p) (u32 b) (u32 (s + x_displacement d mi)) (x_base_reg d mi) (x_index_reg d mi)).
Proof.
  intros Hs Hop Had d mi b s. unfold operand_is_mem. rewrite Hop. cbn [negb]. unfold decoded at 1, bind at 1.
  fold d mi. rewrite (bind_ok _ _ _ _ _ (get_reg_value m _ p Hs (proj1 Had))). unfold modify at 1, bind at 1.
  destruct (index_scaled_value m d mi operand_i (set_operand_regs (x_base_reg d mi) (x_index_reg d mi) p) Hs Had)
    as (i & sc & Hi & Hprod). rewrite (bind_ok _ _ _ _ _ Hi). cbn [fst snd]. rewrite Hprod.
  assert (forall q : pemu, (if bool_decide (x_seg_reg d mi = XED_REG_INVALID) || x_default_segment d mi
    then ret 0 else segs_base m (mapped (x_seg_reg d mi))) q = Ok (s, q)) as Hseg.
  { intros q. subst s. unfold seg_part. fold d mi in Had. destruct Had as (_ & _ & [Hinv|[j Hj]]).
    - rewrite bool_decide_true by done. rewrite Hinv. by destruct (x_default_segment d mi).
    - rewrite bool_decide_false by (intros E; by rewrite E in Hj). cbn [orb].
      destruct (x_default_segment d mi); [done|]. by apply (segs_base_value m _ j). }
  rewrite (bind_ok _ _ _ _ _ (Hseg _)). done.
Qed.
