(* ===== verification/Disas.v ===== *)
(** * Disassembly of calls

    rev_sem/disas.c: the routines that fetch and decode the instruction at an
    address and compute where a call goes. *)

From stdpp Require Import base list.
From Stdlib Require Import ZArith Lia.
From S2P Require Import Prelude Cpu Xed Guest Operand.

Local Open Scope Z_scope.
Local Open Scope c_scope.

Section Disas.
Context `{Xed}.

(** ** Effective addresses, without segments and with every segment *)

Definition operand_is_mem4 (m : machine) (op : xed_operand) (operand_i : Z) : M pemu (option Z) :=
  if negb (is_mem_name op) then ret None
  else
    d <- decoded ;;
    let mi := mem_idx op in
    base <- PEMU_get_reg m (x_base_reg d mi) ;;
    ix <- index_scaled m d mi operand_i ;;
    ret (Some (u32 (base + fst ix * snd ix + x_displacement d mi))).

(** The static [operand_is_mem] of disas.c. *)
Definition disas_operand_is_mem (m : machine) (op : xed_operand) (operand_i : Z) : M pemu (option Z) :=
  if negb (is_mem_name op) then ret None
  else
    d <- decoded ;;
    let mi := mem_idx op in
    segbase <- PEMU_get_seg m (x_seg_reg d mi) ;;
    base <- PEMU_get_reg m (x_base_reg d mi) ;;
    ix <- index_scaled m d mi operand_i ;;
    ret (Some (u32 (segbase + base + fst ix * snd ix + x_displacement d mi))).

(** ** Fetching *)

(** A read of 15 bytes into a buffer that already holds something. *)
Definition fetch15 (m : machine) (pc : Z) (buf : list Z) : list Z :=
  let bs := fst (PEMU_read_mem m pc 15) in bs ++ drop (length bs) buf.

(** [PEMU_read_mem(pc, 15, inst_buf)], [xed_decoded_inst_zero_set_mode] and
    [xed_decode] on [pemu_inst]. *)
Definition decode_at (m : machine) (pc : Z) : M pemu xed_error :=
  fun p =>
    let buf := fetch15 m pc (inst_buf p) in
    let '(err, d) := xed_decode buf in
    Ok (err, set_inst d buf p).

Definition disas_one_inst_ex (m : machine) (pc : Z) : M pemu xed_error := decode_at m pc.

(** The test is on the buffer of [pemu_inst], the instruction that is passed. *)
Definition disas_callnear_ex (m : machine) (pc : Z) : M pemu xed_error :=
  fun p =>
    let buf := fetch15 m pc (inst_buf p) in
    let b0 := nth 0 buf 0 in
    if negb (b0 =? 0xe8) && negb (b0 =? 0xff)
    then Ok (XED_ERROR_LAST, set_inst (xedd_g p) buf p)
    else let '(err, d) := xed_decode buf in Ok (err, set_inst d buf p).

(** The first byte of a fresh buffer. *)
Definition first_byte (m : machine) (pc : Z) : M pemu Z :=
  match fst (PEMU_read_mem m pc 15) with
  | b :: _ => ret b
  | [] => fail Uninit
  end.

Definition disas_is_jmpE9_call (m : machine) (pc : Z) : M pemu bool :=
  b <- first_byte m pc ;; ret ((b =? 0xe9) || (b =? 0xe8) || (b =? 0xff)).

Definition disas_is_call (m : machine) (pc : Z) : M pemu bool :=
  b <- first_byte m pc ;; ret ((b =? 0xe8) || (b =? 0xff)).

(** ** Call targets *)

Definition Instrument_CALL_NEAR (m : machine) (pc : Z) : M pemu Z :=
  decode_at m pc ;;
  d <- decoded ;;
  let op_name := operand_name d 0 in
  mem <- disas_operand_is_mem m op_name 0 ;;
  match mem with
  | Some mem_addr => read_u32 m mem_addr
  | None =>
      reg <- operand_is_reg op_name ;;
      match reg with
      | Some reg_id => PEMU_get_reg m reg_id
      | None => ret (u32 (x_branch_displacement d + pc + x_length d))
      end
  end.

(** [exit(0)] when the bytes do not decode; 0 for any other instruction. A call
    whose operand is of no known kind leaves [dest] unset. *)
Definition disas_get_target (m : machine) (start_pc : Z) : M pemu Z :=
  err <- decode_at m start_pc ;;
  match err with
  | XED_ERROR_NONE =>
      d <- decoded ;;
      if negb (x_call_near d) then ret 0
      else
        let op_name := operand_name d 0 in
        rel <- operand_is_relbr op_name ;;
        match rel with
        | Some dest => ret (u32 (dest + (start_pc + x_length d)))
        | None =>
            reg <- operand_is_reg op_name ;;
            match reg with
            | Some reg_id => PEMU_get_reg m reg_id
            | None =>
                mem <- operand_is_mem4 m op_name 0 ;;
                match mem with
                | Some dest => read_u32 m dest
                | None => fail Uninit
                end
            end
        end
  | _ => fail NoReturn
  end.

(** ** Behaviour *)

(** What a run returns, without the globals it leaves. *)
Definition result {A} (r : res (A * pemu)) : res A :=
  match r with Ok (a, _) => Ok a | Fault e => Fault e | OutOfFuel => OutOfFuel end.

(** The segment of the operand has base 0, as all segments of the kernel do. *)
Definition flat_operand (m : machine) (d : xed_decoded) (mi : Z) : Prop :=
  seg_value m (x_seg_reg d mi) = 0.

Lemma get_seg_value {S} m r (s : S) :
  cpu_sized m -> r = XED_REG_INVALID \/ is_Some (segment r) -> PEMU_get_seg m r s = Ok (seg_value m r, s).
Proof.
  intros Hs [->|[i Hi]]; [done|]. unfold PEMU_get_seg. rewrite decide_False by (by intros ->).
  by apply (segs_base_value m r i).
Qed.

Lemma operand_is_mem4_value m op operand_i p :
  cpu_sized m -> is_mem_name op = true -> addressable (xedd_g p) (mem_idx op) ->
  let d := xedd_g p in
  let mi := mem_idx op in
  operand_is_mem4 m op operand_i p =
  Ok (Some (u32 (reg_value m (x_base_reg d mi) + index_term m d mi operand_i + x_displacement d mi)), p).
Proof.
  intros Hs Hop Had d mi. unfold operand_is_mem4. rewrite Hop. cbn [negb]. unfold decoded at 1, bind at 1. fold d mi.
  rewrite (bind_ok _ _ _ _ _ (get_reg_value m _ p Hs (proj1 Had))).
  destruct (index_scaled_value m d mi operand_i p Hs Had) as (i & sc & Hi & Hprod).
  rewrite (bind_ok _ _ _ _ _ Hi). cbn [fst snd]. by rewrite Hprod.
Qed.

Lemma disas_operand_is_mem_value m op operand_i p :
  cpu_sized m -> is_mem_name op = true -> addressable (xedd_g p) (mem_idx op) ->
  let d := xedd_g p in
  let mi := mem_idx op in
  disas_operand_is_mem m op operand_i p =
  Ok (Some (u32 (seg_value m (x_seg_reg d mi) + reg_value m (x_base_reg d mi) +
                 index_term m d mi operand_i + x_displacement d mi)), p).
Proof.
  intros Hs Hop Had d mi. unfold disas_operand_is_mem. rewrite Hop. cbn [negb].
  unfold decoded at 1, bind at 1. fold d mi.
  rewrite (bind_ok _ _ _ _ _ (get_seg_value m _ p Hs (proj2 (proj2 Had)))).
  rewrite (bind_ok _ _ _ _ _ (get_reg_value m _ p Hs (proj1 Had))).
  destruct (index_scaled_value m d mi operand_i p Hs Had) as (i & sc & Hi & Hprod).
  rewrite (bind_ok _ _ _ _ _ Hi). cbn [fst snd]. by rewrite Hprod.
Qed.

(** The kinds of operand a near call has. *)
Definition call_operand (op : xed_operand) : bool :=
  is_mem_name op || is_reg_name op ||
  match op with XED_OPERAND_PTR | XED_OPERAND_RELBR => true | _ => false end.

(** Where a call with decoded form [d] at [pc] goes. *)
Definition call_target (m : machine) (d : xed_decoded) (pc : Z) : res Z :=
  let op := operand_name d 0 in
  if is_mem_name op then
    result (read_u32 m (u32 (reg_value m (x_base_reg d (mem_idx op)) + index_term m d (mem_idx op) 0 +
                             x_displacement d (mem_idx op))) (mkPemu d [] 0 0 XED_REG_INVALID XED_REG_INVALID))
  else if is_reg_name op then
    result (PEMU_get_reg m (x_get_reg d op) (mkPemu d [] 0 0 XED_REG_INVALID XED_REG_INVALID))
  else Ok (u32 (x_branch_displacement d + pc + x_length d)).

Lemma read_u32_result m a p p' : result (read_u32 m a p) = result (read_u32 m a p').
Proof. unfold read_u32. destruct (PEMU_read_mem m a 4) as [bs []]; done. Qed.

Lemma get_reg_result m r p p' : result (PEMU_get_reg m r p) = result (PEMU_get_reg m r p').
Proof.
  unfold PEMU_get_reg, regs_at. destruct (decide (r = XED_REG_INVALID)); [done|].
  destruct (if mapped r <? 0 then None else _); done.
Qed.

Section Call.
Context (m : machine) (pc : Z) (p : pemu) (d : xed_decoded).
Context (Hdec : xed_decode (fetch15 m pc (inst_buf p)) = (XED_ERROR_NONE, d)) (Hcall : x_call_near d = true).
Context (Hop : call_operand (operand_name d 0) = true) (Hs : cpu_sized m).
Context (Had : addressable d (mem_idx (operand_name d 0))) (Hflat : flat_operand m d (mem_idx (operand_name d 0))).

Lemma decode_at_ok : decode_at m pc p = Ok (XED_ERROR_NONE, set_inst d (fetch15 m pc (inst_buf p)) p).
Proof. unfold decode_at. by rewrite Hdec. Qed.

Lemma Instrument_CALL_NEAR_target : result (Instrument_CALL_NEAR m pc p) = call_target m d pc.
Proof.
  unfold Instrument_CALL_NEAR. rewrite (bind_ok _ _ _ _ _ decode_at_ok). set (q := set_inst d _ p).
  unfold decoded at 1, bind at 1. change (xedd_g q) with d. unfold call_target.
  destruct (is_mem_name (operand_name d 0)) eqn:Hm.
  - rewrite (bind_ok _ _ _ _ _ (disas_operand_is_mem_value m _ 0 q Hs Hm Had)).
    change (xedd_g q) with d. rewrite Hflat, Z.add_0_l. apply read_u32_result.
  - unfold disas_operand_is_mem. rewrite Hm. cbn [negb]. unfold ret at 1, bind at 1, operand_is_reg, decoded, bind, ret.
    change (xedd_g q) with d. destruct (is_reg_name (operand_name d 0)); [apply get_reg_result|done].
Qed.

Lemma disas_get_target_target : result (disas_get_target m pc p) = call_target m d pc.
Proof.
  unfold disas_get_target. rewrite (bind_ok _ _ _ _ _ decode_at_ok). set (q := set_inst d _ p).
  unfold decoded at 1, bind at 1. change (xedd_g q) with d. rewrite Hcall. cbn [negb]. unfold call_target.
  unfold operand_is_relbr, decoded, bind at 1, bind at 1, ret at 1. change (xedd_g q) with d.
  unfold call_operand in Hop. destruct (is_mem_name (operand_name d 0)) eqn:Hm.
  - replace (match operand_name d 0 with XED_OPERAND_PTR | XED_OPERAND_RELBR => Some (u32 (x_branch_displacement d))
      | _ => None end) with (@None Z) by (by destruct (operand_name d 0)).
    unfold operand_is_reg, decoded, bind at 1, bind at 1, ret at 1.
    replace (is_reg_name (operand_name d 0)) with false by (by destruct (operand_name d 0)).
    rewrite (bind_ok _ _ _ _ _ (operand_is_mem4_value m _ 0 q Hs Hm Had)). apply read_u32_result.
  - destruct (is_reg_name (operand_name d 0)) eqn:Hr.
    + replace (match operand_name d 0 with XED_OPERAND_PTR | XED_OPERAND_RELBR => Some (u32 (x_branch_displacement d))
        | _ => None end) with (@None Z) by (by destruct (operand_name d 0)).
      unfold operand_is_reg, decoded, bind, ret. change (xedd_g q) with d. rewrite Hr. apply get_reg_result.
    + cbn [orb] in Hop. replace (match operand_name d 0 with XED_OPERAND_PTR | XED_OPERAND_RELBR =>
        Some (u32 (x_branch_displacement d)) | _ => None end) with (Some (u32 (x_branch_displacement d)))
        by (by destruct (operand_name d 0)).
      unfold ret. cbn [result]. f_equal. unfold u32, wrap. rewrite Zplus_mod_idemp_l. f_equal. lia.
Qed.

Lemma get_callDest_target :
  result (bind (decode_at m pc) (fun _ => bind decoded (fun xi => get_callDest m xi pc)) p) = call_target m d pc.
Proof.
  rewrite (bind_ok _ _ _ _ _ decode_at_ok). set (q := set_inst d _ p).
  unfold decoded at 1, bind at 1. change (xedd_g q) with d. unfold get_callDest, call_target.
  destruct (is_mem_name (operand_name d 0)) eqn:Hm.
  - rewrite (bind_ok _ _ _ _ _ (operand_is_mem_value m _ 0 q Hs Hm Had)). change (xedd_g q) with d.
    assert (seg_part m d (mem_idx (operand_name d 0)) = 0) as ->
      by (unfold seg_part; destruct (x_default_segment _ _); [done|exact Hflat]).
    rewrite Z.add_0_l. apply read_u32_result.
  - unfold operand_is_mem. rewrite Hm. cbn [negb]. unfold ret at 1, bind at 1, operand_is_reg, decoded, bind at 1, ret at 1.
    unfold bind at 1. change (xedd_g q) with d. unfold call_operand in Hop. rewrite Hm in Hop. cbn [orb] in Hop.
    destruct (is_reg_name (operand_name d 0)); [apply get_reg_result|]. cbn [orb] in Hop.
    unfold operand_is_relbr, decoded, bind, ret. change (xedd_g q) with d.
    replace (match operand_name d 0 with XED_OPERAND_PTR | XED_OPERAND_RELBR =>
      Some (u32 (x_branch_displacement d)) | _ => None end) with (Some (u32 (x_branch_displacement d)))
      by (by destruct (operand_name d 0)).
    change (xedd_g q) with d. cbn [result]. f_equal. unfold u32, wrap. rewrite Zplus_mod_idemp_l. f_equal. lia.
Qed.
End Call.
End Disas.

(** ** Properties *)

(** The three routines that compute the destination of the near call at
    an address agree, error outcomes included: they return the relative target,
    the register, or the word at the effective address. *)
Theorem call_targets_agree `{Xed} m pc p d :
  xed_decode (fetch15 m pc (inst_buf p)) = (XED_ERROR_NONE, d) -> x_call_near d = true ->
  call_operand (operand_name d 0) = true -> cpu_sized m ->
  addressable d (mem_idx (operand_name d 0)) -> flat_operand m d (mem_idx (operand_name d 0)) ->
  result (Instrument_CALL_NEAR m pc p) = call_target m d pc /\
  result (disas_get_target m pc p) = call_target m d pc /\
  result (bind (decode_at m pc) (fun _ => bind decoded (fun xi => get_callDest m xi pc)) p) = call_target m d pc.
Proof.
  intros. split; [by apply Instrument_CALL_NEAR_target|]. split; [by apply disas_get_target_target|].
  by apply get_callDest_target.
Qed.

(** A decoder that takes every instruction for [call [ebx + 4*ecx + 8]]. *)
Definition call_mem : xed_decoded :=
  mkDecoded true 4 [XED_OPERAND_MEM0] (fun _ => XED_REG_INVALID) (fun _ => XED_REG_EBX) (fun _ => XED_REG_ECX)
    (fun _ => XED_REG_DS) (fun _ => 4) (fun _ => 8) (fun _ => true) 0 false 0 0 0 (fun _ => 4).
Definition demo_xed : Xed := {| xed_decode := fun _ => (XED_ERROR_NONE, call_mem) |}.
Definition demo_pemu : pemu := mkPemu call_mem (replicate 15 0) 0 0 XED_REG_INVALID XED_REG_INVALID.

Lemma call_targets_agree_witness :
  result (Instrument_CALL_NEAR (H := demo_xed) flat_machine 0x100 demo_pemu) = Ok 0x0b0a0908 /\
  result (disas_get_target (H := demo_xed) flat_machine 0x100 demo_pemu) = Ok 0x0b0a0908.
Proof.
  destruct (@call_targets_agree demo_xed flat_machine 0x100 demo_pemu call_mem) as (H1 & H2 & _).
  - reflexivity.
  - reflexivity.
  - reflexivity.
  - by split.
  - split_and!; right; by eexists.
  - reflexivity.
  - rewrite H1, H2. split; reflexivity.
Defined.

(** The effective address of a memory operand is segment base, base
    register, scaled index and displacement, modulo 2^32, and the parts that are
    remembered for the taint analysis are those it was computed from. The
    segment counts only when it is not the default one, and the index is dropped
    when the scale, tested at the operand's position, reads as zero. *)
Theorem operand_address m op operand_i p :
  cpu_sized m -> is_mem_name op = true -> addressable (xedd_g p) (mem_idx op) ->
  let d := xedd_g p in
  let mi := mem_idx op in
  exists a p',
    operand_is_mem m op operand_i p = Ok (Some a, p') /\
    a = u32 (seg_part m d mi + reg_value m (x_base_reg d mi) + index_term m d mi operand_i + x_displacement d mi) /\
    a = u32 (s_base p' + s_dis p' + index_term m d mi operand_i) /\
    s_base_regid p' = x_base_reg d mi /\ s_index_regid p' = x_index_reg d mi /\
    xedd_g p' = d /\ inst_buf p' = inst_buf p.
Proof.
  intros Hs Hop Had d mi. eexists _, _. split; [by apply operand_is_mem_value|]. split; [done|]. split; [|done].
  cbn [s_base s_dis]. fold d mi. unfold u32, wrap.
  rewrite <-(Zplus_mod_idemp_l (_ mod _ + _ mod _)), <-Zplus_mod, Zplus_mod_idemp_l. f_equal. lia.
Qed.

Lemma operand_address_witness :
  exists p', operand_is_mem flat_machine XED_OPERAND_MEM0 0 demo_pemu = Ok (Some 8, p') /\ s_dis p' = 8.
Proof.
  destruct (operand_address flat_machine XED_OPERAND_MEM0 0 demo_pemu) as (a & p' & H1 & H2 & _).
  - by split.
  - reflexivity.
  - split_and!; right; by eexists.
  - exists p'. split; [rewrite H1, H2; reflexivity|]. by injection H1 as _ <-.
Defined.
