(* ===== verification/ObjStore.v ===== *)
(** * What the tracer asks of its two stores

    The hooks of rev_sem/main.c and rev_sem/lib_map.cpp use the object tree
    (rb_tree.c) and the shadow memory (shadow_mem.c) through a few functions. They
    are interfaces here: the tracer is written against the operations and its
    theorems are proved from the laws; the red-black tree and the two-level table
    are the instances. *)

From stdpp Require Import base gmap list strings.
From Stdlib Require Import ZArith Lia.
From S2P Require Import Prelude RbTree RbShape RbStore Shadow.

Local Open Scope Z_scope.
Local Open Scope c_scope.

(** ** The object tree *)

(** The range, type and allocation site a node holds. *)
Definition node_obj (n : NodeType) : obj := mkObj (n_key n) (n_size n) (n_type n) (n_pc n).

Class ObjTree (T : Type) : Type := {
  tree_find : Z -> M T (option NodeType);          (** the node found, [None] for NULL *)
  tree_insert : Z -> Z -> NodeType -> M T unit;
  tree_delete : Z -> M T unit
}.

(** The laws: the tree holds disjoint objects [tree_holds], and has allocations
    [tree_left] left. *)
Class ObjTreeSpec (T : Type) `{!ObjTree T} : Type := {
  tree_holds : T -> list obj -> Prop;
  tree_left : T -> nat;
  tree_holds_ok t os : tree_holds t os -> objs_ok os;
  tree_find_spec t os a : tree_holds t os ->
    exists r, tree_find a t = Ok (r, t) /\
      match r with
      | Some n => node_obj n ∈ os /\ o_covers (node_obj n) a = true
      | None => uncovered os a
      end;
  tree_insert_spec t os key size p :
    tree_holds t os -> admissible os (ReqInsert key size p) -> tree_left t <> 0%nat ->
    exists t', tree_insert key size p t = Ok (tt, t') /\
      tree_holds t' (spec_step os (ReqInsert key size p)) /\ (tree_left t <= S (tree_left t'))%nat;
  tree_delete_spec t os key :
    tree_holds t os ->
    exists t', tree_delete key t = Ok (tt, t') /\ tree_holds t' (survivors key os) /\
      tree_left t' = tree_left t
}.

(** ** The shadow memory *)

Class TaintMem (H : Type) : Type := {
  taint_get : Z -> M H Z;
  taint_set : Z -> Z -> Z -> M H unit              (** address, value, size *)
}.

Class TaintMemSpec (H : Type) `{!TaintMem H} : Type := {
  taint_ok : H -> Prop;
  taint_at : H -> Z -> Z;
  taint_get_spec h a : taint_ok h -> in_range 32 a -> taint_get a h = Ok (taint_at h a, h);
  taint_set_spec h a v size :
    taint_ok h -> in_range 32 a -> in_range 32 size ->
    exists h', taint_set a v size h = Ok (tt, h') /\ taint_ok h' /\
      forall b, in_range 32 b -> taint_at h' b = if u32 (b - a) <? size then v else taint_at h b
}.

(** ** The red-black tree is an object tree *)

(** The value of the read after free does not matter
    ([ds_code_all_delete_rb_stale]). *)
#[export] Instance rb_obj_tree : ObjTree rb_state := {
  tree_find key :=
    p <- ds_code_rbtFind2 key ;;
    if ptr_eqb p NULL then ret None else n <- load p ;; ret (Some n);
  tree_insert := all_insert_tree;
  tree_delete key := _ <- ds_code_all_delete_rb 0 key ;; ret tt
}.

#[export] Program Instance rb_obj_tree_spec : ObjTreeSpec rb_state := {
  tree_holds s os := store s os /\ objs_ok os;
  tree_left := avail
}.
Next Obligation. by intros ?? [_ ?]. Qed.
Next Obligation.
  intros s os a [Hst Hok]. simpl.
  destruct (find2_cases s os a Hst) as [(p & l & o & r & s' & Hf & -> & (n & Hn & Ho) & Hc & _)|[Hf Hno]].
  - exists (Some n). rewrite (bind_ok _ _ _ _ _ Hf), ptr_eqb_false by done.
    unfold load, bind. rewrite Hn.
    assert (node_obj n = o) as -> by (by destruct n). split_and!; [done|set_solver|done].
  - exists None. rewrite (bind_ok _ _ _ _ _ Hf), ptr_eqb_true by done. split; [done|]. by apply Hno.
Qed.
Next Obligation.
  intros s os key size p [Hst Hok] Hadm Hav.
  destruct (serve_spec 0 s os (ReqInsert key size p) Hst Hok Hadm Hav) as (s' & Hrun & Hst' & Hav').
  exists s'. split_and!; [done|done| |done]. by apply spec_step_ok.
Qed.
Next Obligation.
  intros s os key [Hst Hok]. simpl.
  destruct (ds_code_all_delete_rb_store 0 key s os Hst) as (s' & os' & v & Hrun & Hst' & _ & _ & Hsurv & Hav & _).
  exists s'. rewrite (bind_ok _ _ _ _ _ Hrun). rewrite (Hsurv Hok) in Hst'.
  split_and!; [done|done| |done]. by apply survivors_ok.
Qed.

(** ** The two-level table is a shadow memory *)

#[export] Instance shadow_taint_mem : TaintMem shadow := {
  taint_get := get_mem_taint2;
  taint_set := set_mem_taint_bysize2
}.

#[export] Program Instance shadow_taint_mem_spec : TaintMemSpec shadow := {
  taint_ok s := shadow_ok s /\ enough s;
  taint_at := peek
}.
Next Obligation. intros h a [Hok _] Ha. by apply get_mem_taint2_spec. Qed.
Next Obligation.
  intros h a v size [Hok Hen] Ha Hs.
  destruct (set_mem_taint_bysize2_spec h a v size Hok Ha Hs Hen) as (h' & ? & ? & ? & ?).
  by exists h'.
Qed.
