(* ===== verification/CallStack.v ===== *)
(** * The guest's call stack, as a string

    [get_callstack_ebp] of rev_sem/lib_map.cpp walks the chain of saved frame
    pointers of the current kernel stack and prints the return addresses; the
    stack of interrupts per kernel stack says where the chain of an interrupt
    handler ends. *)

From stdpp Require Import base gmap list strings.
From Stdlib Require Import ZArith Lia Ascii.
From S2P Require Import Prelude Cpu Xed Guest Operand.

Local Open Scope Z_scope.
Local Open Scope c_scope.

(** ** Printing numbers ([std::hex], [to_string]) *)

Definition digit (d : Z) : ascii :=
  ascii_of_N (Z.to_N (if d <? 10 then 48 + d else 87 + d)).

(** Digits are written in front of [acc], least significant first. *)
Fixpoint print_base (b : Z) (fuel : nat) (x : Z) (acc : string) : string :=
  match fuel with
  | O => acc
  | S fuel' =>
      let acc := String (digit (x mod b)) acc in
      if x / b =? 0 then acc else print_base b fuel' (x / b) acc
  end.

(** Sixteen digits hold 64 bits; ten decimal ones hold 32. *)
Definition hex (x : Z) : string := print_base 16 16 x EmptyString.
Definition to_string (x : Z) : string := print_base 10 10 x EmptyString.

Definition int_to_string (addr : Z) : string := hex addr.

(** ** Variables that a read may leave partly written *)

Definition cell : Type := list (option Z).

Definition fresh (n : nat) : cell := replicate n None.
Definition overwrite (bs : list Z) (c : cell) : cell := (Some <$> bs) ++ drop (length bs) c.

Fixpoint le_bytes (n : nat) (x : Z) : list Z :=
  match n with
  | O => []
  | S n' => x mod 256 :: le_bytes n' (x / 256)
  end.
Definition cell_of (x : Z) : cell := Some <$> le_bytes 4 x.

Fixpoint cell_bytes (c : cell) : option (list Z) :=
  match c with
  | [] => Some []
  | None :: _ => None
  | Some b :: c' => cons b <$> cell_bytes c'
  end.

(** Using a variable of which a byte was never written is undefined. *)
Definition cell_num {S} (c : cell) : M S Z :=
  match cell_bytes c with Some bs => ret (le_num bs) | None => fail Uninit end.

(** [PEMU_read_mem(vaddr, len, &c)]: the variable and whether 0 is returned. *)
Definition read_into (m : machine) (vaddr len : Z) (c : cell) : cell * bool :=
  let '(bs, ok) := PEMU_read_mem m vaddr len in (overwrite bs c, ok).

(** ** Interrupts in progress *)

Record ESP : Type := mkESP { max_esp : Z; int_num : Z }.

(** [g_interrupt_esp]; the top of a stack is the head of the list. *)
Abbreviation interrupts := (gmap Z (list ESP)).

Definition add_interrupt_esp (esp_key max num : Z) (g : interrupts) : interrupts :=
  <[esp_key := mkESP max (u32 num) :: default [] (g !! esp_key)]> g.

(** [top()] of an empty stack is undefined. *)
Definition get_interrupt_new {S} (esp_key : Z) (g : interrupts) : M S ESP :=
  match g !! esp_key with
  | None => ret (mkESP 0 0)
  | Some (e :: _) => ret e
  | Some [] => fail BadIndex
  end.

Definition delete_interrupt_esp (esp_key : Z) (g : interrupts) : interrupts :=
  match g !! esp_key with
  | Some (_ :: es) =>
      match es with
      | [] => delete esp_key g
      | _ => <[esp_key := es]> g
      end
  | _ => g
  end.

(** ** The kernel being traced (config_pemu.h, Linux 2.6.32.8) *)

Definition STACK_SIZE : Z := 0x2000.
Definition STACK_MASK : Z := 0xffffe000.
Definition TIME_INTERRUPT (ret_addr : Z) : bool := ret_addr =? 0xc1003bf5.
Definition COMMON_INTERRUPT (ret_addr : Z) : bool := ret_addr =? 0xc10038b0.
Definition COMMON_EXCEPTION (ret_addr : Z) : bool := ret_addr =? 0xc1269ecb.
Definition HARD_CODE_SCHED (a : Z) : bool := (0xc1268a66 <=? a) && (a <=? 0xc1268a88).

(** ** The walk *)

Fixpoint callstack_loop {S} (m : machine) (kernel_esp esp_max : Z) (fuel : nat)
    (ebp ret_addr : cell) (str : string) : M S string :=
  match fuel with
  | O => no_fuel
  | Datatypes.S fuel' =>
      e <- cell_num ebp ;;
      if (e <? kernel_esp) || (esp_max <=? u32 (e + 4)) then ret str
      else
        let ret_addr := fst (read_into m (u32 (e + 4)) 4 ret_addr) in
        r <- cell_num ret_addr ;;
        let str := (int_to_string r +:+ "->" +:+ str)%string in
        if HARD_CODE_SCHED r then
          let ebp := fst (read_into m (u32 (e + 8)) 4 ebp) in
          callstack_loop m kernel_esp esp_max fuel' ebp ret_addr str
        else
          let '(ebp, ok) := read_into m e 4 ebp in
          if negb ok || TIME_INTERRUPT r || COMMON_INTERRUPT r || COMMON_EXCEPTION r then ret str
          else callstack_loop m kernel_esp esp_max fuel' ebp ret_addr str
  end.

(** [fuel] bounds the rounds of the loop, which has no bound in the code. *)
Definition get_callstack_ebp {S} (m : machine) (fuel : nat) (g : interrupts) (pc : Z) : M S string :=
  esp <- PEMU_get_reg m XED_REG_ESP ;;
  let kernel_esp := Z.land esp STACK_MASK in
  info <- get_interrupt_new kernel_esp g ;;
  let '(esp_max, num) :=
    if negb (max_esp info =? 0) then (max_esp info, int_num info)
    else (u32 (kernel_esp + STACK_SIZE), u32 (-1)) in
  ebp <- (if HARD_CODE_SCHED pc
          then sp <- PEMU_get_reg m XED_REG_ESP ;; ret (fst (read_into m sp 4 (fresh 4)))
          else bp <- PEMU_get_reg m XED_REG_EBP ;; ret (cell_of bp)) ;;
  str <- callstack_loop m kernel_esp esp_max fuel ebp (fresh 4) (int_to_string pc) ;;
  ret (if negb (num =? u32 (-1)) then ("I-" +:+ to_string num +:+ ":" +:+ str)%string else str).

(** ** Numbers can be read back *)

(** The value of a digit, and of a string of digits in front of [n]. *)
Definition digit_value (a : ascii) : Z :=
  let n := Z.of_N (N_of_ascii a) in if n <? 58 then n - 48 else n - 87.

Fixpoint parse_base (b : Z) (s : string) (n : Z) : Z :=
  match s with
  | EmptyString => n
  | String a s' => parse_base b s' (n * b + digit_value a)
  end.

Lemma digit_value_digit d : 0 <= d < 16 -> digit_value (digit d) = d.
Proof.
  intros Hd. unfold digit_value, digit.
  assert (d = 0 \/ d = 1 \/ d = 2 \/ d = 3 \/ d = 4 \/ d = 5 \/ d = 6 \/ d = 7 \/ d = 8 \/ d = 9 \/
    d = 10 \/ d = 11 \/ d = 12 \/ d = 13 \/ d = 14 \/ d = 15) as H by lia.
  by repeat destruct H as [->|H]; [..|rewrite H].
Qed.

Lemma parse_base_shift b s n : parse_base b s n = n * b ^ Z.of_nat (String.length s) + parse_base b s 0.
Proof.
  revert n. induction s as [|a s IH]; intros n; cbn [parse_base String.length]; [lia|].
  rewrite IH, (IH (0 * b + _)). rewrite Nat2Z.inj_succ, Z.pow_succ_r by lia. lia.
Qed.

Lemma print_base_length b fuel x acc :
  (String.length acc <= String.length (print_base b fuel x acc))%nat.
Proof.
  revert x acc. induction fuel as [|fuel IH]; intros x acc; cbn [print_base]; [done|].
  destruct (_ =? 0); [simpl; lia|]. etrans; [|apply IH]. simpl. lia.
Qed.

Lemma print_base_value b fuel x acc :
  2 <= b <= 16 -> 0 <= x < b ^ Z.of_nat fuel ->
  parse_base b (print_base b fuel x acc) 0 =
  x * b ^ Z.of_nat (String.length acc) + parse_base b acc 0.
Proof.
  intros Hb. revert x acc. induction fuel as [|fuel IH]; intros x acc Hx; cbn [print_base].
  { simpl in Hx. replace x with 0 by lia. lia. }
  rewrite Nat2Z.inj_succ, Z.pow_succ_r in Hx by lia.
  pose proof (Z.mod_pos_bound x b ltac:(lia)). pose proof (Z.div_mod x b ltac:(lia)).
  pose proof (Z.div_pos x b ltac:(lia) ltac:(lia)).
  assert (forall y, parse_base b (String (digit (x mod b)) acc) 0 + (x / b - y) * b ^ Z.of_nat (S (String.length acc)) =
    x * b ^ Z.of_nat (String.length acc) + parse_base b acc 0 - y * b ^ Z.of_nat (S (String.length acc))) as Hacc.
  { intros y. cbn [parse_base]. rewrite parse_base_shift, digit_value_digit by lia.
    rewrite Nat2Z.inj_succ, Z.pow_succ_r by lia. nia. }
  destruct (Z.eqb_spec (x / b) 0) as [Hz|Hz].
  - specialize (Hacc (x / b)). rewrite Hz in Hacc. lia.
  - rewrite IH; [|split; [done|]; apply Z.div_lt_upper_bound; lia].
    cbn [String.length]. specialize (Hacc 0). lia.
Qed.

Lemma hex_value x : in_range 64 x -> parse_base 16 (hex x) 0 = x.
Proof.
  intros Hx. unfold hex. rewrite print_base_value; [simpl; lia|lia|].
  change (16 ^ Z.of_nat 16) with (2 ^ 64). done.
Qed.

Lemma hex_inj x y : in_range 64 x -> in_range 64 y -> hex x = hex y -> x = y.
Proof. intros Hx Hy H. rewrite <-(hex_value x Hx), <-(hex_value y Hy). by rewrite H. Qed.

(** A printed number contains only digits, so it ends where a separator is. *)
Fixpoint digits_only (s : string) : bool :=
  match s with
  | EmptyString => true
  | String a s' => ((48 <=? N_of_ascii a) && (N_of_ascii a <=? 57) ||
                    ((97 <=? N_of_ascii a) && (N_of_ascii a <=? 102)))%N && digits_only s'
  end.

Lemma digit_only d : 0 <= d < 16 -> digits_only (String (digit d) EmptyString) = true.
Proof.
  intros Hd.
  assert (d = 0 \/ d = 1 \/ d = 2 \/ d = 3 \/ d = 4 \/ d = 5 \/ d = 6 \/ d = 7 \/ d = 8 \/ d = 9 \/
    d = 10 \/ d = 11 \/ d = 12 \/ d = 13 \/ d = 14 \/ d = 15) as H by lia.
  by repeat destruct H as [->|H]; [..|rewrite H].
Qed.

Lemma print_base_digits b fuel x acc :
  2 <= b <= 16 -> digits_only acc = true -> digits_only (print_base b fuel x acc) = true.
Proof.
  intros Hb. revert x acc. induction fuel as [|fuel IH]; intros x acc Hacc; cbn [print_base]; [done|].
  assert (digits_only (String (digit (x mod b)) acc) = true) as Hd.
  { pose proof (Z.mod_pos_bound x b ltac:(lia)) as Hm.
    pose proof (digit_only (x mod b) ltac:(lia)) as H. simpl in H |- *.
    apply andb_true_iff in H as [H _]. by rewrite H. }
  destruct (_ =? 0); [done|]. by apply IH.
Qed.

Lemma hex_digits x : digits_only (hex x) = true.
Proof. by apply print_base_digits. Qed.

(** Two prefixes of digits before a separator that is no digit are the same. *)
Lemma digits_sep s1 s2 c r1 r2 :
  digits_only s1 = true -> digits_only s2 = true -> digits_only (String c EmptyString) = false ->
  (s1 +:+ String c r1 = s2 +:+ String c r2)%string -> s1 = s2 /\ r1 = r2.
Proof.
  intros H1 H2 Hc. revert s2 H2. induction s1 as [|a1 s1 IH]; intros [|a2 s2] H2 Heq; simpl in *.
  - by simplify_eq.
  - simplify_eq. apply andb_true_iff in H2 as [H2 _]. by rewrite H2 in Hc.
  - simplify_eq. apply andb_true_iff in H1 as [H1 _]. by rewrite H1 in Hc.
  - injection Heq as -> Heq. apply andb_true_iff in H1 as [_ H1], H2 as [_ H2].
    destruct (IH H1 s2 H2 Heq) as [-> ->]. done.
Qed.

(** ** Words of guest memory *)

Definition word (m : machine) (a : Z) : option Z :=
  match PEMU_read_mem m a 4 with (bs, true) => Some (le_num bs) | (_, false) => None end.

Definition bytes_ok (bs : list Z) : Prop := Forall (fun b => in_range 8 b) bs.

Lemma read_bytes_ok m n a bs : read_bytes m n a = (bs, true) -> length bs = n /\ bytes_ok bs.
Proof.
  revert a bs. induction n as [|n IH]; intros a bs; simpl; [intros; simplify_eq; by split; [|constructor]|].
  destruct (translate m a) as [p|]; [|done].
  destruct (read_bytes m n (u32 (a + 1))) as [bs' ok] eqn:Hr. intros ?; simplify_eq.
  destruct (IH _ _ Hr) as [Hl Hb]. simpl. split; [lia|]. constructor; [apply u8_range|done].
Qed.

Lemma le_num_range bs : bytes_ok bs -> 0 <= le_num bs < 256 ^ Z.of_nat (length bs).
Proof.
  induction 1 as [|b bs Hb _ IH]; simpl le_num; simpl length; [done|].
  rewrite Nat2Z.inj_succ, Z.pow_succ_r by lia. simpl in Hb. lia.
Qed.

(** The variable [c] holds [v]. *)
Definition cell_is (c : cell) (v : Z) : Prop :=
  exists bs, c = Some <$> bs /\ length bs = 4%nat /\ le_num bs = v.

Lemma cell_bytes_some bs : cell_bytes (Some <$> bs) = Some bs.
Proof. induction bs as [|b bs IH]; [done|]. rewrite fmap_cons. simpl. by rewrite IH. Qed.

Lemma cell_is_num {S} c v (s : S) : cell_is c v -> cell_num c s = Ok (v, s).
Proof. intros (bs & -> & _ & <-). unfold cell_num. by rewrite cell_bytes_some. Qed.

Lemma cell_is_length c v : cell_is c v -> length c = 4%nat.
Proof. intros (bs & -> & Hl & _). by rewrite length_fmap. Qed.

Lemma cell_of_is x : in_range 32 x -> cell_is (cell_of x) x.
Proof.
  intros Hx. exists (le_bytes 4 x). split_and!; [done..|]. simpl.
  pose proof (Z.div_mod x 256). pose proof (Z.div_mod (x / 256) 256). pose proof (Z.div_mod (x / 256 / 256) 256).
  assert (x / 256 / 256 / 256 mod 256 = x / 256 / 256 / 256) as ->; [|lia].
  apply Z.mod_small. rewrite !Z.div_div by done. split; [by apply Z.div_pos; lia|].
  apply Z.div_lt_upper_bound; lia.
Qed.

Lemma read_into_word m a c v :
  in_range 32 a -> length c = 4%nat -> word m a = Some v ->
  in_range 32 v /\ exists c', read_into m a 4 c = (c', true) /\ cell_is c' v.
Proof.
  intros Ha Hc. unfold word, read_into, PEMU_read_mem, cpu_memory_rw_debug.
  rewrite rw_debug_bytes by (done || lia). change (Z.to_nat 4) with 4%nat.
  destruct (read_bytes m 4 a) as [bs []] eqn:Hr; [|done]. intros ?; simplify_eq.
  destruct (read_bytes_ok _ _ _ _ Hr) as [Hl Hb]. split.
  - pose proof (le_num_range bs Hb) as H. by rewrite Hl in H.
  - eexists. split; [done|]. exists bs. split_and!; [|done..].
    unfold overwrite. rewrite drop_ge by lia. by rewrite app_nil_r.
Qed.

Lemma read_into_none m a c : word m a = None -> snd (read_into m a 4 c) = false.
Proof. unfold word, read_into. by destruct (PEMU_read_mem m a 4) as [bs []]. Qed.

(** ** The chain of frames *)

Section Chain.
Context (m : machine) (lo hi : Z).

Definition out_of_stack (e : Z) : bool := (e <? lo) || (hi <=? u32 (e + 4)).

(** The walk stops at a frame entered by an interrupt, or whose link cannot be
    read. *)
Definition stops (r : Z) : bool := TIME_INTERRUPT r || COMMON_INTERRUPT r || COMMON_EXCEPTION r.

(** [frames e rs]: from the frame at [e], every word the walk needs can be read
    and the return addresses are [rs], innermost first. *)
Inductive frames : Z -> list Z -> Prop :=
| frames_out e : out_of_stack e = true -> frames e []
| frames_sched e r e' rs :
    out_of_stack e = false -> word m (u32 (e + 4)) = Some r -> HARD_CODE_SCHED r = true ->
    word m (u32 (e + 8)) = Some e' -> frames e' rs -> frames e (r :: rs)
| frames_last e r :
    out_of_stack e = false -> word m (u32 (e + 4)) = Some r -> HARD_CODE_SCHED r = false ->
    word m e = None \/ stops r = true -> frames e [r]
| frames_next e r e' rs :
    out_of_stack e = false -> word m (u32 (e + 4)) = Some r -> HARD_CODE_SCHED r = false ->
    word m e = Some e' -> stops r = false -> frames e' rs -> frames e (r :: rs).

(** The printed chain in front of what is printed already. *)
Fixpoint render (rs : list Z) (str : string) : string :=
  match rs with
  | [] => str
  | r :: rs' => render rs' (int_to_string r +:+ "->" +:+ str)%string
  end.

Lemma callstack_loop_frames {S} fuel e rs ebp ra str (s : S) :
  frames e rs -> in_range 32 e -> (length rs < fuel)%nat -> cell_is ebp e -> length ra = 4%nat ->
  callstack_loop m lo hi fuel ebp ra str s = Ok (render rs str, s).
Proof.
  intros Hf. revert fuel ebp ra str.
  induction Hf as [e Ho|e r e' rs Ho Hr Hs He Hf IH|e r Ho Hr Hs Hst|e r e' rs Ho Hr Hs He Hst Hf IH];
    intros [|fuel] ebp ra str Hin Hfuel Hebp Hra; simpl in Hfuel; try lia;
    cbn [callstack_loop]; rewrite (bind_ok _ _ _ _ _ (cell_is_num _ _ s Hebp));
    unfold out_of_stack in Ho; rewrite Ho; [done|..];
    destruct (read_into_word m _ ra r (u32_range _) Hra Hr) as (_ & c1 & Hrd & Hc1);
    rewrite Hrd; cbn [fst]; rewrite (bind_ok _ _ _ _ _ (cell_is_num _ _ s Hc1)), Hs;
    pose proof (cell_is_length _ _ Hc1); pose proof (cell_is_length _ _ Hebp) as Hlen.
  - destruct (read_into_word m _ ebp e' (u32_range _) Hlen He) as (Hin' & c2 & -> & Hc2).
    cbn [fst]. by apply IH; [done|lia|..].
  - unfold stops in Hst. destruct (read_into m e 4 ebp) as [c2 ok] eqn:Hrd2.
    destruct Hst as [Hnone|Hst].
    + pose proof (read_into_none m e ebp Hnone) as Hok. rewrite Hrd2 in Hok. simpl in Hok. by rewrite Hok.
    + by rewrite <-!orb_assoc, (orb_assoc (TIME_INTERRUPT r)), Hst, orb_true_r.
  - unfold stops in Hst. destruct (read_into_word m _ ebp e' Hin Hlen He) as (Hin' & c2 & -> & Hc2).
    cbn [negb orb]. rewrite Hst. by apply IH; [done|lia|..].
Qed.

(** On a sane stack every word in range can be read, and a link leads further up
    in the stack or out of it. *)
Definition sane_stack : Prop :=
  forall e, in_range 32 e -> out_of_stack e = false -> e < hi ->
    exists r, word m (u32 (e + 4)) = Some r /\
      let link := if HARD_CODE_SCHED r then word m (u32 (e + 8)) else word m e in
      (HARD_CODE_SCHED r = true -> link <> None) /\
      forall e', link = Some e' -> e < e' < hi \/ out_of_stack e' = true.

Lemma word_range a v : in_range 32 a -> word m a = Some v -> in_range 32 v.
Proof. intros Ha Hw. by destruct (read_into_word m a (fresh 4) v Ha eq_refl Hw). Qed.

Lemma sane_frames e :
  in_range 32 e -> e < hi \/ out_of_stack e = true -> sane_stack ->
  exists rs, frames e rs /\ Z.of_nat (length rs) <= Z.max 0 (hi - lo).
Proof.
  intros He Hin Hsane.
  enough (exists rs, frames e rs /\ (rs = [] \/ lo <= e /\ Z.of_nat (length rs) <= hi - e)) as (rs & Hf & Hl).
  { exists rs. split; [done|]. destruct Hl as [->|[? ?]]; simpl; lia. }
  assert (exists n, hi - e <= Z.of_nat n) as [n Hn] by (exists (Z.to_nat (hi - e)); lia).
  revert e He Hin Hn. induction n as [|n IH]; intros e He Hin Hn;
    (destruct (out_of_stack e) eqn:Ho; [exists []; split; [by constructor|by left]|]);
    destruct Hin as [Hin|?]; try done; [lia|].
  destruct (Hsane e He Ho Hin) as (r & Hr & Hnone & Hlink).
  assert (lo <= e) as Hloe by (unfold out_of_stack in Ho; destruct (Z.ltb_spec e lo); [done|lia]).
  assert (forall e', in_range 32 e' -> e < e' < hi \/ out_of_stack e' = true ->
    exists rs, frames e' rs /\ Z.of_nat (length rs) < hi - e) as Hrec.
  { intros e' He' [Hlt|Hout].
    - destruct (IH e' He') as (rs & Hf & Hl); [by left; lia|lia|].
      exists rs. split; [done|]. destruct Hl as [->|?]; simpl; lia.
    - exists []. split; [by constructor|simpl; lia]. }
  destruct (HARD_CODE_SCHED r) eqn:Hs.
  - destruct (word m (u32 (e + 8))) as [e'|] eqn:Hw; [|by destruct Hnone].
    destruct (Hrec e' (word_range _ _ (u32_range _) Hw) (Hlink _ eq_refl)) as (rs & Hf & Hl).
    exists (r :: rs). split; [by eapply frames_sched|]. right. simpl length. lia.
  - destruct (word m e) as [e'|] eqn:Hw; [destruct (stops r) eqn:Hst|].
    + exists [r]. split; [by apply frames_last; [..|right]|]. right. simpl length. lia.
    + destruct (Hrec e' (word_range _ _ He Hw) (Hlink _ eq_refl)) as (rs & Hf & Hl).
      exists (r :: rs). split; [by eapply frames_next|]. right. simpl length. lia.
    + exists [r]. split; [by apply frames_last; [..|left]|]. right. simpl length. lia.
Qed.
End Chain.

(** A check of [sane_stack] that runs. *)
Definition sane_at (m : machine) (lo hi e : Z) : bool :=
  out_of_stack lo hi e ||
  match word m (u32 (e + 4)) with
  | None => false
  | Some r =>
      match (if HARD_CODE_SCHED r then word m (u32 (e + 8)) else word m e) with
      | None => negb (HARD_CODE_SCHED r)
      | Some e' => (e <? e') && (e' <? hi) || out_of_stack lo hi e'
      end
  end.
Definition sane_check (m : machine) (lo hi : Z) : bool := forallb (sane_at m lo hi) (seqZ lo (hi - lo)).

Lemma sane_check_ok m lo hi : sane_check m lo hi = true -> sane_stack m lo hi.
Proof.
  unfold sane_check, sane_stack. rewrite forallb_forall. intros Hc e He Ho Hlt.
  assert (lo <= e) as Hlo by (unfold out_of_stack in Ho; destruct (Z.ltb_spec e lo); [done|lia]).
  assert (In e (seqZ lo (hi - lo))) as Hin by (apply list_elem_of_In, elem_of_seqZ; lia).
  specialize (Hc e Hin). unfold sane_at in Hc. rewrite Ho in Hc. cbn [orb] in Hc.
  destruct (word m (u32 (e + 4))) as [r|]; [|done].
  exists r. split; [done|]. cbv zeta.
  destruct (if HARD_CODE_SCHED r then word m (u32 (e + 8)) else word m e) as [e'|]; split; try done.
  - intros ? [= ->]. apply orb_true_iff in Hc as [Hc|Hc]; [left|by right].
    apply andb_true_iff in Hc as [?%Z.ltb_lt ?%Z.ltb_lt]. lia.
  - intros Hs. by rewrite Hs in Hc.
Qed.

(** ** The stack the walk starts on *)

Definition regs32 (m : machine) : Prop :=
  cpu_sized m /\ Forall (fun v => in_range 32 v) (regs (m_cpu m)).

Lemma reg_value_range m r : regs32 m -> in_range 32 (reg_value m r).
Proof.
  intros [_ Hr]. unfold reg_value. destruct (container r) as [i|]; [|done].
  rewrite nth_lookup. destruct (regs (m_cpu m) !! Z.to_nat i) as [v|] eqn:Hv; [|done].
  by eapply Forall_lookup in Hr; [|exact Hv].
Qed.

(** A stack of interrupts is not empty, and its entries lie in the kernel stack
    it belongs to. *)
Definition interrupts_ok (g : interrupts) : Prop :=
  forall k es, g !! k = Some es -> es <> [] /\ Forall (fun e => k <= max_esp e < k + STACK_SIZE) es.

Definition stack_base (m : machine) : Z := Z.land (reg_value m XED_REG_ESP) STACK_MASK.
Definition top_interrupt (g : interrupts) (k : Z) : ESP :=
  match g !! k with Some (e :: _) => e | _ => mkESP 0 0 end.
Definition stack_end (g : interrupts) (m : machine) : Z :=
  let i := top_interrupt g (stack_base m) in
  if negb (max_esp i =? 0) then max_esp i else u32 (stack_base m + STACK_SIZE).
Definition first_frame (m : machine) (pc : Z) : option Z :=
  if HARD_CODE_SCHED pc then word m (reg_value m XED_REG_ESP) else Some (reg_value m XED_REG_EBP).

Definition callstack_string (g : interrupts) (m : machine) (pc : Z) (rs : list Z) : string :=
  let i := top_interrupt g (stack_base m) in
  let str := render rs (int_to_string pc) in
  if (max_esp i =? 0) || (int_num i =? u32 (-1)) then str
  else ("I-" +:+ to_string (int_num i) +:+ ":" +:+ str)%string.

Lemma get_interrupt_top {S} g k (s : S) :
  interrupts_ok g -> get_interrupt_new k g s = Ok (top_interrupt g k, s).
Proof.
  intros Hg. unfold get_interrupt_new, top_interrupt.
  destruct (g !! k) as [[|e es]|] eqn:Hk; [|done..]. by destruct (Hg k [] Hk).
Qed.

(** What is printed is determined by the loop. *)
Lemma get_callstack_ebp_loop {S} m g fuel pc e (s : S) :
  regs32 m -> interrupts_ok g -> first_frame m pc = Some e ->
  exists c, cell_is c e /\ in_range 32 e /\
    get_callstack_ebp m fuel g pc s =
    match callstack_loop m (stack_base m) (stack_end g m) fuel c (fresh 4) (int_to_string pc) s with
    | Ok (str, s') =>
        let i := top_interrupt g (stack_base m) in
        Ok (if (max_esp i =? 0) || (int_num i =? u32 (-1)) then str
            else ("I-" +:+ to_string (int_num i) +:+ ":" +:+ str)%string, s')
    | Fault f => Fault f
    | OutOfFuel => OutOfFuel
    end.
Proof.
  intros Hm Hg Hfirst. pose proof (proj1 Hm) as Hsz. unfold get_callstack_ebp, first_frame in *.
  rewrite (bind_ok _ _ _ _ _ (get_reg_value m XED_REG_ESP s Hsz ltac:(right; by eexists))).
  fold (stack_base m). rewrite (bind_ok _ _ _ _ _ (get_interrupt_top g (stack_base m) s Hg)).
  unfold stack_end. set (i := top_interrupt g (stack_base m)).
  assert (exists c, cell_is c e /\ in_range 32 e /\
    (if HARD_CODE_SCHED pc
     then sp <- PEMU_get_reg m XED_REG_ESP ;; ret (fst (read_into m sp 4 (fresh 4)))
     else bp <- PEMU_get_reg m XED_REG_EBP ;; ret (cell_of bp)) s = Ok (c, s)) as (c & Hc & He & Hread).
  { destruct (HARD_CODE_SCHED pc).
    - destruct (read_into_word m _ (fresh 4) e (reg_value_range m _ Hm) eq_refl Hfirst) as (He & c & Hrd & Hc).
      exists c. rewrite (bind_ok _ _ _ _ _ (get_reg_value m XED_REG_ESP s Hsz ltac:(right; by eexists))).
      by rewrite Hrd.
    - simplify_eq. eexists. split; [by apply cell_of_is, reg_value_range|]. split; [by apply reg_value_range|].
      by rewrite (bind_ok _ _ _ _ _ (get_reg_value m XED_REG_EBP s Hsz ltac:(right; by eexists))). }
  exists c. split_and!; [done|apply He|apply He|].
  destruct (max_esp i =? 0) eqn:Hmax; cbn [negb orb];
    rewrite (bind_ok _ _ _ _ _ Hread); unfold bind;
    destruct (callstack_loop _ _ _ _ _ _ _ s) as [[str s']| |]; try done.
  unfold ret. by destruct (int_num i =? u32 (-1)).
Qed.

(** The stack can be walked: its chain starts and stays in it. *)
Definition stack_ready (m : machine) (g : interrupts) (pc : Z) : Prop :=
  regs32 m /\ interrupts_ok g /\ sane_stack m (stack_base m) (stack_end g m) /\
  exists e, first_frame m pc = Some e /\
    (e < stack_end g m \/ out_of_stack (stack_base m) (stack_end g m) e = true).

Lemma stack_base_range m : regs32 m -> 0 <= stack_base m.
Proof. intros Hm. apply Z.land_nonneg. left. by apply reg_value_range. Qed.

Lemma stack_end_bound g m : regs32 m -> interrupts_ok g -> stack_end g m - stack_base m <= STACK_SIZE.
Proof.
  intros Hm Hg. unfold stack_end, top_interrupt. pose proof (stack_base_range m Hm) as Hb.
  assert (forall x, 0 <= x -> u32 x <= x) as Hu by (intros; by apply Z.mod_le; [|lia]).
  destruct (g !! stack_base m) as [[|e es]|] eqn:Hk; simpl.
  - specialize (Hu (stack_base m + STACK_SIZE)). unfold STACK_SIZE in *. lia.
  - destruct (Hg _ _ Hk) as [_ Hes]. inversion Hes; subst. destruct (negb _); [lia|].
    specialize (Hu (stack_base m + STACK_SIZE)). unfold STACK_SIZE in *. lia.
  - specialize (Hu (stack_base m + STACK_SIZE)). unfold STACK_SIZE in *. lia.
Qed.

Lemma get_callstack_ebp_spec m g fuel pc :
  stack_ready m g pc -> STACK_SIZE < Z.of_nat fuel ->
  exists e rs, first_frame m pc = Some e /\ frames m (stack_base m) (stack_end g m) e rs /\
    forall S (s : S), get_callstack_ebp m fuel g pc s = Ok (callstack_string g m pc rs, s).
Proof.
  intros (Hm & Hg & Hsane & e & Hfirst & Hin) Hfuel.
  assert (in_range 32 e) as He by (by destruct (get_callstack_ebp_loop m g fuel pc e tt Hm Hg Hfirst) as (? & _ & ? & _)).
  destruct (sane_frames m _ _ e He Hin Hsane) as (rs & Hf & Hlen).
  pose proof (stack_end_bound g m Hm Hg). exists e, rs. split_and!; [done..|]. intros S s.
  destruct (get_callstack_ebp_loop m g fuel pc e s Hm Hg Hfirst) as (c & Hc & _ & ->).
  rewrite (callstack_loop_frames m _ _ fuel e rs c (fresh 4) (int_to_string pc) s Hf He); [done| |done|done].
  unfold STACK_SIZE in *. lia.
Qed.

(** ** Properties *)

(** C31: on a sane kernel stack (its words can be read and each saved frame
    pointer leads up the stack or out of it), [get_callstack_ebp] returns: it
    prints the return addresses of the chain of frames from the outermost to the
    innermost and then the program counter, with the number of the interrupt in
    front if one is in progress on this stack; it changes nothing, and 8193 rounds
    are always enough. *)
Theorem callstack_walk m g fuel pc :
  stack_ready m g pc -> STACK_SIZE < Z.of_nat fuel ->
  exists e rs, first_frame m pc = Some e /\ frames m (stack_base m) (stack_end g m) e rs /\
    forall S (s : S), get_callstack_ebp m fuel g pc s = Ok (callstack_string g m pc rs, s).
Proof. apply get_callstack_ebp_spec. Qed.

(** C40: the walk has no bound of its own: a frame that is its own caller makes
    [get_callstack_ebp] run forever. *)
Theorem callstack_cycle m g pc e r :
  regs32 m -> interrupts_ok g -> first_frame m pc = Some e ->
  out_of_stack (stack_base m) (stack_end g m) e = false ->
  word m e = Some e -> word m (u32 (e + 4)) = Some r ->
  HARD_CODE_SCHED r = false -> stops r = false ->
  forall fuel S (s : S), get_callstack_ebp m fuel g pc s = OutOfFuel.
Proof.
  intros Hm Hg Hfirst Ho He Hr Hs Hst fuel S s.
  destruct (get_callstack_ebp_loop m g fuel pc e s Hm Hg Hfirst) as (c & Hc & Hin & ->).
  enough (forall ra str, length ra = 4%nat ->
    callstack_loop m (stack_base m) (stack_end g m) fuel c ra str s = OutOfFuel) as -> by done.
  clear Hfirst. revert c Hc. induction fuel as [|fuel IH]; intros c Hc ra str Hra; [done|].
  cbn [callstack_loop]. rewrite (bind_ok _ _ _ _ _ (cell_is_num _ _ s Hc)).
  unfold out_of_stack in Ho. rewrite Ho.
  destruct (read_into_word m _ ra r (u32_range _) Hra Hr) as (_ & c1 & Hrd & Hc1). rewrite Hrd. cbn [fst].
  rewrite (bind_ok _ _ _ _ _ (cell_is_num _ _ s Hc1)), Hs.
  destruct (read_into_word m e c e Hin (cell_is_length _ _ Hc) He) as (_ & c2 & -> & Hc2).
  unfold stops in Hst. cbn [negb orb]. rewrite Hst. apply IH; [done|by eapply cell_is_length].
Qed.

(** A machine without paging, with the given words in memory. *)
Fixpoint words_at (ws : list (Z * Z)) (x : Z) : Z :=
  match ws with
  | [] => 0
  | (a, v) :: ws' => if (a <=? x) && (x <? a + 4) then Z.shiftr v (8 * (x - a)) mod 256 else words_at ws' x
  end.
(** EAX, EDX, ESP and EBP are given. *)
Definition machine_of (eax edx esp ebp : Z) (ws : list (Z * Z)) : machine :=
  mkMachine (with_regs [eax; 0; edx; 0; esp; ebp; 0; 0] blank_cpu) (words_at ws).

Lemma machine_of_regs eax edx esp ebp ws :
  in_range 32 eax -> in_range 32 edx -> in_range 32 esp -> in_range 32 ebp ->
  regs32 (machine_of eax edx esp ebp ws).
Proof. intros. split; [done|]. simpl. repeat constructor; lia. Qed.

(** Elsewhere the memory of [machine_of] is zero, so a stack in it is sane if it is
    sane around the words. *)
Definition near (ws : list (Z * Z)) : list Z := flat_map (fun w => seqZ (fst w - 11) 15) ws.

Lemma words_at_zero ws e i : ~ In e (near ws) -> 0 <= i < 12 -> words_at ws (e + i) = 0.
Proof.
  intros Hn Hi. induction ws as [|[a v] ws IH]; [done|]. unfold near in Hn. cbn [flat_map fst words_at] in *.
  rewrite in_app_iff in Hn.
  assert (~ (a - 11 <= e < a + 4)) by (intros ?; apply Hn; left; apply list_elem_of_In, elem_of_seqZ; lia).
  destruct (Z.leb_spec a (e + i)), (Z.ltb_spec (e + i) (a + 4)); cbn [andb]; lia || (apply IH; tauto).
Qed.

Lemma word_zero eax edx esp ebp ws a :
  0 <= a < 2 ^ 32 - 4 -> (forall i, 0 <= i < 4 -> words_at ws (a + i) = 0) ->
  word (machine_of eax edx esp ebp ws) a = Some 0.
Proof.
  intros Ha Hz. set (m := machine_of eax edx esp ebp ws). unfold word, PEMU_read_mem, cpu_memory_rw_debug.
  rewrite rw_debug_bytes by lia.
  assert (forall n b, a <= b -> b + Z.of_nat n <= a + 4 -> read_bytes m n b = (replicate n 0, true)) as H.
  { induction n as [|n IH]; intros b Hb Hn; [done|]. cbn [read_bytes]. unfold translate, x86_cpu_get_phys_page_debug.
    change (negb (has (crn m 0) CR0_PG_MASK)) with true. cbv iota.
    rewrite u32_id by lia. rewrite IH by lia. cbn [replicate]. do 2 f_equal. unfold ldub_phys.
    change (a20_mask (m_cpu m)) with (-1). rewrite Z.land_m1_r, page_mask, Z.div_mul by lia.
    change (4096 - 1) with (Z.ones 12). rewrite Z.land_ones, Z.mod_mul by lia. change (u32 0) with 0.
    pose proof (Z.div_mod b 4096). pose proof (Z.mod_pos_bound b 4096). rewrite Z.add_0_r. unfold u64. rewrite wrap_id by lia.
    replace (b / 4096 * 4096 + b mod 4096) with (a + (b - a)) by lia. change (m_phys m) with (words_at ws). by rewrite Hz by lia. }
  rewrite (H (Z.to_nat 4) a) by lia. done.
Qed.

Lemma sane_near eax edx esp ebp ws lo hi :
  0 < lo -> hi <= 2 ^ 32 - 16 -> forallb (sane_at (machine_of eax edx esp ebp ws) lo hi) (near ws) = true ->
  sane_stack (machine_of eax edx esp ebp ws) lo hi.
Proof.
  intros Hlo Hhi Hc. apply sane_check_ok, forallb_forall. intros e He%list_elem_of_In%elem_of_seqZ.
  destruct (in_dec Z.eq_dec e (near ws)) as [Hin|Hn]; [by apply (proj1 (forallb_forall _ _) Hc)|].
  unfold sane_at. rewrite !(u32_id (e + _)) by lia.
  assert (forall d, 0 <= d <= 8 -> word (machine_of eax edx esp ebp ws) (e + d) = Some 0) as Hw.
  { intros d Hd. apply word_zero; [lia|]. intros i Hi. rewrite <-Z.add_assoc. apply words_at_zero; [done|lia]. }
  rewrite (Hw 4) by lia. change (HARD_CODE_SCHED 0) with false. cbv iota. replace e with (e + 0) at 2 by lia.
  rewrite (Hw 0) by lia. unfold out_of_stack at 2. apply Z.ltb_lt in Hlo. by rewrite Hlo, !orb_true_r.
Qed.

Lemma interrupts_ok_empty : interrupts_ok ∅.
Proof. intros k es Hk. by rewrite lookup_empty in Hk. Qed.

(** Two frames above the current one. *)
Definition two_frames : machine :=
  machine_of 0 0 0x5f00 0x5f10
    [(0x5f10, 0x5f20); (0x5f14, 0xc1001111); (0x5f20, 0); (0x5f24, 0xc1002222)].

Lemma callstack_walk_witness :
  (exists e rs, first_frame two_frames 0xc1000000 = Some e /\
     frames two_frames (stack_base two_frames) (stack_end ∅ two_frames) e rs /\
     forall S (s : S), get_callstack_ebp two_frames 8193 ∅ 0xc1000000 s =
       Ok (callstack_string ∅ two_frames 0xc1000000 rs, s)) /\
  get_callstack_ebp two_frames 8193 ∅ 0xc1000000 tt = Ok ("c1002222->c1001111->c1000000"%string, tt).
Proof.
  split; [|by vm_compute].
  apply (callstack_walk two_frames ∅ 8193 0xc1000000); [|reflexivity].
  split_and!; [by apply machine_of_regs|apply interrupts_ok_empty|by apply sane_near; vm_compute|].
  exists 0x5f10. split; [reflexivity|left; by vm_compute].
Defined.

Definition self_frame : machine := machine_of 0 0 0x5f00 0x5f10 [(0x5f10, 0x5f10); (0x5f14, 0xc1001111)].

Lemma callstack_cycle_witness :
  word self_frame 0x5f10 = Some 0x5f10 /\
  (forall fuel, get_callstack_ebp self_frame fuel ∅ 0xc1000000 tt = OutOfFuel).
Proof.
  split; [by vm_compute|]. intros fuel. apply (callstack_cycle self_frame ∅ 0xc1000000 0x5f10 0xc1001111);
    [by apply machine_of_regs|apply interrupts_ok_empty|by vm_compute..].
Defined.

(** ** Nesting of interrupts *)

Inductive irq_event : Type := IrqEnter (esp_key max num : Z) | IrqLeave (esp_key : Z).

Definition irq_step (g : interrupts) (ev : irq_event) : interrupts :=
  match ev with
  | IrqEnter k max num => add_interrupt_esp k max num g
  | IrqLeave k => delete_interrupt_esp k g
  end.

(** The interrupts open on stack [k] after [evs], [None] if one is left that was
    not entered. *)
Fixpoint open_after (k : Z) (n : nat) (evs : list irq_event) : option nat :=
  match evs with
  | [] => Some n
  | IrqEnter k' _ _ :: evs' => open_after k (if k' =? k then S n else n) evs'
  | IrqLeave k' :: evs' =>
      if k' =? k then match n with O => None | S n' => open_after k n' evs' end
      else open_after k n evs'
  end.

(** An entry lies in the stack of its key, as [esp] does in [esp & 0xffffe000]. *)
Definition irq_event_ok (ev : irq_event) : Prop :=
  match ev with IrqEnter k max _ => k <= max < k + STACK_SIZE | IrqLeave _ => True end.

Definition irqs (g : interrupts) (k : Z) : list ESP := default [] (g !! k).

Lemma add_interrupt_ok g k max num :
  interrupts_ok g -> k <= max < k + STACK_SIZE -> interrupts_ok (add_interrupt_esp k max num g).
Proof.
  intros Hg Hm k' es. unfold add_interrupt_esp. destruct (decide (k' = k)) as [->|Hne].
  - rewrite lookup_insert_eq. intros [= <-]. split; [done|]. constructor; [done|].
    destruct (g !! k) as [es|] eqn:Hk; [|constructor]. by apply (Hg k es).
  - rewrite lookup_insert_ne by done. apply Hg.
Qed.

Lemma delete_interrupt_ok g k : interrupts_ok g -> interrupts_ok (delete_interrupt_esp k g).
Proof.
  intros Hg k' es. unfold delete_interrupt_esp.
  destruct (g !! k) as [[|e [|e2 es2]]|] eqn:Hk; try apply Hg.
  - intros Hd. apply lookup_delete_Some in Hd as [_ Hd]. by apply (Hg k').
  - destruct (decide (k' = k)) as [->|Hne].
    + rewrite lookup_insert_eq. intros [= <-]. split; [done|].
      destruct (Hg _ _ Hk) as [_ Hf]. by inversion Hf.
    + rewrite lookup_insert_ne by done. apply Hg.
Qed.

Lemma irqs_step g ev k :
  irqs (irq_step g ev) k =
  match ev with
  | IrqEnter k' max num => if k' =? k then mkESP max (u32 num) :: irqs g k else irqs g k
  | IrqLeave k' => if k' =? k then tail (irqs g k) else irqs g k
  end.
Proof.
  unfold irqs. destruct ev as [k' max num|k']; simpl; destruct (Z.eqb_spec k' k) as [->|Hne].
  - unfold add_interrupt_esp. by rewrite lookup_insert_eq.
  - unfold add_interrupt_esp. by rewrite lookup_insert_ne.
  - unfold delete_interrupt_esp. destruct (g !! k) as [[|e [|e2 es]]|] eqn:Hk; simpl.
    + by rewrite Hk.
    + by rewrite lookup_delete_eq.
    + by rewrite lookup_insert_eq.
    + by rewrite Hk.
  - unfold delete_interrupt_esp. destruct (g !! k') as [[|e [|e2 es]]|] eqn:Hk; try done.
    + by rewrite lookup_delete_ne.
    + by rewrite lookup_insert_ne.
Qed.

Lemma irqs_open evs : forall g k n n' pre rest,
  irqs g k = pre ++ rest -> length pre = n -> open_after k n evs = Some n' ->
  exists pre', irqs (foldl irq_step g evs) k = pre' ++ rest /\ length pre' = n'.
Proof.
  induction evs as [|ev evs IH]; intros g k n n' pre rest Hg Hl Hop; simpl in *.
  { simplify_eq. eauto. }
  pose proof (irqs_step g ev k) as Hs. destruct ev as [k' max num|k']; destruct (k' =? k).
  - eapply (IH _ _ _ _ (_ :: pre)); [by rewrite Hs, Hg|simpl; by rewrite Hl|done].
  - eapply IH; [by rewrite Hs|done..].
  - destruct n as [|n0]; [done|]. destruct pre as [|x pre]; simpl in Hl; [lia|].
    eapply (IH _ _ n0 _ pre); [by rewrite Hs, Hg|lia|done].
  - eapply IH; [by rewrite Hs|done..].
Qed.

Lemma irqs_ok_run evs g :
  interrupts_ok g -> Forall irq_event_ok evs -> interrupts_ok (foldl irq_step g evs).
Proof.
  intros Hg Hevs. revert g Hg. induction Hevs as [|ev evs Hev _ IH]; intros g Hg; [done|]. simpl. apply IH.
  destruct ev; [by apply add_interrupt_ok|by apply delete_interrupt_ok].
Qed.

Lemma irqs_lookup g k : interrupts_ok g -> g !! k = match irqs g k with [] => None | es => Some es end.
Proof.
  intros Hg. unfold irqs. destruct (g !! k) as [[|e es]|] eqn:Hk; [|done..]. by destruct (Hg k [] Hk).
Qed.

(** C35: entries and exits of interrupts on different kernel stacks may interleave
    in any way: once as many were left as were entered on a stack, properly
    nested, that stack of interrupts is the one from before; reading the top of it
    is defined at every moment, and after an entry gives that entry. *)
Theorem interrupts_nest g evs k :
  interrupts_ok g -> Forall irq_event_ok evs ->
  (open_after k 0 evs = Some 0%nat -> foldl irq_step g evs !! k = g !! k) /\
  (forall S (s : S), exists e, get_interrupt_new k (foldl irq_step g evs) s = Ok (e, s)) /\
  (forall max num S (s : S),
     get_interrupt_new k (irq_step (foldl irq_step g evs) (IrqEnter k max num)) s = Ok (mkESP max (u32 num), s)).
Proof.
  intros Hg Hevs. pose proof (irqs_ok_run evs g Hg Hevs) as Hg'. split_and!.
  - intros Hop. destruct (irqs_open evs g k 0 0 [] (irqs g k) eq_refl eq_refl Hop) as ([|] & Hi & Hl); [|done].
    rewrite !irqs_lookup by done. by rewrite Hi.
  - intros S s. eexists. by apply get_interrupt_top.
  - intros max num S s. unfold get_interrupt_new, irq_step, add_interrupt_esp. by rewrite lookup_insert_eq.
Qed.

Lemma interrupts_nest_witness :
  foldl irq_step ∅ [IrqEnter 0xc2000000 0xc2001ff0 32; IrqEnter 0xc3000000 0xc3001ff0 14;
                    IrqEnter 0xc2000000 0xc2001f00 14; IrqLeave 0xc2000000; IrqLeave 0xc2000000]
    !! 0xc2000000 = None.
Proof.
  destruct (interrupts_nest ∅ [IrqEnter 0xc2000000 0xc2001ff0 32; IrqEnter 0xc3000000 0xc3001ff0 14;
                    IrqEnter 0xc2000000 0xc2001f00 14; IrqLeave 0xc2000000; IrqLeave 0xc2000000] 0xc2000000)
    as [H _].
  - apply interrupts_ok_empty.
  - repeat constructor; unfold STACK_SIZE; lia.
  - by apply H.
Defined.
