(* ===== verification/LibMap.v ===== *)
(** * The tracer's tables (rev_sem/lib_map.cpp)

    The global maps of lib_map.cpp are the fields of one record, beside the object
    tree and the shadow memory, which are used through the interfaces of
    ObjStore.v. [std::hash] is a parameter of the functions that use it, the guest
    an argument; text written to the log files is kept as the list of the values
    that are printed. *)

From stdpp Require Import base gmap list strings.
From Stdlib Require Import ZArith Lia.
From S2P Require Import Prelude RbTree ObjStore Cpu Xed Guest Operand CallStack.

Local Open Scope Z_scope.
Local Open Scope c_scope.

(** ** Data *)

(** An allocation in progress; [insert_obj] leaves [caller_pc] unset. *)
Record Elem1 : Type := mkElem1 {
  el_name : string;
  el_size : Z;
  el_caller_pc : option Z;
  el_addr : Z
}.

(** The set is allocated with [new]; [None] is the null pointer. *)
Record Instance : Type := mkInstance { in_type : Z; in_pset : option (gset string) }.

(** The part of [struct DataIntem] that rb_tree.c fills, and all of it. *)
Record DataItem0 : Type := mkItem0 { d_pc : Z; d_size : Z; d_name : string }.
Record DataIntem : Type := mkItem {
  d_item : DataItem0;
  d_callstack : string;
  d_types : gmap Z (gset string);
  d_pset : gset string
}.

Record Func : Type := mkFunc { f_num : Z; f_name : string; f_args : list (Z * string) }.

(** One [fprintf] to a log. *)
Inductive line : Type :=
| LCallstack (cs : string)                             (** output_database *)
| LDatabase (obj pc : Z) (name : string) (size : Z)    (** output_database *)
| LInstance (type : Z) (accesses : gset string)        (** output_file1 *)
| LRead (hash : Z) (cs : string)                       (** output_file2 *)
| LWrite (hash : Z) (cs : string)                      (** output_file3 *)
| LDelete (hash : Z) (cs : string)                     (** output_file4 *)
| LReplaced (addr old new : Z).                        (** stderr *)

Record tracer (T H : Type) : Type := mkTracer {
  t_tree : T;   (** the tree of rb_tree.c *)
  t_shadow : H;   (** the shadow memory *)
  g_pc : Z;   (** address of the current instruction *)
  g_obj : gmap Z Elem1;   (** allocations in progress, by return address *)
  g_all_obj : gmap Z Z;
  g_instances : gmap Z Instance;   (** live instances, by address *)
  g_access_callstack : gmap Z string;
  g_delete_callstack : gmap Z string;
  g_interrupt_esp : interrupts;
  sys_create : gmap Z (gset Z);
  database : gmap Z DataIntem;   (** types seen so far *)
  g_dest : gset Z;   (** targets of calls *)
  g_point_to : gmap Z (gset string);
  g_traverse : gmap Z (gset string);
  g_func_interface : gmap Z Func;
  syscall_call_funcs : gmap Z Z;
  call_relation : gmap Z (gset Z);
  t_out : list line   (** what was printed, the last line first *)
}.
Arguments t_tree {T H} _.
Arguments t_shadow {T H} _.
Arguments g_pc {T H} _.
Arguments g_obj {T H} _.
Arguments g_all_obj {T H} _.
Arguments g_instances {T H} _.
Arguments g_access_callstack {T H} _.
Arguments g_delete_callstack {T H} _.
Arguments g_interrupt_esp {T H} _.
Arguments sys_create {T H} _.
Arguments database {T H} _.
Arguments g_dest {T H} _.
Arguments g_point_to {T H} _.
Arguments g_traverse {T H} _.
Arguments g_func_interface {T H} _.
Arguments syscall_call_funcs {T H} _.
Arguments call_relation {T H} _.
Arguments t_out {T H} _.
Arguments mkTracer {T H} _ _ _ _ _ _ _ _ _ _ _ _ _ _ _ _ _ _.

(** Writing one field. *)
Definition with_t_tree {T H} (v : T) (s : tracer T H) : tracer T H :=
  mkTracer v (t_shadow s) (g_pc s) (g_obj s) (g_all_obj s) (g_instances s) (g_access_callstack
    s) (g_delete_callstack s) (g_interrupt_esp s) (sys_create s) (database s) (g_dest s)
    (g_point_to s) (g_traverse s) (g_func_interface s) (syscall_call_funcs s) (call_relation s)
    (t_out s).
Definition with_t_shadow {T H} (v : H) (s : tracer T H) : tracer T H :=
  mkTracer (t_tree s) v (g_pc s) (g_obj s) (g_all_obj s) (g_instances s) (g_access_callstack s)
    (g_delete_callstack s) (g_interrupt_esp s) (sys_create s) (database s) (g_dest s)
    (g_point_to s) (g_traverse s) (g_func_interface s) (syscall_call_funcs s) (call_relation s)
    (t_out s).
Definition with_g_pc {T H} (v : Z) (s : tracer T H) : tracer T H :=
  mkTracer (t_tree s) (t_shadow s) v (g_obj s) (g_all_obj s) (g_instances s) (g_access_callstack
    s) (g_delete_callstack s) (g_interrupt_esp s) (sys_create s) (database s) (g_dest s)
    (g_point_to s) (g_traverse s) (g_func_interface s) (syscall_call_funcs s) (call_relation s)
    (t_out s).
Definition with_g_obj {T H} (v : gmap Z Elem1) (s : tracer T H) : tracer T H :=
  mkTracer (t_tree s) (t_shadow s) (g_pc s) v (g_all_obj s) (g_instances s) (g_access_callstack
    s) (g_delete_callstack s) (g_interrupt_esp s) (sys_create s) (database s) (g_dest s)
    (g_point_to s) (g_traverse s) (g_func_interface s) (syscall_call_funcs s) (call_relation s)
    (t_out s).
Definition with_g_all_obj {T H} (v : gmap Z Z) (s : tracer T H) : tracer T H :=
  mkTracer (t_tree s) (t_shadow s) (g_pc s) (g_obj s) v (g_instances s) (g_access_callstack s)
    (g_delete_callstack s) (g_interrupt_esp s) (sys_create s) (database s) (g_dest s)
    (g_point_to s) (g_traverse s) (g_func_interface s) (syscall_call_funcs s) (call_relation s)
    (t_out s).
Definition with_g_instances {T H} (v : gmap Z Instance) (s : tracer T H) : tracer T H :=
  mkTracer (t_tree s) (t_shadow s) (g_pc s) (g_obj s) (g_all_obj s) v (g_access_callstack s)
    (g_delete_callstack s) (g_interrupt_esp s) (sys_create s) (database s) (g_dest s)
    (g_point_to s) (g_traverse s) (g_func_interface s) (syscall_call_funcs s) (call_relation s)
    (t_out s).
Definition with_g_access_callstack {T H} (v : gmap Z string) (s : tracer T H) : tracer T H :=
  mkTracer (t_tree s) (t_shadow s) (g_pc s) (g_obj s) (g_all_obj s) (g_instances s) v
    (g_delete_callstack s) (g_interrupt_esp s) (sys_create s) (database s) (g_dest s)
    (g_point_to s) (g_traverse s) (g_func_interface s) (syscall_call_funcs s) (call_relation s)
    (t_out s).
Definition with_g_delete_callstack {T H} (v : gmap Z string) (s : tracer T H) : tracer T H :=
  mkTracer (t_tree s) (t_shadow s) (g_pc s) (g_obj s) (g_all_obj s) (g_instances s)
    (g_access_callstack s) v (g_interrupt_esp s) (sys_create s) (database s) (g_dest s)
    (g_point_to s) (g_traverse s) (g_func_interface s) (syscall_call_funcs s) (call_relation s)
    (t_out s).
Definition with_g_interrupt_esp {T H} (v : interrupts) (s : tracer T H) : tracer T H :=
  mkTracer (t_tree s) (t_shadow s) (g_pc s) (g_obj s) (g_all_obj s) (g_instances s)
    (g_access_callstack s) (g_delete_callstack s) v (sys_create s) (database s) (g_dest s)
    (g_point_to s) (g_traverse s) (g_func_interface s) (syscall_call_funcs s) (call_relation s)
    (t_out s).
Definition with_sys_create {T H} (v : gmap Z (gset Z)) (s : tracer T H) : tracer T H :=
  mkTracer (t_tree s) (t_shadow s) (g_pc s) (g_obj s) (g_all_obj s) (g_instances s)
    (g_access_callstack s) (g_delete_callstack s) (g_interrupt_esp s) v (database s) (g_dest s)
    (g_point_to s) (g_traverse s) (g_func_interface s) (syscall_call_funcs s) (call_relation s)
    (t_out s).
Definition with_database {T H} (v : gmap Z DataIntem) (s : tracer T H) : tracer T H :=
  mkTracer (t_tree s) (t_shadow s) (g_pc s) (g_obj s) (g_all_obj s) (g_instances s)
    (g_access_callstack s) (g_delete_callstack s) (g_interrupt_esp s) (sys_create s) v (g_dest
    s) (g_point_to s) (g_traverse s) (g_func_interface s) (syscall_call_funcs s) (call_relation
    s) (t_out s).
Definition with_g_dest {T H} (v : gset Z) (s : tracer T H) : tracer T H :=
  mkTracer (t_tree s) (t_shadow s) (g_pc s) (g_obj s) (g_all_obj s) (g_instances s)
    (g_access_callstack s) (g_delete_callstack s) (g_interrupt_esp s) (sys_create s) (database
    s) v (g_point_to s) (g_traverse s) (g_func_interface s) (syscall_call_funcs s)
    (call_relation s) (t_out s).
Definition with_g_point_to {T H} (v : gmap Z (gset string)) (s : tracer T H) : tracer T H :=
  mkTracer (t_tree s) (t_shadow s) (g_pc s) (g_obj s) (g_all_obj s) (g_instances s)
    (g_access_callstack s) (g_delete_callstack s) (g_interrupt_esp s) (sys_create s) (database
    s) (g_dest s) v (g_traverse s) (g_func_interface s) (syscall_call_funcs s) (call_relation s)
    (t_out s).
Definition with_g_traverse {T H} (v : gmap Z (gset string)) (s : tracer T H) : tracer T H :=
  mkTracer (t_tree s) (t_shadow s) (g_pc s) (g_obj s) (g_all_obj s) (g_instances s)
    (g_access_callstack s) (g_delete_callstack s) (g_interrupt_esp s) (sys_create s) (database
    s) (g_dest s) (g_point_to s) v (g_func_interface s) (syscall_call_funcs s) (call_relation s)
    (t_out s).
Definition with_g_func_interface {T H} (v : gmap Z Func) (s : tracer T H) : tracer T H :=
  mkTracer (t_tree s) (t_shadow s) (g_pc s) (g_obj s) (g_all_obj s) (g_instances s)
    (g_access_callstack s) (g_delete_callstack s) (g_interrupt_esp s) (sys_create s) (database
    s) (g_dest s) (g_point_to s) (g_traverse s) v (syscall_call_funcs s) (call_relation s)
    (t_out s).
Definition with_syscall_call_funcs {T H} (v : gmap Z Z) (s : tracer T H) : tracer T H :=
  mkTracer (t_tree s) (t_shadow s) (g_pc s) (g_obj s) (g_all_obj s) (g_instances s)
    (g_access_callstack s) (g_delete_callstack s) (g_interrupt_esp s) (sys_create s) (database
    s) (g_dest s) (g_point_to s) (g_traverse s) (g_func_interface s) v (call_relation s) (t_out
    s).
Definition with_call_relation {T H} (v : gmap Z (gset Z)) (s : tracer T H) : tracer T H :=
  mkTracer (t_tree s) (t_shadow s) (g_pc s) (g_obj s) (g_all_obj s) (g_instances s)
    (g_access_callstack s) (g_delete_callstack s) (g_interrupt_esp s) (sys_create s) (database
    s) (g_dest s) (g_point_to s) (g_traverse s) (g_func_interface s) (syscall_call_funcs s) v
    (t_out s).
Definition with_t_out {T H} (v : list line) (s : tracer T H) : tracer T H :=
  mkTracer (t_tree s) (t_shadow s) (g_pc s) (g_obj s) (g_all_obj s) (g_instances s)
    (g_access_callstack s) (g_delete_callstack s) (g_interrupt_esp s) (sys_create s) (database
    s) (g_dest s) (g_point_to s) (g_traverse s) (g_func_interface s) (syscall_call_funcs s)
    (call_relation s) v.


Section Ops.
Context {T H : Type} `{!ObjTree T} `{!TaintMem H}.
Abbreviation TM := (M (tracer T H)).

Definition modify_t (f : tracer T H -> tracer T H) : TM unit := fun s => Ok (tt, f s).
Definition gets {A} (f : tracer T H -> A) : TM A := fun s => Ok (f s, s).

(** Running an operation of the object tree or of the shadow memory. *)
Definition on_tree {A} (x : M T A) : TM A :=
  fun s => match x (t_tree s) with
           | Ok (a, t) => Ok (a, with_t_tree t s)
           | Fault f => Fault f
           | OutOfFuel => OutOfFuel
           end.
Definition on_shadow {A} (x : M H A) : TM A :=
  fun s => match x (t_shadow s) with
           | Ok (a, h) => Ok (a, with_t_shadow h s)
           | Fault f => Fault f
           | OutOfFuel => OutOfFuel
           end.
Definition print (l : line) : TM unit := modify_t (fun s => with_t_out (l :: t_out s) s).

(** ** Allocations in progress *)

Definition insert_obj (pc addr size : Z) (name : string) : TM unit :=
  modify_t (fun s => with_g_obj (<[pc := mkElem1 name size None addr]> (g_obj s)) s).

Definition get_obj (pc : Z) : TM bool := gets (fun s => bool_decide (is_Some (g_obj s !! pc))).

(** [g_obj[pc]] inserts an element when there is none. *)
Definition obj_at (pc : Z) : TM Elem1 :=
  s <- get ;;
  match g_obj s !! pc with
  | Some e => ret e
  | None =>
      let e := mkElem1 EmptyString 0 (Some 0) 0 in
      modify_t (fun s => with_g_obj (<[pc := e]> (g_obj s)) s) ;; ret e
  end.

(** [strcpy] into the caller's buffer of [cap] bytes. *)
Definition get_name (pc : Z) (cap : nat) : TM string := e <- obj_at pc ;; strcpy cap (el_name e).
Definition get_size (pc : Z) : TM Z := e <- obj_at pc ;; ret (el_size e).
Definition get_obj_addr (pc : Z) : TM Z := e <- obj_at pc ;; ret (el_addr e).
Definition get_caller_pc (pc : Z) : TM Z :=
  e <- obj_at pc ;; match el_caller_pc e with Some v => ret v | None => fail Uninit end.
Definition delete_obj (pc : Z) : TM unit := modify_t (fun s => with_g_obj (delete pc (g_obj s)) s).

(** ** Counts of allocation sites *)

(** The counters are ints; [++] at the largest value overflows. *)
Definition insert_all_obj (pc : Z) : TM unit :=
  s <- get ;;
  match g_all_obj s !! pc with
  | None => modify_t (fun s => with_g_all_obj (<[pc := 1]> (g_all_obj s)) s)
  | Some n =>
      if n <=? 0 then fail AssertFailed
      else modify_t (fun s => with_g_all_obj (<[pc := s32 (n + 1)]> (g_all_obj s)) s)
  end.

Definition get_all_obj (pc : Z) : TM bool := gets (fun s => bool_decide (is_Some (g_all_obj s !! pc))).

Definition delete_all_obj (pc : Z) : TM unit :=
  s <- get ;;
  let n := default 0 (g_all_obj s !! pc) in
  if n =? 1 then modify_t (fun s => with_g_all_obj (delete pc (g_all_obj s)) s)
  else if n <=? 0 then fail AssertFailed
  else modify_t (fun s => with_g_all_obj (<[pc := n - 1]> (g_all_obj s)) s).

(** ** Call stacks *)

Context (m : machine) (hash_fn : string -> Z) (fuel : nat).

Definition callstack_ebp (pc : Z) : TM string := s <- get ;; get_callstack_ebp m fuel (g_interrupt_esp s) pc.

Definition hash_callstack (pc : Z) : TM Z := cs <- callstack_ebp pc ;; ret (hash_fn cs).
Definition cur_dump_callstack (pc : Z) : TM unit := cs <- callstack_ebp pc ;; print (LCallstack cs).
Definition get_cur_callstack_str (pc : Z) : TM string := callstack_ebp pc.

(** ** Types *)

Definition update_traced_size (obj size : Z) : TM unit :=
  s <- get ;;
  match database s !! obj with
  | Some d =>
      when (d_size (d_item d) <? size)
        (modify_t (fun s => with_database (<[obj :=
           mkItem (mkItem0 (d_pc (d_item d)) size (d_name (d_item d)))
             (d_callstack d) (d_types d) (d_pset d)]> (database s)) s))
  | None => ret tt
  end.

Definition set_createSys (sysnum obj : Z) (data : DataItem0) : TM unit :=
  modify_t (fun s => with_sys_create
    (<[sysnum := {[ obj ]} ∪ default ∅ (sys_create s !! sysnum)]> (sys_create s)) s) ;;
  s <- get ;;
  match database s !! obj with
  | Some _ => ret tt
  | None =>
      cur_dump_callstack (g_pc s) ;;
      print (LDatabase obj (d_pc data) (d_name data) (d_size data)) ;;
      cs <- get_cur_callstack_str (g_pc s) ;;
      modify_t (fun s => with_database (<[obj := mkItem data cs ∅ ∅]> (database s)) s)
  end.

Definition set_syscall_call_funcs (pc : Z) : TM unit :=
  modify_t (fun s => with_syscall_call_funcs
    (<[pc := s32 (default 0 (syscall_call_funcs s !! pc) + 1)]> (syscall_call_funcs s)) s).

Definition set_call_relation (caller callee : Z) : TM unit :=
  modify_t (fun s => with_call_relation
    (<[caller := {[ callee ]} ∪ default ∅ (call_relation s !! caller)]> (call_relation s)) s).

(** ** Parameters of calls *)

(** The body is compiled out. *)
Definition load_function_interface : TM unit := ret tt.

Definition PARAS : nat := 50.

(** [paras[++index] = v] *)
Definition push_para (v : Z) (paras : list Z) : TM (list Z) :=
  if (length paras <? PARAS)%nat then ret (paras ++ [v]) else fail BadIndex.

Fixpoint stack_paras (n : nat) (i : Z) (paras : list Z) : TM (list Z) :=
  match n with
  | O => ret paras
  | S n' =>
      esp <- PEMU_get_reg m XED_REG_ESP ;;
      let '(bs, ok) := PEMU_read_mem m (u32 (esp + 4 * i)) 4 in
      if negb ok then fail AssertFailed
      else paras <- push_para (le_num bs) paras ;; stack_paras n' (i + 1) paras
  end.

Definition get_parameter (func : Func) : TM (list Z) :=
  let n := length (f_args func) in
  eax <- PEMU_get_reg m XED_REG_EAX ;;
  paras <- push_para eax [] ;;
  edx <- PEMU_get_reg m XED_REG_EDX ;;
  paras <- push_para edx paras ;;
  paras <- (if (2 <? n)%nat then ecx <- PEMU_get_reg m XED_REG_ECX ;; push_para ecx paras else ret paras) ;;
  stack_paras (2 * n) 0 paras.

(** [mp[off].insert(type)] for the type the node has. *)
Definition add_sem_type (node_type off : Z) (type : string) : TM unit :=
  s <- get ;;
  match database s !! node_type with
  | None => ret tt
  | Some d =>
      let types := <[off := {[ type ]} ∪ default ∅ (d_types d !! off)]> (d_types d) in
      modify_t (fun s => with_database
        (<[node_type := mkItem (d_item d) (d_callstack d) types (d_pset d)]> (database s)) s)
  end.

Fixpoint sem_types_loop (args : list (Z * string)) (index : Z) (paras : list Z) : TM unit :=
  match args with
  | [] => ret tt
  | (size, type) :: args' =>
      match paras !! Z.to_nat index with
      | None => fail Uninit
      | Some a =>
          p <- on_tree (tree_find a) ;;
          (match p with
           | Some n => add_sem_type (n_type n) (u32 (a - n_key n)) type
           | None => ret tt
           end) ;;
          sem_types_loop args' (index + size) paras
      end
  end.

Definition recover_sem_types (target_pc : Z) : TM Z :=
  s <- get ;;
  match g_func_interface s !! target_pc with
  | None => ret (-1)
  | Some func => paras <- get_parameter func ;; sem_types_loop (f_args func) 0 paras ;; ret 0
  end.

(** ** Instances *)

Definition add_instance (type addr : Z) : TM unit :=
  s <- get ;;
  (match g_instances s !! addr with
   | Some i => print (LReplaced addr (in_type i) type)
   | None => ret tt
   end) ;;
  modify_t (fun s => with_g_instances (<[addr := mkInstance type (Some ∅)]> (g_instances s)) s).

(** Remembering the call stack of an access or of a deletion when it is new. *)
Definition note_callstack (table : tracer T H -> gmap Z string)
    (set_table : gmap Z string -> tracer T H -> tracer T H) (out : Z -> string -> line) : TM Z :=
  s <- get ;;
  cs <- callstack_ebp (g_pc s) ;;
  let hash := hash_fn cs in
  (match table s !! hash with
   | Some _ => ret tt
   | None => modify_t (set_table (<[hash := cs]> (table s))) ;; print (out hash cs)
   end) ;;
  ret hash.

(** An address without an instance: [g_instances[addr]] inserts one whose set is
    the null pointer, which is dereferenced. *)
Definition delete_instance (addr : Z) : TM unit :=
  s <- get ;;
  match g_instances s !! addr with
  | Some (mkInstance type (Some pset)) =>
      print (LInstance type pset) ;;
      modify_t (fun s => with_g_instances (delete addr (g_instances s)) s) ;;
      note_callstack g_delete_callstack with_g_delete_callstack LDelete ;;
      ret tt
  | _ => fail NullDeref
  end.

(** [ss <<hex<<hash<<":"<<taint<<":"<<hex<<func<<":"<<hex<<off] *)
Definition access_string (hash taint func off : Z) : string :=
  (hex hash +:+ ":" +:+ hex taint +:+ ":" +:+ hex func +:+ ":" +:+ hex off)%string.

(** [g_instances[addr].pset->insert(s)] *)
Definition record_access (addr : Z) (str : string) : TM unit :=
  s <- get ;;
  match g_instances s !! addr with
  | Some (mkInstance type (Some pset)) =>
      modify_t (fun s => with_g_instances
        (<[addr := mkInstance type (Some ({[ str ]} ∪ pset))]> (g_instances s)) s)
  | _ => fail NullDeref
  end.

Definition add_read_action (addr size off func : Z) : TM unit :=
  s <- get ;;
  match g_instances s !! addr with
  | None => fail AssertFailed
  | Some _ =>
      hash <- note_callstack g_access_callstack with_g_access_callstack LRead ;;
      taint <- on_shadow (taint_get (u32 (addr + off))) ;;
      record_access addr (access_string hash taint func off)
  end.

Definition add_write_action (addr size off func : Z) : TM unit :=
  s <- get ;;
  match g_instances s !! addr with
  | None => fail AssertFailed
  | Some _ =>
      hash <- note_callstack g_access_callstack with_g_access_callstack LWrite ;;
      taint <- on_shadow (taint_get (u32 (addr + off))) ;;
      on_shadow (taint_set (u32 (addr + off)) 1 size) ;;
      record_access addr (access_string hash taint func off)
  end.

(** ** Links between objects *)

Definition link_string (first src off1 dst off2 : Z) : string :=
  (hex first +:+ " " +:+ hex src +:+ ":" +:+ hex off1 +:+ "->" +:+ hex dst +:+ ":" +:+ hex off2)%string.

Definition add_pointTo (pc src off1 dst off2 : Z) : TM unit :=
  modify_t (fun s => with_g_point_to
    (<[pc := {[ link_string pc src off1 dst off2 ]} ∪ default ∅ (g_point_to s !! pc)]> (g_point_to s)) s).

Definition add_traverse (pc src off1 dst off2 : Z) : TM unit :=
  callstack <- hash_callstack pc ;;
  modify_t (fun s => with_g_traverse
    (<[callstack := {[ link_string callstack src off1 dst off2 ]} ∪ default ∅ (g_traverse s !! callstack)]>
       (g_traverse s)) s).

Definition add_call_dst (pc : Z) : TM unit := modify_t (fun s => with_g_dest ({[ pc ]} ∪ g_dest s) s).
End Ops.
