(* ===== verification/Tracer.v ===== *)
(** * The hooks of the tracer

    rev_sem/main.c, the hooks of rev_sem/disas.c, the argument readers of
    rev_sem/linux.c and the two places of target-i386/seg_helper.c where the
    emulator tells the tracer about interrupts. QEMU calls [helper_hook] before
    every guest instruction, [helper_load] and [helper_store] (and [helper_load1],
    [helper_store1]) on every memory access, and [helper_call_handler] (and
    [helper_call_handler1]) on every call. *)

From stdpp Require Import base gmap list strings.
From Stdlib Require Import ZArith Lia Ascii.
From S2P Require Import Prelude RbTree ObjStore Cpu Xed Guest Operand Disas CallStack LibMap.

Local Open Scope Z_scope.
Local Open Scope c_scope.

(** ** The kernel being traced (config_pemu.h, Linux 2.6.32.8) *)

Definition KMEM_CACHE_ALLOC : Z := 0xc10acb31.
Definition KMEM_CACHE_FREE : Z := 0xc10ac7b2.
Definition KFREE : Z := 0xc10ac856.
Definition KMEM_CACHE_ALLOC_TRACE : Z := 0.
Definition __KMALLOC : Z := 0xc10ad425.
Definition __KMALLOC_TRACK_CALLER : Z := 0xc10ad341.
Definition __VMALLOC_NODE_FLAGS : Z := 0xc10a25de.
Definition VFREE : Z := 0xc10a1e5e.
Definition KERNEL_ADDR_MIN : Z := 0xc0000000.
Definition KERNEL_ESP : Z := 0xc1c07f80 - 0x217c.

(** ** C strings in buffers *)

(** Reading up to the NUL; past the end of the buffer it is undefined. *)
Fixpoint c_string {S} (c : cell) : M S string :=
  match c with
  | [] => fail BadIndex
  | None :: _ => fail Uninit
  | Some b :: c' =>
      if b =? 0 then ret EmptyString
      else s <- c_string c' ;; ret (String (ascii_of_N (Z.to_N b)) s)
  end.

Fixpoint string_bytes (s : string) : list Z :=
  match s with
  | EmptyString => []
  | String a s' => Z.of_N (N_of_ascii a) :: string_bytes s'
  end.

(** The bytes [strcpy] stores. *)
Definition nul_terminated (s : string) : list Z := string_bytes s ++ [0].

(** ** Arguments of the allocator (linux.c) *)

Definition get_kernel_esp {S} (m : machine) : M S Z :=
  cell_num (fst (read_into m KERNEL_ESP 4 (fresh 4))).

(** Fills [objsize] and [name]. *)
Definition get_kmem_cache_alloc_args {S} (m : machine) (objsize name : cell) : M S (cell * cell) :=
  tmp <- PEMU_get_reg m XED_REG_EAX ;;
  let objsize := fst (read_into m (u32 (tmp + 0x4)) 4 objsize) in
  tmp1 <- cell_num (fst (read_into m (u32 (tmp + 0x54)) 4 (fresh 4))) ;;
  ret (objsize, fst (read_into m tmp1 50 name)).

(** Writes nothing for this kernel. *)
Definition get_kmem_cache_alloc_trace_args {S} (objsize name : cell) : M S (cell * cell) := ret (objsize, name).

Definition get___kmalloc_args {S} (m : machine) : M S Z := PEMU_get_reg m XED_REG_EAX.
Definition get_vmalloc_args {S} (m : machine) : M S Z := PEMU_get_reg m XED_REG_EAX.
Definition get_kmem_cache_free_args {S} (m : machine) : M S Z := PEMU_get_reg m XED_REG_EDX.

Section Hooks.
Context {T H : Type} `{!ObjTree T} `{!TaintMem H}.
Context (hash_fn : string -> Z) (fuel : nat).
Abbreviation TM := (M (tracer T H)).

(** [s_sysnum], which nothing sets in this configuration. *)
Definition s_sysnum : Z := -1.

(** ** Recording objects *)

Definition ds_code_all_insert_rb (m : machine) (start_addr size : Z) (p : NodeType) : TM unit :=
  name <- all_insert_name p ;;
  set_createSys m fuel s_sysnum (n_type p) (mkItem0 (n_pc p) (s32 size) name) ;;
  on_tree (tree_insert start_addr size p).

(** The links, the colour and the key of [hp] are not set, and not used. *)
Definition add_obj (m : machine) (addr size : Z) (name : cell) (call_pc : Z) : TM unit :=
  type <- hash_callstack m hash_fn fuel call_pc ;;
  src <- c_string name ;;
  obj_name <- strcpy OBJ_NAME_LEN src ;;
  let hp := mkNode NULL NULL NULL BLACK 0 size type call_pc obj_name in
  delete_obj call_pc ;;
  ds_code_all_insert_rb m addr (n_size hp) hp ;;
  add_instance (n_type hp) addr ;;
  on_shadow (taint_set addr 0 size).

(** An allocation that is complete: the return address is reached. *)
Definition alloc_return (m : machine) (pc_start : Z) (name : cell) : TM cell :=
  known <- get_obj pc_start ;;
  if known then
    nm <- get_name pc_start 50 ;;
    let name := overwrite (nul_terminated nm) name in
    obj_addr <- PEMU_get_reg m XED_REG_EAX ;;
    size <- get_size pc_start ;;
    add_obj m obj_addr (u32 size) name pc_start ;;
    ret name
  else ret name.

(** A call of an allocator or of a release function. *)
Definition alloc_call (m : machine) (pc_start : Z) (name : cell) : TM unit :=
  if pc_start =? KMEM_CACHE_ALLOC then
    esp <- PEMU_get_reg m XED_REG_ESP ;;
    let ret_addr := fst (read_into m esp 4 (fresh 4)) in
    args <- get_kmem_cache_alloc_args m (fresh 4) name ;;
    let '(objsize, name) := args in
    r <- cell_num ret_addr ;; sz <- cell_num objsize ;; nm <- c_string name ;;
    insert_obj r 0 (s32 sz) nm
  else if pc_start =? KMEM_CACHE_ALLOC_TRACE then
    esp <- PEMU_get_reg m XED_REG_ESP ;;
    let ret_addr := fst (read_into m esp 4 (fresh 4)) in
    args <- get_kmem_cache_alloc_trace_args (fresh 4) name ;;
    let '(objsize, name) := args in
    r <- cell_num ret_addr ;; sz <- cell_num objsize ;; nm <- c_string name ;;
    insert_obj r 0 (s32 sz) nm
  else if (pc_start =? __KMALLOC) || (pc_start =? __KMALLOC_TRACK_CALLER) then
    esp <- PEMU_get_reg m XED_REG_ESP ;;
    let ret_addr := fst (read_into m esp 4 (fresh 4)) in
    sz <- get___kmalloc_args m ;;
    r <- cell_num ret_addr ;;
    insert_obj r 0 (s32 sz) "kmalloc-XX"
  else if pc_start =? __VMALLOC_NODE_FLAGS then
    esp <- PEMU_get_reg m XED_REG_ESP ;;
    let ret_addr := fst (read_into m esp 4 (fresh 4)) in
    sz <- get_vmalloc_args m ;;
    r <- cell_num ret_addr ;;
    insert_obj r 0 (s32 sz) "vmalloc-XX"
  else if pc_start =? KMEM_CACHE_FREE then
    addr <- get_kmem_cache_free_args m ;; on_tree (tree_delete addr)
  else if (pc_start =? KFREE) || (pc_start =? VFREE) then
    addr <- PEMU_get_reg m XED_REG_EAX ;; on_tree (tree_delete addr)
  else ret tt.

Definition object_hook (m : machine) (pc_start : Z) : TM unit :=
  name <- alloc_return m pc_start (fresh 50) ;; alloc_call m pc_start name.

(** ** Releases *)

Definition release (m : machine) (addr : Z) : TM unit :=
  p <- on_tree (tree_find addr) ;;
  (match p with Some _ => delete_instance m hash_fn fuel addr | None => ret tt end) ;;
  on_tree (tree_delete addr).

Definition trace_delete (m : machine) (pc_start : Z) : TM unit :=
  if pc_start =? KMEM_CACHE_FREE then addr <- get_kmem_cache_free_args m ;; release m addr
  else if pc_start =? KFREE then addr <- PEMU_get_reg m XED_REG_EAX ;; release m addr
  else ret tt.

(** [pc_start] is converted to unsigned by the comparison. *)
Definition helper_hook (m : machine) (pc_start : Z) : TM unit :=
  if pc_start <? KERNEL_ADDR_MIN then ret tt
  else
    modify_t (with_g_pc pc_start) ;;
    trace_delete m pc_start ;;
    object_hook m pc_start.

(** ** Memory accesses *)

Definition helper_store (m : machine) (value addr size : Z) : TM unit :=
  if addr <? 0xc0000000 then ret tt
  else
    tmp <- on_tree (tree_find addr) ;;
    match tmp with
    | Some n =>
        pc <- gets g_pc ;;
        add_write_action m hash_fn fuel (n_key n) size (u32 (addr - n_key n)) pc
    | None => ret tt
    end.

Definition helper_load (m : machine) (addr size : Z) : TM unit :=
  if addr <? 0xc0000000 then ret tt
  else
    tmp <- on_tree (tree_find addr) ;;
    match tmp with
    | Some n =>
        pc <- gets g_pc ;;
        add_read_action m hash_fn fuel (n_key n) size (u32 (addr - n_key n)) pc
    | None => ret tt
    end.

(** [(s = find(src)) && (d = find(dst))]: [dst] is used only if the first is found. *)
Definition both_objects (src : Z) (dst : cell) : TM (option (NodeType * NodeType * Z)) :=
  s <- on_tree (tree_find src) ;;
  match s with
  | None => ret None
  | Some sn =>
      d <- cell_num dst ;;
      dn <- on_tree (tree_find d) ;;
      ret (match dn with Some dn => Some (sn, dn, d) | None => None end)
  end.

Definition helper_load1 (m : machine) (src size : Z) : TM unit :=
  if (src <? 0xc0000000) || negb (size =? 4) then ret tt
  else
    let dst := fst (read_into m src 4 (fresh 4)) in
    r <- both_objects src dst ;;
    match r with
    | Some (sn, dn, d) =>
        pc <- gets g_pc ;;
        add_traverse m hash_fn fuel pc (n_type sn) (u32 (src - n_key sn)) (n_type dn) (u32 (d - n_key dn))
    | None => ret tt
    end.

Definition helper_store1 (m : machine) (src addr size : Z) : TM unit :=
  if (src <? 0xc0000000) || negb (size =? 4) then ret tt
  else
    let dst := fst (read_into m addr 4 (fresh 4)) in
    r <- both_objects src dst ;;
    match r with
    | Some (sn, dn, d) =>
        pc <- gets g_pc ;;
        add_pointTo pc (n_type dn) (u32 (d - n_key dn)) (n_type sn) (u32 (src - n_key sn))
    | None => ret tt
    end.

(** ** Interrupts (seg_helper.c) *)

(** The start of [do_interrupt_all] and the end of [helper_iret_protected]. *)
Definition interrupt_hook (m : machine) (intno : Z) : TM unit :=
  if negb (intno =? 0x80) then
    esp <- get_kernel_esp m ;;
    modify_t (fun s => with_g_interrupt_esp
      (add_interrupt_esp (Z.land esp STACK_MASK) esp intno (g_interrupt_esp s)) s)
  else ret tt.

Definition iret_hook (m : machine) : TM unit :=
  esp <- get_kernel_esp m ;;
  modify_t (fun s => with_g_interrupt_esp (delete_interrupt_esp (Z.land esp STACK_MASK) (g_interrupt_esp s)) s).

(** ** Calls *)

(** The tracer's tables beside the decoder's globals. *)
Definition in_tracer {A} (x : TM A) : M (tracer T H * pemu) A :=
  fun '(s, p) => match x s with
                 | Ok (a, s') => Ok (a, (s', p))
                 | Fault f => Fault f
                 | OutOfFuel => OutOfFuel
                 end.
Definition in_decoder {A} (x : M pemu A) : M (tracer T H * pemu) A :=
  fun '(s, p) => match x p with
                 | Ok (a, p') => Ok (a, (s, p'))
                 | Fault f => Fault f
                 | OutOfFuel => OutOfFuel
                 end.

Context `{!Xed}.

Definition helper_call_handler (m : machine) (pc : Z) : M (tracer T H * pemu) unit :=
  if 0xc0000000 <? pc then
    target <- in_decoder (Instrument_CALL_NEAR m pc) ;;
    in_tracer (recover_sem_types m target) ;; ret tt
  else ret tt.

Definition helper_call_handler1 (m : machine) (pc : Z) : M (tracer T H * pemu) unit :=
  if 0xc0000000 <? pc then
    target <- in_decoder (Instrument_CALL_NEAR m pc) ;; in_tracer (add_call_dst target)
  else ret tt.
End Hooks.
