(* ===== verification/TracerInv.v ===== *)
(** * What every hook of the tracer keeps true

    The specification of the tracer's state: a list of disjoint live objects and
    the allocations in progress. The file states the invariant that ties the
    tables of lib_map.cpp to it, and proves what each operation does to them. *)

From stdpp Require Import base gmap list strings.
From Stdlib Require Import ZArith Lia Ascii.
From S2P Require Import Prelude RbTree RbStore ObjStore Cpu Xed Guest Operand CallStack LibMap Tracer.

Local Open Scope Z_scope.
Local Open Scope c_scope.

(** ** Strings in buffers *)

Fixpoint upto_nul (bs : list Z) : option string :=
  match bs with
  | [] => None
  | b :: bs' => if b =? 0 then Some EmptyString else String (ascii_of_N (Z.to_N b)) <$> upto_nul bs'
  end.

Fixpoint no_nul (s : string) : Prop :=
  match s with
  | EmptyString => True
  | String a s' => N_of_ascii a <> 0%N /\ no_nul s'
  end.

Lemma c_string_upto {S} bs c nm (s : S) : upto_nul bs = Some nm -> c_string ((Some <$> bs) ++ c) s = Ok (nm, s).
Proof.
  revert nm. induction bs as [|b bs IH]; intros nm; [done|]. rewrite fmap_cons. simpl.
  destruct (b =? 0); [by intros [= <-]|].
  destruct (upto_nul bs) as [nm'|]; [|done]. intros [= <-].
  by rewrite (bind_ok _ _ _ _ _ (IH nm' eq_refl)).
Qed.

Lemma upto_nul_terminated nm : no_nul nm -> upto_nul (nul_terminated nm) = Some nm.
Proof.
  unfold nul_terminated. induction nm as [|a nm IH]; [done|]. intros [Ha Hn]. simpl.
  destruct (Z.eqb_spec (Z.of_N (N_of_ascii a)) 0); [lia|].
  rewrite IH by done. simpl. by rewrite N2Z.id, ascii_N_embedding.
Qed.

Lemma upto_nul_no_nul bs nm : bytes_ok bs -> upto_nul bs = Some nm -> no_nul nm.
Proof.
  intros Hbs. revert nm. induction Hbs as [|b bs Hb _ IH]; intros nm; simpl; [done|].
  destruct (Z.eqb_spec b 0); [by intros [= <-]|].
  destruct (upto_nul bs) as [nm'|]; [|done]. intros [= <-]. split; [|by apply IH].
  simpl in Hb. rewrite N_ascii_embedding by lia. lia.
Qed.

Lemma overwrite_app bs c : overwrite bs c = (Some <$> bs) ++ drop (length bs) c.
Proof. done. Qed.

Lemma read_bytes_all m n a : bytes_ok (fst (read_bytes m n a)).
Proof.
  revert a. induction n as [|n IH]; intros a; simpl; [constructor|].
  destruct (translate m a); [|constructor]. specialize (IH (u32 (a + 1))).
  destruct (read_bytes m n (u32 (a + 1))). constructor; [apply u8_range|done].
Qed.

Lemma read_mem_bytes m a n : in_range 32 a -> 0 <= n -> bytes_ok (fst (PEMU_read_mem m a n)).
Proof.
  intros Ha Hn. unfold PEMU_read_mem, cpu_memory_rw_debug.
  rewrite rw_debug_bytes by (done || lia). apply read_bytes_all.
Qed.

(** ** The kernel stack an address is on *)

Lemma stack_mask x : in_range 32 x -> Z.land x STACK_MASK = x / 8192 * 8192.
Proof.
  intros Hx. unfold STACK_MASK. replace 0xffffe000 with (Z.ldiff (Z.ones 32) (Z.ones 13)) by done.
  rewrite Z.ldiff_land, Z.land_assoc, Z.land_ones by done. rewrite (Z.mod_small x) by done.
  rewrite <-Z.ldiff_land, Z.ldiff_ones_r, Z.shiftl_mul_pow2, Z.shiftr_div_pow2 by done. done.
Qed.

Lemma stack_mask_bound x : in_range 32 x ->
  Z.land x STACK_MASK <= x < Z.land x STACK_MASK + STACK_SIZE.
Proof. intros Hx. rewrite stack_mask by done. unfold STACK_SIZE. Z.to_euclidean_division_equations. lia. Qed.

(** ** The specification *)

Definition EAX (m : machine) : Z := reg_value m XED_REG_EAX.

(** The functions that release an object through its instance, and the address
    they are called with. *)
Definition releases (m : machine) (pc : Z) : option Z :=
  if pc =? KMEM_CACHE_FREE then Some (reg_value m XED_REG_EDX)
  else if pc =? KFREE then Some (EAX m) else None.

(** All functions after which an address is free. *)
Definition frees (m : machine) (pc : Z) : option Z :=
  if pc =? VFREE then Some (EAX m) else releases m pc.

Definition is_alloc (pc : Z) : bool :=
  (pc =? KMEM_CACHE_ALLOC) || (pc =? __KMALLOC) || (pc =? __KMALLOC_TRACK_CALLER) ||
  (pc =? __VMALLOC_NODE_FLAGS).

(** The return address, size and name of an allocation being called. *)
Definition alloc_args (m : machine) (pc : Z) : option (Z * Z * string) :=
  r ← word m (reg_value m XED_REG_ESP);
  if pc =? KMEM_CACHE_ALLOC then
    sz ← word m (u32 (EAX m + 4));
    p ← word m (u32 (EAX m + 0x54));
    nm ← upto_nul (fst (PEMU_read_mem m p 50));
    Some (r, sz, nm)
  else if (pc =? __KMALLOC) || (pc =? __KMALLOC_TRACK_CALLER) then Some (r, EAX m, "kmalloc-XX"%string)
  else if pc =? __VMALLOC_NODE_FLAGS then Some (r, EAX m, "vmalloc-XX"%string)
  else None.

(** The specification state: the live objects, and the allocations whose return
    address is not reached yet. *)
Abbreviation spec := (list obj * gmap Z Elem1)%type.

Definition spec_free (a : option Z) (x : spec) : spec :=
  match a with Some a => (survivors a x.1, x.2) | None => x end.

Definition spec_return (m : machine) (type pc : Z) (x : spec) : spec :=
  match x.2 !! pc with
  | Some e => (ins_obj (mkObj (EAX m) (u32 (el_size e)) type pc) (survivors (EAX m) x.1), delete pc x.2)
  | None => x
  end.

Definition spec_call (m : machine) (pc : Z) (x : spec) : spec :=
  match (if is_alloc pc then alloc_args m pc else None) with
  | Some (r, sz, nm) => (x.1, <[r := mkElem1 nm (s32 sz) None 0]> x.2)
  | None => spec_free (frees m pc) x
  end.

(** What an instruction does, [type] being the hash of the call stack. *)
Definition spec_hook (m : machine) (type pc : Z) (x : spec) : spec :=
  if pc <? KERNEL_ADDR_MIN then x
  else spec_call m pc (spec_return m type pc (spec_free (releases m pc) x)).

Section Inv.
Context {T H : Type} `{!ObjTree T} `{!ObjTreeSpec T} `{!TaintMem H} `{!TaintMemSpec H}.
Context (hash_fn : string -> Z) (fuel : nat) (Hfuel : STACK_SIZE < Z.of_nat fuel).
Abbreviation tracer := (tracer T H).

Definition pending_ok (g : gmap Z Elem1) : Prop :=
  forall pc e, g !! pc = Some e -> (String.length (el_name e) < OBJ_NAME_LEN)%nat /\ no_nul (el_name e).

(** Every live object has an instance of its type, with a set of accesses. *)
Definition has_instance (g : gmap Z Instance) (o : obj) : Prop :=
  exists ps, g !! o_key o = Some (mkInstance (o_type o) (Some ps)).

Record inv (s : tracer) (x : spec) : Prop := mkInv {
  inv_tree : tree_holds (t_tree s) x.1;
  inv_pending : g_obj s = x.2;
  inv_pending_ok : pending_ok x.2;
  inv_shadow : taint_ok (t_shadow s);
  inv_irq : interrupts_ok (g_interrupt_esp s);
  inv_inst : forall o, o ∈ x.1 -> has_instance (g_instances s) o
}.

Lemma inv_objs (s : tracer) x : inv s x -> objs_ok x.1.
Proof. intros Hinv. exact (tree_holds_ok _ _ (inv_tree _ _ Hinv)). Qed.

(** The fields the invariant is about. *)
Definition core (s : tracer) := (t_tree s, t_shadow s, g_obj s, g_instances s, g_interrupt_esp s, g_pc s).

Lemma inv_core (s s' : tracer) x : core s' = core s -> inv s x -> inv s' x.
Proof. unfold core. intros [= H1 H2 H3 H4 H5 _] []. by split; rewrite ?H1, ?H2, ?H3, ?H4, ?H5. Qed.

Lemma with_t_tree_id (s : tracer) : with_t_tree (t_tree s) s = s.
Proof. by destruct s. Qed.
Lemma with_t_shadow_id (s : tracer) : with_t_shadow (t_shadow s) s = s.
Proof. by destruct s. Qed.

Lemma on_tree_ok {A} (x : M T A) (s : tracer) a t :
  x (t_tree s) = Ok (a, t) -> on_tree x s = Ok (a, with_t_tree t s).
Proof. unfold on_tree. by intros ->. Qed.
Lemma on_tree_ro {A} (x : M T A) (s : tracer) a : x (t_tree s) = Ok (a, t_tree s) -> on_tree x s = Ok (a, s).
Proof. intros Hx. by rewrite (on_tree_ok x s a _ Hx), with_t_tree_id. Qed.
Lemma on_shadow_ok {A} (x : M H A) (s : tracer) a h :
  x (t_shadow s) = Ok (a, h) -> on_shadow x s = Ok (a, with_t_shadow h s).
Proof. unfold on_shadow. by intros ->. Qed.
Lemma on_shadow_ro {A} (x : M H A) (s : tracer) a :
  x (t_shadow s) = Ok (a, t_shadow s) -> on_shadow x s = Ok (a, s).
Proof. intros Hx. by rewrite (on_shadow_ok x s a _ Hx), with_t_shadow_id. Qed.

(** ** Call stacks *)

(** The string printed for a call stack. *)
Definition cs_of (m : machine) (g : interrupts) (pc : Z) : string :=
  match get_callstack_ebp m fuel g pc tt with Ok (cs, _) => cs | _ => EmptyString end.

Lemma callstack_ready {S} m g pc (s : S) :
  stack_ready m g pc -> get_callstack_ebp m fuel g pc s = Ok (cs_of m g pc, s).
Proof.
  intros Hr. destruct (get_callstack_ebp_spec m g fuel pc Hr Hfuel) as (e & rs & _ & _ & Hrun).
  unfold cs_of. by rewrite !Hrun.
Qed.

Lemma callstack_ebp_ok m pc (s : tracer) :
  stack_ready m (g_interrupt_esp s) pc ->
  callstack_ebp m fuel pc s = Ok (cs_of m (g_interrupt_esp s) pc, s).
Proof. intros Hr. unfold callstack_ebp. rewrite (bind_ok get _ s s s) by done. by apply callstack_ready. Qed.

(** The hash of the call stack of the current instruction. *)
Definition here (m : machine) (s : tracer) : Z := hash_fn (cs_of m (g_interrupt_esp s) (g_pc s)).

Lemma note_callstack_ok m table set_table out (s : tracer) :
  (forall v s, core (set_table v s) = core s /\ t_out (set_table v s) = t_out s) ->
  stack_ready m (g_interrupt_esp s) (g_pc s) ->
  exists s' ls, note_callstack m hash_fn fuel table set_table out s = Ok (here m s, s') /\
    core s' = core s /\ t_out s' = ls ++ t_out s.
Proof.
  intros Hset Hr. unfold note_callstack. rewrite (bind_ok get _ s s s) by done.
  rewrite (bind_ok _ _ _ _ _ (callstack_ebp_ok m (g_pc s) s Hr)).
  fold (here m s). unfold bind at 1. destruct (table s !! here m s) as [v|].
  - by exists s, [].
  - set (cs := cs_of m (g_interrupt_esp s) (g_pc s)).
    destruct (Hset (<[here m s := cs]> (table s)) s) as [Hc Ho]. rewrite <-Hc, <-Ho.
    eexists _, [out (here m s) cs]. split; [done|]. split; [by destruct (set_table _ s)|done].
Qed.

Lemma set_createSys_ok m sysnum obj data (s : tracer) :
  stack_ready m (g_interrupt_esp s) (g_pc s) ->
  exists s', set_createSys m fuel sysnum obj data s = Ok (tt, s') /\ core s' = core s.
Proof.
  intros Hr. unfold set_createSys. unfold bind at 1, modify_t at 1.
  set (s1 := with_sys_create _ s). assert (core s1 = core s) as Hc by by destruct s.
  assert (stack_ready m (g_interrupt_esp s1) (g_pc s1)) as Hr1 by by destruct s.
  rewrite (bind_ok get _ s1 s1 s1) by done. destruct (database s1 !! obj); [by exists s1|].
  unfold cur_dump_callstack. rewrite bind_assoc, (bind_ok _ _ _ _ _ (callstack_ebp_ok m (g_pc s1) s1 Hr1)).
  unfold bind at 1. cbn [print modify_t]. unfold bind at 1. cbn [print modify_t].
  set (s2 := with_t_out _ (with_t_out _ s1)).
  assert (core s2 = core s1) as Hc2 by by destruct s.
  assert (stack_ready m (g_interrupt_esp s2) (g_pc s1)) as Hr2 by by destruct s.
  unfold get_cur_callstack_str. rewrite (bind_ok _ _ _ _ _ (callstack_ebp_ok m (g_pc s1) s2 Hr2)).
  eexists. split; [done|]. rewrite <-Hc, <-Hc2. by destruct s.
Qed.

(** ** Recording an object *)

Definition site_node (size type pc : Z) (nm : string) : NodeType :=
  mkNode NULL NULL NULL BLACK 0 size type pc nm.

Lemma all_insert_ok m addr size type pc nm (s : tracer) os :
  stack_ready m (g_interrupt_esp s) (g_pc s) -> tree_holds (t_tree s) os ->
  admissible os (ReqInsert addr size (site_node size type pc nm)) -> tree_left (t_tree s) <> 0%nat ->
  exists s' t', ds_code_all_insert_rb fuel m addr size (site_node size type pc nm) s = Ok (tt, s') /\
    core s' = (t', t_shadow s, g_obj s, g_instances s, g_interrupt_esp s, g_pc s) /\
    tree_holds t' (ins_obj (mkObj addr size type pc) (survivors addr os)) /\
    (tree_left (t_tree s) <= S (tree_left t'))%nat.
Proof.
  intros Hr Ht Hadm Hl. unfold ds_code_all_insert_rb, all_insert_name, strcpy.
  pose proof Hadm as (_ & _ & Hlen). simpl in Hlen. apply Nat.ltb_lt in Hlen. simpl n_obj_name. rewrite Hlen.
  rewrite bind_ret. cbn [n_type n_pc site_node].
  destruct (set_createSys_ok m s_sysnum type (mkItem0 pc (s32 size) nm) s Hr) as (s1 & Hrun & Hc).
  rewrite (bind_ok _ _ _ _ _ Hrun). injection Hc as Ht1 Hh1 Ho1 Hi1 Hq1 Hp1.
  destruct (tree_insert_spec (t_tree s) os addr size _ Ht Hadm Hl) as (t' & Hins & Ht' & Hl').
  rewrite <-Ht1 in Hins. exists (with_t_tree t' s1), t'. split_and!; [by apply on_tree_ok| |done|done].
  unfold core. simpl. by rewrite Hh1, Ho1, Hi1, Hq1, Hp1.
Qed.

Lemma add_instance_ok type addr (s : tracer) :
  exists s', add_instance type addr s = Ok (tt, s') /\
    core s' = (t_tree s, t_shadow s, g_obj s, <[addr := mkInstance type (Some ∅)]> (g_instances s),
               g_interrupt_esp s, g_pc s).
Proof.
  unfold add_instance. rewrite (bind_ok get _ s s s) by done. unfold bind.
  destruct (g_instances s !! addr) as [i|]; eexists; (split; [done|]); by destruct s.
Qed.

(** An instance for the new object, when the objects around its start are gone. *)
Lemma instances_insert g os o :
  objs_ok os -> (forall o, o ∈ os -> has_instance g o) ->
  forall o', o' ∈ ins_obj o (survivors (o_key o) os) ->
  has_instance (<[o_key o := mkInstance (o_type o) (Some ∅)]> g) o'.
Proof.
  intros Hok Hg o' Ho'. apply elem_of_ins in Ho' as [->|Ho'].
  - exists ∅. by rewrite lookup_insert_eq.
  - pose proof (survivors_key _ _ _ Hok Ho') as Hne. apply list_elem_of_filter in Ho' as [_ Ho'].
    destruct (Hg o' Ho') as [ps Hps]. exists ps. by rewrite lookup_insert_ne.
Qed.

Lemma pending_ok_delete g pc : pending_ok g -> pending_ok (delete pc g).
Proof. intros Hg pc' e Hd. apply lookup_delete_Some in Hd as [_ Hd]. eauto. Qed.

Lemma add_obj_ok m addr size name nm pc (s : tracer) os pend :
  inv s (os, pend) -> stack_ready m (g_interrupt_esp s) pc -> g_pc s = pc ->
  c_string name s = Ok (nm, s) -> in_range 32 addr -> in_range 32 size ->
  admissible os (ReqInsert addr size (site_node size (here m s) pc nm)) -> tree_left (t_tree s) <> 0%nat ->
  exists s', add_obj hash_fn fuel m addr size name pc s = Ok (tt, s') /\
    inv s' (ins_obj (mkObj addr size (here m s) pc) (survivors addr os), delete pc pend) /\
    g_interrupt_esp s' = g_interrupt_esp s /\ g_pc s' = pc /\
    g_instances s' = <[addr := mkInstance (here m s) (Some ∅)]> (g_instances s) /\
    (tree_left (t_tree s) <= S (tree_left (t_tree s')))%nat /\
    (forall b, in_range 32 b ->
       taint_at (t_shadow s') b = if u32 (b - addr) <? size then 0 else taint_at (t_shadow s) b).
Proof.
  intros Hinv Hr Hpc Hname Ha Hs Hadm Hl. pose proof Hadm as (_ & _ & Hlen). simpl in Hlen.
  unfold add_obj, hash_callstack.
  rewrite bind_assoc, (bind_ok _ _ _ _ _ (callstack_ebp_ok m pc s Hr)), bind_ret.
  assert (hash_fn (cs_of m (g_interrupt_esp s) pc) = here m s) as -> by (unfold here; by rewrite Hpc).
  rewrite (bind_ok _ _ _ _ _ Hname).
  rewrite (bind_ok _ _ s nm s) by (unfold strcpy; apply Nat.ltb_lt in Hlen; by rewrite Hlen).
  unfold delete_obj. unfold bind at 1, modify_t at 1. set (s1 := with_g_obj _ s).
  destruct (all_insert_ok m addr size (here m s) pc nm s1 os) as (s2 & t' & Hrun & Hc2 & Ht' & Hl');
    [by rewrite <-Hpc in Hr|apply (inv_tree _ _ Hinv)|done..|].
  fold (site_node size (here m s) pc nm). cbn [n_size site_node]. rewrite (bind_ok _ _ _ _ _ Hrun).
  cbn [n_type site_node].
  destruct (add_instance_ok (here m s) addr s2) as (s3 & Hrun3 & Hc3). rewrite (bind_ok _ _ _ _ _ Hrun3).
  injection Hc2 as Ht2 Hh2 Ho2 Hi2 Hq2 Hp2. injection Hc3 as Ht3 Hh3 Ho3 Hi3 Hq3 Hp3.
  destruct (taint_set_spec (t_shadow s3) addr 0 size) as (h' & Hset & Hok & Hat); [|done|done|].
  { rewrite Hh3, Hh2. apply (inv_shadow _ _ Hinv). }
  rewrite (on_shadow_ok _ _ _ _ Hset). eexists. split; [done|]. simpl.
  split_and!; [|congruence|congruence|congruence|by rewrite Ht3, Ht2|].
  - split; simpl; [|..|].
    + by rewrite Ht3, Ht2.
    + rewrite Ho3, Ho2. simpl. by rewrite (inv_pending _ _ Hinv).
    + apply pending_ok_delete. by apply (inv_pending_ok _ _ Hinv).
    + done.
    + rewrite Hq3, Hq2. by apply (inv_irq _ _ Hinv).
    + rewrite Hi3, Hi2. simpl.
      apply (instances_insert (g_instances s) os (mkObj addr size (here m s) pc));
        [exact (inv_objs _ _ Hinv)|apply (inv_inst _ _ Hinv)].
  - intros b Hb. rewrite Hat by done. by rewrite Hh3, Hh2.
Qed.

(** ** Reaching a return address *)

(** What the guest must satisfy when an allocation returns: the new object is
    admissible, and the tracer has memory for it. *)
Definition return_ok (m : machine) (pc : Z) (s : tracer) (x : spec) : Prop :=
  forall e, x.2 !! pc = Some e ->
    in_range 32 (EAX m) /\ tree_left (t_tree s) <> 0%nat /\
    admissible x.1 (ReqInsert (EAX m) (u32 (el_size e)) (site_node (u32 (el_size e)) (here m s) pc (el_name e))).

(** The buffer afterwards has a place for every byte. *)
Lemma alloc_return_ok m pc (s : tracer) x :
  inv s x -> regs32 m -> stack_ready m (g_interrupt_esp s) pc -> g_pc s = pc -> return_ok m pc s x ->
  exists s' name, alloc_return hash_fn fuel m pc (fresh 50) s = Ok (name, s') /\
    inv s' (spec_return m (here m s) pc x) /\
    g_interrupt_esp s' = g_interrupt_esp s /\ g_pc s' = pc /\
    match x.2 !! pc with
    | Some e =>
        g_instances s' = <[EAX m := mkInstance (here m s) (Some ∅)]> (g_instances s) /\
        (forall b, in_range 32 b -> taint_at (t_shadow s') b =
           if u32 (b - EAX m) <? u32 (el_size e) then 0 else taint_at (t_shadow s) b)
    | None => s' = s
    end.
Proof.
  intros Hinv Hm Hr Hpc Hret. unfold alloc_return. pose proof (inv_pending _ _ Hinv) as Hpend.
  rewrite (bind_ok _ _ s (bool_decide (is_Some (g_obj s !! pc))) s) by done. rewrite Hpend.
  unfold spec_return. destruct (x.2 !! pc) as [e|] eqn:He.
  2: { rewrite bool_decide_eq_false_2 by (by intros [? ?]). by exists s, (fresh 50). }
  rewrite bool_decide_eq_true_2 by done.
  destruct (Hret e He) as (Ha & Hl & Hadm).
  destruct (inv_pending_ok _ _ Hinv pc e He) as [Hlen Hnul].
  assert (obj_at pc s = Ok (e, s)) as Hat.
  { unfold obj_at. rewrite (bind_ok get _ s s s) by done. by rewrite Hpend, He. }
  unfold get_name. rewrite bind_assoc, (bind_ok _ _ _ _ _ Hat).
  unfold strcpy at 1. unfold OBJ_NAME_LEN in Hlen.
  assert ((String.length (el_name e) <? 50)%nat = true) as -> by (apply Nat.ltb_lt; lia). rewrite bind_ret.
  rewrite (bind_ok _ _ _ _ _ (get_reg_value m XED_REG_EAX s (proj1 Hm) ltac:(right; by eexists))).
  unfold get_size. rewrite bind_assoc, (bind_ok _ _ _ _ _ Hat), bind_ret. fold (EAX m).
  destruct x as [os pend]. cbn [fst snd] in *.
  destruct (add_obj_ok m (EAX m) (u32 (el_size e)) (overwrite (nul_terminated (el_name e)) (fresh 50))
    (el_name e) pc s os pend) as (s' & Hrun & Hinv' & Hq & Hp & Hi & _ & Htaint);
    [done|done|done| |done|apply u32_range|done|done|].
  { rewrite overwrite_app. apply c_string_upto. by apply upto_nul_terminated. }
  rewrite (bind_ok _ _ _ _ _ Hrun). exists s', (overwrite (nul_terminated (el_name e)) (fresh 50)).
  by split_and!.
Qed.

(** ** Calling the allocator *)

Lemma cell_word {S} m a v (s : S) :
  in_range 32 a -> word m a = Some v -> cell_num (fst (read_into m a 4 (fresh 4))) s = Ok (v, s).
Proof.
  intros Ha Hw. destruct (read_into_word m a (fresh 4) v Ha eq_refl Hw) as (_ & c & -> & Hc).
  by apply cell_is_num.
Qed.

(** The tracer state after an operation that leaves the accesses alone. *)
Definition keeps (s s' : tracer) : Prop :=
  t_shadow s' = t_shadow s /\ g_instances s' = g_instances s /\
  g_interrupt_esp s' = g_interrupt_esp s /\ g_pc s' = g_pc s /\ t_out s' = t_out s.

Lemma tree_delete_inv (s : tracer) os pend a :
  inv s (os, pend) ->
  exists s', on_tree (tree_delete a) s = Ok (tt, s') /\ inv s' (survivors a os, pend) /\ keeps s s'.
Proof.
  intros []. destruct (tree_delete_spec (t_tree s) os a) as (t' & Hd & Ht' & _); [done|].
  exists (with_t_tree t' s). split_and!; [by apply on_tree_ok| |done..].
  split; simpl; try done. intros o [_ Ho]%list_elem_of_filter. auto.
Qed.

(** What the guest must satisfy when an allocator is called: its arguments can be
    read, and the name fits. *)
Definition call_ok (m : machine) (pc : Z) : Prop :=
  is_alloc pc = true ->
  exists r sz nm, alloc_args m pc = Some (r, sz, nm) /\ (String.length nm < OBJ_NAME_LEN)%nat.

Lemma pending_ok_insert g r e :
  pending_ok g -> (String.length (el_name e) < OBJ_NAME_LEN)%nat -> no_nul (el_name e) ->
  pending_ok (<[r := e]> g).
Proof.
  intros Hg Hl Hn pc' e'. destruct (decide (pc' = r)) as [->|Hne].
  - rewrite lookup_insert_eq. by intros [= <-].
  - rewrite lookup_insert_ne by done. eauto.
Qed.

Lemma insert_obj_inv (s : tracer) x r sz nm :
  inv s x -> (String.length nm < OBJ_NAME_LEN)%nat -> no_nul nm ->
  exists s', insert_obj r 0 (s32 sz) nm s = Ok (tt, s') /\
    inv s' (x.1, <[r := mkElem1 nm (s32 sz) None 0]> x.2) /\ keeps s s'.
Proof.
  intros [] Hl Hn. eexists. split; [done|]. split_and!; [|done..].
  split; simpl; try done; [by f_equal|by apply pending_ok_insert].
Qed.

Lemma get_reg_ok {S} m r (s : S) :
  regs32 m -> bool_decide (container r <> None) = true -> PEMU_get_reg m r s = Ok (reg_value m r, s).
Proof.
  intros Hm Hc%bool_decide_eq_true. apply get_reg_value; [apply Hm|]. right. by destruct (container r).
Qed.

Lemma cache_alloc_ok m r sz nm name (s : tracer) x :
  inv s x -> regs32 m -> alloc_args m KMEM_CACHE_ALLOC = Some (r, sz, nm) ->
  (String.length nm < OBJ_NAME_LEN)%nat ->
  exists s', alloc_call m KMEM_CACHE_ALLOC name s = Ok (tt, s') /\
    inv s' (x.1, <[r := mkElem1 nm (s32 sz) None 0]> x.2) /\ keeps s s'.
Proof.
  intros Hinv Hm Hargs Hlen. unfold alloc_args in Hargs. cbn [Z.eqb] in Hargs.
  destruct (word m (reg_value m XED_REG_ESP)) as [r'|] eqn:Hw; [|done].
  change (KMEM_CACHE_ALLOC =? KMEM_CACHE_ALLOC) with true in Hargs. simpl in Hargs.
  destruct (word m (u32 (EAX m + 4))) as [sz'|] eqn:Hsz; [|done].
  destruct (word m (u32 (EAX m + 84))) as [p|] eqn:Hp; [|done]. simpl in Hargs.
  destruct (upto_nul (fst (PEMU_read_mem m p 50))) as [nm'|] eqn:Hnm; [|done]. injection Hargs as -> -> ->.
  unfold alloc_call. change (KMEM_CACHE_ALLOC =? KMEM_CACHE_ALLOC) with true. cbv iota.
  rewrite (bind_ok _ _ _ _ _ (get_reg_ok m XED_REG_ESP s Hm eq_refl)).
  unfold get_kmem_cache_alloc_args.
  rewrite bind_assoc, (bind_ok _ _ _ _ _ (get_reg_ok m XED_REG_EAX s Hm eq_refl)). fold (EAX m).
  rewrite bind_assoc, (bind_ok _ _ _ _ _ (cell_word m _ p s (u32_range _) Hp)), bind_ret.
  rewrite (bind_ok _ _ _ _ _ (cell_word m _ r s (reg_value_range m _ Hm) Hw)).
  rewrite (bind_ok _ _ _ _ _ (cell_word m _ sz s (u32_range _) Hsz)).
  assert (in_range 32 p) as Hpr by (by eapply word_range; [apply u32_range|]).
  pose proof (upto_nul_no_nul _ _ (read_mem_bytes m p 50 Hpr ltac:(lia)) Hnm) as Hnul.
  unfold read_into. destruct (PEMU_read_mem m p 50) as [bs ok]. cbn [fst] in *.
  rewrite overwrite_app, (bind_ok _ _ _ _ _ (c_string_upto bs _ nm s Hnm)). by apply insert_obj_inv.
Qed.

(** The allocators that take the size in EAX. *)
Lemma sized_alloc_ok m r nm (s : tracer) x :
  inv s x -> regs32 m -> word m (reg_value m XED_REG_ESP) = Some r ->
  (String.length nm < OBJ_NAME_LEN)%nat -> no_nul nm ->
  exists s', (esp <- PEMU_get_reg m XED_REG_ESP ;;
              let ret_addr := fst (read_into m esp 4 (fresh 4)) in
              sz <- PEMU_get_reg m XED_REG_EAX ;;
              r <- cell_num ret_addr ;; insert_obj r 0 (s32 sz) nm) s = Ok (tt, s') /\
    inv s' (x.1, <[r := mkElem1 nm (s32 (EAX m)) None 0]> x.2) /\ keeps s s'.
Proof.
  intros Hinv Hm Hw Hlen Hnul.
  rewrite (bind_ok _ _ _ _ _ (get_reg_ok m XED_REG_ESP s Hm eq_refl)). cbv zeta.
  rewrite (bind_ok _ _ _ _ _ (get_reg_ok m XED_REG_EAX s Hm eq_refl)).
  rewrite (bind_ok _ _ _ _ _ (cell_word m _ r s (reg_value_range m _ Hm) Hw)). by apply insert_obj_inv.
Qed.

Lemma free_call_ok m r (s : tracer) x :
  inv s x -> regs32 m -> bool_decide (container r <> None) = true ->
  exists s', (addr <- PEMU_get_reg m r ;; on_tree (tree_delete addr)) s = Ok (tt, s') /\
    inv s' (survivors (reg_value m r) x.1, x.2) /\ keeps s s'.
Proof.
  intros Hinv Hm Hc. rewrite (bind_ok _ _ _ _ _ (get_reg_ok m r s Hm Hc)).
  destruct x. by apply tree_delete_inv.
Qed.

Lemma alloc_call_ok m pc name (s : tracer) x :
  inv s x -> regs32 m -> KERNEL_ADDR_MIN <= pc -> call_ok m pc ->
  exists s', alloc_call m pc name s = Ok (tt, s') /\ inv s' (spec_call m pc x) /\ keeps s s'.
Proof.
  intros Hinv Hm Hpc Hcall. unfold spec_call, call_ok, is_alloc in *.
  destruct (Z.eqb_spec pc KMEM_CACHE_ALLOC) as [->|H1].
  { destruct (Hcall eq_refl) as (r & sz & nm & Hargs & Hlen). cbn [orb]. rewrite Hargs.
    by apply cache_alloc_ok. }
  unfold alloc_call, alloc_args, frees, releases in *.
  destruct (Z.eqb_spec pc KMEM_CACHE_ALLOC); [done|].
  destruct (Z.eqb_spec pc KMEM_CACHE_ALLOC_TRACE) as [->|_]; [done|]. cbn [orb] in *.
  destruct ((pc =? __KMALLOC) || (pc =? __KMALLOC_TRACK_CALLER)) eqn:Hk; cbn [orb] in *.
  { destruct (Hcall eq_refl) as (r & sz & nm & Hargs & Hlen). rewrite Hargs.
    destruct (word m (reg_value m XED_REG_ESP)) as [r'|] eqn:Hw; [|done]. injection Hargs as -> <- <-.
    by apply sized_alloc_ok. }
  destruct (pc =? __VMALLOC_NODE_FLAGS) eqn:Hv; cbn [orb] in *.
  { destruct (Hcall eq_refl) as (r & sz & nm & Hargs & Hlen). rewrite Hargs.
    destruct (word m (reg_value m XED_REG_ESP)) as [r'|] eqn:Hw; [|done]. injection Hargs as -> <- <-.
    by apply sized_alloc_ok. }
  clear Hcall. destruct (Z.eqb_spec pc KMEM_CACHE_FREE) as [->|H5]; [by apply free_call_ok|].
  destruct (Z.eqb_spec pc KFREE) as [->|H6]; [by apply free_call_ok|].
  destruct (pc =? VFREE); cbn [orb]; [by apply free_call_ok|]. by exists s.
Qed.

(** ** Releasing an object *)

(** Some live object contains the address. *)
Definition covered (os : list obj) (a : Z) : Prop := exists o, o ∈ os /\ o_covers o a = true.

(** An address given to a release function starts an object or is in none. *)
Definition at_start (os : list obj) (a : Z) : Prop :=
  uncovered os a \/ exists o, o ∈ os /\ o_key o = a.

Lemma delete_instance_ok m addr ty ps (s : tracer) :
  stack_ready m (g_interrupt_esp s) (g_pc s) -> g_instances s !! addr = Some (mkInstance ty (Some ps)) ->
  exists s' ls, delete_instance m hash_fn fuel addr s = Ok (tt, s') /\
    core s' = (t_tree s, t_shadow s, g_obj s, delete addr (g_instances s), g_interrupt_esp s, g_pc s) /\
    t_out s' = ls ++ LInstance ty ps :: t_out s.
Proof.
  intros Hr Hi. unfold delete_instance. rewrite (bind_ok get _ s s s) by done. rewrite Hi.
  unfold bind at 1. cbn [print modify_t]. unfold bind at 1. cbn [modify_t].
  set (s1 := with_g_instances _ _).
  destruct (note_callstack_ok m g_delete_callstack with_g_delete_callstack LDelete s1) as (s2 & ls & Hrun & Hc & Ho);
    [by intros ? []|by destruct s|].
  rewrite (bind_ok _ _ _ _ _ Hrun). exists s2, ls. split_and!; [done| |done].
  rewrite Hc. by destruct s.
Qed.

(** [old] is printed when its object is released. *)
Definition released (a : Z) (s s' : tracer) : Prop :=
  forall ty ps, g_instances s !! a = Some (mkInstance ty (Some ps)) -> LInstance ty ps ∈ t_out s'.

Lemma release_ok m a (s : tracer) x :
  inv s x -> stack_ready m (g_interrupt_esp s) (g_pc s) -> at_start x.1 a ->
  exists s', release hash_fn fuel m a s = Ok (tt, s') /\ inv s' (survivors a x.1, x.2) /\
    t_shadow s' = t_shadow s /\ g_interrupt_esp s' = g_interrupt_esp s /\ g_pc s' = g_pc s /\
    (g_instances s' = g_instances s /\ uncovered x.1 a \/
     g_instances s' = delete a (g_instances s) /\ (exists o, o ∈ x.1 /\ o_key o = a) /\ released a s s').
Proof.
  intros Hinv Hr Hstart. destruct x as [os pend]. cbn [fst snd] in *. unfold release.
  destruct (tree_find_spec (t_tree s) os a (inv_tree _ _ Hinv)) as (r & Hfind & Hres).
  rewrite (bind_ok _ _ _ _ _ (on_tree_ro _ _ _ Hfind)). destruct r as [n|].
  2: { rewrite bind_ret. destruct (tree_delete_inv s os pend a Hinv) as (s' & -> & Hinv' & ? & ? & ? & ? & _).
       exists s'. split_and!; try done. by left. }
  destruct Hstart as [Hun|(o & Ho & Hk)].
  { destruct Hres as [Hn Hc]. unfold uncovered in Hun. rewrite list.Forall_forall in Hun.
    by rewrite (Hun _ Hn) in Hc. }
  destruct (inv_inst _ _ Hinv o Ho) as [ps Hps]. rewrite Hk in Hps.
  destruct (delete_instance_ok m a _ _ s Hr Hps) as (s1 & ls & Hdel & Hc & Hout).
  rewrite (bind_ok _ _ _ _ _ Hdel). injection Hc as Ht Hh Hp Hi Hq Hpc.
  destruct (tree_delete_spec (t_tree s1) os a) as (t' & Hd & Ht' & _); [rewrite Ht; apply (inv_tree _ _ Hinv)|].
  exists (with_t_tree t' s1). split_and!; [by apply on_tree_ok| |done..|].
  - destruct Hinv as [? Hp' ? ? ? Hinst]. simpl in *. split; simpl; [done|congruence|done|by rewrite Hh|by rewrite Hq|].
    intros o' Ho'. pose proof (survivors_key _ _ _ (tree_holds_ok _ _ inv_tree0) Ho') as Hne.
    apply list_elem_of_filter in Ho' as [_ Ho']. destruct (Hinst o' Ho') as [ps' Hps']. exists ps'.
    by rewrite Hi, lookup_delete_ne.
  - right. split_and!; [done|by exists o|]. intros ty ps' Hps'. simplify_eq. simpl. rewrite Hout. set_solver.
Qed.

Lemma trace_delete_ok m pc (s : tracer) x :
  inv s x -> regs32 m -> stack_ready m (g_interrupt_esp s) (g_pc s) ->
  (forall a, releases m pc = Some a -> at_start x.1 a) ->
  exists s', trace_delete hash_fn fuel m pc s = Ok (tt, s') /\ inv s' (spec_free (releases m pc) x) /\
    t_shadow s' = t_shadow s /\ g_interrupt_esp s' = g_interrupt_esp s /\ g_pc s' = g_pc s /\
    match releases m pc with
    | Some a => g_instances s' = g_instances s /\ uncovered x.1 a \/
                g_instances s' = delete a (g_instances s) /\ (exists o, o ∈ x.1 /\ o_key o = a) /\ released a s s'
    | None => s' = s
    end.
Proof.
  intros Hinv Hm Hr Hat. unfold trace_delete, releases in *.
  destruct (pc =? KMEM_CACHE_FREE).
  { unfold get_kmem_cache_free_args. rewrite (bind_ok _ _ _ _ _ (get_reg_ok m XED_REG_EDX s Hm eq_refl)).
    by apply release_ok; [..|apply Hat]. }
  destruct (pc =? KFREE).
  { rewrite (bind_ok _ _ _ _ _ (get_reg_ok m XED_REG_EAX s Hm eq_refl)). by apply release_ok; [..|apply Hat]. }
  by exists s.
Qed.

(** ** The hook of every instruction *)

(** What the guest must satisfy at an instruction of the kernel. *)
Record hook_ok (m : machine) (pc : Z) (s : tracer) (x : spec) : Prop := mkHookOk {
  hook_regs : regs32 m;
  hook_stack : stack_ready m (g_interrupt_esp s) pc;
  hook_release : forall a, releases m pc = Some a -> x.2 !! pc = None /\ at_start x.1 a;
  hook_return : return_ok m pc (with_g_pc pc s) x;
  hook_call : call_ok m pc
}.

Lemma helper_hook_ok m pc (s : tracer) x :
  inv s x -> (KERNEL_ADDR_MIN <= pc -> hook_ok m pc s x) ->
  exists s', helper_hook hash_fn fuel m pc s = Ok (tt, s') /\
    inv s' (spec_hook m (hash_fn (cs_of m (g_interrupt_esp s) pc)) pc x) /\
    g_interrupt_esp s' = g_interrupt_esp s /\
    (KERNEL_ADDR_MIN <= pc ->
       g_pc s' = pc /\
       (forall e, x.2 !! pc = Some e ->
          g_instances s' = <[EAX m := mkInstance (hash_fn (cs_of m (g_interrupt_esp s) pc)) (Some ∅)]> (g_instances s) /\
          (forall b, in_range 32 b -> taint_at (t_shadow s') b =
             if u32 (b - EAX m) <? u32 (el_size e) then 0 else taint_at (t_shadow s) b)) /\
       (forall a, releases m pc = Some a -> covered x.1 a ->
          g_instances s' = delete a (g_instances s) /\ released a s s')).
Proof.
  intros Hinv Hok. unfold helper_hook, spec_hook. destruct (Z.ltb_spec pc KERNEL_ADDR_MIN) as [Hlt|Hge].
  { exists s. split_and!; [done..|lia]. }
  destruct (Hok Hge) as [Hm Hr Hrel Hret Hcall]. unfold bind at 1. cbn [modify_t].
  set (s0 := with_g_pc pc s). change (g_interrupt_esp s) with (g_interrupt_esp s0) in *.
  assert (inv s0 x) as Hinv0 by (by destruct Hinv; split).
  assert (hash_fn (cs_of m (g_interrupt_esp s0) pc) = here m s0) as -> by done.
  destruct (trace_delete_ok m pc s0 x Hinv0 Hm Hr) as (s1 & Hrun1 & Hinv1 & Hh1 & Hq1 & Hp1 & Hcase);
    [by apply Hrel|]. rewrite (bind_ok _ _ _ _ _ Hrun1).
  assert (here m s1 = here m s0) as Hhere by (unfold here; by rewrite Hq1, Hp1).
  assert (return_ok m pc s1 (spec_free (releases m pc) x)) as Hret1.
  { destruct (releases m pc) as [a|] eqn:Ha; [|by subst s1]. destruct (Hrel a eq_refl) as [Hnone _].
    intros e He. simpl in He. congruence. }
  rewrite <-Hq1 in Hr.
  destruct (alloc_return_ok m pc s1 _ Hinv1 Hm Hr Hp1 Hret1) as (s2 & name & Hrun2 & Hinv2 & Hq2 & Hp2 & Hfresh).
  rewrite Hhere in *. unfold object_hook. rewrite (bind_ok _ _ _ _ _ Hrun2).
  destruct (alloc_call_ok m pc name s2 _ Hinv2 Hm Hge Hcall) as (s3 & Hrun3 & Hinv3 & Hh3 & Hi3 & Hq3 & Hp3 & Ho3).
  exists s3. split_and!; [done..|congruence|]. intros _. split; [congruence|]. split.
  - intros e He. destruct (releases m pc) as [a|] eqn:Ha; [destruct (Hrel a eq_refl); congruence|].
    subst s1. simpl in Hfresh. rewrite He in Hfresh. rewrite Hi3, Hh3. apply Hfresh.
  - intros a Ha (o & Ho & Hc). destruct (Hrel a Ha) as [Hnone _]. rewrite Ha in Hfresh, Hcase. simpl in Hfresh.
    rewrite Hnone in Hfresh. subst s2.
    destruct Hcase as [[_ Hun]|(Hi1 & _ & Hrl)].
    { unfold uncovered in Hun. rewrite list.Forall_forall in Hun. by rewrite (Hun o Ho) in Hc. }
    split; [by rewrite Hi3|]. intros ty ps Hps. rewrite Ho3. by apply Hrl.
Qed.
End Inv.
