(* ===== verification/TracerAccess.v ===== *)
(** * Accesses, interrupts and whole runs

    What the hooks of memory accesses record, and the step relation of the tracer:
    a run is any sequence of hooks, in the order the emulator calls them. *)

From stdpp Require Import base gmap list strings.
From Stdlib Require Import ZArith Lia Sorted.
From S2P Require Import Prelude RbTree RbStore ObjStore Cpu Xed Guest Operand CallStack LibMap Tracer TracerInv.

Local Open Scope Z_scope.
Local Open Scope c_scope.

Lemma covers_unique os o1 o2 a :
  objs_ok os -> o1 ∈ os -> o2 ∈ os -> o_covers o1 a = true -> o_covers o2 a = true -> o1 = o2.
Proof.
  intros [Hs Hv] H1 H2. rewrite list.Forall_forall in Hv.
  rewrite !o_covers_valid by auto. intros Hc1 Hc2.
  induction Hs as [|o os Hs IH Hf]; [by apply elem_of_nil in H1|].
  rewrite list.Forall_forall in Hf. unfold o_below in Hf.
  apply elem_of_cons in H1 as [->|H1], H2 as [->|H2].
  - done.
  - specialize (Hf _ H2). lia.
  - specialize (Hf _ H1). lia.
  - apply IH; [|done..]. intros o' Ho'. apply Hv. set_solver.
Qed.

Section Access.
Context {T H : Type} `{!ObjTree T} `{!ObjTreeSpec T} `{!TaintMem H} `{!TaintMemSpec H}.
Context (hash_fn : string -> Z) (fuel : nat) (Hfuel : STACK_SIZE < Z.of_nat fuel).
Abbreviation tracer := (tracer T H).
Abbreviation here := (here hash_fn fuel).

(** The instances with one more access recorded. *)
Definition with_access (a : Z) (str : string) (g : gmap Z Instance) : gmap Z Instance :=
  match g !! a with
  | Some (mkInstance ty (Some ps)) => <[a := mkInstance ty (Some ({[ str ]} ∪ ps))]> g
  | _ => g
  end.

Lemma record_access_ok a str ty ps (s : tracer) :
  g_instances s !! a = Some (mkInstance ty (Some ps)) ->
  record_access a str s = Ok (tt, with_g_instances (with_access a str (g_instances s)) s).
Proof. intros Hi. unfold record_access, with_access. rewrite (bind_ok get _ s s s) by done. by rewrite Hi. Qed.

Lemma with_access_inst a str g o : has_instance g o -> has_instance (with_access a str g) o.
Proof.
  intros [ps Hps]. unfold with_access, has_instance. destruct (g !! a) as [[ty [ps'|]]|] eqn:Ha; [|by eauto..].
  destruct (decide (a = o_key o)) as [->|Hne]; [|rewrite lookup_insert_ne by done; by eauto].
  rewrite lookup_insert_eq. simplify_eq. by eauto.
Qed.

(** The record of an access to address [a] of the object [o]. *)
Definition access_of (m : machine) (s : tracer) (o : obj) (a : Z) : string :=
  access_string (here m s) (taint_at (t_shadow s) a) (g_pc s) (a - o_key o).

Lemma inv_access (s s1 : tracer) x a str :
  inv s x -> core s1 = core s -> inv (with_g_instances (with_access a str (g_instances s)) s1) x.
Proof.
  intros [] Hc. injection Hc as Ht Hh Ho Hi Hq Hp. split; simpl; rewrite ?Ht, ?Hh, ?Hq; try done; [congruence|].
  intros o Hin. by apply with_access_inst, inv_inst.
Qed.

Lemma offset_addr o a : in_range 32 a -> 0 <= o_key o <= a ->
  u32 (a - o_key o) = a - o_key o /\ u32 (o_key o + (a - o_key o)) = a.
Proof. intros Ha Hk. split; [apply u32_id; lia|]. replace (o_key o + (a - o_key o)) with a by lia. by apply u32_id. Qed.

Lemma obj_key_le os o a : objs_ok os -> o ∈ os -> o_covers o a = true -> 0 <= o_key o <= a.
Proof.
  intros [_ Hv] Ho Hc. rewrite list.Forall_forall in Hv. specialize (Hv o Ho).
  apply o_covers_valid in Hc; [|done]. destruct Hv. lia.
Qed.

(** A read of a live object. *)
Lemma add_read_ok m o a size (s : tracer) x :
  inv s x -> stack_ready m (g_interrupt_esp s) (g_pc s) -> in_range 32 a ->
  o ∈ x.1 -> o_covers o a = true ->
  exists s', add_read_action m hash_fn fuel (o_key o) size (u32 (a - o_key o)) (g_pc s) s = Ok (tt, s') /\
    inv s' x /\ t_tree s' = t_tree s /\ t_shadow s' = t_shadow s /\
    g_instances s' = with_access (o_key o) (access_of m s o a) (g_instances s) /\
    g_interrupt_esp s' = g_interrupt_esp s /\ g_pc s' = g_pc s.
Proof.
  intros Hinv Hr Ha Ho Hc. destruct (inv_inst _ _ Hinv o Ho) as [ps Hps].
  destruct (offset_addr o a Ha (obj_key_le _ _ _ (inv_objs _ _ Hinv) Ho Hc)) as [Hoff Haddr].
  unfold add_read_action. rewrite (bind_ok get _ s s s) by done. rewrite Hps, Hoff, Haddr.
  destruct (note_callstack_ok hash_fn fuel Hfuel m g_access_callstack with_g_access_callstack LRead s)
    as (s1 & ls & Hrun & Hcore & _); [by intros ? []|done|].
  rewrite (bind_ok _ _ _ _ _ Hrun). pose proof Hcore as [= Ht Hh Hg Hi Hq Hp].
  rewrite (bind_ok _ _ s1 (taint_at (t_shadow s) a) s1).
  2: { apply on_shadow_ro. rewrite Hh. apply taint_get_spec; [apply (inv_shadow _ _ Hinv)|done]. }
  fold (access_of m s o a). erewrite record_access_ok by (by rewrite Hi).
  eexists. split; [done|]. split_and!; simpl; try congruence. rewrite Hi. by apply inv_access.
Qed.

(** A write to a live object. *)
Lemma add_write_ok m o a size (s : tracer) x :
  inv s x -> stack_ready m (g_interrupt_esp s) (g_pc s) -> in_range 32 a -> in_range 32 size ->
  o ∈ x.1 -> o_covers o a = true ->
  exists s', add_write_action m hash_fn fuel (o_key o) size (u32 (a - o_key o)) (g_pc s) s = Ok (tt, s') /\
    inv s' x /\ t_tree s' = t_tree s /\
    (forall b, in_range 32 b ->
       taint_at (t_shadow s') b = if u32 (b - a) <? size then 1 else taint_at (t_shadow s) b) /\
    g_instances s' = with_access (o_key o) (access_of m s o a) (g_instances s) /\
    g_interrupt_esp s' = g_interrupt_esp s /\ g_pc s' = g_pc s.
Proof.
  intros Hinv Hr Ha Hsz Ho Hc. destruct (inv_inst _ _ Hinv o Ho) as [ps Hps].
  destruct (offset_addr o a Ha (obj_key_le _ _ _ (inv_objs _ _ Hinv) Ho Hc)) as [Hoff Haddr].
  unfold add_write_action. rewrite (bind_ok get _ s s s) by done. rewrite Hps, Hoff, Haddr.
  destruct (note_callstack_ok hash_fn fuel Hfuel m g_access_callstack with_g_access_callstack LWrite s)
    as (s1 & ls & Hrun & Hcore & _); [by intros ? []|done|].
  rewrite (bind_ok _ _ _ _ _ Hrun). pose proof Hcore as [= Ht Hh Hg Hi Hq Hp].
  rewrite (bind_ok _ _ s1 (taint_at (t_shadow s) a) s1).
  2: { apply on_shadow_ro. rewrite Hh. apply taint_get_spec; [apply (inv_shadow _ _ Hinv)|done]. }
  destruct (taint_set_spec (t_shadow s) a 1 size (inv_shadow _ _ Hinv) Ha Hsz) as (h & Hset & Hok & Hat).
  rewrite <-Hh in Hset. rewrite (bind_ok _ _ _ _ _ (on_shadow_ok _ _ _ _ Hset)).
  fold (access_of m s o a). erewrite record_access_ok by (simpl; by rewrite Hi).
  eexists. split; [done|]. split_and!; simpl; try congruence; [|exact Hat]. rewrite Hi.
  destruct (inv_access s s1 x (o_key o) (access_of m s o a) Hinv Hcore). by split.
Qed.

(** ** The hooks of accesses *)

Definition KERNEL : Z := 0xc0000000.

(** The tracer's answer to a lookup. *)
Lemma find_ok (s : tracer) x a :
  inv s x ->
  exists r, on_tree (tree_find a) s = Ok (r, s) /\
    match r with
    | Some n => node_obj n ∈ x.1 /\ o_covers (node_obj n) a = true
    | None => uncovered x.1 a
    end.
Proof.
  intros Hinv. destruct (tree_find_spec (t_tree s) x.1 a (inv_tree _ _ Hinv)) as (r & Hf & Hr).
  exists r. split; [by apply on_tree_ro|done].
Qed.

Lemma find_covered (s : tracer) x o a :
  inv s x -> o ∈ x.1 -> o_covers o a = true ->
  exists n, on_tree (tree_find a) s = Ok (Some n, s) /\ node_obj n = o.
Proof.
  intros Hinv Ho Hc. destruct (find_ok s x a Hinv) as (r & Hf & Hr). destruct r as [n|].
  - exists n. split; [done|]. destruct Hr. by eapply covers_unique; [apply (inv_objs _ _ Hinv)|..].
  - unfold uncovered in Hr. rewrite list.Forall_forall in Hr. by rewrite (Hr o Ho) in Hc.
Qed.

Lemma find_uncovered (s : tracer) x a :
  inv s x -> uncovered x.1 a -> on_tree (tree_find a) s = Ok (None, s).
Proof.
  intros Hinv Hun. destruct (find_ok s x a Hinv) as (r & Hf & Hr). destruct r as [n|]; [|done].
  unfold uncovered in Hun. rewrite list.Forall_forall in Hun. destruct Hr as [Hin Hc]. by rewrite (Hun _ Hin) in Hc.
Qed.

Lemma covered_dec os a : covered os a \/ uncovered os a.
Proof.
  unfold covered, uncovered. induction os as [|o os IH]; [right; constructor|].
  destruct (o_covers o a) eqn:Hc; [left; exists o; set_solver|].
  destruct IH as [(o' & ? & ?)|?]; [left; exists o'; set_solver|right; by constructor].
Qed.

Lemma helper_store_covered m v a size o (s : tracer) x :
  inv s x -> stack_ready m (g_interrupt_esp s) (g_pc s) -> in_range 32 a -> in_range 32 size -> KERNEL <= a ->
  o ∈ x.1 -> o_covers o a = true ->
  exists s', helper_store hash_fn fuel m v a size s = Ok (tt, s') /\
    inv s' x /\ t_tree s' = t_tree s /\
    (forall b, in_range 32 b ->
       taint_at (t_shadow s') b = if u32 (b - a) <? size then 1 else taint_at (t_shadow s) b) /\
    g_instances s' = with_access (o_key o) (access_of m s o a) (g_instances s) /\
    g_interrupt_esp s' = g_interrupt_esp s /\ g_pc s' = g_pc s.
Proof.
  intros Hinv Hr Ha Hsz Hk Ho Hc. unfold helper_store. destruct (Z.ltb_spec a 0xc0000000) as [Hlt|_]; [unfold KERNEL in *; lia|].
  destruct (find_covered s x o a Hinv Ho Hc) as (n & Hf & Hn). rewrite (bind_ok _ _ _ _ _ Hf).
  rewrite (bind_ok _ _ s (g_pc s) s) by done. subst o. by apply (add_write_ok m (node_obj n)).
Qed.

Lemma helper_load_covered m a size o (s : tracer) x :
  inv s x -> stack_ready m (g_interrupt_esp s) (g_pc s) -> in_range 32 a -> KERNEL <= a ->
  o ∈ x.1 -> o_covers o a = true ->
  exists s', helper_load hash_fn fuel m a size s = Ok (tt, s') /\
    inv s' x /\ t_tree s' = t_tree s /\ t_shadow s' = t_shadow s /\
    g_instances s' = with_access (o_key o) (access_of m s o a) (g_instances s) /\
    g_interrupt_esp s' = g_interrupt_esp s /\ g_pc s' = g_pc s.
Proof.
  intros Hinv Hr Ha Hk Ho Hc. unfold helper_load. destruct (Z.ltb_spec a 0xc0000000) as [Hlt|_]; [unfold KERNEL in *; lia|].
  destruct (find_covered s x o a Hinv Ho Hc) as (n & Hf & Hn). rewrite (bind_ok _ _ _ _ _ Hf).
  rewrite (bind_ok _ _ s (g_pc s) s) by done. subst o. by apply (add_read_ok m (node_obj n)).
Qed.

Lemma helper_access_uncovered m v a size (s : tracer) x :
  inv s x -> a < KERNEL \/ uncovered x.1 a ->
  helper_store hash_fn fuel m v a size s = Ok (tt, s) /\ helper_load hash_fn fuel m a size s = Ok (tt, s).
Proof.
  intros Hinv Hor. unfold helper_store, helper_load.
  destruct (Z.ltb_spec a 0xc0000000) as [_|Hge]; [done|]. destruct Hor as [?|Hun]; [unfold KERNEL in *; lia|].
  by rewrite !(bind_ok _ _ _ _ _ (find_uncovered s x a Hinv Hun)).
Qed.

(** ** Runs *)

Inductive event : Type :=
| EvHook (m : machine) (pc : Z)
| EvLoad (m : machine) (addr size : Z)
| EvStore (m : machine) (value addr size : Z)
| EvLoad1 (m : machine) (src size : Z)
| EvStore1 (m : machine) (src addr size : Z)
| EvInterrupt (m : machine) (intno : Z)
| EvIret (m : machine).

Definition step (ev : event) : M tracer unit :=
  match ev with
  | EvHook m pc => helper_hook hash_fn fuel m pc
  | EvLoad m a size => helper_load hash_fn fuel m a size
  | EvStore m v a size => helper_store hash_fn fuel m v a size
  | EvLoad1 m src size => helper_load1 hash_fn fuel m src size
  | EvStore1 m src a size => helper_store1 m src a size
  | EvInterrupt m n => interrupt_hook m n
  | EvIret m => iret_hook m
  end.

Fixpoint run (evs : list event) : M tracer unit :=
  match evs with
  | [] => ret tt
  | ev :: evs' => step ev ;; run evs'
  end.

(** The specification's step: only instructions change the live objects. *)
Definition spec_event (s : tracer) (ev : event) (x : spec) : spec :=
  match ev with
  | EvHook m pc => spec_hook m (hash_fn (cs_of fuel m (g_interrupt_esp s) pc)) pc x
  | _ => x
  end.

(** What the guest and the machine must satisfy at an event. *)
Definition event_ok (s : tracer) (x : spec) (ev : event) : Prop :=
  match ev with
  | EvHook m pc => KERNEL_ADDR_MIN <= pc -> hook_ok hash_fn fuel m pc s x
  | EvLoad m a size =>
      in_range 32 a /\ (covered x.1 a -> stack_ready m (g_interrupt_esp s) (g_pc s))
  | EvStore m _ a size =>
      in_range 32 a /\ in_range 32 size /\ (covered x.1 a -> stack_ready m (g_interrupt_esp s) (g_pc s))
  | EvLoad1 m src size =>
      in_range 32 src /\
      (covered x.1 src -> is_Some (word m src) /\ stack_ready m (g_interrupt_esp s) (g_pc s))
  | EvStore1 m src a size => in_range 32 a /\ (covered x.1 src -> is_Some (word m a))
  | EvInterrupt m n => is_Some (word m KERNEL_ESP)
  | EvIret m => is_Some (word m KERNEL_ESP)
  end.

Lemma both_objects_ok src a m (s : tracer) x :
  inv s x -> in_range 32 a -> (covered x.1 src -> is_Some (word m a)) ->
  exists r, both_objects src (fst (read_into m a 4 (fresh 4))) s = Ok (r, s) /\
    (r <> None -> covered x.1 src).
Proof.
  intros Hinv Ha Hw. unfold both_objects.
  destruct (find_ok s x src Hinv) as (r & Hf & Hr). rewrite (bind_ok _ _ _ _ _ Hf). destruct r as [n|].
  2: by exists None.
  assert (covered x.1 src) as Hc by (by exists (node_obj n)). destruct (Hw Hc) as [d Hd].
  rewrite (bind_ok _ _ _ _ _ (cell_word m a d s Ha Hd)).
  destruct (find_ok s x d Hinv) as (r' & Hf' & _). rewrite (bind_ok _ _ _ _ _ Hf').
  eexists. split; [done|]. by intros _.
Qed.

Lemma kernel_esp_ok m (s : tracer) :
  is_Some (word m KERNEL_ESP) -> exists esp, in_range 32 esp /\ get_kernel_esp m s = Ok (esp, s).
Proof.
  intros [esp Hw]. exists esp. split; [by eapply word_range; [|exact Hw]|]. by apply cell_word.
Qed.

Lemma inv_interrupts (s : tracer) x g :
  inv s x -> interrupts_ok g -> inv (with_g_interrupt_esp g s) x.
Proof. intros [] Hg. by split. Qed.

(** An access is outside the kernel, to a live object, or to none. *)
Lemma access_cases x a : a < KERNEL \/ uncovered x.1 a \/ KERNEL <= a /\ covered (x : spec).1 a.
Proof.
  destruct (Z.ltb_spec a KERNEL); [by left|]. destruct (covered_dec x.1 a); [by right; right|by right; left].
Qed.

Lemma load_step m a size (s : tracer) x :
  inv s x -> event_ok s x (EvLoad m a size) ->
  exists s', helper_load hash_fn fuel m a size s = Ok (tt, s') /\ inv s' x.
Proof.
  intros Hinv (Ha & Hr). pose proof (helper_access_uncovered m 0 a size s x Hinv) as Hun.
  destruct (access_cases x a) as [Hlt|[Hno|(Hge & Hc)]]; [exists s; split; [apply Hun; by left|done]|exists s; split; [apply Hun; by right|done]|].
  pose proof Hc as (o & Ho & Hoc).
  destruct (helper_load_covered m a size o s x Hinv (Hr Hc) Ha Hge Ho Hoc) as (s' & ? & ? & _). by exists s'.
Qed.

Lemma store_step m v a size (s : tracer) x :
  inv s x -> event_ok s x (EvStore m v a size) ->
  exists s', helper_store hash_fn fuel m v a size s = Ok (tt, s') /\ inv s' x.
Proof.
  intros Hinv (Ha & Hsz & Hr). pose proof (helper_access_uncovered m v a size s x Hinv) as Hun.
  destruct (access_cases x a) as [Hlt|[Hno|(Hge & Hc)]]; [exists s; split; [apply Hun; by left|done]|exists s; split; [apply Hun; by right|done]|].
  pose proof Hc as (o & Ho & Hoc).
  destruct (helper_store_covered m v a size o s x Hinv (Hr Hc) Ha Hsz Hge Ho Hoc) as (s' & ? & ? & _). by exists s'.
Qed.

Lemma load1_step m src size (s : tracer) x :
  inv s x -> event_ok s x (EvLoad1 m src size) ->
  exists s', helper_load1 hash_fn fuel m src size s = Ok (tt, s') /\ inv s' x.
Proof.
  intros Hinv (Ha & Hr). unfold helper_load1. destruct ((src <? 0xc0000000) || negb (size =? 4)); [by exists s|].
  destruct (both_objects_ok src src m s x Hinv Ha (fun Hc => proj1 (Hr Hc))) as (r & Hb & Hcov).
  rewrite (bind_ok _ _ _ _ _ Hb). destruct r as [[[sn dn] d]|]; [|by exists s].
  rewrite (bind_ok _ _ s (g_pc s) s) by done. unfold add_traverse, hash_callstack.
  rewrite bind_assoc, (bind_ok _ _ _ _ _ (callstack_ebp_ok fuel Hfuel m (g_pc s) s (proj2 (Hr (Hcov ltac:(done)))))), bind_ret.
  eexists. split; [done|]. eapply inv_core; [|exact Hinv]. by destruct s.
Qed.

Lemma store1_step m src a size (s : tracer) x :
  inv s x -> event_ok s x (EvStore1 m src a size) ->
  exists s', helper_store1 m src a size s = Ok (tt, s') /\ inv s' x.
Proof.
  intros Hinv (Ha & Hw). unfold helper_store1. destruct ((src <? 0xc0000000) || negb (size =? 4)); [by exists s|].
  destruct (both_objects_ok src a m s x Hinv Ha Hw) as (r & Hb & _).
  rewrite (bind_ok _ _ _ _ _ Hb). destruct r as [[[sn dn] d]|]; [|by exists s].
  rewrite (bind_ok _ _ s (g_pc s) s) by done. eexists. split; [done|].
  eapply inv_core; [|exact Hinv]. by destruct s.
Qed.

Lemma interrupt_step m n (s : tracer) x :
  inv s x -> event_ok s x (EvInterrupt m n) ->
  exists s', interrupt_hook m n s = Ok (tt, s') /\ inv s' x.
Proof.
  intros Hinv Hw. unfold interrupt_hook. destruct (negb (n =? 0x80)); [|by exists s].
  destruct (kernel_esp_ok m s Hw) as (esp & Hr & He). rewrite (bind_ok _ _ _ _ _ He).
  eexists. split; [done|]. apply inv_interrupts; [done|].
  apply add_interrupt_ok; [apply (inv_irq _ _ Hinv)|by apply stack_mask_bound].
Qed.

Lemma iret_step m (s : tracer) x :
  inv s x -> event_ok s x (EvIret m) -> exists s', iret_hook m s = Ok (tt, s') /\ inv s' x.
Proof.
  intros Hinv Hw. unfold iret_hook.
  destruct (kernel_esp_ok m s Hw) as (esp & Hr & He). rewrite (bind_ok _ _ _ _ _ He).
  eexists. split; [done|]. apply inv_interrupts; [done|]. apply delete_interrupt_ok, (inv_irq _ _ Hinv).
Qed.

Lemma step_ok ev (s : tracer) x :
  inv s x -> event_ok s x ev ->
  exists s', step ev s = Ok (tt, s') /\ inv s' (spec_event s ev x).
Proof.
  intros Hinv Hok. destruct ev; simpl spec_event; simpl step.
  - destruct (helper_hook_ok hash_fn fuel Hfuel m pc s x Hinv Hok) as (s' & ? & ? & _). by exists s'.
  - by eapply load_step.
  - by eapply store_step.
  - by eapply load1_step.
  - by eapply store1_step.
  - by eapply interrupt_step.
  - by eapply iret_step.
Qed.

(** The state after an event that the tracer survives. *)
Definition next (ev : event) (s : tracer) : tracer :=
  match step ev s with Ok (_, s') => s' | _ => s end.

(** The guest behaves all along a run, and what the specification makes of it. *)
Fixpoint guest_ok (s : tracer) (x : spec) (evs : list event) : Prop :=
  match evs with
  | [] => True
  | ev :: evs' => event_ok s x ev /\ guest_ok (next ev s) (spec_event s ev x) evs'
  end.

Fixpoint spec_run (s : tracer) (x : spec) (evs : list event) : spec :=
  match evs with
  | [] => x
  | ev :: evs' => spec_run (next ev s) (spec_event s ev x) evs'
  end.

Lemma run_ok evs : forall (s : tracer) x,
  inv s x -> guest_ok s x evs ->
  exists s', run evs s = Ok (tt, s') /\ inv s' (spec_run s x evs).
Proof.
  induction evs as [|ev evs IH]; intros s x Hinv Hok; simpl in *; [by exists s|].
  destruct Hok as [Hev Hok]. destruct (step_ok ev s x Hinv Hev) as (s1 & Hs1 & Hinv1).
  rewrite (bind_ok _ _ _ _ _ Hs1). assert (next ev s = s1) as Hn by (unfold next; by rewrite Hs1).
  rewrite Hn in *. by apply IH.
Qed.
End Access.
