(* ===== verification/TracerDemo.v ===== *)
(** * A small run of the tracer

    A reference shadow memory (a function from addresses), and a guest that
    allocates an object, writes and reads it and releases it: states that satisfy
    the hypotheses of the theorems about the hooks. *)

From stdpp Require Import base gmap list strings.
From Stdlib Require Import ZArith Lia.
From S2P Require Import Prelude RbTree RbStore ObjStore Cpu Xed Guest Operand CallStack LibMap Tracer TracerInv TracerAccess.

Local Open Scope Z_scope.

(** ** The reference shadow memory *)

#[export] Instance fun_taint_mem : TaintMem (Z -> Z) := {
  taint_get a := fun h => Ok (h a, h);
  taint_set a v size := fun h => Ok (tt, fun b => if u32 (b - a) <? size then v else h b)
}.

#[export] Program Instance fun_taint_mem_spec : TaintMemSpec (Z -> Z) := {
  taint_ok _ := True;
  taint_at h := h
}.
Next Obligation. done. Qed.
Next Obligation. intros h a v size _ _ _. by eexists. Qed.

(** ** The guest *)

(** A stand-in for [std::hash]. *)
Definition demo_hash (s : string) : Z := Z.of_nat (String.length s).
Definition demo_fuel : nat := 8193.

(** The state before the first event, with [n] allocations available. *)
Definition tracer_start {T H} (t : T) (h : H) : tracer T H :=
  mkTracer t h 0 ∅ ∅ ∅ ∅ ∅ ∅ ∅ ∅ ∅ ∅ ∅ ∅ ∅ ∅ [].

Definition demo0 : tracer rb_state (Z -> Z) := tracer_start (rb_init 10) (fun _ => 0).

(** [kmalloc(64)] is called from 0xc111110c, returns 0xc3000000, and [kfree] is
    called with [freed]. *)
Definition SITE : Z := 0xc1111111.
Definition OBJ : Z := 0xc3000000.
Definition at_kmalloc : machine := machine_of 64 0 0xc2001f00 0 [(0xc2001f00, SITE)].
Definition at_return : machine := machine_of OBJ 0 0xc2001f04 0 [].
Definition at_kfree (freed : Z) : machine := machine_of freed 0 0xc2001f00 0 [].

Abbreviation demo_next := (next demo_hash demo_fuel).
Definition ev_call : event := EvHook at_kmalloc __KMALLOC.
Definition ev_return : event := EvHook at_return SITE.
Definition ev_store : event := EvStore at_return 7 (OBJ + 4) 4.
Definition ev_load : event := EvLoad at_return (OBJ + 6) 4.
Definition ev_free : event := EvHook (at_kfree OBJ) KFREE.

Definition demo1 : tracer rb_state (Z -> Z) := demo_next ev_call demo0.
Definition demo2 : tracer rb_state (Z -> Z) := demo_next ev_return demo1.
Definition demo_obj : obj := mkObj OBJ 64 8 SITE.
Definition pend1 : gmap Z Elem1 := {[ SITE := mkElem1 "kmalloc-XX" 64 None 0 ]}.

(** ** The hypotheses hold *)

Lemma demo_fuel_ok : STACK_SIZE < Z.of_nat demo_fuel.
Proof. reflexivity. Qed.

Lemma ready_no_interrupt m pc :
  regs32 m -> first_frame m pc = Some 0 -> 0 < stack_base m ->
  sane_stack m (stack_base m) (stack_end ∅ m) -> stack_ready m ∅ pc.
Proof.
  intros Hm Hf Hb Hs. split; [done|]. split; [apply interrupts_ok_empty|]. split; [done|].
  exists 0. split; [done|]. right. unfold out_of_stack. apply Z.ltb_lt in Hb. by rewrite Hb.
Qed.

Lemma at_kmalloc_ready : stack_ready at_kmalloc ∅ __KMALLOC.
Proof. apply ready_no_interrupt; [by apply machine_of_regs|done..|by apply sane_near; vm_compute]. Qed.

(** Empty memory reads as zero, which is outside every stack. *)
Lemma zero_word eax edx esp ebp a : in_range 32 a -> word (machine_of eax edx esp ebp []) a = Some 0.
Proof.
  intros Ha. unfold word, PEMU_read_mem, cpu_memory_rw_debug. rewrite rw_debug_bytes by (done || lia).
  assert (forall n b, read_bytes (machine_of eax edx esp ebp []) n b = (replicate n 0, true)) as H.
  { induction n as [|n IH]; intros b; [done|]. cbn [read_bytes]. unfold translate, x86_cpu_get_phys_page_debug.
    change (negb (has (crn (machine_of eax edx esp ebp []) 0) CR0_PG_MASK)) with true. cbv iota. by rewrite IH. }
  by rewrite H.
Qed.

Lemma zero_memory_ready eax edx esp pc :
  in_range 32 eax -> in_range 32 edx -> in_range 32 esp ->
  HARD_CODE_SCHED pc = false -> 0 < Z.land esp STACK_MASK ->
  stack_ready (machine_of eax edx esp 0 []) ∅ pc.
Proof.
  intros Ha Hd He Hpc Hb. split; [by apply machine_of_regs|]. split; [apply interrupts_ok_empty|].
  assert (stack_base (machine_of eax edx esp 0 []) = Z.land esp STACK_MASK) as Hbase by done.
  assert (forall hi, out_of_stack (Z.land esp STACK_MASK) hi 0 = true) as Hout.
  { intros hi. unfold out_of_stack. apply Z.ltb_lt in Hb. by rewrite Hb. }
  rewrite Hbase. split.
  - intros e Hin _ _. exists 0. rewrite !zero_word by (done || apply u32_range). split; [done|].
    split; [done|]. intros e' [= <-]. right. apply Hout.
  - exists 0. unfold first_frame. rewrite Hpc. split; [done|]. right. apply Hout.
Qed.

Lemma at_return_ready : stack_ready at_return ∅ SITE.
Proof. by apply zero_memory_ready. Qed.
Lemma at_kfree_ready a : in_range 32 a -> stack_ready (at_kfree a) ∅ KFREE.
Proof. intros. by apply zero_memory_ready. Qed.

Lemma start_inv {T H} `{ObjTreeSpec T} `{TaintMemSpec H} (t : T) (h : H) :
  tree_holds t [] -> taint_ok h -> inv (tracer_start t h) ([], ∅).
Proof.
  intros Ht Hh. split; simpl; try done. intros o Ho. by apply elem_of_nil in Ho.
Qed.

Lemma demo0_inv : inv demo0 ([], ∅).
Proof. apply start_inv; [|done]. split; [apply store_init|]. by apply (bool_decide_unpack _). Qed.

Lemma demo1_irq : g_interrupt_esp demo1 = ∅.
Proof. by vm_compute. Qed.
Lemma demo2_irq : g_interrupt_esp demo2 = ∅.
Proof. by vm_compute. Qed.
Lemma demo2_pc : g_pc demo2 = SITE.
Proof. by vm_compute. Qed.

Lemma ev_call_ok : event_ok demo_hash demo_fuel demo0 ([], ∅) ev_call.
Proof.
  intros _. split; [by apply machine_of_regs|apply at_kmalloc_ready|done|by intros e He|].
  intros _. exists SITE, 64, "kmalloc-XX"%string. split; [by vm_compute|simpl; unfold OBJ_NAME_LEN; lia].
Qed.

Lemma demo1_spec : spec_event demo_hash demo_fuel demo0 ev_call ([], ∅) = ([], pend1).
Proof. by vm_compute. Qed.

Lemma demo1_inv : inv demo1 ([], pend1).
Proof.
  destruct (step_ok demo_hash demo_fuel demo_fuel_ok ev_call demo0 _ demo0_inv ev_call_ok) as (s & Hs & Hinv).
  rewrite demo1_spec in Hinv. unfold demo1, next. by rewrite Hs.
Qed.

Lemma ev_return_ok : event_ok demo_hash demo_fuel demo1 ([], pend1) ev_return.
Proof.
  intros _. split; [by apply machine_of_regs|rewrite demo1_irq; apply at_return_ready|done| |done].
  intros e He. simpl in He. unfold pend1 in He. rewrite lookup_singleton_eq in He. injection He as <-.
  split_and!; [done..|by vm_compute|]. apply (bool_decide_unpack _). by vm_compute.
Qed.

Lemma demo2_spec : spec_event demo_hash demo_fuel demo1 ev_return ([], pend1) = ([demo_obj], ∅).
Proof. by vm_compute. Qed.

Lemma demo2_inv : inv demo2 ([demo_obj], ∅).
Proof.
  destruct (step_ok demo_hash demo_fuel demo_fuel_ok ev_return demo1 _ demo1_inv ev_return_ok) as (s & Hs & Hinv).
  rewrite demo2_spec in Hinv. unfold demo2, next. by rewrite Hs.
Qed.
