(* ===== verification/TracerTheorems.v ===== *)
(** * The properties of the tracer *)

From stdpp Require Import base gmap list strings.
From Stdlib Require Import ZArith Lia.
From S2P Require Import Prelude RbTree RbStore ObjStore Cpu Xed Guest Operand CallStack LibMap Tracer TracerInv TracerAccess TracerDemo.

Local Open Scope Z_scope.
Local Open Scope c_scope.

Section Theorems.
Context {T H : Type} `{!ObjTree T} `{!ObjTreeSpec T} `{!TaintMem H} `{!TaintMemSpec H}.
Context (hash_fn : string -> Z) (fuel : nat).


(** C16: a store into a live object adds one record to that object's accesses
    and to no other's: the call stack, whether the first byte was written since
    the allocation, the instruction and the offset; the bytes written, and no
    others, are then marked. A load adds the same record and marks nothing. An
    access outside the kernel's addresses or outside every live object changes
    nothing. *)
Theorem accesses_recorded m v a size (s : tracer T H) x :
  STACK_SIZE < Z.of_nat fuel -> inv s x -> in_range 32 a -> in_range 32 size ->
  (forall o, o ∈ x.1 -> o_covers o a = true -> KERNEL <= a -> stack_ready m (g_interrupt_esp s) (g_pc s) ->
     (exists s', helper_store hash_fn fuel m v a size s = Ok (tt, s') /\ inv s' x /\
        g_instances s' = with_access (o_key o) (access_of hash_fn fuel m s o a) (g_instances s) /\
        forall b, in_range 32 b ->
          taint_at (t_shadow s') b = if u32 (b - a) <? size then 1 else taint_at (t_shadow s) b) /\
     (exists s', helper_load hash_fn fuel m a size s = Ok (tt, s') /\ inv s' x /\
        g_instances s' = with_access (o_key o) (access_of hash_fn fuel m s o a) (g_instances s) /\
        t_shadow s' = t_shadow s)) /\
  (a < KERNEL \/ uncovered x.1 a ->
     helper_store hash_fn fuel m v a size s = Ok (tt, s) /\ helper_load hash_fn fuel m a size s = Ok (tt, s)).
Proof.
  intros Hfuel Hinv Ha Hsz. split.
  - intros o Ho Hc Hk Hr. split.
    + destruct (helper_store_covered hash_fn fuel Hfuel m v a size o s x Hinv Hr Ha Hsz Hk Ho Hc)
        as (s' & ? & ? & _ & ? & ? & _). by exists s'.
    + destruct (helper_load_covered hash_fn fuel Hfuel m a size o s x Hinv Hr Ha Hk Ho Hc)
        as (s' & ? & ? & _ & ? & ? & _). by exists s'.
  - by apply helper_access_uncovered.
Qed.

(** A store into an object followed by a load from it by the same
    instruction stream: both records are in the object's set, and the load's
    record says "written" exactly for the bytes of the store and those written
    before. *)
Theorem store_then_load m v a b size lsize o ps (s : tracer T H) x :
  STACK_SIZE < Z.of_nat fuel -> inv s x -> stack_ready m (g_interrupt_esp s) (g_pc s) ->
  in_range 32 a -> in_range 32 b -> in_range 32 size -> KERNEL <= a -> KERNEL <= b ->
  o ∈ x.1 -> o_covers o a = true -> o_covers o b = true ->
  g_instances s !! o_key o = Some (mkInstance (o_type o) (Some ps)) ->
  exists s1 s2, helper_store hash_fn fuel m v a size s = Ok (tt, s1) /\
    helper_load hash_fn fuel m b lsize s1 = Ok (tt, s2) /\
    g_instances s2 !! o_key o = Some (mkInstance (o_type o) (Some
      ({[ access_string (here hash_fn fuel m s)
            (if u32 (b - a) <? size then 1 else taint_at (t_shadow s) b) (g_pc s) (b - o_key o) ]} ∪
       ({[ access_of hash_fn fuel m s o a ]} ∪ ps)))).
Proof.
  intros Hfuel Hinv Hr Ha Hb Hsz Hka Hkb Ho Hca Hcb Hps.
  destruct (helper_store_covered hash_fn fuel Hfuel m v a size o s x Hinv Hr Ha Hsz Hka Ho Hca)
    as (s1 & Hrun1 & Hinv1 & _ & Htaint & Hi1 & Hq1 & Hp1).
  assert (stack_ready m (g_interrupt_esp s1) (g_pc s1)) as Hr1 by (by rewrite Hq1, Hp1).
  destruct (helper_load_covered hash_fn fuel Hfuel m b lsize o s1 x Hinv1 Hr1 Hb Hkb Ho Hcb)
    as (s2 & Hrun2 & _ & _ & _ & Hi2 & _).
  exists s1, s2. split_and!; [done..|]. rewrite Hi2. unfold with_access at 1. rewrite Hi1. unfold with_access.
  rewrite Hps, !lookup_insert_eq. unfold access_of, here. by rewrite Htaint, Hq1, Hp1 by done.
Qed.

(** C33: when the return address of an allocation is reached, the object is
    live: its addresses lead to it, its type is the hash of the call stack, no
    access is recorded for it and none of its bytes is marked as written. *)
Theorem allocation_fresh m pc e (s : tracer T H) x :
  STACK_SIZE < Z.of_nat fuel -> inv s x -> KERNEL_ADDR_MIN <= pc -> hook_ok hash_fn fuel m pc s x ->
  x.2 !! pc = Some e -> is_alloc pc = false -> frees m pc = None ->
  exists s', helper_hook hash_fn fuel m pc s = Ok (tt, s') /\
    let type := hash_fn (cs_of fuel m (g_interrupt_esp s) pc) in
    let o := mkObj (EAX m) (u32 (el_size e)) type pc in
    g_instances s' !! EAX m = Some (mkInstance type (Some ∅)) /\
    forall a, EAX m <= a < EAX m + u32 (el_size e) ->
      taint_at (t_shadow s') a = 0 /\ exists n, on_tree (tree_find a) s' = Ok (Some n, s') /\ node_obj n = o.
Proof.
  intros Hfuel Hinv Hpc Hok He Hal Hfr.
  destruct (helper_hook_ok hash_fn fuel Hfuel m pc s x Hinv (fun _ => Hok)) as (s' & Hrun & Hinv' & _ & Hpost).
  destruct (Hpost Hpc) as (_ & Hfresh & _). destruct (Hfresh e He) as [Hi Ht].
  destruct (hook_return _ _ _ _ _ _ Hok e He) as (Hea & _ & Hadm). destruct Hadm as (Hv & _ & _).
  destruct Hv as (Hv0 & Hv1 & Hv2). simpl in Hv0, Hv1, Hv2.
  exists s'. split; [done|]. cbv zeta. split; [by rewrite Hi, lookup_insert_eq|].
  intros a Hrange. assert (in_range 32 a) as Ha by lia. split.
  - rewrite Ht by done. rewrite u32_id by lia. destruct (Z.ltb_spec (a - EAX m) (u32 (el_size e))); [done|lia].
  - eapply find_covered; [exact Hinv'| |].
    + unfold spec_hook. destruct (Z.ltb_spec pc KERNEL_ADDR_MIN); [lia|]. unfold spec_call. rewrite Hal, Hfr. simpl.
      unfold frees in Hfr. destruct (pc =? VFREE); [done|]. rewrite Hfr. simpl. unfold spec_return. rewrite He. simpl.
      apply elem_of_ins. by left.
    + apply o_covers_valid; [by split_and!|done].
Qed.

(** C34: when an object is released with [kfree] or [kmem_cache_free], its
    accesses are printed under its type, its instance is gone and no address of it
    leads to an object any more. *)
Theorem release_reported m pc o ps (s : tracer T H) x :
  STACK_SIZE < Z.of_nat fuel -> inv s x -> KERNEL_ADDR_MIN <= pc -> hook_ok hash_fn fuel m pc s x ->
  o ∈ x.1 -> releases m pc = Some (o_key o) ->
  g_instances s !! o_key o = Some (mkInstance (o_type o) (Some ps)) ->
  exists s', helper_hook hash_fn fuel m pc s = Ok (tt, s') /\
    LInstance (o_type o) ps ∈ t_out s' /\ g_instances s' !! o_key o = None /\
    forall a, o_covers o a = true -> on_tree (tree_find a) s' = Ok (None, s').
Proof.
  intros Hfuel Hinv Hpc Hok Ho Hrel Hps.
  destruct (helper_hook_ok hash_fn fuel Hfuel m pc s x Hinv (fun _ => Hok)) as (s' & Hrun & Hinv' & _ & Hpost).
  destruct (Hpost Hpc) as (_ & _ & Hrl).
  pose proof (inv_objs _ _ Hinv) as [Hs Hv]. rewrite list.Forall_forall in Hv.
  destruct (Hrl _ Hrel) as [Hi Hprint].
  { exists o. split; [done|]. apply o_covers_valid; [by apply Hv|]. destruct (Hv o Ho) as (? & ? & ?). lia. }
  exists s'. split_and!; [done|by apply Hprint|by rewrite Hi, lookup_delete_eq|].
  intros a Ha. eapply find_uncovered; [exact Hinv'|].
  destruct (hook_release _ _ _ _ _ _ Hok _ Hrel) as [Hnone _].
  assert ((spec_hook m (hash_fn (cs_of fuel m (g_interrupt_esp s) pc)) pc x).1 =
    survivors (o_key o) (survivors (o_key o) x.1)) as ->.
  { unfold spec_hook. destruct (Z.ltb_spec pc KERNEL_ADDR_MIN); [lia|].
    unfold spec_return. rewrite Hrel. simpl. rewrite Hnone.
    unfold releases in Hrel. destruct (Z.eqb_spec pc KMEM_CACHE_FREE) as [->|_].
    - unfold spec_call, frees, releases. simpl. congruence.
    - destruct (Z.eqb_spec pc KFREE) as [->|_]; [|done]. unfold spec_call, frees, releases. simpl. congruence. }
  unfold uncovered. apply list.Forall_forall. intros o' Ho'.
  apply list_elem_of_filter in Ho' as [_ Ho']. apply list_elem_of_filter in Ho' as [Hnc Ho'].
  destruct (o_covers o' a) eqn:Hc; [|done].
  rewrite (covers_unique x.1 o' o a) in Hnc; [|by split; [|apply list.Forall_forall]|done..].
  assert (o_covers o (o_key o) = true) as Hk; [|congruence].
  apply o_covers_valid; [by apply Hv|]. destruct (Hv o Ho) as (? & ? & ?). lia.
Qed.

(** Releasing an address inside a live object that has no instance of its
    own stops the tracer at a null pointer. *)
Theorem interior_release_crashes m pc a (s : tracer T H) x :
  inv s x -> KERNEL_ADDR_MIN <= pc -> regs32 m -> releases m pc = Some a ->
  covered x.1 a -> g_instances s !! a = None ->
  helper_hook hash_fn fuel m pc s = Fault NullDeref.
Proof.
  intros Hinv Hpc Hm Hrel Hcov Hnone. unfold helper_hook. destruct (Z.ltb_spec pc KERNEL_ADDR_MIN); [lia|].
  unfold bind at 1. cbn [modify_t]. set (s0 := with_g_pc pc s).
  assert (inv s0 x) as Hinv0 by (by destruct Hinv; split).
  assert (release hash_fn fuel m a s0 = Fault NullDeref) as Hr.
  { destruct Hcov as (o & Ho & Hc). destruct (find_covered s0 x o a Hinv0 Ho Hc) as (n & Hf & _).
    unfold release. rewrite (bind_ok _ _ _ _ _ Hf). unfold delete_instance, bind. simpl. by rewrite Hnone. }
  unfold bind at 1, trace_delete. unfold releases in Hrel. destruct (pc =? KMEM_CACHE_FREE).
  - unfold get_kmem_cache_free_args. rewrite (bind_ok _ _ _ _ _ (get_reg_ok m XED_REG_EDX s0 Hm eq_refl)).
    injection Hrel as ->. by rewrite Hr.
  - destruct (pc =? KFREE); [|done].
    rewrite (bind_ok _ _ _ _ _ (get_reg_ok m XED_REG_EAX s0 Hm eq_refl)). injection Hrel as Ha. fold (EAX m).
    rewrite Ha. by rewrite Hr.
Qed.
End Theorems.

(** ** Instances of the hypotheses *)

Abbreviation demo_run := (run demo_hash demo_fuel).
Definition demo3 : tracer rb_state (Z -> Z) := demo_next ev_store demo2.
Definition demo4 : tracer rb_state (Z -> Z) := demo_next ev_load demo3.

Lemma demo3_here : g_interrupt_esp demo3 = ∅ /\ g_pc demo3 = SITE.
Proof. by vm_compute. Qed.
Lemma demo4_irq : g_interrupt_esp demo4 = ∅.
Proof. by vm_compute. Qed.

Lemma demo_free_ok (s : tracer rb_state (Z -> Z)) :
  g_interrupt_esp s = ∅ -> hook_ok demo_hash demo_fuel (at_kfree OBJ) KFREE s ([demo_obj], ∅).
Proof.
  intros Hs. split; [by apply machine_of_regs|rewrite Hs; by apply at_kfree_ready| |done|done].
  intros a [= <-]. split; [done|]. right. exists demo_obj. split; [set_solver|done].
Qed.

Lemma demo_guest_ok :
  guest_ok demo_hash demo_fuel demo0 ([], ∅) [ev_call; ev_return; ev_store; ev_load; ev_free].
Proof.
  cbn [guest_ok]. fold demo1. rewrite demo1_spec. fold demo2. rewrite demo2_spec. fold demo3 demo4. cbn [spec_event ev_store ev_load].
  split; [apply ev_call_ok|]. split; [apply ev_return_ok|].
  split; [|split; [|split; [|done]]].
  - split; [done|]. split; [done|]. intros _. rewrite demo2_irq, demo2_pc. apply at_return_ready.
  - split; [done|]. intros _. destruct demo3_here as [-> ->]. apply at_return_ready.
  - intros _. apply demo_free_ok, demo4_irq.
Qed.


Lemma demo_obj_in : demo_obj ∈ ([demo_obj], ∅ : gmap Z Elem1).1.
Proof. set_solver. Qed.

Lemma demo2_ready : stack_ready at_return (g_interrupt_esp demo2) (g_pc demo2).
Proof. rewrite demo2_irq, demo2_pc. apply at_return_ready. Qed.

Lemma obj_range k : 0 <= k < 64 -> in_range 32 (OBJ + k).
Proof. unfold OBJ. lia. Qed.

Lemma accesses_recorded_witness :
  exists s', helper_store demo_hash demo_fuel at_return 7 (OBJ + 4) 4 demo2 = Ok (tt, s') /\
    g_instances s' = with_access OBJ "8:0:c1111111:4" (g_instances demo2) /\
    t_shadow s' (OBJ + 7) = 1 /\ t_shadow s' (OBJ + 8) = 0.
Proof.
  destruct (accesses_recorded demo_hash demo_fuel at_return 7 (OBJ + 4) 4 demo2 ([demo_obj], ∅)
    demo_fuel_ok demo2_inv ltac:(done) ltac:(done)) as [Hcov _].
  destruct (Hcov demo_obj demo_obj_in eq_refl ltac:(done) demo2_ready) as [(s' & Hrun & _ & Hi & Ht) _].
  exists s'. split; [exact Hrun|].
  assert (access_of demo_hash demo_fuel at_return demo2 demo_obj (OBJ + 4) = "8:0:c1111111:4"%string) as Hs
    by (by vm_compute).
  rewrite Hs in Hi. split; [exact Hi|].
  assert (t_shadow demo2 (OBJ + 8) = 0) as H8 by (by vm_compute).
  pose proof (Ht (OBJ + 7) (obj_range 7 ltac:(lia))) as Hin. pose proof (Ht (OBJ + 8) (obj_range 8 ltac:(lia))) as Hout.
  change (u32 (OBJ + 7 - (OBJ + 4)) <? 4) with true in Hin.
  change (u32 (OBJ + 8 - (OBJ + 4)) <? 4) with false in Hout.
  split; [exact Hin|]. rewrite <-H8. exact Hout.
Defined.

Lemma store_then_load_witness :
  exists s1 s2, helper_store demo_hash demo_fuel at_return 7 (OBJ + 4) 4 demo2 = Ok (tt, s1) /\
    helper_load demo_hash demo_fuel at_return (OBJ + 6) 4 s1 = Ok (tt, s2) /\
    g_instances s2 !! OBJ = Some (mkInstance 8 (Some ({[ "8:1:c1111111:6"%string ]} ∪ ({[ "8:0:c1111111:4"%string ]} ∪ ∅)))).
Proof.
  destruct (store_then_load demo_hash demo_fuel at_return 7 (OBJ + 4) (OBJ + 6) 4 4 demo_obj ∅ demo2 ([demo_obj], ∅)
    demo_fuel_ok demo2_inv demo2_ready ltac:(done) ltac:(done) ltac:(done) ltac:(done) ltac:(done) demo_obj_in
    eq_refl eq_refl ltac:(by vm_compute)) as (s1 & s2 & Hrun1 & Hrun2 & Hi).
  exists s1, s2. split; [exact Hrun1|]. split; [exact Hrun2|].
  assert (access_of demo_hash demo_fuel at_return demo2 demo_obj (OBJ + 4) = "8:0:c1111111:4"%string) as Hs
    by (by vm_compute).
  assert (access_string (here demo_hash demo_fuel at_return demo2) 1 (g_pc demo2) 6 = "8:1:c1111111:6"%string) as Hl
    by (by vm_compute).
  change (u32 (OBJ + 6 - (OBJ + 4)) <? 4) with true in Hi. change (OBJ + 6 - o_key demo_obj) with 6 in Hi.
  rewrite Hs, Hl in Hi. exact Hi.
Defined.

Lemma site_kernel : KERNEL_ADDR_MIN <= SITE.
Proof. done. Qed.

Lemma allocation_fresh_witness :
  exists s', helper_hook demo_hash demo_fuel at_return SITE demo1 = Ok (tt, s') /\
    g_instances s' !! OBJ = Some (mkInstance 8 (Some ∅)) /\ taint_at (t_shadow s') (OBJ + 63) = 0.
Proof.
  destruct (allocation_fresh demo_hash demo_fuel at_return SITE (mkElem1 "kmalloc-XX" 64 None 0) demo1 ([], pend1)
    demo_fuel_ok demo1_inv site_kernel (ev_return_ok site_kernel) eq_refl eq_refl eq_refl) as (s' & Hrun & Hi & Hobj).
  exists s'. split; [exact Hrun|].
  assert (demo_hash (cs_of demo_fuel at_return (g_interrupt_esp demo1) SITE) = 8) as Ht by (by vm_compute).
  rewrite Ht in Hi. split; [exact Hi|]. apply (Hobj (OBJ + 63)).
  change (EAX at_return) with OBJ. change (u32 (el_size _)) with 64. lia.
Defined.

Lemma release_reported_witness :
  exists s', helper_hook demo_hash demo_fuel (at_kfree OBJ) KFREE demo2 = Ok (tt, s') /\
    LInstance 8 ∅ ∈ t_out s' /\ g_instances s' !! OBJ = None.
Proof.
  destruct (release_reported demo_hash demo_fuel (at_kfree OBJ) KFREE demo_obj ∅ demo2 ([demo_obj], ∅)
    demo_fuel_ok demo2_inv ltac:(done) (demo_free_ok demo2 demo2_irq) demo_obj_in eq_refl ltac:(by vm_compute))
    as (s' & Hrun & Hp & Hi & _).
  exists s'. by split_and!.
Defined.

Lemma interior_release_crashes_witness :
  helper_hook demo_hash demo_fuel (at_kfree (OBJ + 8)) KFREE demo2 = Fault NullDeref.
Proof.
  apply (interior_release_crashes demo_hash demo_fuel (at_kfree (OBJ + 8)) KFREE (OBJ + 8) demo2 ([demo_obj], ∅));
    [apply demo2_inv|done|by apply machine_of_regs|done|exists demo_obj; split; [apply demo_obj_in|done]|by vm_compute].
Defined.

(** [vfree] removes the object from the tree but leaves its instance behind. *)
Lemma vfree_leaves_instance :
  match helper_hook demo_hash demo_fuel (at_kfree OBJ) VFREE demo2 with
  | Ok (_, s') => g_instances s' !! OBJ = Some (mkInstance 8 (Some ∅)) /\ base.size (heap (t_tree s')) = 1%nat
  | _ => False
  end.
Proof. by vm_compute. Qed.

(** ** The records *)

(** The text recorded for an access determines it: two accesses with the
    same text have the same call stack hash, written flag, instruction and
    offset. *)
Theorem access_text_unique h1 t1 f1 o1 h2 t2 f2 o2 :
  Forall (fun v => in_range 64 v) [h1; t1; f1; o1; h2; t2; f2; o2] ->
  access_string h1 t1 f1 o1 = access_string h2 t2 f2 o2 -> h1 = h2 /\ t1 = t2 /\ f1 = f2 /\ o1 = o2.
Proof.
  rewrite !list.Forall_cons. intros (Hh1 & Ht1 & Hf1 & Ho1 & Hh2 & Ht2 & Hf2 & Ho2 & _) Heq.
  unfold access_string in Heq.
  apply digits_sep in Heq as [Hh Heq]; [|apply hex_digits..|done].
  apply digits_sep in Heq as [Ht Heq]; [|apply hex_digits..|done].
  apply digits_sep in Heq as [Hf Ho]; [|apply hex_digits..|done].
  by repeat split; apply hex_inj.
Qed.

Lemma access_text_unique_witness :
  access_string 8 0 0xc1111111 4 = "8:0:c1111111:4"%string /\
  (access_string 8 0 0xc1111111 4 = access_string 8 0 0xc1111111 4 -> 4 = 4).
Proof.
  split; [reflexivity|]. intros Heq.
  by destruct (access_text_unique 8 0 0xc1111111 4 8 0 0xc1111111 4
    ltac:(repeat constructor; lia) Heq) as (_ & _ & _ & ?).
Defined.
