(* ===== verification/Seg.v ===== *)
(** * Segments

    The first half of target-i386/seg_helper.c for the 32-bit target: descriptors,
    the segment registers with their hidden part and the flags derived from it
    (cpu.h), loading of segment registers, and the instructions that inspect a
    selector. Descriptor tables and stacks are read and written through the MMU,
    which is an interface here; an implementation is in file SoftMmu. *)

From stdpp Require Import base list.
From Stdlib Require Import ZArith Lia.
From S2P Require Import Prelude Cpu CcHelper Excp Guest.

Local Open Scope Z_scope.

(** ** Helpers that access guest memory

    They return, leave through the main loop after raising an exception, exit to
    the monitor of an SVM guest, or stop the emulator ([cpu_abort], or behaviour
    the language does not define). *)

Inductive kres (G A : Type) : Type :=
| KRet (a : A) (env : CPUX86State) (g : G)
| KExit (env : CPUX86State) (g : G)
| KVmexit (code info : Z) (env : CPUX86State) (g : G)
| KAbort.
Arguments KRet {G A} a env g.
Arguments KExit {G A} env g.
Arguments KVmexit {G A} code info env g.
Arguments KAbort {G A}.

Definition K (G A : Type) : Type := CPUX86State -> G -> kres G A.

Definition kret {G A} (a : A) : K G A := fun env g => KRet a env g.
Definition kbind {G A B} (m : K G A) (k : A -> K G B) : K G B :=
  fun env g =>
    match m env g with
    | KRet a env' g' => k a env' g'
    | KExit env' g' => KExit env' g'
    | KVmexit c i env' g' => KVmexit c i env' g'
    | KAbort => KAbort
    end.
Definition kget {G} : K G CPUX86State := fun env g => KRet env env g.
Definition kmod {G} (f : CPUX86State -> CPUX86State) : K G unit := fun env g => KRet tt (f env) g.
Definition kabort {G A} : K G A := fun _ _ => KAbort.
Definition kmem {G} (f : G -> G) : K G unit := fun env g => KRet tt env (f g).

(** A helper that does not access memory. *)
Definition lift {G A} (m : X A) : K G A :=
  fun env g =>
    match m env with
    | XRet a env' => KRet a env' g
    | XLoopExit env' => KExit env' g
    | XVmexit c i env' => KVmexit c i env' g
    | XHostTrap => KAbort
    end.

Declare Scope k_scope.
Delimit Scope k_scope with k.
Notation "a <- m ;; k" := (kbind m (fun a => k))
  (at level 100, m at next level, right associativity) : k_scope.
Notation "m ;; k" := (kbind m (fun _ => k))
  (at level 100, right associativity) : k_scope.
Local Open Scope k_scope.

Definition raise {G A} (index err : Z) : K G A := lift (raise_exception_err index err).
(** [if (b) raise_exception_err(env, index, err);] *)
Definition raise_if {G} (b : bool) (index err : Z) : K G unit := if b then raise index err else kret tt.

Definition EXCP0A_TSS : Z := 10.
Definition EXCP0B_NOSEG : Z := 11.
Definition EXCP0C_STACK : Z := 12.
Definition EXCP0D_GPF : Z := 13.

(** ** The MMU

    Loads and stores of 1, 2 or 4 bytes through the TLB for a mode of access, and
    the operations on the TLB; loads and stores of 4 bytes at physical
    addresses. *)

Class SoftMmu (G : Type) : Type := {
  mmu_load : Z -> nat -> Z -> K G Z;
  mmu_store : Z -> nat -> Z -> Z -> K G unit;
  tlb_flush : G -> G;
  tlb_flush_page : Z -> G -> G;
  ldl_mem : Z -> G -> Z;
  stl_mem : Z -> Z -> G -> G
}.

Definition HF_SMAP_MASK : Z := Z.shiftl 1 23.
Definition HF2_NMI_MASK : Z := 4.
Definition IOPL_SHIFT : Z := 12.
Definition KERNEL_IDX : Z := 0.
Definition USER_IDX : Z := 1.
Definition KSMAP_IDX : Z := 2.

Definition cpu_mmu_index (env : CPUX86State) : Z :=
  if Z.land (hflags env) HF_CPL_MASK =? 3 then USER_IDX
  else if has (hflags env) HF_SMAP_MASK && has (eflags env) AC_MASK then KSMAP_IDX else KERNEL_IDX.

Section Access.
Context {G : Type} `{!SoftMmu G}.

Definition cpu_ldub_kernel (a : Z) : K G Z := mmu_load KERNEL_IDX 1 (u32 a).
Definition cpu_lduw_kernel (a : Z) : K G Z := mmu_load KERNEL_IDX 2 (u32 a).
Definition cpu_ldl_kernel (a : Z) : K G Z := mmu_load KERNEL_IDX 4 (u32 a).
Definition cpu_stb_kernel (a v : Z) : K G unit := mmu_store KERNEL_IDX 1 (u32 a) v.
Definition cpu_stw_kernel (a v : Z) : K G unit := mmu_store KERNEL_IDX 2 (u32 a) v.
Definition cpu_stl_kernel (a v : Z) : K G unit := mmu_store KERNEL_IDX 4 (u32 a) v.
Definition cpu_lduw_data (a : Z) : K G Z := env <- kget ;; mmu_load (cpu_mmu_index env) 2 (u32 a).
Definition cpu_ldl_data (a : Z) : K G Z := env <- kget ;; mmu_load (cpu_mmu_index env) 4 (u32 a).
Definition cpu_stw_data (a v : Z) : K G unit := env <- kget ;; mmu_store (cpu_mmu_index env) 2 (u32 a) v.
Definition cpu_stl_data (a v : Z) : K G unit := env <- kget ;; mmu_store (cpu_mmu_index env) 4 (u32 a) v.
End Access.

(** ** Descriptors *)

Definition dpl_of (e2 : Z) : Z := Z.land (Z.shiftr e2 13) 3.
Definition type_of (e2 : Z) : Z := Z.land (Z.shiftr e2 8) 0xf.

Definition get_seg_limit (e1 e2 : Z) : Z :=
  let limit := Z.lor (Z.land e1 0xffff) (Z.land e2 0x000f0000) in
  if has e2 DESC_G_MASK then Z.lor (u32 (Z.shiftl limit 12)) 0xfff else limit.

Definition get_seg_base (e1 e2 : Z) : Z :=
  Z.lor (Z.lor (Z.shiftr e1 16) (Z.shiftl (Z.land e2 0xff) 16)) (Z.land e2 0xff000000).

Definition load_seg_cache_raw_dt (e1 e2 : Z) (sc : SegmentCache) : SegmentCache :=
  mkSeg (selector sc) (get_seg_base e1 e2) (get_seg_limit e1 e2) e2.

Definition get_sp_mask (e2 : Z) : Z := if has e2 DESC_B_MASK then 0xffffffff else 0xffff.

(** ** Segment registers *)

Definition R_EBX : nat := 3.
Definition R_ESP : nat := 4.
Definition R_EBP : nat := 5.
Definition R_ESI : nat := 6.
Definition R_EDI : nat := 7.
Definition R_ES : nat := 0.
Definition R_CS : nat := 1.
Definition R_SS : nat := 2.
Definition R_DS : nat := 3.
Definition R_FS : nat := 4.
Definition R_GS : nat := 5.

Definition seg (env : CPUX86State) (r : nat) : SegmentCache := nth r (segs env) seg0.
Definition set_seg (r : nat) (sc : SegmentCache) (env : CPUX86State) : CPUX86State :=
  with_segs (<[r := sc]> (segs env)) env.
Definition put_reg (r : nat) (v : Z) (env : CPUX86State) : CPUX86State :=
  with_regs (<[r := u32 v]> (regs env)) env.

(** [~m] on 32 bits *)
Definition not32 (m : Z) : Z := u32 (Z.lnot m).

(** The hidden flags that follow from the segment registers: whether code and
    stack are 32 bits wide, and whether a base has to be added to addresses. *)
Definition sync_cs32 (env : CPUX86State) : CPUX86State :=
  let new_hflags := Z.shiftr (Z.land (sflags (seg env R_CS)) DESC_B_MASK) (22 - 4) in
  with_hflags (Z.lor (Z.land (hflags env) (not32 (Z.lor HF_CS32_MASK HF_CS64_MASK))) new_hflags) env.

Definition sync_ss32 (env : CPUX86State) : CPUX86State :=
  let new_hflags := Z.shiftr (Z.land (sflags (seg env R_SS)) DESC_B_MASK) (22 - 5) in
  let new_hflags :=
    if has (hflags env) HF_CS64_MASK then new_hflags
    else if negb (has (nth 0 (cr env) 0) CR0_PE_MASK) || has (eflags env) VM_MASK
            || negb (has (hflags env) HF_CS32_MASK)
    then Z.lor new_hflags HF_ADDSEG_MASK
    else Z.lor new_hflags
           (Z.shiftl (b2z (negb (Z.lor (Z.lor (base (seg env R_DS)) (base (seg env R_ES)))
                                       (base (seg env R_SS)) =? 0))) 6) in
  with_hflags (Z.lor (Z.land (hflags env) (not32 (Z.lor HF_SS32_MASK HF_ADDSEG_MASK))) new_hflags) env.

Definition cpu_x86_load_seg_cache (seg_reg : nat) (sel bas lim fl : Z) (env : CPUX86State) : CPUX86State :=
  let env := set_seg seg_reg (mkSeg (u32 sel) (u32 bas) (u32 lim) (u32 fl)) env in
  let env := if (seg_reg =? R_CS)%nat then sync_cs32 env else env in
  sync_ss32 env.

Definition cpl_of (env : CPUX86State) : Z := Z.land (hflags env) HF_CPL_MASK.
Definition cpu_x86_set_cpl (cpl : Z) (env : CPUX86State) : CPUX86State :=
  with_hflags (Z.lor (Z.land (hflags env) (not32 HF_CPL_MASK)) cpl) env.

(** In real and vm86 mode. *)
Definition load_seg_vm (r : nat) (sel : Z) (env : CPUX86State) : CPUX86State :=
  let sel := Z.land sel 0xffff in
  cpu_x86_load_seg_cache r sel (Z.shiftl sel 4) 0xffff 0 env.

(** Selector and base written without the rest (real mode). *)
Definition set_cs_real (sel : Z) (env : CPUX86State) : CPUX86State :=
  set_seg R_CS (mkSeg (u32 sel) (u32 (Z.shiftl sel 4)) (limit (seg env R_CS)) (sflags (seg env R_CS))) env.

(** The macro [SET_ESP]. *)
Definition SET_ESP (val sp_mask : Z) (env : CPUX86State) : CPUX86State :=
  put_reg R_ESP (Z.lor (Z.land (reg env R_ESP) (not32 sp_mask)) (Z.land val sp_mask)) env.

(** ** Loading segments *)

Section Load.
Context {G : Type} `{!SoftMmu G}.

Definition desc_table (env : CPUX86State) (sel : Z) : SegmentCache :=
  if has sel 4 then ldt env else gdt env.

(** The two words of the descriptor, or [None] beyond the limit of the table. *)
Definition load_segment (sel : Z) : K G (option (Z * Z)) :=
  env <- kget ;;
  let dt := desc_table env sel in
  let index := Z.land sel (Z.lnot 7) in
  if limit dt <? u32 (index + 7) then kret None
  else
    let ptr := u32 (base dt + index) in
    e1 <- cpu_ldl_kernel ptr ;;
    e2 <- cpu_ldl_kernel (ptr + 4) ;;
    kret (Some (e1, e2)).

(** [if (load_segment(...) != 0) raise_exception_err(env, index, err);] *)
Definition need_segment (sel index err : Z) : K G (Z * Z) :=
  d <- load_segment sel ;;
  match d with Some e => kret e | None => raise index err end.

Definition rpl_of (sel : Z) : Z := Z.land sel 3.
Definition null_sel (sel : Z) : bool := Z.land sel 0xfffc =? 0.

Definition load_desc (r : nat) (sel e1 e2 : Z) : CPUX86State -> CPUX86State :=
  cpu_x86_load_seg_cache r sel (get_seg_base e1 e2) (get_seg_limit e1 e2) e2.

(** The checks of [helper_load_seg] on a descriptor, before its presence. *)
Definition load_seg_rights (seg_reg : nat) (cpl sel e2 : Z) : K G unit :=
  let err := Z.land sel 0xfffc in
  let rpl := rpl_of sel in
  let dpl := dpl_of e2 in
  if (seg_reg =? R_SS)%nat then
    raise_if (has e2 DESC_CS_MASK || negb (has e2 DESC_W_MASK)) EXCP0D_GPF err ;;
    raise_if (negb (rpl =? cpl) || negb (dpl =? cpl)) EXCP0D_GPF err
  else
    raise_if (Z.land e2 (Z.lor DESC_CS_MASK DESC_R_MASK) =? DESC_CS_MASK) EXCP0D_GPF err ;;
    if negb (has e2 DESC_CS_MASK) || negb (has e2 DESC_C_MASK)
    then raise_if ((dpl <? cpl) || (dpl <? rpl)) EXCP0D_GPF err
    else kret tt.

Definition helper_load_seg (seg_reg : nat) (sel : Z) : K G unit :=
  let sel := Z.land sel 0xffff in
  let err := Z.land sel 0xfffc in
  env <- kget ;;
  let cpl := cpl_of env in
  if null_sel sel then
    raise_if (seg_reg =? R_SS)%nat EXCP0D_GPF 0 ;;
    kmod (cpu_x86_load_seg_cache seg_reg sel 0 0 0)
  else
    let dt := desc_table env sel in
    let index := Z.land sel (Z.lnot 7) in
    raise_if (limit dt <? u32 (index + 7)) EXCP0D_GPF err ;;
    let ptr := u32 (base dt + index) in
    e1 <- cpu_ldl_kernel ptr ;;
    e2 <- cpu_ldl_kernel (ptr + 4) ;;
    raise_if (negb (has e2 DESC_S_MASK)) EXCP0D_GPF err ;;
    load_seg_rights seg_reg cpl sel e2 ;;
    raise_if (negb (has e2 DESC_P_MASK))
      (if (seg_reg =? R_SS)%nat then EXCP0C_STACK else EXCP0B_NOSEG) err ;;
    e2 <- (if negb (has e2 DESC_A_MASK)
           then cpu_stl_kernel (ptr + 4) (Z.lor e2 DESC_A_MASK) ;; kret (Z.lor e2 DESC_A_MASK)
           else kret e2) ;;
    kmod (load_desc seg_reg sel e1 e2).

Definition with_ldt_selector (sel : Z) (env : CPUX86State) : CPUX86State :=
  with_ldt (mkSeg sel (base (ldt env)) (limit (ldt env)) (sflags (ldt env))) env.
Definition with_tr_selector (sel : Z) (env : CPUX86State) : CPUX86State :=
  with_tr (mkSeg sel (base (tr env)) (limit (tr env)) (sflags (tr env))) env.

Definition helper_lldt (sel : Z) : K G unit :=
  let sel := Z.land sel 0xffff in
  let err := Z.land sel 0xfffc in
  (if null_sel sel then
     kmod (fun env => with_ldt (mkSeg (selector (ldt env)) 0 0 (sflags (ldt env))) env)
   else
     raise_if (has sel 4) EXCP0D_GPF err ;;
     env <- kget ;;
     let index := Z.land sel (Z.lnot 7) in
     raise_if (limit (gdt env) <? u32 (index + 7)) EXCP0D_GPF err ;;
     let ptr := u32 (base (gdt env) + index) in
     e1 <- cpu_ldl_kernel ptr ;;
     e2 <- cpu_ldl_kernel (ptr + 4) ;;
     raise_if (has e2 DESC_S_MASK || negb (type_of e2 =? 2)) EXCP0D_GPF err ;;
     raise_if (negb (has e2 DESC_P_MASK)) EXCP0B_NOSEG err ;;
     kmod (fun env => with_ldt (load_seg_cache_raw_dt e1 e2 (ldt env)) env)) ;;
  kmod (with_ldt_selector sel).

Definition helper_ltr (sel : Z) : K G unit :=
  let sel := Z.land sel 0xffff in
  let err := Z.land sel 0xfffc in
  (if null_sel sel then
     kmod (fun env => with_tr (mkSeg (selector (tr env)) 0 0 0) env)
   else
     raise_if (has sel 4) EXCP0D_GPF err ;;
     env <- kget ;;
     let index := Z.land sel (Z.lnot 7) in
     raise_if (limit (gdt env) <? u32 (index + 7)) EXCP0D_GPF err ;;
     let ptr := u32 (base (gdt env) + index) in
     e1 <- cpu_ldl_kernel ptr ;;
     e2 <- cpu_ldl_kernel (ptr + 4) ;;
     let type := type_of e2 in
     raise_if (has e2 DESC_S_MASK || (negb (type =? 1) && negb (type =? 9))) EXCP0D_GPF err ;;
     raise_if (negb (has e2 DESC_P_MASK)) EXCP0B_NOSEG err ;;
     kmod (fun env => with_tr (load_seg_cache_raw_dt e1 e2 (tr env)) env) ;;
     cpu_stl_kernel (ptr + 4) (Z.lor e2 DESC_TSS_BUSY_MASK)) ;;
  kmod (with_tr_selector sel).

(** A segment register of a new task. *)
Definition tss_load_rights (seg_reg : nat) (cpl sel e2 : Z) : K G unit :=
  let err := Z.land sel 0xfffc in
  let rpl := rpl_of sel in
  let dpl := dpl_of e2 in
  if (seg_reg =? R_CS)%nat then
    raise_if (negb (has e2 DESC_CS_MASK)) EXCP0A_TSS err ;;
    raise_if (negb (dpl =? rpl)) EXCP0A_TSS err ;;
    raise_if (has e2 DESC_C_MASK && (rpl <? dpl)) EXCP0A_TSS err
  else if (seg_reg =? R_SS)%nat then
    raise_if (has e2 DESC_CS_MASK || negb (has e2 DESC_W_MASK)) EXCP0A_TSS err ;;
    raise_if (negb (dpl =? cpl) || negb (dpl =? rpl)) EXCP0A_TSS err
  else
    raise_if (has e2 DESC_CS_MASK && negb (has e2 DESC_R_MASK)) EXCP0A_TSS err ;;
    if type_of e2 <? 12
    then raise_if ((dpl <? cpl) || (dpl <? rpl)) EXCP0A_TSS err
    else kret tt.

Definition tss_load_seg (seg_reg : nat) (sel : Z) : K G unit :=
  let err := Z.land sel 0xfffc in
  if negb (null_sel sel) then
    e <- need_segment sel EXCP0A_TSS err ;;
    let '(e1, e2) := e in
    raise_if (negb (has e2 DESC_S_MASK)) EXCP0A_TSS err ;;
    env <- kget ;;
    tss_load_rights seg_reg (cpl_of env) sel e2 ;;
    raise_if (negb (has e2 DESC_P_MASK)) EXCP0B_NOSEG err ;;
    kmod (load_desc seg_reg sel e1 e2)
  else raise_if ((seg_reg =? R_SS)%nat || (seg_reg =? R_CS)%nat) EXCP0A_TSS err.

(** A return to an outer level gives up the segments it may not use there. *)
Definition validate_seg (seg_reg : nat) (cpl : Z) (env : CPUX86State) : CPUX86State :=
  if ((seg_reg =? R_FS)%nat || (seg_reg =? R_GS)%nat) && null_sel (selector (seg env seg_reg)) then env
  else
    let e2 := sflags (seg env seg_reg) in
    if (negb (has e2 DESC_CS_MASK) || negb (has e2 DESC_C_MASK)) && (dpl_of e2 <? cpl)
    then cpu_x86_load_seg_cache seg_reg 0 0 0 0 env else env.

(** ** Instructions that inspect a selector

    Success is reported in the zero flag; [fail] is the common exit of the
    failures. *)

Definition set_zf (fl : Z) (ok : bool) : K G unit :=
  kmod (fun env => with_cc_src (if ok then Z.lor fl CC_Z else Z.land fl (not32 CC_Z)) env).

Definition inspect {A} (check : Z -> Z -> Z -> bool) (val : Z -> Z -> A) (none : A) (selector1 : Z) : K G A :=
  let sel := Z.land selector1 0xffff in
  env <- kget ;;
  let fl := cpu_cc_compute_all env (cc_op env) in
  if null_sel sel then set_zf fl false ;; kret none
  else
    d <- load_segment sel ;;
    match d with
    | None => set_zf fl false ;; kret none
    | Some (e1, e2) =>
        if check (cpl_of env) (rpl_of sel) e2
        then set_zf fl true ;; kret (val e1 e2)
        else set_zf fl false ;; kret none
    end.

Definition outer (cpl rpl e2 : Z) : bool := negb ((dpl_of e2 <? cpl) || (dpl_of e2 <? rpl)).
Definition conforming (e2 : Z) : bool := has e2 DESC_CS_MASK && has e2 DESC_C_MASK.
Definition one_of (l : list Z) (x : Z) : bool := existsb (Z.eqb x) l.

Definition helper_lsl : Z -> K G Z :=
  inspect (fun cpl rpl e2 =>
    if has e2 DESC_S_MASK then conforming e2 || outer cpl rpl e2
    else one_of [1; 2; 3; 9; 11] (type_of e2) && outer cpl rpl e2) get_seg_limit 0.

Definition helper_lar : Z -> K G Z :=
  inspect (fun cpl rpl e2 =>
    if has e2 DESC_S_MASK then conforming e2 || outer cpl rpl e2
    else one_of [1; 2; 3; 4; 5; 9; 11; 12] (type_of e2) && outer cpl rpl e2)
    (fun _ e2 => Z.land e2 0x00f0ff00) 0.

Definition helper_verr : Z -> K G unit :=
  inspect (fun cpl rpl e2 =>
    has e2 DESC_S_MASK &&
    (if has e2 DESC_CS_MASK
     then has e2 DESC_R_MASK && (has e2 DESC_C_MASK || outer cpl rpl e2)
     else outer cpl rpl e2)) (fun _ _ => tt) tt.

Definition helper_verw : Z -> K G unit :=
  inspect (fun cpl rpl e2 =>
    has e2 DESC_S_MASK && negb (has e2 DESC_CS_MASK) && outer cpl rpl e2 && has e2 DESC_W_MASK)
    (fun _ _ => tt) tt.
End Load.
