(* ===== verification/SegSpec.v ===== *)
(** * Reasoning about segmentation

    What the helpers rely on from the MMU, a program logic for helpers that do
    not touch the CPU state before they are done ([qat], [kat]), and the effect of
    loading a segment register. *)

From stdpp Require Import base list.
From Stdlib Require Import ZArith Lia.
From S2P Require Import Prelude Cpu CcHelper Excp Guest Seg.

Local Open Scope Z_scope.
Local Open Scope k_scope.

(** ** States that differ in the pending exception only

    An exception leaves its number, its error code and, for a page fault, the
    address in [cr2]; everything else is the architectural state. *)

Definition erase_exception (env : CPUX86State) : CPUX86State :=
  with_cr (<[2%nat := 0]> (cr env))
    (with_error_code 0 (with_exception_is_int 0 (with_exception_next_eip 0
      (with_exception_index 0 (with_old_exception 0 (with_reset_requested false env)))))).

Definition same_arch (env env' : CPUX86State) : Prop := erase_exception env = erase_exception env'.

#[export] Instance same_arch_equiv : Equivalence same_arch.
Proof. split; [by intros ?|by intros ??|intros ???; apply eq_trans]. Qed.

Section Fields.
Context (env env' : CPUX86State) (H : same_arch env env').
Lemma same_hflags : hflags env' = hflags env. Proof. by injection H. Qed.
Lemma same_segs : segs env' = segs env. Proof. by injection H. Qed.
Lemma same_regs : regs env' = regs env. Proof. by injection H. Qed.
Lemma same_eflags : eflags env' = eflags env. Proof. by injection H. Qed.
Lemma same_eip : eip env' = eip env. Proof. by injection H. Qed.
Lemma same_cr0 : nth 0 (cr env') 0 = nth 0 (cr env) 0.
Proof.
  assert (<[2%nat := 0]> (cr env) = <[2%nat := 0]> (cr env')) as Hc by (by injection H).
  by destruct (cr env), (cr env'); simplify_eq/=.
Qed.
End Fields.

(** An exception changes nothing else. *)
Definition no_arch_change {A} (env : CPUX86State) (r : xres A) : Prop :=
  match r with
  | XRet _ env' | XLoopExit env' | XVmexit _ _ env' => same_arch env env'
  | XHostTrap => True
  end.

Lemma raise_arch {A} index err env : no_arch_change env (raise_exception_err (A := A) index err env).
Proof.
  unfold raise_exception_err, raise_interrupt2, svm_check_exception, check_exception, xbind, xget, xret, vmexit.
  cbn [negb]. destruct (in_svm env && _); [done|]. destruct (old_exception env =? _).
  - destruct (in_svm env); [done|]. by destruct env.
  - destruct (_ || _); destruct (_ || _ || _); by destruct env.
Qed.

(** ** What the helpers rely on *)

(** A load or store either succeeds without changing the CPU, or raises a page
    fault. *)
Definition access_ok {G A} (env : CPUX86State) (r : kres G A) (Q : A -> Prop) : Prop :=
  match r with
  | KRet a env' _ => env' = env /\ Q a
  | KExit env' _ | KVmexit _ _ env' _ => same_arch env env'
  | KAbort => True
  end.

Class SoftMmuSpec (G : Type) `{!SoftMmu G} : Prop := {
  mmu_load_ok idx n a env g : access_ok env (mmu_load idx n a env g) (fun v => in_range (8 * Z.of_nat n) v);
  mmu_store_ok idx n a v env g : access_ok env (mmu_store idx n a v env g) (fun _ => True)
}.

(** ** A logic for helpers

    [qat env m Q]: run in [env], [m] leaves the CPU as it was, up to the exception
    it may raise, and returns a value that satisfies [Q]. [kspec env m Q E]: the
    value and the new state satisfy [Q], a state left by an exception [E].
    [kat env m Q]: exceptions leave the CPU as it was. *)

Definition qat {G A} (env : CPUX86State) (m : K G A) (Q : A -> Prop) : Prop :=
  forall g, access_ok env (m env g) Q.

Definition kspec {G A} (env : CPUX86State) (m : K G A) (Q : A -> CPUX86State -> Prop) (E : CPUX86State -> Prop) : Prop :=
  forall g, match m env g with
            | KRet a env' _ => Q a env'
            | KExit env' _ | KVmexit _ _ env' _ => E env'
            | KAbort => True
            end.

Abbreviation kat env m Q := (kspec env m Q (same_arch env)).

Section Logic.
Context {G : Type}.
Implicit Types (env : CPUX86State) (g : G).

Lemma kbind_ret {A B} (m : K G A) (k : A -> K G B) env g a env1 g1 :
  m env g = KRet a env1 g1 -> kbind m k env g = k a env1 g1.
Proof. intros H. unfold kbind. by rewrite H. Qed.

Lemma kbind_inv {A B} (m : K G A) (k : A -> K G B) env g b env' g' :
  kbind m k env g = KRet b env' g' -> exists a env1 g1, m env g = KRet a env1 g1 /\ k a env1 g1 = KRet b env' g'.
Proof. unfold kbind. destruct (m env g) as [a env1 g1| | |]; [|done..]. intros H. by exists a, env1, g1. Qed.

Lemma qat_ret_inv {A} (m : K G A) (Q : A -> Prop) env g a env1 g1 :
  qat env m Q -> m env g = KRet a env1 g1 -> env1 = env /\ Q a.
Proof. intros H E. specialize (H g). by rewrite E in H. Qed.

Lemma kbind_raise {A B} (k : A -> K G B) index err env g : kbind (raise index err) k env g = raise index err env g.
Proof.
  unfold kbind, raise, lift, raise_exception_err, raise_interrupt2, xbind.
  cbn [negb]. destruct (svm_check_exception index err env) as [[] env1| | |]; [|done..].
  by destruct (check_exception index err env1) as [[i e] env2| | |].
Qed.

Lemma kbind_assoc {A B C} (m : K G A) (k : A -> K G B) (k' : B -> K G C) env g :
  kbind (kbind m k) k' env g = kbind m (fun a => kbind (k a) k') env g.
Proof. unfold kbind. by destruct (m env g). Qed.

Lemma kbind_kret {A B} (a : A) (k : A -> K G B) env g : kbind (kret a) k env g = k a env g.
Proof. done. Qed.

Lemma qat_weaken {A} env (m : K G A) (Q Q' : A -> Prop) : qat env m Q -> (forall a, Q a -> Q' a) -> qat env m Q'.
Proof. intros H HQ g. specialize (H g). unfold access_ok in *. destruct (m env g); naive_solver. Qed.

Lemma qat_ret {A} env (a : A) (Q : A -> Prop) : Q a -> qat (G := G) env (kret a) Q.
Proof. by intros H g. Qed.

Lemma qat_bind {A B} env (m : K G A) (k : A -> K G B) (Q : A -> Prop) (R : B -> Prop) :
  qat env m Q -> (forall a, Q a -> qat env (k a) R) -> qat env (kbind m k) R.
Proof.
  intros Hm Hk g. specialize (Hm g). unfold kbind, access_ok in *.
  destruct (m env g) as [a env' g'|env' g'|c i env' g'|]; [|done..].
  destruct Hm as [-> Ha]. exact (Hk a Ha g').
Qed.

Lemma qat_get env (Q : CPUX86State -> Prop) : Q env -> qat (G := G) env kget Q.
Proof. by intros H g. Qed.

Lemma qat_raise {A} env index err (Q : A -> Prop) : qat (G := G) env (raise index err) Q.
Proof.
  intros g. unfold raise, lift. pose proof (raise_arch (A := A) index err env) as H.
  assert (forall a env', raise_exception_err (A := A) index err env <> XRet a env') as Hn.
  { unfold raise_exception_err, raise_interrupt2, xbind, xloop_exit, xmod. intros a env'.
    by repeat case_match. }
  destruct (raise_exception_err index err env) eqn:E; [by destruct (Hn a env0)|done..].
Qed.

Lemma qat_raise_if env b index err (Q : unit -> Prop) :
  (b = false -> Q tt) -> qat (G := G) env (raise_if b index err) Q.
Proof. intros H. unfold raise_if. destruct b; [apply qat_raise|apply qat_ret; by apply H]. Qed.

Lemma qat_abort {A} env (Q : A -> Prop) : qat (G := G) env kabort Q.
Proof. by intros g. Qed.

Lemma qat_get_bind {B} env (k : CPUX86State -> K G B) R : qat env (k env) R -> qat env (kbind kget k) R.
Proof. done. Qed.

Lemma qat_check env b index err {B} (k : unit -> K G B) R :
  (b = false -> qat env (k tt) R) -> qat env (kbind (raise_if b index err) k) R.
Proof. intros H. eapply qat_bind; [by apply (qat_raise_if _ _ _ _ (fun _ => b = false))|]. intros [] Hb. by apply H. Qed.

Section Spec.
Context (E : CPUX86State -> Prop).

Lemma kspec_ret {A} env (a : A) (Q : A -> CPUX86State -> Prop) : Q a env -> kspec (G := G) env (kret a) Q E.
Proof. by intros H g. Qed.

Lemma kspec_mod env f (Q : unit -> CPUX86State -> Prop) : Q tt (f env) -> kspec (G := G) env (kmod f) Q E.
Proof. by intros H g. Qed.

Lemma kspec_get {B} env (k : CPUX86State -> K G B) R : kspec env (k env) R E -> kspec env (kbind kget k) R E.
Proof. done. Qed.

Lemma kspec_bind {A B} env (m : K G A) (k : A -> K G B) Q R :
  kspec env m Q E -> (forall a env', Q a env' -> kspec env' (k a) R E) -> kspec env (kbind m k) R E.
Proof.
  intros Hm Hk g. specialize (Hm g). unfold kbind.
  destruct (m env g) as [a env' g'|env' g'|c i env' g'|]; [|done..]. exact (Hk a env' Hm g').
Qed.

Lemma kspec_qbind {A B} env (m : K G A) (k : A -> K G B) (Q : A -> Prop) R :
  (forall env', same_arch env env' -> E env') ->
  qat env m Q -> (forall a, Q a -> kspec env (k a) R E) -> kspec env (kbind m k) R E.
Proof.
  intros HE Hm Hk g. specialize (Hm g). unfold kbind, access_ok in *.
  destruct (m env g) as [a env' g'|env' g'|c i env' g'|]; [|by apply HE..|done].
  destruct Hm as [-> Ha]. exact (Hk a Ha g').
Qed.

Lemma kspec_check env b index err {B} (k : unit -> K G B) R :
  (forall env', same_arch env env' -> E env') ->
  (b = false -> kspec env (k tt) R E) -> kspec env (kbind (raise_if b index err) k) R E.
Proof.
  intros HE H. eapply kspec_qbind; [done|by apply (qat_raise_if _ _ _ _ (fun _ => b = false))|].
  intros [] Hb. by apply H.
Qed.

Lemma kspec_q {A} env (m : K G A) (Q : A -> CPUX86State -> Prop) :
  (forall env', same_arch env env' -> E env') -> qat env m (fun a => Q a env) -> kspec env m Q E.
Proof.
  intros HE H g. specialize (H g). unfold access_ok in H.
  destruct (m env g); [by destruct H as [-> ?]|by apply HE..|done].
Qed.
End Spec.

Lemma kspec_weaken {A} env (m : K G A) (Q Q' : A -> CPUX86State -> Prop) (E E' : CPUX86State -> Prop) :
  kspec env m Q E -> (forall a env', Q a env' -> Q' a env') -> (forall env', E env' -> E' env') ->
  kspec env m Q' E'.
Proof. intros H HQ HE g. specialize (H g). destruct (m env g); naive_solver. Qed.

Lemma kat_bind {A B} env (m : K G A) (k : A -> K G B) (Q : A -> Prop) R :
  qat env m Q -> (forall a, Q a -> kat env (k a) R) -> kat env (kbind m k) R.
Proof. by apply kspec_qbind. Qed.

Lemma kat_check env b index err {B} (k : unit -> K G B) R :
  (b = false -> kat env (k tt) R) -> kat env (kbind (raise_if b index err) k) R.
Proof. intros H. eapply kat_bind; [by apply (qat_raise_if _ _ _ _ (fun _ => b = false))|]. intros [] Hb. by apply H. Qed.

Context `{!SoftMmu G, !SoftMmuSpec G}.

Lemma qat_load env idx n a : qat (G := G) env (mmu_load idx n a) (fun v => in_range (8 * Z.of_nat n) v).
Proof. intros g. apply mmu_load_ok. Qed.
Lemma qat_store env idx n a v : qat (G := G) env (mmu_store idx n a v) (fun _ => True).
Proof. intros g. apply mmu_store_ok. Qed.
Lemma qat_ldl env a : qat (G := G) env (cpu_ldl_kernel a) (fun v => in_range 32 v).
Proof. apply (qat_load env KERNEL_IDX 4). Qed.
Lemma qat_lduw env a : qat (G := G) env (cpu_lduw_kernel a) (fun v => in_range 16 v).
Proof. apply (qat_load env KERNEL_IDX 2). Qed.
Lemma qat_stl env a v : qat (G := G) env (cpu_stl_kernel a v) (fun _ => True).
Proof. apply qat_store. Qed.
Lemma qat_stw env a v : qat (G := G) env (cpu_stw_kernel a v) (fun _ => True).
Proof. apply qat_store. Qed.
End Logic.

(** ** Loading a segment register *)

Lemma has_bit x k : 0 <= k -> has x (2 ^ k) = Z.testbit x k.
Proof.
  intros Hk. unfold has. rewrite land_bit by done.
  pose proof (Z.pow_pos_nonneg 2 k). destruct (Z.testbit x k); simpl b2z; zcase; done || lia.
Qed.

Lemma testbit_not32 m k : 0 <= k < 32 -> Z.testbit (not32 m) k = negb (Z.testbit m k).
Proof. intros Hk. unfold not32, u32. rewrite testbit_wrap by done. apply Z.lnot_spec. lia. Qed.

(** [(h & ~mask) | bit] *)
Lemma put_bits h mask new k :
  0 <= k < 32 ->
  Z.testbit (Z.lor (Z.land h (not32 mask)) new) k =
  (Z.testbit h k && negb (Z.testbit mask k)) || Z.testbit new k.
Proof. intros Hk. rewrite Z.lor_spec, Z.land_spec, testbit_not32 by done. done. Qed.

(** The bit 22 of the flags moved down to bit [j]. *)
Lemma moved_bit fl j k :
  0 <= j <= 22 -> 0 <= k ->
  Z.testbit (Z.shiftr (Z.land fl DESC_B_MASK) (22 - j)) k = (k =? j) && Z.testbit fl 22.
Proof.
  intros Hj Hk. rewrite Z.shiftr_spec, Z.land_spec by done. change DESC_B_MASK with (2 ^ 22).
  rewrite Z.pow2_bits_eqb by done. destruct (Z.eqb_spec k j) as [->|].
  - replace (j + (22 - j)) with 22 by lia. by rewrite andb_true_r.
  - destruct (Z.eqb_spec 22 (k + (22 - j))); [lia|]. by rewrite andb_false_r.
Qed.

(** Only segment registers and hidden flags change. *)
Definition only_segs (env env' : CPUX86State) : Prop :=
  env' = with_hflags (hflags env') (with_segs (segs env') env).

Lemma only_segs_refl env : only_segs env env.
Proof. by destruct env. Qed.
Lemma only_segs_trans a b c : only_segs a b -> only_segs b c -> only_segs a c.
Proof. unfold only_segs. intros Ha Hb. rewrite Hb, Ha. by destruct a. Qed.

(** Bits of the hidden flags that do not follow from the segment registers. *)
Definition free_bit (k : Z) : bool := negb (one_of [4; 5; 6; 15] k).

(** The segment registers that addresses are relative to without a prefix have
    base 0, in 32-bit protected mode. *)
Definition flat (env : CPUX86State) : Prop :=
  base (seg env R_DS) = 0 /\ base (seg env R_ES) = 0 /\ base (seg env R_SS) = 0.

Lemma sync_cs32_bits env k :
  0 <= k < 32 ->
  Z.testbit (hflags (sync_cs32 env)) k =
  if k =? 4 then Z.testbit (sflags (seg env R_CS)) 22
  else if k =? 15 then false else Z.testbit (hflags env) k.
Proof.
  intros Hk. unfold sync_cs32. cbn [hflags with_hflags].
  rewrite put_bits, (moved_bit _ 4) by lia. change (Z.lor HF_CS32_MASK HF_CS64_MASK) with (2 ^ 4 + 2 ^ 15).
  assert (Z.testbit (2 ^ 4 + 2 ^ 15) k = (k =? 4) || (k =? 15)) as ->.
  { change (2 ^ 4 + 2 ^ 15) with (Z.lor (2 ^ 4) (2 ^ 15)).
    rewrite Z.lor_spec, !Z.pow2_bits_eqb, (Z.eqb_sym 4), (Z.eqb_sym 15) by done. done. }
  destruct (k =? 4), (k =? 15); simpl; by rewrite ?andb_true_r, ?andb_false_r, ?orb_false_r.
Qed.

Definition needs_base (env : CPUX86State) : bool :=
  if has (hflags env) HF_CS64_MASK then false
  else if negb (has (nth 0 (cr env) 0) CR0_PE_MASK) || has (eflags env) VM_MASK
          || negb (has (hflags env) HF_CS32_MASK)
  then true
  else negb (Z.lor (Z.lor (base (seg env R_DS)) (base (seg env R_ES))) (base (seg env R_SS)) =? 0).

Lemma sync_ss32_bits env k :
  0 <= k < 32 ->
  Z.testbit (hflags (sync_ss32 env)) k =
  if k =? 5 then Z.testbit (sflags (seg env R_SS)) 22
  else if k =? 6 then needs_base env else Z.testbit (hflags env) k.
Proof.
  intros Hk. unfold sync_ss32. cbn [hflags with_hflags]. rewrite put_bits by lia.
  assert (Z.testbit (Z.lor HF_SS32_MASK HF_ADDSEG_MASK) k = (k =? 5) || (k =? 6)) as ->.
  { change HF_SS32_MASK with (2 ^ 5). change HF_ADDSEG_MASK with (2 ^ 6).
    rewrite Z.lor_spec, !Z.pow2_bits_eqb, (Z.eqb_sym 5), (Z.eqb_sym 6) by done. done. }
  set (new := if has _ HF_CS64_MASK then _ else _).
  assert (Z.testbit new k = ((k =? 5) && Z.testbit (sflags (seg env R_SS)) 22) || ((k =? 6) && needs_base env)) as ->.
  { unfold new, needs_base. destruct (has (hflags env) HF_CS64_MASK).
    { rewrite (moved_bit _ 5) by lia. by rewrite andb_false_r, orb_false_r. }
    destruct (_ || _ || _).
    - rewrite Z.lor_spec, (moved_bit _ 5) by lia. change HF_ADDSEG_MASK with (2 ^ 6).
      rewrite Z.pow2_bits_eqb, (Z.eqb_sym 6) by done. by rewrite andb_true_r.
    - rewrite Z.lor_spec, (moved_bit _ 5) by lia. destruct (_ =? 0); cbn [negb b2z].
      + by rewrite Z.shiftl_0_l, Z.bits_0, andb_false_r.
      + change (Z.shiftl 1 6) with (2 ^ 6). rewrite Z.pow2_bits_eqb, (Z.eqb_sym 6) by done.
        by rewrite andb_true_r. }
  destruct (Z.eqb_spec k 5) as [->|]; simpl; [by rewrite andb_false_r, orb_false_r|].
  destruct (k =? 6); simpl; [by rewrite andb_false_r|by rewrite andb_true_r, orb_false_r].
Qed.

Lemma needs_base_sync env : needs_base (sync_ss32 env) = needs_base env.
Proof.
  unfold needs_base. change HF_CS64_MASK with (2 ^ 15). change HF_CS32_MASK with (2 ^ 4).
  by rewrite !has_bit, !sync_ss32_bits by done.
Qed.

Section LoadSeg.
Context (r : nat) (sel bas lim fl : Z) (env : CPUX86State).
Let env' := cpu_x86_load_seg_cache r sel bas lim fl env.
Let loaded := mkSeg (u32 sel) (u32 bas) (u32 lim) (u32 fl).

Lemma load_seg_only : only_segs env env'.
Proof. unfold env', cpu_x86_load_seg_cache. destruct (r =? R_CS)%nat; by destruct env. Qed.

Lemma load_seg_segs : segs env' = <[r := loaded]> (segs env).
Proof. unfold env', cpu_x86_load_seg_cache. by destruct (r =? R_CS)%nat. Qed.

Lemma load_seg_bits k :
  0 <= k < 32 ->
  Z.testbit (hflags env') k =
  if k =? 5 then Z.testbit (sflags (seg env' R_SS)) 22
  else if k =? 6 then needs_base env'
  else if (r =? R_CS)%nat then
    if k =? 4 then Z.testbit (sflags (seg env' R_CS)) 22 else if k =? 15 then false else Z.testbit (hflags env) k
  else Z.testbit (hflags env) k.
Proof.
  intros Hk. unfold env', cpu_x86_load_seg_cache. set (env1 := set_seg r loaded env).
  fold loaded. fold env1. set (env2 := if (r =? R_CS)%nat then sync_cs32 env1 else env1).
  assert (seg (sync_ss32 env2) R_SS = seg env2 R_SS) as -> by done.
  rewrite needs_base_sync, sync_ss32_bits by done.
  destruct (k =? 5); [done|]. destruct (k =? 6); [done|].
  unfold env2. destruct (r =? R_CS)%nat; [|done]. by rewrite sync_cs32_bits.
Qed.
End LoadSeg.
