(* ===== verification/SegTask.v ===== *)
(** * Tasks

    target-i386/seg_helper.c: the stack of an inner privilege level in the task
    state segment, and the switch of tasks, with the hardware breakpoints it
    removes (target-i386/helper.c, exec.c). *)

From stdpp Require Import base list.
From Stdlib Require Import ZArith Lia.
From S2P Require Import Prelude Cpu CcHelper Excp Guest Seg.

Local Open Scope Z_scope.
Local Open Scope k_scope.

Definition SWITCH_TSS_JMP : Z := 0.
Definition SWITCH_TSS_IRET : Z := 1.
Definition SWITCH_TSS_CALL : Z := 2.

Section Task.
Context {G : Type} `{!SoftMmu G}.

(** [*ss_ptr] and [*esp_ptr] *)
Definition get_ss_esp_from_tss (dpl : Z) : K G (Z * Z) :=
  env <- kget ;;
  if negb (has (sflags (tr env)) DESC_P_MASK) then kabort
  else
    let type := type_of (sflags (tr env)) in
    if negb (Z.land type 7 =? 1) then kabort
    else
      let shift := Z.shiftr type 3 in
      let index := Z.shiftl (dpl * 4 + 2) shift in
      raise_if (limit (tr env) <? index + Z.shiftl 4 shift - 1) EXCP0A_TSS
        (Z.land (selector (tr env)) 0xfffc) ;;
      if shift =? 0 then
        esp <- cpu_lduw_kernel (base (tr env) + index) ;;
        ss <- cpu_lduw_kernel (base (tr env) + index + 2) ;;
        kret (ss, esp)
      else
        esp <- cpu_ldl_kernel (base (tr env) + index) ;;
        ss <- cpu_lduw_kernel (base (tr env) + index + 4) ;;
        kret (ss, esp).

(** [for (i = 0; i < n; i++)] reading or writing an array *)
Fixpoint kloads (f : Z -> K G Z) (n : nat) (i : Z) : K G (list Z) :=
  match n with
  | O => kret []
  | S n' => v <- f i ;; vs <- kloads f n' (i + 1) ;; kret (v :: vs)
  end.
Fixpoint kiter (f : Z -> K G unit) (n : nat) (i : Z) : K G unit :=
  match n with
  | O => kret tt
  | S n' => f i ;; kiter f n' (i + 1)
  end.

(** ** What a task state segment holds *)

Record task : Type := mkTask {
  t_cr3 : Z; t_eip : Z; t_eflags : Z; t_regs : list Z; t_segs : list Z; t_ldt : Z
}.

Definition read_tss32 (tss_base : Z) : K G task :=
  new_cr3 <- cpu_ldl_kernel (tss_base + 0x1c) ;;
  new_eip <- cpu_ldl_kernel (tss_base + 0x20) ;;
  new_eflags <- cpu_ldl_kernel (tss_base + 0x24) ;;
  new_regs <- kloads (fun i => cpu_ldl_kernel (tss_base + (0x28 + i * 4))) 8 0 ;;
  new_segs <- kloads (fun i => cpu_lduw_kernel (tss_base + (0x48 + i * 4))) 6 0 ;;
  new_ldt <- cpu_lduw_kernel (tss_base + 0x60) ;;
  cpu_ldl_kernel (tss_base + 0x64) ;;
  kret (mkTask new_cr3 new_eip new_eflags new_regs new_segs new_ldt).

Definition read_tss16 (tss_base : Z) : K G task :=
  new_eip <- cpu_lduw_kernel (tss_base + 0x0e) ;;
  new_eflags <- cpu_lduw_kernel (tss_base + 0x10) ;;
  new_regs <- kloads (fun i => v <- cpu_lduw_kernel (tss_base + (0x12 + i * 2)) ;;
                               kret (Z.lor v 0xffff0000)) 8 0 ;;
  new_segs <- kloads (fun i => cpu_lduw_kernel (tss_base + (0x22 + i * 4))) 4 0 ;;
  new_ldt <- cpu_lduw_kernel (tss_base + 0x2a) ;;
  kret (mkTask 0 new_eip new_eflags new_regs (new_segs ++ [0; 0]) new_ldt).

Definition save_tss32 (next_eip old_eflags : Z) : K G unit :=
  env <- kget ;;
  let b := base (tr env) in
  cpu_stl_kernel (b + 0x20) next_eip ;;
  cpu_stl_kernel (b + 0x24) old_eflags ;;
  kiter (fun i => cpu_stl_kernel (b + (0x28 + i * 4)) (reg env (Z.to_nat i))) 8 0 ;;
  kiter (fun i => cpu_stw_kernel (b + (0x48 + i * 4)) (selector (seg env (Z.to_nat i)))) 6 0.

Definition save_tss16 (next_eip old_eflags : Z) : K G unit :=
  env <- kget ;;
  let b := base (tr env) in
  cpu_stw_kernel (b + 0x0e) next_eip ;;
  cpu_stw_kernel (b + 0x10) old_eflags ;;
  kiter (fun i => cpu_stw_kernel (b + (0x12 + i * 2)) (reg env (Z.to_nat i))) 8 0 ;;
  kiter (fun i => cpu_stw_kernel (b + (0x22 + i * 4)) (selector (seg env (Z.to_nat i)))) 4 0.

(** ** Hardware breakpoints of the task *)

Definition DR7_LOCAL_BP_MASK : Z := 0x55.
Definition hw_local_breakpoint_enabled (dr7 index : Z) : bool := has (Z.shiftr dr7 (index * 2)) 1.
Definition hw_global_breakpoint_enabled (dr7 index : Z) : bool := has (Z.shiftr dr7 (index * 2)) 2.
Definition hw_breakpoint_enabled (dr7 index : Z) : bool :=
  hw_global_breakpoint_enabled dr7 index || hw_local_breakpoint_enabled dr7 index.
Definition hw_breakpoint_type (dr7 index : Z) : Z := Z.land (Z.shiftr dr7 (16 + index * 4)) 3.

Definition unlinked {A} (p : Z) (l : list (Z * A)) : list (Z * A) := filter (fun e => e.1 <> p) l.
Definition linked {A} (p : Z) (l : list (Z * A)) : option A := snd <$> find (fun e => e.1 =? p) l.

(** Taking an element out of a list it is no longer in uses freed memory. *)
Definition cpu_breakpoint_remove_by_ref (p : Z) : K G unit :=
  env <- kget ;;
  match linked p (breakpoints env) with
  | Some _ => kmod (with_breakpoints (unlinked p (breakpoints env)))
  | None => kabort
  end.
Definition cpu_watchpoint_remove_by_ref (p : Z) : K G unit :=
  env <- kget ;;
  match linked p (watchpoints env) with
  | Some wp => kmod (with_watchpoints (unlinked p (watchpoints env))) ;; kmem (tlb_flush_page (wp_vaddr wp))
  | None => kabort
  end.

Definition hw_breakpoint_remove (index : Z) : K G unit :=
  env <- kget ;;
  match nth (Z.to_nat index) (cpu_breakpoint env) None with
  | None => kret tt
  | Some p =>
      let dr7 := nth 7 (dr env) 0 in
      let type := hw_breakpoint_type dr7 index in
      if type =? 0 then
        if hw_breakpoint_enabled dr7 index then cpu_breakpoint_remove_by_ref p else kret tt
      else if (type =? 1) || (type =? 3) then cpu_watchpoint_remove_by_ref p
      else kret tt
  end.

Definition reset_local_breakpoints : K G unit :=
  env <- kget ;;
  if has (nth 7 (dr env) 0) DR7_LOCAL_BP_MASK then
    kiter (fun i =>
      env <- kget ;;
      let dr7 := nth 7 (dr env) 0 in
      if hw_local_breakpoint_enabled dr7 i && negb (hw_global_breakpoint_enabled dr7 i)
      then hw_breakpoint_remove i else kret tt) 4 0 ;;
    kmod (fun env => with_dr (<[7%nat := Z.land (nth 7 (dr env) 0) (not32 DR7_LOCAL_BP_MASK)]> (dr env)) env)
  else kret tt.

(** ** The switch *)

(** The TSS: its selector, descriptor and type, through a task gate if there is one. *)
Definition find_tss (tss_selector e1 e2 : Z) : K G (Z * Z * Z) :=
  if type_of e2 =? 5 then
    raise_if (negb (has e2 DESC_P_MASK)) EXCP0B_NOSEG (Z.land tss_selector 0xfffc) ;;
    let tss_selector := Z.shiftr e1 16 in
    let err := Z.land tss_selector 0xfffc in
    raise_if (has tss_selector 4) EXCP0A_TSS err ;;
    e <- need_segment tss_selector EXCP0D_GPF err ;;
    let '(e1, e2) := e in
    raise_if (has e2 DESC_S_MASK) EXCP0D_GPF err ;;
    raise_if (negb (Z.land (type_of e2) 7 =? 1)) EXCP0D_GPF err ;;
    kret (tss_selector, e1, e2)
  else kret (tss_selector, e1, e2).

Definition tss_limit_max (type : Z) : Z := if has type 8 then 103 else 43.

(** The busy bit in the descriptor of a TSS. *)
Definition set_busy (sel : Z) (busy : bool) : K G unit :=
  env <- kget ;;
  let ptr := u32 (base (gdt env) + Z.land sel (Z.lnot 7)) in
  e2 <- cpu_ldl_kernel (ptr + 4) ;;
  cpu_stl_kernel (ptr + 4)
    (if busy then Z.lor e2 DESC_TSS_BUSY_MASK else Z.land e2 (not32 DESC_TSS_BUSY_MASK)).

(** Touches both ends of the old TSS so that saving the state does not fault. *)
Definition touch_old_tss : K G unit :=
  env <- kget ;;
  let b := base (tr env) in
  let old_max := tss_limit_max (type_of (sflags (tr env))) in
  v1 <- cpu_ldub_kernel b ;;
  v2 <- cpu_ldub_kernel (b + old_max) ;;
  cpu_stb_kernel b v1 ;;
  cpu_stb_kernel (b + old_max) v2.

Definition cpu_x86_update_cr3 (new_cr3 : Z) : K G unit :=
  kmod (fun env => with_cr (<[3%nat := u32 new_cr3]> (cr env)) env) ;;
  env <- kget ;;
  if has (nth 0 (cr env) 0) CR0_PG_MASK then kmem tlb_flush else kret tt.

(** The registers of the new task, without an exception. *)
Definition load_eip_regs (type : Z) (t : task) (env : CPUX86State) : CPUX86State :=
  let env := with_eip (t_eip t) env in
  let mask := Z.lor (Z.lor (Z.lor (Z.lor (Z.lor (Z.lor (Z.lor TF_MASK AC_MASK) ID_MASK)
                IF_MASK) IOPL_MASK) VM_MASK) RF_MASK) NT_MASK in
  let mask := if has type 8 then mask else Z.land mask 0xffff in
  let env := cpu_load_eflags (t_eflags t) mask env in
  with_regs (t_regs t) env.

Definition load_selectors (t : task) (env : CPUX86State) : CPUX86State :=
  let sel i := nth i (t_segs t) 0 in
  if has (t_eflags t) VM_MASK then
    cpu_x86_set_cpl 3 (foldl (fun env i => load_seg_vm i (sel i) env) env (seq 0 6))
  else
    foldl (fun env i => cpu_x86_load_seg_cache i (sel i) 0 0 0 env)
      (cpu_x86_set_cpl (Z.land (sel R_CS) 3) env) (seq 0 6).

Definition load_task_ldt (new_ldt : Z) : K G unit :=
  kmod (with_ldt (mkSeg (Z.land new_ldt (not32 4)) 0 0 0)) ;;
  let err := Z.land new_ldt 0xfffc in
  raise_if (has new_ldt 4) EXCP0A_TSS err ;;
  if negb (null_sel new_ldt) then
    env <- kget ;;
    let index := Z.land new_ldt (Z.lnot 7) in
    raise_if (limit (gdt env) <? u32 (index + 7)) EXCP0A_TSS err ;;
    let ptr := u32 (base (gdt env) + index) in
    e1 <- cpu_ldl_kernel ptr ;;
    e2 <- cpu_ldl_kernel (ptr + 4) ;;
    raise_if (has e2 DESC_S_MASK || negb (type_of e2 =? 2)) EXCP0A_TSS err ;;
    raise_if (negb (has e2 DESC_P_MASK)) EXCP0A_TSS err ;;
    kmod (fun env => with_ldt (load_seg_cache_raw_dt e1 e2 (ldt env)) env)
  else kret tt.

Definition load_task_segs (t : task) : K G unit :=
  let sel i := nth i (t_segs t) 0 in
  if negb (has (t_eflags t) VM_MASK) then
    tss_load_seg R_CS (sel R_CS) ;;
    tss_load_seg R_SS (sel R_SS) ;;
    tss_load_seg R_ES (sel R_ES) ;;
    tss_load_seg R_DS (sel R_DS) ;;
    tss_load_seg R_FS (sel R_FS) ;;
    tss_load_seg R_GS (sel R_GS)
  else kret tt.

(** The first half: the new state is read and the old one saved. *)
Definition save_task (type tss_selector tss_base source next_eip : Z) : K G task :=
  t <- (if has type 8 then read_tss32 tss_base else read_tss16 tss_base) ;;
  touch_old_tss ;;
  env <- kget ;;
  (if (source =? SWITCH_TSS_JMP) || (source =? SWITCH_TSS_IRET)
   then set_busy (selector (tr env)) false else kret tt) ;;
  let old_eflags := cpu_compute_eflags env in
  let old_eflags := if source =? SWITCH_TSS_IRET then Z.land old_eflags (not32 NT_MASK) else old_eflags in
  (if has type 8 then save_tss32 next_eip old_eflags else save_tss16 next_eip old_eflags) ;;
  t <- (if source =? SWITCH_TSS_CALL then
          cpu_stw_kernel tss_base (selector (tr env)) ;;
          kret (mkTask (t_cr3 t) (t_eip t) (Z.lor (t_eflags t) NT_MASK) (t_regs t) (t_segs t) (t_ldt t))
        else kret t) ;;
  (if (source =? SWITCH_TSS_JMP) || (source =? SWITCH_TSS_CALL)
   then set_busy tss_selector true else kret tt) ;;
  kret t.

(** The second half: the new state takes effect. *)
Definition enter_task (type tss_selector tss_base tss_limit e2 : Z) (t : task) : K G unit :=
  kmod (fun env =>
    let env := with_cr (<[0%nat := Z.lor (nth 0 (cr env) 0) CR0_TS_MASK]> (cr env)) env in
    let env := with_hflags (Z.lor (hflags env) HF_TS_MASK) env in
    with_tr (mkSeg tss_selector tss_base (u32 tss_limit) (Z.land e2 (not32 DESC_TSS_BUSY_MASK))) env) ;;
  env <- kget ;;
  (if has type 8 && has (nth 0 (cr env) 0) CR0_PG_MASK
   then cpu_x86_update_cr3 (t_cr3 t) else kret tt) ;;
  kmod (load_eip_regs type t) ;;
  kmod (load_selectors t) ;;
  load_task_ldt (t_ldt t) ;;
  load_task_segs t ;;
  env <- kget ;;
  raise_if (limit (seg env R_CS) <? t_eip t) EXCP0D_GPF 0 ;;
  reset_local_breakpoints.

Definition switch_tss (tss_selector e1 e2 source next_eip : Z) : K G unit :=
  x <- find_tss tss_selector e1 e2 ;;
  let '(tss_selector, e1, e2) := x in
  let type := type_of e2 in
  let err := Z.land tss_selector 0xfffc in
  raise_if (negb (has e2 DESC_P_MASK)) EXCP0B_NOSEG err ;;
  let tss_limit := s32 (get_seg_limit e1 e2) in
  let tss_base := get_seg_base e1 e2 in
  raise_if (has tss_selector 4 || (tss_limit <? tss_limit_max type)) EXCP0A_TSS err ;;
  t <- save_task type tss_selector tss_base source next_eip ;;
  enter_task type tss_selector tss_base tss_limit e2 t.
End Task.
