(* ===== verification/SegInt.v ===== *)
(** * Interrupts and exceptions

    target-i386/seg_helper.c: delivery of interrupts and exceptions in protected
    and real mode, with the record kept for an SVM monitor and the call of the
    tracer at its start. *)

From stdpp Require Import base list.
From Stdlib Require Import ZArith Lia.
From S2P Require Import Prelude Cpu CcHelper Excp Guest Seg SegTask.

Local Open Scope Z_scope.
Local Open Scope k_scope.

(** ** Stacks

    The macros [PUSHW], [PUSHL], [POPW] and [POPL]: a push returns the new stack
    pointer, a pop also the value. *)

Section Stack.
Context {G : Type} `{!SoftMmu G}.

Definition SEG_ADDL (ssp sp sp_mask : Z) : Z := u32 (ssp + Z.land sp sp_mask).

Definition PUSHW (ssp sp_mask val sp : Z) : K G Z :=
  let sp := u32 (sp - 2) in cpu_stw_kernel (SEG_ADDL ssp sp sp_mask) val ;; kret sp.
Definition PUSHL (ssp sp_mask val sp : Z) : K G Z :=
  let sp := u32 (sp - 4) in cpu_stl_kernel (SEG_ADDL ssp sp sp_mask) val ;; kret sp.
Definition POPW (ssp sp_mask sp : Z) : K G (Z * Z) :=
  v <- cpu_lduw_kernel (SEG_ADDL ssp sp sp_mask) ;; kret (v, u32 (sp + 2)).
Definition POPL (ssp sp_mask sp : Z) : K G (Z * Z) :=
  v <- cpu_ldl_kernel (SEG_ADDL ssp sp sp_mask) ;; kret (v, u32 (sp + 4)).

(** With 32 or 16 bits, and several values in turn. *)
Definition PUSH (wide : bool) : Z -> Z -> Z -> Z -> K G Z := if wide then PUSHL else PUSHW.
Definition POP (wide : bool) : Z -> Z -> Z -> K G (Z * Z) := if wide then POPL else POPW.

Fixpoint push_all (wide : bool) (ssp sp_mask : Z) (vals : list Z) (sp : Z) : K G Z :=
  match vals with
  | [] => kret sp
  | v :: vals' => sp <- PUSH wide ssp sp_mask v sp ;; push_all wide ssp sp_mask vals' sp
  end.
Fixpoint pop_all (wide : bool) (ssp sp_mask : Z) (n : nat) (sp : Z) : K G (list Z * Z) :=
  match n with
  | O => kret ([], sp)
  | S n' =>
      vs <- POP wide ssp sp_mask sp ;;
      r <- pop_all wide ssp sp_mask n' (snd vs) ;;
      kret (fst vs :: fst r, snd r)
  end.
End Stack.

Section Interrupt.
Context {G : Type} `{!SoftMmu G}.

Definition exception_has_error_code (intno : Z) : bool := one_of [8; 10; 11; 12; 13; 14; 17] intno.

(** The error code goes on the stack of the new task. *)
Definition push_task_error (error_code : Z) : K G unit :=
  env <- kget ;;
  let shift := Z.shiftr (type_of (sflags (tr env))) 3 in
  let mask := if has (sflags (seg env R_SS)) DESC_B_MASK then 0xffffffff else 0xffff in
  let esp := Z.land (u32 (reg env R_ESP - Z.shiftl 2 shift)) mask in
  let ssp := u32 (base (seg env R_SS) + esp) in
  (if negb (shift =? 0) then cpu_stl_kernel ssp error_code else cpu_stw_kernel ssp error_code) ;;
  kmod (SET_ESP esp mask).

(** The stack of an inner level, checked: its selector and descriptor, and [esp]. *)
Definition inner_stack (dpl : Z) : K G (Z * Z * Z * Z) :=
  x <- get_ss_esp_from_tss dpl ;;
  let '(ss, esp) := x in
  let err := Z.land ss 0xfffc in
  raise_if (null_sel ss) EXCP0A_TSS err ;;
  raise_if (negb (rpl_of ss =? dpl)) EXCP0A_TSS err ;;
  e <- need_segment ss EXCP0A_TSS err ;;
  let '(ss_e1, ss_e2) := e in
  raise_if (negb (dpl_of ss_e2 =? dpl)) EXCP0A_TSS err ;;
  raise_if (negb (has ss_e2 DESC_S_MASK) || has ss_e2 DESC_CS_MASK || negb (has ss_e2 DESC_W_MASK))
    EXCP0A_TSS err ;;
  raise_if (negb (has ss_e2 DESC_P_MASK)) EXCP0A_TSS err ;;
  kret (ss, ss_e1, ss_e2, esp).

(** Where a handler runs: its level and stack, with the descriptor of a new one. *)
Record entry_point : Type := mkEntry {
  ep_dpl : Z; ep_new : option (Z * Z * Z); ep_mask : Z; ep_ssp : Z; ep_esp : Z
}.

Definition ep_inner (ep : entry_point) : bool := match ep_new ep with Some _ => true | None => false end.

Definition same_stack (dpl : Z) (env : CPUX86State) : entry_point :=
  mkEntry dpl None (get_sp_mask (sflags (seg env R_SS))) (base (seg env R_SS)) (reg env R_ESP).

Definition new_stack (dpl : Z) : K G entry_point :=
  x <- inner_stack dpl ;;
  let '(ss, ss_e1, ss_e2, esp) := x in
  kret (mkEntry dpl (Some (ss, ss_e1, ss_e2)) (get_sp_mask ss_e2) (get_seg_base ss_e1 ss_e2) esp).

Definition interrupt_stack (cpl sel e2 : Z) : K G entry_point :=
  env <- kget ;;
  let dpl := dpl_of e2 in
  if negb (has e2 DESC_C_MASK) && (dpl <? cpl) then new_stack dpl
  else if has e2 DESC_C_MASK || (dpl =? cpl) then
    raise_if (has (eflags env) VM_MASK) EXCP0D_GPF (Z.land sel 0xfffc) ;;
    kret (same_stack cpl env)
  else raise EXCP0D_GPF (Z.land sel 0xfffc).

(** What is pushed, first to last. *)
Definition interrupt_frame (env : CPUX86State) (new_stack : bool) (old_eip : Z) (error : option Z) : list Z :=
  (if new_stack then
     (if has (eflags env) VM_MASK then
        [selector (seg env R_GS); selector (seg env R_FS); selector (seg env R_DS); selector (seg env R_ES)]
      else []) ++ [selector (seg env R_SS); reg env R_ESP]
   else []) ++
  [cpu_compute_eflags env; selector (seg env R_CS); old_eip] ++
  (match error with Some e => [e] | None => [] end).

(** The handler's stack, code segment, level and flags. *)
Definition enter_handler (type sel offset e1 e2 esp : Z) (ep : entry_point) (env : CPUX86State) : CPUX86State :=
  let dpl := ep_dpl ep in
  let env :=
    match ep_new ep with
    | Some (ss, ss_e1, ss_e2) =>
        let env :=
          if has (eflags env) VM_MASK
          then foldl (fun env r => cpu_x86_load_seg_cache r 0 0 0 0 env) env [R_ES; R_DS; R_FS; R_GS]
          else env in
        cpu_x86_load_seg_cache R_SS (Z.lor (Z.land ss (Z.lnot 3)) dpl) (ep_ssp ep)
          (get_seg_limit ss_e1 ss_e2) ss_e2 env
    | None => env
    end in
  let env := SET_ESP esp (ep_mask ep) env in
  let env := load_desc R_CS (Z.lor (Z.land sel (Z.lnot 3)) dpl) e1 e2 env in
  let env := cpu_x86_set_cpl dpl env in
  let env := with_eip offset env in
  let fl := eflags env in
  let fl := if Z.land type 1 =? 0 then Z.land fl (not32 IF_MASK) else fl in
  with_eflags (Z.land fl (not32 (Z.lor (Z.lor (Z.lor TF_MASK VM_MASK) RF_MASK) NT_MASK))) env.

(** Through an interrupt or trap gate [(e1, e2)]. *)
Definition interrupt_gate (intno : Z) (is_int : bool) (old_eip : Z) (error : option Z) (e1 e2 : Z) : K G unit :=
  env <- kget ;;
  let err := intno * 8 + 2 in
  let type := Z.land (Z.shiftr e2 8) 0x1f in
  let cpl := cpl_of env in
  raise_if (is_int && (dpl_of e2 <? cpl)) EXCP0D_GPF err ;;
  raise_if (negb (has e2 DESC_P_MASK)) EXCP0B_NOSEG err ;;
  let sel := Z.shiftr e1 16 in
  let offset := Z.lor (Z.land e2 0xffff0000) (Z.land e1 0x0000ffff) in
  let err := Z.land sel 0xfffc in
  raise_if (null_sel sel) EXCP0D_GPF 0 ;;
  e <- need_segment sel EXCP0D_GPF err ;;
  let '(e1, e2) := e in
  raise_if (negb (has e2 DESC_S_MASK) || negb (has e2 DESC_CS_MASK)) EXCP0D_GPF err ;;
  raise_if (cpl <? dpl_of e2) EXCP0D_GPF err ;;
  raise_if (negb (has e2 DESC_P_MASK)) EXCP0B_NOSEG err ;;
  ep <- interrupt_stack cpl sel e2 ;;
  esp <- push_all (Z.shiftr type 3 =? 1) (ep_ssp ep) (ep_mask ep)
           (interrupt_frame env (ep_inner ep) old_eip error) (ep_esp ep) ;;
  kmod (enter_handler type sel offset e1 e2 esp ep).

Definition do_interrupt_protected (intno : Z) (is_int : bool) (error_code next_eip : Z) (is_hw : bool) : K G unit :=
  env <- kget ;;
  let has_error_code := if negb is_int && negb is_hw then exception_has_error_code intno else false in
  let old_eip := if is_int then next_eip else eip env in
  let err := intno * 8 + 2 in
  raise_if (limit (idt env) <? u32 (intno * 8 + 7)) EXCP0D_GPF err ;;
  let ptr := u32 (base (idt env) + intno * 8) in
  e1 <- cpu_ldl_kernel ptr ;;
  e2 <- cpu_ldl_kernel (ptr + 4) ;;
  let type := Z.land (Z.shiftr e2 8) 0x1f in
  if type =? 5 then
    raise_if (negb (has e2 DESC_P_MASK)) EXCP0B_NOSEG err ;;
    switch_tss (intno * 8) e1 e2 SWITCH_TSS_CALL old_eip ;;
    if has_error_code then push_task_error error_code else kret tt
  else if one_of [6; 7; 14; 15] type then
    interrupt_gate intno is_int old_eip (if has_error_code then Some error_code else None) e1 e2
  else raise EXCP0D_GPF err.

Definition do_interrupt_real (intno : Z) (is_int : bool) (next_eip : Z) : K G unit :=
  env <- kget ;;
  raise_if (limit (idt env) <? u32 (intno * 4 + 3)) EXCP0D_GPF (intno * 8 + 2) ;;
  let ptr := u32 (base (idt env) + intno * 4) in
  offset <- cpu_lduw_kernel ptr ;;
  sel <- cpu_lduw_kernel (ptr + 2) ;;
  let old_eip := if is_int then next_eip else eip env in
  esp <- push_all false (base (seg env R_SS)) 0xffff
           [cpu_compute_eflags env; selector (seg env R_CS); old_eip] (reg env R_ESP) ;;
  kmod (fun env =>
    let env := put_reg R_ESP (Z.lor (Z.land (reg env R_ESP) (not32 0xffff)) (Z.land esp 0xffff)) env in
    let env := set_cs_real sel (with_eip offset env) in
    with_eflags (Z.land (eflags env) (not32 (Z.lor (Z.lor (Z.lor IF_MASK TF_MASK) AC_MASK) RF_MASK))) env).

(** ** The event an SVM monitor sees *)

Definition SVM_EVTINJ_TYPE_EXEPT : Z := Z.shiftl 3 8.
Definition SVM_EVTINJ_TYPE_SOFT : Z := Z.shiftl 4 8.
Definition SVM_EVTINJ_VALID : Z := Z.shiftl 1 31.
Definition SVM_EVTINJ_VALID_ERR : Z := Z.shiftl 1 11.
(** offsetof(struct vmcb, control.event_inj) and control.event_inj_err *)
Definition vmcb_event_inj : Z := 0xa8.
Definition vmcb_event_inj_err : Z := 0xac.

Definition handle_even_inj (intno : Z) (is_int : bool) (error_code : Z) (rm : bool) : K G unit :=
  fun env g =>
    let at_inj := vm_vmcb env + vmcb_event_inj in
    if has (ldl_mem at_inj g) SVM_EVTINJ_VALID then KRet tt env g
    else
      let type := if is_int then SVM_EVTINJ_TYPE_SOFT else SVM_EVTINJ_TYPE_EXEPT in
      let event_inj := Z.lor (Z.lor intno type) SVM_EVTINJ_VALID in
      let '(event_inj, g) :=
        if negb rm && exception_has_error_code intno
        then (Z.lor event_inj SVM_EVTINJ_VALID_ERR, stl_mem (vm_vmcb env + vmcb_event_inj_err) error_code g)
        else (event_inj, g) in
      KRet tt env (stl_mem at_inj event_inj g).

Definition clear_event_inj : K G unit :=
  fun env g =>
    let at_inj := vm_vmcb env + vmcb_event_inj in
    KRet tt env (stl_mem at_inj (Z.land (ldl_mem at_inj g) (not32 SVM_EVTINJ_VALID)) g).

(** ** Delivery *)

(** What the tracer does at the start of an interrupt and at the end of a return
    from one (file Tracer). *)
Class IntrHooks : Type := {
  on_interrupt : Z -> K G unit;
  on_iret : K G unit
}.
Context `{!IntrHooks}.

Definition do_interrupt_all (intno : Z) (is_int : bool) (error_code next_eip : Z) (is_hw : bool) : K G unit :=
  on_interrupt intno ;;
  env <- kget ;;
  let svm env := has (hflags env) HF_SVMI_MASK in
  (if has (nth 0 (cr env) 0) CR0_PE_MASK then
     (if svm env then handle_even_inj intno is_int error_code false else kret tt) ;;
     do_interrupt_protected intno is_int error_code next_eip is_hw
   else
     (if svm env then handle_even_inj intno is_int error_code true else kret tt) ;;
     do_interrupt_real intno is_int next_eip) ;;
  env <- kget ;;
  if svm env then clear_event_inj else kret tt.

Definition x86_cpu_do_interrupt : K G unit :=
  env <- kget ;;
  do_interrupt_all (exception_index env) (negb (exception_is_int env =? 0)) (error_code env)
    (exception_next_eip env) false ;;
  kmod (with_old_exception (-1)).

Definition do_interrupt_x86_hardirq (intno : Z) (is_hw : bool) : K G unit :=
  do_interrupt_all intno false 0 0 is_hw.
End Interrupt.

Arguments IntrHooks G : clear implicits.
