(* ===== verification/SegCall.v ===== *)
(** * Far control transfers

    target-i386/seg_helper.c: far jumps, calls and returns, returns from
    interrupts, fast system calls and [enter]. *)

From stdpp Require Import base list.
From Stdlib Require Import ZArith Lia.
From S2P Require Import Prelude Cpu CcHelper Excp Guest Seg SegTask SegInt.

Local Open Scope Z_scope.
Local Open Scope k_scope.

Section Call.
Context {G : Type} `{!SoftMmu G}.

(** ** [enter] *)

Fixpoint enter_copy (wide : bool) (ssp esp_mask : Z) (n : nat) (esp ebp : Z) : K G Z :=
  match n with
  | O => kret esp
  | S n' =>
      let d := if wide then 4 else 2 in
      let esp := u32 (esp - d) in
      let ebp := u32 (ebp - d) in
      let src := ssp + Z.land ebp esp_mask in
      let dst := ssp + Z.land esp esp_mask in
      (if wide then v <- cpu_ldl_data src ;; cpu_stl_data dst v
       else v <- cpu_lduw_data src ;; cpu_stw_data dst v) ;;
      enter_copy wide ssp esp_mask n' esp ebp
  end.

(** [while (--level)] decrements a level of 0 until it overflows. *)
Definition helper_enter_level (level : Z) (data32 : bool) (t1 : Z) : K G unit :=
  env <- kget ;;
  let esp_mask := get_sp_mask (sflags (seg env R_SS)) in
  let ssp := base (seg env R_SS) in
  let d := if data32 then 4 else 2 in
  if level <=? 0 then kabort
  else
    esp <- enter_copy data32 ssp esp_mask (Z.to_nat (level - 1)) (u32 (reg env R_ESP - d)) (reg env R_EBP) ;;
    let esp := u32 (esp - d) in
    if data32 then cpu_stl_data (ssp + Z.land esp esp_mask) t1
    else cpu_stw_data (ssp + Z.land esp esp_mask) t1.

(** ** Jumps *)

(** The privileges a direct jump or call to a code segment needs, and its presence. *)
Definition check_code (new_cs cpl e2 : Z) : K G unit :=
  let err := Z.land new_cs 0xfffc in
  let dpl := dpl_of e2 in
  raise_if (negb (has e2 DESC_CS_MASK)) EXCP0D_GPF err ;;
  (if has e2 DESC_C_MASK then raise_if (cpl <? dpl) EXCP0D_GPF err
   else
     raise_if (cpl <? rpl_of new_cs) EXCP0D_GPF err ;;
     raise_if (negb (dpl =? cpl)) EXCP0D_GPF err) ;;
  raise_if (negb (has e2 DESC_P_MASK)) EXCP0B_NOSEG err.

(** [(cs & 0xfffc) | cpl] *)
Definition with_level (cs cpl : Z) : Z := Z.lor (Z.land cs 0xfffc) cpl.

Definition enter_code (cs cpl e1 e2 lim new_eip : Z) (env : CPUX86State) : CPUX86State :=
  with_eip new_eip (cpu_x86_load_seg_cache R_CS (with_level cs cpl) (get_seg_base e1 e2) lim e2 env).

(** A task switch made by a jump or a call. *)
Definition task_transfer (new_cs cpl e1 e2 source next_eip : Z) : K G unit :=
  raise_if ((dpl_of e2 <? cpl) || (dpl_of e2 <? rpl_of new_cs)) EXCP0D_GPF (Z.land new_cs 0xfffc) ;;
  switch_tss new_cs e1 e2 source next_eip ;;
  kmod (with_cc_op CC_OP_EFLAGS).

(** Through a call gate: never to another level. *)
Definition jump_gate (new_cs cpl e1 e2 : Z) : K G unit :=
  let err := Z.land new_cs 0xfffc in
  raise_if ((dpl_of e2 <? cpl) || (dpl_of e2 <? rpl_of new_cs)) EXCP0D_GPF err ;;
  raise_if (negb (has e2 DESC_P_MASK)) EXCP0B_NOSEG err ;;
  let gate_cs := Z.shiftr e1 16 in
  let new_eip := Z.land e1 0xffff in
  let new_eip := if type_of e2 =? 12 then Z.lor new_eip (Z.land e2 0xffff0000) else new_eip in
  let err := Z.land gate_cs 0xfffc in
  e <- need_segment gate_cs EXCP0D_GPF err ;;
  let '(e1, e2) := e in
  let dpl := dpl_of e2 in
  let code := Z.lor DESC_S_MASK DESC_CS_MASK in
  raise_if (negb (Z.land e2 code =? code)) EXCP0D_GPF err ;;
  raise_if ((has e2 DESC_C_MASK && (cpl <? dpl)) || (negb (has e2 DESC_C_MASK) && negb (dpl =? cpl)))
    EXCP0D_GPF err ;;
  raise_if (negb (has e2 DESC_P_MASK)) EXCP0D_GPF err ;;
  let lim := get_seg_limit e1 e2 in
  raise_if (lim <? new_eip) EXCP0D_GPF 0 ;;
  kmod (enter_code gate_cs cpl e1 e2 lim new_eip).

Definition helper_ljmp_protected (new_cs new_eip next_eip_addend : Z) : K G unit :=
  let err := Z.land new_cs 0xfffc in
  raise_if (null_sel new_cs) EXCP0D_GPF 0 ;;
  e <- need_segment new_cs EXCP0D_GPF err ;;
  let '(e1, e2) := e in
  env <- kget ;;
  let cpl := cpl_of env in
  if has e2 DESC_S_MASK then
    check_code new_cs cpl e2 ;;
    let lim := get_seg_limit e1 e2 in
    raise_if ((lim <? new_eip) && negb (has (hflags env) HF_LMA_MASK) && negb (has e2 DESC_L_MASK))
      EXCP0D_GPF err ;;
    kmod (enter_code new_cs cpl e1 e2 lim new_eip)
  else
    let type := type_of e2 in
    if one_of [1; 9; 5] type then
      task_transfer new_cs cpl e1 e2 SWITCH_TSS_JMP (u32 (eip env + next_eip_addend))
    else if one_of [4; 12] type then jump_gate new_cs cpl e1 e2
    else raise EXCP0D_GPF err.

(** ** Calls *)

Definition helper_lcall_real (new_cs new_eip : Z) (wide : bool) (next_eip : Z) : K G unit :=
  env <- kget ;;
  let esp_mask := get_sp_mask (sflags (seg env R_SS)) in
  esp <- push_all wide (base (seg env R_SS)) esp_mask [selector (seg env R_CS); next_eip] (reg env R_ESP) ;;
  kmod (fun env => set_cs_real new_cs (with_eip (u32 new_eip) (SET_ESP esp esp_mask env))).

(** Directly to a code segment. *)
Definition call_code (new_cs new_eip : Z) (wide : bool) (next_eip cpl e1 e2 : Z) : K G unit :=
  check_code new_cs cpl e2 ;;
  env <- kget ;;
  let sp_mask := get_sp_mask (sflags (seg env R_SS)) in
  sp <- push_all wide (base (seg env R_SS)) sp_mask [selector (seg env R_CS); next_eip] (reg env R_ESP) ;;
  let lim := get_seg_limit e1 e2 in
  raise_if (lim <? new_eip) EXCP0D_GPF (Z.land new_cs 0xfffc) ;;
  kmod (fun env => enter_code new_cs cpl e1 e2 lim new_eip (SET_ESP sp sp_mask env)).

(** The [n] parameters on the old stack, last to first, go to the new one. *)
Fixpoint copy_params (wide : bool) (old_ssp old_mask old_esp ssp sp_mask : Z) (n : nat) (sp : Z) : K G Z :=
  match n with
  | O => kret sp
  | S i =>
      let d := if wide then 4 else 2 in
      let a := old_ssp + Z.land (u32 (old_esp + Z.of_nat i * d)) old_mask in
      val <- (if wide then cpu_ldl_kernel a else cpu_lduw_kernel a) ;;
      sp <- PUSH wide ssp sp_mask val sp ;;
      copy_params wide old_ssp old_mask old_esp ssp sp_mask i sp
  end.

Definition enter_callee (sel offset e1 e2 sp : Z) (ep : entry_point) (env : CPUX86State) : CPUX86State :=
  let dpl := ep_dpl ep in
  let env :=
    match ep_new ep with
    | Some (ss, ss_e1, ss_e2) =>
        cpu_x86_load_seg_cache R_SS (Z.lor (Z.land ss (Z.lnot 3)) dpl) (ep_ssp ep)
          (get_seg_limit ss_e1 ss_e2) ss_e2 env
    | None => env
    end in
  let env := load_desc R_CS (Z.lor (Z.land sel (Z.lnot 3)) dpl) e1 e2 env in
  with_eip offset (SET_ESP sp (ep_mask ep) (cpu_x86_set_cpl dpl env)).

Definition call_gate (new_cs next_eip cpl e1 e2 : Z) : K G unit :=
  let err := Z.land new_cs 0xfffc in
  let wide := Z.shiftr (type_of e2) 3 =? 1 in
  raise_if ((dpl_of e2 <? cpl) || (dpl_of e2 <? rpl_of new_cs)) EXCP0D_GPF err ;;
  raise_if (negb (has e2 DESC_P_MASK)) EXCP0B_NOSEG err ;;
  let sel := Z.shiftr e1 16 in
  let offset := Z.lor (Z.land e2 0xffff0000) (Z.land e1 0x0000ffff) in
  let param_count := Z.land e2 0x1f in
  let err := Z.land sel 0xfffc in
  raise_if (null_sel sel) EXCP0D_GPF 0 ;;
  e <- need_segment sel EXCP0D_GPF err ;;
  let '(e1, e2) := e in
  raise_if (negb (has e2 DESC_S_MASK) || negb (has e2 DESC_CS_MASK)) EXCP0D_GPF err ;;
  let dpl := dpl_of e2 in
  raise_if (cpl <? dpl) EXCP0D_GPF err ;;
  raise_if (negb (has e2 DESC_P_MASK)) EXCP0B_NOSEG err ;;
  env <- kget ;;
  x <- (if negb (has e2 DESC_C_MASK) && (dpl <? cpl) then
          ep <- new_stack dpl ;;
          sp <- push_all wide (ep_ssp ep) (ep_mask ep) [selector (seg env R_SS); reg env R_ESP] (ep_esp ep) ;;
          sp <- copy_params wide (base (seg env R_SS)) (get_sp_mask (sflags (seg env R_SS))) (reg env R_ESP)
                  (ep_ssp ep) (ep_mask ep) (Z.to_nat param_count) sp ;;
          kret (ep, sp)
        else let ep := same_stack dpl env in kret (ep, ep_esp ep)) ;;
  let '(ep, sp) := x in
  sp <- push_all wide (ep_ssp ep) (ep_mask ep) [selector (seg env R_CS); next_eip] sp ;;
  kmod (enter_callee sel offset e1 e2 sp ep).

Definition helper_lcall_protected (new_cs new_eip : Z) (wide : bool) (next_eip_addend : Z) : K G unit :=
  env <- kget ;;
  let next_eip := u32 (eip env + next_eip_addend) in
  let err := Z.land new_cs 0xfffc in
  raise_if (null_sel new_cs) EXCP0D_GPF 0 ;;
  e <- need_segment new_cs EXCP0D_GPF err ;;
  let '(e1, e2) := e in
  let cpl := cpl_of env in
  if has e2 DESC_S_MASK then call_code new_cs new_eip wide next_eip cpl e1 e2
  else
    let type := type_of e2 in
    if one_of [1; 9; 5] type then task_transfer new_cs cpl e1 e2 SWITCH_TSS_CALL next_eip
    else if one_of [4; 12] type then call_gate new_cs next_eip cpl e1 e2
    else raise EXCP0D_GPF err.

(** ** Returns *)

Definition helper_iret_real (wide : bool) : K G unit :=
  env <- kget ;;
  let sp_mask := 0xffff in
  x <- pop_all wide (base (seg env R_SS)) sp_mask 3 (reg env R_ESP) ;;
  let '(vs, sp) := x in
  let new_eip := nth 0 vs 0 in
  let new_cs := if wide then Z.land (nth 1 vs 0) 0xffff else nth 1 vs 0 in
  let new_eflags := nth 2 vs 0 in
  kmod (fun env =>
    let env := put_reg R_ESP (Z.lor (Z.land (reg env R_ESP) (not32 sp_mask)) (Z.land sp sp_mask)) env in
    let env := with_eip new_eip (set_cs_real new_cs env) in
    let mask := Z.lor (Z.lor (Z.lor (Z.lor (Z.lor TF_MASK AC_MASK) ID_MASK) IF_MASK) RF_MASK) NT_MASK in
    let mask := if has (eflags env) VM_MASK then mask else Z.lor mask IOPL_MASK in
    let mask := if wide then mask else Z.land mask 0xffff in
    let env := cpu_load_eflags new_eflags mask env in
    with_hflags2 (Z.land (hflags2 env) (not32 HF2_NMI_MASK)) env).

(** The flags a return from an interrupt at level [cpl] may change. *)
Definition iret_mask (cpl iopl : Z) (wide : bool) : Z :=
  let mask := Z.lor (Z.lor (Z.lor (Z.lor TF_MASK AC_MASK) ID_MASK) RF_MASK) NT_MASK in
  let mask := if cpl =? 0 then Z.lor mask IOPL_MASK else mask in
  let mask := if cpl <=? iopl then Z.lor mask IF_MASK else mask in
  if wide then mask else Z.land mask 0xffff.

(** Checks of the code segment returned to. *)
Definition check_return (new_cs cpl e2 : Z) : K G unit :=
  let err := Z.land new_cs 0xfffc in
  let rpl := rpl_of new_cs in
  let dpl := dpl_of e2 in
  raise_if (negb (has e2 DESC_S_MASK) || negb (has e2 DESC_CS_MASK)) EXCP0D_GPF err ;;
  raise_if (rpl <? cpl) EXCP0D_GPF err ;;
  raise_if (if has e2 DESC_C_MASK then rpl <? dpl else negb (dpl =? rpl)) EXCP0D_GPF err ;;
  raise_if (negb (has e2 DESC_P_MASK)) EXCP0B_NOSEG err.

(** The stack of the outer level: [new_esp], [new_ss] and its descriptor. *)
Definition outer_stack (wide : bool) (ssp sp_mask rpl sp : Z) : K G (Z * Z * Z * Z) :=
  x <- pop_all wide ssp sp_mask 2 sp ;;
  let new_esp := nth 0 (fst x) 0 in
  let new_ss := nth 1 (fst x) 0 in
  let new_ss := if wide then Z.land new_ss 0xffff else new_ss in
  let err := Z.land new_ss 0xfffc in
  raise_if (null_sel new_ss) EXCP0D_GPF 0 ;;
  raise_if (negb (rpl_of new_ss =? rpl)) EXCP0D_GPF err ;;
  e <- need_segment new_ss EXCP0D_GPF err ;;
  let '(ss_e1, ss_e2) := e in
  raise_if (negb (has ss_e2 DESC_S_MASK) || has ss_e2 DESC_CS_MASK || negb (has ss_e2 DESC_W_MASK))
    EXCP0D_GPF err ;;
  raise_if (negb (dpl_of ss_e2 =? rpl)) EXCP0D_GPF err ;;
  raise_if (negb (has ss_e2 DESC_P_MASK)) EXCP0B_NOSEG err ;;
  kret (new_esp, new_ss, ss_e1, ss_e2).

Definition enter_outer (new_cs e1 e2 new_ss ss_e1 ss_e2 : Z) (env : CPUX86State) : CPUX86State :=
  let rpl := rpl_of new_cs in
  let env := load_desc R_SS new_ss ss_e1 ss_e2 env in
  let env := load_desc R_CS new_cs e1 e2 env in
  let env := cpu_x86_set_cpl rpl env in
  foldl (fun env r => validate_seg r rpl env) env [R_ES; R_DS; R_FS; R_GS].

Definition finish_return (sp sp_mask new_eip : Z) (flags : option (Z * Z * bool)) (env : CPUX86State) : CPUX86State :=
  let env := with_eip new_eip (SET_ESP sp sp_mask env) in
  match flags with
  | Some (new_eflags, cpl, wide) =>
      let iopl := Z.land (Z.shiftr (eflags env) IOPL_SHIFT) 3 in
      cpu_load_eflags new_eflags (iret_mask cpl iopl wide) env
  | None => env
  end.

(** To a vm86 task. *)
Definition return_to_vm86 (ssp sp_mask new_eip new_cs new_eflags sp : Z) : K G unit :=
  x <- pop_all true ssp sp_mask 6 sp ;;
  let v i := Z.land (nth i (fst x) 0) 0xffff in
  kmod (fun env =>
    let mask := Z.lor (Z.lor (Z.lor (Z.lor (Z.lor (Z.lor (Z.lor (Z.lor TF_MASK AC_MASK) ID_MASK)
                  IF_MASK) IOPL_MASK) VM_MASK) NT_MASK) VIF_MASK) VIP_MASK in
    let env := cpu_load_eflags new_eflags mask env in
    let env := load_seg_vm R_CS (Z.land new_cs 0xffff) env in
    let env := cpu_x86_set_cpl 3 env in
    let env := load_seg_vm R_SS (v 1%nat) env in
    let env := load_seg_vm R_ES (v 2%nat) env in
    let env := load_seg_vm R_DS (v 3%nat) env in
    let env := load_seg_vm R_FS (v 4%nat) env in
    let env := load_seg_vm R_GS (v 5%nat) env in
    put_reg R_ESP (nth 0 (fst x) 0) (with_eip (Z.land new_eip 0xffff) env)).

(** To a protected-mode segment, after the first pops. *)
Definition return_protected (wide is_iret : bool) (addend ssp sp_mask new_eip new_cs new_eflags sp : Z) : K G unit :=
  let err := Z.land new_cs 0xfffc in
  raise_if (null_sel new_cs) EXCP0D_GPF err ;;
  e <- need_segment new_cs EXCP0D_GPF err ;;
  let '(e1, e2) := e in
  env <- kget ;;
  let cpl := cpl_of env in
  check_return new_cs cpl e2 ;;
  let rpl := rpl_of new_cs in
  let sp := u32 (sp + addend) in
  let flags := if is_iret then Some (new_eflags, cpl, wide) else None in
  if (rpl =? cpl) && (negb (has (hflags env) HF_CS64_MASK) || negb is_iret) then
    kmod (fun env => finish_return sp sp_mask new_eip flags (load_desc R_CS new_cs e1 e2 env))
  else
    s <- outer_stack wide ssp sp_mask rpl sp ;;
    let '(new_esp, new_ss, ss_e1, ss_e2) := s in
    kmod (fun env =>
      finish_return (u32 (new_esp + addend)) (get_sp_mask ss_e2) new_eip flags
        (enter_outer new_cs e1 e2 new_ss ss_e1 ss_e2 env)).

Definition helper_ret_protected (wide is_iret : bool) (addend : Z) : K G unit :=
  env <- kget ;;
  let sp_mask := get_sp_mask (sflags (seg env R_SS)) in
  let ssp := base (seg env R_SS) in
  x <- pop_all wide ssp sp_mask (if is_iret then 3 else 2)%nat (reg env R_ESP) ;;
  let '(vs, sp) := x in
  let new_eip := nth 0 vs 0 in
  let new_cs := if wide then Z.land (nth 1 vs 0) 0xffff else nth 1 vs 0 in
  let new_eflags := if is_iret then nth 2 vs 0 else 0 in
  if wide && is_iret && has new_eflags VM_MASK
  then return_to_vm86 ssp sp_mask new_eip new_cs new_eflags sp
  else return_protected wide is_iret addend ssp sp_mask new_eip new_cs new_eflags sp.

Definition helper_lret_protected (wide : bool) (addend : Z) : K G unit := helper_ret_protected wide false addend.

Definition helper_iret_protected `{!IntrHooks G} (wide : bool) (next_eip : Z) : K G unit :=
  env <- kget ;;
  (if has (eflags env) NT_MASK then
     tss_selector <- cpu_lduw_kernel (base (tr env)) ;;
     let err := Z.land tss_selector 0xfffc in
     raise_if (has tss_selector 4) EXCP0A_TSS err ;;
     e <- need_segment tss_selector EXCP0A_TSS err ;;
     let '(e1, e2) := e in
     raise_if (negb (Z.land (Z.shiftr e2 8) 0x17 =? 3)) EXCP0A_TSS err ;;
     switch_tss tss_selector e1 e2 SWITCH_TSS_IRET next_eip
   else helper_ret_protected wide true 0) ;;
  kmod (fun env => with_hflags2 (Z.land (hflags2 env) (not32 HF2_NMI_MASK)) env) ;;
  on_iret.

(** ** Fast system calls *)

Definition flat_code : Z :=
  Z.lor (Z.lor (Z.lor (Z.lor (Z.lor (Z.lor DESC_G_MASK DESC_B_MASK) DESC_P_MASK) DESC_S_MASK)
    DESC_CS_MASK) DESC_R_MASK) DESC_A_MASK.
Definition flat_data : Z :=
  Z.lor (Z.lor (Z.lor (Z.lor (Z.lor DESC_G_MASK DESC_B_MASK) DESC_P_MASK) DESC_S_MASK)
    DESC_W_MASK) DESC_A_MASK.

Definition helper_sysenter : K G unit :=
  env <- kget ;;
  raise_if (sysenter_cs env =? 0) EXCP0D_GPF 0 ;;
  kmod (fun env =>
    let cs := sysenter_cs env in
    let env := with_eflags (Z.land (eflags env) (not32 (Z.lor (Z.lor VM_MASK IF_MASK) RF_MASK))) env in
    let env := cpu_x86_set_cpl 0 env in
    let env := cpu_x86_load_seg_cache R_CS (Z.land cs 0xfffc) 0 0xffffffff flat_code env in
    let env := cpu_x86_load_seg_cache R_SS (Z.land (cs + 8) 0xfffc) 0 0xffffffff flat_data env in
    with_eip (sysenter_eip env) (put_reg R_ESP (sysenter_esp env) env)).

Definition helper_sysexit : K G unit :=
  env <- kget ;;
  raise_if ((sysenter_cs env =? 0) || negb (cpl_of env =? 0)) EXCP0D_GPF 0 ;;
  kmod (fun env =>
    let cs := sysenter_cs env in
    let user := Z.shiftl 3 13 in
    let env := cpu_x86_set_cpl 3 env in
    let env := cpu_x86_load_seg_cache R_CS (Z.lor (Z.land (cs + 16) 0xfffc) 3) 0 0xffffffff
                 (Z.lor flat_code user) env in
    let env := cpu_x86_load_seg_cache R_SS (Z.lor (Z.land (cs + 24) 0xfffc) 3) 0 0xffffffff
                 (Z.lor flat_data user) env in
    with_eip (reg env R_EDX) (put_reg R_ESP (reg env R_ECX) env)).
End Call.
