(* ===== verification/SegInv.v ===== *)
(** * Invariants of the segment registers

    The hidden flags agree with the segment registers, the privilege level with
    the code segment, and no data segment is more privileged than the level:
    how the state changes that the helpers end with keep these. *)

From stdpp Require Import base list.
From Stdlib Require Import ZArith Lia.
From S2P Require Import Prelude Cpu CcHelper Excp Guest Seg SegSpec SegTask SegInt SegCall.

Local Open Scope Z_scope.
Local Open Scope k_scope.

(** ** The invariant *)

(** The translator reads the width of code and stack from the hidden flags, and
    omits the bases of [ds], [es] and [ss] when the flags allow it. *)
Definition hidden_ok (env : CPUX86State) : Prop :=
  length (segs env) = 6%nat /\
  has (hflags env) HF_CS32_MASK = has (sflags (seg env R_CS)) DESC_B_MASK /\
  has (hflags env) HF_SS32_MASK = has (sflags (seg env R_SS)) DESC_B_MASK /\
  has (hflags env) HF_CS64_MASK = false /\
  (has (hflags env) HF_ADDSEG_MASK = false -> flat env).

Definition in_protected (env : CPUX86State) : bool := has (nth 0 (cr env) 0) CR0_PE_MASK.
Definition in_vm86 (env : CPUX86State) : bool := has (eflags env) VM_MASK.
Definition task32 (env : CPUX86State) : bool := has (type_of (sflags (tr env))) 8.

(** The level is the one requested by the selector in [cs]; in vm86 mode it is 3
    (in a task entered through a 32-bit TSS). *)
Definition level_ok (env : CPUX86State) : Prop :=
  in_protected env = true ->
  (in_vm86 env = false -> cpl_of env = rpl_of (selector (seg env R_CS))) /\
  (in_vm86 env = true -> task32 env = true -> cpl_of env = 3).

(** A data segment is unusable, conforming code, or no more privileged than
    level [cpl]. *)
Definition usable_at (cpl : Z) (sc : SegmentCache) : Prop :=
  (null_sel (selector sc) = true -> sflags sc = 0) /\
  (sflags sc = 0 \/ conforming (sflags sc) = true \/ cpl <= dpl_of (sflags sc)).

#[export] Instance usable_at_dec cpl sc : Decision (usable_at cpl sc).
Proof. unfold usable_at. apply _. Defined.

Definition data_regs : list nat := [R_ES; R_DS; R_FS; R_GS].
Definition data_ok (env : CPUX86State) : Prop :=
  Forall (fun r => usable_at (cpl_of env) (seg env r)) data_regs.

Definition seg_inv (env : CPUX86State) : Prop := hidden_ok env /\ level_ok env /\ data_ok env.

(** It does not depend on a pending exception. *)
#[export] Instance seg_inv_proper : Proper (same_arch ==> iff) seg_inv.
Proof.
  assert (forall e e', same_arch e e' -> seg_inv e -> seg_inv e') as H.
  { intros e e' He. unfold seg_inv, hidden_ok, level_ok, data_ok, in_protected, in_vm86, task32, flat, cpl_of, seg.
    rewrite (same_hflags _ _ He), (same_segs _ _ He), (same_eflags _ _ He), (same_cr0 _ _ He).
    assert (tr e' = tr e) as -> by (by injection He). done. }
  intros e e' He. split; apply H; [done|by symmetry].
Qed.

(** ** Levels *)

Lemma land3_bits h h' : Z.testbit h' 0 = Z.testbit h 0 -> Z.testbit h' 1 = Z.testbit h 1 -> Z.land h' 3 = Z.land h 3.
Proof.
  intros H0 H1. change 3 with (Z.ones 2). apply Z.bits_inj'. intros n Hn. rewrite !Z.land_spec.
  destruct (decide (n = 0)) as [->|]; [by rewrite H0|]. destruct (decide (n = 1)) as [->|]; [by rewrite H1|].
  by rewrite Z.ones_spec_high, !andb_false_r by lia.
Qed.

Lemma land3_range x : 0 <= Z.land x 3 < 4.
Proof. change 3 with (Z.ones 2). rewrite Z.land_ones by done. apply Z.mod_pos_bound. done. Qed.

Lemma cpl_range env : 0 <= cpl_of env < 4.
Proof. apply land3_range. Qed.

Lemma cpl_load_seg r sel bas lim fl env : cpl_of (cpu_x86_load_seg_cache r sel bas lim fl env) = cpl_of env.
Proof. apply land3_bits; rewrite load_seg_bits by done; by destruct (r =? R_CS)%nat. Qed.

Lemma set_cpl_bits c env k :
  0 <= c < 4 -> 2 <= k < 32 -> Z.testbit (hflags (cpu_x86_set_cpl c env)) k = Z.testbit (hflags env) k.
Proof.
  intros Hc Hk. cbn [hflags cpu_x86_set_cpl with_hflags]. rewrite put_bits by lia.
  change HF_CPL_MASK with (Z.ones 2). rewrite Z.ones_spec_high, andb_true_r by lia.
  rewrite (Z.bits_above_log2 c), orb_false_r; [done|lia|].
  destruct (decide (c = 0)) as [->|]; [simpl; lia|]. apply Z.log2_lt_pow2; [lia|].
  change 4 with (2 ^ 2) in Hc. apply (Z.lt_le_trans _ (2 ^ 2)); [lia|]. apply Z.pow_le_mono_r; lia.
Qed.

Lemma cpl_set c env : 0 <= c < 4 -> cpl_of (cpu_x86_set_cpl c env) = c.
Proof.
  intros Hc. unfold cpl_of, cpu_x86_set_cpl. cbn [hflags with_hflags].
  rewrite Z.land_lor_distr_l, <-Z.land_assoc. change (Z.land (not32 HF_CPL_MASK) HF_CPL_MASK) with 0.
  rewrite Z.land_0_r, Z.lor_0_l. change HF_CPL_MASK with (Z.ones 2). rewrite Z.land_ones by done.
  by apply Z.mod_small.
Qed.

(** The task-switched flag. *)
Definition ts_flag (env : CPUX86State) : bool := has (hflags env) HF_TS_MASK.

Lemma ts_load_seg r sel bas lim fl env : ts_flag (cpu_x86_load_seg_cache r sel bas lim fl env) = ts_flag env.
Proof.
  unfold ts_flag. change HF_TS_MASK with (2 ^ 11). rewrite !has_bit, load_seg_bits by done. by destruct (r =? R_CS)%nat.
Qed.

Lemma ts_set_cpl c env : 0 <= c < 4 -> ts_flag (cpu_x86_set_cpl c env) = ts_flag env.
Proof. intros Hc. unfold ts_flag. change HF_TS_MASK with (2 ^ 11). by rewrite !has_bit, set_cpl_bits by done. Qed.

(** ** Segment registers after a load *)

Lemma seg_load r sel bas lim fl env r' :
  length (segs env) = 6%nat -> (r < 6)%nat ->
  seg (cpu_x86_load_seg_cache r sel bas lim fl env) r' =
  if decide (r' = r) then mkSeg (u32 sel) (u32 bas) (u32 lim) (u32 fl) else seg env r'.
Proof.
  intros Hl Hr. unfold seg. rewrite load_seg_segs, !nth_lookup.
  destruct (decide (r' = r)) as [->|]; [by rewrite list_lookup_insert_eq by lia|].
  by rewrite list_lookup_insert_ne.
Qed.

Lemma load_seg_len r sel bas lim fl env :
  length (segs (cpu_x86_load_seg_cache r sel bas lim fl env)) = length (segs env).
Proof. by rewrite load_seg_segs, length_insert. Qed.

Lemma flat_needs_base env : has (hflags env) HF_CS64_MASK = false -> needs_base env = false -> flat env.
Proof.
  unfold needs_base, flat. intros ->. destruct (_ || _ || _); [done|]. intros H%negb_false_iff%Z.eqb_eq.
  apply Z.lor_eq_0_iff in H as [[H1 H2]%Z.lor_eq_0_iff H3]. done.
Qed.

(** The hidden flags are right after any load, once [cs] is. *)
Lemma hidden_load r sel bas lim fl env :
  hidden_ok env -> (r < 6)%nat -> hidden_ok (cpu_x86_load_seg_cache r sel bas lim fl env).
Proof.
  intros (Hl & H1 & H2 & H3 & H4) Hr. set (env' := cpu_x86_load_seg_cache r sel bas lim fl env).
  assert (has (hflags env') HF_CS64_MASK = false) as H15.
  { change HF_CS64_MASK with (2 ^ 15) in *. rewrite has_bit in H3 |- * by done.
    unfold env'. rewrite load_seg_bits by done. by destruct (r =? R_CS)%nat. }
  split; [by unfold env'; rewrite load_seg_len|]. split_and!.
  - change HF_CS32_MASK with (2 ^ 4) in *. change DESC_B_MASK with (2 ^ 22) in *.
    rewrite !has_bit in * by done. unfold env' at 1. rewrite load_seg_bits by done. cbn [Z.eqb Pos.eqb].
    destruct (Nat.eqb_spec r R_CS) as [->|Hn]; [done|]. fold env'. unfold env'. rewrite seg_load by done.
    by rewrite decide_False by done.
  - change HF_SS32_MASK with (2 ^ 5) in *. change DESC_B_MASK with (2 ^ 22) in *.
    rewrite !has_bit by done. unfold env' at 1. by rewrite load_seg_bits by done.
  - done.
  - change HF_ADDSEG_MASK with (2 ^ 6). rewrite has_bit by done. intros H6. apply flat_needs_base; [done|].
    revert H6. unfold env' at 1. by rewrite load_seg_bits by done.
Qed.

Lemma only_segs_fields env env' :
  only_segs env env' ->
  cr env' = cr env /\ eflags env' = eflags env /\ tr env' = tr env /\ regs env' = regs env /\
  eip env' = eip env /\ gdt env' = gdt env /\ ldt env' = ldt env /\ idt env' = idt env.
Proof. unfold only_segs. intros ->. done. Qed.

(** ** Loads keep the invariant *)

Lemma level_load r sel bas lim fl env :
  level_ok env -> length (segs env) = 6%nat -> (r < 6)%nat -> (r = R_CS -> rpl_of (u32 sel) = cpl_of env) ->
  level_ok (cpu_x86_load_seg_cache r sel bas lim fl env).
Proof.
  intros H Hl Hr Hcs. unfold level_ok, in_protected, in_vm86, task32.
  destruct (only_segs_fields _ _ (load_seg_only r sel bas lim fl env)) as (-> & -> & -> & _).
  rewrite cpl_load_seg, seg_load by done. intros Hp. destruct (H Hp) as [Hv Hv']. split; [|done].
  intros Hvm. case_decide; [by symmetry; apply Hcs|by apply Hv].
Qed.

Lemma data_load r sel bas lim fl env :
  data_ok env -> length (segs env) = 6%nat -> (r < 6)%nat ->
  (r ∈ data_regs -> usable_at (cpl_of env) (mkSeg (u32 sel) (u32 bas) (u32 lim) (u32 fl))) ->
  data_ok (cpu_x86_load_seg_cache r sel bas lim fl env).
Proof.
  intros H Hl Hr Hu. unfold data_ok in *. rewrite Forall_forall in *. intros r' Hin. rewrite cpl_load_seg.
  rewrite seg_load by done. case_decide as E; [subst; by apply Hu|by apply H].
Qed.

(** ** Changes other than loads *)

Definition data_at (cpl : Z) (env : CPUX86State) : Prop :=
  Forall (fun r => usable_at cpl (seg env r)) data_regs.

Lemma data_at_mono c c' env : c' <= c -> data_at c env -> data_at c' env.
Proof.
  intros Hc H. eapply Forall_impl; [exact H|]. intros r [Hn Hd]. split; [done|]. destruct Hd as [Hd|[Hd|Hd]]; auto. right; right; lia.
Qed.

(** Same segment registers, same hidden flags. *)
Lemma hidden_same env env' : hflags env' = hflags env -> segs env' = segs env -> hidden_ok env -> hidden_ok env'.
Proof. intros Hh Hs. unfold hidden_ok, flat, seg. by rewrite Hh, Hs. Qed.

Lemma data_at_same c env env' : segs env' = segs env -> data_at c env -> data_at c env'.
Proof. intros Hs. unfold data_at, seg. by rewrite Hs. Qed.

Lemma inv_same env env' :
  hflags env' = hflags env -> segs env' = segs env -> nth 0 (cr env') 0 = nth 0 (cr env) 0 ->
  in_vm86 env' = in_vm86 env -> tr env' = tr env -> seg_inv env -> seg_inv env'.
Proof.
  intros Hh Hs Hc Hv Ht (H1 & H2 & H3). split; [by apply (hidden_same env)|]. split.
  - unfold level_ok, in_protected, task32, cpl_of, seg in *. by rewrite Hh, Hs, Hc, Hv, Ht.
  - unfold data_ok, cpl_of in *. rewrite Hh. by apply (data_at_same _ env).
Qed.

Lemma hidden_set_cpl c env : 0 <= c < 4 -> hidden_ok env -> hidden_ok (cpu_x86_set_cpl c env).
Proof.
  intros Hc (Hl & H1 & H2 & H3 & H4). unfold hidden_ok, flat.
  change HF_CS32_MASK with (2 ^ 4) in *. change HF_SS32_MASK with (2 ^ 5) in *.
  change HF_CS64_MASK with (2 ^ 15) in *. change HF_ADDSEG_MASK with (2 ^ 6) in *.
  rewrite !(has_bit (hflags _)) in * by done. by rewrite !set_cpl_bits by done.
Qed.

Lemma data_at_load c r sel bas lim fl env :
  data_at c env -> length (segs env) = 6%nat -> (r < 6)%nat ->
  (r ∈ data_regs -> usable_at c (mkSeg (u32 sel) (u32 bas) (u32 lim) (u32 fl))) ->
  data_at c (cpu_x86_load_seg_cache r sel bas lim fl env).
Proof.
  intros H Hl Hr Hu. unfold data_at in *. rewrite Forall_forall in *. intros r' Hin.
  rewrite seg_load by done. case_decide as E; [subst; by apply Hu|by apply H].
Qed.

Lemma usable_zero c sel bas lim : usable_at c (mkSeg sel bas lim 0).
Proof. split; [done|by left]. Qed.

Lemma hidden_len env : hidden_ok env -> length (segs env) = 6%nat.
Proof. by intros [? _]. Qed.

(** ** Selectors *)

Lemma u32_testbit x k : 0 <= k < 32 -> Z.testbit (u32 x) k = Z.testbit x k.
Proof. apply testbit_wrap. Qed.

Lemma rpl_u32 sel : rpl_of (u32 sel) = rpl_of sel.
Proof. apply land3_bits; by rewrite u32_testbit. Qed.

Lemma land3_small c : 0 <= c < 4 -> Z.land c 3 = c.
Proof. intros Hc. change 3 with (Z.ones 2). rewrite Z.land_ones by done. by apply Z.mod_small. Qed.

Lemma rpl_with_level cs c : 0 <= c < 4 -> rpl_of (with_level cs c) = c.
Proof.
  intros Hc. unfold rpl_of, with_level. rewrite Z.land_lor_distr_l, <-Z.land_assoc.
  change (Z.land 0xfffc 3) with 0. by rewrite Z.land_0_r, Z.lor_0_l, land3_small.
Qed.

Lemma rpl_replaced sel c : 0 <= c < 4 -> rpl_of (Z.lor (Z.land sel (Z.lnot 3)) c) = c.
Proof.
  intros Hc. unfold rpl_of. rewrite Z.land_lor_distr_l, <-Z.land_assoc.
  change (Z.land (Z.lnot 3) 3) with 0. by rewrite Z.land_0_r, Z.lor_0_l, land3_small.
Qed.

Lemma dpl_range e2 : 0 <= dpl_of e2 < 4.
Proof. apply land3_range. Qed.

(** ** The invariant without the level *)

Definition base_ok (c : Z) (env : CPUX86State) : Prop := hidden_ok env /\ data_at c env.

Lemma base_load c r sel bas lim fl env :
  base_ok c env -> (r < 6)%nat ->
  (r ∈ data_regs -> usable_at c (mkSeg (u32 sel) (u32 bas) (u32 lim) (u32 fl))) ->
  base_ok c (cpu_x86_load_seg_cache r sel bas lim fl env).
Proof. intros [H1 H2] Hr Hu. split; [by apply hidden_load|]. by apply data_at_load; [|apply hidden_len|..]. Qed.

Lemma base_load_zero c r sel bas lim env :
  base_ok c env -> (r < 6)%nat -> base_ok c (cpu_x86_load_seg_cache r sel bas lim 0 env).
Proof. intros H Hr. apply base_load; [done..|]. intros _. apply usable_zero. Qed.

Lemma cs_not_data : R_CS ∉ data_regs.
Proof. unfold data_regs. rewrite !elem_of_cons, elem_of_nil. unfold R_CS, R_ES, R_DS, R_FS, R_GS. lia. Qed.
Lemma ss_not_data : R_SS ∉ data_regs.
Proof. unfold data_regs. rewrite !elem_of_cons, elem_of_nil. unfold R_SS, R_ES, R_DS, R_FS, R_GS. lia. Qed.

Lemma base_load_cs c sel bas lim fl env :
  base_ok c env -> base_ok c (cpu_x86_load_seg_cache R_CS sel bas lim fl env).
Proof. intros H. apply base_load; [done|unfold R_CS; lia|]. by intros ?%cs_not_data. Qed.
Lemma base_load_ss c sel bas lim fl env :
  base_ok c env -> base_ok c (cpu_x86_load_seg_cache R_SS sel bas lim fl env).
Proof. intros H. apply base_load; [done|unfold R_SS; lia|]. by intros ?%ss_not_data. Qed.

Lemma base_same c env env' : hflags env' = hflags env -> segs env' = segs env -> base_ok c env -> base_ok c env'.
Proof. intros Hh Hs [H1 H2]. split; [by apply (hidden_same env)|by apply (data_at_same _ env)]. Qed.

Lemma base_set_cpl c c' env : 0 <= c' < 4 -> base_ok c env -> base_ok c (cpu_x86_set_cpl c' env).
Proof. intros Hc [H1 H2]. split; [by apply hidden_set_cpl|by apply (data_at_same _ env)]. Qed.

Lemma base_mono c c' env : c' <= c -> base_ok c env -> base_ok c' env.
Proof. intros Hc [H1 H2]. split; [done|by apply (data_at_mono c)]. Qed.

Lemma base_len c env : base_ok c env -> length (segs env) = 6%nat.
Proof. by intros [[? _] _]. Qed.

Lemma inv_base env : seg_inv env -> base_ok (cpl_of env) env.
Proof. by intros (H1 & _ & H3). Qed.

Lemma base_inv env : base_ok (cpl_of env) env -> level_ok env -> seg_inv env.
Proof. by intros [H1 H3] H2. Qed.

Lemma base_here env env' :
  hflags env' = hflags env -> segs env' = segs env -> base_ok (cpl_of env) env -> base_ok (cpl_of env') env'.
Proof. intros Hh Hs H. unfold cpl_of. rewrite Hh. by apply (base_same _ env). Qed.

(** The level after the change of a segment register other than [cs]. *)
Lemma level_same env env' :
  cpl_of env' = cpl_of env -> selector (seg env' R_CS) = selector (seg env R_CS) ->
  nth 0 (cr env') 0 = nth 0 (cr env) 0 -> in_vm86 env' = in_vm86 env -> tr env' = tr env ->
  level_ok env -> level_ok env'.
Proof. intros Hc Hs H0 Hv Ht. unfold level_ok, in_protected, task32. by rewrite Hc, Hs, H0, Hv, Ht. Qed.

(** A level that was just set, outside vm86 mode. *)
Lemma level_new env : in_vm86 env = false -> rpl_of (selector (seg env R_CS)) = cpl_of env -> level_ok env.
Proof. intros Hv Hs _. by rewrite Hv, Hs. Qed.

(** ** The changes of state the helpers end with *)

Lemma enter_code_inv cs e1 e2 lim new_eip env :
  seg_inv env -> seg_inv (enter_code cs (cpl_of env) e1 e2 lim new_eip env).
Proof.
  intros H. pose proof (inv_base _ H) as Hb. destruct H as (_ & H2 & _). pose proof (cpl_range env).
  unfold enter_code. set (env' := cpu_x86_load_seg_cache _ _ _ _ _ _).
  apply (inv_same env'); [done..|]. apply base_inv; unfold env'; rewrite ?cpl_load_seg.
  - by apply base_load_cs.
  - apply level_load; [done|by eapply base_len|unfold R_CS; lia|]. intros _. by rewrite rpl_u32, rpl_with_level.
Qed.

(** Bits of [fl & ~mask]. *)
Lemma has_cleared x m k : 0 <= k < 32 -> Z.testbit m k = true -> has (Z.land x (not32 m)) (2 ^ k) = false.
Proof. intros Hk Hm. by rewrite has_bit, Z.land_spec, testbit_not32, Hm, andb_false_r by lia. Qed.

Lemma has_kept x m k : 0 <= k < 32 -> Z.testbit m k = false -> has (Z.land x (not32 m)) (2 ^ k) = has x (2 ^ k).
Proof. intros Hk Hm. by rewrite !has_bit, Z.land_spec, testbit_not32, Hm, andb_true_r by lia. Qed.

Lemma load_seg_eflags r sel bas lim fl env : eflags (cpu_x86_load_seg_cache r sel bas lim fl env) = eflags env.
Proof. apply (only_segs_fields _ _ (load_seg_only r sel bas lim fl env)). Qed.

(** A new code segment at level [c]. *)
Definition new_level (c sel bas lim fl : Z) (env : CPUX86State) : CPUX86State :=
  cpu_x86_set_cpl c (cpu_x86_load_seg_cache R_CS sel bas lim fl env).

Lemma new_level_spec d c sel bas lim fl env :
  base_ok d env -> rpl_of sel = c ->
  exists env', new_level c sel bas lim fl env = env' /\ base_ok d env' /\ cpl_of env' = c /\
    rpl_of (selector (seg env' R_CS)) = cpl_of env' /\ eflags env' = eflags env /\
    (forall r, r <> R_CS -> seg env' r = seg env r).
Proof.
  intros Hb <-. exists (new_level (rpl_of sel) sel bas lim fl env). split; [done|]. set (env' := new_level _ _ _ _ _ _).
  assert (0 <= rpl_of sel < 4) as Hr by apply land3_range. pose proof (base_len _ _ Hb).
  assert (cpl_of env' = rpl_of sel) as Hc by (by apply cpl_set). rewrite Hc.
  split; [by apply base_set_cpl, base_load_cs|]. split; [done|].
  assert (forall r, seg env' r = seg (cpu_x86_load_seg_cache R_CS sel bas lim fl env) r) as Hs by done.
  split; [|split; [apply load_seg_eflags|]].
  - rewrite Hs, seg_load, decide_True by (done || unfold R_CS; lia). apply rpl_u32.
  - intros r Hn. by rewrite Hs, seg_load, decide_False by (done || unfold R_CS; lia).
Qed.

Ltac fold_new_level :=
  match goal with
  | |- context [cpu_x86_set_cpl ?c (cpu_x86_load_seg_cache R_CS ?sel ?bas ?lim ?fl ?env)] =>
      change (cpu_x86_set_cpl c (cpu_x86_load_seg_cache R_CS sel bas lim fl env))
        with (new_level c sel bas lim fl env)
  end.

Lemma base_zero_data c env :
  base_ok c env -> base_ok c (foldl (fun env r => cpu_x86_load_seg_cache r 0 0 0 0 env) env [R_ES; R_DS; R_FS; R_GS]).
Proof. intros H. cbn [foldl]. by repeat (apply base_load_zero; [|unfold R_ES, R_DS, R_FS, R_GS; lia]). Qed.

Lemma enter_handler_inv type sel offset e1 e2 esp ep env :
  seg_inv env -> 0 <= ep_dpl ep <= cpl_of env ->
  seg_inv (enter_handler type sel offset e1 e2 esp ep env).
Proof.
  intros H Hd. pose proof (base_mono _ (ep_dpl ep) _ (proj2 Hd) (inv_base _ H)) as Hb.
  pose proof (cpl_range env). unfold enter_handler.
  set (env1 := match ep_new ep with Some _ => _ | None => _ end).
  assert (base_ok (ep_dpl ep) env1) as H1.
  { unfold env1. destruct (ep_new ep) as [[[ss s1] s2]|]; [|done]. apply base_load_ss.
    destruct (has (eflags env) VM_MASK); [by apply base_zero_data|done]. }
  assert (base_ok (ep_dpl ep) (SET_ESP esp (ep_mask ep) env1)) as H2 by (by apply (base_same _ env1)).
  unfold load_desc. fold_new_level.
  destruct (new_level_spec _ (ep_dpl ep) (Z.lor (Z.land sel (Z.lnot 3)) (ep_dpl ep)) (get_seg_base e1 e2)
    (get_seg_limit e1 e2) e2 _ H2) as (env' & -> & H3 & H4 & H5 & _); [apply rpl_replaced; lia|].
  apply base_inv; [apply (base_here env'); [done..|by rewrite H4]|]. apply level_new; [|done].
  by apply (has_cleared _ _ 17).
Qed.

Lemma enter_callee_inv sel offset e1 e2 sp ep env :
  seg_inv env -> in_vm86 env = false -> 0 <= ep_dpl ep <= cpl_of env ->
  seg_inv (enter_callee sel offset e1 e2 sp ep env).
Proof.
  intros H Hv Hd. pose proof (base_mono _ (ep_dpl ep) _ (proj2 Hd) (inv_base _ H)) as Hb.
  pose proof (cpl_range env). unfold enter_callee.
  set (env1 := match ep_new ep with Some _ => _ | None => _ end).
  assert (base_ok (ep_dpl ep) env1 /\ eflags env1 = eflags env) as [H1 Hf].
  { unfold env1. destruct (ep_new ep) as [[[ss s1] s2]|]; [|done].
    split; [by apply base_load_ss|apply load_seg_eflags]. }
  unfold load_desc. fold_new_level.
  destruct (new_level_spec _ (ep_dpl ep) (Z.lor (Z.land sel (Z.lnot 3)) (ep_dpl ep)) (get_seg_base e1 e2)
    (get_seg_limit e1 e2) e2 _ H1) as (env' & -> & H3 & H4 & H5 & H6 & _); [apply rpl_replaced; lia|].
  apply base_inv; [apply (base_here env'); [done..|by rewrite H4]|]. apply level_new; [|done].
  unfold in_vm86 in *. cbn [eflags with_eip SET_ESP put_reg with_regs]. by rewrite H6, Hf.
Qed.

(** ** Returns *)

Lemma validate_base r c env : base_ok 0 env -> (r < 6)%nat -> base_ok 0 (validate_seg r c env).
Proof.
  intros H Hr. unfold validate_seg. destruct (_ && _); [done|]. destruct (_ && _); [|done]. by apply base_load_zero.
Qed.

Lemma validate_other r r' c env :
  length (segs env) = 6%nat -> (r < 6)%nat -> r' <> r -> seg (validate_seg r c env) r' = seg env r'.
Proof.
  intros Hl Hr Hn. unfold validate_seg. destruct (_ && _); [done|]. destruct (_ && _); [|done].
  by rewrite seg_load, decide_False by done.
Qed.

Lemma validate_usable r c env :
  length (segs env) = 6%nat -> (r < 6)%nat -> usable_at 0 (seg env r) -> usable_at c (seg (validate_seg r c env) r).
Proof.
  intros Hl Hr [Hn Hd]. unfold validate_seg. destruct (_ && null_sel _) eqn:E.
  { apply andb_true_iff in E as [_ E]. split; [done|]. left. by apply Hn. }
  destruct ((negb _ || negb _) && _) eqn:F.
  { rewrite seg_load, decide_True by done. apply usable_zero. }
  split; [done|]. unfold conforming.
  destruct (has _ DESC_CS_MASK), (has _ DESC_C_MASK); simpl in *; auto; right; right; by apply Z.ltb_ge.
Qed.

Lemma validate_frame r c env :
  (r < 6)%nat -> length (segs env) = 6%nat ->
  eflags (validate_seg r c env) = eflags env /\ cpl_of (validate_seg r c env) = cpl_of env /\
  length (segs (validate_seg r c env)) = 6%nat.
Proof.
  intros Hr Hl. unfold validate_seg. destruct (_ && _); [done|]. destruct (_ && _); [|done].
  by rewrite load_seg_eflags, cpl_load_seg, load_seg_len.
Qed.

(** All data segments fit level [c] afterwards. *)
Lemma validate_all c env :
  base_ok 0 env ->
  let env' := foldl (fun env r => validate_seg r c env) env data_regs in
  base_ok c env' /\ eflags env' = eflags env /\ cpl_of env' = cpl_of env /\ seg env' R_CS = seg env R_CS.
Proof.
  intros Hb env'.
  assert (forall l env, (forall r, r ∈ l -> (r < 6)%nat /\ r <> R_CS) -> NoDup l -> base_ok 0 env ->
    let env' := foldl (fun env r => validate_seg r c env) env l in
    base_ok 0 env' /\ eflags env' = eflags env /\ cpl_of env' = cpl_of env /\ seg env' R_CS = seg env R_CS /\
    (forall r, r ∈ l -> usable_at 0 (seg env r) -> usable_at c (seg env' r)) /\
    (forall r, r ∉ l -> seg env' r = seg env r)) as H.
  { clear. induction l as [|r l IH]; intros env Hl Hd Hb; [do 4 (split; [done|]); split; [by intros ? ?%elem_of_nil|done]|].
    apply NoDup_cons in Hd as [Hn Hd]. destruct (Hl r) as [Hr Hc]; [by left|].
    pose proof (base_len _ _ Hb) as Hlen. pose proof (validate_frame r c env Hr Hlen) as (Hf & Hp & Hlen').
    destruct (IH (validate_seg r c env)) as (I1 & I2 & I3 & I4 & I5 & I6);
      [intros; apply Hl; by right|done|by apply validate_base|]. cbn [foldl].
    split; [done|]. split; [by rewrite I2|]. split; [by rewrite I3|]. split; [by rewrite I4, validate_other|].
    split.
    - intros r' [->|Hin]%elem_of_cons Hu; [rewrite I6 by done; by apply validate_usable|].
      apply I5; [done|]. rewrite validate_other; [done..|]. by intros ->.
    - intros r' [Hn' Hn'']%not_elem_of_cons. rewrite I6 by done. by rewrite validate_other. }
  destruct (H data_regs env) as ([H1 _] & H2 & H3 & H4 & H5 & _).
  { intros r. unfold data_regs. rewrite !elem_of_cons, elem_of_nil. unfold R_CS, R_ES, R_DS, R_FS, R_GS. lia. }
  { unfold data_regs. by apply (bool_decide_unpack _). }
  { done. }
  split; [|done]. split; [done|]. destruct Hb as [_ Hb]. unfold data_at in *. rewrite Forall_forall in *. auto.
Qed.

Lemma load_eflags_vm fl mask env :
  Z.testbit mask 17 = false -> in_vm86 (cpu_load_eflags fl mask env) = in_vm86 env.
Proof.
  intros Hm. unfold in_vm86. cbn [cpu_load_eflags eflags with_eflags]. change VM_MASK with (2 ^ 17).
  rewrite !has_bit, !Z.lor_spec, Z.land_spec by done. change (u32 (Z.lnot mask)) with (not32 mask).
  rewrite testbit_not32, u32_testbit, Z.land_spec, Hm, andb_false_r by done.
  by rewrite andb_true_r, !orb_false_r.
Qed.

Lemma load_eflags_vm_set fl mask env :
  Z.testbit mask 17 = true -> in_vm86 (cpu_load_eflags fl mask env) = has fl VM_MASK.
Proof.
  intros Hm. unfold in_vm86. cbn [cpu_load_eflags eflags with_eflags]. change VM_MASK with (2 ^ 17).
  rewrite !has_bit, !Z.lor_spec, Z.land_spec by done. change (u32 (Z.lnot mask)) with (not32 mask).
  rewrite testbit_not32, u32_testbit, Z.land_spec, Hm, andb_true_r by done.
  by rewrite andb_false_r, orb_false_l, orb_false_r.
Qed.

Lemma iret_mask_vm cpl iopl wide : Z.testbit (iret_mask cpl iopl wide) 17 = false.
Proof. unfold iret_mask. by destruct (cpl =? 0), (cpl <=? iopl), wide. Qed.

Lemma finish_return_inv sp sp_mask new_eip flags env :
  seg_inv env -> seg_inv (finish_return sp sp_mask new_eip flags env).
Proof.
  intros H. apply (inv_same env); try (by destruct flags as [[[fl c] w]|]); try done.
  unfold finish_return. destruct flags as [[[fl c] w]|]; [|done]. by rewrite load_eflags_vm by apply iret_mask_vm.
Qed.

Lemma enter_outer_inv new_cs e1 e2 new_ss ss_e1 ss_e2 env :
  seg_inv env -> in_vm86 env = false -> seg_inv (enter_outer new_cs e1 e2 new_ss ss_e1 ss_e2 env).
Proof.
  intros H Hv. assert (base_ok 0 env) as Hb.
  { pose proof (cpl_range env). eapply base_mono; [|by apply inv_base]. lia. }
  unfold enter_outer, load_desc. fold_new_level. set (env1 := cpu_x86_load_seg_cache R_SS _ _ _ _ _).
  assert (base_ok 0 env1) as H1 by (by apply base_load_ss).
  destruct (new_level_spec 0 _ new_cs (get_seg_base e1 e2) (get_seg_limit e1 e2) e2 _ H1 eq_refl)
    as (env2 & -> & H3 & H4 & H5 & H6 & _).
  destruct (validate_all (rpl_of new_cs) env2 H3) as (V1 & V2 & V3 & V4). fold data_regs.
  apply base_inv; [by rewrite V3, H4|]. apply level_new; [|by rewrite V3, V4].
  unfold in_vm86 in *. rewrite V2, H6. unfold env1. by rewrite load_seg_eflags.
Qed.

Lemma load_cs_inv sel bas lim fl env :
  seg_inv env -> rpl_of sel = cpl_of env -> seg_inv (cpu_x86_load_seg_cache R_CS sel bas lim fl env).
Proof.
  intros H Hs. apply base_inv; rewrite ?cpl_load_seg; [by apply base_load_cs, inv_base|].
  destruct H as (H1 & H2 & _). apply level_load; [done|by apply hidden_len|unfold R_CS; lia|].
  intros _. by rewrite rpl_u32.
Qed.

(** ** Loading every register with an unusable segment *)

Definition load_unusable (sel bas lim : nat -> Z) (l : list nat) (env : CPUX86State) : CPUX86State :=
  foldl (fun env i => cpu_x86_load_seg_cache i (sel i) (bas i) (lim i) 0 env) env l.

Lemma load_unusable_spec sel bas lim l env :
  hidden_ok env -> Forall (fun r => (r < 6)%nat) l ->
  let env' := load_unusable sel bas lim l env in
  hidden_ok env' /\ cpl_of env' = cpl_of env /\ ts_flag env' = ts_flag env /\ only_segs env env' /\
  (forall r, r ∈ l -> selector (seg env' r) = u32 (sel r) /\ sflags (seg env' r) = 0) /\
  (forall r, r ∉ l -> seg env' r = seg env r).
Proof.
  intros Hh Hl. cbv zeta. unfold load_unusable. induction l as [|r l IH] using rev_ind.
  { do 3 (split; [done|]). split; [apply only_segs_refl|]. split; [by intros ? ?%elem_of_nil|done]. }
  apply Forall_app in Hl as [Hl Hr]. rewrite Forall_singleton in Hr. destruct (IH Hl) as (H1 & H2 & Hts & H3 & H4 & H5).
  rewrite foldl_app. cbn [foldl]. set (env1 := foldl _ env l) in *. pose proof (hidden_len _ H1).
  split; [by apply hidden_load|]. split; [by rewrite cpl_load_seg|]. split; [by rewrite ts_load_seg|].
  split; [by eapply only_segs_trans; [|apply load_seg_only]|]. split.
  - intros r' Hin. rewrite seg_load by done. case_decide as E; [by subst|].
    apply H4. apply elem_of_app in Hin as [?|?%list_elem_of_singleton]; [done|by subst].
  - intros r' [Hn Hn']%not_elem_of_app. rewrite seg_load by done. rewrite not_elem_of_cons in Hn'.
    rewrite decide_False by naive_solver. by apply H5.
Qed.

Lemma data_unusable c env : (forall r, r ∈ data_regs -> sflags (seg env r) = 0) -> data_at c env.
Proof. intros H. apply Forall_forall. intros r Hr. split; [intros _|left]; by apply H. Qed.

Definition all_regs : list nat := [R_ES; R_CS; R_SS; R_DS; R_FS; R_GS].

Lemma all_regs_ok : Forall (fun r => (r < 6)%nat) all_regs.
Proof. unfold all_regs, R_ES, R_CS, R_SS, R_DS, R_FS, R_GS. repeat constructor; lia. Qed.

(** The registers of a new task, as selectors only: in vm86 mode... *)
Lemma selectors_vm86 sel bas lim env :
  hidden_ok env -> in_vm86 env = true ->
  let env' := cpu_x86_set_cpl 3 (load_unusable sel bas lim all_regs env) in
  seg_inv env' /\ tr env' = tr env /\ eflags env' = eflags env /\ gdt env' = gdt env /\ ts_flag env' = ts_flag env.
Proof.
  intros Hh Hv. destruct (load_unusable_spec sel bas lim all_regs env Hh all_regs_ok) as (H1 & H2 & Hts & H3 & H4 & _).
  generalize dependent (load_unusable sel bas lim all_regs env). intros env1 H1 H2 Hts H3 H4. cbv zeta.
  destruct (only_segs_fields _ _ H3) as (_ & He & Htr & _ & _ & Hg & _).
  split; [|by rewrite ts_set_cpl by lia]. split; [apply hidden_set_cpl; [lia|done]|]. split.
  - intros _. split; [|intros _ _; apply cpl_set; lia].
    unfold in_vm86 in *. cbn [eflags cpu_x86_set_cpl with_hflags]. congruence.
  - apply data_unusable. intros r Hr. apply (H4 r). revert Hr. unfold data_regs, all_regs. rewrite !elem_of_cons. tauto.
Qed.

(** ... and in protected mode. *)
Lemma selectors_protected sel bas lim env :
  hidden_ok env -> in_vm86 env = false \/ task32 env = false ->
  let env' := load_unusable sel bas lim all_regs (cpu_x86_set_cpl (Z.land (sel R_CS) 3) env) in
  seg_inv env' /\ tr env' = tr env /\ eflags env' = eflags env /\ gdt env' = gdt env /\ ts_flag env' = ts_flag env /\
  cpl_of env' = rpl_of (sel R_CS).
Proof.
  intros Hh Hv. assert (hidden_ok (cpu_x86_set_cpl (Z.land (sel R_CS) 3) env)) as H0.
  { apply hidden_set_cpl; [apply land3_range|done]. }
  assert (cpl_of (cpu_x86_set_cpl (Z.land (sel R_CS) 3) env) = rpl_of (sel R_CS)) as Hc.
  { apply cpl_set, land3_range. }
  destruct (load_unusable_spec sel bas lim all_regs _ H0 all_regs_ok) as (H1 & H2 & Hts & H3 & H4 & _).
  generalize dependent (load_unusable sel bas lim all_regs (cpu_x86_set_cpl (Z.land (sel R_CS) 3) env)).
  intros env1 H1 H2 Hts H3 H4. cbv zeta.
  destruct (only_segs_fields _ _ H3) as (_ & He & Htr & _ & _ & Hg & _).
  change (eflags (cpu_x86_set_cpl _ env)) with (eflags env) in He.
  change (tr (cpu_x86_set_cpl _ env)) with (tr env) in Htr.
  change (gdt (cpu_x86_set_cpl _ env)) with (gdt env) in Hg.
  split; [|rewrite H2, Hts, ts_set_cpl by apply land3_range; done]. split; [done|]. split.
  - intros _. destruct (H4 R_CS) as [-> _]; [unfold all_regs; rewrite !elem_of_cons; auto|].
    rewrite rpl_u32, H2, Hc. split; [done|]. unfold in_vm86, task32 in *. rewrite He, Htr. intros Hvm H32.
    destruct Hv; congruence.
  - apply data_unusable. intros r Hr. apply (H4 r). revert Hr. unfold data_regs, all_regs. rewrite !elem_of_cons. tauto.
Qed.

Lemma load_selectors_eq t env :
  let sel i := nth i (t_segs t) 0 in
  load_selectors t env =
  if has (t_eflags t) VM_MASK
  then cpu_x86_set_cpl 3 (load_unusable (fun i => Z.land (sel i) 0xffff) (fun i => Z.shiftl (Z.land (sel i) 0xffff) 4)
         (fun _ => 0xffff) all_regs env)
  else load_unusable sel (fun _ => 0) (fun _ => 0) all_regs (cpu_x86_set_cpl (Z.land (sel R_CS) 3) env).
Proof. cbv zeta. unfold load_selectors, load_unusable, load_seg_vm. by destruct (has _ _). Qed.

(** Entering vm86 mode by a return. *)
Definition enter_vm86 (cs : Z) (sel : nat -> Z) (env : CPUX86State) : CPUX86State :=
  load_unusable sel (fun r => Z.shiftl (sel r) 4) (fun _ => 0xffff) [R_SS; R_ES; R_DS; R_FS; R_GS]
    (cpu_x86_set_cpl 3 (cpu_x86_load_seg_cache R_CS cs (Z.shiftl cs 4) 0xffff 0 env)).

Lemma enter_vm86_inv cs sel env : hidden_ok env -> in_vm86 env = true -> seg_inv (enter_vm86 cs sel env).
Proof.
  intros Hh Hv. unfold enter_vm86. set (env1 := cpu_x86_set_cpl 3 _).
  assert (hidden_ok env1) as H1.
  { apply hidden_set_cpl; [lia|]. apply hidden_load; [done|unfold R_CS; lia]. }
  assert (cpl_of env1 = 3) as Hc by (apply cpl_set; lia).
  assert (eflags env1 = eflags env) as He by apply load_seg_eflags. clearbody env1.
  destruct (load_unusable_spec sel (fun r => Z.shiftl (sel r) 4) (fun _ => 0xffff) [R_SS; R_ES; R_DS; R_FS; R_GS]
    env1 H1) as (I1 & I2 & _ & I3 & I4 & _).
  { unfold R_SS, R_ES, R_DS, R_FS, R_GS. repeat constructor; lia. }
  destruct (only_segs_fields _ _ I3) as (_ & He' & _).
  split; [done|]. split.
  - intros _. rewrite I2, Hc. split; [|done]. unfold in_vm86 in *. congruence.
  - apply data_unusable. intros r Hr. apply (I4 r). by right.
Qed.

(** Real and vm86 mode: [cs] without its hidden part. *)
Lemma hidden_cs_real sel env : hidden_ok env -> hidden_ok (set_cs_real sel env).
Proof.
  intros (Hl & H1 & H2 & H3 & H4). unfold hidden_ok, set_cs_real, flat, seg, set_seg in *.
  cbn [segs with_segs hflags]. destruct (segs env) as [|s0 [|s1 [|s2 [|s3 l]]]]; try done.
Qed.

Lemma cs_real_inv sel env :
  seg_inv env -> in_protected env = false \/ in_vm86 env = true -> seg_inv (set_cs_real sel env).
Proof.
  intros (H1 & H2 & H3) Hm. split; [by apply hidden_cs_real|]. split.
  - intros Hp. destruct Hm as [Hm|Hm]; [unfold in_protected in *; cbn in Hp; congruence|].
    split; [unfold in_vm86 in *; cbn; congruence|]. intros _ Ht. by apply H2.
  - unfold data_ok in *. rewrite Forall_forall in *. intros r Hr. unfold seg, set_cs_real, set_seg.
    cbn [segs with_segs]. rewrite nth_lookup, list_lookup_insert_ne, <-nth_lookup; [by apply H3|].
    intros <-. by apply cs_not_data.
Qed.

(** ** Fast system calls *)

Definition sys_segs (c cs ss code data : Z) (env : CPUX86State) : CPUX86State :=
  cpu_x86_load_seg_cache R_SS ss 0 0xffffffff data
    (cpu_x86_load_seg_cache R_CS cs 0 0xffffffff code (cpu_x86_set_cpl c env)).

Lemma sys_segs_spec d c cs ss code data env :
  base_ok d env -> rpl_of cs = c ->
  let env' := sys_segs c cs ss code data env in
  base_ok d env' /\ cpl_of env' = c /\ rpl_of (selector (seg env' R_CS)) = c /\ eflags env' = eflags env.
Proof.
  intros Hb <-. unfold sys_segs. assert (0 <= rpl_of cs < 4) as Hr by apply land3_range.
  assert (base_ok d (cpu_x86_set_cpl (rpl_of cs) env)) as H1 by (by apply base_set_cpl).
  cbv zeta. split; [by apply base_load_ss, base_load_cs|]. rewrite !cpl_load_seg, cpl_set by done. split; [done|].
  rewrite !load_seg_eflags. split; [|done]. pose proof (base_len _ _ H1).
  rewrite seg_load by (rewrite ?load_seg_len; done || unfold R_SS; lia). rewrite decide_False by done.
  rewrite seg_load by (done || unfold R_CS; lia). rewrite decide_True by done. apply rpl_u32.
Qed.
