(* ===== verification/SegOps.v ===== *)
(** * Outcomes of the segmentation helpers

    For each helper: what holds when it returns, and that an exception leaves the
    CPU as it was (tasks apart). *)

From stdpp Require Import base list.
From Stdlib Require Import ZArith Lia.
From S2P Require Import Prelude Cpu CcHelper Excp Guest Seg SegSpec SegTask SegInt SegCall SegInv.

Local Open Scope Z_scope.
Local Open Scope k_scope.

(** Turns the conditions of passed checks into facts. *)
Ltac checks :=
  repeat match goal with
  | H : _ || _ = false |- _ => apply orb_false_iff in H as [? ?]
  | H : negb _ = false |- _ => apply negb_false_iff in H
  | H : (_ =? _) = true |- _ => apply Z.eqb_eq in H
  | H : (_ =? _) = false |- _ => apply Z.eqb_neq in H
  | H : (_ <? _) = false |- _ => apply Z.ltb_ge in H
  | H : (_ <? _) = true |- _ => apply Z.ltb_lt in H
  end.

(** A hook of the tracer neither touches the CPU nor raises exceptions. *)
Definition quiet {G} (hook : K G unit) : Prop :=
  forall env, kspec env hook (fun _ env' => env' = env) (fun _ => False).

Class IntrHooksSpec (G : Type) `{!IntrHooks G} : Prop := {
  on_interrupt_ok intno : quiet (on_interrupt (G := G) intno);
  on_iret_ok : quiet (on_iret (G := G))
}.

Lemma qat_quiet {G} (hook : K G unit) env : quiet hook -> qat env hook (fun _ => True).
Proof. intros H g. specialize (H env g). unfold access_ok. by destruct (hook env g). Qed.

Section Ops.
Context {G : Type} `{!SoftMmu G, !SoftMmuSpec G}.
Implicit Types (env : CPUX86State).

(** ** Descriptors, stacks *)

Definition desc_words (e : Z * Z) : Prop := in_range 32 (fst e) /\ in_range 32 (snd e).

Lemma qat_load_segment env sel :
  qat (G := G) env (load_segment sel) (fun d => forall e, d = Some e -> desc_words e).
Proof.
  unfold load_segment. apply qat_get_bind. destruct (_ <? _); [by apply qat_ret|].
  eapply qat_bind; [apply qat_ldl|]. intros e1 H1. eapply qat_bind; [apply qat_ldl|]. intros e2 H2.
  apply qat_ret. by intros e [= <-].
Qed.

Lemma qat_need_segment env sel index err :
  qat (G := G) env (need_segment sel index err) desc_words.
Proof.
  unfold need_segment. eapply qat_bind; [apply qat_load_segment|].
  intros [e|] He; [by apply qat_ret, He|apply qat_raise].
Qed.

Lemma qat_push_all env wide ssp mask vals sp : qat (G := G) env (push_all wide ssp mask vals sp) (fun _ => True).
Proof.
  revert sp. induction vals as [|v vals IH]; intros sp; cbn [push_all]; [by apply qat_ret|].
  eapply (qat_bind _ _ _ (fun _ => True)); [|by intros; apply IH]. unfold PUSH, PUSHL, PUSHW.
  destruct wide; (eapply qat_bind; [apply qat_stl || apply qat_stw|by intros; apply qat_ret]).
Qed.

Lemma qat_pop env (wide : bool) ssp mask sp :
  qat (G := G) env (POP wide ssp mask sp) (fun x => in_range (if wide then 32 else 16) (fst x)).
Proof.
  unfold POP, POPL, POPW.
  destruct wide; (eapply qat_bind; [apply qat_ldl || apply qat_lduw|intros v Hv; by apply qat_ret]).
Qed.

Lemma qat_pop_all env (wide : bool) ssp mask n sp :
  qat (G := G) env (pop_all wide ssp mask n sp)
    (fun x => length (fst x) = n /\ Forall (fun v => in_range (if wide then 32 else 16) v) (fst x)).
Proof.
  revert sp. induction n as [|n IH]; intros sp; cbn [pop_all]; [by apply qat_ret|].
  eapply qat_bind; [apply qat_pop|]. intros x Hx. eapply qat_bind; [apply IH|]. intros r [Hl Hf].
  apply qat_ret. cbn [fst length]. split; [by rewrite Hl|by constructor].
Qed.

Lemma qat_tss_stack env dpl :
  qat (G := G) env (get_ss_esp_from_tss dpl) (fun x => in_range 16 (fst x) /\ in_range 32 (snd x)).
Proof.
  unfold get_ss_esp_from_tss. apply qat_get_bind. destruct (negb _); [apply qat_abort|].
  destruct (negb _); [apply qat_abort|]. apply qat_check. intros _. destruct (_ =? 0).
  - eapply qat_bind; [apply qat_lduw|]. intros esp He. eapply qat_bind; [apply qat_lduw|]. intros ss Hs.
    apply qat_ret. cbv beta in He. cbn [fst snd]. split; [done|]. lia.
  - eapply qat_bind; [apply qat_ldl|]. intros esp He. eapply qat_bind; [apply qat_lduw|]. intros ss Hs.
    by apply qat_ret.
Qed.

(** A writable data segment at level [dpl]. *)
Definition stack_segment (dpl ss e2 : Z) : Prop :=
  null_sel ss = false /\ rpl_of ss = dpl /\ dpl_of e2 = dpl /\ has e2 DESC_S_MASK = true /\
  has e2 DESC_CS_MASK = false /\ has e2 DESC_W_MASK = true /\ has e2 DESC_P_MASK = true.

Definition new_stack_ok (dpl : Z) (ep : entry_point) : Prop :=
  exists ss s1 s2 esp, ep = mkEntry dpl (Some (ss, s1, s2)) (get_sp_mask s2) (get_seg_base s1 s2) esp /\
    in_range 16 ss /\ desc_words (s1, s2) /\ in_range 32 esp /\ stack_segment dpl ss s2.

Lemma qat_new_stack env dpl : qat (G := G) env (new_stack dpl) (new_stack_ok dpl).
Proof.
  unfold new_stack, inner_stack.
  eapply (qat_bind _ _ _ (fun '(ss, s1, s2, esp) =>
    in_range 16 ss /\ desc_words (s1, s2) /\ in_range 32 esp /\ stack_segment dpl ss s2)).
  - eapply qat_bind; [apply qat_tss_stack|]. intros [ss esp] [Hs He].
    do 2 (apply qat_check; intros ?). eapply qat_bind; [apply qat_need_segment|]. intros [s1 s2] Hd.
    do 3 (apply qat_check; intros ?). apply qat_ret. by checks.
  - intros [[[ss s1] s2] esp] H. apply qat_ret. by exists ss, s1, s2, esp.
Qed.

(** ** Interrupts *)

(** Where a handler or callee in code segment [e2] runs when entered from [env]. *)
Definition runs_at (env : CPUX86State) (e2 : Z) (ep : entry_point) : Prop :=
  (ep = same_stack (cpl_of env) env /\ in_vm86 env = false /\
     (has e2 DESC_C_MASK = true \/ dpl_of e2 = cpl_of env)) \/
  (has e2 DESC_C_MASK = false /\ dpl_of e2 < cpl_of env /\ new_stack_ok (dpl_of e2) ep).

Lemma runs_at_level env e2 ep : runs_at env e2 ep -> 0 <= ep_dpl ep <= cpl_of env.
Proof.
  pose proof (cpl_range env). pose proof (dpl_range e2).
  intros [(-> & _)|(_ & Hd & ss & s1 & s2 & esp & -> & _)]; cbn; lia.
Qed.

Lemma qat_interrupt_stack env sel e2 :
  dpl_of e2 <= cpl_of env ->
  qat (G := G) env (interrupt_stack (cpl_of env) sel e2) (runs_at env e2).
Proof.
  intros Hd. unfold interrupt_stack. apply qat_get_bind. destruct (negb _ && _) eqn:E.
  - apply andb_true_iff in E as [E1%negb_true_iff E2%Z.ltb_lt].
    eapply qat_weaken; [apply qat_new_stack|]. intros ep Hep. right. done.
  - destruct (_ || _) eqn:F; [|apply qat_raise]. apply qat_check. intros Hv. apply qat_ret. left.
    split; [done|]. split; [done|]. apply orb_true_iff in F as [F|F%Z.eqb_eq]; auto.
Qed.

(** The code segment of a handler. *)
Definition code_segment (env : CPUX86State) (e2 : Z) : Prop :=
  has e2 DESC_S_MASK = true /\ has e2 DESC_CS_MASK = true /\ has e2 DESC_P_MASK = true /\ dpl_of e2 <= cpl_of env.

(** An interrupt or trap gate, once taken. *)
Definition gate_taken (env : CPUX86State) (is_int : bool) (e1 e2 : Z) (env' : CPUX86State) : Prop :=
  (is_int = true -> cpl_of env <= dpl_of e2) /\
  exists c1 c2 ep esp, desc_words (c1, c2) /\ code_segment env c2 /\ runs_at env c2 ep /\
    env' = enter_handler (Z.land (Z.shiftr e2 8) 0x1f) (Z.shiftr e1 16)
             (Z.lor (Z.land e2 0xffff0000) (Z.land e1 0x0000ffff)) c1 c2 esp ep env.

Lemma interrupt_gate_spec env intno is_int old_eip error e1 e2 :
  kat env (interrupt_gate intno is_int old_eip error e1 e2) (fun _ => gate_taken env is_int e1 e2).
Proof.
  unfold interrupt_gate. apply kspec_get. apply kat_check. intros Hi. do 2 (apply kat_check; intros ?).
  eapply kat_bind; [apply qat_need_segment|]. intros [c1 c2] Hd. do 3 (apply kat_check; intros ?). checks.
  eapply kat_bind; [by apply qat_interrupt_stack|]. intros ep Hep.
  eapply kat_bind; [apply qat_push_all|]. intros esp _. apply kspec_mod. split.
  - intros ->. by apply Z.ltb_ge.
  - by exists c1, c2, ep, esp.
Qed.

Lemma do_interrupt_real_spec env intno is_int next_eip :
  kat env (do_interrupt_real intno is_int next_eip) (fun _ env' =>
    exists offset sel esp fl, env' = with_eflags (Z.land (eflags env) (not32 fl))
      (set_cs_real sel (with_eip offset (put_reg R_ESP esp env))) /\ Z.testbit fl 17 = false).
Proof.
  unfold do_interrupt_real. apply kspec_get. apply kat_check. intros _.
  eapply kat_bind; [apply qat_lduw|]. intros offset _. eapply kat_bind; [apply qat_lduw|]. intros sel _.
  eapply kat_bind; [apply qat_push_all|]. intros esp _. apply kspec_mod. by eexists _, _, _, _.
Qed.

(** ** Loading a segment register *)

(** What a descriptor must be to be loaded at level [cpl]. *)
Definition loadable (r : nat) (cpl sel e2 : Z) : Prop :=
  has e2 DESC_S_MASK = true /\ has e2 DESC_P_MASK = true /\
  if (r =? R_SS)%nat then
    has e2 DESC_CS_MASK = false /\ has e2 DESC_W_MASK = true /\ rpl_of sel = cpl /\ dpl_of e2 = cpl
  else
    (has e2 DESC_CS_MASK = true -> has e2 DESC_R_MASK = true) /\
    (conforming e2 = true \/ (cpl <= dpl_of e2 /\ rpl_of sel <= dpl_of e2)).

Lemma readable_code e2 :
  (Z.land e2 (Z.lor DESC_CS_MASK DESC_R_MASK) =? DESC_CS_MASK) = false ->
  has e2 DESC_CS_MASK = true -> has e2 DESC_R_MASK = true.
Proof.
  intros H%Z.eqb_neq H1. destruct (has e2 DESC_R_MASK) eqn:H2; [done|]. destruct H.
  unfold has in H2. apply negb_false_iff, Z.eqb_eq in H2.
  rewrite Z.land_lor_distr_r, H2, Z.lor_0_r. change DESC_CS_MASK with (2 ^ 11) in *.
  rewrite has_bit in H1 by done. by rewrite land_bit, H1.
Qed.

Lemma qat_load_rights env r cpl sel e2 :
  has e2 DESC_S_MASK = true ->
  qat (G := G) env (load_seg_rights r cpl sel e2) (fun _ => has e2 DESC_P_MASK = true -> loadable r cpl sel e2).
Proof.
  intros HS. unfold load_seg_rights, loadable, conforming. destruct (r =? R_SS)%nat.
  - apply qat_check. intros H1. apply qat_raise_if. intros H2 HP. by checks.
  - apply qat_check. intros H1. pose proof (readable_code e2 H1).
    destruct (negb (has e2 DESC_CS_MASK) || _) eqn:E.
    + apply qat_raise_if. intros H2 HP. checks. auto 6.
    + apply qat_ret. intros HP. checks.
      match goal with Ha : has e2 DESC_CS_MASK = true, Hb : has e2 DESC_C_MASK = true |- _ => rewrite Ha, Hb end. auto 6.
Qed.

Lemma accessed_id e2 : has e2 DESC_A_MASK = true -> Z.lor e2 DESC_A_MASK = e2.
Proof.
  change DESC_A_MASK with (2 ^ 8). intros H. rewrite has_bit in H by done. apply Z.bits_inj'. intros n Hn.
  rewrite Z.lor_spec, Z.pow2_bits_eqb by done. destruct (Z.eqb_spec 8 n) as [<-|]; [by rewrite H|by rewrite orb_false_r].
Qed.

Lemma lor_range x y : in_range 32 x -> in_range 32 y -> in_range 32 (Z.lor x y).
Proof.
  intros Hx Hy. assert (0 <= Z.lor x y) by (apply Z.lor_nonneg; lia). split; [done|].
  destruct (decide (Z.lor x y = 0)) as [->|]; [done|]. apply Z.log2_lt_pow2; [lia|]. rewrite Z.log2_lor by lia.
  assert (forall z, in_range 32 z -> Z.log2 z < 32) as Hl.
  { intros z Hz. destruct (decide (z = 0)) as [->|]; [done|]. apply Z.log2_lt_pow2; lia. }
  apply Z.max_lub_lt; by apply Hl.
Qed.

(** The accessed bit does not matter for rights. *)
Lemma accessed_dpl e2 : dpl_of (Z.lor e2 DESC_A_MASK) = dpl_of e2.
Proof. unfold dpl_of. apply land3_bits; by rewrite !Z.shiftr_spec, Z.lor_spec, orb_false_r by done. Qed.

Lemma accessed_conforming e2 : conforming (Z.lor e2 DESC_A_MASK) = conforming e2.
Proof.
  unfold conforming. change DESC_CS_MASK with (2 ^ 11). change DESC_C_MASK with (2 ^ 10).
  by rewrite !has_bit, !Z.lor_spec, !orb_false_r by done.
Qed.

Lemma helper_load_seg_spec env r sel0 :
  kat env (helper_load_seg r sel0) (fun _ env' =>
    let sel := Z.land sel0 0xffff in
    if null_sel sel then r <> R_SS /\ env' = cpu_x86_load_seg_cache r sel 0 0 0 env
    else exists e1 e2, desc_words (e1, e2) /\ loadable r (cpl_of env) sel e2 /\
           env' = load_desc r sel e1 (Z.lor e2 DESC_A_MASK) env).
Proof.
  unfold helper_load_seg. set (sel := Z.land sel0 0xffff). apply kspec_get. destruct (null_sel sel).
  { apply kat_check. intros Hr%Nat.eqb_neq. by apply kspec_mod. }
  apply kat_check. intros _. eapply kat_bind; [apply qat_ldl|]. intros e1 H1.
  eapply kat_bind; [apply qat_ldl|]. intros e2 H2. apply kat_check. intros HS%negb_false_iff.
  eapply kat_bind; [by apply qat_load_rights|]. intros [] HL. apply kat_check. intros HP%negb_false_iff.
  eapply (kat_bind _ _ _ (fun e => e = Z.lor e2 DESC_A_MASK)).
  - destruct (has e2 DESC_A_MASK) eqn:HA; cbn [negb].
    + apply qat_ret. by rewrite accessed_id.
    + eapply qat_bind; [apply qat_stl|]. intros _ _. by apply qat_ret.
  - intros ? ->. apply kspec_mod. exists e1, e2. split; [done|]. split; [by apply HL|done].
Qed.

(** ** Jumps and calls *)

Lemma qat_check_code env new_cs cpl e2 :
  qat (G := G) env (check_code new_cs cpl e2) (fun _ =>
    has e2 DESC_CS_MASK = true /\ has e2 DESC_P_MASK = true /\
    if has e2 DESC_C_MASK then dpl_of e2 <= cpl else dpl_of e2 = cpl /\ rpl_of new_cs <= cpl).
Proof.
  unfold check_code. apply qat_check. intros H1%negb_false_iff.
  eapply (qat_bind _ _ _ (fun _ => if has e2 DESC_C_MASK then dpl_of e2 <= cpl else dpl_of e2 = cpl /\ rpl_of new_cs <= cpl)).
  - destruct (has e2 DESC_C_MASK).
    + apply qat_raise_if. intros H. by checks.
    + apply qat_check. intros H. apply qat_raise_if. intros H'. checks. split; [done|lia].
  - intros _ H2. apply qat_raise_if. intros H3%negb_false_iff. done.
Qed.

(** The code segment a jump, or a call without a change of level, goes to. *)
Definition same_level_code (cpl e2 : Z) : Prop :=
  has e2 DESC_CS_MASK = true /\ has e2 DESC_P_MASK = true /\
  if has e2 DESC_C_MASK then dpl_of e2 <= cpl else dpl_of e2 = cpl.

Definition jumped (env env' : CPUX86State) : Prop :=
  exists cs e1 e2 ip, desc_words (e1, e2) /\ same_level_code (cpl_of env) e2 /\ ip <= get_seg_limit e1 e2 /\
    env' = enter_code cs (cpl_of env) e1 e2 (get_seg_limit e1 e2) ip env.

Lemma jump_gate_spec env new_cs e1 e2 :
  kat env (jump_gate new_cs (cpl_of env) e1 e2) (fun _ => jumped env).
Proof.
  unfold jump_gate. do 2 (apply kat_check; intros ?).
  eapply kat_bind; [apply qat_need_segment|]. intros [c1 c2] Hd.
  apply kat_check. intros Hc. apply kat_check. intros Hl. do 2 (apply kat_check; intros ?).
  apply kspec_mod. eexists _, c1, c2, _. split; [done|].
  apply negb_false_iff, Z.eqb_eq in Hc.
  assert (has c2 DESC_CS_MASK = true) as HCS.
  { change DESC_CS_MASK with (2 ^ 11). rewrite has_bit by done.
    pose proof (f_equal (fun x => Z.testbit x 11) Hc) as Hb. cbv beta in Hb. rewrite Z.land_spec in Hb.
    by rewrite andb_true_r in Hb. }
  checks. split; [split; [done|]|split; [done|reflexivity]]. split; [done|].
  destruct (has c2 DESC_C_MASK); cbn in *; checks; lia.
Qed.

Lemma call_code_spec env new_cs new_eip wide next_eip e1 e2 :
  desc_words (e1, e2) ->
  kat env (call_code new_cs new_eip wide next_eip (cpl_of env) e1 e2) (fun _ env' =>
    exists sp, same_level_code (cpl_of env) e2 /\ new_eip <= get_seg_limit e1 e2 /\
      env' = enter_code new_cs (cpl_of env) e1 e2 (get_seg_limit e1 e2) new_eip
               (SET_ESP sp (get_sp_mask (sflags (seg env R_SS))) env)).
Proof.
  intros Hd. unfold call_code. eapply kat_bind; [apply qat_check_code|]. intros [] (H1 & H2 & H3).
  apply kspec_get. eapply kat_bind; [apply qat_push_all|]. intros sp _. apply kat_check. intros H4.
  apply kspec_mod. exists sp. checks. split; [|done]. split; [done|]. split; [done|].
  destruct (has e2 DESC_C_MASK); naive_solver.
Qed.

Lemma qat_copy_params env wide old_ssp old_mask old_esp ssp mask n sp :
  qat (G := G) env (copy_params wide old_ssp old_mask old_esp ssp mask n sp) (fun _ => True).
Proof.
  revert sp. induction n as [|n IH]; intros sp; cbn [copy_params]; [by apply qat_ret|].
  eapply (qat_bind _ _ _ (fun _ => True)).
  { destruct wide; (eapply qat_weaken; [apply qat_ldl || apply qat_lduw|done]). }
  intros v _. eapply (qat_bind _ _ _ (fun _ => True)); [|by intros; apply IH]. unfold PUSH, PUSHL, PUSHW.
  destruct wide; (eapply qat_bind; [apply qat_stl || apply qat_stw|by intros; apply qat_ret]).
Qed.

(** Where a callee in code segment [e2] runs: a conforming segment at its own
    level, on the stack of the caller. *)
Definition callee_at (env : CPUX86State) (e2 : Z) (ep : entry_point) : Prop :=
  (ep = same_stack (dpl_of e2) env /\ (has e2 DESC_C_MASK = true \/ dpl_of e2 = cpl_of env)) \/
  (has e2 DESC_C_MASK = false /\ dpl_of e2 < cpl_of env /\ new_stack_ok (dpl_of e2) ep).

Lemma callee_at_dpl env e2 ep : callee_at env e2 ep -> ep_dpl ep = dpl_of e2.
Proof. by intros [[-> _]|(_ & _ & ss & s1 & s2 & esp & -> & _)]. Qed.

Definition called (env env' : CPUX86State) : Prop :=
  exists c1 c2 ep sp sel offset, desc_words (c1, c2) /\ code_segment env c2 /\ callee_at env c2 ep /\
    env' = enter_callee sel offset c1 c2 sp ep env.

Lemma call_gate_spec env new_cs next_eip e1 e2 :
  kat env (call_gate new_cs next_eip (cpl_of env) e1 e2) (fun _ => called env).
Proof.
  unfold call_gate. do 3 (apply kat_check; intros ?).
  eapply kat_bind; [apply qat_need_segment|]. intros [c1 c2] Hd. do 3 (apply kat_check; intros ?). checks.
  apply kspec_get. eapply (kat_bind _ _ _ (fun x => callee_at env c2 (fst x))).
  - destruct (negb _ && _) eqn:E.
    + apply andb_true_iff in E as [E1%negb_true_iff E2%Z.ltb_lt].
      eapply qat_bind; [apply qat_new_stack|]. intros ep Hep.
      eapply qat_bind; [apply qat_push_all|]. intros sp1 _. eapply qat_bind; [apply qat_copy_params|]. intros sp2 _.
      apply qat_ret. right. done.
    + apply qat_ret. left. split; [done|]. destruct (has c2 DESC_C_MASK); cbn in E; [by left|]. checks. right. lia.
  - intros [ep sp] Hep. eapply kat_bind; [apply qat_push_all|]. intros sp' _. apply kspec_mod.
    eexists c1, c2, ep, sp', _, _. done.
Qed.

Lemma helper_lcall_real_spec env new_cs new_eip wide next_eip :
  kat env (helper_lcall_real new_cs new_eip wide next_eip) (fun _ env' =>
    exists esp, env' = set_cs_real new_cs (with_eip (u32 new_eip) (SET_ESP esp (get_sp_mask (sflags (seg env R_SS))) env))).
Proof.
  unfold helper_lcall_real. apply kspec_get. eapply kat_bind; [apply qat_push_all|]. intros esp _.
  apply kspec_mod. by exists esp.
Qed.

(** ** Returns *)

(** The code segment a return goes to, and the flags it may change. *)
Definition return_code (cpl new_cs e2 : Z) : Prop :=
  has e2 DESC_S_MASK = true /\ has e2 DESC_CS_MASK = true /\ has e2 DESC_P_MASK = true /\
  cpl <= rpl_of new_cs /\
  if has e2 DESC_C_MASK then dpl_of e2 <= rpl_of new_cs else dpl_of e2 = rpl_of new_cs.

Lemma qat_check_return env new_cs cpl e2 :
  qat (G := G) env (check_return new_cs cpl e2) (fun _ => return_code cpl new_cs e2).
Proof.
  unfold check_return. apply qat_check. intros H1. apply qat_check. intros H2. apply qat_check. intros H3.
  apply qat_raise_if. intros H4. checks. do 4 (split; [done|]). destruct (has e2 DESC_C_MASK); checks; done.
Qed.

Definition outer_stack_ok (rpl : Z) (s : Z * Z * Z * Z) : Prop :=
  let '(new_esp, new_ss, s1, s2) := s in
  in_range 32 new_esp /\ in_range 16 new_ss /\ desc_words (s1, s2) /\ stack_segment rpl new_ss s2.

Lemma land_low_range v : 0 <= v -> in_range 16 (Z.land v 0xffff).
Proof. intros Hv. change 0xffff with (Z.ones 16). rewrite Z.land_ones by done. by apply Z.mod_pos_bound. Qed.

Lemma qat_outer_stack env wide ssp mask rpl sp :
  qat (G := G) env (outer_stack wide ssp mask rpl sp) (outer_stack_ok rpl).
Proof.
  unfold outer_stack. eapply qat_bind; [apply qat_pop_all|]. intros [vs sp'] [Hl Hf]. cbn [fst snd] in *.
  destruct vs as [|esp [|ss [|]]]; try done. cbn [nth]. rewrite !Forall_cons in Hf. destruct Hf as (He & Hs & _).
  set (ss' := if wide then Z.land ss 0xffff else ss).
  assert (in_range 16 ss') as Hs' by (unfold ss'; destruct wide; [apply land_low_range; lia|done]).
  do 2 (apply qat_check; intros ?). eapply qat_bind; [apply qat_need_segment|]. intros [s1 s2] Hd.
  do 3 (apply qat_check; intros ?). apply qat_ret. checks.
  split; [destruct wide; lia|]. by split; [|split; [|]].
Qed.

(** A return to protected mode. *)
Definition returned (env : CPUX86State) (wide is_iret : bool) (new_eflags : Z) (env' : CPUX86State) : Prop :=
  exists new_cs e1 e2 new_eip,
    desc_words (e1, e2) /\ return_code (cpl_of env) new_cs e2 /\
    let flags := if is_iret then Some (new_eflags, cpl_of env, wide) else None in
    (rpl_of new_cs = cpl_of env /\ exists sp, env' =
       finish_return sp (get_sp_mask (sflags (seg env R_SS))) new_eip flags (load_desc R_CS new_cs e1 e2 env)) \/
    (exists sp new_ss s1 s2, stack_segment (rpl_of new_cs) new_ss s2 /\ env' =
       finish_return sp (get_sp_mask s2) new_eip flags (enter_outer new_cs e1 e2 new_ss s1 s2 env)).

Lemma return_protected_spec env wide is_iret addend new_eip new_cs new_eflags sp :
  kat env (return_protected wide is_iret addend (base (seg env R_SS)) (get_sp_mask (sflags (seg env R_SS)))
             new_eip new_cs new_eflags sp) (fun _ => returned env wide is_iret new_eflags).
Proof.
  unfold return_protected. apply kat_check. intros _.
  eapply kat_bind; [apply qat_need_segment|]. intros [e1 e2] Hd. apply kspec_get.
  eapply kat_bind; [apply qat_check_return|]. intros [] Hr. destruct ((_ =? _) && _) eqn:E.
  - apply andb_true_iff in E as [E%Z.eqb_eq _]. apply kspec_mod. exists new_cs, e1, e2, new_eip.
    do 2 (split; [done|]). left. split; [done|]. by eexists.
  - eapply kat_bind; [apply qat_outer_stack|]. intros [[[esp ss] s1] s2] (_ & _ & _ & Hs). apply kspec_mod.
    exists new_cs, e1, e2, new_eip. do 2 (split; [done|]). right. by eexists _, ss, s1, s2.
Qed.

Definition VM86_MASK : Z :=
  Z.lor (Z.lor (Z.lor (Z.lor (Z.lor (Z.lor (Z.lor (Z.lor TF_MASK AC_MASK) ID_MASK)
    IF_MASK) IOPL_MASK) VM_MASK) NT_MASK) VIF_MASK) VIP_MASK.

Definition to_vm86 (new_eflags ip esp cs : Z) (sel : nat -> Z) (env : CPUX86State) : CPUX86State :=
  put_reg R_ESP esp (with_eip ip (enter_vm86 cs sel (cpu_load_eflags new_eflags VM86_MASK env))).

Lemma return_to_vm86_spec env ssp mask new_eip new_cs new_eflags sp :
  kat env (return_to_vm86 ssp mask new_eip new_cs new_eflags sp) (fun _ env' =>
    exists ip esp cs sel, env' = to_vm86 new_eflags ip esp cs sel env).
Proof.
  unfold return_to_vm86. eapply kat_bind; [apply qat_pop_all|]. intros [vs sp'] [Hl _]. cbn [fst] in *.
  apply kspec_mod. set (v i := Z.land (nth i vs 0) 0xffff).
  assert (forall x, Z.land (Z.land x 0xffff) 0xffff = Z.land x 0xffff) as Hid by (intros x; by rewrite <-Z.land_assoc).
  exists (Z.land new_eip 0xffff), (nth 0 vs 0), (Z.land new_cs 0xffff),
    (fun r => if (r =? R_SS)%nat then v 1%nat else if (r =? R_ES)%nat then v 2%nat
              else if (r =? R_DS)%nat then v 3%nat else if (r =? R_FS)%nat then v 4%nat else v 5%nat).
  unfold to_vm86, enter_vm86, load_unusable, load_seg_vm. cbn [foldl]. rewrite !Hid. reflexivity.
Qed.

(** A return, from an interrupt if [is_iret]. *)
Definition returns (env : CPUX86State) (wide is_iret : bool) (env' : CPUX86State) : Prop :=
  exists new_eflags,
    (wide = true /\ is_iret = true /\ has new_eflags VM_MASK = true /\
       exists ip esp cs sel, env' = to_vm86 new_eflags ip esp cs sel env) \/
    returned env wide is_iret new_eflags env'.

Lemma helper_ret_protected_spec env wide is_iret addend :
  kat env (helper_ret_protected wide is_iret addend) (fun _ => returns env wide is_iret).
Proof.
  unfold helper_ret_protected. apply kspec_get. eapply kat_bind; [apply qat_pop_all|]. intros [vs sp] _.
  destruct (wide && is_iret && _) eqn:E.
  - apply andb_true_iff in E as [[-> ->]%andb_true_iff E].
    eapply kspec_weaken; [apply return_to_vm86_spec| |done]. intros ? env' H. by eexists; left.
  - eapply kspec_weaken; [apply return_protected_spec| |done]. intros ? env' H. eexists. right. exact H.
Qed.

Lemma helper_iret_real_spec env wide :
  kat env (helper_iret_real wide) (fun _ env' =>
    exists esp ip cs fl mask h2, Z.testbit mask 17 = false /\
      env' = with_hflags2 h2 (cpu_load_eflags fl mask (with_eip ip (set_cs_real cs (put_reg R_ESP esp env))))).
Proof.
  unfold helper_iret_real. apply kspec_get. eapply kat_bind; [apply qat_pop_all|]. intros [vs sp] _.
  apply kspec_mod. eexists _, _, _, _, _, _. split; [|reflexivity].
  by destruct (has _ VM_MASK), wide.
Qed.

(** ** System calls *)

Lemma helper_sysenter_spec env :
  kat env (helper_sysenter (G := G)) (fun _ env' =>
    sysenter_cs env <> 0 /\ exists h, h = Z.land (eflags env) (not32 (Z.lor (Z.lor VM_MASK IF_MASK) RF_MASK)) /\
      env' = with_eip (sysenter_eip env) (put_reg R_ESP (sysenter_esp env)
        (sys_segs 0 (Z.land (sysenter_cs env) 0xfffc) (Z.land (sysenter_cs env + 8) 0xfffc)
           flat_code flat_data (with_eflags h env)))).
Proof.
  unfold helper_sysenter. apply kspec_get. apply kat_check. intros H. apply kspec_mod. checks.
  split; [done|]. eexists. split; [reflexivity|]. unfold sys_segs. f_equal.
Qed.

Lemma helper_sysexit_spec env :
  kat env (helper_sysexit (G := G)) (fun _ env' =>
    sysenter_cs env <> 0 /\ cpl_of env = 0 /\
    env' = with_eip (reg env R_EDX) (put_reg R_ESP (reg env R_ECX)
      (sys_segs 3 (Z.lor (Z.land (sysenter_cs env + 16) 0xfffc) 3) (Z.lor (Z.land (sysenter_cs env + 24) 0xfffc) 3)
         (Z.lor flat_code (Z.shiftl 3 13)) (Z.lor flat_data (Z.shiftl 3 13)) env))).
Proof.
  unfold helper_sysexit. apply kspec_get. apply kat_check. intros H. apply kspec_mod. checks. done.
Qed.

(** ** The system segments *)

Definition only_ldt_tr (env env' : CPUX86State) : Prop := env' = with_ldt (ldt env') (with_tr (tr env') env).

Lemma helper_lldt_spec env sel0 :
  kat env (helper_lldt sel0) (fun _ env' => exists l, env' = with_ldt l env /\ selector l = Z.land sel0 0xffff).
Proof.
  unfold helper_lldt. set (sel := Z.land sel0 0xffff).
  eapply (kspec_bind _ _ _ _ (fun _ env1 => exists l, env1 = with_ldt l env)).
  - destruct (null_sel sel); [by apply kspec_mod; eexists|].
    apply kat_check. intros _. apply kspec_get. apply kat_check. intros _.
    eapply kat_bind; [apply qat_ldl|]. intros e1 _. eapply kat_bind; [apply qat_ldl|]. intros e2 _.
    do 2 (apply kat_check; intros ?). apply kspec_mod. by eexists.
  - intros _ ? [l ->]. apply kspec_mod. by eexists.
Qed.

(** A failing store of the busy bit finds [tr] loaded already. *)
Lemma helper_ltr_spec env sel0 :
  kspec env (helper_ltr (G := G) sel0)
    (fun _ env' => exists l, env' = with_tr l env /\ selector l = Z.land sel0 0xffff)
    (fun env' => exists l, same_arch (with_tr l env) env').
Proof.
  unfold helper_ltr. set (sel := Z.land sel0 0xffff).
  assert (forall env', same_arch env env' -> exists l, same_arch (with_tr l env) env') as HE.
  { intros env' H. exists (tr env). by destruct env. }
  eapply (kspec_bind _ _ _ _ (fun _ env1 => exists l, env1 = with_tr l env)).
  - destruct (null_sel sel); [by apply kspec_mod; eexists|].
    apply kspec_check; [done|]. intros _. apply kspec_get.
    apply kspec_check; [done|]. intros _.
    eapply kspec_qbind; [done|apply qat_ldl|]. intros e1 _. eapply kspec_qbind; [done|apply qat_ldl|]. intros e2 _.
    apply kspec_check; [done|]. intros _.
    apply kspec_check; [done|]. intros _.
    eapply (kspec_bind _ _ _ _ (fun _ env1 => exists l, env1 = with_tr l env)); [by apply kspec_mod; eexists|].
    intros _ ? [l ->]. apply kspec_q; [|eapply qat_weaken; [apply qat_stl|]].
    + intros env' H. by exists l.
    + intros _ _. by exists l.
  - intros _ ? [l ->]. apply kspec_mod. by eexists.
Qed.

End Ops.
