(* ===== verification/SegTaskInv.v ===== *)
(** * Task switches keep the invariant

    An exception during a task switch leaves either the old task untouched or a
    state of the new task that satisfies the invariant of the segment registers. *)

From stdpp Require Import base list.
From Stdlib Require Import ZArith Lia.
From S2P Require Import Prelude Cpu CcHelper Excp Guest Seg SegSpec SegTask SegInt SegCall SegInv SegOps.

Local Open Scope Z_scope.
Local Open Scope k_scope.

(** In the new task: the invariant holds and the task-switched flag is set. *)
Definition entered (env : CPUX86State) : Prop :=
  seg_inv env /\ ts_flag env = true.

Lemma entered_same env env' : same_arch env env' -> entered env -> entered env'.
Proof. intros H [H1 H2]. split; [by rewrite <-H|]. unfold ts_flag in *. by rewrite (same_hflags _ _ H). Qed.

(** Where an exception leaves the CPU. *)
Definition unchanged_or_entered (env env' : CPUX86State) : Prop := same_arch env env' \/ entered env'.

Section TaskInv.
Context {G : Type} `{!SoftMmu G, !SoftMmuSpec G}.
Implicit Types (env : CPUX86State).

(** ** The first half changes nothing *)

Lemma qat_kloads env (f : Z -> K G Z) (Q : Z -> Prop) n i :
  (forall i, qat env (f i) Q) -> qat env (kloads f n i) (fun l => length l = n /\ Forall Q l).
Proof.
  intros Hf. revert i. induction n as [|n IH]; intros i; cbn [kloads]; [by apply qat_ret|].
  eapply qat_bind; [apply Hf|]. intros v Hv. eapply qat_bind; [apply IH|]. intros vs [Hl Hvs].
  apply qat_ret. split; [by cbn; rewrite Hl|by constructor].
Qed.

Lemma qat_kiter env (f : Z -> K G unit) n i :
  (forall i, qat env (f i) (fun _ => True)) -> qat env (kiter f n i) (fun _ => True).
Proof.
  intros Hf. revert i. induction n as [|n IH]; intros i; cbn [kiter]; [by apply qat_ret|].
  eapply qat_bind; [apply Hf|]. intros _ _. apply IH.
Qed.

Lemma qat_any {A} env (m : K G A) Q : qat env m Q -> qat env m (fun _ => True).
Proof. intros H. by eapply qat_weaken. Qed.

(** What is read from a TSS: a 16-bit one has no vm86 flag. *)
Definition task_ok (type : Z) (t : task) : Prop :=
  in_range 32 (t_eip t) /\ length (t_regs t) = 8%nat /\ length (t_segs t) = 6%nat /\
  (has type 8 = false -> has (t_eflags t) VM_MASK = false).

Lemma no_vm_16 v : in_range 16 v -> has v VM_MASK = false.
Proof.
  intros Hv. change VM_MASK with (2 ^ 17). rewrite has_bit by done. apply Z.bits_above_log2; [lia|].
  destruct (decide (v = 0)) as [->|]; [done|]. apply Z.log2_lt_pow2; lia.
Qed.

Lemma qat_read_tss env (type tss_base : Z) :
  qat (G := G) env (if has type 8 then read_tss32 tss_base else read_tss16 tss_base) (task_ok type).
Proof.
  unfold read_tss32, read_tss16, task_ok. destruct (has type 8).
  - eapply qat_bind; [apply qat_ldl|]. intros cr3 _. eapply qat_bind; [apply qat_ldl|]. intros ip Hip.
    eapply qat_bind; [apply qat_ldl|]. intros fl _.
    eapply qat_bind; [apply qat_kloads; intros; apply qat_ldl|]. intros rs [Hr _].
    eapply qat_bind; [apply qat_kloads; intros; apply qat_lduw|]. intros ss [Hs _].
    eapply qat_bind; [apply qat_lduw|]. intros l _. eapply qat_bind; [apply qat_ldl|]. intros _ _.
    apply qat_ret. done.
  - eapply qat_bind; [apply qat_lduw|]. intros ip Hip. eapply qat_bind; [apply qat_lduw|]. intros fl Hfl.
    eapply qat_bind.
    { apply (qat_kloads _ _ (fun _ => True)). intros i. eapply qat_bind; [apply qat_lduw|]. by intros; apply qat_ret. }
    intros rs [Hr _]. eapply qat_bind; [apply qat_kloads; intros; apply qat_lduw|]. intros ss [Hs _].
    eapply qat_bind; [apply qat_lduw|]. intros l _. apply qat_ret. cbn [t_eip t_regs t_segs t_eflags].
    rewrite length_app, Hs. cbv beta in Hip. split; [lia|]. do 2 (split; [done|]). intros _. by apply no_vm_16.
Qed.

Lemma qat_set_busy env sel busy : qat (G := G) env (set_busy sel busy) (fun _ => True).
Proof.
  unfold set_busy. apply qat_get_bind. eapply qat_bind; [apply qat_ldl|]. intros e2 _. eapply qat_any, qat_stl.
Qed.

Lemma qat_touch env : qat (G := G) env touch_old_tss (fun _ => True).
Proof.
  unfold touch_old_tss. apply qat_get_bind. eapply qat_bind; [apply qat_load|]. intros v1 _.
  eapply qat_bind; [apply qat_load|]. intros v2 _. eapply qat_bind; [apply qat_store|]. intros _ _. apply qat_store.
Qed.

Lemma qat_save env (type : Z) ip fl :
  qat (G := G) env (if has type 8 then save_tss32 ip fl else save_tss16 ip fl) (fun _ => True).
Proof.
  unfold save_tss32, save_tss16. destruct (has type 8); apply qat_get_bind.
  all: eapply qat_bind; [apply qat_store|]; intros _ _; eapply qat_bind; [apply qat_store|]; intros _ _.
  all: eapply qat_bind; [apply qat_kiter; intros; apply qat_store|]; intros _ _.
  all: apply qat_kiter; intros; apply qat_store.
Qed.

Lemma has_nt_vm fl : has (Z.lor fl NT_MASK) VM_MASK = has fl VM_MASK.
Proof. change VM_MASK with (2 ^ 17). by rewrite !has_bit, Z.lor_spec, orb_false_r by done. Qed.

Lemma qat_save_task env type sel tss_base source next_eip :
  qat (G := G) env (save_task type sel tss_base source next_eip) (task_ok type).
Proof.
  unfold save_task. eapply qat_bind; [apply qat_read_tss|]. intros t Ht.
  eapply qat_bind; [apply qat_touch|]. intros _ _. apply qat_get_bind.
  eapply (qat_bind _ _ _ (fun _ => True)); [destruct (_ || _); [apply qat_set_busy|by apply qat_ret]|]. intros _ _.
  eapply qat_bind; [apply qat_save|]. intros _ _.
  eapply (qat_bind _ _ _ (task_ok type)).
  - destruct (source =? SWITCH_TSS_CALL); [|by apply qat_ret]. eapply qat_bind; [apply qat_stw|]. intros _ _.
    apply qat_ret. unfold task_ok in *. cbn [t_eip t_regs t_segs t_eflags]. by rewrite has_nt_vm.
  - intros t' Ht'. eapply (qat_bind _ _ _ (fun _ => True)); [destruct (_ || _); [apply qat_set_busy|by apply qat_ret]|].
    intros _ _. by apply qat_ret.
Qed.

Lemma qat_find_tss env sel e1 e2 : qat (G := G) env (find_tss sel e1 e2) (fun _ => True).
Proof.
  unfold find_tss. destruct (_ =? 5); [|by apply qat_ret]. apply qat_check. intros _. apply qat_check. intros _.
  eapply qat_bind; [apply qat_need_segment|]. intros [c1 c2] _. do 2 (apply qat_check; intros _). by apply qat_ret.
Qed.

(** ** The second half *)

Lemma hflags_ts env : hidden_ok env -> hidden_ok (with_hflags (Z.lor (hflags env) HF_TS_MASK) env).
Proof.
  intros (Hl & H1 & H2 & H3 & H4). unfold hidden_ok, flat. cbn [hflags with_hflags].
  change HF_CS32_MASK with (2 ^ 4) in *. change HF_SS32_MASK with (2 ^ 5) in *.
  change HF_CS64_MASK with (2 ^ 15) in *. change HF_ADDSEG_MASK with (2 ^ 6) in *.
  rewrite !(has_bit (hflags env)) in * by done. rewrite !has_bit, !Z.lor_spec, !orb_false_r by done. done.
Qed.

Lemma has_type_bit e2 : has (type_of (Z.land e2 (not32 DESC_TSS_BUSY_MASK))) 8 = has (type_of e2) 8.
Proof.
  change 8 with (2 ^ 3). rewrite !has_bit by done. unfold type_of. rewrite !Z.land_spec, !Z.shiftr_spec by done.
  by rewrite Z.land_spec, testbit_not32, andb_true_r by done.
Qed.

(** The state between the two halves, whatever [cr3] is. *)
Definition at_new_tss (type e2 : Z) (env env1 : CPUX86State) : Prop :=
  hidden_ok env1 /\ in_vm86 env1 = in_vm86 env /\ task32 env1 = has type 8 /\
  ts_flag env1 = true.

Lemma new_tss_state sel b l e2 env c :
  hidden_ok env ->
  at_new_tss (type_of e2) e2 env
    (with_tr (mkSeg sel b l (Z.land e2 (not32 DESC_TSS_BUSY_MASK)))
      (with_hflags (Z.lor (hflags env) HF_TS_MASK) (with_cr c env))).
Proof.
  intros Hh. split; [apply (hidden_same (with_hflags (Z.lor (hflags env) HF_TS_MASK) env)); [done..|by apply hflags_ts]|].
  split; [done|]. split; [apply has_type_bit|]. unfold ts_flag. cbn [hflags with_tr with_hflags].
  change HF_TS_MASK with (2 ^ 11). by rewrite has_bit, Z.lor_spec, orb_true_r by done.
Qed.

(** Registers, flags and selectors of the new task. *)
Lemma load_task_state type e2 t env env1 :
  at_new_tss type e2 env env1 -> task_ok type t -> (has type 8 = true \/ has (t_eflags t) VM_MASK = false) ->
  let env2 := load_selectors t (load_eip_regs type t env1) in
  entered env2 /\ (has (t_eflags t) VM_MASK = false -> cpl_of env2 = rpl_of (nth R_CS (t_segs t) 0)).
Proof.
  intros (Hh & Hv & H32 & Hts) (_ & _ & _ & H16) Hvm. cbv zeta.
  assert (hidden_ok (load_eip_regs type t env1)) as Hh1 by (by apply (hidden_same env1)).
  assert (task32 (load_eip_regs type t env1) = has type 8) as H32' by done.
  assert (ts_flag (load_eip_regs type t env1) = ts_flag env1) as Hcr by done.
  assert (has type 8 = true -> in_vm86 (load_eip_regs type t env1) = has (t_eflags t) VM_MASK) as Hnew.
  { intros H8. unfold load_eip_regs. rewrite H8. by apply (load_eflags_vm_set _ _ (with_eip (t_eip t) env1)). }
  generalize dependent (load_eip_regs type t env1). intros env2 Hh2 H32' Hcr Hnew. rewrite load_selectors_eq. cbv zeta.
  destruct (has (t_eflags t) VM_MASK) eqn:Ht.
  - destruct (selectors_vm86 (fun i => Z.land (nth i (t_segs t) 0) 0xffff)
      (fun i => Z.shiftl (Z.land (nth i (t_segs t) 0) 0xffff) 4) (fun _ => 0xffff) env2)
      as (I1 & _ & _ & _ & I5); [done|apply Hnew; by destruct Hvm|].
    split; [|done]. split; [done|]. by rewrite I5, Hcr.
  - destruct (selectors_protected (fun i => nth i (t_segs t) 0) (fun _ => 0) (fun _ => 0) env2)
      as (I1 & _ & _ & _ & I5 & I6); [done| |].
    { destruct (has type 8) eqn:E8; [left; by apply Hnew|right; by rewrite H32']. }
    split; [|done]. split; [done|]. by rewrite I5, Hcr.
Qed.

Lemma kspec_update_cr3 env (Q : CPUX86State -> Prop) E c :
  (forall c', Q (with_cr c' env)) ->
  kspec (G := G) env (cpu_x86_update_cr3 c) (fun _ => Q) E.
Proof.
  intros HQ. unfold cpu_x86_update_cr3. eapply (kspec_bind _ _ _ _ (fun _ => Q)).
  - apply kspec_mod, HQ.
  - intros _ env' H. apply kspec_get. destruct (has _ _); [by intros g|by apply kspec_ret].
Qed.

(** ** The segments of the new task *)

Lemma high_type_conforming e2 : (type_of e2 <? 12) = false -> conforming e2 = true.
Proof.
  intros H%Z.ltb_ge. unfold conforming. change DESC_CS_MASK with (2 ^ 11). change DESC_C_MASK with (2 ^ 10).
  rewrite !has_bit by done.
  assert (forall k, 0 <= k < 4 -> Z.testbit e2 (k + 8) = Z.testbit (type_of e2) k) as Hb.
  { intros k Hk. unfold type_of. rewrite Z.land_spec, Z.shiftr_spec by lia. change 15 with (Z.ones 4).
    by rewrite Z.ones_spec_low, andb_true_r by lia. }
  change 11 with (3 + 8). change 10 with (2 + 8). rewrite !Hb by lia. assert (0 <= type_of e2 < 16) as Hr.
  { unfold type_of. change 15 with (Z.ones 4). rewrite Z.land_ones by done. by apply Z.mod_pos_bound. }
  assert (type_of e2 = 12 \/ type_of e2 = 13 \/ type_of e2 = 14 \/ type_of e2 = 15) as [-> | [-> | [-> | ->]]] by lia;
    done.
Qed.

Lemma qat_tss_rights env r cpl sel e2 :
  qat (G := G) env (tss_load_rights r cpl sel e2) (fun _ =>
    r ∈ data_regs -> conforming e2 = true \/ cpl <= dpl_of e2).
Proof.
  unfold tss_load_rights. destruct (Nat.eqb_spec r R_CS) as [->|].
  { do 2 (apply qat_check; intros _). apply qat_raise_if. by intros _ ?%cs_not_data. }
  destruct (Nat.eqb_spec r R_SS) as [->|]; [apply qat_check; intros _; apply qat_raise_if; by intros _ ?%ss_not_data|].
  apply qat_check. intros _. destruct (_ <? 12) eqn:E.
  - apply qat_raise_if. intros H _. checks. by right.
  - apply qat_ret. intros _. left. by apply high_type_conforming.
Qed.

(** A descriptor loaded into a data register. *)
Lemma usable_desc c sel bas lim e2 :
  in_range 32 e2 -> null_sel (u32 sel) = false -> conforming e2 = true \/ c <= dpl_of e2 ->
  usable_at c (mkSeg (u32 sel) (u32 bas) (u32 lim) (u32 e2)).
Proof. intros He Hs Hd. unfold usable_at. cbn [selector sflags]. rewrite Hs, u32_id by done. split; [done|auto]. Qed.

Lemma null_u32 sel : null_sel (u32 sel) = null_sel sel.
Proof.
  unfold null_sel. f_equal. apply Z.bits_inj'. intros n Hn. rewrite !Z.land_spec.
  destruct (decide (n < 32)); [by rewrite u32_testbit by lia|].
  rewrite (Z.bits_above_log2 0xfffc) by (done || (simpl; lia)). by rewrite !andb_false_r.
Qed.

Lemma load_desc_entered r sel e1 e2 env :
  entered env -> (r < 6)%nat -> in_range 32 e2 -> null_sel sel = false ->
  (r = R_CS -> rpl_of sel = cpl_of env) -> (r ∈ data_regs -> conforming e2 = true \/ cpl_of env <= dpl_of e2) ->
  entered (load_desc r sel e1 e2 env) /\ cpl_of (load_desc r sel e1 e2 env) = cpl_of env.
Proof.
  intros [Hi Ht] Hr He Hs Hcs Hd. unfold load_desc. split; [|apply cpl_load_seg]. split.
  - apply base_inv; rewrite ?cpl_load_seg.
    + apply base_load; [by apply inv_base|done|]. intros Hin. apply usable_desc; [done|by rewrite null_u32|by apply Hd].
    + destruct Hi as (H1 & H2 & _). apply level_load; [done|by apply hidden_len|done|].
      intros ->. rewrite rpl_u32. by apply Hcs.
  - by rewrite ts_load_seg.
Qed.

(** In the new task at level [c]; exceptions stay there. *)
Definition at_level (c : Z) (env : CPUX86State) : Prop := entered env /\ cpl_of env = c.

Lemma tss_load_seg_spec c r sel env :
  at_level c env -> (r < 6)%nat -> (r = R_CS -> rpl_of sel = c) ->
  kspec (G := G) env (tss_load_seg r sel) (fun _ => at_level c) entered.
Proof.
  intros [He Hc] Hr Hcs. pose proof (fun e H => entered_same env e H He) as HE.
  unfold tss_load_seg. destruct (null_sel sel) eqn:Hn; cbn [negb].
  { apply kspec_q; [done|]. by apply qat_raise_if. }
  eapply kspec_qbind; [done|apply qat_need_segment|]. intros [e1 e2] [_ Hd]. apply kspec_check; [done|]. intros _.
  apply kspec_get. eapply kspec_qbind; [done|apply qat_tss_rights|]. intros [] Hrt.
  apply kspec_check; [done|]. intros _. apply kspec_mod.
  destruct (load_desc_entered r sel e1 e2 env) as [I1 I2]; [done..| |done|].
  { intros Ecs. rewrite Hc. by apply Hcs. }
  split; [done|]. by rewrite I2.
Qed.

Lemma load_task_segs_spec t env :
  at_level (rpl_of (nth R_CS (t_segs t) 0)) env ->
  kspec (G := G) env (load_task_segs t) (fun _ => entered) entered.
Proof.
  intros H. unfold load_task_segs. destruct (negb _); [|apply kspec_ret; apply H].
  do 5 (eapply kspec_bind; [apply tss_load_seg_spec; [eassumption|unfold R_CS, R_SS, R_ES, R_DS, R_FS; lia|done]|];
    clear H; intros ? ? H; cbv beta in H).
  eapply kspec_weaken; [apply tss_load_seg_spec; [eassumption|unfold R_GS; lia|done]| |done].
  by intros ? ? [? _].
Qed.

Lemma with_ldt_entered l env : entered env -> entered (with_ldt l env).
Proof. intros [H1 H2]. split; [by apply (inv_same env)|done]. Qed.

Lemma load_task_ldt_spec l env :
  entered env ->
  kspec (G := G) env (load_task_ldt l) (fun _ env' => exists s, env' = with_ldt s env) entered.
Proof.
  intros He. unfold load_task_ldt.
  eapply (kspec_bind _ _ _ _ (fun _ env' => exists s, env' = with_ldt s env)); [by apply kspec_mod; eexists|].
  intros _ env1 [s ->]. pose proof (with_ldt_entered s env He) as He1.
  pose proof (fun e H => entered_same _ e H He1) as HE. apply kspec_check; [done|]. intros _.
  destruct (negb _); [|by apply kspec_ret; eexists]. apply kspec_get. apply kspec_check; [done|]. intros _.
  eapply kspec_qbind; [done|apply qat_ldl|]. intros e1 _. eapply kspec_qbind; [done|apply qat_ldl|]. intros e2 _.
  do 2 (apply kspec_check; [done|]; intros _). apply kspec_mod. by eexists.
Qed.

(** Removing breakpoints changes neither segments nor flags. *)
Definition only_debug (env env' : CPUX86State) : Prop :=
  env' = with_dr (dr env') (with_breakpoints (breakpoints env') (with_watchpoints (watchpoints env') env)).

Lemma only_debug_entered env env' : only_debug env env' -> entered env -> entered env'.
Proof. unfold only_debug. intros -> [H1 H2]. split; [by apply (inv_same env)|done]. Qed.

Lemma hw_breakpoint_remove_spec i env E :
  kspec (G := G) env (hw_breakpoint_remove i) (fun _ => only_debug env) E.
Proof.
  unfold hw_breakpoint_remove, cpu_breakpoint_remove_by_ref, cpu_watchpoint_remove_by_ref. apply kspec_get.
  destruct (nth _ _ _) as [p|]; [|apply kspec_ret; by destruct env].
  destruct (_ =? 0).
  { destruct (hw_breakpoint_enabled _ _); [|apply kspec_ret; by destruct env]. apply kspec_get.
    destruct (linked _ _); [apply kspec_mod; by destruct env|by intros g]. }
  destruct (_ || _); [|apply kspec_ret; by destruct env]. apply kspec_get.
  destruct (linked _ _); [|by intros g]. intros g. by destruct env.
Qed.

Lemma only_debug_refl env : only_debug env env.
Proof. by destruct env. Qed.
Lemma only_debug_trans a b c : only_debug a b -> only_debug b c -> only_debug a c.
Proof. unfold only_debug. intros Ha Hb. rewrite Hb, Ha. by destruct a. Qed.

Lemma kiter_debug (f : Z -> K G unit) n i env E :
  (forall i env, kspec env (f i) (fun _ => only_debug env) E) ->
  kspec env (kiter f n i) (fun _ => only_debug env) E.
Proof.
  intros Hf. revert i env. induction n as [|n IH]; intros i env; cbn [kiter]; [apply kspec_ret, only_debug_refl|].
  eapply kspec_bind; [apply Hf|]. intros ? env1 H1. eapply kspec_weaken; [apply IH| |done].
  intros ? env2 H2. eapply only_debug_trans; [exact H1|exact H2].
Qed.

Lemma reset_local_breakpoints_spec env E :
  kspec (G := G) env reset_local_breakpoints (fun _ => only_debug env) E.
Proof.
  unfold reset_local_breakpoints. apply kspec_get. destruct (has _ _); [|apply kspec_ret, only_debug_refl].
  eapply kspec_bind.
  - apply kiter_debug. intros i env'. apply kspec_get.
    destruct (_ && _); [apply hw_breakpoint_remove_spec|apply kspec_ret, only_debug_refl].
  - intros ? env1 H1. apply kspec_mod. eapply only_debug_trans; [exact H1|]. by destruct env1.
Qed.

Lemma enter_task_spec sel b l e2 t env :
  hidden_ok env -> task_ok (type_of e2) t ->
  kspec (G := G) env (enter_task (type_of e2) sel b l e2 t) (fun _ => entered) entered.
Proof.
  intros Hh Ht. unfold enter_task.
  eapply (kspec_bind _ _ _ _ (fun _ => at_new_tss (type_of e2) e2 env)); [apply kspec_mod; exact (new_tss_state sel b (u32 l) e2 env _ Hh)|].
  intros ? env1 H1. apply kspec_get.
  eapply (kspec_bind _ _ _ _ (fun _ => at_new_tss (type_of e2) e2 env)).
  { destruct (_ && _); [|by apply kspec_ret]. apply kspec_update_cr3. intros c. done. }
  clear env1 H1. intros ? env1 H1. eapply kspec_bind; [by apply kspec_mod with (Q := fun _ e => e = load_eip_regs (type_of e2) t env1)|].
  intros ? ? ->. eapply kspec_bind; [by apply kspec_mod with (Q := fun _ e => e = load_selectors t (load_eip_regs (type_of e2) t env1))|].
  intros ? ? ->. destruct (load_task_state (type_of e2) e2 t env env1 H1 Ht) as [H2 H3].
  { destruct (has (type_of e2) 8) eqn:E8; [by left|]. right. destruct Ht as (_ & _ & _ & Ht). by apply Ht. }
  set (env2 := load_selectors _ _) in *. clearbody env2.
  eapply kspec_bind; [by apply load_task_ldt_spec|]. intros ? ? [s ->]. pose proof (with_ldt_entered s _ H2) as H4.
  eapply (kspec_bind _ _ _ _ (fun _ => entered)).
  { destruct (has (t_eflags t) VM_MASK) eqn:Hv.
    - unfold load_task_segs. rewrite Hv. by apply kspec_ret.
    - apply load_task_segs_spec. split; [done|]. by apply H3. }
  intros ? env3 H5. apply kspec_get. apply kspec_check; [by intros e He; eapply entered_same|]. intros _.
  eapply kspec_weaken; [apply reset_local_breakpoints_spec| |done]. intros ? env4 H6. eapply only_debug_entered; [exact H6|done].
Qed.

Lemma switch_tss_spec sel e1 e2 source next_eip env :
  hidden_ok env ->
  kspec (G := G) env (switch_tss sel e1 e2 source next_eip) (fun _ => entered) (unchanged_or_entered env).
Proof.
  intros Hh. assert (forall e, same_arch env e -> unchanged_or_entered env e) as HE by (intros e He; by left).
  unfold switch_tss. eapply kspec_qbind; [done|apply qat_find_tss|]. intros [[sel' c1] c2] _.
  do 2 (apply kspec_check; [done|]; intros _).
  eapply kspec_qbind; [done|apply qat_save_task|]. intros t Ht.
  eapply kspec_weaken; [by apply enter_task_spec|done|]. intros e He. by right.
Qed.

Lemma push_task_error_spec err env :
  entered env -> kspec (G := G) env (push_task_error err) (fun _ => entered) entered.
Proof.
  intros He. unfold push_task_error. apply kspec_get.
  eapply (kspec_qbind _ _ _ _ (fun _ => True)).
  - intros e H. by eapply entered_same.
  - destruct (negb _); apply qat_store.
  - intros ? _. apply kspec_mod. destruct He as [H1 H2]. split; [by apply (inv_same env)|done].
Qed.
End TaskInv.
