(* ===== verification/SoftMmu.v ===== *)
(** * The softmmu

    Loads and stores of the guest as target-i386/mem_helper.c and
    include/exec/softmmu_template.h make them: the TLB is filled by the page
    table walk of file Mmu, and an access that spans two pages is split. Each
    access walks here and flushing does nothing; file TlbMmu has the same routines
    with the TLB as a cache, and file TlbSim shows that they simulate these. Guest
    memory is RAM. *)

From stdpp Require Import base list.
From Stdlib Require Import ZArith Lia.
From S2P Require Import Prelude Cpu CcHelper Excp Guest Mmu MmuWalk Seg SegSpec.

Local Open Scope Z_scope.
Local Open Scope k_scope.

Definition phys : Type := Z -> Z.

(** [tlb_fill]: a page, or the page fault. *)
Definition tlb_fill (addr is_write mmu_idx : Z) : K phys tlb_entry :=
  fun env p =>
    match cpu_x86_handle_mmu_fault addr is_write mmu_idx (mkMachine env p) with
    | (Some e, m) => KRet e (m_cpu m) (m_phys m)
    | (None, m) => raise (exception_index (m_cpu m)) (error_code (m_cpu m)) (m_cpu m) (m_phys m)
    end.

Definition page_offset (addr : Z) : Z := Z.land addr 0xfff.
Definition host_addr (e : tlb_entry) (addr : Z) : Z := t_paddr e + page_offset addr.

Definition ld_raw (n : nat) (a : Z) : K phys Z := fun env p => KRet (ld_phys (mkMachine env p) n a) env p.
Definition st_raw (n : nat) (a v : Z) : K phys unit := kmem (poke (Z.of_nat n) a v).

(** [addr & ~(DATA_SIZE - 1)] and the next word. *)
Definition slow_ld (n : nat) (addr mmu_idx : Z) (e : tlb_entry) : K phys Z :=
  let size := Z.of_nat n in
  let addr1 := Z.land addr (not32 (size - 1)) in
  let addr2 := u32 (addr1 + size) in
  res1 <- ld_raw n (host_addr e addr1) ;;
  e2 <- tlb_fill addr2 0 mmu_idx ;;
  res2 <- ld_raw n (host_addr e2 addr2) ;;
  let shift := Z.land addr (size - 1) * 8 in
  kret (wrap (8 * size) (Z.lor (Z.shiftr res1 shift) (Z.shiftl res2 (size * 8 - shift)))).

Definition helper_ld (n : nat) (addr mmu_idx : Z) : K phys Z :=
  e <- tlb_fill addr 0 mmu_idx ;;
  if TARGET_PAGE_SIZE <=? page_offset addr + Z.of_nat n - 1 then slow_ld n addr mmu_idx e
  else ld_raw n (host_addr e addr).

(** The bytes of a store across two pages, last to first: byte [i] of [addr] is in
    the first page or the second. *)
Fixpoint slow_st (n : nat) (addr val : Z) (e1 e2 : tlb_entry) : K phys unit :=
  match n with
  | O => kret tt
  | S i =>
      let a := u32 (addr + Z.of_nat i) in
      let e := if Z.land a TARGET_PAGE_MASK =? Z.land addr TARGET_PAGE_MASK then e1 else e2 in
      st_raw 1 (host_addr e a) (Z.shiftr val (Z.of_nat i * 8)) ;;
      slow_st i addr val e1 e2
  end.

Definition helper_st (n : nat) (addr val mmu_idx : Z) : K phys unit :=
  e1 <- tlb_fill addr 1 mmu_idx ;;
  if TARGET_PAGE_SIZE <=? page_offset addr + Z.of_nat n - 1 then
    e2 <- tlb_fill (u32 (addr + Z.of_nat n - 1)) 1 mmu_idx ;;
    slow_st n addr val e1 e2
  else st_raw n (host_addr e1 addr) val.

#[export] Instance phys_mmu : SoftMmu phys := {|
  mmu_load idx n a := helper_ld n a idx;
  mmu_store idx n a v := helper_st n a v idx;
  tlb_flush p := p;
  tlb_flush_page _ p := p;
  ldl_mem a p := ld_phys (mkMachine blank_cpu p) 4 a;
  stl_mem a v p := poke 4 a v p
|}.

(** ** It leaves the CPU alone *)

Definition keeps_cpu {A} (x : W A) : Prop :=
  forall m, match x m with WOk _ m' | WFault _ m' => m_cpu m' = m_cpu m end.

Lemma keeps_bind {A B} (x : W A) (k : A -> W B) :
  keeps_cpu x -> (forall a, keeps_cpu (k a)) -> keeps_cpu (wbind x k).
Proof.
  intros Hx Hk m. unfold wbind. specialize (Hx m). destruct (x m) as [a m'|e m']; [|done].
  rewrite <-Hx. apply Hk.
Qed.
Lemma keeps_get_bind {B} (k : machine -> W B) : (forall m, keeps_cpu (k m)) -> keeps_cpu (wbind wget k).
Proof. intros H m. apply H. Qed.
Lemma keeps_ret {A} (a : A) : keeps_cpu (wret a). Proof. by intros m. Qed.
Lemma keeps_guard b e : keeps_cpu (wguard b e). Proof. intros m. by destruct b. Qed.
Lemma keeps_st n a v : keeps_cpu (st_phys n a v). Proof. by intros m. Qed.

Section Walk.
Context (addr w idx : Z).

Lemma keeps_check_access p : keeps_cpu (check_access w idx p).
Proof.
  apply keeps_get_bind. intros m. repeat case_match; repeat (apply keeps_bind; [|intros _]); apply keeps_guard || apply keeps_ret.
Qed.

Lemma keeps_touch_entry a e : keeps_cpu (touch_entry w a e).
Proof. unfold touch_entry. case_match; [|apply keeps_ret]. apply keeps_bind; [apply keeps_st|]. intros _. apply keeps_ret. Qed.
Lemma keeps_touch_dir a e : keeps_cpu (touch_dir a e).
Proof. unfold touch_dir. case_match; [|apply keeps_ret]. apply keeps_bind; [apply keeps_st|]. intros _. apply keeps_ret. Qed.

Ltac walk_step :=
  lazymatch goal with
  | |- keeps_cpu (wbind wget _) => apply keeps_get_bind; intros ?
  | |- keeps_cpu (wbind (wguard _ _) _) => apply keeps_bind; [apply keeps_guard|intros ?]
  | |- keeps_cpu (wbind (check_access _ _ _) _) => apply keeps_bind; [apply keeps_check_access|intros ?]
  | |- keeps_cpu (wbind (touch_entry _ _ _) _) => apply keeps_bind; [apply keeps_touch_entry|intros ?]
  | |- keeps_cpu (wbind (touch_dir _ _) _) => apply keeps_bind; [apply keeps_touch_dir|intros ?]
  | |- keeps_cpu (wret _) => apply keeps_ret
  end.

Lemma keeps_leaf a e p : keeps_cpu (pae_large addr w idx a e p) /\ keeps_cpu (pae_small addr w idx a e p) /\
  keeps_cpu (large_32 addr w idx a e) /\ keeps_cpu (small_32 addr w idx a e).
Proof. unfold pae_large, pae_small, large_32, small_32, check_nx_reserved. cbv zeta. split_and!; repeat walk_step. Qed.

Lemma keeps_walk (pae : bool) : keeps_cpu (if pae then walk_pae addr w idx else walk_32 addr w idx).
Proof.
  unfold walk_pae, walk_32, check_nx_reserved. destruct pae; cbv zeta; repeat walk_step; destruct (_ : bool); apply keeps_leaf.
  all: exact 0.
Qed.

Lemma do_fault_arch e m : same_arch (m_cpu m) (m_cpu (do_fault addr w idx e m)).
Proof.
  unfold do_fault. destruct (Z.testbit (intercept_exceptions (m_cpu m)) EXCP0E_PAGE); destruct (m_cpu m) as [];
    [done|]. unfold same_arch, erase_exception. cbn. by rewrite list_insert_insert_eq.
Qed.

Lemma tlb_fill_ok env : qat env (tlb_fill addr w idx) (fun _ => True).
Proof.
  intros p. unfold tlb_fill, cpu_x86_handle_mmu_fault. destruct (negb _); [done|].
  pose proof (keeps_walk (has (crn (mkMachine env p) 4) CR4_PAE_MASK) (mkMachine env p)) as Hk.
  destruct ((if has (crn _ 4) CR4_PAE_MASK then walk_pae addr w idx else walk_32 addr w idx) (mkMachine env p))
    as [[[[pte ptep] size] va] m|e m]; [done|].
  pose proof (do_fault_arch e m) as Hd. rewrite Hk in Hd. cbn [m_cpu] in Hd.
  set (m' := do_fault addr w idx e m) in *.
  pose proof (qat_raise (G := phys) (A := tlb_entry) (m_cpu m') (exception_index (m_cpu m')) (error_code (m_cpu m')) (fun _ => False) (m_phys m')) as Hr.
  unfold access_ok in *. destruct (raise _ _ _ _); [naive_solver|by etrans|by etrans|done].
Qed.
End Walk.

#[export] Instance phys_mmu_spec : SoftMmuSpec phys.
Proof.
  split.
  - intros idx n a env p. revert p. change (qat env (helper_ld n a idx) (fun v => in_range (8 * Z.of_nat n) v)).
    assert (forall b, qat env (ld_raw n b) (fun v => in_range (8 * Z.of_nat n) v)) as Hl.
    { intros b p. split; [done|]. pose proof (ld_phys_range (mkMachine env p) n b) as H.
      rewrite Z.pow_mul_r by lia. exact H. }
    unfold helper_ld. eapply qat_bind; [apply tlb_fill_ok|]. intros e _. destruct (_ <=? _); [|apply Hl].
    unfold slow_ld. eapply qat_bind; [apply Hl|]. intros r1 _. eapply qat_bind; [apply tlb_fill_ok|]. intros e2 _.
    eapply qat_bind; [apply Hl|]. intros r2 _. apply qat_ret. apply wrap_range. lia.
  - intros idx n a v env p. revert p. change (qat env (helper_st n a v idx) (fun _ => True)).
    unfold helper_st. eapply qat_bind; [apply tlb_fill_ok|]. intros e _. destruct (_ <=? _); [|by intros p].
    eapply qat_bind; [apply tlb_fill_ok|]. intros e2 _. generalize n at 1. intros k. clear.
    induction k as [|k IH]; cbn [slow_st]; [by apply qat_ret|].
    eapply (qat_bind _ _ _ (fun _ => True)); [by intros p|]. intros _ _. apply IH.
Qed.

(** ** Guest memory without paging *)

Definition unpaged (env : CPUX86State) : bool :=
  negb (has (nth 0 (cr env) 0) CR0_PG_MASK) && (a20_mask env =? -1).
Definition in_page (a : Z) : bool := page_offset a + 4 <=? TARGET_PAGE_SIZE.

Lemma page_offset_mod a : page_offset a = a mod 4096.
Proof. unfold page_offset. change 0xfff with (Z.ones 12). by rewrite Z.land_ones. Qed.

Lemma page_split a : Z.land a TARGET_PAGE_MASK + page_offset a = a.
Proof. rewrite page_mask, page_offset_mod. pose proof (Z.div_mod a 4096). lia. Qed.

(** Pages are mapped to themselves. *)
Lemma tlb_fill_unpaged addr w idx env p :
  unpaged env = true ->
  exists e, tlb_fill addr w idx env p = KRet e env p /\ (in_range 32 addr -> t_paddr e = Z.land addr TARGET_PAGE_MASK).
Proof.
  intros [Hpg Ha%Z.eqb_eq]%andb_true_iff. unfold tlb_fill, cpu_x86_handle_mmu_fault, crn. cbn [m_cpu]. rewrite Hpg.
  eexists. split; [reflexivity|]. intros Hr. unfold do_mapping. cbn [t_paddr m_cpu]. rewrite Ha, Z.land_m1_r.
  assert (Z.land (Z.land addr TARGET_PAGE_MASK) (4096 - 1) = 0) as ->.
  { rewrite <-Z.land_assoc. change (Z.land TARGET_PAGE_MASK (4096 - 1)) with 0. apply Z.land_0_r. }
  change (u32 0) with 0. rewrite Z.add_0_r. unfold u64. apply wrap_id.
  assert (0 <= Z.land addr TARGET_PAGE_MASK) by (apply Z.land_nonneg; lia).
  pose proof (page_split addr) as Hs. assert (0 <= page_offset addr) by (apply Z.land_nonneg; lia). lia.
Qed.

(** A word that does not cross a page is read in place. *)
Lemma helper_ld_word a idx env p :
  unpaged env = true -> in_page a = true -> in_range 32 a ->
  helper_ld 4 a idx env p = KRet (ld_phys (mkMachine env p) 4 a) env p.
Proof.
  intros Hu Hp Ha. unfold helper_ld. destruct (tlb_fill_unpaged a 0 idx env p Hu) as (e & He & Hpa).
  rewrite (kbind_ret _ _ _ _ _ _ _ He). apply Z.leb_le in Hp.
  destruct (Z.leb_spec TARGET_PAGE_SIZE (page_offset a + Z.of_nat 4 - 1)); [lia|].
  unfold ld_raw, host_addr. by rewrite Hpa, page_split by done.
Qed.

(** A descriptor in such memory. *)
Lemma load_segment_unpaged sel env p :
  let ptr := u32 (base (desc_table env sel) + Z.land sel (Z.lnot 7)) in
  unpaged env = true -> (limit (desc_table env sel) <? u32 (Z.land sel (Z.lnot 7) + 7)) = false ->
  in_page ptr = true -> in_page (u32 (ptr + 4)) = true ->
  load_segment sel env p =
  KRet (Some (ld_phys (mkMachine env p) 4 ptr, ld_phys (mkMachine env p) 4 (u32 (ptr + 4)))) env p.
Proof.
  intros ptr Hu Hl H1 H2. unfold load_segment. cbv zeta. change (kbind kget ?k env p) with (k env env p). cbv beta.
  rewrite Hl. fold ptr. unfold cpu_ldl_kernel. cbn [mmu_load phys_mmu].
  assert (u32 ptr = ptr) as Hi by (apply u32_id, u32_range). rewrite Hi.
  rewrite (kbind_ret _ _ _ _ _ _ _ (helper_ld_word ptr _ env p Hu H1 (u32_range _))).
  by rewrite (kbind_ret _ _ _ _ _ _ _ (helper_ld_word (u32 (ptr + 4)) _ env p Hu H2 (u32_range _))).
Qed.
