(* ===== verification/SegTracer.v ===== *)
(** * The emulator with the tracer

    Guest memory beside the tables of the tracer: interrupts and returns from
    interrupts call the hooks of file Tracer. *)

From stdpp Require Import base gmap list strings.
From Stdlib Require Import ZArith Lia.
From S2P Require Import Prelude Cpu CcHelper Excp Guest Mmu CallStack LibMap Tracer Seg SegSpec SegTask SegInt SegOps SoftMmu.

Local Open Scope Z_scope.
Local Open Scope k_scope.

(** ** Memory as a part of the state *)

Definition on_phys {U A} (m : K phys A) : K (phys * U) A :=
  fun env g =>
    match m env (fst g) with
    | KRet a env' p => KRet a env' (p, snd g)
    | KExit env' p => KExit env' (p, snd g)
    | KVmexit c i env' p => KVmexit c i env' (p, snd g)
    | KAbort => KAbort
    end.

#[export] Instance traced_mmu {U} : SoftMmu (phys * U) := {|
  mmu_load idx n a := on_phys (mmu_load idx n a);
  mmu_store idx n a v := on_phys (mmu_store idx n a v);
  tlb_flush g := (tlb_flush (fst g), snd g);
  tlb_flush_page a g := (tlb_flush_page a (fst g), snd g);
  ldl_mem a g := ldl_mem a (fst g);
  stl_mem a v g := (stl_mem a v (fst g), snd g)
|}.

Lemma on_phys_ok {U A} (m : K phys A) env (g : phys * U) Q :
  access_ok env (m env (fst g)) Q -> access_ok env (on_phys m env g) Q.
Proof. unfold on_phys, access_ok. by destruct (m env (fst g)). Qed.

#[export] Instance traced_mmu_spec {U} : SoftMmuSpec (phys * U).
Proof.
  split; intros; [apply (on_phys_ok (mmu_load idx n a)), mmu_load_ok|apply (on_phys_ok (mmu_store idx n a v)), mmu_store_ok].
Qed.

(** ** The hooks *)

Section Hooks.
Context {T H : Type}.

(** A hook sees the machine and changes the tables. *)
Definition in_hook (hook : machine -> M (tracer T H) unit) : K (phys * tracer T H) unit :=
  fun env g =>
    match hook (mkMachine env (fst g)) (snd g) with
    | Ok (_, t) => KRet tt env (fst g, t)
    | _ => KAbort
    end.

#[export] Instance tracer_hooks : IntrHooks (phys * tracer T H) := {|
  on_interrupt intno := in_hook (fun m => interrupt_hook m intno);
  on_iret := in_hook iret_hook
|}.

Lemma in_hook_ok hook : quiet (in_hook hook).
Proof. intros env g. unfold in_hook. by destruct (hook _ _) as [[[] t]| |]. Qed.

#[export] Instance tracer_hooks_spec : IntrHooksSpec (phys * tracer T H).
Proof. split; intros; apply in_hook_ok. Qed.
End Hooks.
