(* ===== verification/SegDemo.v ===== *)
(** * A machine in protected mode

    Flat kernel and user segments, a task segment, an interrupt gate for system
    calls and a call gate to a conforming segment, with user code running: a state
    the theorems about segmentation apply to. *)

From stdpp Require Import base list relations.
From Stdlib Require Import ZArith Lia.
From S2P Require Import Prelude Cpu CcHelper Excp Guest Mmu Seg SegSpec SegTask SegInt SegCall SegInv SegOps SoftMmu.

Local Open Scope Z_scope.

Definition GDT : Z := 0x1000.
Definition IDT : Z := 0x2000.
Definition TSS : Z := 0x3000.
Definition STACK : Z := 0x7000.

(** Descriptors 0x08 and 0x10 are the kernel's code and data, 0x18 and 0x20 the
    user's, 0x28 the task segment, 0x30 a call gate open to everyone that leads
    to the conforming kernel segment 0x38; vector 0x80 is open to everyone. *)
Definition tables : list (Z * Z) :=
  [(GDT + 0x08, 0x0000ffff); (GDT + 0x0c, 0x00cf9b00); (GDT + 0x10, 0x0000ffff); (GDT + 0x14, 0x00cf9300);
   (GDT + 0x18, 0x0000ffff); (GDT + 0x1c, 0x00cffb00); (GDT + 0x20, 0x0000ffff); (GDT + 0x24, 0x00cff300);
   (GDT + 0x28, 0x30000067); (GDT + 0x2c, 0x00008b00); (GDT + 0x30, 0x00384000); (GDT + 0x34, 0x0000ec00);
   (GDT + 0x38, 0x0000ffff); (GDT + 0x3c, 0x00cf9f00);
   (IDT + 0x400, 0x00085000); (IDT + 0x404, 0x0000ee00); (TSS + 4, 0x9000); (TSS + 8, 0x10)].

(** A frame user code may build on its own stack: [VM], [IF] and [IOPL] 3. *)
Definition vm86_frame : list (Z * Z) := [(STACK, 0x100); (STACK + 8, 0x23202); (STACK + 12, 0x500)].

Definition memory (words : list (Z * Z)) : phys := foldr (fun w p => poke 4 (fst w) (snd w) p) (fun _ => 0) words.
Definition demo_mem : phys := memory (tables ++ vm86_frame).

Definition user_code : SegmentCache := mkSeg 0x1b 0 0xffffffff 0x00cffb00.
Definition user_data : SegmentCache := mkSeg 0x23 0 0xffffffff 0x00cff300.

(** User code at 0x6000 with interrupts disabled and [IOPL] 0. *)
Definition user_cpu : CPUX86State :=
  with_regs [1; 2; 3; 4; STACK; 5; 6; 7] (with_eip 0x6000 (with_eflags 2
    (with_hflags (Z.lor (Z.lor (Z.lor 3 HF_CS32_MASK) HF_SS32_MASK) HF_PE_MASK) (with_cr [1; 0; 0; 0; 0]
      (with_segs [user_data; user_code; user_data; user_data; seg0; seg0]
        (with_gdt (mkSeg 0 GDT 0x3f 0) (with_idt (mkSeg 0 IDT 0x7ff 0)
          (with_tr (mkSeg 0x28 TSS 0x67 0x8900) (with_sysenter_cs 8 (with_sysenter_eip 0x5800 (with_sysenter_esp 0x9000 (with_old_exception (-1) blank_cpu)))))))))))).

Lemma user_cpu_inv : seg_inv user_cpu.
Proof. split; [by vm_compute|]. split; [by vm_compute|]. apply (bool_decide_unpack _). by vm_compute. Qed.

(** The state a helper leaves, and how it ends. *)
Definition left_by {G} (r : kres G unit) (env : CPUX86State) (g : G) : CPUX86State * G :=
  match r with KRet _ env' g' | KExit env' g' => (env', g') | _ => (env, g) end.
Definition returns_ok {G} (r : kres G unit) : bool := match r with KRet _ _ _ => true | _ => false end.
Definition exits {G} (r : kres G unit) : bool := match r with KExit _ _ => true | _ => false end.

Lemma returns_to {G} (r : kres G unit) env g :
  returns_ok r = true -> r = KRet tt (fst (left_by r env g)) (snd (left_by r env g)).
Proof. by destruct r as [[] env' g'| | |]. Qed.
Lemma exits_to {G} (r : kres G unit) env g :
  exits r = true -> r = KExit (fst (left_by r env g)) (snd (left_by r env g)).
Proof. by destruct r as [[] env' g'| | |]. Qed.
