(* ===== verification/SegPriv.v ===== *)
(** * Privilege levels

    How interrupts, calls and returns change the privilege level, the stack and
    the flags that only privileged code may change. *)

From stdpp Require Import base list.
From Stdlib Require Import ZArith Lia.
From S2P Require Import Prelude Cpu CcHelper Excp Guest Seg SegSpec SegTask SegInt SegCall SegInv SegOps SegTaskInv SoftMmu SegDemo.

Local Open Scope Z_scope.
Local Open Scope k_scope.

Definition iopl_of (env : CPUX86State) : Z := Z.land (Z.shiftr (eflags env) IOPL_SHIFT) 3.
Definition if_flag (env : CPUX86State) : bool := has (eflags env) IF_MASK.

(** ** Into a handler *)

(** The stack segment an entry point stands for. *)
Definition entry_stack (ep : entry_point) (old : SegmentCache) : SegmentCache :=
  match ep_new ep with
  | Some (ss, s1, s2) =>
      mkSeg (u32 (Z.lor (Z.land ss (Z.lnot 3)) (ep_dpl ep))) (u32 (ep_ssp ep)) (u32 (get_seg_limit s1 s2)) (u32 s2)
  | None => old
  end.

Lemma enter_handler_view type sel offset e1 e2 esp ep env :
  seg_inv env -> 0 <= ep_dpl ep <= cpl_of env ->
  let env' := enter_handler type sel offset e1 e2 esp ep env in
  cpl_of env' = ep_dpl ep /\ in_vm86 env' = false /\ eip env' = offset /\
  seg env' R_SS = entry_stack ep (seg env R_SS) /\ (Z.land type 1 = 0 -> if_flag env' = false).
Proof.
  intros H Hd. pose proof (base_mono _ (ep_dpl ep) _ (proj2 Hd) (inv_base _ H)) as Hb.
  pose proof (cpl_range env). unfold enter_handler.
  set (env1 := match ep_new ep with Some _ => _ | None => _ end).
  assert (base_ok (ep_dpl ep) env1 /\ seg env1 R_SS = entry_stack ep (seg env R_SS)) as [H1 Hs].
  { unfold env1, entry_stack. destruct (ep_new ep) as [[[ss s1] s2]|]; [|done].
    assert (base_ok (ep_dpl ep) (if has (eflags env) VM_MASK
      then foldl (fun env r => cpu_x86_load_seg_cache r 0 0 0 0 env) env [R_ES; R_DS; R_FS; R_GS] else env)) as H1
      by (destruct (has (eflags env) VM_MASK); [by apply base_zero_data|done]).
    revert H1. generalize (if has (eflags env) VM_MASK
      then foldl (fun env r => cpu_x86_load_seg_cache r 0 0 0 0 env) env [R_ES; R_DS; R_FS; R_GS] else env).
    intros env0 H1. pose proof (base_len _ _ H1). split; [by apply base_load_ss|].
    by rewrite seg_load, decide_True by (done || unfold R_SS; lia). }
  clearbody env1.
  assert (base_ok (ep_dpl ep) (SET_ESP esp (ep_mask ep) env1)) as H2 by (by apply (base_same _ env1)).
  unfold load_desc. fold_new_level.
  destruct (new_level_spec _ (ep_dpl ep) (Z.lor (Z.land sel (Z.lnot 3)) (ep_dpl ep)) (get_seg_base e1 e2)
    (get_seg_limit e1 e2) e2 _ H2) as (env' & -> & H3 & H4 & H5 & _ & H6); [apply rpl_replaced; lia|].
  cbv zeta. split; [exact H4|]. split; [by apply (has_cleared _ _ 17)|]. split; [done|].
  split; [change (seg env' R_SS = entry_stack ep (seg env R_SS)); by rewrite H6|].
  intros Ht. unfold if_flag. cbn [eflags with_eflags with_eip]. rewrite (has_kept _ _ 9) by done.
  rewrite Ht. by apply (has_cleared _ _ 9).
Qed.

(** A writable data segment of level [cpl] in a segment register. *)
Definition level_stack (cpl : Z) (sc : SegmentCache) : Prop :=
  rpl_of (selector sc) = cpl /\ dpl_of (sflags sc) = cpl /\
  has (sflags sc) DESC_W_MASK = true /\ has (sflags sc) DESC_CS_MASK = false /\ has (sflags sc) DESC_P_MASK = true.

Lemma has_u32 x k : 0 <= k < 32 -> has (u32 x) (2 ^ k) = has x (2 ^ k).
Proof. intros Hk. by rewrite !has_bit, u32_testbit by lia. Qed.
Lemma dpl_u32 x : dpl_of (u32 x) = dpl_of x.
Proof. unfold dpl_of. apply land3_bits; by rewrite !Z.shiftr_spec, u32_testbit by done. Qed.

Lemma entry_level_stack dpl ep old : 0 <= dpl < 4 -> new_stack_ok dpl ep -> level_stack dpl (entry_stack ep old).
Proof.
  intros Hd (ss & s1 & s2 & esp & -> & _ & _ & _ & Hn & _ & Hs & _ & HC & HW & HP).
  unfold level_stack, entry_stack. cbn [ep_new ep_dpl ep_ssp selector sflags].
  rewrite rpl_u32, rpl_replaced, dpl_u32 by done. split; [done|]. split; [done|].
  split; [by rewrite (has_u32 _ 9)|]. split; [by rewrite (has_u32 _ 11)|by rewrite (has_u32 _ 15)].
Qed.

(** ** Out of a handler *)

Lemma load_eflags_bit fl mask env k :
  0 <= k < 32 -> Z.testbit mask k = false -> Z.testbit (eflags (cpu_load_eflags fl mask env)) k = Z.testbit (Z.lor (eflags env) 2) k.
Proof.
  intros Hk Hm. cbn [cpu_load_eflags eflags with_eflags].
  rewrite !Z.lor_spec, Z.land_spec. change (u32 (Z.lnot mask)) with (not32 mask).
  rewrite testbit_not32, u32_testbit, Z.land_spec, Hm, andb_false_r by done.
  by rewrite andb_true_r, orb_false_r.
Qed.

Lemma load_eflags_iopl fl mask env :
  Z.testbit mask 12 = false -> Z.testbit mask 13 = false -> iopl_of (cpu_load_eflags fl mask env) = iopl_of env.
Proof.
  intros H1 H2. unfold iopl_of, IOPL_SHIFT.
  apply land3_bits; rewrite !Z.shiftr_spec by done; rewrite load_eflags_bit by done; by rewrite Z.lor_spec, orb_false_r.
Qed.

Lemma load_eflags_if fl mask env : Z.testbit mask 9 = false -> if_flag (cpu_load_eflags fl mask env) = if_flag env.
Proof.
  intros H. unfold if_flag. change IF_MASK with (2 ^ 9). rewrite !has_bit by done.
  rewrite load_eflags_bit by done. by rewrite Z.lor_spec, orb_false_r.
Qed.

(** A return changes [IOPL] at level 0 only, and [IF] at levels up to [IOPL]. *)
Lemma finish_return_flags sp sp_mask new_eip fl cpl wide env :
  let env' := finish_return sp sp_mask new_eip (Some (fl, cpl, wide)) env in
  (cpl <> 0 -> iopl_of env' = iopl_of env) /\ (iopl_of env < cpl -> if_flag env' = if_flag env).
Proof.
  cbv zeta. unfold finish_return. set (env1 := with_eip _ _). change (Z.land (Z.shiftr (eflags env1) IOPL_SHIFT) 3) with (iopl_of env).
  change (iopl_of env) with (iopl_of env1). change (if_flag env) with (if_flag env1). split.
  - intros Hc%Z.eqb_neq. apply load_eflags_iopl; unfold iret_mask; rewrite Hc; by destruct (_ <=? _), wide.
  - intros Hc%Z.leb_gt. apply load_eflags_if. unfold iret_mask. rewrite Hc. by destruct (cpl =? 0), wide.
Qed.

Lemma enter_outer_view new_cs e1 e2 new_ss s1 s2 env :
  seg_inv env ->
  let env' := enter_outer new_cs e1 e2 new_ss s1 s2 env in
  cpl_of env' = rpl_of new_cs /\ eflags env' = eflags env.
Proof.
  intros H. assert (base_ok 0 env) as Hb.
  { pose proof (cpl_range env). eapply base_mono; [|by apply inv_base]. lia. }
  unfold enter_outer, load_desc. fold_new_level. set (env1 := cpu_x86_load_seg_cache R_SS _ _ _ _ _).
  assert (base_ok 0 env1) as H1 by (by apply base_load_ss).
  destruct (new_level_spec 0 _ new_cs (get_seg_base e1 e2) (get_seg_limit e1 e2) e2 _ H1 eq_refl)
    as (env2 & -> & H3 & H4 & H5 & H6 & _).
  destruct (validate_all (rpl_of new_cs) env2 H3) as (V1 & V2 & V3 & V4). fold data_regs.
  split; [by rewrite V3|]. rewrite V2, H6. apply load_seg_eflags.
Qed.

(** The level and the flags after a return from [env] to a state with level and
    flags of [env1]. *)
Lemma finish_return_privilege env env1 sp mask new_eip wide fl (is_iret : bool) :
  cpl_of env <= cpl_of env1 -> eflags env1 = eflags env ->
  let env' := finish_return sp mask new_eip (if is_iret then Some (fl, cpl_of env, wide) else None) env1 in
  cpl_of env <= cpl_of env' /\ (cpl_of env <> 0 -> iopl_of env' = iopl_of env) /\
  (iopl_of env < cpl_of env -> if_flag env' = if_flag env).
Proof.
  intros Hc Hf. assert (iopl_of env1 = iopl_of env) as Hio by (unfold iopl_of; by rewrite Hf).
  assert (if_flag env1 = if_flag env) as Hif by (unfold if_flag; by rewrite Hf). cbv zeta. destruct is_iret; [|by rewrite <-Hio, <-Hif].
  pose proof (finish_return_flags sp mask new_eip fl (cpl_of env) wide env1) as [H1 H2].
  rewrite Hio, Hif in *. done.
Qed.

Lemma returned_privilege env wide is_iret fl env' :
  seg_inv env -> returned env wide is_iret fl env' ->
  cpl_of env <= cpl_of env' /\ (cpl_of env <> 0 -> iopl_of env' = iopl_of env) /\
  (iopl_of env < cpl_of env -> if_flag env' = if_flag env).
Proof.
  intros Hi (cs & e1 & e2 & ip & _ & (_ & _ & _ & Hr & _) & [[_ [sp ->]]|(sp & ss & s1 & s2 & _ & ->)]).
  - apply finish_return_privilege; unfold load_desc; [rewrite cpl_load_seg; lia|apply load_seg_eflags].
  - destruct (enter_outer_view cs e1 e2 ss s1 s2 env Hi) as [H1 H2].
    apply finish_return_privilege; [by rewrite H1|done].
Qed.

Lemma enter_vm86_eflags cs sel env : eflags (enter_vm86 cs sel env) = eflags env.
Proof. unfold enter_vm86, load_unusable. cbn [foldl]. rewrite !load_seg_eflags. apply load_seg_eflags. Qed.

Lemma to_vm86_flag fl ip esp cs sel env : has fl VM_MASK = true -> in_vm86 (to_vm86 fl ip esp cs sel env) = true.
Proof.
  intros Hf. pose proof (enter_vm86_eflags cs sel (cpu_load_eflags fl VM86_MASK env)) as He.
  assert (in_vm86 (cpu_load_eflags fl VM86_MASK env) = true) as H1 by (by rewrite load_eflags_vm_set).
  unfold to_vm86. generalize dependent (enter_vm86 cs sel (cpu_load_eflags fl VM86_MASK env)). intros env2 He.
  unfold in_vm86 in *. by rewrite <-He in H1.
Qed.

Section Priv.
Context {G : Type} `{!SoftMmu G, !SoftMmuSpec G}.

(** C23: an interrupt or trap gate never leads outwards. A software interrupt needs a
    gate open to its level; the handler runs at the level of the interrupted code
    or an inner one, outside vm86 mode, at the offset in the gate; an inner level
    gets the stack the task segment holds for it, a present writable segment of
    exactly that level, and the same level keeps its stack; an interrupt gate
    masks interrupts. *)
Theorem interrupt_privilege intno is_int old_eip error e1 e2 env g env' g' :
  seg_inv env -> interrupt_gate (G := G) intno is_int old_eip error e1 e2 env g = KRet tt env' g' ->
  (is_int = true -> cpl_of env <= dpl_of e2) /\
  cpl_of env' <= cpl_of env /\ in_vm86 env' = false /\
  eip env' = Z.lor (Z.land e2 0xffff0000) (Z.land e1 0x0000ffff) /\
  (cpl_of env' < cpl_of env -> level_stack (cpl_of env') (seg env' R_SS)) /\
  (cpl_of env' = cpl_of env -> seg env' R_SS = seg env R_SS) /\
  (has e2 0x100 = false -> if_flag env' = false).
Proof.
  intros Hi Hr. pose proof (interrupt_gate_spec env intno is_int old_eip error e1 e2 g) as Hs. rewrite Hr in Hs.
  destruct Hs as (Hg & c1 & c2 & ep & esp & _ & (_ & _ & _ & Hd) & Hep & ->).
  pose proof (runs_at_level _ _ _ Hep) as Hl. pose proof (dpl_range c2).
  destruct (enter_handler_view (Z.land (Z.shiftr e2 8) 0x1f) (Z.shiftr e1 16) (Z.lor (Z.land e2 0xffff0000) (Z.land e1 0x0000ffff))
    c1 c2 esp ep env Hi Hl) as (V1 & V2 & V3 & V4 & V5). rewrite V1, V4.
  do 4 (split; [done || lia|]). split; [|split].
  - intros Hlt. destruct Hep as [(-> & _)|(_ & _ & Hn)]; [cbn in Hlt; lia|].
    pose proof Hn as (ss & s1 & s2 & e & -> & _). by apply entry_level_stack.
  - intros Heq. destruct Hep as [(-> & _)|(_ & Hlt & ss & s1 & s2 & e & -> & _)]; [done|cbn in Heq; lia].
  - intros Ht. apply V5. change 0x100 with (2 ^ 8) in Ht. rewrite has_bit in Ht by done.
    rewrite <-Z.land_assoc. change (Z.land 0x1f 1) with (2 ^ 0). rewrite land_bit, Z.shiftr_spec by done. change (0 + 8) with 8. by rewrite Ht.
Qed.

(** C38: a far return and a return from an interrupt never lead inwards and never
    give privileges: unless it pops [VM], a return goes to the same or an outer
    level, changes [IOPL] at level 0 only, and [IF] only where [IOPL] allows it. *)
Theorem return_privilege wide is_iret addend env g env' g' :
  seg_inv env -> helper_ret_protected (G := G) wide is_iret addend env g = KRet tt env' g' -> in_vm86 env' = false ->
  cpl_of env <= cpl_of env' /\ (cpl_of env <> 0 -> iopl_of env' = iopl_of env) /\
  (iopl_of env < cpl_of env -> if_flag env' = if_flag env).
Proof.
  intros Hi Hr Hv. pose proof (helper_ret_protected_spec env wide is_iret addend g) as Hs. rewrite Hr in Hs.
  destruct Hs as (fl & [(_ & _ & Hf & ip & esp & cs & sel & ->)|H]); [by rewrite to_vm86_flag in Hv|].
  by eapply returned_privilege.
Qed.
End Priv.

(** An interrupt gate taken by user code, and the return. *)
Definition in_syscall : CPUX86State * phys :=
  left_by (interrupt_gate 0x80 true 0x6002 None 0x00085000 0x0000ee00 user_cpu demo_mem) user_cpu demo_mem.
Definition after_syscall : CPUX86State * phys :=
  left_by (helper_ret_protected true true 0 (fst in_syscall) (snd in_syscall)) user_cpu demo_mem.

Lemma in_syscall_runs :
  interrupt_gate 0x80 true 0x6002 None 0x00085000 0x0000ee00 user_cpu demo_mem = KRet tt (fst in_syscall) (snd in_syscall).
Proof. apply (returns_to _ user_cpu demo_mem). by vm_compute. Qed.
Lemma in_syscall_inv : seg_inv (fst in_syscall).
Proof. split; [by vm_compute|]. split; [by vm_compute|]. apply (bool_decide_unpack _). by vm_compute. Qed.
Lemma after_syscall_runs :
  helper_ret_protected true true 0 (fst in_syscall) (snd in_syscall) = KRet tt (fst after_syscall) (snd after_syscall).
Proof. apply (returns_to _ user_cpu demo_mem). by vm_compute. Qed.

Lemma interrupt_privilege_witness :
  cpl_of (fst in_syscall) = 0 /\ level_stack (cpl_of (fst in_syscall)) (seg (fst in_syscall) R_SS).
Proof.
  split; [by vm_compute|].
  destruct (interrupt_privilege 0x80 true 0x6002 None 0x00085000 0x0000ee00 user_cpu demo_mem _ _
    user_cpu_inv in_syscall_runs) as (_ & _ & _ & _ & H & _).
  apply H. by vm_compute.
Defined.

Lemma return_privilege_witness : cpl_of (fst in_syscall) = 0 /\ cpl_of (fst in_syscall) <= cpl_of (fst after_syscall).
Proof.
  split; [by vm_compute|].
  assert (in_vm86 (fst after_syscall) = false) as Hv by (by vm_compute).
  exact (proj1 (return_privilege true true 0 _ _ _ _ in_syscall_inv after_syscall_runs Hv)).
Defined.

(** Two ways for user code to gain privileges. At level 3, with [IOPL] 0 and
    interrupts disabled, a return from an interrupt that pops [VM] from the user's
    own stack loads [IOPL] and [IF] from there, and a far call through a call gate
    to a conforming kernel segment runs at level 0 on the user's stack. *)
Theorem user_gains_privileges :
  cpl_of user_cpu = 3 /\ iopl_of user_cpu = 0 /\ if_flag user_cpu = false /\
  (exists env' g', helper_ret_protected true true 0 user_cpu demo_mem = KRet tt env' g' /\
     iopl_of env' = 3 /\ if_flag env' = true) /\
  (exists env' g', helper_lcall_protected 0x30 0 true 7 user_cpu demo_mem = KRet tt env' g' /\
     cpl_of env' = 0 /\ seg env' R_SS = seg user_cpu R_SS).
Proof.
  do 3 (split; [by vm_compute|]).
  set (r1 := helper_ret_protected true true 0 user_cpu demo_mem).
  set (r2 := helper_lcall_protected 0x30 0 true 7 user_cpu demo_mem).
  split.
  - exists (fst (left_by r1 user_cpu demo_mem)), (snd (left_by r1 user_cpu demo_mem)).
    split; [apply returns_to; by vm_compute|by vm_compute].
  - exists (fst (left_by r2 user_cpu demo_mem)), (snd (left_by r2 user_cpu demo_mem)).
    split; [apply returns_to; by vm_compute|by vm_compute].
Qed.
