(* ===== verification/SegInspect.v ===== *)
(** * Instructions that inspect selectors

    [verr] answers what loading a data segment register would do. *)

From stdpp Require Import base list.
From Stdlib Require Import ZArith Lia.
From S2P Require Import Prelude Cpu CcHelper Excp Guest Seg SegSpec SegInv SegOps SegDemo SegTask SegInt SegCall SoftMmu.

Local Open Scope Z_scope.
Local Open Scope k_scope.

Section Inspect.
Context {G : Type} `{!SoftMmu G, !SoftMmuSpec G}.
Implicit Types (env : CPUX86State) (g : G).

(** ** Reading a descriptor *)

(** [load_segment] reads the words [helper_load_seg] reads. *)
Lemma load_segment_words sel env g d g1 :
  load_segment sel env g = KRet d env g1 ->
  let dt := desc_table env sel in
  let index := Z.land sel (Z.lnot 7) in
  let ptr := u32 (base dt + index) in
  ((limit dt <? u32 (index + 7)) = true /\ d = None /\ g1 = g) \/
  ((limit dt <? u32 (index + 7)) = false /\
   exists e1 e2 g2, d = Some (e1, e2) /\ cpu_ldl_kernel ptr env g = KRet e1 env g2 /\
     cpu_ldl_kernel (ptr + 4) env g2 = KRet e2 env g1).
Proof.
  unfold load_segment. cbv zeta. change (kbind kget ?k env g) with (k env env g). cbv beta.
  destruct (_ <? _); [intros [= <- <-]; by left|]. intros H. right. split; [done|].
  apply kbind_inv in H as (e1 & env1 & g2 & H1 & H). destruct (qat_ret_inv _ _ _ _ _ _ _ (qat_ldl env _) H1) as [-> _].
  apply kbind_inv in H as (e2 & env1 & g3 & H2 & H). destruct (qat_ret_inv _ _ _ _ _ _ _ (qat_ldl env _) H2) as [-> _].
  injection H as <- <-. by exists e1, e2, g2.
Qed.

(** What is left of [helper_load_seg] for a data register once the words are read. *)
Definition load_data (r : nat) (sel ptr e1 e2 : Z) : K G unit :=
  let err := Z.land sel 0xfffc in
  raise_if (negb (has e2 DESC_P_MASK)) EXCP0B_NOSEG err ;;
  (if has e2 DESC_A_MASK then kret tt else cpu_stl_kernel (ptr + 4) (Z.lor e2 DESC_A_MASK)) ;;
  kmod (load_desc r sel e1 (Z.lor e2 DESC_A_MASK)).

(** The rights [verr] checks. *)
Definition readable (cpl rpl e2 : Z) : bool :=
  has e2 DESC_S_MASK &&
  (if has e2 DESC_CS_MASK then has e2 DESC_R_MASK && (has e2 DESC_C_MASK || outer cpl rpl e2) else outer cpl rpl e2).

Lemma code_not_readable e2 :
  (Z.land e2 (Z.lor DESC_CS_MASK DESC_R_MASK) =? DESC_CS_MASK) = has e2 DESC_CS_MASK && negb (has e2 DESC_R_MASK).
Proof.
  rewrite Z.land_lor_distr_r. change DESC_CS_MASK with (2 ^ 11). change DESC_R_MASK with (2 ^ 9).
  rewrite !has_bit, !land_bit by done. by destruct (Z.testbit e2 11), (Z.testbit e2 9).
Qed.

(** The checks of [helper_load_seg] for a data register succeed on readable
    segments and raise a protection fault on others. *)
Lemma rights_readable r cpl sel e2 (k : unit -> K G unit) env g :
  r <> R_SS ->
  kbind (raise_if (negb (has e2 DESC_S_MASK)) EXCP0D_GPF (Z.land sel 0xfffc))
    (fun _ => kbind (load_seg_rights r cpl sel e2) k) env g =
  if readable cpl (rpl_of sel) e2 then k tt env g else raise EXCP0D_GPF (Z.land sel 0xfffc) env g.
Proof.
  intros Hr%Nat.eqb_neq. unfold load_seg_rights, readable, outer, raise_if. rewrite Hr, code_not_readable.
  destruct (has e2 DESC_S_MASK), (has e2 DESC_CS_MASK), (has e2 DESC_R_MASK), (has e2 DESC_C_MASK),
    ((dpl_of e2 <? cpl) || (dpl_of e2 <? rpl_of sel)); cbn [negb andb orb];
    by repeat (rewrite kbind_assoc || rewrite kbind_raise || rewrite kbind_kret).
Qed.

Definition zero_flag (env : CPUX86State) : bool := has (cc_src env) CC_Z.

Lemma zf_put fl (ok : bool) env :
  zero_flag (with_cc_src (if ok then Z.lor fl CC_Z else Z.land fl (not32 CC_Z)) env) = ok.
Proof.
  unfold zero_flag. cbn [cc_src with_cc_src]. change CC_Z with (2 ^ 6).
  destruct ok; [|by apply has_cleared]. by rewrite has_bit, Z.lor_spec, Z.pow2_bits_true, orb_true_r by done.
Qed.

(** [helper_load_seg] of a data register, with the words read. *)
Lemma load_seg_read r sel0 env g e1 e2 g1 g2 :
  let sel := Z.land sel0 0xffff in
  let ptr := u32 (base (desc_table env sel) + Z.land sel (Z.lnot 7)) in
  r <> R_SS -> null_sel sel = false ->
  (limit (desc_table env sel) <? u32 (Z.land sel (Z.lnot 7) + 7)) = false ->
  cpu_ldl_kernel ptr env g = KRet e1 env g2 -> cpu_ldl_kernel (ptr + 4) env g2 = KRet e2 env g1 ->
  helper_load_seg r sel0 env g =
  if readable (cpl_of env) (rpl_of sel) e2 then load_data r sel ptr e1 e2 env g1
  else raise EXCP0D_GPF (Z.land sel 0xfffc) env g1.
Proof.
  intros sel ptr Hr Hn Hl H1 H2. unfold helper_load_seg. fold sel. cbv zeta. rewrite Hn.
  change (kbind kget ?k env g) with (k env env g). cbv beta. rewrite Hl. fold ptr.
  cbn [raise_if]. rewrite kbind_kret, (kbind_ret _ _ _ _ _ _ _ H1), (kbind_ret _ _ _ _ _ _ _ H2).
  rewrite rights_readable by done. destruct (readable _ _ _); [|done]. apply Nat.eqb_neq in Hr. rewrite Hr.
  unfold load_data, raise_if. cbv zeta. destruct (has e2 DESC_P_MASK); cbn [negb]; [|by rewrite !kbind_raise].
  rewrite !kbind_kret. destruct (has e2 DESC_A_MASK) eqn:HA; cbn [negb]; [by rewrite !kbind_kret, accessed_id|].
  by rewrite kbind_assoc.
Qed.

(** [verr] answers what a load of a data segment register would do. For a
    selector that is not null and whose descriptor can be read, it sets the zero
    flag and changes nothing else; with the flag set the load passes its checks of
    rights and goes on to the presence of the segment, and with the flag clear it
    raises a protection fault with the selector as error code. *)
Theorem verr_predicts_load r sel0 env g d g1 :
  let sel := Z.land sel0 0xffff in
  r <> R_SS -> null_sel sel = false -> load_segment sel env g = KRet d env g1 ->
  exists env', helper_verr sel0 env g = KRet tt env' g1 /\ env' = with_cc_src (cc_src env') env /\
    if zero_flag env'
    then exists e1 e2, d = Some (e1, e2) /\ helper_load_seg r sel0 env g =
           load_data r sel (u32 (base (desc_table env sel) + Z.land sel (Z.lnot 7))) e1 e2 env g1
    else helper_load_seg r sel0 env g = raise EXCP0D_GPF (Z.land sel 0xfffc) env g1.
Proof.
  intros sel Hr Hn H. unfold helper_verr, inspect. fold sel. cbv zeta.
  change (kbind kget ?k env g) with (k env env g). cbv beta. rewrite Hn, (kbind_ret _ _ _ _ _ _ _ H).
  destruct (load_segment_words sel env g d g1 H) as [(Hl & -> & ->)|(Hl & e1 & e2 & g2 & -> & H1 & H2)]; cbv zeta in Hl.
  - eexists. split; [reflexivity|]. split; [done|].
    rewrite (zf_put (cpu_cc_compute_all env (cc_op env)) false env). unfold helper_load_seg. fold sel. cbv zeta. rewrite Hn.
    change (kbind kget ?k env g) with (k env env g). cbv beta. rewrite Hl. cbn [raise_if]. apply kbind_raise.
  - rewrite (load_seg_read r sel0 env g e1 e2 g1 g2 Hr Hn Hl H1 H2). fold sel.
    change (has e2 DESC_S_MASK && (if has e2 DESC_CS_MASK then _ else _)) with (readable (cpl_of env) (rpl_of sel) e2).
    destruct (readable _ _ _); (eexists; split; [reflexivity|]; split; [done|]).
    + rewrite (zf_put (cpu_cc_compute_all env (cc_op env)) true env). by exists e1, e2.
    + by rewrite (zf_put (cpu_cc_compute_all env (cc_op env)) false env).
Qed.
End Inspect.

(** User code may not read the kernel's data segment. *)
Definition kernel_desc : Z * Z := (0x0000ffff, 0x00cf9300).

Lemma kernel_desc_read : load_segment (Z.land 0x10 0xffff) user_cpu demo_mem = KRet (Some kernel_desc) user_cpu demo_mem.
Proof. rewrite load_segment_unpaged by done. do 3 f_equal; by vm_compute. Qed.

Lemma verr_predicts_load_witness :
  exists env', helper_verr 0x10 user_cpu demo_mem = KRet tt env' demo_mem /\ env' = with_cc_src (cc_src env') user_cpu /\
    if zero_flag env'
    then exists e1 e2, Some kernel_desc = Some (e1, e2) /\ helper_load_seg R_DS 0x10 user_cpu demo_mem =
           load_data R_DS 0x10 (GDT + 0x10) e1 e2 user_cpu demo_mem
    else helper_load_seg R_DS 0x10 user_cpu demo_mem = raise EXCP0D_GPF 0x10 user_cpu demo_mem.
Proof.
  exact (verr_predicts_load (G := phys) R_DS 0x10 user_cpu demo_mem (Some kernel_desc) demo_mem
    (fun H => ltac:(discriminate H)) eq_refl kernel_desc_read).
Defined.
