(* ===== verification/SegRam.v ===== *)
(** * Stacks and descriptors in RAM

    What the words a helper pushes mean for a helper that pops them: an interface
    to guest memory that is plain RAM for the kernel, the stack operations on it,
    and the instance for the softmmu without paging. *)

From stdpp Require Import base list.
From Stdlib Require Import ZArith Lia.
From S2P Require Import Prelude Cpu CcHelper Excp Guest Mmu MmuWalk Seg SegSpec SegTask SegInt SegInspect SoftMmu.

Local Open Scope Z_scope.
Local Open Scope k_scope.

(** Words that do not overlap. *)
Definition apart (a b : Z) : Prop := a + 4 <= b \/ b + 4 <= a.
#[export] Instance apart_dec a b : Decision (apart a b).
Proof. unfold apart. apply _. Defined.

(** The state the translation of addresses depends on. *)
Definition same_mmu (env env' : CPUX86State) : Prop :=
  cr env' = cr env /\ efer env' = efer env /\ a20_mask env' = a20_mask env.

(** [ram_word env g a]: the 32-bit word at linear address [a], if the kernel can
    load and store it there without side effects. *)
Class Ram (G : Type) `{!SoftMmu G} : Type := {
  ram_word : CPUX86State -> G -> Z -> option Z;
  ram_load env g a v :
    in_range 32 a -> ram_word env g a = Some v -> mmu_load KERNEL_IDX 4 a env g = KRet v env g;
  ram_store env g a v :
    in_range 32 a -> is_Some (ram_word env g a) ->
    exists g', mmu_store KERNEL_IDX 4 a v env g = KRet tt env g' /\ ram_word env g' a = Some (u32 v) /\
      forall b, in_range 32 b -> apart a b -> ram_word env g' b = ram_word env g b;
  ram_keep idx n a env g v env' g' :
    mmu_load idx n a env g = KRet v env' g' -> forall b, ram_word env g' b = ram_word env g b;
  ram_cpu env env' g a : same_mmu env env' -> ram_word env' g a = ram_word env g a
}.

Section Stacks.
Context {G : Type} `{!SoftMmu G, !Ram G}.
Implicit Types (env : CPUX86State) (g : G).

(** Word [k] of a stack of 32-bit words at [sp]. *)
Definition stack_word (ssp sp : Z) (k : nat) : Z := u32 (ssp + sp + 4 * Z.of_nat k).

Lemma stack_apart ssp sp i j : (i < j)%nat -> Z.of_nat j < 2 ^ 29 -> apart (stack_word ssp sp i) (stack_word ssp sp j).
Proof.
  intros Hij Hj. unfold apart, stack_word, u32, wrap.
  pose proof (Z.div_mod (ssp + sp + 4 * Z.of_nat i) (2 ^ 32)). pose proof (Z.div_mod (ssp + sp + 4 * Z.of_nat j) (2 ^ 32)).
  pose proof (Z.mod_pos_bound (ssp + sp + 4 * Z.of_nat i) (2 ^ 32)). pose proof (Z.mod_pos_bound (ssp + sp + 4 * Z.of_nat j) (2 ^ 32)).
  lia.
Qed.

Lemma SEG_ADDL_wide ssp sp : SEG_ADDL ssp (u32 sp) 0xffffffff = u32 (ssp + sp).
Proof.
  unfold SEG_ADDL, u32, wrap. change 0xffffffff with (Z.ones 32). rewrite Z.land_ones, Z.mod_mod by lia.
  by rewrite Z.add_mod_idemp_r.
Qed.

Lemma u32_sub x c : u32 (u32 x - c) = u32 (x - c).
Proof. unfold u32, wrap. by rewrite Zminus_mod_idemp_l. Qed.
Lemma stack_word_sub ssp x c k : stack_word ssp (u32 x - c) k = stack_word ssp (x - c) k.
Proof.
  unfold stack_word. transitivity (u32 (ssp + 4 * Z.of_nat k + u32 (u32 x - c))).
  - unfold u32, wrap. rewrite Z.add_mod_idemp_r by done. f_equal. lia.
  - rewrite u32_sub. unfold u32, wrap. rewrite Z.add_mod_idemp_r by done. f_equal. lia.
Qed.
Lemma stack_word_range ssp sp k : in_range 32 (stack_word ssp sp k).
Proof. apply u32_range. Qed.

(** Pushed words are on the stack, last first, and nothing else changes. *)
Lemma push_all_ram ssp env vals sp g :
  Z.of_nat (length vals) < 2 ^ 29 -> in_range 32 sp ->
  let n := length vals in
  let bottom := sp - 4 * Z.of_nat n in
  (forall k, (k < n)%nat -> is_Some (ram_word env g (stack_word ssp bottom k))) ->
  exists g', push_all true ssp 0xffffffff vals sp env g = KRet (u32 bottom) env g' /\
    (forall k v, reverse vals !! k = Some v -> ram_word env g' (stack_word ssp bottom k) = Some (u32 v)) /\
    (forall b, in_range 32 b -> (forall k, (k < n)%nat -> apart (stack_word ssp bottom k) b) -> ram_word env g' b = ram_word env g b).
Proof.
  revert sp g. induction vals as [|v vals IH]; intros sp g Hn Hsp; cbn [length push_all] in *; cbv zeta.
  { intros _. exists g. replace (sp - 4 * Z.of_nat 0) with sp by lia. rewrite u32_id by done. split; [done|]. by split. }
  set (n := length vals) in *. intros Hram.
  assert (sp - 4 * Z.of_nat (S n) = sp - 4 - 4 * Z.of_nat n) as Hb by lia. rewrite Hb in *.
  assert (SEG_ADDL ssp (u32 (sp - 4)) 0xffffffff = stack_word ssp (sp - 4 - 4 * Z.of_nat n) n) as Ha.
  { rewrite SEG_ADDL_wide. unfold stack_word. f_equal. lia. }
  destruct (ram_store env g (stack_word ssp (sp - 4 - 4 * Z.of_nat n) n) v) as (g1 & H1 & H2 & H3);
    [apply stack_word_range|apply Hram; lia|].
  destruct (IH (u32 (sp - 4)) g1) as (g2 & H4 & H5 & H6); [lia|apply u32_range| |].
  { intros k Hk. rewrite stack_word_sub, H3; [apply Hram; lia|apply stack_word_range|]. apply or_comm, stack_apart; lia. }
  exists g2. split; [|split].
  - unfold PUSH, PUSHL, cpu_stl_kernel. rewrite kbind_assoc, Ha. rewrite u32_id by apply stack_word_range.
    rewrite (kbind_ret _ _ _ _ _ _ _ H1), kbind_kret, H4. by rewrite u32_sub.
  - intros k w. rewrite reverse_cons. intros Hk.
    assert (k < n \/ k = n)%nat as [Hlt| ->].
    { apply lookup_lt_Some in Hk. rewrite length_app, length_reverse in Hk. cbn in Hk. unfold n. lia. }
    + rewrite lookup_app_l in Hk by (by rewrite length_reverse). rewrite <-stack_word_sub. by apply H5.
    + rewrite lookup_app_r, length_reverse in Hk by (by rewrite length_reverse). unfold n in Hk.
      rewrite Nat.sub_diag in Hk. injection Hk as <-. rewrite H6, H2; [done|apply stack_word_range|].
      intros k Hk. rewrite stack_word_sub. apply stack_apart; lia.
  - intros b Hbr Hap. rewrite H6, H3; [done|done|apply Hap; lia|done|]. intros k Hk. rewrite stack_word_sub. apply Hap. lia.
Qed.

(** Pops read what is there. *)
Lemma pop_all_ram ssp env g vs sp :
  in_range 32 sp -> (forall k v, vs !! k = Some v -> ram_word env g (stack_word ssp sp k) = Some v) ->
  pop_all true ssp 0xffffffff (length vs) sp env g = KRet (vs, u32 (sp + 4 * Z.of_nat (length vs))) env g.
Proof.
  revert sp. induction vs as [|v vs IH]; intros sp Hsp Hw; cbn [length pop_all].
  { replace (sp + 4 * Z.of_nat 0) with sp by lia. by rewrite u32_id. }
  assert (ram_word env g (u32 (ssp + sp)) = Some v) as Hv.
  { specialize (Hw 0%nat v eq_refl). unfold stack_word in Hw. by rewrite Z.add_0_r in Hw. }
  assert (SEG_ADDL ssp sp 0xffffffff = u32 (ssp + sp)) as Ha by (by rewrite <-(u32_id sp Hsp) at 1; rewrite SEG_ADDL_wide).
  unfold POP, POPL, cpu_ldl_kernel. rewrite kbind_assoc, Ha, u32_id by apply u32_range.
  rewrite (kbind_ret _ _ _ _ _ _ _ (ram_load env g _ v (u32_range _) Hv)), kbind_kret. cbn [fst snd].
  assert (forall k, stack_word ssp (u32 (sp + 4)) k = stack_word ssp sp (S k)) as Hs.
  { intros k. unfold stack_word, u32, wrap. rewrite (Z.add_comm ssp), <-Z.add_assoc, Z.add_mod_idemp_l by done. f_equal. lia. }
  rewrite (kbind_ret _ _ _ _ _ _ _ (IH (u32 (sp + 4)) (u32_range _) ltac:(intros k w Hk; rewrite Hs; by apply Hw))).
  cbn [fst snd]. f_equal. f_equal. unfold u32, wrap. rewrite Z.add_mod_idemp_l by done. f_equal. lia.
Qed.

(** A descriptor in RAM. *)
Definition desc_ptr (env : CPUX86State) (sel : Z) : Z := u32 (base (desc_table env sel) + Z.land sel (Z.lnot 7)).

Definition desc_in_ram (env : CPUX86State) (g : G) (sel e1 e2 : Z) : Prop :=
  u32 (Z.land sel (Z.lnot 7) + 7) <= limit (desc_table env sel) /\
  ram_word env g (desc_ptr env sel) = Some e1 /\ ram_word env g (u32 (desc_ptr env sel + 4)) = Some e2.

Lemma need_segment_ram sel index err env g e1 e2 :
  desc_in_ram env g sel e1 e2 -> need_segment sel index err env g = KRet (e1, e2) env g.
Proof.
  intros (Hl%Z.ltb_ge & H1 & H2). unfold need_segment, load_segment. rewrite kbind_assoc.
  change (kbind kget ?k env g) with (k env env g). cbv beta zeta. rewrite Hl. fold (desc_ptr env sel).
  unfold cpu_ldl_kernel. rewrite kbind_assoc, u32_id by apply u32_range.
  rewrite (kbind_ret _ _ _ _ _ _ _ (ram_load env g _ e1 (u32_range _) H1)), kbind_assoc.
  by rewrite (kbind_ret _ _ _ _ _ _ _ (ram_load env g _ e2 (u32_range _) H2)).
Qed.

(** ** Operations that only read *)

Definition reads {A} (m : K G A) : Prop :=
  forall env g a env' g', m env g = KRet a env' g' -> env' = env /\ forall b, ram_word env g' b = ram_word env g b.

Lemma reads_ret {A} (a : A) : reads (kret a).
Proof. by intros env g a' env' g' [= _ <- <-]. Qed.
Lemma reads_get : reads kget.
Proof. by intros env g a' env' g' [= _ <- <-]. Qed.
Lemma reads_bind {A B} (m : K G A) (k : A -> K G B) : reads m -> (forall a, reads (k a)) -> reads (kbind m k).
Proof.
  intros Hm Hk env g b env' g' H. apply kbind_inv in H as (a & env1 & g1 & H1 & H2).
  destruct (Hm _ _ _ _ _ H1) as [-> E1]. destruct (Hk a _ _ _ _ _ H2) as [-> E2]. split; [done|]. intros x. by rewrite E2.
Qed.
Lemma reads_raise {A} index err : reads (raise (A := A) index err).
Proof.
  intros env g a env' g' H. pose proof (qat_raise (G := G) (A := A) env index err (fun _ => False) g) as Hr.
  rewrite H in Hr. by destruct Hr.
Qed.
Lemma reads_raise_if b index err : reads (raise_if b index err).
Proof. destruct b; [apply reads_raise|apply reads_ret]. Qed.
Lemma reads_abort {A} : reads (kabort (A := A)).
Proof. by intros env g a env' g'. Qed.

Context `{!SoftMmuSpec G}.
Lemma reads_load idx n a : reads (mmu_load idx n a).
Proof.
  intros env g v env' g' H. pose proof (mmu_load_ok idx n a env g) as Ho. rewrite H in Ho. destruct Ho as [-> _].
  split; [done|]. by eapply ram_keep.
Qed.

Ltac reading :=
  repeat lazymatch goal with
  | |- reads (kbind _ _) => apply reads_bind; [|intros ?]
  | |- reads (kret _) => apply reads_ret
  | |- reads kget => apply reads_get
  | |- reads kabort => apply reads_abort
  | |- reads (raise _ _) => apply reads_raise
  | |- reads (raise_if _ _ _) => apply reads_raise_if
  | |- reads (cpu_ldl_kernel _) => apply reads_load
  | |- reads (cpu_lduw_kernel _) => apply reads_load
  | |- reads (if ?b then _ else _) => destruct b
  | |- reads (match ?x with _ => _ end) => destruct x
  end.

Lemma reads_need_segment sel index err : reads (need_segment sel index err).
Proof. unfold need_segment, load_segment. reading. Qed.

Lemma reads_interrupt_stack cpl sel e2 : reads (interrupt_stack cpl sel e2).
Proof.
  unfold interrupt_stack, new_stack, inner_stack, get_ss_esp_from_tss. reading; apply reads_need_segment.
Qed.
End Stacks.

(** ** Guest memory without paging *)

Definition phys_word (env : CPUX86State) (p : phys) (a : Z) : option Z :=
  if unpaged env && in_page a then Some (ld_phys (mkMachine env p) 4 a) else None.

Lemma phys_word_some env p a v :
  phys_word env p a = Some v -> unpaged env = true /\ in_page a = true /\ v = ld_phys (mkMachine env p) 4 a.
Proof. unfold phys_word. destruct (unpaged env), (in_page a); naive_solver. Qed.

(** A load without paging only reads. *)
Lemma helper_ld_unpaged n a idx env p v env' p' :
  unpaged env = true -> helper_ld n a idx env p = KRet v env' p' -> p' = p.
Proof.
  intros Hu H. unfold helper_ld in H. destruct (tlb_fill_unpaged a 0 idx env p Hu) as (e & He & _).
  rewrite (kbind_ret _ _ _ _ _ _ _ He) in H. destruct (_ <=? _); [|by injection H].
  unfold slow_ld in H. cbv zeta in H. change (kbind (ld_raw n ?x) ?k env p) with (k (ld_phys (mkMachine env p) n x) env p) in H.
  cbv beta in H.
  destruct (tlb_fill_unpaged (u32 (Z.land a (not32 (Z.of_nat n - 1)) + Z.of_nat n)) 0 idx env p Hu) as (e2 & He2 & _).
  rewrite (kbind_ret _ _ _ _ _ _ _ He2) in H. by injection H.
Qed.

#[export] Program Instance phys_ram : Ram phys := {| ram_word := phys_word |}.
Next Obligation.
  intros env p a v Ha (Hu & Hp & ->)%phys_word_some. by apply helper_ld_word.
Qed.
Next Obligation.
  intros env p a v Ha [w (Hu & Hp & _)%phys_word_some]. cbn [mmu_store phys_mmu]. unfold helper_st.
  destruct (tlb_fill_unpaged a 1 KERNEL_IDX env p Hu) as (e & He & Hpa). rewrite (kbind_ret _ _ _ _ _ _ _ He).
  pose proof Hp as Hp'. apply Z.leb_le in Hp'. destruct (Z.leb_spec TARGET_PAGE_SIZE (page_offset a + Z.of_nat 4 - 1)); [lia|].
  unfold st_raw, host_addr. rewrite Hpa, page_split by done. eexists. split; [reflexivity|]. split.
  - unfold phys_word. rewrite Hu, Hp. cbn [andb]. f_equal. rewrite (ld_phys_bytes _ _ _ v); [done|].
    intros x Hx. cbn [m_phys]. unfold poke. zcase; lia || done.
  - intros b _ Hab. unfold phys_word. destruct (_ && _); [|done]. f_equal. apply ld_phys_ext. intros x Hx.
    cbn [m_phys]. unfold poke, apart in *. zcase; lia || done.
Qed.
Next Obligation.
  intros idx n a env p v env' p' H b. unfold phys_word. destruct (unpaged env) eqn:Hu; [|done]. cbn [andb].
  by rewrite (helper_ld_unpaged n a idx env p v env' p' Hu H).
Qed.
Next Obligation. intros env env' p a (Hc & _ & Ha). unfold phys_word, unpaged. by rewrite Hc, Ha. Qed.
