(* ===== verification/SoftMmuBytes.v ===== *)
(** * Accesses that span two pages

    The softmmu serves an access byte by byte as the translations of the two
    pages say, whatever its alignment. *)

From stdpp Require Import base list.
From Stdlib Require Import ZArith Lia.
From S2P Require Import Prelude Cpu Excp Guest Mmu MmuWalk CcHelper IntHelper IntDiv Seg SegSpec SegInspect SoftMmu SegRam SegDemo.

Local Open Scope Z_scope.
Local Open Scope k_scope.

(** The number made of [n] bytes [f i], [f (i + 1)], ..., the first the lowest. *)
Fixpoint byte_sum (f : Z -> Z) (n : nat) (i : Z) : Z :=
  match n with
  | O => 0
  | S n' => u8 (f i) + 256 * byte_sum f n' (i + 1)
  end.

Lemma byte_sum_ext f f' n i :
  (forall k, i <= k < i + Z.of_nat n -> f k = f' k) -> byte_sum f n i = byte_sum f' n i.
Proof.
  revert i. induction n as [|n IH]; intros i H; [done|]. cbn [byte_sum]. rewrite H, (IH (i + 1)); [done| |lia].
  intros k Hk. apply H. lia.
Qed.

Lemma byte_sum_app f n k i : byte_sum f (n + k) i = byte_sum f n i + 256 ^ Z.of_nat n * byte_sum f k (i + Z.of_nat n).
Proof.
  revert i. induction n as [|n IH]; intros i.
  - cbn [Nat.add byte_sum]. rewrite Z.add_0_r. change (256 ^ Z.of_nat 0) with 1. lia.
  - cbn [Nat.add byte_sum]. rewrite IH, Nat2Z.inj_succ, Z.pow_succ_r by lia.
    replace (i + 1 + Z.of_nat n) with (i + Z.succ (Z.of_nat n)) by lia. ring.
Qed.

Lemma byte_sum_phys m n b i : byte_sum (fun k => m_phys m (b + k)) n i = ld_phys m n (b + i).
Proof.
  revert i. induction n as [|n IH]; intros i; [done|]. cbn [byte_sum ld_phys]. rewrite IH. by replace (b + (i + 1)) with (b + i + 1) by lia.
Qed.

(** Two words next to each other and one that overlaps both. *)
Lemma straddle m n r b b2 :
  (r < n)%nat ->
  wrap (8 * Z.of_nat n) (Z.lor (Z.shiftr (ld_phys m n b) (Z.of_nat r * 8))
    (Z.shiftl (ld_phys m n b2) (Z.of_nat n * 8 - Z.of_nat r * 8))) =
  ld_phys m (n - r) (b + Z.of_nat r) + 256 ^ Z.of_nat (n - r) * ld_phys m r b2.
Proof.
  intros Hr. assert (ld_phys m n b = ld_phys m r b + 256 ^ Z.of_nat r * ld_phys m (n - r) (b + Z.of_nat r)) as ->.
  { rewrite <-ld_phys_app. by replace (r + (n - r))%nat with n by lia. }
  assert (ld_phys m n b2 = ld_phys m r b2 + 256 ^ Z.of_nat r * ld_phys m (n - r) (b2 + Z.of_nat r)) as ->.
  { rewrite <-ld_phys_app. by replace (r + (n - r))%nat with n by lia. }
  assert (forall k, 2 ^ (Z.of_nat k * 8) = 256 ^ Z.of_nat k) as Hp by (intros k; by rewrite Z.mul_comm, Z.pow_mul_r by lia).
  pose proof (ld_phys_range m r b) as R1. pose proof (ld_phys_range m (n - r) (b + Z.of_nat r)) as R2.
  pose proof (ld_phys_range m r b2) as R3.
  assert (256 ^ Z.of_nat n = 256 ^ Z.of_nat (n - r) * 256 ^ Z.of_nat r) as Hn.
  { rewrite <-Z.pow_add_r by lia. f_equal. lia. }
  replace (Z.of_nat n * 8 - Z.of_nat r * 8) with (Z.of_nat (n - r) * 8) by lia.
  unfold wrap. rewrite (Z.mul_comm 8), Hp, Hn, Z.shiftr_div_pow2, Hp, Z.shiftl_mul_pow2 by lia.
  generalize dependent (ld_phys m r b). generalize dependent (ld_phys m (n - r) (b + Z.of_nat r)).
  generalize dependent (ld_phys m r b2). generalize (ld_phys m (n - r) (b2 + Z.of_nat r)). intros y2 x2 R3 y R2 x R1.
  rewrite (Z.mul_comm (256 ^ Z.of_nat r) y), Z.div_add, Z.div_small, Z.add_0_l by lia.
  rewrite Z.lor_comm, lor_low by (lia || by rewrite Hp). rewrite Hp.
  generalize dependent (256 ^ Z.of_nat r). generalize dependent (256 ^ Z.of_nat (n - r)). intros Q R2 P _ R3 R1.
  replace ((x2 + P * y2) * Q + y) with (y + Q * x2 + y2 * (Q * P)) by ring.
  rewrite Z.mod_add by nia. apply Z.mod_small. nia.
Qed.

(** ** An access of 1, 2 or 4 bytes *)

Section Split.
Context (n : nat) (a : Z) (Hn : n = 1%nat \/ n = 2%nat \/ n = 4%nat) (Ha : in_range 32 a).

(** It leaves the page after [n - r] bytes. *)
Lemma crosses_split :
  TARGET_PAGE_SIZE <= page_offset a + Z.of_nat n - 1 ->
  exists r, (0 < r < n)%nat /\ Z.land a (Z.of_nat n - 1) = Z.of_nat r /\ Z.land a (not32 (Z.of_nat n - 1)) = a - Z.of_nat r /\
    page_offset a + Z.of_nat (n - r) = 4096.
Proof.
  rewrite page_offset_mod. change TARGET_PAGE_SIZE with 4096. intros Hc.
  destruct Hn as [->|[->| ->]].
  - pose proof (Z.mod_pos_bound a 4096). lia.
  - exists 1%nat. change (Z.of_nat 2 - 1) with (Z.ones 1). change (not32 (Z.ones 1)) with (inv (Z.ones 1)).
    rewrite land_high, Z.land_ones by lia. Z.to_euclidean_division_equations; lia.
  - exists (Z.to_nat (a mod 4)). change (Z.of_nat 4 - 1) with (Z.ones 2). change (not32 (Z.ones 2)) with (inv (Z.ones 2)).
    rewrite land_high, Z.land_ones by lia. change (2 ^ 2) with 4. Z.to_euclidean_division_equations; lia.
Qed.

Context (idx : Z) (env : CPUX86State) (p : phys) (e1 e2 : tlb_entry).
Context (H1 : forall w, tlb_fill a w idx env p = KRet e1 env p).
Context (H2 : forall w b, page_of b = page_of (u32 (a + Z.of_nat n - 1)) -> tlb_fill b w idx env p = KRet e2 env p).

(** The physical address of byte [i]. *)
Definition host (i : Z) : Z :=
  host_addr (if page_of (u32 (a + i)) =? page_of a then e1 else e2) (u32 (a + i)).

Lemma host_low i : 0 <= i -> page_offset a + i < 4096 -> host i = t_paddr e1 + page_offset a + i.
Proof.
  unfold host, host_addr, page_of. rewrite !page_offset_mod. intros Hi Ho.
  assert (u32 (a + i) = a + i) as -> by (apply u32_id; Z.to_euclidean_division_equations; lia).
  assert ((a + i) / 4096 = a / 4096) as -> by (Z.to_euclidean_division_equations; lia). rewrite Z.eqb_refl.
  Z.to_euclidean_division_equations; lia.
Qed.

Lemma host_high i : i < 4096 -> 4096 <= page_offset a + i -> host i = t_paddr e2 + (page_offset a + i - 4096).
Proof.
  unfold host, host_addr, page_of. rewrite !page_offset_mod. intros Hi Ho.
  assert (u32 (a + i) = a + i \/ u32 (a + i) = a + i - 2 ^ 32) as [Hu|Hu].
  { unfold u32, wrap. Z.to_euclidean_division_equations; lia. }
  - rewrite Hu. destruct (Z.eqb_spec ((a + i) / 4096 * 4096) (a / 4096 * 4096)); Z.to_euclidean_division_equations; lia.
  - pose proof (u32_range (a + i)). rewrite Hu in *.
    destruct (Z.eqb_spec ((a + i - 2 ^ 32) / 4096 * 4096) (a / 4096 * 4096)); Z.to_euclidean_division_equations; lia.
Qed.

Lemma load_bytes : helper_ld n a idx env p = KRet (byte_sum (fun i => p (host i)) n 0) env p.
Proof.
  unfold helper_ld. rewrite (kbind_ret _ _ _ _ _ _ _ (H1 0)). destruct (Z.leb_spec TARGET_PAGE_SIZE (page_offset a + Z.of_nat n - 1)) as [Hc|Hc].
  - destruct (crosses_split Hc) as (r & Hr & Hs & Hl & Ho). unfold slow_ld. cbv zeta. rewrite Hs, Hl.
    change (kbind (ld_raw n ?x) ?k env p) with (k (ld_phys (mkMachine env p) n x) env p). cbv beta.
    assert (page_offset (u32 (a - Z.of_nat r + Z.of_nat n)) = 0 /\
      page_of (u32 (a - Z.of_nat r + Z.of_nat n)) = page_of (u32 (a + Z.of_nat n - 1))) as [Hz Hp].
    { rewrite page_offset_mod in *. unfold page_of, u32, wrap. Z.to_euclidean_division_equations; lia. }
    rewrite (kbind_ret _ _ _ _ _ _ _ (H2 0 _ Hp)).
    change (kbind (ld_raw n ?x) ?k env p) with (k (ld_phys (mkMachine env p) n x) env p). cbv beta. unfold kret.
    rewrite straddle by lia. f_equal. replace (byte_sum _ n 0) with (byte_sum (fun i => p (host i)) ((n - r) + r) 0) by (f_equal; lia).
    rewrite byte_sum_app, Z.add_0_l. f_equal; [|f_equal].
    + rewrite <-(Z.add_0_r (_ + Z.of_nat r)), <-(byte_sum_phys (mkMachine env p)). apply byte_sum_ext. intros k Hk.
      rewrite host_low by lia. unfold host_addr. cbn [m_phys]. f_equal. rewrite !page_offset_mod in *. Z.to_euclidean_division_equations; lia.
    + replace (host_addr e2 _) with (t_paddr e2 - Z.of_nat (n - r) + Z.of_nat (n - r)) by (unfold host_addr; rewrite Hz; lia).
      rewrite <-(byte_sum_phys (mkMachine env p)). apply byte_sum_ext. intros k Hk. rewrite host_high by lia. cbn [m_phys]. f_equal. lia.
  - change TARGET_PAGE_SIZE with 4096 in Hc. unfold ld_raw. f_equal. rewrite <-(Z.add_0_r (host_addr _ _)), <-byte_sum_phys.
    apply byte_sum_ext. intros k Hk. rewrite host_low by lia. by cbn [m_phys].
Qed.

Context (A1 : t_paddr e1 mod 4096 = 0) (A2 : t_paddr e2 mod 4096 = 0).

Lemma host_inj i j : 0 <= i < Z.of_nat n -> 0 <= j < Z.of_nat n -> host i = host j -> i = j.
Proof.
  intros Hi Hj. assert (Z.of_nat n <= 4) by lia. pose proof (page_offset_mod a) as Ho. pose proof (Z.mod_pos_bound a 4096).
  destruct (Z.lt_ge_cases (page_offset a + i) 4096), (Z.lt_ge_cases (page_offset a + j) 4096).
  - rewrite (host_low i), (host_low j) by lia. lia.
  - rewrite (host_low i), (host_high j) by lia. Z.to_euclidean_division_equations; lia.
  - rewrite (host_high i), (host_low j) by lia. Z.to_euclidean_division_equations; lia.
  - rewrite (host_high i), (host_high j) by lia. lia.
Qed.

(** A store of bytes one by one. *)
Fixpoint put_bytes (k : nat) (v : Z) (p : phys) : phys :=
  match k with
  | O => p
  | S i => put_bytes i v (poke 1 (host (Z.of_nat i)) (Z.shiftr v (Z.of_nat i * 8)) p)
  end.

Lemma put_bytes_other k v q x : (forall i, 0 <= i < Z.of_nat k -> x <> host i) -> put_bytes k v q x = q x.
Proof.
  revert q. induction k as [|k IH]; intros q Hx; [done|]. cbn [put_bytes]. rewrite IH by (intros; apply Hx; lia).
  unfold poke. specialize (Hx (Z.of_nat k)). zcase; lia || done.
Qed.

Lemma put_bytes_at k v q i :
  (k <= n)%nat -> 0 <= i < Z.of_nat k -> put_bytes k v q (host i) = Z.shiftr v (8 * i) mod 256.
Proof.
  revert q. induction k as [|k IH]; intros q Hk Hi; [lia|]. cbn [put_bytes].
  destruct (decide (i = Z.of_nat k)) as [->|Hne]; [|apply IH; lia].
  rewrite put_bytes_other by (intros j Hj E; apply host_inj in E; lia). unfold poke. zcase; try lia.
  rewrite Z.sub_diag, Z.mul_0_r, Z.shiftr_0_r. do 2 f_equal. lia.
Qed.

Lemma slow_st_bytes k v q : (k <= n)%nat -> slow_st k a v e1 e2 env q = KRet tt env (put_bytes k v q).
Proof.
  revert q. induction k as [|k IH]; intros q Hk; [done|]. cbn [slow_st put_bytes]. cbv zeta.
  change (kbind (st_raw 1 ?x ?w) ?r env q) with (r tt env (poke (Z.of_nat 1) x w q)). cbv beta. rewrite IH by lia.
  unfold host. by rewrite !page_mask.
Qed.

Lemma store_bytes v :
  exists p', helper_st n a v idx env p = KRet tt env p' /\
    (forall i, 0 <= i < Z.of_nat n -> p' (host i) = Z.shiftr v (8 * i) mod 256) /\
    (forall x, (forall i, 0 <= i < Z.of_nat n -> x <> host i) -> p' x = p x).
Proof.
  unfold helper_st. rewrite (kbind_ret _ _ _ _ _ _ _ (H1 1)). destruct (Z.leb_spec TARGET_PAGE_SIZE (page_offset a + Z.of_nat n - 1)) as [Hc|Hc].
  - rewrite (kbind_ret _ _ _ _ _ _ _ (H2 1 _ eq_refl)). rewrite slow_st_bytes by done. eexists. split; [reflexivity|].
    split; [intros; by apply put_bytes_at|intros; by apply put_bytes_other].
  - change TARGET_PAGE_SIZE with 4096 in Hc. eexists. split; [reflexivity|]. split.
    + intros i Hi. rewrite host_low by lia. unfold poke, host_addr. zcase; try lia. do 2 f_equal. lia.
    + intros x Hx. unfold poke, host_addr. zcase; try done. destruct (Hx (x - t_paddr e1 - page_offset a)); [lia|].
      rewrite host_low by lia. lia.
Qed.
End Split.

(** C25: the softmmu serves a load or store of 1, 2 or 4 bytes at any address byte by
    byte, also when the access spans two pages or the end of the address space,
    and as the translations of the two pages say. A load returns the bytes at the
    physical addresses of its bytes, the first the lowest; a store writes exactly
    those bytes. *)
Theorem softmmu_bytewise n a v idx env p e1 e2 :
  n = 1%nat \/ n = 2%nat \/ n = 4%nat -> in_range 32 a ->
  (forall w, tlb_fill a w idx env p = KRet e1 env p) ->
  (forall w b, page_of b = page_of (u32 (a + Z.of_nat n - 1)) -> tlb_fill b w idx env p = KRet e2 env p) ->
  t_paddr e1 mod 4096 = 0 -> t_paddr e2 mod 4096 = 0 ->
  helper_ld n a idx env p = KRet (byte_sum (fun i => p (host a e1 e2 i)) n 0) env p /\
  exists p', helper_st n a v idx env p = KRet tt env p' /\
    (forall i, 0 <= i < Z.of_nat n -> p' (host a e1 e2 i) = Z.shiftr v (8 * i) mod 256) /\
    (forall x, (forall i, 0 <= i < Z.of_nat n -> x <> host a e1 e2 i) -> p' x = p x).
Proof. intros Hn Ha H1 H2 A1 A2. split; [by apply load_bytes|by apply store_bytes]. Qed.

(** ** Across the start of the descriptor table of file SegDemo *)

(** The mapping of a page without paging. *)
Definition flat_page (idx pg : Z) : tlb_entry :=
  mkTlb (u32 (u32 pg + u32 (Z.land pg 4095))) (u64 (pg + u32 (Z.land pg 4095)))
    (Z.lor (Z.lor PAGE_READ PAGE_WRITE) PAGE_EXEC) idx 4096.

Lemma tlb_fill_flat b w idx env p :
  unpaged env = true -> tlb_fill b w idx env p = KRet (flat_page idx (page_of b)) env p.
Proof.
  intros [Hpg Ha%Z.eqb_eq]%andb_true_iff. unfold tlb_fill, cpu_x86_handle_mmu_fault, crn. cbn [m_cpu]. rewrite Hpg.
  unfold do_mapping. cbn [m_cpu m_phys]. by rewrite Ha, Z.land_m1_r, !page_mask.
Qed.

Lemma softmmu_bytewise_witness :
  helper_ld 4 0x1016 0 user_cpu demo_mem =
    KRet (byte_sum (fun i => demo_mem (host 0x1016 (flat_page 0 0x1000) (flat_page 0 0x1000) i)) 4 0) user_cpu demo_mem /\
  helper_ld 4 0xffe 0 user_cpu demo_mem =
    KRet (byte_sum (fun i => demo_mem (host 0xffe (flat_page 0 0) (flat_page 0 0x1000) i)) 4 0) user_cpu demo_mem.
Proof.
  split.
  - refine (proj1 (softmmu_bytewise 4 0x1016 0 0 user_cpu demo_mem (flat_page 0 0x1000) (flat_page 0 0x1000)
      (or_intror (or_intror eq_refl)) _ _ _ eq_refl eq_refl)); [lia|intros w; by apply tlb_fill_flat|].
    intros w b Hb. rewrite tlb_fill_flat by done. by rewrite Hb.
  - refine (proj1 (softmmu_bytewise 4 0xffe 0 0 user_cpu demo_mem (flat_page 0 0) (flat_page 0 0x1000)
      (or_intror (or_intror eq_refl)) _ _ _ eq_refl eq_refl)); [lia|intros w; by apply tlb_fill_flat|].
    intros w b Hb. rewrite tlb_fill_flat by done. by rewrite Hb.
Defined.
