(* ===== verification/SegRound.v ===== *)
(** * An interrupt and the return from it

    A return from a handler entered through a 32-bit gate resumes the interrupted
    code: its registers, segments, level and flags. *)

From stdpp Require Import base gmap list strings.
From Stdlib Require Import ZArith Lia.
From S2P Require Import Prelude Cpu CcHelper Excp Guest Seg SegSpec SegTask SegInt SegCall SegInv SegOps SegInspect SegPriv SoftMmu SegRam RbTree RbStore LibMap Tracer TracerDemo SegTracer SegDemo.

Local Open Scope Z_scope.
Local Open Scope k_scope.

(** ** The parts of the state that control transfers change *)

Definition only_exec (env env' : CPUX86State) : Prop :=
  env' = with_eflags (eflags env') (with_eip (eip env') (with_hflags (hflags env') (with_segs (segs env')
           (with_regs (regs env') env)))).

Lemma only_exec_trans a b c : only_exec a b -> only_exec b c -> only_exec a c.
Proof. unfold only_exec. intros Ha Hb. rewrite Hb, Ha. by destruct a. Qed.
Lemma only_exec_refl env : only_exec env env.
Proof. by destruct env. Qed.
Lemma segs_exec env env' : only_segs env env' -> only_exec env env'.
Proof. unfold only_segs, only_exec. intros ->. by destruct env. Qed.

Lemma exec_tables env env' sel : only_exec env env' -> desc_table env' sel = desc_table env sel.
Proof. unfold only_exec. intros ->. done. Qed.
Lemma exec_mmu env env' : only_exec env env' -> same_mmu env env'.
Proof. unfold only_exec. intros ->. done. Qed.

Lemma enter_handler_exec type sel offset e1 e2 esp ep env :
  only_exec env (enter_handler type sel offset e1 e2 esp ep env).
Proof.
  unfold enter_handler. set (env1 := match ep_new ep with Some _ => _ | None => _ end).
  assert (only_exec env env1) as H1.
  { unfold env1. destruct (ep_new ep) as [[[ss s1] s2]|]; [|apply only_exec_refl].
    eapply only_exec_trans; [|apply segs_exec, load_seg_only].
    destruct (has _ _); [|apply only_exec_refl]. cbn [foldl].
    repeat (eapply only_exec_trans; [|apply segs_exec, load_seg_only]). apply only_exec_refl. }
  clearbody env1. eapply only_exec_trans; [exact H1|]. clear H1. unfold load_desc.
  set (env2 := cpu_x86_load_seg_cache _ _ _ _ _ _).
  assert (only_exec env1 env2) as H2.
  { eapply only_exec_trans; [|apply segs_exec, load_seg_only]. by destruct env1. }
  clearbody env2. eapply only_exec_trans; [exact H2|]. by destruct env2.
Qed.

(** The bits a handler finds cleared: [TF], [IF], [NT], [RF] and [VM]. *)
Definition cleared_bit (k : Z) : bool := one_of [8; 9; 14; 16; 17] k.

Lemma bit_not k j : (j =? k) = false -> 0 <= j -> Z.testbit (2 ^ j) k = false.
Proof. intros H Hj. rewrite Z.pow2_bits_eqb by done. exact H. Qed.

Lemma handler_flags fl type k :
  0 <= k < 32 -> cleared_bit k = false ->
  Z.testbit (Z.land (if Z.land type 1 =? 0 then Z.land fl (not32 IF_MASK) else fl)
    (not32 (Z.lor (Z.lor (Z.lor TF_MASK VM_MASK) RF_MASK) NT_MASK))) k = Z.testbit fl k.
Proof.
  intros Hk Hc. unfold cleared_bit, one_of, existsb in Hc. repeat apply orb_false_iff in Hc as [? Hc].
  change TF_MASK with (2 ^ 8). change VM_MASK with (2 ^ 17). change RF_MASK with (2 ^ 16). change NT_MASK with (2 ^ 14).
  change IF_MASK with (2 ^ 9). rewrite Z.land_spec, testbit_not32, !Z.lor_spec by done.
  rewrite !bit_not by (done || by rewrite Z.eqb_sym). rewrite andb_true_r. destruct (_ =? 0); [|done].
  rewrite Z.land_spec, testbit_not32 by done. rewrite bit_not by (done || by rewrite Z.eqb_sym). by rewrite andb_true_r.
Qed.

(** Registers, data segments and flags in the handler. *)
Lemma enter_handler_rest type sel offset e1 e2 esp ep env :
  length (segs env) = 6%nat -> in_vm86 env = false ->
  let env' := enter_handler type sel offset e1 e2 esp ep env in
  regs env' = regs (SET_ESP esp (ep_mask ep) env) /\
  (forall r, r ∈ data_regs -> seg env' r = seg env r) /\
  (forall k, 0 <= k < 32 -> cleared_bit k = false -> Z.testbit (eflags env') k = Z.testbit (eflags env) k) /\
  has (eflags env') NT_MASK = false.
Proof.
  intros Hl Hv. unfold in_vm86 in Hv. unfold enter_handler. rewrite Hv.
  set (env1 := match ep_new ep with Some _ => _ | None => _ end).
  assert (regs env1 = regs env /\ eflags env1 = eflags env /\ length (segs env1) = 6%nat /\
    (forall r, r ∈ data_regs -> seg env1 r = seg env r)) as (H1 & H2 & H3 & H4).
  { unfold env1. destruct (ep_new ep) as [[[ss s1] s2]|]; [|done]. rewrite load_seg_eflags, load_seg_len.
    split; [apply (only_segs_fields _ _ (load_seg_only R_SS _ _ _ _ _))|]. split; [done|]. split; [done|].
    intros r Hr. rewrite seg_load, decide_False; [done|by intros ->; apply ss_not_data in Hr|done|unfold R_SS; lia]. }
  clearbody env1. set (env2 := SET_ESP esp (ep_mask ep) env1).
  assert (regs env2 = regs (SET_ESP esp (ep_mask ep) env)) as H5.
  { unfold env2, SET_ESP, put_reg, reg. cbn [regs with_regs]. by rewrite H1. }
  assert (eflags env2 = eflags env) as H6 by exact H2. assert (length (segs env2) = 6%nat) as H7 by exact H3.
  assert (forall r, r ∈ data_regs -> seg env2 r = seg env r) as H8 by exact H4. clearbody env2. clear H1 H2 H3 H4 env1.
  unfold load_desc. set (env3 := cpu_x86_load_seg_cache _ _ _ _ _ _).
  assert (regs env3 = regs env2) as E1 by apply (only_segs_fields _ _ (load_seg_only R_CS _ _ _ _ _)).
  assert (eflags env3 = eflags env2) as E2 by apply load_seg_eflags.
  assert (forall r, r ∈ data_regs -> seg env3 r = seg env2 r) as E3.
  { intros r Hr. unfold env3. rewrite seg_load, decide_False; [done|by intros ->; apply cs_not_data in Hr|done|unfold R_CS; lia]. }
  clearbody env3. split; [by rewrite <-H5, <-E1|]. split; [|split].
  - intros r Hr. change (seg env3 r = seg env r). by rewrite E3, H8.
  - intros k Hk Hc. rewrite <-H6, <-E2. by apply handler_flags.
  - by apply (has_cleared _ _ 14).
Qed.

(** ** Flags *)

Lemma flags_resumed env envh mask :
  eflags_ok env ->
  (forall k, 0 <= k < 32 -> Z.testbit mask k = false -> Z.testbit (eflags envh) k = Z.testbit (eflags env) k) ->
  cpu_compute_eflags (with_cc_op CC_OP_EFLAGS (cpu_load_eflags (cpu_compute_eflags env) mask envh)) = cpu_compute_eflags env.
Proof.
  intros Hok Hb. rewrite <-(eflags_reload env mask Hok) at 2. set (fl := cpu_compute_eflags env).
  assert (eflags (cpu_load_eflags fl mask envh) = eflags (cpu_load_eflags fl mask env)) as He.
  { cbn [cpu_load_eflags eflags with_eflags with_df with_cc_src]. do 2 f_equal. apply Z.bits_inj'. intros k Hk.
    rewrite !Z.land_spec. destruct (Z.lt_ge_cases k 32); [|by rewrite (testbit_high 32 (u32 (Z.lnot mask)) k), !andb_false_r by (lia || apply u32_range)].
    change (u32 (Z.lnot mask)) with (not32 mask). rewrite testbit_not32 by lia.
    destruct (Z.testbit mask k) eqn:Hm; [by rewrite !andb_false_r|]. by rewrite Hb. }
  unfold load_eflags, helper_write_eflags. cbn [cpu_load_eflags eflags with_eflags with_df with_cc_src] in He.
  unfold cpu_compute_eflags, cpu_cc_compute_all. cbn [cpu_load_eflags eflags with_eflags with_df with_cc_src with_cc_op cc_op cc_src df].
  by rewrite He.
Qed.

Lemma iret_mask_bits cpl iopl k :
  cpl <= iopl -> cleared_bit k = true -> k <> 17 -> Z.testbit (iret_mask cpl iopl true) k = true.
Proof.
  intros Hc%Z.leb_le Hk Hn. unfold iret_mask. rewrite Hc. unfold cleared_bit, one_of, existsb in Hk.
  repeat apply orb_true_iff in Hk as [->%Z.eqb_eq|Hk]; try done; by destruct (cpl =? 0).
Qed.

(** [VM] as it is pushed. *)
Lemma compute_eflags_vm env : eflags_ok env -> has (cpu_compute_eflags env) VM_MASK = in_vm86 env.
Proof.
  intros Hok. destruct (compute_eflags_parts env Hok) as (cc & d & _ & _ & Hcc & Hd & _ & ->).
  unfold in_vm86. change VM_MASK with (2 ^ 17). rewrite !has_bit, !Z.lor_spec by done.
  unfold within in Hcc. rewrite <-Hcc, Z.land_spec, andb_false_r, orb_false_r. rewrite Hd. by destruct (_ =? _); rewrite orb_false_r.
Qed.

(** ** Delivery *)

Section Round.
Context {G : Type} `{!SoftMmu G, !SoftMmuSpec G, !Ram G}.
Implicit Types (env : CPUX86State) (g : G).

Lemma kbind_get_inv {B} (k : CPUX86State -> K G B) env g : kbind kget k env g = k env env g.
Proof. done. Qed.

Lemma kbind_check_inv {B} b index err (k : unit -> K G B) env g r env' g' :
  kbind (raise_if b index err) k env g = KRet r env' g' -> b = false /\ k tt env g = KRet r env' g'.
Proof.
  intros H. apply kbind_inv in H as ([] & env1 & g1 & H1 & H2).
  destruct (qat_ret_inv _ (fun _ => b = false) env g tt env1 g1 (qat_raise_if _ _ _ _ _ (fun H => H)) H1) as [-> Hb].
  split; [done|]. rewrite Hb in H1. by injection H1 as <-.
Qed.

(** What a taken gate has read and pushed. *)
Lemma interrupt_gate_inv intno is_int old_eip e1 e2 env g env1 g1 :
  interrupt_gate intno is_int old_eip None e1 e2 env g = KRet tt env1 g1 ->
  exists c1 c2 ep esp g0, runs_at env c2 ep /\ (forall b, ram_word env g0 b = ram_word env g b) /\
    push_all (Z.shiftr (Z.land (Z.shiftr e2 8) 0x1f) 3 =? 1) (ep_ssp ep) (ep_mask ep)
      (interrupt_frame env (ep_inner ep) old_eip None) (ep_esp ep) env g0 = KRet esp env g1 /\
    env1 = enter_handler (Z.land (Z.shiftr e2 8) 0x1f) (Z.shiftr e1 16)
             (Z.lor (Z.land e2 0xffff0000) (Z.land e1 0x0000ffff)) c1 c2 esp ep env.
Proof.
  unfold interrupt_gate. rewrite kbind_get_inv. cbv zeta. intros H.
  do 3 (apply kbind_check_inv in H as [_ H]).
  apply kbind_inv in H as ([c1 c2] & env0 & g2 & H1 & H). destruct (reads_need_segment _ _ _ _ _ _ _ _ H1) as [-> R1].
  apply kbind_check_inv in H as [_ H]. apply kbind_check_inv in H as [Hd H]. apply kbind_check_inv in H as [_ H].
  apply kbind_inv in H as (ep & env0 & g3 & H2 & H). destruct (reads_interrupt_stack _ _ _ _ _ _ _ _ H2) as [-> R2].
  destruct (qat_ret_inv _ _ _ _ _ _ _ (qat_interrupt_stack env (Z.shiftr e1 16) c2 ltac:(by apply Z.ltb_ge)) H2) as [_ Hep].
  apply kbind_inv in H as (esp & env0 & g4 & H3 & H). destruct (qat_ret_inv _ _ _ _ _ _ _ (qat_push_all env _ _ _ _ _) H3) as [-> _].
  injection H as <- <-. exists c1, c2, ep, esp, g3. split; [done|]. split; [|done]. intros b. by rewrite R2.
Qed.

(** What is on the stack of the handler, from its stack pointer up. *)
Definition frame_words (env : CPUX86State) (inner : bool) (old_eip : Z) : list Z :=
  [old_eip; selector (seg env R_CS); cpu_compute_eflags env] ++
  (if inner then [reg env R_ESP; selector (seg env R_SS)] else []).

Lemma frame_reverse env inner old_eip :
  in_vm86 env = false -> reverse (interrupt_frame env inner old_eip None) = frame_words env inner old_eip.
Proof. unfold in_vm86, interrupt_frame, frame_words. intros ->. by destruct inner. Qed.

Definition inner (env env1 : CPUX86State) : bool := cpl_of env1 <? cpl_of env.
Definition handler_word (env1 : CPUX86State) (k : nat) : Z := stack_word (base (seg env1 R_SS)) (reg env1 R_ESP) k.

Lemma entry_inner env c2 ep : runs_at env c2 ep -> ep_inner ep = (ep_dpl ep <? cpl_of env).
Proof.
  intros [(-> & _)|(_ & Hd & ss & s1 & s2 & esp & -> & _)]; cbn.
  - by rewrite Z.ltb_irrefl.
  - by apply Z.ltb_lt in Hd.
Qed.

Lemma get_sp_mask_u32 x : get_sp_mask (u32 x) = get_sp_mask x.
Proof. unfold get_sp_mask. change DESC_B_MASK with (2 ^ 22). by rewrite has_u32. Qed.

Lemma stack_word_u32 ssp sp k : stack_word (u32 ssp) (u32 sp) k = stack_word ssp sp k.
Proof.
  unfold stack_word, u32, wrap. rewrite <-Z.add_assoc, Z.add_mod_idemp_l, (Z.add_comm _ (4 * _)), Z.add_assoc, Z.add_mod_idemp_r by done.
  f_equal. lia.
Qed.

Lemma stack_word_sp ssp sp k : stack_word ssp (u32 sp) k = stack_word ssp sp k.
Proof. rewrite <-(Z.sub_0_r (u32 sp)), stack_word_sub. by rewrite Z.sub_0_r. Qed.

Lemma entry_stack_facts env c2 ep :
  runs_at env c2 ep -> in_range 32 (reg env R_ESP) ->
  ep_mask ep = get_sp_mask (sflags (entry_stack ep (seg env R_SS))) /\ in_range 32 (ep_esp ep) /\
  (forall sp k, stack_word (base (entry_stack ep (seg env R_SS))) (u32 sp) k = stack_word (ep_ssp ep) sp k).
Proof.
  intros [(-> & _)|(_ & _ & ss & s1 & s2 & esp & -> & _ & _ & He & _)] Hr.
  - split; [done|]. split; [done|]. intros sp k. apply stack_word_sp.
  - unfold entry_stack. cbn [ep_new ep_mask ep_esp ep_ssp sflags base]. rewrite get_sp_mask_u32.
    split; [done|]. split; [done|]. intros sp k. apply stack_word_u32.
Qed.

(** The handler's state and memory. *)
Record delivered (env : CPUX86State) (g : G) (old_eip : Z) (env1 : CPUX86State) (g1 : G) : Prop := {
  d_exec : only_exec env env1;
  d_inv : seg_inv env1;
  d_vm : in_vm86 env1 = false;
  d_nt : has (eflags env1) NT_MASK = false;
  d_level : cpl_of env1 <= cpl_of env;
  d_mask : get_sp_mask (sflags (seg env1 R_SS)) = 0xffffffff;
  d_esp : in_range 32 (reg env1 R_ESP);
  d_words k v : frame_words env (inner env env1) old_eip !! k = Some v ->
    ram_word env1 g1 (handler_word env1 k) = Some (u32 v);
  d_other b : in_range 32 b ->
    (forall k, (k < length (frame_words env (inner env env1) old_eip))%nat -> apart (handler_word env1 k) b) ->
    ram_word env1 g1 b = ram_word env g b;
  d_same : inner env env1 = false -> seg env1 R_SS = seg env R_SS /\ reg env1 R_ESP = u32 (reg env R_ESP - 12);
  d_regs : regs env1 = <[R_ESP := reg env1 R_ESP]> (regs env);
  d_data r : r ∈ data_regs -> seg env1 r = seg env r;
  d_flags k : 0 <= k < 32 -> cleared_bit k = false -> Z.testbit (eflags env1) k = Z.testbit (eflags env) k
}.

Lemma SET_ESP_wide esp env :
  length (regs env) = 8%nat -> in_range 32 esp ->
  regs (SET_ESP esp 0xffffffff env) = <[R_ESP := esp]> (regs env) /\ reg (SET_ESP esp 0xffffffff env) R_ESP = esp.
Proof.
  intros Hl Hr. unfold SET_ESP, put_reg. change (not32 0xffffffff) with 0. rewrite Z.land_0_r, Z.lor_0_l.
  change 0xffffffff with (Z.ones 32). rewrite Z.land_ones, Z.mod_small, u32_id by (done || lia).
  split; [done|]. unfold reg. cbn [regs with_regs]. by destruct (regs env) as [|? [|? [|? [|? [|? ?]]]]].
Qed.

Lemma push_all_sp ssp mask vals sp env g sp' env' g' :
  in_range 32 sp -> push_all (G := G) true ssp mask vals sp env g = KRet sp' env' g' ->
  sp' = u32 (sp - 4 * Z.of_nat (length vals)).
Proof.
  revert sp env g. induction vals as [|v vals IH]; intros sp env g Hr H; cbn [push_all length] in *.
  - injection H as <- _ _. by replace (sp - 4 * Z.of_nat 0) with sp by lia; rewrite u32_id.
  - apply kbind_inv in H as (sp1 & env1 & g1 & H1 & H2). unfold PUSH, PUSHL in H1.
    apply kbind_inv in H1 as ([] & env2 & g2 & _ & H1). injection H1 as <- _ _.
    rewrite (IH _ _ _ (u32_range _) H2), u32_sub. f_equal. lia.
Qed.

Lemma gate_delivers intno is_int old_eip e1 e2 env g env1 g1 :
  seg_inv env -> in_vm86 env = false -> length (regs env) = 8%nat -> in_range 32 (reg env R_ESP) ->
  Z.shiftr (Z.land (Z.shiftr e2 8) 0x1f) 3 = 1 ->
  interrupt_gate intno is_int old_eip None e1 e2 env g = KRet tt env1 g1 ->
  has (sflags (seg env1 R_SS)) DESC_B_MASK = true ->
  (forall k, (k < length (frame_words env (inner env env1) old_eip))%nat -> is_Some (ram_word env g (handler_word env1 k))) ->
  delivered env g old_eip env1 g1.
Proof.
  intros Hi Hv Hlen Hesp Hw H HB Hram. apply interrupt_gate_inv in H as (c1 & c2 & ep & esp & g0 & Hep & R0 & Hp & ->).
  rewrite Hw in Hp. change (1 =? 1) with true in Hp. pose proof (runs_at_level _ _ _ Hep) as Hl.
  set (type := Z.land (Z.shiftr e2 8) 0x1f) in *. set (sel := Z.shiftr e1 16) in *.
  set (offset := Z.lor (Z.land e2 0xffff0000) (Z.land e1 0x0000ffff)) in *.
  destruct (enter_handler_view type sel offset c1 c2 esp ep env Hi Hl) as (V1 & V2 & _ & V4 & _).
  destruct (enter_handler_rest type sel offset c1 c2 esp ep env) as (W1 & W2 & W3 & W4); [by apply hidden_len, Hi|done|].
  pose proof (enter_handler_exec type sel offset c1 c2 esp ep env) as Hx.
  pose proof (enter_handler_inv type sel offset c1 c2 esp ep env Hi Hl) as Hi1.
  destruct (entry_stack_facts env c2 ep Hep Hesp) as (Hm & Her & Hs). pose proof (entry_inner env c2 ep Hep) as Hin.
  set (env1 := enter_handler type sel offset c1 c2 esp ep env) in *. clearbody env1.
  assert (inner env env1 = ep_inner ep) as Hie by (unfold inner; by rewrite Hin, V1).
  assert (ep_mask ep = 0xffffffff) as Hmask by (rewrite Hm, <-V4; unfold get_sp_mask; by rewrite HB).
  assert (length (interrupt_frame env (ep_inner ep) old_eip None) = length (frame_words env (inner env env1) old_eip)) as Hn
    by (by rewrite Hie, <-frame_reverse, length_reverse by done).
  assert (length (frame_words env (inner env env1) old_eip) <= 5)%nat as H5 by (by unfold frame_words; destruct (inner _ _); cbn; lia).
  rewrite Hmask in Hp, W1.
  pose proof (push_all_ram (ep_ssp ep) env (interrupt_frame env (ep_inner ep) old_eip None) (ep_esp ep) g0) as Hpush.
  pose proof (push_all_sp _ _ _ _ _ _ _ _ _ Her Hp) as Hsp.
  cbv zeta in Hpush. rewrite Hn in Hpush, Hsp. set (n := length (frame_words env (inner env env1) old_eip)) in *.
  destruct (SET_ESP_wide esp env Hlen) as [S1 S2]; [rewrite Hsp; apply u32_range|].
  assert (reg env1 R_ESP = esp) as Hre by (unfold reg in *; by rewrite W1).
  assert (forall k, handler_word env1 k = stack_word (ep_ssp ep) (ep_esp ep - 4 * Z.of_nat n) k) as Hhw.
  { intros k. unfold handler_word. rewrite V4, Hre, Hsp. apply Hs. }
  destruct Hpush as (g1' & P1 & P2 & P3); [lia|done| |].
  { intros k Hk. rewrite R0, <-Hhw. by apply Hram. }
  rewrite Hp in P1. injection P1 as _ <-. pose proof (exec_mmu _ _ Hx) as Hmmu.
  split; try done.
  - rewrite V1. apply Hl.
  - by rewrite V4, <-Hm.
  - rewrite Hre, Hsp. apply u32_range.
  - intros k v Hk. rewrite (ram_cpu env env1) by done. rewrite Hhw. apply P2. by rewrite frame_reverse, <-Hie.
  - intros b Hb Hap. rewrite (ram_cpu env env1), P3, R0; [done|done| |done]. intros k Hk. rewrite <-Hhw. by apply Hap.
  - intros Hnot. rewrite V4, Hre, Hsp. unfold n. rewrite Hnot. rewrite Hie in Hnot.
    destruct Hep as [(-> & _)|(_ & _ & ss & s1 & s2 & e & -> & _)]; [|done]. done.
  - by rewrite W1, S1, Hre.
Qed.

(** ** The return *)

(** A descriptor as a segment register holds it. *)
Definition loaded (sel e1 e2 : Z) : SegmentCache :=
  mkSeg (u32 sel) (u32 (get_seg_base e1 e2)) (u32 (get_seg_limit e1 e2)) (u32 e2).

(** Unusable segments may change in what does not matter. *)
Definition kept (old new : SegmentCache) : Prop := new = old \/ (sflags old = 0 /\ sflags new = 0).

Lemma validate_kept r c env :
  length (segs env) = 6%nat -> (r < 6)%nat -> usable_at c (seg env r) -> kept (seg env r) (seg (validate_seg r c env) r).
Proof.
  intros Hl Hr [_ Hd]. unfold validate_seg. destruct (_ && null_sel _); [by left|].
  destruct ((negb _ || negb _) && _) eqn:E; [|by left]. rewrite seg_load, decide_True by done. right. split; [|done].
  apply andb_true_iff in E as [E Hlt%Z.ltb_lt]. destruct Hd as [Hd|[Hd|Hd]]; [done| |lia].
  unfold conforming in Hd. apply andb_true_iff in Hd as [H1 H2]. by rewrite H1, H2 in E.
Qed.

Lemma validate_regs r c env : regs (validate_seg r c env) = regs env.
Proof.
  unfold validate_seg. destruct (_ && _); [done|]. destruct (_ && _); [|done].
  apply (only_segs_fields _ _ (load_seg_only r _ _ _ _ _)).
Qed.

Lemma validate_list c l env :
  NoDup l -> (forall r, r ∈ l -> (r < 6)%nat) -> length (segs env) = 6%nat -> (forall r, r ∈ l -> usable_at c (seg env r)) ->
  let env' := foldl (fun env r => validate_seg r c env) env l in
  (forall r, r ∈ l -> kept (seg env r) (seg env' r)) /\ (forall r, r ∉ l -> seg env' r = seg env r) /\
  regs env' = regs env /\ eflags env' = eflags env /\ cpl_of env' = cpl_of env.
Proof.
  revert env. induction l as [|r l IH]; intros env Hd Hr Hl Hu; [by split; [intros ? ?%elem_of_nil|]|].
  apply NoDup_cons in Hd as [Hn Hd]. assert (r < 6)%nat as Hr6 by (apply Hr; by left).
  destruct (validate_frame r c env Hr6 Hl) as (F1 & F2 & F3). cbn [foldl].
  assert (forall r', r' <> r -> seg (validate_seg r c env) r' = seg env r') as Ho by (intros; by apply validate_other).
  destruct (IH (validate_seg r c env)) as (I1 & I2 & I3 & I4 & I5); [done|intros; apply Hr; by right|done| |].
  { intros r' Hr'. rewrite Ho by (by intros ->). apply Hu. by right. }
  split; [|split; [|by rewrite I3, I4, I5, validate_regs]].
  - intros r' [->|Hin]%elem_of_cons.
    + rewrite I2 by done. apply validate_kept; [done..|]. apply Hu. by left.
    + rewrite <-(Ho r') by (by intros ->). by apply I1.
  - intros r' [Hne Hni]%not_elem_of_cons. rewrite I2 by done. by apply Ho.
Qed.

Lemma enter_outer_seg cs c1 c2 ss s1 s2 env :
  length (segs env) = 6%nat -> (forall r, r ∈ data_regs -> usable_at (rpl_of cs) (seg env r)) ->
  let env' := enter_outer cs c1 c2 ss s1 s2 env in
  seg env' R_CS = loaded cs c1 c2 /\ seg env' R_SS = loaded ss s1 s2 /\
  (forall r, r ∈ data_regs -> kept (seg env r) (seg env' r)) /\
  regs env' = regs env /\ eflags env' = eflags env /\ cpl_of env' = rpl_of cs.
Proof.
  intros Hl Hu. unfold enter_outer, load_desc. set (env1 := cpu_x86_load_seg_cache R_SS _ _ _ _ _).
  set (env2 := cpu_x86_load_seg_cache R_CS _ _ _ _ _).
  assert (length (segs env1) = 6%nat) as L1 by (unfold env1; by rewrite load_seg_len).
  assert (length (segs env2) = 6%nat) as L2 by (unfold env2; by rewrite load_seg_len).
  assert (forall r, r ∈ data_regs -> seg env2 r = seg env r) as Hd.
  { intros r Hr. unfold env2. rewrite seg_load, decide_False by (done || (intros ->; by apply cs_not_data in Hr) || (unfold R_CS; lia)).
    unfold env1. by rewrite seg_load, decide_False by (done || (intros ->; by apply ss_not_data in Hr) || (unfold R_SS; lia)). }
  assert (seg env2 R_CS = loaded cs c1 c2) as HC by (unfold env2; by rewrite seg_load, decide_True by (done || unfold R_CS; lia)).
  assert (seg env2 R_SS = loaded ss s1 s2) as HS.
  { unfold env2. rewrite seg_load, decide_False by (done || unfold R_CS; lia). unfold env1.
    by rewrite seg_load, decide_True by (done || unfold R_SS; lia). }
  assert (regs env2 = regs env /\ eflags env2 = eflags env) as [Hg Hf].
  { destruct (only_segs_fields _ _ (only_segs_trans _ _ _ (load_seg_only R_SS ss (get_seg_base s1 s2) (get_seg_limit s1 s2) s2 env)
      (load_seg_only R_CS cs (get_seg_base c1 c2) (get_seg_limit c1 c2) c2 env1))) as (_ & ? & _ & ? & _). done. }
  clearbody env2. clear env1 L1.
  destruct (validate_list (rpl_of cs) data_regs (cpu_x86_set_cpl (rpl_of cs) env2)) as (I1 & I2 & I3 & I4 & I5).
  { apply (bool_decide_unpack _). by vm_compute. }
  { intros r. unfold data_regs. rewrite !elem_of_cons, elem_of_nil. unfold R_ES, R_DS, R_FS, R_GS. lia. }
  { done. }
  { intros r Hr. change (usable_at (rpl_of cs) (seg env2 r)). rewrite Hd by done. by apply Hu. }
  fold data_regs. split; [by rewrite I2 by apply cs_not_data|]. split; [by rewrite I2 by apply ss_not_data|].
  split; [|split; [by rewrite I3|split; [by rewrite I4|rewrite I5; apply cpl_set, land3_range]]].
  intros r Hr. rewrite <-Hd by done. by apply I1.
Qed.

(** Interrupted code in 32-bit protected mode whose code and stack segments are
    loaded from descriptors in RAM. *)
Record resumable (env : CPUX86State) (g : G) (c1 c2 s1 s2 : Z) : Prop := {
  r_inv : seg_inv env;
  r_mode : in_protected env = true /\ in_vm86 env = false;
  r_flags : eflags_ok env;
  r_regs : length (regs env) = 8%nat;
  r_esp : in_range 32 (reg env R_ESP);
  r_sel : in_range 16 (selector (seg env R_CS)) /\ in_range 16 (selector (seg env R_SS));
  r_cs : seg env R_CS = loaded (selector (seg env R_CS)) c1 c2;
  r_cs_ram : desc_in_ram env g (selector (seg env R_CS)) c1 c2;
  r_code : null_sel (selector (seg env R_CS)) = false /\ return_code (cpl_of env) (selector (seg env R_CS)) c2;
  r_ss : seg env R_SS = loaded (selector (seg env R_SS)) s1 s2;
  r_ss_ram : desc_in_ram env g (selector (seg env R_SS)) s1 s2;
  r_stack : stack_segment (cpl_of env) (selector (seg env R_SS)) s2 /\ has s2 DESC_B_MASK = true
}.

(** The words of the two descriptors. *)
Definition desc_addrs (env : CPUX86State) : list Z :=
  [desc_ptr env (selector (seg env R_CS)); u32 (desc_ptr env (selector (seg env R_CS)) + 4);
   desc_ptr env (selector (seg env R_SS)); u32 (desc_ptr env (selector (seg env R_SS)) + 4)].

(** The handler's stack is in RAM and does not overlap the descriptors. *)
Definition frame_in_ram (env : CPUX86State) (g : G) (old_eip : Z) (env1 : CPUX86State) : Prop :=
  forall k, (k < length (frame_words env (inner env env1) old_eip))%nat ->
    is_Some (ram_word env g (handler_word env1 k)) /\ Forall (apart (handler_word env1 k)) (desc_addrs env).

Section Return.
Context (env : CPUX86State) (g : G) (c1 c2 s1 s2 old_eip : Z) (env1 : CPUX86State) (g1 : G).
Context (Hr : resumable env g c1 c2 s1 s2) (Hd : delivered env g old_eip env1 g1) (Hf : frame_in_ram env g old_eip env1).
Context (Hip : in_range 32 old_eip).

Let cs : Z := selector (seg env R_CS).
Let ss : Z := selector (seg env R_SS).
Let fl : Z := cpu_compute_eflags env.

Lemma desc_survives sel e1 e2 :
  desc_ptr env sel ∈ desc_addrs env -> u32 (desc_ptr env sel + 4) ∈ desc_addrs env ->
  desc_in_ram env g sel e1 e2 -> desc_in_ram env1 g1 sel e1 e2.
Proof.
  intros H1 H2 (Hl & M1 & M2). unfold desc_in_ram, desc_ptr. rewrite (exec_tables _ _ _ (d_exec _ _ _ _ _ Hd)).
  split; [done|]. fold (desc_ptr env sel).
  assert (forall a, in_range 32 a -> a ∈ desc_addrs env -> ram_word env1 g1 a = ram_word env g a) as Ha.
  { intros a Har Ha. apply (d_other _ _ _ _ _ Hd); [done|]. intros k Hk. destruct (Hf k Hk) as [_ Hap].
    rewrite Forall_forall in Hap. by apply Hap. }
  by rewrite !Ha by (done || apply u32_range).
Qed.

Lemma sel_low sel : in_range 16 sel -> Z.land sel 0xffff = sel.
Proof. intros H. change 0xffff with (Z.ones 16). rewrite Z.land_ones by done. by apply Z.mod_small. Qed.

Lemma frame_at k v : frame_words env (inner env env1) old_eip !! k = Some v -> ram_word env1 g1 (handler_word env1 k) = Some v.
Proof.
  intros Hk. rewrite (d_words _ _ _ _ _ Hd k v Hk). f_equal. apply u32_id.
  destruct (r_sel _ _ _ _ _ _ Hr) as [H1 H2]. pose proof (compute_eflags_range _ (r_flags _ _ _ _ _ _ Hr)).
  pose proof (r_esp _ _ _ _ _ _ Hr).
  assert (Forall (fun x => in_range 32 x) (frame_words env (inner env env1) old_eip)) as Hall.
  { unfold frame_words. destruct (inner env env1); repeat constructor; lia. }
  rewrite Forall_lookup in Hall. by eapply Hall.
Qed.

(** The first three words, popped. *)
Lemma return_starts :
  helper_ret_protected true true 0 env1 g1 =
  return_protected true true 0 (base (seg env1 R_SS)) 0xffffffff old_eip cs fl (u32 (reg env1 R_ESP + 12)) env1 g1.
Proof.
  unfold helper_ret_protected. rewrite kbind_get_inv. cbv zeta. rewrite (d_mask _ _ _ _ _ Hd).
  pose proof (pop_all_ram (base (seg env1 R_SS)) env1 g1 [old_eip; cs; fl] (reg env1 R_ESP) (d_esp _ _ _ _ _ Hd)) as Hp.
  rewrite (kbind_ret _ _ _ _ _ _ _ (Hp ltac:(intros k v Hk; apply frame_at, lookup_app_l_Some, Hk))). cbn [nth].
  rewrite (sel_low cs) by apply (r_sel _ _ _ _ _ _ Hr). unfold fl at 1.
  rewrite compute_eflags_vm by apply (r_flags _ _ _ _ _ _ Hr). by rewrite (proj2 (r_mode _ _ _ _ _ _ Hr)).
Qed.

Lemma rpl_interrupted : rpl_of cs = cpl_of env.
Proof. destruct (r_inv _ _ _ _ _ _ Hr) as (_ & Hl & _). destruct (r_mode _ _ _ _ _ _ Hr) as [Hp Hv]. by destruct (Hl Hp) as [-> _]. Qed.

Lemma check_return_ok : check_return cs (cpl_of env1) c2 env1 g1 = KRet tt env1 g1.
Proof.
  destruct (r_code _ _ _ _ _ _ Hr) as [_ (H1 & H2 & H3 & H4 & H5)]. fold cs in H4, H5. unfold check_return. cbv zeta.
  rewrite H1, H2, H3. cbn [negb orb raise_if]. rewrite kbind_kret. pose proof (d_level _ _ _ _ _ Hd).
  assert ((rpl_of cs <? cpl_of env1) = false) as -> by (apply Z.ltb_ge; lia). cbn [raise_if]. rewrite kbind_kret.
  destruct (has c2 DESC_C_MASK).
  - by assert ((rpl_of cs <? dpl_of c2) = false) as -> by (by apply Z.ltb_ge).
  - by rewrite H5, Z.eqb_refl.
Qed.

Lemma outer_stack_runs :
  inner env env1 = true ->
  outer_stack true (base (seg env1 R_SS)) 0xffffffff (rpl_of cs) (u32 (reg env1 R_ESP + 12)) env1 g1 =
  KRet (reg env R_ESP, ss, s1, s2) env1 g1.
Proof.
  intros Hin. unfold outer_stack.
  pose proof (pop_all_ram (base (seg env1 R_SS)) env1 g1 [reg env R_ESP; ss] (u32 (reg env1 R_ESP + 12)) (u32_range _)) as Hp.
  assert (forall k v, [reg env R_ESP; ss] !! k = Some v ->
    ram_word env1 g1 (stack_word (base (seg env1 R_SS)) (u32 (reg env1 R_ESP + 12)) k) = Some v) as Hw.
  { intros k v Hk. replace (stack_word _ _ k) with (handler_word env1 (3 + k)).
    - apply frame_at. unfold frame_words. rewrite Hin, lookup_app_r by (cbn; lia). by replace (_ - _)%nat with k by (cbn; lia).
    - rewrite stack_word_sp. unfold handler_word, stack_word. f_equal. lia. }
  rewrite (kbind_ret _ _ _ _ _ _ _ (Hp Hw)). cbn [fst nth]. rewrite (sel_low ss) by apply (r_sel _ _ _ _ _ _ Hr).
  destruct (r_stack _ _ _ _ _ _ Hr) as [(H1 & H2 & H3 & H4 & H5 & H6 & H7) _]. fold ss in H1, H2.
  rewrite H1, H2, rpl_interrupted, Z.eqb_refl. cbn [negb raise_if]. rewrite !kbind_kret.
  assert (desc_in_ram env1 g1 ss s1 s2) as Hdesc.
  { apply desc_survives; [..|apply (r_ss_ram _ _ _ _ _ _ Hr)]; unfold desc_addrs; rewrite !elem_of_cons; auto. }
  rewrite (kbind_ret _ _ _ _ _ _ _ (need_segment_ram ss _ _ env1 g1 s1 s2 Hdesc)). rewrite H3, H4, H5, H6, H7, Z.eqb_refl. done.
Qed.

(** Where the return leads. *)
Lemma return_leads :
  let flags := Some (fl, cpl_of env1, true) in
  helper_ret_protected true true 0 env1 g1 =
  KRet tt (if inner env env1
           then finish_return (reg env R_ESP) 0xffffffff old_eip flags (enter_outer cs c1 c2 ss s1 s2 env1)
           else finish_return (u32 (reg env1 R_ESP + 12)) 0xffffffff old_eip flags (load_desc R_CS cs c1 c2 env1)) g1.
Proof.
  cbv zeta. rewrite return_starts. unfold return_protected. cbv zeta.
  destruct (r_code _ _ _ _ _ _ Hr) as [Hnull _]. fold cs in Hnull. rewrite Hnull. cbn [raise_if]. rewrite kbind_kret.
  assert (desc_in_ram env1 g1 cs c1 c2) as Hdesc.
  { apply desc_survives; [..|apply (r_cs_ram _ _ _ _ _ _ Hr)]; unfold desc_addrs; rewrite !elem_of_cons; auto. }
  rewrite (kbind_ret _ _ _ _ _ _ _ (need_segment_ram cs _ _ env1 g1 c1 c2 Hdesc)), kbind_get_inv.
  rewrite (kbind_ret _ _ _ _ _ _ _ check_return_ok), Z.add_0_r, (u32_id (u32 _)) by apply u32_range.
  destruct (d_inv _ _ _ _ _ Hd) as ((_ & _ & _ & H64 & _) & _). rewrite H64, rpl_interrupted, orb_true_l, andb_true_r.
  unfold inner. pose proof (d_level _ _ _ _ _ Hd). destruct (Z.eqb_spec (cpl_of env) (cpl_of env1)) as [E|E].
  - assert ((cpl_of env1 <? cpl_of env) = false) as -> by (apply Z.ltb_ge; lia). reflexivity.
  - assert ((cpl_of env1 <? cpl_of env) = true) as Hin by (apply Z.ltb_lt; lia). rewrite Hin.
    pose proof (outer_stack_runs Hin) as Ho. rewrite rpl_interrupted in Ho. rewrite (kbind_ret _ _ _ _ _ _ _ Ho), Z.add_0_r.
    rewrite u32_id by apply (r_esp _ _ _ _ _ _ Hr). unfold get_sp_mask.
    rewrite (proj2 (r_stack _ _ _ _ _ _ Hr)). reflexivity.
Qed.

Lemma finish_resumes envX esp2 :
  regs envX = regs env1 -> eflags envX = eflags env1 -> in_range 32 esp2 -> cpl_of env1 <= iopl_of env ->
  let env2 := finish_return esp2 0xffffffff old_eip (Some (fl, cpl_of env1, true)) envX in
  eip env2 = old_eip /\ regs env2 = <[R_ESP := esp2]> (regs env) /\ segs env2 = segs envX /\ hflags env2 = hflags envX /\
  cpu_compute_eflags (with_cc_op CC_OP_EFLAGS env2) = fl.
Proof.
  intros Hg He Hesp Hio. cbv zeta. unfold finish_return. set (envY := with_eip old_eip (SET_ESP esp2 0xffffffff envX)).
  pose proof (r_regs _ _ _ _ _ _ Hr) as Hlen. pose proof (d_regs _ _ _ _ _ Hd) as Hreg.
  assert (length (regs envX) = 8%nat) as HlX by (by rewrite Hg, Hreg, length_insert).
  split; [done|]. split; [|split; [done|split; [done|]]].
  - change (regs (SET_ESP esp2 0xffffffff envX) = <[R_ESP:=esp2]> (regs env)).
    rewrite (proj1 (SET_ESP_wide esp2 envX HlX Hesp)), Hg, Hreg. apply list_insert_insert_eq.
  - assert (forall k, 0 <= k < 32 -> cleared_bit k = false -> Z.testbit (eflags envY) k = Z.testbit (eflags env) k) as Hb.
    { intros k Hk Hc. change (eflags envY) with (eflags envX). rewrite He. by apply (d_flags _ _ _ _ _ Hd). }
    assert (Z.land (Z.shiftr (eflags envY) IOPL_SHIFT) 3 = iopl_of env) as ->.
    { unfold iopl_of, IOPL_SHIFT. apply land3_bits; rewrite !Z.shiftr_spec by done; by apply Hb. }
    apply flags_resumed; [apply (r_flags _ _ _ _ _ _ Hr)|]. intros k Hk Hm. destruct (cleared_bit k) eqn:Hc; [|by apply Hb].
    destruct (decide (k = 17)) as [->|Hn]; [|by rewrite iret_mask_bits in Hm].
    destruct (r_mode _ _ _ _ _ _ Hr) as [_ Hv]. pose proof (d_vm _ _ _ _ _ Hd) as Hv1. change (eflags envY) with (eflags envX). rewrite He.
    unfold in_vm86 in Hv, Hv1. change VM_MASK with (2 ^ 17) in Hv, Hv1. rewrite has_bit in Hv, Hv1 by done. congruence.
Qed.

(** The interrupted state. *)
Definition resumed (env2 : CPUX86State) : Prop :=
  eip env2 = old_eip /\ regs env2 = regs env /\ cpl_of env2 = cpl_of env /\
  seg env2 R_CS = seg env R_CS /\ seg env2 R_SS = seg env R_SS /\
  (forall r, r ∈ data_regs -> kept (seg env r) (seg env2 r)) /\
  cpu_compute_eflags (with_cc_op CC_OP_EFLAGS env2) = cpu_compute_eflags env.

Lemma resumed_by envX env2 :
  eip env2 = old_eip -> regs env2 = <[R_ESP := reg env R_ESP]> (regs env) -> segs env2 = segs envX -> hflags env2 = hflags envX ->
  cpu_compute_eflags (with_cc_op CC_OP_EFLAGS env2) = fl -> cpl_of envX = cpl_of env ->
  seg envX R_CS = loaded cs c1 c2 -> seg envX R_SS = seg env R_SS -> (forall r, r ∈ data_regs -> kept (seg env r) (seg envX r)) ->
  resumed env2.
Proof.
  intros F1 F2 F3 F4 F5 Hc HC HS Hk. assert (forall r, seg env2 r = seg envX r) as Hseg by (intros r; unfold seg; by rewrite F3).
  split; [done|]. split.
  { rewrite F2. pose proof (r_regs _ _ _ _ _ _ Hr). unfold reg. destruct (regs env) as [|? [|? [|? [|? [|? ?]]]]]; done. }
  split; [unfold cpl_of at 1; rewrite F4; exact Hc|]. rewrite !Hseg, HC, HS. split; [by rewrite (r_cs _ _ _ _ _ _ Hr)|].
  split; [done|]. split; [|done]. intros r Hin. rewrite Hseg. by apply Hk.
Qed.

Lemma outer_resumes :
  inner env env1 = true -> cpl_of env1 <= iopl_of env ->
  resumed (finish_return (reg env R_ESP) 0xffffffff old_eip (Some (fl, cpl_of env1, true)) (enter_outer cs c1 c2 ss s1 s2 env1)).
Proof.
  intros Hin Hio. destruct (enter_outer_seg cs c1 c2 ss s1 s2 env1) as (S1 & S2 & S3 & S4 & S5 & S6).
  { apply hidden_len, (d_inv _ _ _ _ _ Hd). }
  { intros r Hr'. rewrite (d_data _ _ _ _ _ Hd) by done. rewrite rpl_interrupted.
    destruct (r_inv _ _ _ _ _ _ Hr) as (_ & _ & Hdata). unfold data_ok in Hdata. rewrite Forall_forall in Hdata. by apply Hdata. }
  generalize dependent (enter_outer cs c1 c2 ss s1 s2 env1). intros envX S1 S2 S3 S4 S5 S6.
  destruct (finish_resumes envX (reg env R_ESP) S4 S5 (r_esp _ _ _ _ _ _ Hr) Hio) as (F1 & F2 & F3 & F4 & F5).
  apply (resumed_by envX); try done.
  - by rewrite S6, rpl_interrupted.
  - by rewrite S2, (r_ss _ _ _ _ _ _ Hr).
  - intros r Hr'. rewrite <-(d_data _ _ _ _ _ Hd) by done. by apply S3.
Qed.

Lemma same_resumes :
  inner env env1 = false -> cpl_of env1 <= iopl_of env ->
  resumed (finish_return (u32 (reg env1 R_ESP + 12)) 0xffffffff old_eip (Some (fl, cpl_of env1, true)) (load_desc R_CS cs c1 c2 env1)).
Proof.
  intros Hin Hio. destruct (d_same _ _ _ _ _ Hd Hin) as [HS HE]. unfold load_desc.
  assert (u32 (reg env1 R_ESP + 12) = reg env R_ESP) as ->.
  { pose proof (r_esp _ _ _ _ _ _ Hr). rewrite HE. unfold u32, wrap. rewrite Z.add_mod_idemp_l by done.
    replace (_ - 12 + 12) with (reg env R_ESP) by lia. by apply Z.mod_small. }
  pose proof (hidden_len _ (proj1 (d_inv _ _ _ _ _ Hd))) as Hl1.
  pose proof (fun r => seg_load R_CS cs (get_seg_base c1 c2) (get_seg_limit c1 c2) c2 env1 r Hl1 ltac:(unfold R_CS; lia)) as HX.
  pose proof (cpl_load_seg R_CS cs (get_seg_base c1 c2) (get_seg_limit c1 c2) c2 env1) as HC.
  destruct (only_segs_fields _ _ (load_seg_only R_CS cs (get_seg_base c1 c2) (get_seg_limit c1 c2) c2 env1)) as (_ & X1 & _ & X2 & _).
  generalize dependent (cpu_x86_load_seg_cache R_CS cs (get_seg_base c1 c2) (get_seg_limit c1 c2) c2 env1). intros envX HX HC X1 X2.
  destruct (finish_resumes envX (reg env R_ESP) X2 X1 (r_esp _ _ _ _ _ _ Hr) Hio) as (F1 & F2 & F3 & F4 & F5).
  apply (resumed_by envX); try done.
  - rewrite HC. unfold inner in Hin. apply Z.ltb_ge in Hin. pose proof (d_level _ _ _ _ _ Hd). lia.
  - by rewrite HX.
  - intros r Hr'. left. rewrite HX, decide_False by (intros ->; by apply cs_not_data in Hr'). by apply (d_data _ _ _ _ _ Hd).
Qed.

Lemma return_resumes :
  cpl_of env1 <= iopl_of env -> exists env2, helper_ret_protected true true 0 env1 g1 = KRet tt env2 g1 /\ resumed env2.
Proof.
  intros Hio. eexists. split; [apply return_leads|].
  destruct (inner env env1) eqn:Hin; [by apply outer_resumes|by apply same_resumes].
Qed.
End Return.

(** C6: an interrupt and the return from its handler are inverse. When a 32-bit gate
    is taken from protected mode, by code whose code and stack segments come from
    descriptors in RAM, onto a 32-bit stack in RAM apart from them, and the
    handler's level may change [IF], then [iret] on the handler's stack succeeds
    and resumes the code where the tracer's hook sees it: same instruction pointer,
    registers, level, code and stack segments and flags; data segments are the
    same too, those that were unusable stay unusable. *)
Theorem iret_resumes `{!IntrHooks G} intno is_int old_eip e1 e2 next_eip env g env1 g1 c1 c2 s1 s2 :
  resumable env g c1 c2 s1 s2 -> in_range 32 old_eip -> Z.shiftr (Z.land (Z.shiftr e2 8) 0x1f) 3 = 1 ->
  interrupt_gate intno is_int old_eip None e1 e2 env g = KRet tt env1 g1 ->
  has (sflags (seg env1 R_SS)) DESC_B_MASK = true -> frame_in_ram env g old_eip env1 -> cpl_of env1 <= iopl_of env ->
  exists env2, resumed env old_eip env2 /\
    helper_iret_protected true next_eip env1 g1 =
    on_iret (with_hflags2 (Z.land (hflags2 env2) (not32 HF2_NMI_MASK)) env2) g1.
Proof.
  intros Hr Hip Hw Hg HB Hf Hio.
  assert (delivered env g old_eip env1 g1) as Hd.
  { apply (gate_delivers intno is_int old_eip e1 e2); try done; try apply Hr. intros k Hk. by apply Hf. }
  destruct (return_resumes env g c1 c2 s1 s2 old_eip env1 g1 Hr Hd Hf Hip Hio) as (env2 & H2 & Hres).
  exists env2. split; [done|]. unfold helper_iret_protected. rewrite kbind_get_inv, (d_nt _ _ _ _ _ Hd).
  by rewrite (kbind_ret _ _ _ _ _ _ _ H2).
Qed.
End Round.

(** ** A system call, under the tracer *)

#[export] Program Instance traced_ram {U} : Ram (phys * U) := {| ram_word env g := ram_word env (fst g) |}.
Next Obligation. intros U env [p u] a v Ha Hw. cbn [mmu_load traced_mmu fst] in *. unfold on_phys. by rewrite (ram_load env p a v). Qed.
Next Obligation.
  intros U env [p u] a v Ha Hw. destruct (ram_store env p a v Ha Hw) as (p' & H1 & H2 & H3).
  exists (p', u). cbn [mmu_store traced_mmu]. unfold on_phys. cbn [fst snd]. by rewrite H1.
Qed.
Next Obligation.
  intros U idx n a env [p u] v env' [p' u'] H b. cbn [mmu_load traced_mmu fst] in *. unfold on_phys in H. cbn [fst snd] in H.
  destruct (mmu_load idx n a env p) eqn:E; simplify_eq. by eapply ram_keep.
Qed.
Next Obligation. intros U env env' [p u] a H. by apply ram_cpu. Qed.

Definition traced_machine : Type := phys * tracer rb_state (Z -> Z).
Definition call_state : traced_machine := (demo_mem, demo0).
Definition in_call : CPUX86State * traced_machine :=
  left_by (interrupt_gate 0x80 true 0x6002 None 0x00085000 0x0000ee00 user_cpu call_state) user_cpu call_state.

Lemma in_call_runs :
  interrupt_gate 0x80 true 0x6002 None 0x00085000 0x0000ee00 user_cpu call_state = KRet tt (fst in_call) (snd in_call).
Proof. apply (returns_to _ user_cpu call_state). by vm_compute. Qed.

Lemma user_flags : eflags_ok user_cpu.
Proof. do 3 (split; [by vm_compute|]). split; [by left|by vm_compute]. Qed.

Lemma user_resumable : resumable user_cpu call_state 0x0000ffff 0x00cffb00 0x0000ffff 0x00cff300.
Proof. split; try exact user_cpu_inv; try exact user_flags; by vm_compute. Qed.

Lemma call_frame_in_ram : frame_in_ram user_cpu call_state 0x6002 (fst in_call).
Proof.
  assert (inner user_cpu (fst in_call) = true) as Hin by (by vm_compute).
  intros k Hk. rewrite Hin in Hk. cbn in Hk.
  assert (k = 0 \/ k = 1 \/ k = 2 \/ k = 3 \/ k = 4)%nat as Hc by lia. clear Hk.
  destruct Hc as [->|[->|[->|[->| ->]]]]; apply (bool_decide_unpack _); by vm_compute.
Qed.

Lemma iret_resumes_witness :
  cpl_of (fst in_call) = 0 /\
  exists env2, resumed user_cpu 0x6002 env2 /\
    helper_iret_protected true 0 (fst in_call) (snd in_call) =
    on_iret (with_hflags2 (Z.land (hflags2 env2) (not32 HF2_NMI_MASK)) env2) (snd in_call).
Proof.
  split; [by vm_compute|].
  assert (has (sflags (seg (fst in_call) R_SS)) DESC_B_MASK = true) as HB by (by vm_compute).
  assert (cpl_of (fst in_call) <= iopl_of user_cpu) as Hio by (by vm_compute).
  assert (in_range 32 0x6002) as Hip by lia.
  exact (iret_resumes 0x80 true 0x6002 0x00085000 0x0000ee00 0 user_cpu call_state _ _ _ _ _ _ user_resumable
    Hip eq_refl in_call_runs HB call_frame_in_ram Hio).
Defined.
