(* ===== verification/SegTheorems.v ===== *)
(** * Theorems about segmentation and interrupts

    The helpers as operations of the CPU: the invariant over any sequence of them,
    and precise exceptions. *)

From stdpp Require Import base gmap list strings relations.
From Stdlib Require Import ZArith Lia.
From S2P Require Import Prelude Cpu CcHelper Excp Guest Seg SegSpec SegTask SegInt SegCall SegInv SegOps SegTaskInv SoftMmu RbTree RbStore ObjStore LibMap Tracer TracerDemo SegTracer SegDemo.

Local Open Scope Z_scope.
Local Open Scope k_scope.

(** ** The helpers as operations of the emulated CPU *)

Inductive seg_op : Type :=
| OpLoadSeg (seg_reg : nat) (sel : Z)
| OpLldt (sel : Z)
| OpLtr (sel : Z)
| OpLjmp (cs ip addend : Z)
| OpLcall (cs ip : Z) (wide : bool) (addend : Z)
| OpLcallReal (cs ip : Z) (wide : bool) (next_eip : Z)
| OpLret (wide : bool) (addend : Z)
| OpIret (wide : bool) (next_eip : Z)
| OpIretReal (wide : bool)
| OpInterrupt (intno : Z) (is_int : bool) (error_code next_eip : Z) (is_hw : bool)
| OpException
| OpSysenter
| OpVerr (sel : Z)
| OpVerw (sel : Z).

(** The modes in which the translator calls a helper. *)
Definition allowed (env : CPUX86State) (op : seg_op) : bool :=
  match op with
  | OpLoadSeg r _ => in_protected env && negb (in_vm86 env) && (r <? 6)%nat && negb (r =? R_CS)%nat
  | OpLldt _ | OpLtr _ | OpLjmp _ _ _ | OpLcall _ _ _ _ | OpLret _ _ | OpIret _ _ | OpVerr _ | OpVerw _ =>
      in_protected env && negb (in_vm86 env)
  | OpLcallReal _ _ _ _ | OpIretReal _ => negb (in_protected env) || in_vm86 env
  | OpInterrupt _ _ _ _ _ | OpException => true
  | OpSysenter => in_protected env
  end.

Section Theorems.
Context {G : Type} `{!SoftMmu G, !SoftMmuSpec G, !IntrHooks G, !IntrHooksSpec G}.
Implicit Types (env : CPUX86State) (g : G).

Definition run_op (op : seg_op) : K G unit :=
  match op with
  | OpLoadSeg r sel => helper_load_seg r sel
  | OpLldt sel => helper_lldt sel
  | OpLtr sel => helper_ltr sel
  | OpLjmp cs ip addend => helper_ljmp_protected cs ip addend
  | OpLcall cs ip wide addend => helper_lcall_protected cs ip wide addend
  | OpLcallReal cs ip wide next_eip => helper_lcall_real cs ip wide next_eip
  | OpLret wide addend => helper_lret_protected wide addend
  | OpIret wide next_eip => helper_iret_protected wide next_eip
  | OpIretReal wide => helper_iret_real wide
  | OpInterrupt intno is_int err next_eip is_hw => do_interrupt_all intno is_int err next_eip is_hw
  | OpException => x86_cpu_do_interrupt
  | OpSysenter => helper_sysenter
  | OpVerr sel => helper_verr sel
  | OpVerw sel => helper_verw sel
  end.

(** A helper returns, or leaves an exception for the main loop. *)
Inductive seg_step : CPUX86State * G -> CPUX86State * G -> Prop :=
| step_return op env g env' g' :
    allowed env op = true -> run_op op env g = KRet tt env' g' -> seg_step (env, g) (env', g')
| step_exception op env g env' g' :
    allowed env op = true -> run_op op env g = KExit env' g' -> seg_step (env, g) (env', g').

(** ** Every helper keeps the invariant *)

Definition keeps_inv (env : CPUX86State) {A} (m : K G A) : Prop :=
  kspec env m (fun _ => seg_inv) seg_inv.

Lemma inv_arch env env' : seg_inv env -> same_arch env env' -> seg_inv env'.
Proof. intros H He. by rewrite <-He. Qed.

Lemma kat_keeps env {A} (m : K G A) (Q : A -> CPUX86State -> Prop) :
  seg_inv env -> kat env m Q -> (forall a env', Q a env' -> seg_inv env') -> keeps_inv env m.
Proof. intros Hi H HQ. eapply kspec_weaken; [exact H|exact HQ|]. intros env'. by apply inv_arch. Qed.

Lemma switch_keeps env sel e1 e2 source next_eip :
  seg_inv env -> keeps_inv env (switch_tss sel e1 e2 source next_eip).
Proof.
  intros Hi. eapply kspec_weaken; [apply switch_tss_spec; apply Hi|by intros ? ? [? _]|].
  intros env' [H|[H _]]; [by eapply inv_arch|done].
Qed.

Lemma load_seg_keeps env r sel :
  seg_inv env -> (r < 6)%nat -> r <> R_CS -> keeps_inv env (helper_load_seg r sel).
Proof.
  intros Hi Hr Hcs. eapply kat_keeps; [done|apply helper_load_seg_spec|]. cbv beta zeta. intros _ env' H.
  pose proof Hi as (H1 & H2 & _). pose proof (hidden_len _ H1).
  destruct (null_sel (Z.land sel 0xffff)) eqn:Hn.
  - destruct H as [_ ->]. apply base_inv; rewrite ?cpl_load_seg; [apply base_load_zero; [by apply inv_base|done]|].
    by apply level_load.
  - destruct H as (e1 & e2 & [Hw1 Hw2] & (HS & HP & Hl) & ->). unfold load_desc.
    apply base_inv; rewrite ?cpl_load_seg; [|by apply level_load].
    apply base_load; [by apply inv_base|done|]. intros Hin.
    destruct (Nat.eqb_spec r R_SS) as [->|]; [by apply ss_not_data in Hin|].
    assert (in_range 32 (Z.lor e2 DESC_A_MASK)) as Hw by (by apply lor_range).
    apply usable_desc; [done|by rewrite null_u32|]. destruct Hl as [_ [Hl|[Hl _]]].
    + left. by rewrite accessed_conforming.
    + right. by rewrite accessed_dpl.
Qed.

Lemma keeps_qbind env {A B} (m : K G A) (k : A -> K G B) (Q : A -> Prop) :
  seg_inv env -> qat env m Q -> (forall a, Q a -> keeps_inv env (k a)) -> keeps_inv env (kbind m k).
Proof. intros Hi. apply kspec_qbind. intros env'. by apply inv_arch. Qed.

Lemma keeps_check env b index err {B} (k : unit -> K G B) :
  seg_inv env -> (b = false -> keeps_inv env (k tt)) -> keeps_inv env (kbind (raise_if b index err) k).
Proof. intros Hi. apply kspec_check. intros env'. by apply inv_arch. Qed.

Lemma keeps_raise env {A} index err : seg_inv env -> keeps_inv env (raise (A := A) index err).
Proof. intros Hi. apply kspec_q; [intros env'; by apply inv_arch|]. apply qat_raise. Qed.

Lemma task_transfer_keeps env cs e1 e2 source next_eip :
  seg_inv env -> keeps_inv env (task_transfer cs (cpl_of env) e1 e2 source next_eip).
Proof.
  intros Hi. unfold task_transfer. apply keeps_check; [done|]. intros _.
  eapply kspec_bind; [by apply switch_keeps|]. intros ? env' H. apply kspec_mod. by apply (inv_same env').
Qed.

Lemma jumped_inv env env' : seg_inv env -> jumped env env' -> seg_inv env'.
Proof. intros Hi (cs & e1 & e2 & ip & _ & _ & _ & ->). by apply enter_code_inv. Qed.

Lemma ljmp_keeps env cs ip addend : seg_inv env -> keeps_inv env (helper_ljmp_protected cs ip addend).
Proof.
  intros Hi. unfold helper_ljmp_protected. apply keeps_check; [done|]. intros _.
  eapply keeps_qbind; [done|apply qat_need_segment|]. intros [e1 e2] Hd. apply kspec_get. destruct (has e2 _).
  - eapply keeps_qbind; [done|apply qat_check_code|]. intros ? _. apply keeps_check; [done|]. intros _.
    apply kspec_mod. by apply enter_code_inv.
  - destruct (one_of [1; 9; 5] _); [by apply task_transfer_keeps|]. destruct (one_of [4; 12] _); [|by apply keeps_raise].
    eapply kat_keeps; [done|apply jump_gate_spec|]. intros ? env' H. by eapply jumped_inv.
Qed.

Lemma called_inv env env' : seg_inv env -> in_vm86 env = false -> called env env' -> seg_inv env'.
Proof.
  intros Hi Hv (c1 & c2 & ep & sp & sel & offset & _ & (_ & _ & _ & Hd) & Hep & ->).
  apply enter_callee_inv; [done..|]. rewrite (callee_at_dpl _ _ _ Hep). pose proof (dpl_range c2). lia.
Qed.

Lemma lcall_keeps env cs ip wide addend :
  seg_inv env -> in_vm86 env = false -> keeps_inv env (helper_lcall_protected cs ip wide addend).
Proof.
  intros Hi Hv. unfold helper_lcall_protected. apply kspec_get. apply keeps_check; [done|]. intros _.
  eapply keeps_qbind; [done|apply qat_need_segment|]. intros [e1 e2] Hd. destruct (has e2 _).
  - eapply kat_keeps; [done|by apply call_code_spec|]. intros ? env' (sp & _ & _ & ->).
    apply (enter_code_inv cs e1 e2 (get_seg_limit e1 e2) ip (SET_ESP sp (get_sp_mask (sflags (seg env R_SS))) env)).
    by apply (inv_same env).
  - destruct (one_of [1; 9; 5] _); [by apply task_transfer_keeps|]. destruct (one_of [4; 12] _); [|by apply keeps_raise].
    eapply kat_keeps; [done|apply call_gate_spec|]. intros ? env' H. by eapply called_inv.
Qed.

Lemma returned_inv env wide is_iret fl env' :
  seg_inv env -> in_vm86 env = false -> returned env wide is_iret fl env' -> seg_inv env'.
Proof.
  intros Hi Hv (cs & e1 & e2 & ip & _ & _ & [[Hr [sp ->]]|(sp & ss & s1 & s2 & _ & ->)]).
  - by apply finish_return_inv, load_cs_inv.
  - by apply finish_return_inv, enter_outer_inv.
Qed.

Lemma to_vm86_inv fl ip esp cs sel env :
  hidden_ok env -> has fl VM_MASK = true -> seg_inv (to_vm86 fl ip esp cs sel env).
Proof.
  intros Hh Hf. unfold to_vm86. set (env1 := cpu_load_eflags fl VM86_MASK env).
  assert (seg_inv (enter_vm86 cs sel env1)) as Hi.
  { apply enter_vm86_inv; [by apply (hidden_same env)|]. unfold env1. by rewrite load_eflags_vm_set. }
  generalize dependent (enter_vm86 cs sel env1). intros env2 Hi. by apply (inv_same env2).
Qed.

Lemma returns_inv env wide is_iret env' :
  seg_inv env -> in_vm86 env = false -> returns env wide is_iret env' -> seg_inv env'.
Proof.
  intros Hi Hv (fl & [(_ & _ & Hf & ip & esp & cs & sel & ->)|H]); [|by eapply returned_inv].
  apply to_vm86_inv; [apply Hi|done].
Qed.

Lemma iret_keeps env wide next_eip :
  seg_inv env -> in_vm86 env = false -> keeps_inv env (helper_iret_protected wide next_eip).
Proof.
  intros Hi Hv. unfold helper_iret_protected. apply kspec_get. eapply (kspec_bind _ _ _ _ (fun _ => seg_inv)).
  - destruct (has _ NT_MASK).
    + eapply keeps_qbind; [done|apply qat_lduw|]. intros sel _. apply keeps_check; [done|]. intros _.
      eapply keeps_qbind; [done|apply qat_need_segment|]. intros [e1 e2] _. apply keeps_check; [done|]. intros _.
      by apply switch_keeps.
    + eapply kat_keeps; [done|apply helper_ret_protected_spec|]. intros ? env' H. exact (returns_inv _ _ _ _ Hi Hv H).
  - intros ? env' H. eapply kspec_bind; [apply kspec_mod with (Q := fun _ => seg_inv); by apply (inv_same env')|].
    clear env' H. intros ? env' H. apply kspec_q; [intros env''; by apply inv_arch|].
    eapply qat_weaken; [apply qat_quiet, on_iret_ok|done].
Qed.

Lemma load_flags_inv env1 mask fl h2 :
  seg_inv env1 -> Z.testbit mask 17 = false -> seg_inv (with_hflags2 h2 (cpu_load_eflags fl mask env1)).
Proof. intros Hi Hm. apply (inv_same env1); [done..| |done|done]. exact (load_eflags_vm fl mask env1 Hm). Qed.

Lemma interrupt_keeps env intno is_int err next_eip is_hw :
  seg_inv env -> keeps_inv env (do_interrupt_protected intno is_int err next_eip is_hw).
Proof.
  intros Hi. unfold do_interrupt_protected. apply kspec_get. apply keeps_check; [done|]. intros _.
  eapply keeps_qbind; [done|apply qat_ldl|]. intros e1 _. eapply keeps_qbind; [done|apply qat_ldl|]. intros e2 _.
  destruct (_ =? 5).
  - apply keeps_check; [done|]. intros _.
    eapply kspec_bind; [eapply kspec_weaken; [apply switch_tss_spec; apply Hi|intros ? ? H; exact H|]|].
    { intros env' [H|[H _]]; [by eapply inv_arch|done]. }
    intros ? env' H. destruct (if negb is_int && _ then _ else _); [|by apply kspec_ret, H].
    eapply kspec_weaken; [by apply push_task_error_spec|by intros ? ? [? _]|by intros ? [? _]].
  - destruct (one_of _ _); [|by apply keeps_raise].
    eapply kat_keeps; [done|apply interrupt_gate_spec|].
    intros ? env' (_ & c1 & c2 & ep & esp & _ & _ & Hep & ->). apply enter_handler_inv; [done|by eapply runs_at_level].
Qed.

Lemma interrupt_real_keeps env intno is_int next_eip :
  seg_inv env -> in_protected env = false -> keeps_inv env (do_interrupt_real intno is_int next_eip).
Proof.
  intros Hi Hp. eapply kat_keeps; [done|apply do_interrupt_real_spec|]. intros ? env' (ip & sel & esp & fl & -> & Hf).
  set (env1 := with_eip ip (put_reg R_ESP esp env)).
  assert (seg_inv (set_cs_real sel env1)) as H1 by (apply cs_real_inv; [by apply (inv_same env)|by left]).
  apply (inv_same (set_cs_real sel env1)); [done..| |done|done]. unfold in_vm86. cbn [eflags with_eflags].
  by apply (has_kept _ _ 17).
Qed.

Lemma lcall_real_keeps env cs ip wide next_eip :
  seg_inv env -> in_protected env = false \/ in_vm86 env = true -> keeps_inv env (helper_lcall_real cs ip wide next_eip).
Proof.
  intros Hi Hm. eapply kat_keeps; [done|apply helper_lcall_real_spec|]. intros ? env' (esp & ->).
  apply cs_real_inv; [by apply (inv_same env)|done].
Qed.

Lemma iret_real_keeps env wide :
  seg_inv env -> in_protected env = false \/ in_vm86 env = true -> keeps_inv env (helper_iret_real wide).
Proof.
  intros Hi Hm. eapply kat_keeps; [done|apply helper_iret_real_spec|].
  intros ? env' (esp & ip & cs & fl & mask & h2 & Hf & ->). apply load_flags_inv; [|done].
  apply (inv_same (set_cs_real cs (put_reg R_ESP esp env))); [done..|]. apply cs_real_inv; [by apply (inv_same env)|done].
Qed.

Lemma qat_even_inj env intno is_int err rm : qat (G := G) env (handle_even_inj intno is_int err rm) (fun _ => True).
Proof. intros g. unfold handle_even_inj. destruct (has _ _); [done|]. by destruct (negb rm && exception_has_error_code intno). Qed.

Lemma interrupt_all_keeps env intno is_int err next_eip is_hw :
  seg_inv env -> keeps_inv env (do_interrupt_all intno is_int err next_eip is_hw).
Proof.
  intros Hi. unfold do_interrupt_all. eapply keeps_qbind; [done|apply qat_quiet, on_interrupt_ok|]. intros ? _. apply kspec_get.
  eapply (kspec_bind _ _ _ _ (fun _ => seg_inv)).
  - destruct (has (nth 0 (cr env) 0) CR0_PE_MASK) eqn:Hp.
    all: eapply (keeps_qbind _ _ _ (fun _ => True)); [done| |intros ? _].
    all: try (destruct (has (hflags env) HF_SVMI_MASK); [apply qat_even_inj|by apply qat_ret]).
    + by apply interrupt_keeps.
    + by apply interrupt_real_keeps.
  - intros ? env' H. apply kspec_get. destruct (has _ _); [|by apply kspec_ret]. by intros g.
Qed.

Lemma sysenter_keeps env : seg_inv env -> keeps_inv env (helper_sysenter (G := G)).
Proof.
  intros Hi. eapply kat_keeps; [done|apply helper_sysenter_spec|]. intros ? env' (_ & h & Hh & ->).
  assert (base_ok 0 (with_eflags h env)) as Hb.
  { apply (base_same _ env); [done..|]. pose proof (cpl_range env). eapply base_mono; [|by apply inv_base]. lia. }
  destruct (sys_segs_spec 0 0 (Z.land (sysenter_cs env) 0xfffc) (Z.land (sysenter_cs env + 8) 0xfffc)
    flat_code flat_data _ Hb) as (H1 & H2 & H3 & H4).
  { unfold rpl_of. rewrite <-Z.land_assoc. apply Z.land_0_r. }
  generalize dependent (sys_segs 0 (Z.land (sysenter_cs env) 0xfffc) (Z.land (sysenter_cs env + 8) 0xfffc)
    flat_code flat_data (with_eflags h env)). intros env1 H1 H2 H3 H4.
  apply (inv_same env1); [done..|]. apply base_inv; [by rewrite H2|]. apply level_new; [|by rewrite H2].
  unfold in_vm86. rewrite H4. cbn [eflags with_eflags]. rewrite Hh. by apply (has_cleared _ _ 17).
Qed.

Lemma inspect_keeps env {A} check (val : Z -> Z -> A) none sel :
  seg_inv env -> keeps_inv env (inspect check val none sel).
Proof.
  intros Hi. assert (forall fl ok (a : A), keeps_inv env (set_zf fl ok ;; kret a)) as Hz.
  { intros fl ok a g. cbn. by apply (inv_same env). }
  unfold inspect. apply kspec_get. destruct (null_sel _); [apply Hz|].
  eapply keeps_qbind; [done|apply qat_load_segment|]. intros [[e1 e2]|] _; [|apply Hz]. destruct (check _ _ _); apply Hz.
Qed.

Lemma with_tr_inv l env : seg_inv env -> in_vm86 env = false -> seg_inv (with_tr l env).
Proof.
  intros (H1 & H2 & H3) Hv. split; [done|]. split; [|done]. intros Hp. split; [by apply H2|].
  change (in_vm86 (with_tr l env)) with (in_vm86 env). congruence.
Qed.

Lemma ltr_keeps env sel : seg_inv env -> in_vm86 env = false -> keeps_inv env (helper_ltr sel).
Proof.
  intros Hi Hv. eapply kspec_weaken; [apply helper_ltr_spec| |].
  - intros ? env' (l & -> & _). by apply with_tr_inv.
  - intros env' (l & H). eapply inv_arch; [|exact H]. by apply with_tr_inv.
Qed.

Lemma run_op_keeps op env : seg_inv env -> allowed env op = true -> keeps_inv env (run_op op).
Proof.
  intros Hi Ha.
  destruct op; cbn [run_op allowed] in *; repeat rewrite ?andb_true_iff, ?negb_true_iff, ?orb_true_iff in Ha.
  - destruct Ha as (((_ & _) & Hr%Nat.ltb_lt) & Hcs%Nat.eqb_neq). by apply load_seg_keeps.
  - eapply kat_keeps; [done|apply helper_lldt_spec|]. intros ? env' (l & -> & _). by apply (inv_same env).
  - by apply ltr_keeps; [|apply Ha].
  - by apply ljmp_keeps.
  - by apply lcall_keeps; [|apply Ha].
  - by apply lcall_real_keeps.
  - eapply kat_keeps; [done|apply helper_ret_protected_spec|]. intros ? env' H. exact (returns_inv _ _ _ _ Hi (proj2 Ha) H).
  - by apply iret_keeps; [|apply Ha].
  - by apply iret_real_keeps.
  - by apply interrupt_all_keeps.
  - unfold x86_cpu_do_interrupt. apply kspec_get. eapply kspec_bind; [by apply interrupt_all_keeps|].
    intros ? env' H. apply kspec_mod. by apply (inv_same env').
  - by apply sysenter_keeps.
  - by apply inspect_keeps.
  - by apply inspect_keeps.
Qed.

(** C3: over any sequence of the helpers that load segment registers, jump, call,
    return, deliver interrupts and switch tasks, each called in the modes the
    translator calls it in and whether it returns or raises an exception, the
    state of the segment registers stays coherent: the hidden flags the translator
    relies on agree with the segment registers, the privilege level is that of the
    code segment, and no data segment is more privileged than the level. *)
Theorem segments_coherent env g env' g' :
  seg_inv env -> rtc seg_step (env, g) (env', g') -> seg_inv env'.
Proof.
  intros Hi Hs. change (seg_inv (fst (env', g'))). change (seg_inv (fst (env, g))) in Hi. revert Hi.
  generalize dependent (env, g). generalize (env', g'). intros s' s Hs.
  induction Hs as [s|s1 s2 s3 Hstep _ IH]; [done|]. intros Hi. apply IH.
  destruct Hstep as [op e1 g1 e2 g2 Ha Hr|op e1 g1 e2 g2 Ha Hr]; cbn [fst] in *;
    pose proof (run_op_keeps op e1 Hi Ha g1) as Hk; by rewrite Hr in Hk.
Qed.

(** ** Precise exceptions *)

Definition precise (env : CPUX86State) {A} (m : K G A) : Prop :=
  kspec env m (fun _ _ => True) (unchanged_or_entered env).

Lemma kat_precise env {A} (m : K G A) (Q : A -> CPUX86State -> Prop) : kat env m Q -> precise env m.
Proof. intros H. eapply kspec_weaken; [exact H|done|]. intros env' He. by left. Qed.

Lemma precise_qbind env {A B} (m : K G A) (k : A -> K G B) (Q : A -> Prop) :
  qat env m Q -> (forall a, Q a -> precise env (k a)) -> precise env (kbind m k).
Proof. apply kspec_qbind. intros env' He. by left. Qed.

Lemma precise_check env b index err {B} (k : unit -> K G B) :
  (b = false -> precise env (k tt)) -> precise env (kbind (raise_if b index err) k).
Proof. apply kspec_check. intros env' He. by left. Qed.

Lemma precise_raise env {A} index err : precise env (raise (A := A) index err).
Proof. apply kspec_q; [intros env' He; by left|]. apply qat_raise. Qed.

Lemma precise_switch env sel e1 e2 source next_eip {B} (k : unit -> K G B) :
  hidden_ok env -> (forall env', entered env' -> kspec env' (k tt) (fun _ _ => True) entered) ->
  precise env (kbind (switch_tss sel e1 e2 source next_eip) k).
Proof.
  intros Hh Hk. eapply kspec_bind; [by apply switch_tss_spec|]. intros [] env' He.
  eapply kspec_weaken; [by apply Hk|done|]. intros env'' H. by right.
Qed.

Lemma precise_transfer env cs e1 e2 source next_eip :
  hidden_ok env -> precise env (task_transfer cs (cpl_of env) e1 e2 source next_eip).
Proof. intros Hh. unfold task_transfer. apply precise_check. intros _. apply precise_switch; [done|]. intros env' _. by apply kspec_mod. Qed.

Lemma ljmp_precise env cs ip addend : hidden_ok env -> precise env (helper_ljmp_protected cs ip addend).
Proof.
  intros Hh. unfold helper_ljmp_protected. apply precise_check. intros _.
  eapply precise_qbind; [apply qat_need_segment|]. intros [e1 e2] Hd. apply kspec_get. destruct (has e2 _).
  - eapply precise_qbind; [apply qat_check_code|]. intros ? _. apply precise_check. intros _. by apply kspec_mod.
  - destruct (one_of [1; 9; 5] _); [by apply precise_transfer|].
    destruct (one_of [4; 12] _); [|apply precise_raise]. eapply kat_precise, jump_gate_spec.
Qed.

Lemma lcall_precise env cs ip wide addend : hidden_ok env -> precise env (helper_lcall_protected cs ip wide addend).
Proof.
  intros Hh. unfold helper_lcall_protected. apply kspec_get. apply precise_check. intros _.
  eapply precise_qbind; [apply qat_need_segment|]. intros [e1 e2] Hd. destruct (has e2 _).
  - by eapply kat_precise, call_code_spec.
  - destruct (one_of [1; 9; 5] _); [by apply precise_transfer|].
    destruct (one_of [4; 12] _); [|apply precise_raise]. eapply kat_precise, call_gate_spec.
Qed.

Lemma iret_precise env wide next_eip : hidden_ok env -> precise env (helper_iret_protected wide next_eip).
Proof.
  intros Hh. unfold helper_iret_protected. apply kspec_get. eapply (kspec_bind _ _ _ _ (fun _ _ => True)).
  - destruct (has _ NT_MASK).
    + eapply precise_qbind; [apply qat_lduw|]. intros sel _. apply precise_check. intros _.
      eapply precise_qbind; [apply qat_need_segment|]. intros [e1 e2] _. apply precise_check. intros _.
      eapply kspec_weaken; [by apply switch_tss_spec|done|done].
    + eapply kat_precise, helper_ret_protected_spec.
  - intros ? env1 _. eapply kspec_bind; [by apply kspec_mod with (Q := fun _ _ => True)|]. intros ? env2 _.
    eapply kspec_weaken; [apply on_iret_ok|done|done].
Qed.

Lemma interrupt_precise env intno is_int err next_eip is_hw :
  hidden_ok env -> precise env (do_interrupt_protected intno is_int err next_eip is_hw).
Proof.
  intros Hh. unfold do_interrupt_protected. apply kspec_get. apply precise_check. intros _.
  eapply precise_qbind; [apply qat_ldl|]. intros e1 _. eapply precise_qbind; [apply qat_ldl|]. intros e2 _.
  destruct (_ =? 5).
  - apply precise_check. intros _. apply precise_switch; [done|]. intros env' He.
    destruct (if negb is_int && _ then _ else _); [|by apply kspec_ret].
    eapply kspec_weaken; [by apply push_task_error_spec|done|done].
  - destruct (one_of _ _); [|apply precise_raise]. eapply kat_precise, interrupt_gate_spec.
Qed.

Lemma interrupt_all_precise env intno is_int err next_eip is_hw :
  hidden_ok env -> precise env (do_interrupt_all intno is_int err next_eip is_hw).
Proof.
  intros Hh. unfold do_interrupt_all. eapply precise_qbind; [apply qat_quiet, on_interrupt_ok|]. intros ? _. apply kspec_get.
  eapply (kspec_bind _ _ _ _ (fun _ _ => True)).
  - destruct (has (nth 0 (cr env) 0) CR0_PE_MASK).
    all: eapply (precise_qbind _ _ _ (fun _ => True)); [|intros ? _].
    all: try (destruct (has (hflags env) HF_SVMI_MASK); [apply qat_even_inj|by apply qat_ret]).
    + by apply interrupt_precise.
    + eapply kat_precise, do_interrupt_real_spec.
  - intros ? env' _. apply kspec_get. destruct (has _ _); [|by apply kspec_ret]. by intros g.
Qed.

Lemma inspect_precise env {A} check (val : Z -> Z -> A) none sel : precise env (inspect check val none sel).
Proof.
  unfold inspect. apply kspec_get. destruct (null_sel _); [by intros g|].
  eapply precise_qbind; [apply qat_load_segment|]. intros [[e1 e2]|] _; [|by intros g]. by destruct (check _ _ _); intros g.
Qed.

Lemma run_op_precise op env : hidden_ok env -> (forall sel, op <> OpLtr sel) -> precise env (run_op op).
Proof.
  intros Hh Hop. destruct op; cbn [run_op].
  - eapply kat_precise, helper_load_seg_spec.
  - eapply kat_precise, helper_lldt_spec.
  - by destruct (Hop sel).
  - by apply ljmp_precise.
  - by apply lcall_precise.
  - eapply kat_precise, helper_lcall_real_spec.
  - eapply kat_precise, helper_ret_protected_spec.
  - by apply iret_precise.
  - eapply kat_precise, helper_iret_real_spec.
  - by apply interrupt_all_precise.
  - unfold x86_cpu_do_interrupt. apply kspec_get. eapply kspec_bind; [by apply interrupt_all_precise|].
    intros ? env' _. by apply kspec_mod.
  - eapply kat_precise, helper_sysenter_spec.
  - apply inspect_precise.
  - apply inspect_precise.
Qed.

(** C26: exceptions of the segmentation helpers are precise. When any of them but the
    load of the task register raises an exception, the CPU is as it was before the
    instruction, up to the pending exception and [cr2], or a task switch got as
    far as the new task, whose state is coherent and marked by [TS]. *)
Theorem precise_exceptions op env g env' g' :
  seg_inv env -> (forall sel, op <> OpLtr sel) -> run_op op env g = KExit env' g' ->
  same_arch env env' \/ (seg_inv env' /\ ts_flag env' = true).
Proof. intros Hi Hop Hr. pose proof (run_op_precise op env (proj1 Hi) Hop g) as H. by rewrite Hr in H. Qed.
End Theorems.

(** ** On the machine of file SegDemo, under the tracer *)

Definition traced : Type := phys * tracer rb_state (Z -> Z).
Definition traced0 : traced := (demo_mem, demo0).

(** A system call, the return from it, and an interrupt without a gate. *)
Definition op_syscall : seg_op := OpInterrupt 0x80 true 0 0x6002 false.
Definition op_iret : seg_op := OpIret true 0.
Definition op_bad : seg_op := OpInterrupt 3 true 0 0x6002 false.

Definition after (op : seg_op) (s : CPUX86State * traced) : CPUX86State * traced :=
  left_by (run_op op (fst s) (snd s)) (fst s) (snd s).
Definition at_user : CPUX86State * traced := (user_cpu, traced0).
Definition at_kernel : CPUX86State * traced := after op_syscall at_user.
Definition back : CPUX86State * traced := after op_iret at_kernel.

Lemma step_left op s :
  allowed (fst s) op = true -> returns_ok (run_op op (fst s) (snd s)) = true -> seg_step s (after op s).
Proof.
  intros Ha Hr. unfold after. destruct s as [env g]. cbn [fst snd] in *.
  pose proof (returns_to _ env g Hr) as H. destruct (left_by _ _ _). by eapply step_return.
Qed.

Lemma demo_steps : rtc seg_step (user_cpu, traced0) (fst back, snd back).
Proof.
  rewrite <-surjective_pairing. change (rtc seg_step at_user back).
  transitivity at_kernel; apply rtc_once; [apply (step_left op_syscall at_user)|apply (step_left op_iret at_kernel)];
    by vm_compute.
Qed.

Lemma segments_coherent_witness : seg_inv user_cpu /\ cpl_of (fst at_kernel) = 0 /\ seg_inv (fst back).
Proof.
  split; [apply user_cpu_inv|]. split; [by vm_compute|].
  exact (segments_coherent user_cpu traced0 (fst back) (snd back) user_cpu_inv demo_steps).
Defined.

Lemma bad_exits :
  run_op op_bad user_cpu traced0 = KExit (fst (after op_bad at_user)) (snd (after op_bad at_user)).
Proof. apply (exits_to _ user_cpu traced0). by vm_compute. Qed.

Lemma precise_exceptions_witness :
  exception_index (fst (after op_bad at_user)) = EXCP0D_GPF /\
  (same_arch user_cpu (fst (after op_bad at_user)) \/
   (seg_inv (fst (after op_bad at_user)) /\ ts_flag (fst (after op_bad at_user)) = true)).
Proof.
  split; [by vm_compute|]. exact (precise_exceptions op_bad user_cpu traced0 _ _ user_cpu_inv (fun sel H => ltac:(discriminate H)) bad_exits).
Defined.
