(* ===== verification/Tlb.v ===== *)
(** * The TLB

    cputlb.c: the table that caches translations of virtual pages, direct-mapped
    and without large pages, with the parts of exec.c (watchpoints, kinds of
    memory) and translate-all.c (the cache of translated blocks) it uses. *)

From stdpp Require Import base gmap list.
From Stdlib Require Import ZArith Lia.
From S2P Require Import Prelude Cpu Guest Mmu.

Local Open Scope Z_scope.

(** ** The tables *)

Definition CPU_TLB_SIZE : Z := 256.
Definition NB_MMU_MODES : Z := 3.
Definition TLB_INVALID_MASK : Z := 0x8.
Definition TLB_NOTDIRTY : Z := 0x10.
Definition TLB_MMIO : Z := 0x20.
Definition BP_MEM_READ : Z := 0x01.
Definition PHYS_SECTION_NOTDIRTY : Z := 1.
Definition PHYS_SECTION_ROM : Z := 2.
Definition PHYS_SECTION_WATCH : Z := 3.

Record CPUTLBEntry : Type := mkTE { addr_read : Z; addr_write : Z; addr_code : Z; addend : Z }.

Definition s_cputlb_empty_entry : CPUTLBEntry := mkTE (u32 (-1)) (u32 (-1)) (u32 (-1)) (u64 (-1)).

(** A translated block, as far as the cache is concerned: where it starts. *)
Record TranslationBlock : Type := mkTB { tb_pc : Z }.

(** [tlb_table] and [iotlb] are indexed by MMU mode and row: an element never
    written since the last flush is the empty entry. A block absent from
    [tb_jmp_cache] is a null pointer. *)
Record tlb : Type := mkTlbState {
  tlb_table : gmap (Z * Z) CPUTLBEntry;
  iotlb : gmap (Z * Z) Z;
  tlb_flush_addr : Z;
  tlb_flush_mask : Z;
  tb_jmp_cache : gmap Z TranslationBlock;
  tlb_flush_count : Z
}.

Definition with_table (v : gmap (Z * Z) CPUTLBEntry) (t : tlb) : tlb :=
  mkTlbState v (iotlb t) (tlb_flush_addr t) (tlb_flush_mask t) (tb_jmp_cache t) (tlb_flush_count t).
Definition with_region (a m : Z) (t : tlb) : tlb :=
  mkTlbState (tlb_table t) (iotlb t) a m (tb_jmp_cache t) (tlb_flush_count t).
Definition with_iotlb (v : gmap (Z * Z) Z) (t : tlb) : tlb :=
  mkTlbState (tlb_table t) v (tlb_flush_addr t) (tlb_flush_mask t) (tb_jmp_cache t) (tlb_flush_count t).
Definition with_jmp_cache (v : gmap Z TranslationBlock) (t : tlb) : tlb :=
  mkTlbState (tlb_table t) (iotlb t) (tlb_flush_addr t) (tlb_flush_mask t) v (tlb_flush_count t).

Definition tlb_index (addr : Z) : Z := Z.land (Z.shiftr addr TARGET_PAGE_BITS) (CPU_TLB_SIZE - 1).
Definition te_at (t : tlb) (mmu_idx index : Z) : CPUTLBEntry :=
  default s_cputlb_empty_entry (tlb_table t !! (mmu_idx, index)).
Definition iotlb_at (t : tlb) (mmu_idx index : Z) : Z := default 0 (iotlb t !! (mmu_idx, index)).

(** [for (mmu_idx = 0; mmu_idx < NB_MMU_MODES; mmu_idx++)] on one row *)
Definition on_row (index : Z) (f : CPUTLBEntry -> CPUTLBEntry) (t : tlb) : tlb :=
  foldl (fun t mmu_idx => with_table (<[(mmu_idx, index) := f (te_at t mmu_idx index)]> (tlb_table t)) t)
    t [0; 1; 2].

(** ** Blocks by virtual address (include/exec/exec-all.h, translate-all.c) *)

Definition TB_JMP_PAGE_BITS : Z := 6.
Definition TB_JMP_PAGE_SIZE : Z := 64.
Definition TB_JMP_ADDR_MASK : Z := 63.
Definition TB_JMP_PAGE_MASK : Z := 4096 - 64.

Definition tb_jmp_cache_hash_page (pc : Z) : Z :=
  let tmp := Z.lxor pc (Z.shiftr pc (TARGET_PAGE_BITS - TB_JMP_PAGE_BITS)) in
  Z.land (Z.shiftr tmp (TARGET_PAGE_BITS - TB_JMP_PAGE_BITS)) TB_JMP_PAGE_MASK.
Definition tb_jmp_cache_hash_func (pc : Z) : Z :=
  let tmp := Z.lxor pc (Z.shiftr pc (TARGET_PAGE_BITS - TB_JMP_PAGE_BITS)) in
  Z.lor (Z.land (Z.shiftr tmp (TARGET_PAGE_BITS - TB_JMP_PAGE_BITS)) TB_JMP_PAGE_MASK) (Z.land tmp TB_JMP_ADDR_MASK).

(** The pointers of one page of the cache, set to null. *)
Definition clear_blocks (i : Z) (c : gmap Z TranslationBlock) : gmap Z TranslationBlock :=
  filter (fun kv => ~ (i <= kv.1 < i + TB_JMP_PAGE_SIZE)) c.

Definition tb_flush_jmp_cache (addr : Z) (t : tlb) : tlb :=
  let c := clear_blocks (tb_jmp_cache_hash_page (u32 (addr - TARGET_PAGE_SIZE))) (tb_jmp_cache t) in
  with_jmp_cache (clear_blocks (tb_jmp_cache_hash_page addr) c) t.

(** ** Flushing *)

Definition tlb_flush_all (t : tlb) : tlb :=
  mkTlbState ∅ (iotlb t) (u32 (-1)) 0 ∅ (tlb_flush_count t + 1).

Definition PAGE_OR_INVALID : Z := Z.lor TARGET_PAGE_MASK TLB_INVALID_MASK.

Definition tlb_flush_entry (addr : Z) (e : CPUTLBEntry) : CPUTLBEntry :=
  if (addr =? Z.land (addr_read e) PAGE_OR_INVALID) || (addr =? Z.land (addr_write e) PAGE_OR_INVALID) ||
     (addr =? Z.land (addr_code e) PAGE_OR_INVALID)
  then s_cputlb_empty_entry else e.

Definition tlb_flush_page (addr : Z) (t : tlb) : tlb :=
  if Z.land addr (tlb_flush_mask t) =? tlb_flush_addr t then tlb_flush_all t
  else
    let addr := Z.land addr TARGET_PAGE_MASK in
    tb_flush_jmp_cache addr (on_row (tlb_index addr) (tlb_flush_entry addr) t).

(** ** Dirty pages *)

Definition tlb_is_dirty_ram (e : CPUTLBEntry) : bool :=
  Z.land (addr_write e) (Z.lor (Z.lor TLB_INVALID_MASK TLB_MMIO) TLB_NOTDIRTY) =? 0.

Definition with_addr_write (v : Z) (e : CPUTLBEntry) : CPUTLBEntry :=
  mkTE (addr_read e) v (addr_code e) (addend e).

Definition tlb_reset_dirty_range (start length : Z) (e : CPUTLBEntry) : CPUTLBEntry :=
  if tlb_is_dirty_ram e then
    let addr := u64 (Z.land (addr_write e) TARGET_PAGE_MASK + addend e) in
    if u64 (addr - start) <? length then with_addr_write (Z.lor (addr_write e) TLB_NOTDIRTY) e else e
  else e.

(** One CPU. *)
Definition cpu_tlb_reset_dirty_all (start1 length : Z) (t : tlb) : tlb :=
  with_table (tlb_reset_dirty_range start1 length <$> tlb_table t) t.

Definition tlb_set_dirty1 (vaddr : Z) (e : CPUTLBEntry) : CPUTLBEntry :=
  if addr_write e =? Z.lor vaddr TLB_NOTDIRTY then with_addr_write vaddr e else e.

Definition tlb_set_dirty (vaddr : Z) (t : tlb) : tlb :=
  let vaddr := Z.land vaddr TARGET_PAGE_MASK in
  on_row (tlb_index vaddr) (tlb_set_dirty1 vaddr) t.

(** ** Large pages *)

(** [while (((env->tlb_flush_addr ^ vaddr) & mask) != 0) mask <<= 1;] *)
Fixpoint widen (fuel : nat) (x mask : Z) : option Z :=
  match fuel with
  | O => None
  | S fuel' => if Z.land x mask =? 0 then Some mask else widen fuel' x (u32 (Z.shiftl mask 1))
  end.

(** A mask of 32 bits is 0 after 32 shifts. *)
Definition tlb_add_large_page (vaddr size : Z) (t : tlb) : option tlb :=
  let mask := u32 (Z.lnot (size - 1)) in
  if tlb_flush_addr t =? u32 (-1) then Some (with_region (Z.land vaddr mask) mask t)
  else
    match widen 33 (Z.lxor (tlb_flush_addr t) vaddr) (Z.land mask (tlb_flush_mask t)) with
    | Some mask => Some (with_region (Z.land (tlb_flush_addr t) mask) mask t)
    | None => None
    end.

(** ** Adding a page *)

(** The memory behind a physical page ([MemoryRegionSection] with [xlat] and the
    length [sz] of [address_space_translate_for_iotlb]). *)
Record section : Type := mkSection {
  is_ram : bool; is_romd : bool; is_readonly : bool;
  ram_ptr : Z; ram_addr : Z; section_number : Z; xlat : Z; sz : Z
}.

(** The value and whether the accesses must go through the watchpoint routines. *)
Definition memory_region_section_get_iotlb (wps : list CPUWatchpoint) (s : section) (vaddr paddr prot : Z) : Z * bool :=
  let iotlb :=
    if is_ram s
    then Z.lor (Z.land (ram_addr s) TARGET_PAGE_MASK + xlat s)
           (if negb (is_readonly s) then PHYS_SECTION_NOTDIRTY else PHYS_SECTION_ROM)
    else section_number s + xlat s in
  if existsb (fun wp => (vaddr =? Z.land (wp_vaddr wp) TARGET_PAGE_MASK) &&
                        (has prot PAGE_WRITE || has (wp_flags wp) BP_MEM_READ)) wps
  then (PHYS_SECTION_WATCH + paddr, true) else (iotlb, false).

(** [dirty] is [ram_list.phys_dirty], by page. [None] is a failed assertion. *)
Definition cpu_physical_memory_is_dirty (dirty : Z -> Z) (addr : Z) : bool :=
  dirty (Z.shiftr addr TARGET_PAGE_BITS) =? 0xff.

Definition tlb_set_page (wps : list CPUWatchpoint) (dirty : Z -> Z) (s : section) (e : tlb_entry) (t : tlb) : option tlb :=
  let '(mkTlb vaddr paddr prot mmu_idx size) := e in
  if size <? TARGET_PAGE_SIZE then None
  else
    match (if negb (size =? TARGET_PAGE_SIZE) then tlb_add_large_page vaddr size t else Some t) with
    | None => None
    | Some t =>
        if sz s <? TARGET_PAGE_SIZE then None
        else
          let io := negb (is_ram s) && negb (is_romd s) in
          let address := if io then Z.lor vaddr TLB_MMIO else vaddr in
          let host := if io then 0 else ram_ptr s + xlat s in
          let code_address := address in
          let '(iotlb_v, watch) := memory_region_section_get_iotlb wps s vaddr paddr prot in
          let address := if watch then Z.lor address TLB_MMIO else address in
          let index := tlb_index vaddr in
          let t := with_iotlb (<[(mmu_idx, index) := u64 (iotlb_v - vaddr)]> (iotlb t)) t in
          let invalid := u32 (-1) in
          let te := mkTE
            (if has prot PAGE_READ then address else invalid)
            (if has prot PAGE_WRITE then
               if (is_ram s && is_readonly s) || is_romd s then Z.lor address TLB_MMIO
               else if is_ram s && negb (cpu_physical_memory_is_dirty dirty (ram_addr s + xlat s))
               then Z.lor address TLB_NOTDIRTY else address
             else invalid)
            (if has prot PAGE_EXEC then code_address else invalid)
            (u64 (host - vaddr)) in
          Some (with_table (<[(mmu_idx, index) := te]> (tlb_table t)) t)
    end.
