(* ===== verification/TlbInv.v ===== *)
(** * What the TLB promises

    A translation the TLB returns is one that was entered for this page and has
    not been invalidated since, large pages included. *)

From stdpp Require Import base gmap list.
From Stdlib Require Import ZArith Lia.
From S2P Require Import Prelude Cpu CcHelper Guest Mmu MmuWalk Tlb.

Local Open Scope Z_scope.

(** ** Masks *)

Lemma wrap_bits w x i : 0 <= w -> 0 <= i -> Z.testbit (wrap w x) i = (i <? w) && Z.testbit x i.
Proof.
  intros Hw Hi. unfold wrap. destruct (Z.ltb_spec i w).
  - by rewrite Z.mod_pow2_bits_low.
  - by rewrite Z.mod_pow2_bits_high by lia.
Qed.

(** The [32 - k] high bits of a word. *)
Definition hi (k : Z) : Z := 2 ^ 32 - 2 ^ k.

Lemma hi_bits k i : 0 <= k <= 32 -> 0 <= i -> Z.testbit (hi k) i = (k <=? i) && (i <? 32).
Proof.
  intros Hk Hi. assert (hi k = Z.shiftl (Z.ones (32 - k)) k) as ->.
  { unfold hi. rewrite Z.shiftl_mul_pow2, Z.ones_equiv by lia.
    replace (2 ^ 32) with (2 ^ (32 - k) * 2 ^ k) by (rewrite <-Z.pow_add_r by lia; f_equal; lia). lia. }
  rewrite Z.shiftl_spec, Z.testbit_ones by lia. zcase; lia || done.
Qed.

Lemma hi_land j k : 0 <= j <= 32 -> 0 <= k <= 32 -> Z.land (hi j) (hi k) = hi (Z.max j k).
Proof.
  intros Hj Hk. apply Z.bits_inj'. intros i Hi. rewrite Z.land_spec, !hi_bits by lia. zcase; lia || done.
Qed.

Lemma hi_shift k : 0 <= k < 32 -> u32 (Z.shiftl (hi k) 1) = hi (k + 1).
Proof.
  intros Hk. apply Z.bits_inj'. intros i Hi. unfold u32. rewrite wrap_bits by lia.
  rewrite Z.shiftl_spec by lia. rewrite (hi_bits (k + 1)) by lia. destruct (Z.eq_dec i 0) as [->|].
  - rewrite Z.testbit_neg_r by lia. zcase; lia || done.
  - rewrite hi_bits by lia. zcase; lia || done.
Qed.

Lemma hi_size k : 0 <= k <= 32 -> u32 (Z.lnot (2 ^ k - 1)) = hi k.
Proof.
  intros Hk. apply Z.bits_inj'. intros i Hi. unfold u32. rewrite wrap_bits by lia.
  replace (2 ^ k - 1) with (Z.ones k) by (rewrite Z.ones_equiv; lia).
  rewrite Z.lnot_spec, Z.testbit_ones, hi_bits by lia. zcase; lia || done.
Qed.

(** The loop widens the region until it covers both pages, at last to everything. *)
Lemma widen_spec x k n :
  0 <= k <= 32 -> 32 - k < Z.of_nat n ->
  exists k', k <= k' <= 32 /\ widen n x (hi k) = Some (hi k') /\ Z.land x (hi k') = 0.
Proof.
  revert k. induction n as [|n IH]; intros k Hk Hn; [lia|]. cbn [widen].
  destruct (Z.eqb_spec (Z.land x (hi k)) 0) as [E|E]; [by exists k; split_and!; [lia..| |]|].
  destruct (Z.eq_dec k 32) as [->|]; [by rewrite Z.land_0_r in E|].
  rewrite hi_shift by lia. destruct (IH (k + 1)) as (k' & Hk' & H); [lia..|]. exists k'. split; [lia|done].
Qed.

(** ** Pages entered *)

(** What the MMU enters: a page of a power-of-two size. *)
Record fill_ok (e : tlb_entry) : Prop := {
  fo_vaddr : t_vaddr e = page_of (t_vaddr e);
  fo_range : in_range 32 (t_vaddr e);
  fo_idx : 0 <= t_idx e < NB_MMU_MODES;
  fo_size : exists k, t_size e = 2 ^ k /\ 12 <= k <= 32
}.

(** [a] is in the page, of any size, that [e] belongs to. *)
Definition covers (e : tlb_entry) (a : Z) : Prop :=
  Z.land a (u32 (Z.lnot (t_size e - 1))) = Z.land (t_vaddr e) (u32 (Z.lnot (t_size e - 1))).
#[export] Instance covers_dec e a : Decision (covers e a).
Proof. unfold covers. apply _. Defined.

Definition same_slot (idx page : Z) (e : tlb_entry) : Prop := t_idx e = idx /\ t_vaddr e = page.
#[export] Instance same_slot_dec idx page e : Decision (same_slot idx page e).
Proof. unfold same_slot. apply _. Defined.

(** ** The specification: the pages entered and not invalidated *)

Inductive tlb_op : Type :=
| TFill (wps : list CPUWatchpoint) (dirty : Z -> Z) (e : tlb_entry)
| TFlush
| TFlushPage (a : Z)
| TResetDirty (start length : Z)
| TSetDirty (a : Z).

Definition spec_op (live : list tlb_entry) (op : tlb_op) : list tlb_entry :=
  match op with
  | TFill _ _ e => e :: filter (fun e' => ~ same_slot (t_idx e) (t_vaddr e) e') live
  | TFlush => []
  | TFlushPage a => filter (fun e => ~ covers e a) live
  | TResetDirty _ _ | TSetDirty _ => live
  end.

Definition op_ok (op : tlb_op) : Prop :=
  match op with TFill _ _ e => fill_ok e | TFlushPage a | TSetDirty a => in_range 32 a | _ => True end.

(** The page entered last for a mode and a page. *)
Definition current (live : list tlb_entry) (idx page : Z) : option tlb_entry :=
  head (filter (same_slot idx page) live).

Section Refine.
(** The memory behind each physical page. *)
Context (sec : Z -> section) (Hsec : forall paddr, TARGET_PAGE_SIZE <= sz (sec paddr)).

Definition run_op (op : tlb_op) (t : tlb) : option tlb :=
  match op with
  | TFill wps dirty e => tlb_set_page wps dirty (sec (t_paddr e)) e t
  | TFlush => Some (tlb_flush_all t)
  | TFlushPage a => Some (tlb_flush_page a t)
  | TResetDirty start length => Some (cpu_tlb_reset_dirty_all start length t)
  | TSetDirty a => Some (tlb_set_dirty a t)
  end.

Fixpoint run_ops (ops : list tlb_op) (t : tlb) : option tlb :=
  match ops with
  | [] => Some t
  | op :: ops' => match run_op op t with Some t' => run_ops ops' t' | None => None end
  end.

(** ** Rows of the table *)

Definition INVALID : Z := u32 (-1).

(** A field of a row names page [v] only if the access is allowed. *)
Definition names (v prot access x : Z) : Prop :=
  x = INVALID \/ (Z.land x PAGE_OR_INVALID = v /\ has prot access = true).

Definition host_of (s : section) : Z := if negb (is_ram s) && negb (is_romd s) then 0 else ram_ptr s + xlat s.

Record caches (te : CPUTLBEntry) (e : tlb_entry) : Prop := {
  c_read : names (t_vaddr e) (t_prot e) PAGE_READ (addr_read te);
  c_write : names (t_vaddr e) (t_prot e) PAGE_WRITE (addr_write te);
  c_code : names (t_vaddr e) (t_prot e) PAGE_EXEC (addr_code te);
  c_addend : addend te = u64 (host_of (sec (t_paddr e)) - t_vaddr e)
}.

(** Addresses in a large page lead to a full flush. *)
Definition in_region (t : tlb) (e : tlb_entry) : Prop :=
  t_size e <> TARGET_PAGE_SIZE -> forall a, in_range 32 a -> covers e a -> Z.land a (tlb_flush_mask t) = tlb_flush_addr t.

Definition region_ok (t : tlb) : Prop :=
  (tlb_flush_addr t = INVALID /\ tlb_flush_mask t = 0) \/
  exists k, 12 <= k <= 32 /\ tlb_flush_mask t = hi k /\ Z.land (tlb_flush_addr t) (hi k) = tlb_flush_addr t /\
    in_range 32 (tlb_flush_addr t).

(** No access matches the row. *)
Definition dead (te : CPUTLBEntry) : Prop :=
  addr_read te = INVALID /\ addr_write te = INVALID /\ addr_code te = INVALID.
#[export] Instance dead_dec te : Decision (dead te).
Proof. unfold dead. apply _. Defined.

Definition slot_ok (t : tlb) (live : list tlb_entry) (idx i : Z) : Prop :=
  dead (te_at t idx i) \/
  exists e, e ∈ live /\ fill_ok e /\ t_idx e = idx /\ tlb_index (t_vaddr e) = i /\ caches (te_at t idx i) e /\ in_region t e.

Record refines (t : tlb) (live : list tlb_entry) : Prop := {
  r_slots : forall idx i, slot_ok t live idx i;
  r_region : region_ok t
}.

(** Reading a row after writing one. *)
Lemma te_at_insert t idx i te idx' i' :
  te_at (with_table (<[(idx, i) := te]> (tlb_table t)) t) idx' i' =
  if decide (idx' = idx /\ i' = i) then te else te_at t idx' i'.
Proof.
  unfold te_at. cbn [tlb_table with_table]. destruct (decide _) as [[-> ->]|Hn].
  - by rewrite lookup_insert_eq.
  - rewrite lookup_insert_ne; [done|]. intros [= -> ->]. by apply Hn.
Qed.

Lemma te_at_on_row i f t idx j :
  te_at (on_row i f t) idx j =
  if decide (j = i /\ 0 <= idx < NB_MMU_MODES) then f (te_at t idx j) else te_at t idx j.
Proof.
  unfold on_row. cbn [foldl]. rewrite !te_at_insert. unfold NB_MMU_MODES.
  repeat case_decide; try lia; destruct_and?; subst; try done; lia || (exfalso; lia).
Qed.

(** ** Pages and tags *)

Lemma tag_page x fl : x = page_of x -> Z.land fl PAGE_OR_INVALID = 0 -> Z.land (Z.lor x fl) PAGE_OR_INVALID = x.
Proof.
  intros Hx Hf. rewrite Z.land_lor_distr_l, Hf, Z.lor_0_r. apply Z.bits_inj'. intros i Hi.
  rewrite Hx, Z.land_spec, page_of_bits by done. unfold PAGE_OR_INVALID, TARGET_PAGE_MASK.
  rewrite Z.lor_spec, Z.lnot_spec by done. change (TARGET_PAGE_SIZE - 1) with (Z.ones 12).
  rewrite Z.testbit_ones by done. zcase; try lia; cbn [andb negb orb]; by rewrite ?andb_true_r.
Qed.

Lemma page_not_invalid x fl : x = page_of x -> Z.testbit fl 0 = false -> Z.lor x fl <> INVALID.
Proof.
  intros Hx Hf E. apply (f_equal (fun z => Z.testbit z 0)) in E.
  rewrite Z.lor_spec, Hx, page_of_bits, Hf in E by done. discriminate E.
Qed.

Lemma names_page v prot access x : v = page_of v -> names v prot access x -> x <> INVALID -> Z.land x PAGE_OR_INVALID = v.
Proof. intros Hv [->|[H _]] Hx; done. Qed.

Lemma tlb_index_page a : tlb_index (page_of a) = tlb_index a.
Proof. unfold tlb_index. by apply index_page. Qed.

Lemma covers_small e a : t_size e = TARGET_PAGE_SIZE -> fill_ok e -> in_range 32 a -> covers e a -> page_of a = t_vaddr e.
Proof.
  intros Hs [Hv Hr _ _] Ha Hc. unfold covers in Hc. rewrite Hs in Hc.
  change (u32 (Z.lnot (TARGET_PAGE_SIZE - 1))) with (hi 12) in Hc.
  assert (forall x, in_range 32 x -> Z.land x (hi 12) = page_of x) as Hp.
  { intros x Hx. apply Z.bits_inj'. intros i Hi. rewrite Z.land_spec, hi_bits, page_of_bits by lia.
    destruct (Z.ltb_spec i 32); [by rewrite andb_true_r, andb_comm|].
    rewrite (Z.bits_above_log2 x i); [by rewrite andb_false_r| lia|].
    destruct (Z.eq_dec x 0) as [->|]; [cbn; lia|]. pose proof (Z.log2_lt_pow2 x 32). lia. }
  rewrite !Hp in Hc by done. by rewrite Hc, <-Hv.
Qed.

(** ** Each operation refines its specification *)

Lemma empty_dead : dead s_cputlb_empty_entry.
Proof. done. Qed.

Lemma refines_flush t live : refines (tlb_flush_all t) live.
Proof. split; [intros idx i; left; unfold te_at; cbn; by rewrite lookup_empty|by left]. Qed.

Lemma flush_entry_cases addr te : tlb_flush_entry addr te = s_cputlb_empty_entry \/
  (tlb_flush_entry addr te = te /\
   addr <> Z.land (addr_read te) PAGE_OR_INVALID /\ addr <> Z.land (addr_write te) PAGE_OR_INVALID /\
   addr <> Z.land (addr_code te) PAGE_OR_INVALID).
Proof. unfold tlb_flush_entry. zcase; auto. Qed.

(** A row that is not dead names its page. *)
Lemma caches_page te e : fill_ok e -> caches te e -> ~ dead te ->
  t_vaddr e = Z.land (addr_read te) PAGE_OR_INVALID \/ t_vaddr e = Z.land (addr_write te) PAGE_OR_INVALID \/
  t_vaddr e = Z.land (addr_code te) PAGE_OR_INVALID.
Proof.
  intros He [Hr Hw Hc _] Hd. destruct He as [Hv _ _ _].
  destruct (decide (addr_read te = INVALID)) as [E1|E1]; [|left; by rewrite (names_page _ _ _ _ Hv Hr E1)].
  destruct (decide (addr_write te = INVALID)) as [E2|E2]; [|right; left; by rewrite (names_page _ _ _ _ Hv Hw E2)].
  destruct (decide (addr_code te = INVALID)) as [E3|E3]; [|right; right; by rewrite (names_page _ _ _ _ Hv Hc E3)].
  by destruct Hd.
Qed.

Lemma refines_flush_page t live a :
  in_range 32 a -> refines t live -> refines (tlb_flush_page a t) (spec_op live (TFlushPage a)).
Proof.
  intros Ha [Hs Hr]. unfold tlb_flush_page.
  destruct (Z.eqb_spec (Z.land a (tlb_flush_mask t)) (tlb_flush_addr t)) as [E|E]; [apply refines_flush|].
  rewrite page_mask_of. split; [|exact Hr]. intros idx i. unfold slot_ok.
  change (te_at (tb_flush_jmp_cache _ ?t) idx i) with (te_at t idx i). rewrite te_at_on_row.
  set (te := te_at t idx i). destruct (decide (dead (if decide (i = tlb_index (page_of a) /\ 0 <= idx < NB_MMU_MODES)
    then tlb_flush_entry (page_of a) te else te))) as [Hd|Hd]; [by left|right].
  destruct (Hs idx i) as [Hd'|(e & Hin & Hok & Hi & Hidx & Hc & Hreg)]; [fold te in Hd'|fold te in Hc].
  { exfalso. apply Hd. case_decide; [|done]. by destruct (flush_entry_cases (page_of a) te) as [->|[-> _]]. }
  exists e. split; [|split_and!; try done].
  - apply list_elem_of_filter. split; [|done]. intros Hcov.
    destruct (decide (t_size e = TARGET_PAGE_SIZE)) as [Hsz|Hsz]; [|by apply E, Hreg].
    pose proof (covers_small e a Hsz Hok Ha Hcov) as Hp. rewrite Hp in Hd.
    rewrite decide_True in Hd by (rewrite <-Hi, <-Hidx; split; [done|apply Hok]).
    destruct (flush_entry_cases (t_vaddr e) te) as [E'|(E' & H1 & H2 & H3)]; rewrite E' in Hd; [by destruct Hd|].
    by destruct (caches_page te e Hok Hc Hd) as [?|[?|?]].
  - case_decide; [|done]. destruct (flush_entry_cases (page_of a) te) as [E'|[E' _]]; rewrite E' in Hd |- *; [by destruct Hd|done].
Qed.

Lemma dead_reset start length te : dead te -> tlb_reset_dirty_range start length te = te.
Proof. intros (_ & Hw & _). unfold tlb_reset_dirty_range, tlb_is_dirty_ram. by rewrite Hw. Qed.

Lemma caches_reset start length te e : caches te e -> caches (tlb_reset_dirty_range start length te) e.
Proof.
  intros [Hr Hw Hc Ha]. unfold tlb_reset_dirty_range. destruct (tlb_is_dirty_ram te) eqn:Hd; [|done].
  destruct (_ <? length); [|done]. split; try done. cbn [addr_write with_addr_write].
  destruct Hw as [E|[E Hp]]; [unfold tlb_is_dirty_ram in Hd; by rewrite E in Hd|right].
  split; [|done]. by rewrite Z.land_lor_distr_l, E, Z.lor_0_r.
Qed.

Lemma refines_reset_dirty t live start length : refines t live -> refines (cpu_tlb_reset_dirty_all start length t) live.
Proof.
  intros [Hs Hr]. split; [|exact Hr]. intros idx i. unfold slot_ok.
  assert (te_at (cpu_tlb_reset_dirty_all start length t) idx i = tlb_reset_dirty_range start length (te_at t idx i)) as ->.
  { unfold te_at. cbn [tlb_table cpu_tlb_reset_dirty_all with_table]. rewrite lookup_fmap.
    by destruct (tlb_table t !! (idx, i)). }
  destruct (Hs idx i) as [Hd|(e & Hin & Hok & Hi & Hidx & Hc & Hreg)]; [left; by rewrite dead_reset|right].
  exists e. split_and!; try done. by apply caches_reset.
Qed.

Lemma caches_set_dirty v te e : v = page_of v -> fill_ok e -> caches te e -> caches (tlb_set_dirty1 v te) e.
Proof.
  intros Hv [He _ _ _] [Hr Hw Hc Ha]. unfold tlb_set_dirty1.
  destruct (Z.eqb_spec (addr_write te) (Z.lor v TLB_NOTDIRTY)) as [E|]; [|done]. split; try done.
  cbn [addr_write with_addr_write]. rewrite E in Hw. destruct Hw as [Hw|[Hw Hp]]; [by apply page_not_invalid in Hw|].
  right. rewrite tag_page in Hw by done. split; [|done]. rewrite <-(Z.lor_0_r v) at 1. by rewrite tag_page.
Qed.

Lemma dead_set_dirty v te : v = page_of v -> dead te -> dead (tlb_set_dirty1 v te).
Proof.
  intros Hv (H1 & H2 & H3). unfold tlb_set_dirty1. destruct (Z.eqb_spec (addr_write te) (Z.lor v TLB_NOTDIRTY)) as [E|]; [|done].
  rewrite H2 in E. symmetry in E. by apply page_not_invalid in E.
Qed.

Lemma refines_set_dirty t live a : refines t live -> refines (tlb_set_dirty a t) live.
Proof.
  intros [Hs Hr]. unfold tlb_set_dirty. rewrite page_mask_of. split; [|exact Hr]. intros idx i. unfold slot_ok.
  rewrite te_at_on_row. assert (page_of a = page_of (page_of a)) as Hp by (by rewrite page_of_page).
  destruct (Hs idx i) as [Hd|(e & Hin & Hok & Hi & Hidx & Hc & Hreg)].
  - left. case_decide; [by apply dead_set_dirty|done].
  - right. exists e. split_and!; try done. case_decide; [by apply caches_set_dirty|done].
Qed.

(** ** Entering a page *)

Lemma large_page_region e t :
  fill_ok e -> region_ok t ->
  exists t', tlb_add_large_page (t_vaddr e) (t_size e) t = Some t' /\ tlb_table t' = tlb_table t /\ region_ok t' /\
    in_region t' e /\ forall e', in_region t e' -> in_region t' e'.
Proof.
  intros [Hv Hr _ (k & Hk & Hk12)] Hreg. unfold tlb_add_large_page. rewrite Hk, hi_size by lia.
  assert (forall j x, 12 <= j <= 32 -> Z.land x (hi j) <> INVALID) as Hne.
  { intros j x Hj E. apply (f_equal (fun z => Z.testbit z 0)) in E. rewrite Z.land_spec, hi_bits in E by lia.
    destruct (Z.leb_spec j 0); [lia|]. by rewrite andb_false_r in E. }
  assert (forall j x, 12 <= j <= 32 -> in_range 32 (Z.land x (hi j))) as Hrange.
  { intros j x Hj. assert (Z.land x (hi j) = u32 (Z.land x (hi j))) as ->; [|apply u32_range].
    apply Z.bits_inj'. intros i Hi. unfold u32. rewrite wrap_bits, Z.land_spec, hi_bits by lia.
    zcase; try lia; by rewrite ?andb_true_r, ?andb_false_r. }
  change (u32 (-1)) with INVALID. destruct (Z.eqb_spec (tlb_flush_addr t) INVALID) as [E|E].
  - eexists. split; [done|]. split; [done|]. split_and!.
    + right. exists k. cbn. split_and!; [lia..|done| |apply Hrange; lia| apply Hrange; lia]. by rewrite <-Z.land_assoc, Z.land_diag.
    + intros _ a Ha Hc. unfold covers in Hc. rewrite Hk, hi_size in Hc by lia. exact Hc.
    + intros e' He' Hsz a Ha Hc. specialize (He' Hsz a Ha Hc). destruct Hreg as [[_ Hm]|(j & Hj & _ & Hl & _)].
      * by rewrite E, Hm, Z.land_0_r in He'.
      * exfalso. apply (Hne j (tlb_flush_addr t) Hj). by rewrite Hl.
  - destruct Hreg as [[? _]|(j & Hj & Hm & Hl & _)]; [done|]. rewrite Hm, hi_land by lia.
    destruct (widen_spec (Z.lxor (tlb_flush_addr t) (t_vaddr e)) (Z.max k j) 33) as (n & Hn & -> & Hx); [lia..|].
    assert (forall i x, 12 <= i <= n -> Z.land (Z.land x (hi i)) (hi n) = Z.land x (hi n)) as Hsub.
    { intros i x Hi. rewrite <-Z.land_assoc, hi_land by lia. do 2 f_equal. lia. }
    eexists. split; [done|]. split; [done|]. split_and!.
    + right. exists n. cbn. split_and!; [lia..|done| |apply Hrange; lia|apply Hrange; lia]. by rewrite <-Z.land_assoc, Z.land_diag.
    + intros _ a Ha Hc. unfold covers in Hc. rewrite Hk, hi_size in Hc by lia. cbn.
      rewrite <-(Hsub k a), Hc, Hsub by lia. apply Z.lxor_eq. rewrite <-Hx. apply Z.bits_inj'. intros i Hi.
      rewrite !Z.lxor_spec, !Z.land_spec, Z.lxor_spec. by destruct (Z.testbit (t_vaddr e) i), (Z.testbit (tlb_flush_addr t) i), (Z.testbit (hi n) i).
    + intros e' He' Hsz a Ha Hc. specialize (He' Hsz a Ha Hc). cbn. rewrite <-(Hsub j a), <-Hm, He' by lia. done.
Qed.

(** The field an access of kind [w] (0 read, 1 write, 2 fetch) compares, and the
    protection it needs. *)
Definition te_field (w : Z) (te : CPUTLBEntry) : Z :=
  if w =? 0 then addr_read te else if w =? 1 then addr_write te else addr_code te.
Definition access_of (w : Z) : Z := if w =? 0 then PAGE_READ else if w =? 1 then PAGE_WRITE else PAGE_EXEC.

(** What [tlb_set_page] puts in the row. *)
Lemma set_page_spec wps dirty e t :
  fill_ok e -> region_ok t ->
  exists t' te, tlb_set_page wps dirty (sec (t_paddr e)) e t = Some t' /\ caches te e /\ region_ok t' /\ in_region t' e /\
    (forall e', in_region t e' -> in_region t' e') /\
    (forall w, has (t_prot e) (access_of w) = true -> Z.land (te_field w te) PAGE_OR_INVALID = t_vaddr e) /\
    forall idx i, te_at t' idx i = if decide (idx = t_idx e /\ i = tlb_index (t_vaddr e)) then te else te_at t idx i.
Proof.
  intros Hok Hreg. pose proof Hok as [Hv Hr _ (k & Hk & Hk12)]. unfold tlb_set_page.
  assert (exists t1, (if negb (t_size e =? TARGET_PAGE_SIZE) then tlb_add_large_page (t_vaddr e) (t_size e) t else Some t) = Some t1 /\
    tlb_table t1 = tlb_table t /\ region_ok t1 /\ in_region t1 e /\ forall e', in_region t e' -> in_region t1 e') as (t1 & H1 & Ht & Hr1 & Hi1 & Hmono).
  { destruct (Z.eqb_spec (t_size e) TARGET_PAGE_SIZE) as [E|E]; cbn [negb]; [|by apply large_page_region].
    exists t. split_and!; try done. by intros ?. }
  destruct e as [vaddr paddr prot idx size] eqn:He. cbn [t_vaddr t_paddr t_prot t_idx t_size] in *. rewrite H1.
  assert (TARGET_PAGE_SIZE <= size) as Hsz by (rewrite Hk; apply (Z.pow_le_mono_r 2 12 k); lia).
  destruct (Z.ltb_spec size TARGET_PAGE_SIZE); [lia|].
  destruct (Z.ltb_spec (sz (sec paddr)) TARGET_PAGE_SIZE); [specialize (Hsec paddr); lia|].
  destruct (memory_region_section_get_iotlb _ _ _ _ _) as [io watch].
  eexists _, _. split; [reflexivity|].
  assert (forall access x, (exists fl, x = Z.lor vaddr fl /\ Z.land fl PAGE_OR_INVALID = 0) ->
    names vaddr prot access (if has prot access then x else u32 (-1))) as Hn.
  { intros access x (fl & -> & Hfl). destruct (has prot access) eqn:Hp; [right|by left]. split; [by apply tag_page|done]. }
  assert (forall (b1 b2 : bool), exists fl, (if b2 then Z.lor (if b1 then Z.lor vaddr TLB_MMIO else vaddr) TLB_MMIO
    else (if b1 then Z.lor vaddr TLB_MMIO else vaddr)) = Z.lor vaddr fl /\ Z.land fl PAGE_OR_INVALID = 0) as Haddr.
  { intros [] []; [exists TLB_MMIO; rewrite <-Z.lor_assoc|exists TLB_MMIO..|exists 0; rewrite Z.lor_0_r]; done. }
  assert (forall x, (exists fl, x = Z.lor vaddr fl /\ Z.land fl PAGE_OR_INVALID = 0) ->
    exists fl, (if (is_ram (sec paddr) && is_readonly (sec paddr)) || is_romd (sec paddr) then Z.lor x TLB_MMIO
      else if is_ram (sec paddr) && negb (cpu_physical_memory_is_dirty dirty (ram_addr (sec paddr) + xlat (sec paddr)))
      then Z.lor x TLB_NOTDIRTY else x) = Z.lor vaddr fl /\ Z.land fl PAGE_OR_INVALID = 0) as Hwr.
  { intros x (fl & -> & Hfl).
    destruct (_ || _); [|destruct (_ && _)]; [exists (Z.lor fl TLB_MMIO)|exists (Z.lor fl TLB_NOTDIRTY)|by exists fl];
      by rewrite <-?Z.lor_assoc, ?Z.land_lor_distr_l, Hfl. }
  pose proof (Hwr _ (Haddr (negb (is_ram (sec paddr)) && negb (is_romd (sec paddr))) watch)) as Hwrite.
  split_and!. 6: { intros idx' i. rewrite te_at_insert. unfold te_at. cbn [tlb_table with_iotlb]. rewrite Ht. reflexivity. }
  2-4: done. 1: split; cbn [addr_read addr_write addr_code addend t_vaddr t_prot t_paddr].
  - apply Hn, Haddr.
  - apply Hn, Hwrite.
  - apply Hn. apply (Haddr _ false).
  - done.
  - intros w Hp. assert (forall x, (exists fl, x = Z.lor vaddr fl /\ Z.land fl PAGE_OR_INVALID = 0) -> Z.land x PAGE_OR_INVALID = vaddr) as Ht2
      by (intros x (fl & -> & Hfl); by apply tag_page).
    unfold access_of, te_field in *. cbn [addr_read addr_write addr_code].
    destruct (w =? 0); [|destruct (w =? 1)]; rewrite Hp; apply Ht2; [apply Haddr|apply Hwrite|apply (Haddr _ false)].
Qed.

Lemma refines_fill wps dirty e t live :
  fill_ok e -> refines t live ->
  exists t', tlb_set_page wps dirty (sec (t_paddr e)) e t = Some t' /\ refines t' (spec_op live (TFill wps dirty e)).
Proof.
  intros Hok [Hs Hr]. destruct (set_page_spec wps dirty e t Hok Hr) as (t' & te & H1 & Hc & Hr' & Hi & Hmono & _ & Hte).
  exists t'. split; [done|]. split; [|done]. intros idx i. unfold slot_ok. rewrite Hte. case_decide as Hd.
  - right. destruct Hd as [-> ->]. exists e. split_and!; try done. apply list_elem_of_here.
  - destruct (Hs idx i) as [?|(e' & Hin & Hok' & Hi' & Hidx & Hc' & Hreg)]; [by left|right]. exists e'. split_and!; try done; [|by apply Hmono].
    apply list_elem_of_further, list_elem_of_filter. split; [|done]. intros [E1 E2]. apply Hd. by rewrite <-Hi', <-Hidx, E1, E2.
Qed.

Lemma refines_op op t live :
  op_ok op -> refines t live -> exists t', run_op op t = Some t' /\ refines t' (spec_op live op).
Proof.
  intros Hop Hr. destruct op; cbn [run_op spec_op op_ok] in *.
  - by apply refines_fill.
  - eexists. split; [done|apply refines_flush].
  - eexists. split; [done|by apply refines_flush_page].
  - eexists. split; [done|by apply refines_reset_dirty].
  - eexists. split; [done|by apply refines_set_dirty].
Qed.

Lemma refines_ops ops t live :
  Forall op_ok ops -> refines t live -> exists t', run_ops ops t = Some t' /\ refines t' (foldl spec_op live ops).
Proof.
  intros Hops. revert t live. induction Hops as [|op ops Hop _ IH]; intros t live Hr; [by exists t|].
  destruct (refines_op op t live Hop Hr) as (t1 & H1 & Hr1). cbn [run_ops foldl]. rewrite H1. by apply IH.
Qed.

(** ** Hits *)

(** The test of softmmu_template.h. *)
Definition tlb_hit (t : tlb) (idx a w : Z) : option CPUTLBEntry :=
  let te := te_at t idx (tlb_index a) in
  if Z.land a TARGET_PAGE_MASK =? Z.land (te_field w te) PAGE_OR_INVALID then Some te else None.

Lemma caches_field w te e : caches te e -> names (t_vaddr e) (t_prot e) (access_of w) (te_field w te).
Proof. intros [Hr Hw Hc _]. unfold access_of, te_field. by repeat case_match. Qed.

Lemma page_not_tag a : page_of a <> Z.land INVALID PAGE_OR_INVALID.
Proof.
  intros E. apply (f_equal (fun z => Z.testbit z 3)) in E. by rewrite page_of_bits in E by done.
Qed.

Lemma dead_field w te : dead te -> te_field w te = INVALID.
Proof. intros (H1 & H2 & H3). unfold te_field. by repeat case_match. Qed.

(** A hit returns a live page, and the host address of the byte in it. *)
Lemma hit_live t live idx a w te :
  in_range 32 a -> refines t live -> tlb_hit t idx a w = Some te ->
  exists e, e ∈ live /\ same_slot idx (page_of a) e /\ has (t_prot e) (access_of w) = true /\
    u64 (a + addend te) = u64 (host_of (sec (t_paddr e)) + a mod 4096).
Proof.
  intros Ha [Hs _]. unfold tlb_hit. rewrite page_mask_of. destruct (Z.eqb_spec (page_of a) (Z.land (te_field w (te_at t idx (tlb_index a))) PAGE_OR_INVALID)) as [E|]; [|done].
  intros [= <-]. destruct (Hs idx (tlb_index a)) as [Hd|(e & Hin & Hok & Hi & Hidx & Hc & _)].
  - rewrite (dead_field w _ Hd) in E. by destruct (page_not_tag a).
  - exists e. destruct (caches_field w _ _ Hc) as [E'|[E' Hp]]; [rewrite E' in E; by destruct (page_not_tag a)|].
    assert (t_vaddr e = page_of a) as Hv by congruence. split_and!; try done.
    rewrite (c_addend _ _ Hc), Hv. unfold u64. rewrite Z.add_comm. unfold wrap. rewrite Zplus_mod_idemp_l. f_equal.
    unfold page_of. pose proof (Z.div_mod a 4096). lia.
Qed.

(** A page that was just entered is found. *)
Lemma fill_hits wps dirty e t t' a w :
  fill_ok e -> region_ok t -> tlb_set_page wps dirty (sec (t_paddr e)) e t = Some t' ->
  page_of a = t_vaddr e -> has (t_prot e) (access_of w) = true -> exists te, tlb_hit t' (t_idx e) a w = Some te.
Proof.
  intros Hok Hreg Hset Ha Hp. destruct (set_page_spec wps dirty e t Hok Hreg) as (t1 & te & H1 & _ & _ & _ & _ & Hf & Hte).
  rewrite Hset in H1. injection H1 as <-. exists te. unfold tlb_hit. rewrite Hte, decide_True.
  - by rewrite page_mask_of, Hf, Ha, Z.eqb_refl.
  - split; [done|]. by rewrite <-Ha, tlb_index_page.
Qed.

(** At most one live page per mode and page. *)
Definition one_each (live : list tlb_entry) : Prop :=
  forall idx page, (length (filter (same_slot idx page) live) <= 1)%nat.

Lemma filter_filter_le {A} (P Q : A -> Prop) `{!forall x, Decision (P x), !forall x, Decision (Q x)} (l : list A) :
  (length (filter P (filter Q l)) <= length (filter P l))%nat.
Proof.
  induction l as [|x l IH]; [done|]. rewrite !filter_cons. repeat (case_decide; rewrite ?filter_cons); cbn [length]; try done; try lia.
Qed.

Lemma one_each_op live op : one_each live -> one_each (spec_op live op).
Proof.
  intros H idx page. destruct op as [wps dirty e| |a| |]; cbn [spec_op]; try apply H; [|cbn; lia|].
  - rewrite filter_cons. case_decide as Hd.
    + destruct Hd as [<- <-]. cbn [length]. replace (length _) with 0%nat; [lia|]. symmetry. apply length_zero_iff_nil.
      apply elem_of_nil_inv. intros x Hx. rewrite !list_elem_of_filter in Hx. naive_solver.
    + etrans; [apply filter_filter_le|apply H].
  - etrans; [apply filter_filter_le|apply H].
Qed.

Lemma one_each_ops ops live : one_each live -> one_each (foldl spec_op live ops).
Proof. revert live. induction ops as [|op ops IH]; intros live H; [done|]. by apply IH, one_each_op. Qed.

Lemma current_elem live idx page e : one_each live -> e ∈ live -> same_slot idx page e -> current live idx page = Some e.
Proof.
  intros H Hin Hs. specialize (H idx page). unfold current.
  assert (e ∈ filter (same_slot idx page) live) as He by (by apply list_elem_of_filter).
  destruct (filter _ live) as [|x [|y l]]; [by apply elem_of_nil in He| |cbn in H; lia].
  apply list_elem_of_singleton in He. by subst.
Qed.

(** Power-up. *)
Definition tlb_reset : tlb := mkTlbState ∅ ∅ INVALID 0 ∅ 0.

Lemma refines_reset : refines tlb_reset [].
Proof. split; [intros idx i; left; unfold te_at; cbn; by rewrite lookup_empty|by left]. Qed.

(** C5: the TLB never returns a stale translation. After any sequence of pages
    entered by the MMU, full flushes, flushes of single pages and changes of the
    dirty state, none of which fails an assertion or loops, a hit is the page
    entered last for this mode and page, if no flush of any address in it, with
    its true size, came after; it allows the access, and the addend gives the host
    address of the byte. A page just entered is found. *)
Theorem tlb_never_stale ops :
  Forall op_ok ops ->
  exists t, run_ops ops tlb_reset = Some t /\
    (forall idx a w te, in_range 32 a -> tlb_hit t idx a w = Some te ->
       exists e, current (foldl spec_op [] ops) idx (page_of a) = Some e /\ has (t_prot e) (access_of w) = true /\
         u64 (a + addend te) = u64 (host_of (sec (t_paddr e)) + a mod 4096)) /\
    (forall wps dirty e a w, fill_ok e -> page_of a = t_vaddr e -> has (t_prot e) (access_of w) = true ->
       exists t' te, run_op (TFill wps dirty e) t = Some t' /\ tlb_hit t' (t_idx e) a w = Some te).
Proof.
  intros Hops. destruct (refines_ops ops tlb_reset [] Hops refines_reset) as (t & Hrun & Hr).
  exists t. split; [done|]. split.
  - intros idx a w te Ha Hh. destruct (hit_live t _ idx a w te Ha Hr Hh) as (e & Hin & Hsl & Hp & Hadd).
    exists e. split; [|done]. apply current_elem; [|done..]. apply one_each_ops. intros ??. cbn. lia.
  - intros wps dirty e a w Hok Ha Hp.
    destruct (refines_op (TFill wps dirty e) t _ Hok Hr) as (t' & H1 & _).
    destruct (fill_hits wps dirty e t t' a w Hok (r_region _ _ Hr) H1 Ha Hp) as [te Hte]. by exists t', te.
Qed.
End Refine.

(** One block of RAM at host address [ptr]. *)
Definition ram_section (ptr paddr : Z) : section := mkSection true false false ptr 0 0 paddr TARGET_PAGE_SIZE.

(** A page of a 4 MB mapping at 0x800000 is entered; flushing another address of
    the mapping removes it. *)
Definition big_page : tlb_entry := mkTlb 0x801000 0x5000 PAGE_READ 0 (4096 * 1024).

Lemma big_page_ok : fill_ok big_page.
Proof. split; [done|done|done|]. by exists 22. Qed.

Lemma tlb_never_stale_witness :
  (forall w te t, run_ops (ram_section 0x7f0000000000) [TFill [] (fun _ => 0xff) big_page; TFlushPage 0xbff123] tlb_reset = Some t ->
     tlb_hit t 0 0x801234 w <> Some te) /\
  exists t te, run_ops (ram_section 0x7f0000000000) [TFill [] (fun _ => 0xff) big_page] tlb_reset = Some t /\
    tlb_hit t 0 0x801234 0 = Some te.
Proof.
  assert (forall paddr, TARGET_PAGE_SIZE <= sz (ram_section 0x7f0000000000 paddr)) as Hs by (intros; reflexivity).
  split.
  - intros w te t Ht Hh. destruct (tlb_never_stale (ram_section 0x7f0000000000) Hs [TFill [] (fun _ => 0xff) big_page; TFlushPage 0xbff123])
      as (t' & Ht' & H & _); [repeat constructor; by apply big_page_ok|].
    assert (t' = t) as -> by congruence. destruct (H 0 0x801234 w te ltac:(lia) Hh) as (e & He & _). discriminate He.
  - destruct (tlb_never_stale (ram_section 0x7f0000000000) Hs [] ltac:(constructor)) as (t & Ht & _ & H). injection Ht as <-.
    destruct (H [] (fun _ => 0xff) big_page 0x801234 0 big_page_ok eq_refl eq_refl) as (t' & te & H1 & H2).
    exists t', te. split; [|exact H2]. change (run_ops _ [?op] ?t) with (match run_op (ram_section 0x7f0000000000) op t with Some t' => Some t' | None => None end).
    by rewrite H1.
Defined.

(** ** Blocks of a flushed page are forgotten *)

(** A block is cached where [tb_find_fast] looks for it. *)
Definition jmp_cache_ok (t : tlb) : Prop := forall i tb, tb_jmp_cache t !! i = Some tb -> i = tb_jmp_cache_hash_func (tb_pc tb).

Lemma page_mask_low tmp x : Z.land (Z.land x TB_JMP_PAGE_MASK) (Z.land tmp TB_JMP_ADDR_MASK) = 0.
Proof.
  rewrite <-Z.land_assoc, (Z.land_assoc TB_JMP_PAGE_MASK), (Z.land_comm TB_JMP_PAGE_MASK), <-Z.land_assoc.
  change (Z.land TB_JMP_PAGE_MASK TB_JMP_ADDR_MASK) with 0. by rewrite !Z.land_0_r.
Qed.

Lemma hash_in_page pc : tb_jmp_cache_hash_page pc <= tb_jmp_cache_hash_func pc < tb_jmp_cache_hash_page pc + TB_JMP_PAGE_SIZE.
Proof.
  unfold tb_jmp_cache_hash_page, tb_jmp_cache_hash_func. cbv zeta. set (tmp := Z.lxor _ _).
  rewrite <-Z.lxor_lor, <-Z.add_nocarry_lxor by apply page_mask_low.
  assert (0 <= Z.land tmp TB_JMP_ADDR_MASK < TB_JMP_PAGE_SIZE); [|lia].
  change TB_JMP_ADDR_MASK with (Z.ones 6). rewrite Z.land_ones by lia. change TB_JMP_PAGE_SIZE with (2 ^ 6).
  apply Z.mod_pos_bound. lia.
Qed.

(** The page of the cache depends on the page of the address alone. *)
Lemma hash_page_of pc : tb_jmp_cache_hash_page (page_of pc) = tb_jmp_cache_hash_page pc.
Proof.
  unfold tb_jmp_cache_hash_page. cbv zeta. change (TARGET_PAGE_BITS - TB_JMP_PAGE_BITS) with 6.
  apply Z.bits_inj'. intros i Hi. rewrite !Z.land_spec.
  change TB_JMP_PAGE_MASK with (Z.shiftl (Z.ones 6) 6). rewrite !(Z.shiftl_spec _ 6) by lia.
  destruct (Z_lt_le_dec i 6); [by rewrite (Z.testbit_neg_r (Z.ones 6)), !andb_false_r by lia|].
  rewrite !Z.shiftr_spec, !Z.lxor_spec, !Z.shiftr_spec, !page_of_bits by lia.
  by rewrite (proj2 (Z.leb_le 12 (i + 6))), (proj2 (Z.leb_le 12 (i + 6 + 6))) by lia.
Qed.

Lemma clear_blocks_none pc tb c i :
  clear_blocks (tb_jmp_cache_hash_page pc) c !! i = Some tb ->
  c !! i = Some tb /\ (i = tb_jmp_cache_hash_func (tb_pc tb) -> page_of (tb_pc tb) <> page_of pc).
Proof.
  intros [H1 H2]%map_lookup_filter_Some. cbn in H2. split; [done|]. intros Hi Hp.
  pose proof (hash_in_page (tb_pc tb)) as Hh. rewrite <-(hash_page_of (tb_pc tb)), Hp, hash_page_of, <-Hi in Hh. lia.
Qed.

(** Flushing a page forgets every translated block that starts in the page or
    in the one before it, from where it may reach into the page; the cache stays
    indexed by the hash of the block's address. *)
Theorem flush_page_forgets_blocks addr t :
  jmp_cache_ok t ->
  jmp_cache_ok (tlb_flush_page addr t) /\
  forall pc, page_of pc = page_of addr \/ page_of pc = page_of (u32 (page_of addr - TARGET_PAGE_SIZE)) ->
    tb_jmp_cache (tlb_flush_page addr t) !! tb_jmp_cache_hash_func pc <> Some (mkTB pc).
Proof.
  intros Hok. unfold tlb_flush_page. destruct (_ =? _); [by split; [intros ??; cbn; rewrite lookup_empty|intros ??; cbn; rewrite lookup_empty]|].
  assert (tb_jmp_cache (on_row (tlb_index (Z.land addr TARGET_PAGE_MASK)) (tlb_flush_entry (Z.land addr TARGET_PAGE_MASK)) t) = tb_jmp_cache t) as Hc by done.
  cbv zeta. unfold tb_flush_jmp_cache. cbn [tb_jmp_cache with_jmp_cache]. rewrite Hc. split.
  - intros i tb [[H _]%clear_blocks_none _]%clear_blocks_none. by apply Hok.
  - intros pc Hpc [[_ H2]%clear_blocks_none H1]%clear_blocks_none. cbn [tb_pc] in *. rewrite page_mask_of in *.
    specialize (H1 eq_refl). specialize (H2 eq_refl).
    assert (page_of (page_of addr) = page_of addr) as E by (unfold page_of; by rewrite Z.div_mul by lia).
    rewrite E in H1. naive_solver.
Qed.

Lemma flush_page_forgets_blocks_witness :
  let pc := 0xc0100ff0 in
  let t := with_jmp_cache {[tb_jmp_cache_hash_func pc := mkTB pc]} tlb_reset in
  tb_jmp_cache t !! tb_jmp_cache_hash_func pc = Some (mkTB pc) /\
  tb_jmp_cache (tlb_flush_page 0xc0101234 t) !! tb_jmp_cache_hash_func pc <> Some (mkTB pc).
Proof.
  intros pc t. split; [reflexivity|]. apply (flush_page_forgets_blocks 0xc0101234 t); [|right; reflexivity].
  intros i tb H. unfold t in H. cbn [tb_jmp_cache with_jmp_cache] in H. apply lookup_singleton_Some in H as [<- <-]. reflexivity.
Defined.
