(* ===== verification/TlbWalk.v ===== *)
(** * What a page table walk depends on

    The accessed and dirty bits that walks set in page table entries do not change
    where an address leads: the outcome of a walk is a function of the entries
    without these bits, and a walk that is repeated finds nothing to set. *)

From stdpp Require Import base list.
From Stdlib Require Import ZArith Lia.
From S2P Require Import Prelude Cpu CcHelper Xed Guest Mmu MmuWalk.

Local Open Scope Z_scope.
Local Open Scope w_scope.

(** ** Entries up to their accessed and dirty bits *)

Definition AD : Z := Z.lor PG_ACCESSED_MASK PG_DIRTY_MASK.
Definition same_entry (e e' : Z) : Prop := Z.land e (Z.lnot AD) = Z.land e' (Z.lnot AD).

#[export] Instance same_entry_equiv : Equivalence same_entry.
Proof. split; unfold same_entry; [by intros ?|by intros ??|intros ???; apply eq_trans]. Qed.

Lemma same_land e e' mask : same_entry e e' -> Z.land AD mask = 0 -> Z.land e mask = Z.land e' mask.
Proof.
  intros H Hm. assert (forall x, Z.land x mask = Z.land (Z.land x (Z.lnot AD)) mask) as Hx; [|by rewrite Hx, H, <-Hx].
  intros x. apply Z.bits_inj'. intros i Hi. apply (f_equal (fun z => Z.testbit z i)) in Hm.
  rewrite !Z.land_spec, Z.bits_0 in *. rewrite Z.lnot_spec by done.
  destruct (Z.testbit AD i); cbn [negb andb] in *; [by rewrite Hm, !andb_false_r|by rewrite andb_true_r].
Qed.

Lemma same_has e e' mask : same_entry e e' -> Z.land AD mask = 0 -> has e mask = has e' mask.
Proof. intros H Hm. unfold has. by rewrite (same_land e e' mask). Qed.

Lemma same_lor e k : Z.land k AD = k -> same_entry (Z.lor e k) e.
Proof.
  intros <-. unfold same_entry. rewrite Z.land_lor_distr_l, <-(Z.land_assoc k).
  change (Z.land AD (Z.lnot AD)) with 0. by rewrite Z.land_0_r, Z.lor_0_r.
Qed.

Lemma has_lor x y mask : has (Z.lor x y) mask = has x mask || has y mask.
Proof.
  unfold has. rewrite Z.land_lor_distr_l, <-negb_andb. f_equal.
  destruct (Z.eqb_spec (Z.land x mask) 0) as [->|Hx]; cbn [andb]; [by rewrite Z.lor_0_l|].
  apply Z.eqb_neq. by intros [? _]%Z.lor_eq_0_iff.
Qed.

(** Tables of entries of [n] bytes. *)
Definition same_tables (n : nat) (m m' : machine) : Prop :=
  m_cpu m' = m_cpu m /\ forall b, b mod Z.of_nat n = 0 -> same_entry (ld_phys m' n b) (ld_phys m n b).

#[export] Instance same_tables_equiv n : Equivalence (same_tables n).
Proof.
  split; [by intros m|intros m m' [H1 H2]; split; [done|intros b Hb; symmetry; auto]|].
  intros m1 m2 m3 [H1 H2] [H3 H4]. split; [congruence|]. intros b Hb. etrans; [by apply H4|by apply H2].
Qed.

(** Bits of the tables only get set. *)
Definition grows (n : nat) (m m' : machine) : Prop :=
  same_tables n m m' /\
  forall b mask, b mod Z.of_nat n = 0 -> has (ld_phys m n b) mask = true -> has (ld_phys m' n b) mask = true.

#[export] Instance grows_preorder n : PreOrder (grows n).
Proof.
  split; [by intros m|]. intros m1 m2 m3 [H1 H2] [H3 H4]. split; [by etrans|auto].
Qed.

Lemma low_part e k : 0 <= e -> 0 <= k < 2 ^ 32 -> Z.lor e k = u32 (Z.lor e k) + 2 ^ 32 * (e / 2 ^ 32).
Proof.
  intros He Hk. unfold u32, wrap. rewrite (Z.div_mod (Z.lor e k) (2 ^ 32)) at 1 by done.
  rewrite Z.add_comm. f_equal. f_equal. rewrite <-!Z.shiftr_div_pow2, Z.shiftr_lor by done.
  rewrite (Z.shiftr_div_pow2 k), (Z.div_small k) by lia. apply Z.lor_0_r.
Qed.

(** An entry stored with bits [k] of its low word set, and any entry read after. *)
Lemma ld_after_set m n a k b :
  n = 4%nat \/ n = 8%nat -> a mod Z.of_nat n = 0 -> b mod Z.of_nat n = 0 -> 0 <= k < 2 ^ 32 ->
  let m' := mkMachine (m_cpu m) (poke 4 a (u32 (Z.lor (ld_phys m n a) k)) (m_phys m)) in
  ld_phys m' n b = if a =? b then Z.lor (ld_phys m n a) k else ld_phys m n b.
Proof.
  intros Hn Ha Hb Hk m'. destruct (Z.eqb_spec a b) as [<-|Hne].
  - assert (ld_phys m' 4 a = u32 (Z.lor (ld_phys m n a) k)) as Hlo.
    { rewrite (ld_phys_bytes m' 4 a (u32 (Z.lor (ld_phys m n a) k))).
      - change (256 ^ Z.of_nat 4) with (2 ^ 32). by apply wrap_id, u32_range.
      - intros x Hx. unfold m', poke. cbn [m_phys]. zcase; try lia. done. }
    destruct Hn as [-> | ->].
    + rewrite Hlo. unfold u32. apply wrap_id.
      pose proof (ld_phys_range m 4 a) as Hr. change (256 ^ Z.of_nat 4) with (2 ^ 32) in Hr.
      by apply in_range_lor.
    + pose proof (ld_phys_app m' 4 4 a : ld_phys m' 8 a = ld_phys m' 4 a + 2 ^ 32 * ld_phys m' 4 (a + 4)) as E'.
      pose proof (ld_phys_app m 4 4 a : ld_phys m 8 a = ld_phys m 4 a + 2 ^ 32 * ld_phys m 4 (a + 4)) as E.
      rewrite E', Hlo, (ld_phys_ext m m' 4 (a + 4)).
      2: { intros x Hx. unfold m', poke. cbn [m_phys]. zcase; try lia; done. }
      pose proof (ld_phys_range m 8 a) as Hr8. rewrite (low_part (ld_phys m 8 a) k) at 2 by lia. f_equal. f_equal.
      pose proof (ld_phys_range m 4 a) as Hr. change (256 ^ Z.of_nat 4) with (2 ^ 32) in Hr.
      apply (Z.div_unique _ _ _ (ld_phys m 4 a)); lia.
  - apply ld_phys_ext. intros x Hx. unfold m', poke. cbn [m_phys].
    assert (b + Z.of_nat n <= a \/ a + 4 <= b) by (destruct Hn as [-> | ->]; Z.to_euclidean_division_equations; lia).
    zcase; try lia; done.
Qed.

Lemma grows_set m n a k :
  n = 4%nat \/ n = 8%nat -> a mod Z.of_nat n = 0 -> k = PG_ACCESSED_MASK \/ k = AD ->
  grows n m (mkMachine (m_cpu m) (poke 4 a (u32 (Z.lor (ld_phys m n a) k)) (m_phys m))).
Proof.
  intros Hn Ha Hk. assert (0 <= k < 2 ^ 32 /\ Z.land k AD = k) as [Hr HAD] by (by destruct Hk as [->| ->]).
  split.
  - split; [done|]. intros b Hb. rewrite ld_after_set by done. destruct (Z.eqb_spec a b) as [<-|]; [by apply same_lor|done].
  - intros b mask Hb. rewrite ld_after_set by done. destruct (Z.eqb_spec a b) as [<-|]; [|done]. rewrite has_lor. by intros ->.
Qed.

Lemma touch_dir_grows m n a :
  n = 4%nat \/ n = 8%nat -> a mod Z.of_nat n = 0 ->
  exists m', touch_dir a (ld_phys m n a) m = WOk (ld_phys m' n a) m' /\ grows n m m' /\
    has (ld_phys m' n a) PG_ACCESSED_MASK = true /\ (has (ld_phys m n a) PG_ACCESSED_MASK = true -> m' = m).
Proof.
  intros Hn Ha. unfold touch_dir. destruct (has _ PG_ACCESSED_MASK) eqn:HA; cbn [negb]; [by exists m|].
  eexists. pose proof (ld_after_set m n a PG_ACCESSED_MASK a Hn Ha Ha ltac:(done)) as Hl. rewrite Z.eqb_refl in Hl.
  split_and!; [|apply (grows_set m n a PG_ACCESSED_MASK Hn Ha); auto| |done].
  - unfold stl_phys_notdirty, st_phys, wbind, wret. cbn [m_cpu m_phys]. cbv zeta in Hl. by rewrite Hl.
  - rewrite Hl, has_lor. apply orb_true_r.
Qed.

Lemma touch_entry_grows w m n a :
  n = 4%nat \/ n = 8%nat -> a mod Z.of_nat n = 0 ->
  exists m', touch_entry w a (ld_phys m n a) m = WOk (ld_phys m' n a) m' /\ grows n m m' /\
    has (ld_phys m' n a) PG_ACCESSED_MASK = true /\ (is_write w = true -> has (ld_phys m' n a) PG_DIRTY_MASK = true) /\
    (has (ld_phys m n a) PG_ACCESSED_MASK = true -> (is_write w = true -> has (ld_phys m n a) PG_DIRTY_MASK = true) -> m' = m).
Proof.
  intros Hn Ha. unfold touch_entry. set (d := is_write w && negb (has (ld_phys m n a) PG_DIRTY_MASK)).
  assert (d = false -> is_write w = true -> has (ld_phys m n a) PG_DIRTY_MASK = true) as Hd.
  { unfold d. by destruct (is_write w), (has _ PG_DIRTY_MASK). }
  destruct (negb (has (ld_phys m n a) PG_ACCESSED_MASK) || d) eqn:E.
  - set (k := if d then AD else PG_ACCESSED_MASK).
    assert ((if d then Z.lor (Z.lor (ld_phys m n a) PG_ACCESSED_MASK) PG_DIRTY_MASK else Z.lor (ld_phys m n a) PG_ACCESSED_MASK)
      = Z.lor (ld_phys m n a) k) as -> by (unfold k; destruct d; [by rewrite <-Z.lor_assoc|done]).
    assert (0 <= k < 2 ^ 32) as Hk by (unfold k; by destruct d).
    eexists. pose proof (ld_after_set m n a k a Hn Ha Ha Hk) as Hl. rewrite Z.eqb_refl in Hl.
    split_and!; [|apply (grows_set m n a k Hn Ha); unfold k; destruct d; auto| | |].
    + unfold stl_phys_notdirty, st_phys, wbind, wret. cbn [m_cpu m_phys]. cbv zeta in Hl. by rewrite Hl.
    + rewrite Hl, has_lor. unfold k. destruct d; apply orb_true_r.
    + intros Hw. rewrite Hl, has_lor. unfold k. destruct d eqn:Ed; [apply orb_true_r|]. by rewrite Hd.
    + intros HA HD. rewrite HA in E. cbn [negb orb] in E. unfold d in E.
      destruct (is_write w); [|done]. by rewrite HD in E.
  - apply orb_false_iff in E as [HA%negb_false_iff Ed]. exists m. by split_and!; [| |apply HA|apply Hd|].
Qed.

(** ** Where an address leads *)

(** The directory entry and the last entry a walk goes through, the access they
    allow together, and the frame. *)
Record path : Type := mkPath {
  p_dir : option Z; p_leaf : Z; p_user : bool; p_rw : bool; p_nx : bool; p_frame : Z; p_size : Z
}.

Definition resolve_32 (m : machine) (addr : Z) : option path :=
  let pde_addr := a20 m (Z.land (crn m 3) LOW_PAGE + Z.land (Z.shiftr addr 20) 0xffc) in
  let pde := ldl_phys m pde_addr in
  if negb (has pde PG_PRESENT_MASK) then None
  else if has pde PG_PSE_MASK && has (crn m 4) CR4_PSE_MASK then
    Some (mkPath None pde_addr (has pde PG_USER_MASK) (has pde PG_RW_MASK) false
            (Z.land pde (Z.land (Z.lnot 0x003ff000) TARGET_PAGE_MASK)) (4096 * 1024))
  else
    let pte_addr := a20 m (Z.land pde LOW_PAGE + Z.land (Z.shiftr addr 10) 0xffc) in
    let pte := ldl_phys m pte_addr in
    if negb (has pte PG_PRESENT_MASK) then None
    else Some (mkPath (Some pde_addr) pte_addr (has pte PG_USER_MASK && has pde PG_USER_MASK)
                 (has pte PG_RW_MASK && has pde PG_RW_MASK) false (Z.land pte TARGET_PAGE_MASK) 4096).

(** Entries with the no-execute bit are reserved unless it is enabled. *)
Definition rsvd (m : machine) (e : Z) : bool := negb (has (efer (m_cpu m)) MSR_EFER_NXE) && has e PG_NX_MASK.

Definition resolve_pae (m : machine) (addr : Z) : option path :=
  let pdpe_addr := a20 m (Z.land (crn m 3) (Z.lnot 0x1f) + Z.land (Z.shiftr addr 27) 0x18) in
  let pdpe := ldq_phys m pdpe_addr in
  if negb (has pdpe PG_PRESENT_MASK) then None
  else
    let pde_addr := a20 m (Z.land pdpe PHYS_ADDR_MASK + Z.shiftl (Z.land (Z.shiftr addr 21) 0x1ff) 3) in
    let pde := ldq_phys m pde_addr in
    if negb (has pde PG_PRESENT_MASK) || rsvd m pde then None
    else if has pde PG_PSE_MASK then
      Some (mkPath None pde_addr (has pde PG_USER_MASK) (has pde PG_RW_MASK) (has pde PG_NX_MASK)
              (Z.land pde (Z.land PHYS_ADDR_MASK (Z.lnot (2048 * 1024 - 1)))) (2048 * 1024))
    else
      let pte_addr := a20 m (Z.land pde PHYS_ADDR_MASK + Z.shiftl (Z.land (Z.shiftr addr 12) 0x1ff) 3) in
      let pte := ldq_phys m pte_addr in
      if negb (has pte PG_PRESENT_MASK) || rsvd m pte then None
      else Some (mkPath (Some pde_addr) pte_addr (has pde PG_USER_MASK && has pte PG_USER_MASK)
                   (has pde PG_RW_MASK && has pte PG_RW_MASK) (has pde PG_NX_MASK || has pte PG_NX_MASK)
                   (Z.land pte PHYS_ADDR_MASK) 4096).

Definition pae (m : machine) : bool := has (crn m 4) CR4_PAE_MASK.
Definition entry_size (m : machine) : nat := if pae m then 8 else 4.
Definition resolve (m : machine) (addr : Z) : option path :=
  if pae m then resolve_pae m addr else resolve_32 m addr.

(** The access of a mode, as [check_access] and the no-execute test decide it. *)
Definition denied (env : CPUX86State) (w idx : Z) (user rw nx : bool) : bool :=
  let smep := (w =? 2) && has (nth 4 (cr env) 0) CR4_SMEP_MASK && user in
  let wp := has (nth 0 (cr env) 0) CR0_WP_MASK && is_write w && negb rw in
  (nx && (w =? 2)) ||
  (if idx =? MMU_USER_IDX then negb user || (is_write w && negb rw)
   else if idx =? MMU_KERNEL_IDX then (negb (w =? 2) && has (nth 4 (cr env) 0) CR4_SMAP_MASK && user) || smep || wp
   else if idx =? MMU_KSMAP_IDX then smep || wp else false).

Lemma check_access_denied w idx ptep m :
  check_access w idx ptep m =
  if denied (m_cpu m) w idx (has ptep PG_USER_MASK) (has ptep PG_RW_MASK) false
  then WFault PG_ERROR_P_MASK m else WOk tt m.
Proof.
  unfold check_access, denied, wbind, wget, wguard, wret, wfault, crn.
  repeat (match goal with |- context [if ?b then _ else _] => destruct b eqn:? end; cbn [negb andb orb] in *); done || idtac.
Qed.

Lemma table_32_aligned m x y mask :
  a20_mask (m_cpu m) = -1 -> Z.land mask (4 - 1) = 0 -> a20 m (Z.land x LOW_PAGE + Z.land y mask) mod Z.of_nat 4 = 0.
Proof.
  intros H20 Hm. rewrite a20_all by done. apply u32_aligned; [by left|].
  apply mask_aligned; [by left|by apply land_land_0..].
Qed.
Lemma table_pae_aligned m x k :
  a20_mask (m_cpu m) = -1 -> a20 m (Z.land x PHYS_ADDR_MASK + Z.shiftl k 3) mod Z.of_nat 8 = 0.
Proof.
  intros H20. rewrite a20_all by done. apply u32_aligned; [by right|].
  apply mask_aligned; [by right|by apply land_land_0|apply shiftl3_aligned].
Qed.
Lemma root_pae_aligned m x y :
  a20_mask (m_cpu m) = -1 -> a20 m (Z.land x (Z.lnot 0x1f) + Z.land y 0x18) mod Z.of_nat 8 = 0.
Proof.
  intros H20. rewrite a20_all by done. apply u32_aligned; [by right|].
  apply mask_aligned; [by right|by apply land_land_0..].
Qed.

(** Walks that set accessed and dirty bits do not change where an address leads. *)
Lemma resolve_same m m' addr :
  a20_mask (m_cpu m) = -1 -> same_tables (entry_size m) m m' -> resolve m' addr = resolve m addr.
Proof.
  unfold resolve, pae, entry_size, crn. intros H20 [Hc Ht]. rewrite Hc. fold (crn m 4) in *. fold (pae m) in *.
  assert (forall x, a20 m' x = a20 m x) as Ha by (intros; unfold a20; by rewrite Hc).
  assert (forall e, rsvd m' e = rsvd m e) as Hr by (intros; unfold rsvd; by rewrite Hc).
  destruct (pae m).
  - unfold resolve_pae. rewrite !Ha. replace (crn m' 3) with (crn m 3) by (unfold crn; by rewrite Hc).
    unfold ldq_phys. pose proof (Ht _ (root_pae_aligned m (crn m 3) (Z.shiftr addr 27) H20)) as E1.
    set (e1 := ld_phys m 8 _) in *. set (e1' := ld_phys m' 8 _) in *.
    rewrite (same_has e1' e1) by done. destruct (negb _); [done|]. rewrite ?Ha, (same_land e1' e1) by done.
    pose proof (Ht _ (table_pae_aligned m e1 (Z.land (Z.shiftr addr 21) 0x1ff) H20)) as E2.
    set (a2 := a20 m (Z.land e1 _ + _)) in *. set (e2 := ld_phys m 8 a2) in *. set (e2' := ld_phys m' 8 a2) in *.
    rewrite !Hr. unfold rsvd. rewrite !(same_has e2' e2), !(same_land e2' e2) by done.
    destruct (_ || _); [done|]. destruct (has e2 PG_PSE_MASK); [done|]. rewrite ?Ha.
    pose proof (Ht _ (table_pae_aligned m e2 (Z.land (Z.shiftr addr 12) 0x1ff) H20)) as E3.
    set (a3 := a20 m (Z.land e2 _ + _)) in *. set (e3 := ld_phys m 8 a3) in *. set (e3' := ld_phys m' 8 a3) in *.
    rewrite ?Hc. by rewrite !(same_has e3' e3), !(same_land e3' e3) by done.
  - unfold resolve_32. rewrite !Ha. replace (crn m' 3) with (crn m 3) by (unfold crn; by rewrite Hc).
    replace (crn m' 4) with (crn m 4) by (unfold crn; by rewrite Hc).
    unfold ldl_phys. pose proof (Ht _ (table_32_aligned m (crn m 3) (Z.shiftr addr 20) 0xffc H20 eq_refl)) as E1.
    set (a1 := a20 m (Z.land (crn m 3) _ + _)) in *. set (e1 := ld_phys m 4 a1) in *. set (e1' := ld_phys m' 4 a1) in *.
    rewrite !(same_has e1' e1), !(same_land e1' e1) by done. destruct (negb _); [done|]. destruct (_ && _); [done|].
    rewrite ?Ha. pose proof (Ht _ (table_32_aligned m e1 (Z.shiftr addr 10) 0xffc H20 eq_refl)) as E2.
    set (a2 := a20 m (Z.land e1 _ + _)) in *. set (e2 := ld_phys m 4 a2) in *. set (e2' := ld_phys m' 4 a2) in *.
    by rewrite !(same_has e2' e2), !(same_land e2' e2) by done.
Qed.

(** The bits a walk for an access sets are set. *)
Record settled (n : nat) (w : Z) (m : machine) (p : path) : Prop := {
  s_dir : forall d, p_dir p = Some d -> has (ld_phys m n d) PG_ACCESSED_MASK = true;
  s_leaf : has (ld_phys m n (p_leaf p)) PG_ACCESSED_MASK = true;
  s_dirty : is_write w = true -> has (ld_phys m n (p_leaf p)) PG_DIRTY_MASK = true
}.

(** What a walk does, given where the address leads. *)
Definition walk_does (n : nat) (addr w idx : Z) (m : machine) (r : option path) (o : wres entry) : Prop :=
  match r with
  | None => exists e m', o = WFault e m' /\ grows n m m'
  | Some p =>
      if denied (m_cpu m) w idx (p_user p) (p_rw p) (p_nx p) then exists e m', o = WFault e m' /\ grows n m m'
      else exists pte ptep m',
        o = WOk (pte, ptep, p_size p, u32 (Z.land addr (Z.lnot (p_size p - 1)))) m' /\ grows n m m' /\ settled n w m' p /\
        Z.land pte TARGET_PAGE_MASK = p_frame p /\ has pte PG_DIRTY_MASK = has (ld_phys m' n (p_leaf p)) PG_DIRTY_MASK /\
        has ptep PG_RW_MASK = p_rw p /\ has ptep PG_NX_MASK = p_nx p /\ (settled n w m p -> m' = m)
  end.

Lemma has_land x mask k : Z.land mask k = k -> has (Z.land x mask) k = has x k.
Proof. intros H. unfold has. by rewrite <-Z.land_assoc, H. Qed.

(** A single bit of a combination. *)
Lemma has_pow2 e i : 0 <= i -> has e (2 ^ i) = Z.testbit e i.
Proof.
  intros Hi. unfold has. destruct (Z.testbit e i) eqn:E.
  - apply negb_true_iff, Z.eqb_neq. intros H. apply (f_equal (fun z => Z.testbit z i)) in H.
    by rewrite Z.land_spec, E, Z.pow2_bits_true, Z.bits_0 in H.
  - apply negb_false_iff, Z.eqb_eq. apply Z.bits_inj'. intros j Hj. rewrite Z.land_spec, Z.bits_0, Z.pow2_bits_eqb by done.
    destruct (Z.eqb_spec i j) as [->|]; [by rewrite E|by rewrite andb_false_r].
Qed.

Lemma has_and e e' i : 0 <= i -> has (Z.land e e') (2 ^ i) = has e (2 ^ i) && has e' (2 ^ i).
Proof. intros Hi. by rewrite !has_pow2, Z.land_spec. Qed.
Lemma has_xor e e' i : 0 <= i -> has (Z.lxor e e') (2 ^ i) = xorb (has e (2 ^ i)) (has e' (2 ^ i)).
Proof. intros Hi. by rewrite !has_pow2, Z.lxor_spec. Qed.

Lemma no_nx_32 m a mask : has (Z.land (ld_phys m 4 a) mask) PG_NX_MASK = false.
Proof.
  change PG_NX_MASK with (2 ^ 63). rewrite has_pow2, Z.land_spec by done.
  pose proof (ld_phys_range m 4 a) as Hr. change (256 ^ Z.of_nat 4) with (2 ^ 32) in Hr.
  rewrite <-(Z.mod_small _ _ Hr), Z.mod_pow2_bits_high by lia. done.
Qed.

Lemma settled_grows n w m m' p :
  (forall d, p_dir p = Some d -> d mod Z.of_nat n = 0) -> p_leaf p mod Z.of_nat n = 0 ->
  grows n m m' -> settled n w m p -> settled n w m' p.
Proof. intros Hd Hl [_ Hg] [S1 S2 S3]. split; eauto. Qed.

Lemma guard_bind {A} b e (k : unit -> W A) m : wbind (wguard b e) k m = if b then WFault e m else k tt m.
Proof. by destruct b. Qed.
Lemma check_bind {A} w idx ptep (k : unit -> W A) m :
  wbind (check_access w idx ptep) k m =
  if denied (m_cpu m) w idx (has ptep PG_USER_MASK) (has ptep PG_RW_MASK) false
  then WFault PG_ERROR_P_MASK m else k tt m.
Proof. unfold wbind. rewrite check_access_denied. by destruct (denied _ _ _ _ _ _). Qed.

Section Walk.
Context (addr w idx : Z) (m : machine) (H20 : a20_mask (m_cpu m) = -1).

Lemma large_32_does a :
  a mod Z.of_nat 4 = 0 ->
  let pde := ldl_phys m a in
  walk_does 4 addr w idx m
    (Some (mkPath None a (has pde PG_USER_MASK) (has pde PG_RW_MASK) false
            (Z.land pde (Z.land (Z.lnot 0x003ff000) TARGET_PAGE_MASK)) (4096 * 1024)))
    (large_32 addr w idx a pde m).
Proof.
  intros Hal pde. unfold walk_does, large_32. cbn [p_user p_rw p_nx p_size p_leaf p_frame].
  destruct (denied _ _ _ _ _ _) eqn:Hden; rewrite check_bind, Hden; [by exists PG_ERROR_P_MASK, m|].
  destruct (touch_entry_grows w m 4 a) as (m' & Ht & Hg & HA & HD & Hid); [auto|done|].
  unfold wbind, pde, ldl_phys. rewrite Ht. pose proof (proj2 (proj1 Hg) a Hal) as Hs.
  eexists _, _, m'. split; [done|]. split_and!; try done.
  - rewrite <-Z.land_assoc. by apply same_land.
  - by apply has_land.
  - rewrite has_land by done. by apply same_has.
  - apply no_nx_32.
  - intros [_ S2 S3]. by apply Hid.
Qed.

Lemma small_32_does a :
  a mod Z.of_nat 4 = 0 ->
  let pde := ldl_phys m a in
  let pte_addr := a20 m (Z.land pde LOW_PAGE + Z.land (Z.shiftr addr 10) 0xffc) in
  let pte := ldl_phys m pte_addr in
  walk_does 4 addr w idx m
    (if negb (has pte PG_PRESENT_MASK) then None
     else Some (mkPath (Some a) pte_addr (has pte PG_USER_MASK && has pde PG_USER_MASK)
                 (has pte PG_RW_MASK && has pde PG_RW_MASK) false (Z.land pte TARGET_PAGE_MASK) 4096))
    (small_32 addr w idx a pde m).
Proof.
  intros Hal pde pte_addr pte. unfold small_32.
  assert (pte_addr mod Z.of_nat 4 = 0) as Hal2 by (by apply table_32_aligned).
  destruct (touch_dir_grows m 4 a) as (m1 & Ht & Hg1 & HA1 & Hid1); [auto|done|].
  unfold wbind at 1, pde, ldl_phys. rewrite Ht. unfold wbind at 1, wget.
  pose proof (proj2 (proj1 Hg1) a Hal) as Hs1. pose proof (proj2 (proj1 Hg1) pte_addr Hal2) as Hs2.
  assert (a20 m1 (Z.land (ld_phys m1 4 a) LOW_PAGE + Z.land (Z.shiftr addr 10) 0xffc) = pte_addr) as ->.
  { unfold pte_addr, pde, ldl_phys. rewrite (same_land _ _ LOW_PAGE Hs1) by done. unfold a20. by rewrite (proj1 (proj1 Hg1)). }
  unfold wbind at 1, wguard. rewrite (same_has _ _ PG_PRESENT_MASK Hs2) by done. fold (ldl_phys m pte_addr). fold pte.
  destruct (has pte PG_PRESENT_MASK); cbn [negb]; [|by exists 0, m1].
  unfold wret at 1, wbind at 1. rewrite check_access_denied, (proj1 (proj1 Hg1)).
  change PG_USER_MASK with (2 ^ 2). change PG_RW_MASK with (2 ^ 1). rewrite !has_and by done.
  change (2 ^ 2) with PG_USER_MASK. change (2 ^ 1) with PG_RW_MASK.
  rewrite !(same_has _ _ _ Hs1), !(same_has _ _ _ Hs2) by done. fold (ldl_phys m pte_addr) (ldl_phys m a). fold pte pde.
  unfold walk_does. cbn [p_user p_rw p_nx p_size p_leaf p_frame].
  destruct (denied _ _ _ _ _ _); [by exists PG_ERROR_P_MASK, m1|].
  destruct (touch_entry_grows w m1 4 pte_addr) as (m2 & Ht2 & Hg2 & HA2 & HD2 & Hid2); [auto|done|].
  unfold wbind. rewrite Ht2. pose proof (proj2 (proj1 Hg2) pte_addr Hal2) as Hs3.
  eexists _, _, m2. split; [done|]. split_and!; try done.
  - by etrans.
  - split; cbn [p_dir p_leaf]; try done. intros d [= <-]. by apply (proj2 Hg2).
  - rewrite (same_land _ _ TARGET_PAGE_MASK Hs3) by done. by apply same_land.
  - change PG_RW_MASK with (2 ^ 1). rewrite has_and by done. change (2 ^ 1) with PG_RW_MASK.
    by rewrite (same_has _ _ _ Hs1), (same_has _ _ _ Hs2) by done.
  - apply no_nx_32.
  - intros [S1 S2 S3]. cbn [p_dir p_leaf] in *. specialize (Hid1 (S1 _ eq_refl)). subst m1. by apply Hid2.
Qed.

Lemma walk_32_does : walk_does 4 addr w idx m (resolve_32 m addr) (walk_32 addr w idx m).
Proof.
  unfold walk_32, resolve_32, wbind at 1, wget. set (a := a20 m _).
  assert (a mod Z.of_nat 4 = 0) as Hal by (by apply table_32_aligned).
  unfold wbind, wguard. destruct (has (ldl_phys m a) PG_PRESENT_MASK); cbn [negb]; [|by exists 0, m].
  unfold wret. destruct (_ && _); [by apply large_32_does|by apply small_32_does].
Qed.

(** The rights that the entries of a PAE walk leave. *)
Definition FULL : Z := Z.lor (Z.lor PG_NX_MASK PG_USER_MASK) PG_RW_MASK.
Definition right_bit (i : Z) : Prop := i = 1 \/ i = 2.

Lemma full_right i e : right_bit i -> has (Z.lxor (Z.land FULL (Z.lxor e PG_NX_MASK)) PG_NX_MASK) (2 ^ i) = has e (2 ^ i).
Proof.
  intros Hi. assert (0 <= i) by (destruct Hi; lia). rewrite has_xor, has_and, has_xor by done.
  destruct Hi as [-> | ->]; (change (has FULL _) with true; change (has PG_NX_MASK _) with false; by rewrite !xorb_false_r).
Qed.
Lemma full_nx e : has (Z.lxor (Z.land FULL (Z.lxor e PG_NX_MASK)) PG_NX_MASK) PG_NX_MASK = has e PG_NX_MASK.
Proof.
  change PG_NX_MASK with (2 ^ 63). rewrite has_xor, has_and, has_xor by done.
  change (has FULL _) with true. change (has (2 ^ 63) (2 ^ 63)) with true. by destruct (has e _).
Qed.

Lemma both_right i e e' :
  right_bit i ->
  has (Z.lxor (Z.land (Z.land FULL (Z.lxor e PG_NX_MASK)) (Z.lxor e' PG_NX_MASK)) PG_NX_MASK) (2 ^ i) = has e (2 ^ i) && has e' (2 ^ i).
Proof.
  intros Hi. assert (0 <= i) by (destruct Hi; lia). rewrite has_xor, !has_and, !has_xor by done.
  destruct Hi as [-> | ->]; (change (has FULL _) with true; change (has PG_NX_MASK _) with false; by rewrite !xorb_false_r).
Qed.
Lemma both_nx e e' :
  has (Z.lxor (Z.land (Z.land FULL (Z.lxor e PG_NX_MASK)) (Z.lxor e' PG_NX_MASK)) PG_NX_MASK) PG_NX_MASK =
  has e PG_NX_MASK || has e' PG_NX_MASK.
Proof.
  change PG_NX_MASK with (2 ^ 63). rewrite has_xor, !has_and, !has_xor by done.
  change (has FULL _) with true. change (has (2 ^ 63) (2 ^ 63)) with true. by destruct (has e _), (has e' _).
Qed.

(** The no-execute test, then the others. *)
Lemma denied_split env user rw nx :
  denied env w idx user rw nx = (nx && (w =? 2)) || denied env w idx user rw false.
Proof. unfold denied. cbn [andb orb]. by destruct nx, (w =? 2). Qed.

Lemma pae_large_does a :
  a mod Z.of_nat 8 = 0 ->
  let pde := ldq_phys m a in
  walk_does 8 addr w idx m
    (Some (mkPath None a (has pde PG_USER_MASK) (has pde PG_RW_MASK) (has pde PG_NX_MASK)
              (Z.land pde (Z.land PHYS_ADDR_MASK (Z.lnot (2048 * 1024 - 1)))) (2048 * 1024)))
    (pae_large addr w idx a pde (Z.land FULL (Z.lxor pde PG_NX_MASK)) m).
Proof.
  intros Hal pde. unfold walk_does, pae_large. cbn [p_user p_rw p_nx p_size p_leaf p_frame].
  set (ptep := Z.lxor _ _). pose proof (full_nx pde) as Hnx. fold ptep in Hnx.
  pose proof (full_right 2 pde (or_intror eq_refl) : has ptep PG_USER_MASK = has pde PG_USER_MASK) as Hu.
  pose proof (full_right 1 pde (or_introl eq_refl) : has ptep PG_RW_MASK = has pde PG_RW_MASK) as Hrw.
  rewrite denied_split. destruct (has pde PG_NX_MASK && (w =? 2)) eqn:Hx; cbn [orb];
    rewrite guard_bind, Hnx, Hx; [by exists PG_ERROR_P_MASK, m|].
  destruct (denied _ _ _ _ _ _) eqn:Hden; rewrite check_bind, Hu, Hrw, Hden; [by exists PG_ERROR_P_MASK, m|].
  destruct (touch_entry_grows w m 8 a) as (m' & Ht & Hg & HA & HD & Hid); [auto|done|].
  unfold wbind, pde, ldq_phys. rewrite Ht. pose proof (proj2 (proj1 Hg) a Hal) as Hs.
  eexists _, ptep, m'. split; [done|]. split_and!; try done.
  - rewrite <-Z.land_assoc. by apply same_land.
  - by apply has_land.
  - intros [_ S2 S3]. by apply Hid.
Qed.

Lemma pae_small_does a :
  a mod Z.of_nat 8 = 0 ->
  let pde := ldq_phys m a in
  let pte_addr := a20 m (Z.land pde PHYS_ADDR_MASK + Z.shiftl (Z.land (Z.shiftr addr 12) 0x1ff) 3) in
  let pte := ldq_phys m pte_addr in
  walk_does 8 addr w idx m
    (if negb (has pte PG_PRESENT_MASK) || rsvd m pte then None
     else Some (mkPath (Some a) pte_addr (has pde PG_USER_MASK && has pte PG_USER_MASK)
                   (has pde PG_RW_MASK && has pte PG_RW_MASK) (has pde PG_NX_MASK || has pte PG_NX_MASK)
                   (Z.land pte PHYS_ADDR_MASK) 4096))
    (pae_small addr w idx a pde (Z.land FULL (Z.lxor pde PG_NX_MASK)) m).
Proof.
  intros Hal pde pte_addr pte. unfold pae_small.
  assert (pte_addr mod Z.of_nat 8 = 0) as Hal2 by (by apply table_pae_aligned).
  destruct (touch_dir_grows m 8 a) as (m1 & Ht & Hg1 & HA1 & Hid1); [auto|done|].
  unfold wbind at 1, pde, ldq_phys. rewrite Ht. unfold wbind at 1, wget.
  pose proof (proj2 (proj1 Hg1) a Hal) as Hs1. pose proof (proj2 (proj1 Hg1) pte_addr Hal2) as Hs2.
  pose proof (proj1 (proj1 Hg1)) as Hc.
  assert (a20 m1 (Z.land (ld_phys m1 8 a) PHYS_ADDR_MASK + Z.shiftl (Z.land (Z.shiftr addr 12) 0x1ff) 3) = pte_addr) as ->.
  { unfold pte_addr, pde, ldq_phys. rewrite (same_land _ _ PHYS_ADDR_MASK Hs1) by done. unfold a20. by rewrite Hc. }
  rewrite guard_bind, (same_has _ _ PG_PRESENT_MASK Hs2) by done. fold (ldq_phys m pte_addr). fold pte.
  destruct (has pte PG_PRESENT_MASK); cbn [negb orb]; [|by exists 0, m1].
  unfold check_nx_reserved at 1. rewrite guard_bind, Hc, (same_has _ _ PG_NX_MASK Hs2) by done.
  fold (ldq_phys m pte_addr). fold pte. fold (rsvd m pte). destruct (rsvd m pte); [by exists PG_ERROR_RSVD_MASK, m1|].
  fold (ldq_phys m a). fold pde. fold (ldq_phys m1 pte_addr).
  set (pte1 := ldq_phys m1 pte_addr). set (ptep := Z.lxor (Z.land _ _) PG_NX_MASK).
  pose proof (both_nx pde pte1 : has ptep PG_NX_MASK = _) as Hnx.
  pose proof (both_right 2 pde pte1 (or_intror eq_refl) : has ptep PG_USER_MASK = has pde PG_USER_MASK && has pte1 PG_USER_MASK) as Hu.
  pose proof (both_right 1 pde pte1 (or_introl eq_refl) : has ptep PG_RW_MASK = has pde PG_RW_MASK && has pte1 PG_RW_MASK) as Hrw.
  rewrite (same_has pte1 pte PG_NX_MASK Hs2) in Hnx by done. rewrite (same_has pte1 pte PG_USER_MASK Hs2) in Hu by done.
  rewrite (same_has pte1 pte PG_RW_MASK Hs2) in Hrw by done.
  unfold walk_does. cbn [p_user p_rw p_nx p_size p_leaf p_frame].
  rewrite denied_split. destruct (_ && (w =? 2)) eqn:Hx; cbn [orb];
    rewrite guard_bind, Hnx, Hx; [by exists PG_ERROR_P_MASK, m1|].
  destruct (denied _ _ _ _ _ _) eqn:Hden; rewrite check_bind, Hc, Hu, Hrw, Hden; [by exists PG_ERROR_P_MASK, m1|].
  destruct (touch_entry_grows w m1 8 pte_addr) as (m2 & Ht2 & Hg2 & HA2 & HD2 & Hid2); [auto|done|].
  unfold wbind, pte1, ldq_phys. rewrite Ht2. pose proof (proj2 (proj1 Hg2) pte_addr Hal2) as Hs3.
  eexists _, ptep, m2. split; [done|]. split_and!; try done.
  - by etrans.
  - split; cbn [p_dir p_leaf]; try done. intros d [= <-]. by apply (proj2 Hg2).
  - rewrite <-Z.land_assoc, (same_land _ _ _ Hs3) by done. by apply same_land.
  - by apply has_land.
  - intros [S1 S2 S3]. cbn [p_dir p_leaf] in *. specialize (Hid1 (S1 _ eq_refl)). subst m1. by apply Hid2.
Qed.

Lemma walk_pae_does : walk_does 8 addr w idx m (resolve_pae m addr) (walk_pae addr w idx m).
Proof.
  unfold walk_pae, resolve_pae, wbind at 1, wget. rewrite guard_bind.
  destruct (has (ldq_phys m (a20 m (Z.land (crn m 3) _ + _))) PG_PRESENT_MASK); cbn [negb]; [|by exists 0, m].
  set (a := a20 m (Z.land (ldq_phys m _) _ + _)).
  assert (a mod Z.of_nat 8 = 0) as Hal by (by apply table_pae_aligned).
  rewrite guard_bind. destruct (has (ldq_phys m a) PG_PRESENT_MASK); cbn [negb orb]; [|by exists 0, m].
  unfold check_nx_reserved. rewrite guard_bind. fold (rsvd m (ldq_phys m a)).
  destruct (rsvd m (ldq_phys m a)); [by exists PG_ERROR_RSVD_MASK, m|].
  destruct (has (ldq_phys m a) PG_PSE_MASK); [by apply pae_large_does|by apply pae_small_does].
Qed.

Lemma walk_does_it :
  walk_does (entry_size m) addr w idx m (resolve m addr) ((if pae m then walk_pae addr w idx else walk_32 addr w idx) m).
Proof. unfold entry_size, resolve. destruct (pae m); [apply walk_pae_does|apply walk_32_does]. Qed.
End Walk.
