(* ===== verification/TlbCoh.v ===== *)
(** * Translations that agree with the page tables

    What [cpu_x86_handle_mmu_fault] enters into the TLB is what it would enter
    again, for any access the entry allows, as long as the tables are not changed
    other than by walks. Supervisor-mode execution and access prevention are the
    exceptions. *)

From stdpp Require Import base list.
From Stdlib Require Import ZArith Lia.
From S2P Require Import Prelude Cpu CcHelper Xed Guest Mmu MmuWalk Tlb TlbInv TlbWalk.

Local Open Scope Z_scope.

Definition paging (env : CPUX86State) : bool := has (nth 0 (cr env) 0) CR0_PG_MASK.

(** ** The mapping a walk gives *)

Definition path_paddr (a : Z) (p : path) : Z := u64 (p_frame p + u32 (Z.land (page_of a) (p_size p - 1))).

Definition path_prot (n : nat) (idx : Z) (m : machine) (p : path) : Z :=
  let prot := if negb (p_nx p) then Z.lor PAGE_READ PAGE_EXEC else PAGE_READ in
  if has (ld_phys m n (p_leaf p)) PG_DIRTY_MASK &&
     (if is_user idx then p_rw p else negb (has (crn m 0) CR0_WP_MASK) || p_rw p)
  then Z.lor prot PAGE_WRITE else prot.

Lemma path_prot_eq n idx m p pte ptep :
  has pte PG_DIRTY_MASK = has (ld_phys m n (p_leaf p)) PG_DIRTY_MASK -> has ptep PG_RW_MASK = p_rw p -> has ptep PG_NX_MASK = p_nx p ->
  page_prot idx m pte ptep = path_prot n idx m p.
Proof.
  intros H1 H2 H3. unfold page_prot, path_prot. rewrite H1, H2, H3.
  by destruct (has (ld_phys m n (p_leaf p)) PG_DIRTY_MASK), (is_user idx), (p_rw p), (negb (has (crn m 0) CR0_WP_MASK)).
Qed.

Lemma resolve_size m addr p : resolve m addr = Some p -> exists k, p_size p = 2 ^ k /\ 12 <= k <= 22.
Proof.
  unfold resolve, resolve_pae, resolve_32. cbv zeta. intros H. repeat case_match; simplify_eq; cbn [p_size];
  [by exists 21|by exists 12|by exists 22|by exists 12].
Qed.

(** Entries are aligned. *)
Lemma resolve_aligned m addr p :
  a20_mask (m_cpu m) = -1 -> resolve m addr = Some p ->
  (forall d, p_dir p = Some d -> d mod Z.of_nat (entry_size m) = 0) /\ p_leaf p mod Z.of_nat (entry_size m) = 0.
Proof.
  intros H20. unfold resolve, entry_size. destruct (pae m); [unfold resolve_pae|unfold resolve_32]; cbv zeta;
  intros H; repeat case_match; simplify_eq; cbn [p_dir p_leaf]; (split; [intros d Hd; simplify_eq|]);
  by apply table_pae_aligned || by apply table_32_aligned.
Qed.

Lemma resolve_frame m addr p :
  resolve m addr = Some p -> 0 <= p_frame p < 2 ^ 36 /\ p_frame p = page_of (p_frame p).
Proof.
  assert (forall e mask, 0 <= e -> Z.land mask 0xfff = 0 -> Z.land e mask = page_of (Z.land e mask)) as Hp.
  { intros e mask _ Hm. rewrite <-page_mask_of, <-Z.land_assoc. f_equal. unfold TARGET_PAGE_MASK.
    change (TARGET_PAGE_SIZE - 1) with 0xfff. apply Z.bits_inj'. intros i Hi. apply (f_equal (fun z => Z.testbit z i)) in Hm.
    rewrite Z.land_spec, Z.bits_0 in Hm. rewrite Z.land_spec, Z.lnot_spec by done. by destruct (Z.testbit mask i), (Z.testbit 0xfff i). }
  assert (forall e mask, 0 <= e < 2 ^ 32 -> 0 <= Z.land e mask < 2 ^ 36) as H32.
  { intros e mask He. split; [apply Z.land_nonneg; lia|]. rewrite <-(Z.mod_small e (2 ^ 32)), <-Z.land_ones by lia.
    rewrite <-Z.land_assoc, (Z.land_comm (Z.ones 32)), Z.land_assoc, Z.land_ones by lia.
    pose proof (Z.mod_pos_bound (Z.land e mask) (2 ^ 32)). lia. }
  assert (forall e mask, Z.land mask (Z.ones 36) = mask -> 0 <= Z.land e mask < 2 ^ 36) as H36.
  { intros e mask <-. rewrite Z.land_assoc, Z.land_ones by done. by apply Z.mod_pos_bound. }
  unfold resolve, resolve_pae, resolve_32. cbv zeta. intros H. repeat case_match; simplify_eq; cbn [p_frame].
  all: unfold ldl_phys, ldq_phys in *; split; [|apply Hp; [apply ld_phys_range|done]].
  1, 2: by apply H36.
  all: apply H32; exact (ld_phys_range m 4 _).
Qed.

Section Fault.
Context (a w idx : Z) (m : machine) (Ha : in_range 32 a) (H20 : a20_mask (m_cpu m) = -1) (Hpg : paging (m_cpu m) = true).

(** The fault handler in terms of the path. *)
Lemma handle_spec :
  match resolve m a with
  | Some p =>
      if denied (m_cpu m) w idx (p_user p) (p_rw p) (p_nx p)
      then exists m', cpu_x86_handle_mmu_fault a w idx m = (None, m')
      else exists m',
        cpu_x86_handle_mmu_fault a w idx m =
          (Some (mkTlb (page_of a) (path_paddr a p) (path_prot (entry_size m) idx m' p) idx (p_size p)), m') /\
        grows (entry_size m) m m' /\ settled (entry_size m) w m' p /\ (settled (entry_size m) w m p -> m' = m)
  | None => exists m', cpu_x86_handle_mmu_fault a w idx m = (None, m')
  end.
Proof.
  pose proof (walk_does_it a w idx m H20) as Hw. unfold cpu_x86_handle_mmu_fault. unfold paging in Hpg.
  fold (crn m 0) in Hpg. rewrite Hpg. cbn [negb]. fold (pae m).
  destruct (resolve m a) as [p|] eqn:Hres; cbn [walk_does] in Hw.
  2: { destruct Hw as (e & m' & -> & _). eauto. }
  destruct (denied _ _ _ _ _ _).
  { destruct Hw as (e & m' & -> & _). eauto. }
  destruct Hw as (pte & ptep & m' & -> & Hg & Hs & Hf & HD & HR & HN & Hid). exists m'. split; [|done].
  destruct (resolve_size m a p Hres) as (k & Hk & Hk').
  destruct (do_mapping_page a idx m' pte (page_prot idx m' pte ptep) (p_size p) k) as [H1 H2]; [done|by rewrite (proj1 (proj1 Hg))|done..|].
  rewrite (path_prot_eq (entry_size m) _ _ p) in * by done. f_equal. f_equal.
  unfold do_mapping in *. cbn [t_vaddr t_paddr] in *. f_equal; [done|]. rewrite H2, Hf, page_mask_of, page_of_page. done.
Qed.
End Fault.

(** ** Agreement with the tables *)

(** Loads and stores; fetches where supervisor mode is not kept from user pages. *)
Definition plain_access (env : CPUX86State) (w : Z) : Prop :=
  w = 0 \/ w = 1 \/
  (w = 2 /\ has (nth 4 (cr env) 0) CR4_SMEP_MASK = false /\ has (nth 4 (cr env) 0) CR4_SMAP_MASK = false).

(** The MMU would map the address to frame [paddr] now, and find nothing to update. *)
Definition agree (env : CPUX86State) (p : Z -> Z) (idx a w paddr : Z) : Prop :=
  exists e', cpu_x86_handle_mmu_fault a w idx (mkMachine env p) = (Some e', mkMachine env p) /\ t_paddr e' = paddr.

(** This holds for each access [e] allows. *)
Definition coh (env : CPUX86State) (p : Z -> Z) (e : tlb_entry) : Prop :=
  forall a w, in_range 32 a -> page_of a = t_vaddr e -> plain_access env w -> has (t_prot e) (access_of w) = true ->
    agree env p (t_idx e) a w (t_paddr e).

(** An access that the protection allows passes the checks of the walk, once one
    access has. *)
Lemma granted n idx m p w w' :
  denied (m_cpu m) w idx (p_user p) (p_rw p) (p_nx p) = false ->
  plain_access (m_cpu m) w -> plain_access (m_cpu m) w' -> has (path_prot n idx m p) (access_of w') = true ->
  denied (m_cpu m) w' idx (p_user p) (p_rw p) (p_nx p) = false /\
  (is_write w' = true -> has (ld_phys m n (p_leaf p)) PG_DIRTY_MASK = true).
Proof.
  unfold plain_access, path_prot, denied, is_user, crn.
  generalize (has (nth 4 (cr (m_cpu m)) 0) CR4_SMEP_MASK) (has (nth 4 (cr (m_cpu m)) 0) CR4_SMAP_MASK)
    (has (nth 0 (cr (m_cpu m)) 0) CR0_WP_MASK) (has (ld_phys m n (p_leaf p)) PG_DIRTY_MASK) (p_user p) (p_rw p) (p_nx p).
  intros smep smap wp d user rw nx Hd Hw Hw'.
  destruct Hw as [->|[->|(-> & -> & ->)]], Hw' as [->|[->|(-> & H1 & H2)]]; subst; unfold access_of, is_write in *; cbn in *;
    (destruct (idx =? MMU_USER_IDX); [|destruct (idx =? MMU_KERNEL_IDX); [|destruct (idx =? MMU_KSMAP_IDX)]]);
    destruct nx, rw; try done; destruct user; try done; destruct d; try done; destruct wp; try done; try destruct smap; done.
Qed.

Lemma resolve_page m a : resolve m (page_of a) = resolve m a.
Proof.
  unfold resolve, resolve_pae, resolve_32.
  by rewrite !(index_page a 27), !(index_page a 21), !(index_page a 12), !(index_page a 20), !(index_page a 10) by done.
Qed.

(** Frames of RAM. *)
Definition paddr_ok (x : Z) : Prop := 0 <= x < 2 ^ 40 /\ x = page_of x.

Lemma path_paddr_ok m a a' p : resolve m a' = Some p -> paddr_ok (path_paddr a p).
Proof.
  intros H. destruct (resolve_size _ _ _ H) as (k & Hk & Hk'). destruct (resolve_frame _ _ _ H) as [Hf Hp].
  unfold path_paddr. rewrite Hk. replace (2 ^ k - 1) with (Z.ones k) by (rewrite Z.ones_equiv; lia).
  rewrite Z.land_ones by lia. assert (0 < 2 ^ k <= 2 ^ 22) as Hb by (split; [apply Z.pow_pos_nonneg|apply Z.pow_le_mono_r]; lia).
  pose proof (Z.mod_pos_bound (page_of a) (2 ^ k) ltac:(lia)) as Hm.
  assert (page_of a mod 2 ^ k = page_of (page_of a mod 2 ^ k)) as Hpm.
  { replace k with (12 + (k - 12)) by lia. rewrite Z.pow_add_r by lia. change (2 ^ 12) with 4096. unfold page_of.
    rewrite !(Z.mul_comm (a / 4096)), !Z.mul_mod_distr_l by (try apply Z.pow_nonzero; lia).
    by rewrite (Z.mul_comm 4096 (_ mod _)), Z.div_mul by lia. }
  set (x := page_of a mod 2 ^ k) in *. rewrite (u32_id x) by lia. unfold u64. rewrite wrap_id by lia.
  split; [lia|]. unfold page_of in *. Z.to_euclidean_division_equations; lia.
Qed.

(** What the TLB row for [a] must say, walking [m]. *)
Lemma coh_intro env p e pa :
  paging env = true -> a20_mask env = -1 ->
  (forall a, page_of a = t_vaddr e -> resolve (mkMachine env p) a = Some pa) ->
  t_paddr e = path_paddr (t_vaddr e) pa ->
  (forall w, plain_access env w -> has (t_prot e) (access_of w) = true ->
     denied env w (t_idx e) (p_user pa) (p_rw pa) (p_nx pa) = false /\
     settled (entry_size (mkMachine env p)) w (mkMachine env p) pa) ->
  coh env p e.
Proof.
  intros Hpg H20 Hres Hpa Hok a w Ha Hpage Hpl Hw. destruct (Hok w Hpl Hw) as [Hd Hs].
  pose proof (handle_spec a w (t_idx e) (mkMachine env p) Ha H20 Hpg) as H. cbn [m_cpu] in H. rewrite (Hres a Hpage), Hd in H.
  destruct H as (m' & H & _ & _ & Hid). unfold agree. rewrite H, (Hid Hs). eexists. split; [done|].
  cbn [t_paddr]. rewrite Hpa. unfold path_paddr. by rewrite <-Hpage, page_of_page.
Qed.

(** ... and the converse, for one access. *)
Lemma agree_elim env p idx a w paddr :
  paging env = true -> a20_mask env = -1 -> in_range 32 a -> agree env p idx a w paddr ->
  exists pa, resolve (mkMachine env p) a = Some pa /\ paddr = path_paddr a pa /\
    denied env w idx (p_user pa) (p_rw pa) (p_nx pa) = false /\
    settled (entry_size (mkMachine env p)) w (mkMachine env p) pa.
Proof.
  intros Hpg H20 Ha (e' & He & Hp).
  pose proof (handle_spec a w idx (mkMachine env p) Ha H20 Hpg) as H. cbn [m_cpu] in H.
  destruct (resolve (mkMachine env p) a) as [pa|]; [|destruct H as [m' H]; congruence].
  exists pa. destruct (denied _ _ _ _ _ _) eqn:Hd; [destruct H as [m' H]; congruence|].
  destruct H as (m' & H & _ & Hs & _). rewrite He in H. injection H as He' Hm. split; [done|].
  rewrite <-Hm in Hs. split_and!; try done. by rewrite <-Hp, He'.
Qed.

(** Walks leave translations that agree alone. *)
Lemma agree_grows env p p' idx a w paddr :
  paging env = true -> a20_mask env = -1 -> in_range 32 a ->
  grows (entry_size (mkMachine env p)) (mkMachine env p) (mkMachine env p') -> agree env p idx a w paddr -> agree env p' idx a w paddr.
Proof.
  intros Hpg H20 Ha Hg Hc.
  destruct (agree_elim env p idx a w paddr Hpg H20 Ha Hc) as (pa & Hres & Hpa & Hd & Hs).
  pose proof (handle_spec a w idx (mkMachine env p') Ha H20 Hpg) as H. cbn [m_cpu] in H.
  rewrite (resolve_same (mkMachine env p)), Hres, Hd in H by (done || apply Hg).
  destruct H as (m' & H & _ & _ & Hid). unfold agree. rewrite H, Hid.
  - eexists. by split.
  - change (entry_size (mkMachine env p')) with (entry_size (mkMachine env p)).
    destruct (resolve_aligned (mkMachine env p) a pa H20 Hres) as [Hal1 Hal2]. by eapply settled_grows.
Qed.

(** The page the handler returns. *)
Record filled (env : CPUX86State) (a w idx : Z) (p p' : Z -> Z) (e : tlb_entry) : Prop := {
  f_ok : fill_ok e;
  f_idx : t_idx e = idx;
  f_vaddr : t_vaddr e = page_of a;
  f_paddr : paddr_ok (t_paddr e);
  f_prot : has (t_prot e) (access_of w) = true;
  f_coh : coh env p' e;
  f_others : forall idx' a' w' paddr, in_range 32 a' -> agree env p idx' a' w' paddr -> agree env p' idx' a' w' paddr
}.

Lemma path_prot_allows n w idx m p :
  denied (m_cpu m) w idx (p_user p) (p_rw p) (p_nx p) = false -> settled n w m p -> 0 <= idx < NB_MMU_MODES ->
  plain_access (m_cpu m) w -> has (path_prot n idx m p) (access_of w) = true.
Proof.
  intros Hd [_ _ HD] Hidx Hpl. unfold path_prot, denied, is_user, crn in *.
  assert (idx = MMU_USER_IDX \/ idx = MMU_KERNEL_IDX \/ idx = MMU_KSMAP_IDX) as Hi
    by (unfold NB_MMU_MODES, MMU_USER_IDX, MMU_KERNEL_IDX, MMU_KSMAP_IDX in *; lia).
  destruct Hpl as [->|[->|(-> & _ & _)]].
  - clear Hd. unfold access_of. cbn [Z.eqb]. by destruct (p_nx p), (_ && _).
  - rewrite HD by done. unfold is_write in Hd. cbn [Z.testbit Z.odd Z.eqb negb andb orb access_of] in *. rewrite andb_false_r in Hd. cbn [orb] in Hd.
    destruct Hi as [->|[->| ->]]; cbn in Hd |- *; destruct (p_rw p); rewrite ?orb_true_r; try (by destruct (p_nx p));
      destruct (has (nth 0 (cr (m_cpu m)) 0) CR0_WP_MASK), (p_user p), (has (nth 4 (cr (m_cpu m)) 0) CR4_SMAP_MASK); try discriminate; by destruct (p_nx p).
  - cbn [Z.eqb] in Hd. rewrite andb_true_r in Hd. apply orb_false_iff in Hd as [-> _]. by destruct (_ && _).
Qed.

(** Without paging, pages are mapped to themselves. *)
Lemma handle_unpaged a w idx env p :
  in_range 32 a -> a20_mask env = -1 -> paging env = false ->
  cpu_x86_handle_mmu_fault a w idx (mkMachine env p) =
    (Some (mkTlb (page_of a) (page_of a) (Z.lor (Z.lor PAGE_READ PAGE_WRITE) PAGE_EXEC) idx 4096), mkMachine env p).
Proof.
  intros Ha H20 Hpg. unfold cpu_x86_handle_mmu_fault, crn. cbn [m_cpu]. unfold paging in Hpg. rewrite Hpg. cbn [negb].
  destruct (do_mapping_page a idx (mkMachine env p) a (Z.lor (Z.lor PAGE_READ PAGE_WRITE) PAGE_EXEC) 4096 12) as [H1 H2]; [done..|lia|].
  unfold do_mapping in *. cbn [t_vaddr t_paddr m_cpu] in *.
  change (Z.lnot (4096 - 1)) with TARGET_PAGE_MASK in H1. rewrite H1, H2. do 3 f_equal.
  rewrite !page_mask_of, page_of_page. change (4096 - 1) with (Z.ones 12). rewrite Z.land_ones by done.
  change (2 ^ 12) with 4096. unfold page_of at 2. rewrite Z.mod_mul by done. unfold u64. rewrite Z.add_0_r.
  apply wrap_id. pose proof (page_of_range a Ha). lia.
Qed.

Lemma handle_fills a w idx env p e m' :
  in_range 32 a -> 0 <= idx < NB_MMU_MODES -> a20_mask env = -1 -> plain_access env w ->
  cpu_x86_handle_mmu_fault a w idx (mkMachine env p) = (Some e, m') ->
  m_cpu m' = env /\ filled env a w idx p (m_phys m') e.
Proof.
  intros Ha Hidx H20 Hpl H. destruct (paging env) eqn:Hpg.
  - pose proof (handle_spec a w idx (mkMachine env p) Ha H20 Hpg) as Hs. cbn [m_cpu] in Hs.
    destruct (resolve (mkMachine env p) a) as [pa|] eqn:Hres; [|destruct Hs; congruence].
    destruct (denied _ _ _ _ _ _) eqn:Hd; [destruct Hs; congruence|].
    destruct Hs as (m1 & Hs & Hg & Hset & _). rewrite H in Hs. injection Hs as -> <-.
    pose proof (proj1 (proj1 Hg)) as Hc. cbn [m_cpu] in Hc. split; [done|]. destruct m' as [env' p']. cbn [m_cpu m_phys] in *. subst env'.
    destruct (resolve_size _ _ _ Hres) as (k & Hk & Hk').
    assert (path_paddr (page_of a) pa = path_paddr a pa) as Hpp by (unfold path_paddr; by rewrite page_of_page).
    split; cbn [t_idx t_vaddr t_paddr t_prot t_size]; try done.
    + split; cbn [t_idx t_vaddr t_paddr t_prot t_size]; [by rewrite page_of_page|by apply page_of_range|done|exists k; split; [done|lia]].
    + by eapply path_paddr_ok.
    + by apply path_prot_allows.
    + apply (coh_intro env p' _ pa Hpg H20); cbn [t_idx t_vaddr t_paddr t_prot].
      * intros a' Ha'. rewrite (resolve_same (mkMachine env p)), <-(resolve_page _ a'), Ha', resolve_page by (done || apply Hg). done.
      * done.
      * intros w' Hpl' Hp. destruct (granted (entry_size (mkMachine env p)) idx (mkMachine env p') pa w w' Hd Hpl Hpl' Hp) as [Hd' HD].
        split; [done|]. destruct Hset as [S1 S2 S3]. by split.
    + intros idx' a' w' paddr Ha' He'. by eapply agree_grows.
  - rewrite handle_unpaged in H by done. injection H as <- <-. split; [done|]. cbn [m_phys].
    assert (paddr_ok (page_of a)) as Hp.
    { pose proof (page_of_range a Ha). split; [lia|by rewrite page_of_page]. }
    split; cbn [t_idx t_vaddr t_paddr t_prot t_size]; try done.
    + split; cbn [t_idx t_vaddr t_paddr t_prot t_size]; [by rewrite page_of_page|by apply page_of_range|done|by exists 12].
    + by destruct Hpl as [->|[->|(-> & _)]].
    + intros a' w' Ha' Hpage _ _. cbn [t_vaddr t_idx t_paddr] in *. unfold agree. rewrite handle_unpaged by done.
      eexists. by split; [|rewrite <-Hpage].
Qed.

(** ** Supervisor-mode prevention is forgotten *)

Lemma handle_denied a w idx m p :
  in_range 32 a -> a20_mask (m_cpu m) = -1 -> paging (m_cpu m) = true -> resolve m a = Some p ->
  denied (m_cpu m) w idx (p_user p) (p_rw p) (p_nx p) = true ->
  exists m', cpu_x86_handle_mmu_fault a w idx m = (None, m').
Proof. intros Ha H20 Hpg Hres Hd. pose proof (handle_spec a w idx m Ha H20 Hpg) as H. by rewrite Hres, Hd in H. Qed.

Lemma handle_allowed a w idx m p :
  in_range 32 a -> a20_mask (m_cpu m) = -1 -> paging (m_cpu m) = true -> resolve m a = Some p ->
  denied (m_cpu m) w idx (p_user p) (p_rw p) (p_nx p) = false ->
  exists m', cpu_x86_handle_mmu_fault a w idx m =
    (Some (mkTlb (page_of a) (path_paddr a p) (path_prot (entry_size m) idx m' p) idx (p_size p)), m') /\
    grows (entry_size m) m m'.
Proof.
  intros Ha H20 Hpg Hres Hd. pose proof (handle_spec a w idx m Ha H20 Hpg) as H. rewrite Hres, Hd in H.
  destruct H as (m' & H1 & H2 & _). eauto.
Qed.

(** The TLB entry does not record that supervisor mode is kept from user
    pages. With SMEP, a supervisor load from an executable user page enters a
    translation that allows the fetch, which the walk itself refuses; with SMAP and
    without SMEP, a fetch enters one that allows loads, which the walk refuses. *)
Theorem smep_smap_bypassed a m p :
  in_range 32 a -> a20_mask (m_cpu m) = -1 -> paging (m_cpu m) = true ->
  resolve m a = Some p -> p_user p = true -> p_nx p = false ->
  let smep := has (crn m 4) CR4_SMEP_MASK in
  let smap := has (crn m 4) CR4_SMAP_MASK in
  (smep = true -> exists e m' m'',
     cpu_x86_handle_mmu_fault a 0 MMU_KSMAP_IDX m = (Some e, m') /\ has (t_prot e) PAGE_EXEC = true /\
     cpu_x86_handle_mmu_fault a 2 MMU_KSMAP_IDX m' = (None, m'')) /\
  (smep = false -> smap = true -> exists e m' m'',
     cpu_x86_handle_mmu_fault a 2 MMU_KERNEL_IDX m = (Some e, m') /\ has (t_prot e) PAGE_READ = true /\
     cpu_x86_handle_mmu_fault a 0 MMU_KERNEL_IDX m' = (None, m'')).
Proof.
  intros Ha H20 Hpg Hres Hu Hn smep smap. unfold smep, smap, crn.
  assert (forall w idx m', grows (entry_size m) m m' -> denied (m_cpu m) w idx (p_user p) (p_rw p) (p_nx p) = true ->
    exists m'', cpu_x86_handle_mmu_fault a w idx m' = (None, m'')) as Hden.
  { intros w idx m' [[Hc Ht] _] Hd. apply (handle_denied a w idx m' p); rewrite ?Hc; try done.
    by rewrite (resolve_same m m') by done. }
  split.
  - intros Hs. destruct (handle_allowed a 0 MMU_KSMAP_IDX m p) as (m' & H1 & Hg); try done.
    { unfold denied, is_write. cbn. by rewrite Hn, !andb_false_r. }
    destruct (Hden 2 MMU_KSMAP_IDX m' Hg) as [m'' H2].
    { unfold denied. rewrite Hs, Hu, Hn. done. }
    exists (mkTlb (page_of a) (path_paddr a p) (path_prot (entry_size m) MMU_KSMAP_IDX m' p) MMU_KSMAP_IDX (p_size p)), m', m''.
    split; [done|]. split; [|done]. cbn [t_prot]. unfold path_prot. rewrite Hn. by destruct (_ && _).
  - intros Hs Hp. destruct (handle_allowed a 2 MMU_KERNEL_IDX m p) as (m' & H1 & Hg); try done.
    { unfold denied, is_write. rewrite Hn, Hs. cbn. by rewrite !andb_false_r. }
    destruct (Hden 0 MMU_KERNEL_IDX m' Hg) as [m'' H2].
    { unfold denied. rewrite Hp, Hu, Hn. done. }
    exists (mkTlb (page_of a) (path_paddr a p) (path_prot (entry_size m) MMU_KERNEL_IDX m' p) MMU_KERNEL_IDX (p_size p)), m', m''.
    split; [done|]. split; [|done]. cbn [t_prot]. unfold path_prot. rewrite Hn. by destruct (_ && _).
Qed.

(** The tables of [demo_machine], with the user page 0x3000, and SMEP on. *)
Definition smep_machine : machine :=
  mkMachine (with_cr [CR0_PG_MASK; 0; 0; 0x1000; CR4_SMEP_MASK] blank_cpu) demo_phys.

Lemma smep_smap_bypassed_witness :
  exists e m' m'', cpu_x86_handle_mmu_fault 0x3abc 0 MMU_KSMAP_IDX smep_machine = (Some e, m') /\
    has (t_prot e) PAGE_EXEC = true /\ cpu_x86_handle_mmu_fault 0x3abc 2 MMU_KSMAP_IDX m' = (None, m'').
Proof.
  apply (smep_smap_bypassed 0x3abc smep_machine (mkPath (Some 0x1000) 0x200c true true false 0x5000 4096));
    reflexivity || lia.
Defined.
