(* ===== verification/TlbMmu.v ===== *)
(** * Guest memory through the TLB

    The accesses of include/exec/softmmu_template.h and softmmu_header.h, with the
    TLB of cputlb.c, the dirty flags of pages and the writes to pages that are not
    dirty (exec.c). Guest memory is one block of RAM; other regions, that only
    watchpoints lead to, are parameters, and so are the translated blocks of a
    page that is written. File SoftMmu has the same accesses without a TLB. *)

From stdpp Require Import base gmap list.
From Stdlib Require Import ZArith Lia.
From S2P Require Import Prelude Cpu CcHelper Excp Guest Mmu MmuWalk Seg SegSpec SoftMmu Tlb TlbInv.

Local Open Scope Z_scope.
Local Open Scope k_scope.

(** RAM, the TLB and [ram_list.phys_dirty]. *)
Record tmem : Type := mkTM { tm_phys : phys; tm_tlb : tlb; tm_dirty : Z -> Z }.
Definition with_tlb (t : tlb) (g : tmem) : tmem := mkTM (tm_phys g) t (tm_dirty g).
Definition with_phys (p : phys) (g : tmem) : tmem := mkTM p (tm_tlb g) (tm_dirty g).

Class Board : Type := {
  (** the host address of RAM *)
  ram_base : Z;
  (** on the dirty flags and the blocks cached by address *)
  tb_invalidate_phys_page_fast : Z -> Z -> (Z -> Z) * gmap Z TranslationBlock -> (Z -> Z) * gmap Z TranslationBlock;
  (** by section, physical address and [env->mem_io_vaddr] *)
  io_mem_read : Z -> Z -> Z -> nat -> K tmem Z;
  io_mem_write : Z -> Z -> Z -> Z -> nat -> K tmem unit
}.

Definition CODE_DIRTY_FLAG : Z := 0x02.

Section Access.
Context {BD : Board}.

(** [ld_raw] and [st_raw] on host addresses *)
Definition ram_of (host : Z) : Z := u64 (host - ram_base).
Definition ld_host (n : nat) (host : Z) : K tmem Z :=
  fun env g => KRet (ld_phys (mkMachine env (tm_phys g)) n (ram_of host)) env g.
Definition st_host (n : nat) (host v : Z) : K tmem unit :=
  kmem (fun g => with_phys (poke (Z.of_nat n) (ram_of host) v (tm_phys g)) g).

Definition tlb_fill (addr is_write mmu_idx : Z) : K tmem unit :=
  fun env g =>
    match cpu_x86_handle_mmu_fault addr is_write mmu_idx (mkMachine env (tm_phys g)) with
    | (Some e, m) =>
        match tlb_set_page (snd <$> watchpoints env) (tm_dirty g) (ram_section ram_base (t_paddr e)) e (tm_tlb g) with
        | Some t => KRet tt (m_cpu m) (mkTM (m_phys m) t (tm_dirty g))
        | None => KAbort
        end
    | (None, m) => raise (exception_index (m_cpu m)) (error_code (m_cpu m)) (m_cpu m) (with_phys (m_phys m) g)
    end.

(** ** Writes to pages that are not dirty *)

Definition dirty_flags_of (dirty : Z -> Z) (ram_addr : Z) : Z := dirty (Z.shiftr ram_addr TARGET_PAGE_BITS).
Definition set_dirty_flags (ram_addr flags : Z) (dirty : Z -> Z) : Z -> Z :=
  fun page => if page =? Z.shiftr ram_addr TARGET_PAGE_BITS then Z.lor (dirty page) flags else dirty page.

(** [vaddr] is [env->mem_io_vaddr]. *)
Definition notdirty_mem_write (vaddr ram_addr val : Z) (n : nat) (g : tmem) : tmem :=
  let '(dirty, cache) :=
    if negb (has (dirty_flags_of (tm_dirty g) ram_addr) CODE_DIRTY_FLAG)
    then tb_invalidate_phys_page_fast ram_addr (Z.of_nat n) (tm_dirty g, tb_jmp_cache (tm_tlb g))
    else (tm_dirty g, tb_jmp_cache (tm_tlb g)) in
  let t := with_jmp_cache cache (tm_tlb g) in
  let p := poke (Z.of_nat n) ram_addr val (tm_phys g) in
  let dirty_flags := Z.lor (dirty_flags_of dirty ram_addr) (Z.land 0xff (Z.lnot CODE_DIRTY_FLAG)) in
  let dirty := set_dirty_flags ram_addr dirty_flags dirty in
  mkTM p (if dirty_flags =? 0xff then tlb_set_dirty vaddr t else t) dirty.

(** [access_with_adjusted_size]: at most four bytes at a time. *)
Definition notdirty_dispatch (vaddr ram_addr val : Z) (n : nat) (g : tmem) : tmem :=
  if Nat.leb n 4 then notdirty_mem_write vaddr ram_addr val n g
  else
    let g := notdirty_mem_write vaddr ram_addr (u32 val) 4 g in
    notdirty_mem_write vaddr (ram_addr + 4) (u32 (Z.shiftr val 32)) 4 g.

Definition io_read (n : nat) (physaddr addr : Z) : K tmem Z :=
  let mr := Z.land physaddr (TARGET_PAGE_SIZE - 1) in
  io_mem_read mr (u64 (Z.land physaddr TARGET_PAGE_MASK + addr)) addr n.

Definition io_write (n : nat) (physaddr val addr : Z) : K tmem unit :=
  let mr := Z.land physaddr (TARGET_PAGE_SIZE - 1) in
  let physaddr := u64 (Z.land physaddr TARGET_PAGE_MASK + addr) in
  if mr =? PHYS_SECTION_NOTDIRTY then kmem (notdirty_dispatch addr physaddr val n)
  else io_mem_write mr physaddr addr val n.

(** ** Accesses *)

(** [redo:]: the page is entered when it is missing. [w] is 0 for a load, 1 for a
    store, 2 for a fetch. *)
Fixpoint redo {A} (fuel : nat) (w addr mmu_idx : Z) (body : CPUTLBEntry -> K tmem A) : K tmem A :=
  match fuel with
  | O => kabort
  | S fuel' =>
      fun env g =>
        match tlb_hit (tm_tlb g) mmu_idx addr w with
        | Some te => body te env g
        | None => (tlb_fill addr w mmu_idx ;; redo fuel' w addr mmu_idx body) env g
        end
  end.

Definition REDO : nat := 2.

Definition spans (n : nat) (addr : Z) : bool := TARGET_PAGE_SIZE <=? page_offset addr + Z.of_nat n - 1.
Definition misaligned (n : nat) (addr : Z) : bool := negb (Z.land addr (Z.of_nat n - 1) =? 0).
(** [tlb_addr & ~TARGET_PAGE_MASK] *)
Definition tlb_flags (tlb_addr : Z) : bool := negb (Z.land tlb_addr (TARGET_PAGE_SIZE - 1) =? 0).

Definition ld_io (n : nat) (addr mmu_idx : Z) : K tmem Z :=
  fun env g => io_read n (iotlb_at (tm_tlb g) mmu_idx (tlb_index addr)) addr env g.
Definition st_io (n : nat) (addr val mmu_idx : Z) : K tmem unit :=
  fun env g => io_write n (iotlb_at (tm_tlb g) mmu_idx (tlb_index addr)) val addr env g.

(** The two halves of an unaligned load are aligned, so [depth] 2 is enough. *)
Fixpoint slow_ld (depth : nat) (w : Z) (n : nat) (addr mmu_idx : Z) : K tmem Z :=
  match depth with
  | O => kabort
  | S depth' =>
      let size := Z.of_nat n in
      redo REDO w addr mmu_idx (fun te =>
        let tlb_addr := te_field w te in
        let unaligned :=
          let addr1 := Z.land addr (not32 (size - 1)) in
          let addr2 := u32 (addr1 + size) in
          res1 <- slow_ld depth' w n addr1 mmu_idx ;;
          res2 <- slow_ld depth' w n addr2 mmu_idx ;;
          let shift := Z.land addr (size - 1) * 8 in
          kret (wrap (8 * size) (Z.lor (Z.shiftr res1 shift) (Z.shiftl res2 (size * 8 - shift)))) in
        if tlb_flags tlb_addr then (if misaligned n addr then unaligned else ld_io n addr mmu_idx)
        else if spans n addr then unaligned
        else ld_host n (u64 (addr + addend te)))
  end.

Definition helper_ld (w : Z) (n : nat) (addr mmu_idx : Z) : K tmem Z :=
  redo REDO w addr mmu_idx (fun te =>
    let tlb_addr := te_field w te in
    if tlb_flags tlb_addr then (if misaligned n addr then slow_ld 2 w n addr mmu_idx else ld_io n addr mmu_idx)
    else if spans n addr then slow_ld 2 w n addr mmu_idx
    else ld_host n (u64 (addr + addend te))).

(** [for (i = DATA_SIZE - 1; i >= 0; i--)] *)
Fixpoint each_byte (n : nat) (addr val : Z) (stb : Z -> Z -> K tmem unit) : K tmem unit :=
  match n with
  | O => kret tt
  | S i => stb (u32 (addr + Z.of_nat i)) (u8 (Z.shiftr val (Z.of_nat i * 8))) ;; each_byte i addr val stb
  end.

(** The bytes of an unaligned store are aligned. *)
Fixpoint slow_st (depth : nat) (n : nat) (addr val mmu_idx : Z) : K tmem unit :=
  match depth with
  | O => kabort
  | S depth' =>
      redo REDO 1 addr mmu_idx (fun te =>
        let tlb_addr := addr_write te in
        let unaligned := each_byte n addr val (fun a v => slow_st depth' 1 a v mmu_idx) in
        if tlb_flags tlb_addr then (if misaligned n addr then unaligned else st_io n addr val mmu_idx)
        else if spans n addr then unaligned
        else st_host n (u64 (addr + addend te)) val)
  end.

Definition helper_st (n : nat) (addr val mmu_idx : Z) : K tmem unit :=
  redo REDO 1 addr mmu_idx (fun te =>
    let tlb_addr := addr_write te in
    if tlb_flags tlb_addr then (if misaligned n addr then slow_st 2 n addr val mmu_idx else st_io n addr val mmu_idx)
    else if spans n addr then slow_st 2 n addr val mmu_idx
    else st_host n (u64 (addr + addend te)) val).

(** The inline paths of softmmu_header.h: an aligned access to a page without flags. *)
Definition fast_tag (n : nat) (addr : Z) : Z := Z.land addr (Z.lor TARGET_PAGE_MASK (Z.of_nat n - 1)).

Definition cpu_ld (w : Z) (n : nat) (addr mmu_idx : Z) : K tmem Z :=
  fun env g =>
    let te := te_at (tm_tlb g) mmu_idx (tlb_index addr) in
    if te_field w te =? fast_tag n addr then ld_host n (u64 (addr + addend te)) env g
    else helper_ld w n addr mmu_idx env g.

Definition cpu_st (n : nat) (addr val mmu_idx : Z) : K tmem unit :=
  fun env g =>
    let te := te_at (tm_tlb g) mmu_idx (tlb_index addr) in
    if addr_write te =? fast_tag n addr then st_host n (u64 (addr + addend te)) val env g
    else helper_st n addr val mmu_idx env g.

Definition tlb_mmu : SoftMmu tmem := {|
  mmu_load idx n a := cpu_ld 0 n a idx;
  mmu_store idx n a v := cpu_st n a v idx;
  tlb_flush g := with_tlb (tlb_flush_all (tm_tlb g)) g;
  Seg.tlb_flush_page a g := with_tlb (Tlb.tlb_flush_page a (tm_tlb g)) g;
  ldl_mem a g := ld_phys (mkMachine blank_cpu (tm_phys g)) 4 a;
  stl_mem a v g := with_phys (poke 4 a v (tm_phys g)) g
|}.
End Access.
