(* ===== verification/TlbSim.v ===== *)
(** * Accesses through the TLB are accesses through the page tables

    As long as the TLB agrees with the page tables, a load or a store of file
    TlbMmu has the result and the effect on memory of file SoftMmu, which walks the
    tables for each access: fast paths, refills, unaligned accesses, pages that are
    not dirty and faults included. *)

From stdpp Require Import base gmap list.
From Stdlib Require Import ZArith Lia FunctionalExtensionality.
From S2P Require Import Prelude Cpu CcHelper Excp Guest Mmu MmuWalk Seg SegSpec SoftMmu Tlb TlbInv TlbWalk TlbCoh TlbMmu.

Local Open Scope Z_scope.
Local Open Scope k_scope.

(** ** Memory *)

Lemma poke_wrap n a v p : 0 <= n -> poke n a (wrap (8 * n) v) p = poke n a v p.
Proof.
  intros Hn. apply functional_extensionality. intros x. unfold poke. zcase; cbn [andb]; [|done..].
  change 256 with (2 ^ 8). apply Z.bits_inj'. intros i Hi. rewrite !Z.testbit_mod_pow2, !Z.shiftr_spec by lia.
  destruct (Z.ltb_spec i 8); cbn [andb]; [|done]. rewrite wrap_bits by lia. by zcase; [|lia].
Qed.

Lemma poke_split n k a v p :
  0 <= n -> 0 <= k -> poke n a v (poke k (a + n) (Z.shiftr v (8 * n)) p) = poke (n + k) a v p.
Proof.
  intros Hn Hk. apply functional_extensionality. intros x. unfold poke. zcase; try lia; try done.
  rewrite Z.shiftr_shiftr by lia. do 2 f_equal. lia.
Qed.

Lemma poke_split' n k a v p :
  0 <= n -> 0 <= k -> poke k (a + n) (Z.shiftr v (8 * n)) (poke n a v p) = poke (n + k) a v p.
Proof.
  intros Hn Hk. apply functional_extensionality. intros x. unfold poke. zcase; try lia; try done.
  rewrite Z.shiftr_shiftr by lia. do 2 f_equal. lia.
Qed.

(** Flags of a page. *)
Lemma page_lor v fl : v = page_of v -> 0 <= fl < 4096 -> Z.lor v fl = v + fl.
Proof.
  intros Hv Hfl. assert (Z.land v fl = 0).
  { apply Z.bits_inj'. intros i Hi. rewrite Z.land_spec, Z.bits_0, Hv, page_of_bits by done.
    destruct (Z.leb_spec 12 i); [|done]. change 4096 with (2 ^ 12) in Hfl.
    rewrite <-(Z.mod_small fl (2 ^ 12)), Z.mod_pow2_bits_high by lia. apply andb_false_r. }
  by rewrite <-Z.lxor_lor, <-Z.add_nocarry_lxor.
Qed.

Section Sim.
Context {BD : Board}.

Definition sec (paddr : Z) : section := ram_section ram_base paddr.

Lemma sec_size paddr : TARGET_PAGE_SIZE <= sz (sec paddr).
Proof. done. Qed.

(** ** Rows for RAM *)

(** The row of a page of RAM at [p], mapped at [v]: only the write tag carries a
    flag, when the page is not dirty. *)
Record row (te : CPUTLBEntry) (io v p : Z) : Prop := {
  row_v : v = page_of v;
  row_p : paddr_ok p;
  row_read : addr_read te = INVALID \/ addr_read te = v;
  row_code : addr_code te = INVALID \/ addr_code te = v;
  row_write : addr_write te = INVALID \/ addr_write te = v \/ addr_write te = Z.lor v TLB_NOTDIRTY;
  row_addend : addend te = u64 (ram_base + p - v);
  row_io : io = u64 (Z.lor p PHYS_SECTION_NOTDIRTY - v)
}.

Definition plain (t : tlb) : Prop :=
  forall idx i, dead (te_at t idx i) \/ exists v p, row (te_at t idx i) (iotlb_at t idx i) v p.

(** The TLB holds pages of RAM that were entered. *)
Record wf (g : tmem) (live : list tlb_entry) : Prop := {
  wf_refines : refines sec (tm_tlb g) live;
  wf_plain : plain (tm_tlb g);
  wf_paddr : forall e, e ∈ live -> paddr_ok (t_paddr e)
}.

(** Every hit agrees with the page tables. *)
Definition coherent (env : CPUX86State) (g : tmem) : Prop :=
  forall idx a w te, in_range 32 a -> 0 <= idx < NB_MMU_MODES -> plain_access env w -> tlb_hit (tm_tlb g) idx a w = Some te ->
    exists paddr, agree env (tm_phys g) idx a w paddr /\ addend te = u64 (ram_base + paddr - page_of a).

Definition sync (env : CPUX86State) (g : tmem) (live : list tlb_entry) : Prop := wf g live /\ coherent env g.

Lemma ram_host_inj p p' k : paddr_ok p -> paddr_ok p' -> u64 (ram_base + p + k) = u64 (ram_base + p' + k) -> p = p'.
Proof.
  intros [[H1 H2] _] [[H3 H4] _] H. unfold u64, wrap in H.
  apply (f_equal (fun z => (z - (ram_base + k)) mod 2 ^ 64)) in H. rewrite !Zminus_mod_idemp_l in H.
  replace (ram_base + p + k - (ram_base + k)) with p in H by lia.
  replace (ram_base + p' + k - (ram_base + k)) with p' in H by lia.
  rewrite !Z.mod_small in H by lia. done.
Qed.

(** A hit, by the page it stands for. *)
Record hits (g : tmem) (idx a w : Z) (te : CPUTLBEntry) (e : tlb_entry) : Prop := {
  h_hit : tlb_hit (tm_tlb g) idx a w = Some te;
  h_slot : same_slot idx (page_of a) e;
  h_prot : has (t_prot e) (access_of w) = true;
  h_row : row te (iotlb_at (tm_tlb g) idx (tlb_index a)) (page_of a) (t_paddr e)
}.

Lemma row_tag te io v p a w :
  row te io v p -> Z.land (te_field w te) PAGE_OR_INVALID = page_of a -> page_of a = v.
Proof.
  intros [Hv _ Hr Hc Hw _ _]. assert (forall fl, Z.land fl PAGE_OR_INVALID = 0 -> Z.land (Z.lor v fl) PAGE_OR_INVALID = v) as Ht by (intros; by apply tag_page).
  pose proof (Ht 0 eq_refl) as Ht0. rewrite Z.lor_0_r in Ht0. pose proof (page_not_tag a) as Hn.
  unfold te_field. intros H. destruct (w =? 0); [|destruct (w =? 1)].
  - destruct Hr as [E|E]; rewrite E in H; congruence.
  - destruct Hw as [E|[E|E]]; rewrite E in H; [congruence..|]. by rewrite Ht in H.
  - destruct Hc as [E|E]; rewrite E in H; congruence.
Qed.

Lemma hit_row g live idx a w te :
  wf g live -> in_range 32 a -> tlb_hit (tm_tlb g) idx a w = Some te -> exists e, e ∈ live /\ hits g idx a w te e.
Proof.
  intros [Hr Hp Hpa] Ha Hh. destruct (hit_live sec _ _ _ _ _ _ Ha Hr Hh) as (e & Hin & Hs & Hpr & Hadd).
  exists e. split; [done|]. split; [done..|]. pose proof Hh as Hh'. unfold tlb_hit in Hh'.
  destruct (Z.eqb_spec (Z.land a TARGET_PAGE_MASK) (Z.land (te_field w (te_at (tm_tlb g) idx (tlb_index a))) PAGE_OR_INVALID)) as [E|]; [|done].
  injection Hh' as <-. rewrite page_mask_of in E.
  destruct (Hp idx (tlb_index a)) as [Hd|(v & p & Hrow)].
  { rewrite (dead_field w _ Hd) in E. by destruct (page_not_tag a). }
  rewrite (row_tag _ _ _ _ a w Hrow (eq_sym E)) in *.
  assert (t_paddr e = p) as ->; [|done].
  apply (ram_host_inj _ _ (a mod 4096)); [by apply Hpa|by apply Hrow|].
  rewrite (row_addend _ _ _ _ Hrow) in Hadd. change (host_of (sec (t_paddr e))) with (ram_base + t_paddr e) in Hadd.
  rewrite <-Hadd. unfold u64, wrap. rewrite Zplus_mod_idemp_r. f_equal.
  rewrite <-(row_tag _ _ _ _ a w Hrow (eq_sym E)). unfold page_of. pose proof (Z.div_mod a 4096). lia.
Qed.

(** The byte of RAM an access reaches. *)
Lemma row_host te io p a : row te io (page_of a) p -> ram_of (u64 (a + addend te)) = p + page_offset a.
Proof.
  intros [_ [Hp _] _ _ _ -> _]. unfold ram_of, u64, wrap. rewrite Zplus_mod_idemp_r, Zminus_mod_idemp_l, page_offset_mod.
  pose proof (Z.mod_pos_bound a 4096 ltac:(lia)). replace (a + (ram_base + p - page_of a) - ram_base) with (p + a mod 4096).
  - apply Z.mod_small. lia.
  - unfold page_of. pose proof (Z.div_mod a 4096). lia.
Qed.

Lemma row_iotlb te io p a :
  row te io (page_of a) p ->
  Z.land io (TARGET_PAGE_SIZE - 1) = PHYS_SECTION_NOTDIRTY /\ u64 (Z.land io TARGET_PAGE_MASK + a) = p + page_offset a.
Proof.
  intros [_ [Hp Hpp] _ _ _ _ ->]. rewrite page_mask, page_offset_mod. change (TARGET_PAGE_SIZE - 1) with (Z.ones 12). rewrite Z.land_ones by done.
  change (2 ^ 12) with 4096.
  rewrite page_lor by done. change PHYS_SECTION_NOTDIRTY with 1.
  assert (u64 (p + 1 - page_of a) = u64 (p - page_of a) + 1 /\ u64 (p - page_of a) mod 4096 = 0) as [-> Hq].
  { unfold u64, wrap, page_of in *. Z.to_euclidean_division_equations. lia. }
  rewrite Z.add_mod, Hq by lia. split; [done|].
  assert ((u64 (p - page_of a) + 1) / 4096 * 4096 = u64 (p - page_of a)) as -> by (Z.to_euclidean_division_equations; lia).
  unfold u64, wrap. rewrite Zplus_mod_idemp_l. pose proof (Z.mod_pos_bound a 4096 ltac:(lia)).
  replace (p - page_of a + a) with (p + a mod 4096); [apply Z.mod_small; lia|].
  unfold page_of. pose proof (Z.div_mod a 4096). lia.
Qed.

Lemma page_no_flags v : v = page_of v -> tlb_flags v = false.
Proof.
  intros Hv. unfold tlb_flags. apply negb_false_iff, Z.eqb_eq. change (TARGET_PAGE_SIZE - 1) with (Z.ones 12).
  rewrite Z.land_ones by done. rewrite Hv. unfold page_of. by apply Z.mod_mul.
Qed.

(** Loads and fetches never see a flag. *)
Lemma hit_no_flags g idx a w te e : w <> 1 -> hits g idx a w te e -> tlb_flags (te_field w te) = false.
Proof.
  intros Hw [Hh _ _ [Hv _ Hr Hc _ _ _]]. unfold tlb_hit in Hh.
  destruct (Z.eqb_spec (Z.land a TARGET_PAGE_MASK) (Z.land (te_field w (te_at (tm_tlb g) idx (tlb_index a))) PAGE_OR_INVALID)) as [E|]; [|done].
  injection Hh as <-. rewrite page_mask_of in E. pose proof (page_not_tag a) as Hn.
  unfold te_field in *. destruct (w =? 0); [|destruct (Z.eqb_spec w 1); [done|]].
  - destruct Hr as [E'|E']; rewrite E' in *; [done|by apply page_no_flags].
  - destruct Hc as [E'|E']; rewrite E' in *; [done|by apply page_no_flags].
Qed.

(** A hit is for the page. *)
Lemma hit_page t idx a a' w : page_of a = page_of a' -> tlb_hit t idx a w = tlb_hit t idx a' w.
Proof.
  intros H. unfold tlb_hit. rewrite !page_mask_of, H. by rewrite <-(tlb_index_page a), H, tlb_index_page.
Qed.

Lemma hits_page g idx a a' w te e : page_of a = page_of a' -> hits g idx a w te e -> hits g idx a' w te e.
Proof.
  intros H [H1 H2 H3 H4]. split; [by rewrite <-(hit_page _ _ a)|by rewrite <-H|done|].
  by rewrite <-(tlb_index_page a'), <-H, tlb_index_page.
Qed.

(** ** Entering a page *)

Definition ram_row (dirty : Z -> Z) (e : tlb_entry) : CPUTLBEntry :=
  mkTE (if has (t_prot e) PAGE_READ then t_vaddr e else INVALID)
    (if has (t_prot e) PAGE_WRITE
     then if cpu_physical_memory_is_dirty dirty (t_paddr e) then t_vaddr e else Z.lor (t_vaddr e) TLB_NOTDIRTY else INVALID)
    (if has (t_prot e) PAGE_EXEC then t_vaddr e else INVALID)
    (u64 (ram_base + t_paddr e - t_vaddr e)).

Lemma set_page_ram dirty e t t' :
  tlb_set_page [] dirty (sec (t_paddr e)) e t = Some t' ->
  tlb_table t' = <[(t_idx e, tlb_index (t_vaddr e)) := ram_row dirty e]> (tlb_table t) /\
  iotlb t' = <[(t_idx e, tlb_index (t_vaddr e)) := u64 (Z.lor (t_paddr e) PHYS_SECTION_NOTDIRTY - t_vaddr e)]> (iotlb t).
Proof.
  destruct e as [vaddr paddr prot idx size]. unfold tlb_set_page, ram_row. cbn [t_vaddr t_paddr t_prot t_idx t_size].
  destruct (size <? TARGET_PAGE_SIZE); [done|].
  assert (forall t1, (if negb (size =? TARGET_PAGE_SIZE) then tlb_add_large_page vaddr size t else Some t) = Some t1 ->
    tlb_table t1 = tlb_table t /\ iotlb t1 = iotlb t) as Ht.
  { intros t1. unfold tlb_add_large_page. repeat case_match; intros; by simplify_eq. }
  destruct (if negb _ then _ else _) as [t1|]; [|done]. destruct (Ht t1 eq_refl) as [H1 H2].
  cbn [sec ram_section sz is_ram is_romd is_readonly ram_ptr ram_addr section_number xlat negb andb orb
    memory_region_section_get_iotlb existsb fst snd]. change (TARGET_PAGE_SIZE <? TARGET_PAGE_SIZE) with false.
  intros [= <-]. cbn [tlb_table with_table iotlb with_iotlb]. rewrite H1, H2. split; [|done].
  rewrite Z.add_0_l. by destruct (has prot PAGE_WRITE), (cpu_physical_memory_is_dirty dirty paddr).
Qed.

Lemma ram_row_ok dirty e :
  fill_ok e -> paddr_ok (t_paddr e) ->
  row (ram_row dirty e) (u64 (Z.lor (t_paddr e) PHYS_SECTION_NOTDIRTY - t_vaddr e)) (t_vaddr e) (t_paddr e).
Proof. intros [Hv _ _ _] Hp. split; cbn [ram_row addr_read addr_write addr_code addend]; try done; repeat case_match; auto. Qed.

Lemma iotlb_at_insert t idx i x idx' i' :
  default 0 (<[(idx, i) := x]> (iotlb t) !! (idx', i')) = if decide (idx' = idx /\ i' = i) then x else iotlb_at t idx' i'.
Proof.
  destruct (decide _) as [[-> ->]|Hn]; [by rewrite lookup_insert_eq|].
  rewrite lookup_insert_ne; [done|]. intros [= -> ->]. by apply Hn.
Qed.

(** Rows elsewhere are kept. *)
Definition keeps_rows (t t' : tlb) (i : Z) : Prop :=
  forall idx j, j <> i -> te_at t' idx j = te_at t idx j /\ iotlb_at t' idx j = iotlb_at t idx j.

Lemma set_page_rows dirty e t t' idx i :
  tlb_set_page [] dirty (sec (t_paddr e)) e t = Some t' ->
  te_at t' idx i = (if decide (idx = t_idx e /\ i = tlb_index (t_vaddr e)) then ram_row dirty e else te_at t idx i) /\
  iotlb_at t' idx i = (if decide (idx = t_idx e /\ i = tlb_index (t_vaddr e))
    then u64 (Z.lor (t_paddr e) PHYS_SECTION_NOTDIRTY - t_vaddr e) else iotlb_at t idx i).
Proof.
  intros [H1 H2]%set_page_ram. split.
  - rewrite <-te_at_insert. unfold te_at. cbn [tlb_table with_table]. by rewrite H1.
  - rewrite <-iotlb_at_insert. unfold iotlb_at. by rewrite H2.
Qed.

Lemma set_page_plain dirty e t t' :
  fill_ok e -> paddr_ok (t_paddr e) -> tlb_set_page [] dirty (sec (t_paddr e)) e t = Some t' ->
  (plain t -> plain t') /\ keeps_rows t t' (tlb_index (t_vaddr e)).
Proof.
  intros Hok Hp Hset. split.
  - intros Hpl idx i. destruct (set_page_rows _ _ _ _ idx i Hset) as [-> ->]. case_decide as Hd; [|apply Hpl].
    right. exists (t_vaddr e), (t_paddr e). by apply ram_row_ok.
  - intros idx j Hj. destruct (set_page_rows _ _ _ _ idx j Hset) as [-> ->]. by rewrite !decide_False by naive_solver.
Qed.

(** A hit after a page was entered is on this page, or was one before. *)
Lemma set_page_hit dirty e t t' idx a w te :
  fill_ok e -> paddr_ok (t_paddr e) -> tlb_set_page [] dirty (sec (t_paddr e)) e t = Some t' -> tlb_hit t' idx a w = Some te ->
  (idx = t_idx e /\ page_of a = t_vaddr e) \/ tlb_hit t idx a w = Some te.
Proof.
  intros Hok Hp Hset. destruct (set_page_rows _ _ _ _ idx (tlb_index a) Hset) as [Hte _].
  unfold tlb_hit. rewrite Hte, page_mask_of. case_decide as Hd; [|by right]. left.
  destruct (Z.eqb_spec (page_of a) (Z.land (te_field w (ram_row dirty e)) PAGE_OR_INVALID)) as [E|]; [|done].
  split; [apply Hd|]. eapply row_tag; [by apply ram_row_ok|by symmetry].
Qed.

Lemma keeps_hit t t' i idx a w : keeps_rows t t' i -> tlb_index a <> i -> tlb_hit t' idx a w = tlb_hit t idx a w.
Proof. intros H Hi. unfold tlb_hit. by rewrite (proj1 (H idx _ Hi)). Qed.

(** ** Same results *)

(** A result of file SoftMmu and one of file TlbMmu: the same value, CPU and
    memory; on success, [Q] holds of the new state. *)
Definition mirrors {A} (Q : tmem -> Prop) (env : CPUX86State) (r : kres phys A) (r' : kres tmem A) : Prop :=
  match r with
  | KRet v env1 p1 => exists g1, r' = KRet v env1 g1 /\ tm_phys g1 = p1 /\ env1 = env /\ Q g1
  | KExit env1 p1 => exists g1, r' = KExit env1 g1 /\ tm_phys g1 = p1
  | KVmexit code info env1 p1 => exists g1, r' = KVmexit code info env1 g1 /\ tm_phys g1 = p1
  | KAbort => r' = KAbort
  end.

Lemma mirrors_bind {A B} (Q R : tmem -> Prop) env (m : K phys A) (m' : K tmem A) (k : A -> K phys B) (k' : A -> K tmem B) p g :
  mirrors R env (m env p) (m' env g) ->
  (forall v g1, m env p = KRet v env (tm_phys g1) -> m' env g = KRet v env g1 -> R g1 -> mirrors Q env (k v env (tm_phys g1)) (k' v env g1)) ->
  mirrors Q env (kbind m k env p) (kbind m' k' env g).
Proof.
  intros Hm Hk. unfold kbind. unfold mirrors in Hm. destruct (m env p) as [v env1 p1|env1 p1|c i env1 p1|].
  - destruct Hm as (g1 & E & <- & -> & HR). rewrite E. by apply Hk.
  - destruct Hm as (g1 & -> & <-). by exists g1.
  - destruct Hm as (g1 & -> & <-). by exists g1.
  - by rewrite Hm.
Qed.

Lemma mirrors_weaken {A} (Q R : tmem -> Prop) env (r : kres phys A) r' :
  mirrors Q env r r' -> (forall g, Q g -> R g) -> mirrors R env r r'.
Proof. intros H HQ. destruct r; cbn in *; naive_solver. Qed.

Lemma raise_mirrors {A B} i err env p g (k : A -> K phys B) (k' : unit -> K tmem B) (Q : tmem -> Prop) env0 :
  tm_phys g = p ->
  mirrors Q env0
    (match raise (A := A) i err env p with KRet v e1 p1 => k v e1 p1 | KExit e1 p1 => KExit e1 p1
       | KVmexit c x e1 p1 => KVmexit c x e1 p1 | KAbort => KAbort end)
    (match raise i err env g with KRet v e1 g1 => k' v e1 g1 | KExit e1 p1 => KExit e1 p1
       | KVmexit c x e1 p1 => KVmexit c x e1 p1 | KAbort => KAbort end).
Proof.
  intros <-. unfold raise, lift, raise_exception_err, raise_interrupt2, svm_check_exception, check_exception, xbind, xget, xret, vmexit, xmod, xloop_exit.
  cbn [negb fst snd]. destruct (in_svm env && Z.testbit (intercept_exceptions env) i); [by eexists|].
  destruct (old_exception env =? EXCP08_DBLE); [destruct (in_svm env); by eexists|].
  destruct (_ || (_ && _)); cbn [fst snd]; destruct (_ || _ || _); by eexists.
Qed.

(** A missing page is entered, by the same walk. *)
Lemma fill_mirrors {B} (Q : tmem -> Prop) a w idx env g live (k : tlb_entry -> K phys B) (k' : K tmem B) :
  sync env g live -> in_range 32 a -> 0 <= idx < NB_MMU_MODES -> a20_mask env = -1 -> watchpoints env = [] -> plain_access env w ->
  (forall e g1 te live1, SoftMmu.tlb_fill a w idx env (tm_phys g) = KRet e env (tm_phys g1) -> sync env g1 live1 -> hits g1 idx a w te e ->
     keeps_rows (tm_tlb g) (tm_tlb g1) (tlb_index a) -> mirrors Q env (k e env (tm_phys g1)) (k' env g1)) ->
  mirrors Q env (kbind (SoftMmu.tlb_fill a w idx) k env (tm_phys g)) (kbind (TlbMmu.tlb_fill a w idx) (fun _ => k') env g).
Proof.
  intros [Hwf Hcoh] Ha Hidx H20 Hwp Hpl Hk. unfold kbind, SoftMmu.tlb_fill, TlbMmu.tlb_fill in *.
  destruct (cpu_x86_handle_mmu_fault a w idx (mkMachine env (tm_phys g))) as [[e|] m'] eqn:Hh.
  2: { by apply raise_mirrors. }
  destruct (handle_fills a w idx env (tm_phys g) e m' Ha Hidx H20 Hpl Hh) as [Hc [Fok Fi Fv Fp Fpr Fc Fo]].
  destruct Hwf as [Hr Hpn Hpa]. rewrite Hwp. change (snd <$> []) with (@nil CPUWatchpoint). change (ram_section ram_base (t_paddr e)) with (sec (t_paddr e)).
  destruct (refines_fill sec sec_size [] (tm_dirty g) e (tm_tlb g) live Fok Hr) as (t' & Hset & Hr'). rewrite Hset, Hc.
  destruct (set_page_plain _ _ _ _ Fok Fp Hset) as [Hpl' Hkeep].
  destruct (fill_hits sec sec_size [] (tm_dirty g) e (tm_tlb g) t' a w Fok (r_region _ _ _ Hr) Hset (eq_sym Fv) Fpr) as [te Hte].
  rewrite Fi in Hte. set (g1 := mkTM (m_phys m') t' (tm_dirty g)).
  set (live1 := spec_op live (TFill [] (tm_dirty g) e)).
  assert (wf g1 live1) as Hwf1.
  { split; [done|by apply Hpl'|]. unfold live1. cbn [spec_op]. intros e' [->|[_ He]%list_elem_of_filter]%elem_of_cons; auto. }
  assert (forall idx' a' w' te', in_range 32 a' -> idx' = t_idx e -> page_of a' = t_vaddr e -> tlb_hit t' idx' a' w' = Some te' ->
    hits g1 idx' a' w' te' e) as Hlive.
  { intros idx' a' w' te' Ha' -> Hpg Hh'. destruct (hit_row g1 live1 _ a' w' te' Hwf1 Ha' Hh') as (e' & Hin & H).
    assert (e' = e) as ->; [|done]. unfold live1 in Hin. cbn [spec_op] in Hin. apply elem_of_cons in Hin as [->|Hin]; [done|].
    exfalso. apply list_elem_of_filter in Hin as [Hn _]. apply Hn. rewrite <-Hpg. apply H. }
  apply (Hk e g1 te live1); [by rewrite Hc| | |by rewrite <-tlb_index_page, <-Fv].
  - split; [done|]. intros idx' a' w' te' Ha' Hidx' Hpl'' Hh'.
    destruct (set_page_hit _ _ _ _ _ _ _ _ Fok Fp Hset Hh') as [[-> Hpg]|Hold].
    + destruct (Hlive (t_idx e) a' w' te' Ha' eq_refl Hpg Hh') as [_ _ Hpr Hrow].
      exists (t_paddr e). split; [by apply Fc|by apply Hrow].
    + destruct (Hcoh idx' a' w' te' Ha' Hidx' Hpl'' Hold) as (paddr & Hag & Hadd). exists paddr. split; [by apply Fo|done].
  - by apply Hlive.
Qed.

(** A page in the TLB, or entered now. *)
Lemma redo_mirrors {B} (Q : tmem -> Prop) a w idx env g live (k : tlb_entry -> K phys B) (body : CPUTLBEntry -> K tmem B) :
  sync env g live -> in_range 32 a -> 0 <= idx < NB_MMU_MODES -> a20_mask env = -1 -> watchpoints env = [] -> plain_access env w ->
  (forall e g1 te live1, SoftMmu.tlb_fill a w idx env (tm_phys g) = KRet e env (tm_phys g1) -> sync env g1 live1 -> hits g1 idx a w te e ->
     keeps_rows (tm_tlb g) (tm_tlb g1) (tlb_index a) -> mirrors Q env (k e env (tm_phys g1)) (body te env g1)) ->
  mirrors Q env (kbind (SoftMmu.tlb_fill a w idx) k env (tm_phys g)) (redo REDO w a idx body env g).
Proof.
  intros Hs Ha Hidx H20 Hwp Hpl Hk. cbn [redo REDO]. destruct (tlb_hit (tm_tlb g) idx a w) as [te|] eqn:Hh.
  - destruct (hit_row g live idx a w te (proj1 Hs) Ha Hh) as (e & Hin & H). pose proof H as [_ [Hi Hv] Hp Hrow].
    destruct (proj2 Hs idx a w te Ha Hidx Hpl Hh) as (paddr & (e' & He & Hpa) & Hadd).
    assert (SoftMmu.tlb_fill a w idx env (tm_phys g) = KRet e' env (tm_phys g)) as Hf by (unfold SoftMmu.tlb_fill; by rewrite He).
    rewrite (kbind_ret _ _ _ _ _ _ _ Hf). apply (Hk e' g te live); try done.
    destruct (handle_fills a w idx env _ e' _ Ha Hidx H20 Hpl He) as [_ [_ Fi Fv Fp Fpr _ _]].
    assert (t_paddr e' = t_paddr e) as Heq.
    { apply (ram_host_inj _ _ (- page_of a)); [done|by apply Hrow|]. rewrite Hpa, !Z.add_opp_r, <-Hadd. apply Hrow. }
    split; [done|by split|done|by rewrite Heq].
  - apply (fill_mirrors Q a w idx env g live k); try done. intros e g1 te live1 H1 H2 H3 H4.
    rewrite (h_hit _ _ _ _ _ _ H3). by apply (Hk e g1 te live1).
Qed.

(** ** Loads *)

Definition width (n : nat) : Prop := n = 1%nat \/ n = 2%nat \/ n = 4%nat \/ n = 8%nat.

Ltac width_case H := destruct H as [->|[->|[->| ->]]]; cbn [Z.of_nat Pos.of_succ_nat Pos.succ] in *.

Lemma align_down n a : width n -> in_range 32 a -> Z.land a (not32 (Z.of_nat n - 1)) = a / Z.of_nat n * Z.of_nat n.
Proof.
  intros Hn Ha. assert (exists k, Z.of_nat n = 2 ^ k /\ 0 <= k <= 32) as (k & -> & Hk).
  { destruct Hn as [->|[->|[->| ->]]]; [exists 0|exists 1|exists 2|exists 3]; (split; [done|lia]). }
  unfold not32. rewrite hi_size by done. apply Z.bits_inj'. intros i Hi. rewrite Z.land_spec, hi_bits by lia.
  destruct (Z_lt_le_dec i k).
  - rewrite Z.mul_pow2_bits_low by lia. zcase; lia.
  - rewrite Z.mul_pow2_bits, Z.div_pow2_bits by lia. replace (i - k + k) with i by lia.
    destruct (Z_lt_le_dec i 32); [by zcase; try lia; rewrite andb_true_r|].
    rewrite <-(Z.mod_small a (2 ^ 32)), Z.mod_pow2_bits_high by lia. done.
Qed.

Lemma aligned_no_span n a : width n -> a mod Z.of_nat n = 0 -> spans n a = false.
Proof.
  intros Hn Ha. unfold spans. rewrite page_offset_mod. apply Z.leb_gt. change TARGET_PAGE_SIZE with 4096.
  width_case Hn; Z.to_euclidean_division_equations; lia.
Qed.

(** The two words of a load that spans pages. *)
Lemma span_words n a :
  width n -> in_range 32 a -> spans n a = true ->
  let addr1 := Z.land a (not32 (Z.of_nat n - 1)) in
  let addr2 := u32 (addr1 + Z.of_nat n) in
  page_of a = page_of addr1 /\ spans n addr1 = false /\ in_range 32 addr1 /\ spans n addr2 = false /\ in_range 32 addr2.
Proof.
  intros Hn Ha Hs addr1 addr2. unfold addr2, addr1. rewrite align_down by done.
  assert (forall x, x mod Z.of_nat n = 0 -> u32 x mod Z.of_nat n = 0) as Hu.
  { intros x Hx. unfold u32, wrap. width_case Hn; Z.to_euclidean_division_equations; lia. }
  assert ((a / Z.of_nat n * Z.of_nat n) mod Z.of_nat n = 0) as Hal by (apply Z.mod_mul; destruct Hn as [->|[->|[->| ->]]]; done).
  split_and!.
  - unfold page_of. width_case Hn; Z.to_euclidean_division_equations; lia.
  - by apply aligned_no_span.
  - width_case Hn; Z.to_euclidean_division_equations; lia.
  - width_case Hn; Z.to_euclidean_division_equations; lia.
  - apply aligned_no_span; [done|]. apply Hu. rewrite Z.add_mod, Hal, Z.mod_same by (destruct Hn as [->|[->|[->| ->]]]; done).
    by destruct Hn as [->|[->|[->| ->]]].
  - apply u32_range.
  - apply u32_range.
Qed.

Lemma hits_host g idx a w te e : hits g idx a w te e -> ram_of (u64 (a + addend te)) = host_addr e a.
Proof. intros H. unfold host_addr. eapply row_host. apply H. Qed.

(** The inline paths take an aligned access to a page without flags. *)
Lemma fast_tag_eq n a : width n -> fast_tag n a = page_of a + a mod Z.of_nat n.
Proof.
  intros Hn. unfold fast_tag. rewrite Z.land_lor_distr_r, page_mask_of.
  assert (exists k, Z.of_nat n = 2 ^ k /\ 0 <= k <= 3) as (k & Hnk & Hk).
  { destruct Hn as [->|[->|[->| ->]]]; [exists 0|exists 1|exists 2|exists 3]; (split; [done|lia]). }
  rewrite Hnk. replace (2 ^ k - 1) with (Z.ones k) by (rewrite Z.ones_equiv; lia). rewrite Z.land_ones by lia.
  rewrite <-Z.lxor_lor, <-Z.add_nocarry_lxor; [done|..]; apply Z.bits_inj'; intros i Hi; rewrite Z.land_spec, Z.bits_0, page_of_bits by done;
    (destruct (Z.leb_spec 12 i); [|done]); rewrite (Z.mod_pow2_bits_high a k) by lia; apply andb_false_r.
Qed.

Lemma fast_row te io v p n a fl :
  row te io v p -> width n -> fl = 0 \/ fl = TLB_NOTDIRTY -> Z.lor v fl = fast_tag n a ->
  fl = 0 /\ v = page_of a /\ spans n a = false.
Proof.
  intros [Hv _ _ _ _ _ _] Hn Hfl H. rewrite fast_tag_eq in H by done. unfold TLB_NOTDIRTY in *.
  rewrite page_lor in H by (done || destruct Hfl; lia). unfold page_of in *.
  assert (fl = 0 /\ a mod Z.of_nat n = 0 /\ v = a / 4096 * 4096) as (H1 & H2 & H3).
  { width_case Hn; Z.to_euclidean_division_equations; lia. }
  split_and!; [done..|]. by apply aligned_no_span.
Qed.

Lemma invalid_not_fast n a : width n -> INVALID <> fast_tag n a.
Proof.
  intros Hn H. rewrite fast_tag_eq in H by done. change INVALID with 0xffffffff in H. unfold page_of in H.
  width_case Hn; Z.to_euclidean_division_equations; lia.
Qed.

(** So they are the helpers. *)
Lemma fast_hit g live idx n a w :
  wf g live -> width n ->
  let te := te_at (tm_tlb g) idx (tlb_index a) in
  te_field w te = fast_tag n a -> tlb_hit (tm_tlb g) idx a w = Some te /\ tlb_flags (te_field w te) = false /\ spans n a = false.
Proof.
  intros [_ Hp _] Hn te Hf. pose proof (invalid_not_fast n a Hn) as Hni.
  pose proof (Hp idx (tlb_index a)) as Hpi. fold te in Hpi. destruct Hpi as [Hd|(v & p & Hrow)].
  { rewrite (dead_field w te Hd) in Hf. done. }
  assert (exists fl, (fl = 0 \/ fl = TLB_NOTDIRTY) /\ te_field w te = Z.lor v fl) as (fl & Hfl & Htf).
  { destruct Hrow as [_ _ Hr Hc Hw _ _]. unfold te_field in *. destruct (w =? 0); [|destruct (w =? 1)].
    - destruct Hr as [E|E]; [congruence|]. exists 0. rewrite Z.lor_0_r. auto.
    - destruct Hw as [E|[E|E]]; [congruence|exists 0; rewrite Z.lor_0_r; auto|exists TLB_NOTDIRTY; auto].
    - destruct Hc as [E|E]; [congruence|]. exists 0. rewrite Z.lor_0_r. auto. }
  rewrite Htf in Hf. destruct (fast_row _ _ _ _ _ _ _ Hrow Hn Hfl Hf) as (-> & Hv & Hsp). rewrite Z.lor_0_r in *.
  split_and!; [|rewrite Htf; apply page_no_flags, Hrow|done].
  unfold tlb_hit. fold te. rewrite Htf, page_mask_of, Hv. pose proof (tag_page (page_of a) 0) as Ht. rewrite Z.lor_0_r in Ht.
  rewrite Ht, Z.eqb_refl; [done|by rewrite page_of_page|done].
Qed.

(** ** Writes *)

(** The same pages are found. *)
Definition follows (g g' : tmem) : Prop :=
  forall idx a w te e, 0 <= idx < NB_MMU_MODES -> hits g idx a w te e -> exists te', hits g' idx a w te' e.

#[local] Instance follows_preorder : PreOrder follows.
Proof.
  split; [intros g idx a w te e _ H; by exists te|]. intros g1 g2 g3 H1 H2 idx a w te e Hi H.
  destruct (H1 idx a w te e Hi H) as [te' H']. by eapply H2.
Qed.

(** Only memory, dirty flags and cached blocks change. *)
Lemma same_tlb g g' live :
  tlb_table (tm_tlb g') = tlb_table (tm_tlb g) -> iotlb (tm_tlb g') = iotlb (tm_tlb g) ->
  tlb_flush_addr (tm_tlb g') = tlb_flush_addr (tm_tlb g) -> tlb_flush_mask (tm_tlb g') = tlb_flush_mask (tm_tlb g) ->
  wf g live -> wf g' live /\ follows g g'.
Proof.
  intros H1 H2 H3 H4 [[Hs Hr] Hp Hpa].
  assert (forall idx i, te_at (tm_tlb g') idx i = te_at (tm_tlb g) idx i) as Ht by (intros; unfold te_at; by rewrite H1).
  assert (forall idx i, iotlb_at (tm_tlb g') idx i = iotlb_at (tm_tlb g) idx i) as Hi by (intros; unfold iotlb_at; by rewrite H2).
  split.
  - split; [split|intros idx i; rewrite Ht, Hi; apply Hp|done].
    + intros idx i. specialize (Hs idx i). unfold slot_ok, in_region in *. by rewrite Ht, H3, H4.
    + unfold region_ok in *. by rewrite H3, H4.
  - intros idx a w te e _ [Hh Hsl Hpr Hrow]. exists te. split; [|done..|by rewrite Hi]. unfold tlb_hit in *. by rewrite Ht.
Qed.

Lemma set_dirty_row vaddr te io v p :
  vaddr = page_of vaddr -> row te io v p -> row (tlb_set_dirty1 vaddr te) io v p.
Proof.
  intros Hv [H1 H2 H3 H4 H5 H6 H7]. unfold tlb_set_dirty1. case_match eqn:E; [|done]. split; cbn [addr_read addr_write addr_code addend with_addr_write]; try done.
  apply Z.eqb_eq in E. right. left. unfold TLB_NOTDIRTY in *. rewrite (page_lor vaddr) in E by (done || lia). destruct H5 as [E'|[E'|E']]; rewrite E' in E.
  - change INVALID with 0xffffffff in E. exfalso. unfold page_of in *. Z.to_euclidean_division_equations; lia.
  - exfalso. unfold page_of in *. Z.to_euclidean_division_equations; lia.
  - rewrite page_lor in E by (done || lia). lia.
Qed.

Lemma set_dirty_tag vaddr w te :
  vaddr = page_of vaddr -> Z.land (te_field w (tlb_set_dirty1 vaddr te)) PAGE_OR_INVALID = Z.land (te_field w te) PAGE_OR_INVALID.
Proof.
  intros Hv. unfold tlb_set_dirty1. destruct (Z.eqb_spec (addr_write te) (Z.lor vaddr TLB_NOTDIRTY)) as [E|]; [|done].
  unfold te_field. destruct (w =? 0); [done|]. destruct (w =? 1); [|done]. cbn [addr_write with_addr_write].
  rewrite E, (tag_page vaddr TLB_NOTDIRTY) by done. rewrite <-(Z.lor_0_r vaddr) at 1. by rewrite tag_page.
Qed.

Lemma set_dirty_wf vaddr g live :
  in_range 32 vaddr -> wf g live ->
  wf (with_tlb (tlb_set_dirty vaddr (tm_tlb g)) g) live /\ follows g (with_tlb (tlb_set_dirty vaddr (tm_tlb g)) g).
Proof.
  intros Ha [Hr Hp Hpa]. set (v := page_of vaddr).
  assert (forall idx i, te_at (tlb_set_dirty vaddr (tm_tlb g)) idx i =
    if decide (i = tlb_index v /\ 0 <= idx < NB_MMU_MODES) then tlb_set_dirty1 v (te_at (tm_tlb g) idx i) else te_at (tm_tlb g) idx i) as Ht.
  { intros idx i. unfold tlb_set_dirty. rewrite page_mask_of. apply te_at_on_row. }
  assert (v = page_of v) as Hv by (unfold v; by rewrite page_of_page).
  split.
  - split; [by apply refines_set_dirty| |done].
    intros idx i. cbn [tm_tlb with_tlb]. rewrite Ht. change (iotlb_at (tlb_set_dirty vaddr (tm_tlb g)) idx i) with (iotlb_at (tm_tlb g) idx i).
    case_decide; [|apply Hp]. destruct (Hp idx i) as [Hd|(v' & p & Hrow)]; [left; by apply dead_set_dirty|].
    right. exists v', p. by apply set_dirty_row.
  - intros idx a w te e Hi [Hh Hsl Hpr Hrow]. unfold tlb_hit in Hh. cbn [tm_tlb with_tlb].
    destruct (Z.eqb_spec (Z.land a TARGET_PAGE_MASK) (Z.land (te_field w (te_at (tm_tlb g) idx (tlb_index a))) PAGE_OR_INVALID)) as [E|]; [|done].
    injection Hh as <-. exists (te_at (tlb_set_dirty vaddr (tm_tlb g)) idx (tlb_index a)). split; try done.
    + unfold tlb_hit. cbn [tm_tlb with_tlb]. rewrite Ht at 1. replace (Z.land (te_field _ _) _) with (Z.land (te_field w (te_at (tm_tlb g) idx (tlb_index a))) PAGE_OR_INVALID).
      * by rewrite E, Z.eqb_refl.
      * case_decide; [by rewrite set_dirty_tag|done].
    + rewrite Ht. change (iotlb_at (tm_tlb (with_tlb (tlb_set_dirty vaddr (tm_tlb g)) g)) idx (tlb_index a)) with (iotlb_at (tm_tlb g) idx (tlb_index a)).
      case_decide; [by apply set_dirty_row|done].
Qed.

Lemma notdirty_write_wf vaddr ram_addr val n g live :
  in_range 32 vaddr -> wf g live ->
  let g' := notdirty_mem_write vaddr ram_addr val n g in
  tm_phys g' = poke (Z.of_nat n) ram_addr val (tm_phys g) /\ wf g' live /\ follows g g'.
Proof.
  intros Ha Hw g'. unfold g', notdirty_mem_write. destruct (if negb _ then _ else _) as [dirty cache].
  split; [done|]. set (p := poke _ _ _ _). set (dirty' := set_dirty_flags _ _ _).
  destruct (same_tlb g (mkTM p (with_jmp_cache cache (tm_tlb g)) dirty') live) as [Hw1 Hf1]; [done..|].
  destruct (_ =? 0xff); [|done].
  destruct (set_dirty_wf vaddr _ live Ha Hw1) as [Hw2 Hf2]. split; [exact Hw2|]. etrans; [exact Hf1|exact Hf2].
Qed.

Lemma notdirty_dispatch_wf vaddr ram_addr val n g live :
  width n -> in_range 32 vaddr -> wf g live ->
  let g' := notdirty_dispatch vaddr ram_addr val n g in
  tm_phys g' = poke (Z.of_nat n) ram_addr val (tm_phys g) /\ wf g' live /\ follows g g'.
Proof.
  intros Hn Ha Hw. unfold notdirty_dispatch. destruct Hn as [->|[->|[->| ->]]]; try (by apply notdirty_write_wf).
  cbn [Nat.leb]. destruct (notdirty_write_wf vaddr ram_addr (u32 val) 4 g live Ha Hw) as (P1 & W1 & F1).
  destruct (notdirty_write_wf vaddr (ram_addr + 4) (u32 (Z.shiftr val 32)) 4 _ live Ha W1) as (P2 & W2 & F2).
  split_and!; [|done|by etrans]. rewrite P2, P1. unfold u32. rewrite !(poke_wrap (Z.of_nat 4)) by done.
  by rewrite (poke_split' 4 4).
Qed.

(** A store to a page that was found. *)
Lemma store_hit n idx a v g live te e env :
  0 <= idx < NB_MMU_MODES -> wf g live -> hits g idx a 1 te e -> width n -> in_range 32 a ->
  exists g', (if tlb_flags (addr_write te) then st_io n a v idx else st_host n (u64 (a + addend te)) v) env g = KRet tt env g' /\
    tm_phys g' = poke (Z.of_nat n) (host_addr e a) v (tm_phys g) /\ wf g' live /\ follows g g'.
Proof.
  intros Hi Hw Hh Hn Ha. destruct (tlb_flags (addr_write te)).
  - unfold st_io, io_write. destruct (row_iotlb _ _ _ _ (h_row _ _ _ _ _ _ Hh)) as [-> ->]. rewrite Z.eqb_refl.
    eexists. split; [done|]. by apply notdirty_dispatch_wf.
  - unfold st_host, kmem. rewrite (hits_host _ _ _ _ _ _ Hh). eexists. split; [done|]. split; [done|]. by apply same_tlb.
Qed.

Lemma byte_aligned a : misaligned 1 a = false /\ spans 1 a = false.
Proof.
  unfold misaligned, spans. split; [by rewrite Z.land_0_r|]. rewrite page_offset_mod. apply Z.leb_gt.
  change TARGET_PAGE_SIZE with 4096. pose proof (Z.mod_pos_bound a 4096). lia.
Qed.

(** One byte of a store that was split. *)
Lemma store_byte idx a v g live te e env :
  0 <= idx < NB_MMU_MODES -> wf g live -> hits g idx a 1 te e -> in_range 32 a ->
  exists g', slow_st 1 1 a v idx env g = KRet tt env g' /\
    tm_phys g' = poke 1 (host_addr e a) v (tm_phys g) /\ wf g' live /\ follows g g'.
Proof.
  intros Hi Hw Hh Ha. destruct (store_hit 1 idx a v g live te e env Hi Hw Hh ltac:(by left) Ha) as (g' & H & Hg).
  exists g'. split; [|done]. unfold slow_st, REDO. cbn [redo]. rewrite (h_hit _ _ _ _ _ _ Hh).
  destruct (byte_aligned a) as [-> ->]. exact H.
Qed.

(** The bytes of a store, when both pages are there. *)
Lemma bytes_mirror idx n addr val e1 e2 env g live :
  0 <= idx < NB_MMU_MODES -> wf g live ->
  (forall i, 0 <= i < Z.of_nat n -> exists te,
     hits g idx (u32 (addr + i)) 1 te (if page_of (u32 (addr + i)) =? page_of addr then e1 else e2)) ->
  mirrors (fun g' => wf g' live) env (SoftMmu.slow_st n addr val e1 e2 env (tm_phys g))
    (each_byte n addr val (fun a v => slow_st 1 1 a v idx) env g).
Proof.
  intros Hi. revert g. induction n as [|n IH]; intros g Hw Hb; cbn [SoftMmu.slow_st each_byte]; [by exists g|].
  rewrite !page_mask_of. destruct (Hb (Z.of_nat n) ltac:(lia)) as [te Hh].
  set (a := u32 (addr + Z.of_nat n)) in *. set (e := if page_of a =? page_of addr then e1 else e2) in *.
  destruct (store_byte idx a (u8 (Z.shiftr val (Z.of_nat n * 8))) g live te e env Hi Hw Hh (u32_range _)) as (g' & Hst & Hp & Hw' & Hf).
  rewrite (kbind_ret _ _ _ _ _ _ _ Hst). unfold st_raw, kmem. change (kbind (fun env g => KRet tt env (?f g)) ?k env ?p) with (k tt env (f p)). cbv beta.
  rewrite (poke_wrap 1) in Hp by done. change (Z.of_nat 1) with 1. rewrite <-Hp. apply IH; [done|].
  intros i Hi'. destruct (Hb i ltac:(lia)) as [te' Hh']. by eapply Hf.
Qed.

(** In one page, they are one store. *)
Lemma slow_st_page n addr val e env p :
  in_range 32 addr -> page_offset addr + Z.of_nat n <= 4096 ->
  SoftMmu.slow_st n addr val e e env p = KRet tt env (poke (Z.of_nat n) (host_addr e addr) val p).
Proof.
  intros Ha. revert p. induction n as [|n IH]; intros p Hs; cbn [SoftMmu.slow_st].
  - unfold kret. f_equal. apply functional_extensionality. intros x. unfold poke. by zcase; try lia.
  - unfold st_raw, kmem. change (kbind (fun env g => KRet tt env (?f g)) ?k env ?p) with (k tt env (f p)). cbv beta.
    rewrite IH by lia. f_equal. rewrite page_offset_mod in Hs.
    assert (host_addr e (u32 (addr + Z.of_nat n)) = host_addr e addr + Z.of_nat n) as E.
    { unfold host_addr. rewrite !page_offset_mod, u32_id by (Z.to_euclidean_division_equations; lia).
      rewrite Zplus_mod, (Z.mod_small (Z.of_nat n)), (Z.mod_small (_ + _)) by (Z.to_euclidean_division_equations; lia). lia. }
    destruct (_ =? _); rewrite E, (Z.mul_comm (Z.of_nat n) 8), poke_split by lia; f_equal; lia.
Qed.

Section Access.
Context (env : CPUX86State) (idx : Z) (Hidx : 0 <= idx < NB_MMU_MODES) (H20 : a20_mask env = -1) (Hwp : watchpoints env = []).

Definition synced (g : tmem) : Prop := exists live, sync env g live.

(** One word of a load, in a page. *)
Lemma word_mirrors n a g live :
  sync env g live -> in_range 32 a -> spans n a = false ->
  mirrors synced env (kbind (SoftMmu.tlb_fill a 0 idx) (fun e => ld_raw n (host_addr e a)) env (tm_phys g)) (slow_ld 1 0 n a idx env g).
Proof.
  intros Hs Ha Hsp. cbn [slow_ld]. eapply redo_mirrors; try done; [by left|].
  intros e g1 te live1 _ Hs1 Hh _. rewrite (hit_no_flags g1 idx a 0 te e) by done. rewrite Hsp.
  unfold ld_host, ld_raw. rewrite (hits_host _ _ _ _ _ _ Hh). exists g1. split_and!; try done. by exists live1.
Qed.

Lemma helper_ld_mirrors n a g live :
  sync env g live -> width n -> in_range 32 a ->
  mirrors synced env (SoftMmu.helper_ld n a idx env (tm_phys g)) (TlbMmu.helper_ld 0 n a idx env g).
Proof.
  intros Hs Hn Ha. unfold SoftMmu.helper_ld, TlbMmu.helper_ld. eapply redo_mirrors; try done; [by left|].
  intros e g1 te live1 _ Hs1 Hh _. rewrite (hit_no_flags g1 idx a 0 te e) by done. fold (spans n a).
  destruct (spans n a) eqn:Hsp.
  2: { unfold ld_host, ld_raw. rewrite (hits_host _ _ _ _ _ _ Hh). exists g1. split_and!; try done. by exists live1. }
  destruct (span_words n a Hn Ha Hsp) as (Hp1 & Hsp1 & Hr1 & Hsp2 & Hr2).
  unfold SoftMmu.slow_ld. change (slow_ld 2 0 n a idx) with (slow_ld (S 1) 0 n a idx). cbn [slow_ld]. unfold REDO at 1. cbn [redo].
  rewrite (h_hit _ _ _ _ _ _ Hh), (hit_no_flags g1 idx a 0 te e), Hsp by done.
  set (addr1 := Z.land a _) in *. set (addr2 := u32 _) in *.
  pose proof (hits_page _ _ _ _ _ _ _ Hp1 Hh) as Hh1.
  eapply (mirrors_bind _ (fun g => g = g1)).
  { unfold slow_ld, REDO. cbn [redo]. rewrite (h_hit _ _ _ _ _ _ Hh1), (hit_no_flags g1 idx addr1 0 te e), Hsp1 by done.
    unfold ld_raw, ld_host. rewrite (hits_host _ _ _ _ _ _ Hh1). by exists g1. }
  intros res1 g2 _ _ ->. rewrite <-kbind_assoc.
  eapply mirrors_bind; [by eapply word_mirrors|]. intros res2 g2 _ _ Hs2. exists g2. by split_and!.
Qed.

Lemma cpu_ld_mirrors n a g live :
  sync env g live -> width n -> in_range 32 a ->
  mirrors synced env (SoftMmu.helper_ld n a idx env (tm_phys g)) (cpu_ld 0 n a idx env g).
Proof.
  intros Hs Hn Ha. unfold cpu_ld. destruct (Z.eqb_spec (te_field 0 (te_at (tm_tlb g) idx (tlb_index a))) (fast_tag n a)) as [E|]; [|by eapply helper_ld_mirrors].
  destruct (fast_hit g live idx n a 0 (proj1 Hs) Hn E) as (Hh & Hf & Hsp).
  pose proof (helper_ld_mirrors n a g live Hs Hn Ha) as H. unfold TlbMmu.helper_ld, REDO in H. cbn [redo] in H.
  by rewrite Hh, Hf, Hsp in H.
Qed.

(** ** Stores *)

Definition sound (g : tmem) : Prop := exists live, wf g live.

Lemma redo_bind {A B} fuel w a i (body : CPUTLBEntry -> K tmem A) (k : A -> K tmem B) e g :
  kbind (redo fuel w a i body) k e g = redo fuel w a i (fun te => kbind (body te) k) e g.
Proof.
  revert e g. induction fuel as [|fuel IH]; intros e g; [done|].
  transitivity (match tlb_hit (tm_tlb g) i a w with
    | Some te => kbind (body te) k e g
    | None => kbind (kbind (TlbMmu.tlb_fill a w i) (fun _ => redo fuel w a i body)) k e g end).
  { cbn [redo]. unfold kbind. by destruct (tlb_hit _ _ _ _). }
  cbn [redo]. destruct (tlb_hit _ _ _ _); [done|]. rewrite kbind_assoc.
  unfold kbind at 1. symmetry. unfold kbind at 1. destruct (TlbMmu.tlb_fill a w i e g); done.
Qed.

(** The store is split. *)
Lemma slow_st_splits n a v g te e :
  hits g idx a 1 te e -> (if tlb_flags (addr_write te) then misaligned n a else spans n a) = true ->
  slow_st 2 n a v idx env g = each_byte n a v (fun a v => slow_st 1 1 a v idx) env g.
Proof.
  intros Hh Hs. change (slow_st 2 n a v idx) with (slow_st (S 1) n a v idx). cbn [slow_st]. unfold REDO at 1. cbn [redo].
  rewrite (h_hit _ _ _ _ _ _ Hh). by destruct (tlb_flags (addr_write te)); rewrite Hs.
Qed.

Lemma spans_misaligned n a : width n -> spans n a = true -> misaligned n a = true.
Proof.
  intros Hn Hs. apply negb_true_iff, Z.eqb_neq. intros E. rewrite aligned_no_span in Hs; [done|done|].
  destruct Hn as [->|[->|[->| ->]]]; [apply Z.mod_1_r|..].
  - change (Z.of_nat 2 - 1) with (Z.ones 1) in E. by rewrite Z.land_ones in E.
  - change (Z.of_nat 4 - 1) with (Z.ones 2) in E. by rewrite Z.land_ones in E.
  - change (Z.of_nat 8 - 1) with (Z.ones 3) in E. by rewrite Z.land_ones in E.
Qed.

(** The pages of a store that spans two are in different rows. *)
Lemma span_pages n a i :
  width n -> in_range 32 a -> spans n a = true -> 0 <= i < Z.of_nat n ->
  let a' := u32 (a + Z.of_nat n - 1) in
  tlb_index a <> tlb_index a' /\ (page_of (u32 (a + i)) = page_of a \/ page_of (u32 (a + i)) = page_of a').
Proof.
  intros Hn Ha Hs Hi a'. unfold spans in Hs. rewrite page_offset_mod in Hs. apply Z.leb_le in Hs. change TARGET_PAGE_SIZE with 4096 in Hs.
  unfold a', u32, wrap. split.
  - unfold tlb_index. change TARGET_PAGE_BITS with 12. change (CPU_TLB_SIZE - 1) with (Z.ones 8). rewrite !Z.land_ones, !Z.shiftr_div_pow2 by done.
    width_case Hn; Z.to_euclidean_division_equations; lia.
  - unfold page_of. width_case Hn; Z.to_euclidean_division_equations; lia.
Qed.

Lemma helper_st_mirrors n a v g live :
  sync env g live -> width n -> in_range 32 a ->
  mirrors sound env (SoftMmu.helper_st n a v idx env (tm_phys g)) (TlbMmu.helper_st n a v idx env g).
Proof.
  intros Hs Hn Ha. unfold SoftMmu.helper_st, TlbMmu.helper_st. eapply redo_mirrors; try done; [by right; left|].
  intros e g1 te live1 _ Hs1 Hh _. fold (spans n a). destruct (spans n a) eqn:Hsp.
  - replace (if tlb_flags _ then _ else _) with (slow_st 2 n a v idx) by (by destruct (tlb_flags _); rewrite ?spans_misaligned).
    rewrite (slow_st_splits n a v g1 te e Hh) by (destruct (tlb_flags _); [by apply spans_misaligned|done]).
    destruct n as [|m]; [by destruct Hn as [|[|[|]]]|]. cbn [each_byte].
    destruct (span_pages (S m) a 0 Hn Ha Hsp ltac:(lia)) as [Hrow _].
    replace (u32 (a + Z.of_nat (S m) - 1)) with (u32 (a + Z.of_nat m)) in * by (f_equal; lia).
    unfold slow_st at 1. rewrite redo_bind. eapply redo_mirrors; try done; [apply u32_range|by right; left|].
    intros e2 g2 te2 live2 _ Hs2 Hh2 Hk.
    assert (hits g2 idx a 1 te e) as Hh1.
    { destruct Hh as [H1 H2 H3 H4]. split; [by rewrite (keeps_hit _ _ _ _ _ _ Hk)|done..|]. by rewrite (proj2 (Hk idx _ Hrow)). }
    apply (mirrors_weaken (fun g' => wf g' live2)); [|intros g' Hg'; by exists live2].
    replace (kbind _ _ env g2) with (each_byte (S m) a v (fun a v => slow_st 1 1 a v idx) env g2).
    2: { cbn [each_byte]. unfold slow_st at 1. rewrite redo_bind. cbn [redo REDO]. by rewrite (h_hit _ _ _ _ _ _ Hh2). }
    apply bytes_mirror; [done|apply Hs2|]. intros i Hi. destruct (span_pages (S m) a i Hn Ha Hsp Hi) as [_ Hp].
    replace (u32 (a + Z.of_nat (S m) - 1)) with (u32 (a + Z.of_nat m)) in Hp by (f_equal; lia).
    destruct (Z.eqb_spec (page_of (u32 (a + i))) (page_of a)) as [E|E].
    + exists te. by apply (hits_page g2 idx a).
    + exists te2. destruct Hp as [Hp|Hp]; [done|]. by apply (hits_page g2 idx (u32 (a + Z.of_nat m))).
  - unfold st_raw, kmem. destruct (tlb_flags (addr_write te) && misaligned n a) eqn:Hsplit.
    + apply andb_true_iff in Hsplit as [Hf Hm]. rewrite Hf, Hm. rewrite (slow_st_splits n a v g1 te e Hh) by (by rewrite Hf).
      apply (mirrors_weaken (fun g' => wf g' live1)); [|intros g' Hg'; by exists live1].
      unfold spans in Hsp. apply Z.leb_gt in Hsp. change TARGET_PAGE_SIZE with 4096 in Hsp.
      rewrite <-(slow_st_page n a v e env (tm_phys g1)) by (done || lia). apply bytes_mirror; [done|apply Hs1|].
      intros i Hi. exists te. assert (page_of (u32 (a + i)) = page_of a) as E.
      { rewrite page_offset_mod in Hsp. rewrite u32_id by (Z.to_euclidean_division_equations; lia). unfold page_of. Z.to_euclidean_division_equations; lia. }
      rewrite E, Z.eqb_refl. by apply (hits_page g1 idx a).
    + destruct (store_hit n idx a v g1 live1 te e env Hidx (proj1 Hs1) Hh Hn Ha) as (g' & Hst & Hp & Hw & _).
      exists g'. split_and!; [|done..|by exists live1]. rewrite <-Hst. destruct (tlb_flags (addr_write te)); [|done]. cbn [andb] in Hsplit. by rewrite Hsplit.
Qed.

Lemma cpu_st_mirrors n a v g live :
  sync env g live -> width n -> in_range 32 a ->
  mirrors sound env (SoftMmu.helper_st n a v idx env (tm_phys g)) (cpu_st n a v idx env g).
Proof.
  intros Hs Hn Ha. unfold cpu_st. destruct (Z.eqb_spec (addr_write (te_at (tm_tlb g) idx (tlb_index a))) (fast_tag n a)) as [E|]; [|by eapply helper_st_mirrors].
  destruct (fast_hit g live idx n a 1 (proj1 Hs) Hn E) as (Hh & Hf & Hsp). change (te_field 1 ?x) with (addr_write x) in Hf.
  pose proof (helper_st_mirrors n a v g live Hs Hn Ha) as H. unfold TlbMmu.helper_st, REDO in H. cbn [redo] in H.
  by rewrite Hh, Hf, Hsp in H.
Qed.
End Access.

(** ** Flushing *)

Lemma flushed_row a t idx i :
  (te_at (Tlb.tlb_flush_page a t) idx i = te_at t idx i \/ te_at (Tlb.tlb_flush_page a t) idx i = s_cputlb_empty_entry) /\
  iotlb_at (Tlb.tlb_flush_page a t) idx i = iotlb_at t idx i.
Proof.
  unfold Tlb.tlb_flush_page. destruct (_ =? _).
  - split; [right|done]. unfold te_at. cbn [tlb_table tlb_flush_all]. by rewrite lookup_empty.
  - cbv zeta. split; [|done]. set (v := Z.land a TARGET_PAGE_MASK).
    change (te_at (tb_flush_jmp_cache v ?x) idx i) with (te_at x idx i). rewrite te_at_on_row. case_decide; [|by left].
    unfold tlb_flush_entry. case_match; auto.
Qed.

Lemma empty_no_hit a w : (Z.land a TARGET_PAGE_MASK =? Z.land (te_field w s_cputlb_empty_entry) PAGE_OR_INVALID) = false.
Proof.
  apply Z.eqb_neq. rewrite page_mask_of, (dead_field w); [apply page_not_tag|done].
Qed.

Lemma flushed_hit a t idx b w te : tlb_hit (Tlb.tlb_flush_page a t) idx b w = Some te -> tlb_hit t idx b w = Some te.
Proof.
  unfold tlb_hit. destruct (flushed_row a t idx (tlb_index b)) as [[-> | ->] _]; [done|]. by rewrite empty_no_hit.
Qed.

(** After a page is flushed, the TLB holds the other pages. *)
Lemma flush_page_wf a g live :
  in_range 32 a -> wf g live ->
  wf (with_tlb (Tlb.tlb_flush_page a (tm_tlb g)) g) (filter (fun e => ~ covers e a) live).
Proof.
  intros Ha [Hr Hp Hpa]. split.
  - by apply refines_flush_page.
  - intros idx i. cbn [tm_tlb with_tlb]. destruct (flushed_row a (tm_tlb g) idx i) as [[-> | ->] ->]; [apply Hp|by left].
  - intros e [_ He]%list_elem_of_filter. by apply Hpa.
Qed.

Lemma flush_all_sync env p t dirty : sync env (mkTM p (tlb_flush_all t) dirty) [].
Proof.
  split.
  - split; [apply refines_flush| |by intros e He%elem_of_nil]. intros idx i. left. unfold te_at. cbn [tm_tlb tlb_table tlb_flush_all]. by rewrite lookup_empty.
  - intros idx a w te _ _ _ Hh. unfold tlb_hit, te_at in Hh. cbn [tm_tlb tlb_table tlb_flush_all] in Hh. rewrite lookup_empty in Hh.
    cbn [default] in Hh. by rewrite empty_no_hit in Hh.
Qed.

(** ** Properties *)

(** C17: the TLB is transparent. While every page it holds agrees with the page
    tables, a load or a store through it gives the value, the fault, the CPU and
    the memory that walking the page tables for this access gives: on the inline
    fast path, after a refill, for unaligned accesses that span two pages, and for
    pages whose writes are tracked. The loop [redo] ends. A load leaves the TLB in
    agreement. *)
Theorem tlb_transparent env g idx n a v :
  synced env g -> a20_mask env = -1 -> watchpoints env = [] -> 0 <= idx < NB_MMU_MODES -> width n -> in_range 32 a ->
  mirrors (synced env) env (mmu_load (SoftMmu := phys_mmu) idx n a env (tm_phys g)) (mmu_load (SoftMmu := tlb_mmu) idx n a env g) /\
  mirrors sound env (mmu_store (SoftMmu := phys_mmu) idx n a v env (tm_phys g)) (mmu_store (SoftMmu := tlb_mmu) idx n a v env g).
Proof.
  intros [live Hs] H20 Hwp Hi Hn Ha. split; [by eapply cpu_ld_mirrors|by eapply cpu_st_mirrors].
Qed.

(** How the guest restores the agreement after it has changed the tables: a
    full flush always does, for any new state of the CPU; a flush of one page does
    if the pages that disagree, whatever their size, contain the address. *)
Theorem tlb_resync env g live a :
  wf g live -> in_range 32 a ->
  (forall idx b w te e, 0 <= idx < NB_MMU_MODES -> in_range 32 b -> plain_access env w -> e ∈ live ->
     hits g idx b w te e -> ~ covers e a -> agree env (tm_phys g) idx b w (t_paddr e)) ->
  (forall env', synced env' (tlb_flush (SoftMmu := tlb_mmu) g)) /\
  synced env (Seg.tlb_flush_page (SoftMmu := tlb_mmu) a g).
Proof.
  intros Hw Ha H. split.
  - intros env'. exists []. apply flush_all_sync.
  - exists (filter (fun e => ~ covers e a) live). pose proof (flush_page_wf a g live Ha Hw) as Hw'. split; [exact Hw'|].
    intros idx b w te Hb Hi Hpl Hh. cbn [Seg.tlb_flush_page tlb_mmu tm_tlb with_tlb] in Hh.
    destruct (hit_row _ _ idx b w te Hw' Hb Hh) as (e & [Hc Hin]%list_elem_of_filter & [_ Hsl Hpr Hrow]).
    exists (t_paddr e). split; [|by apply Hrow].
    apply (H idx b w te e); try done. split; [by eapply flushed_hit|done..|].
    cbn [tm_tlb with_tlb] in Hrow. by rewrite (proj2 (flushed_row a (tm_tlb g) idx (tlb_index b))) in Hrow.
Qed.
End Sim.

(** RAM without translated code at host address 0x7f0000000000, and the tables of
    [demo_machine]. *)
Definition demo_board : Board := {|
  ram_base := 0x7f0000000000;
  tb_invalidate_phys_page_fast _ _ dc := dc;
  io_mem_read _ _ _ _ := kabort;
  io_mem_write _ _ _ _ _ := kabort
|}.
Definition demo_env : CPUX86State := m_cpu demo_machine.
Definition demo_mem : tmem := mkTM demo_phys (tlb_flush_all tlb_reset) (fun _ => 0).

(** A word that spans pages 2 and 3, of which only page 3 is mapped: the fault is
    the same; the word at 0x3abc is loaded. *)
Lemma tlb_transparent_witness :
  (exists g', mmu_load (SoftMmu := @tlb_mmu demo_board) 1 4 0x3abc demo_env demo_mem = KRet 0 demo_env g' /\ @synced demo_board demo_env g') /\
  (exists env' g', mmu_load (SoftMmu := @tlb_mmu demo_board) 1 4 0x2ffe demo_env demo_mem = KExit env' g' /\ nth 2 (cr env') 0 = 0x2ffe).
Proof.
  assert (@synced demo_board demo_env demo_mem) as Hs by (exists []; apply flush_all_sync).
  assert (forall n, n = 4%nat -> width n) as Hn by (intros n ->; right; right; left; reflexivity).
  split.
  - destruct (@tlb_transparent demo_board demo_env demo_mem 1 4 0x3abc 0 Hs eq_refl eq_refl ltac:(unfold NB_MMU_MODES; lia) (Hn 4%nat eq_refl) ltac:(lia)) as [H _].
    assert (exists p, mmu_load (SoftMmu := phys_mmu) 1 4 0x3abc demo_env (tm_phys demo_mem) = KRet 0 demo_env p) as [p E] by (eexists; reflexivity).
    rewrite E in H. destruct H as (g1 & H1 & _ & _ & H2). exists g1. split; [exact H1|exact H2].
  - destruct (@tlb_transparent demo_board demo_env demo_mem 1 4 0x2ffe 0 Hs eq_refl eq_refl ltac:(unfold NB_MMU_MODES; lia) (Hn 4%nat eq_refl) ltac:(lia)) as [H _].
    assert (exists env' p, mmu_load (SoftMmu := phys_mmu) 1 4 0x2ffe demo_env (tm_phys demo_mem) = KExit env' p /\ nth 2 (cr env') 0 = 0x2ffe)
      as (env' & p & E & Ecr) by (do 2 eexists; split; reflexivity).
    rewrite E in H. destruct H as (g1 & H1 & _). exists env', g1. split; [exact H1|exact Ecr].
Defined.

Lemma tlb_resync_witness :
  @synced demo_board demo_env (Seg.tlb_flush_page (SoftMmu := @tlb_mmu demo_board) 0x3000 demo_mem).
Proof.
  apply (@tlb_resync demo_board demo_env demo_mem [] 0x3000); [apply (@flush_all_sync demo_board demo_env)|lia|].
  intros idx b w te e _ _ _ He. apply elem_of_nil in He. destruct He.
Defined.
