(* ===== verification/TlbCode.v ===== *)
(** * Writes to pages that hold translated code

    The dirty flags of RAM (include/exec/memory-internal.h and exec.c) and the
    protection of translated code (cputlb.c): while translated blocks of a page are
    in use, the TLB never lets a store to that page pass without invalidating them. *)

From stdpp Require Import base gmap list.
From Stdlib Require Import ZArith Lia.
From S2P Require Import Prelude Cpu CcHelper Excp Guest Mmu MmuWalk Seg SegSpec SoftMmu Tlb TlbInv TlbWalk TlbCoh TlbMmu TlbSim.

Local Open Scope Z_scope.
Local Open Scope k_scope.

(** ** Clearing dirty flags *)

Definition cpu_physical_memory_clear_dirty_flags (addr dirty_flags : Z) (dirty : Z -> Z) : Z -> Z :=
  fun page => if page =? Z.shiftr addr TARGET_PAGE_BITS then Z.land (dirty page) (Z.lnot dirty_flags) else dirty page.

Definition TARGET_PAGE_ALIGN (addr : Z) : Z := Z.land (addr + TARGET_PAGE_SIZE - 1) (Z.lnot (TARGET_PAGE_SIZE - 1)).
Definition page_start (addr : Z) : Z := Z.land addr (Z.lnot (TARGET_PAGE_SIZE - 1)).

(** [for (addr = start; addr < end; addr += TARGET_PAGE_SIZE)] *)
Fixpoint mask_pages (n : nat) (addr dirty_flags : Z) (dirty : Z -> Z) : Z -> Z :=
  match n with
  | O => dirty
  | S n' => mask_pages n' (addr + TARGET_PAGE_SIZE) dirty_flags (cpu_physical_memory_clear_dirty_flags addr dirty_flags dirty)
  end.

Definition cpu_physical_memory_mask_dirty_range (start length dirty_flags : Z) (dirty : Z -> Z) : Z -> Z :=
  let fin := TARGET_PAGE_ALIGN (start + length) in
  let start := page_start start in
  mask_pages (Z.to_nat ((fin - start) / TARGET_PAGE_SIZE)) start dirty_flags dirty.

Section Code.
Context {BD : Board}.

(** RAM is one block, so that the check for several blocks passes. *)
Definition tlb_reset_dirty_range_all (start length : Z) (t : tlb) : tlb :=
  cpu_tlb_reset_dirty_all (u64 (ram_base + start)) length t.

Definition cpu_physical_memory_reset_dirty (start fin dirty_flags : Z) (g : tmem) : tmem :=
  let start := page_start start in
  let fin := TARGET_PAGE_ALIGN fin in
  let length := fin - start in
  if length =? 0 then g
  else mkTM (tm_phys g) (tlb_reset_dirty_range_all start length (tm_tlb g))
         (cpu_physical_memory_mask_dirty_range start length dirty_flags (tm_dirty g)).

(** When the first block of a page is translated. *)
Definition tlb_protect_code (ram_addr : Z) : tmem -> tmem :=
  cpu_physical_memory_reset_dirty ram_addr (ram_addr + TARGET_PAGE_SIZE) CODE_DIRTY_FLAG.

Definition tlb_unprotect_code_phys (ram_addr : Z) (g : tmem) : tmem :=
  mkTM (tm_phys g) (tm_tlb g) (set_dirty_flags ram_addr CODE_DIRTY_FLAG (tm_dirty g)).

(** ** What changes the TLB and the flags *)

Inductive mem_op : Type :=
| MFill (e : tlb_entry)
| MFlush
| MFlushPage (a : Z)
| MResetDirty (start fin dirty_flags : Z)
| MProtect (ram_addr : Z)
| MUnprotect (ram_addr : Z)
| MWrite (vaddr ram_addr val : Z) (n : nat).

Definition run_mem_op (op : mem_op) (g : tmem) : option tmem :=
  match op with
  | MFill e =>
      match tlb_set_page [] (tm_dirty g) (sec (t_paddr e)) e (tm_tlb g) with
      | Some t => Some (with_tlb t g)
      | None => None
      end
  | MFlush => Some (with_tlb (tlb_flush_all (tm_tlb g)) g)
  | MFlushPage a => Some (with_tlb (Tlb.tlb_flush_page a (tm_tlb g)) g)
  | MResetDirty start fin dirty_flags => Some (cpu_physical_memory_reset_dirty start fin dirty_flags g)
  | MProtect ram_addr => Some (tlb_protect_code ram_addr g)
  | MUnprotect ram_addr => Some (tlb_unprotect_code_phys ram_addr g)
  | MWrite vaddr ram_addr val n => Some (notdirty_mem_write vaddr ram_addr val n g)
  end.

(** A tracked store to page [vaddr] reaches the RAM that every mode maps there. *)
Definition one_frame (g : tmem) (vaddr ram_addr : Z) : Prop :=
  forall idx v p, 0 <= idx < NB_MMU_MODES -> row (te_at (tm_tlb g) idx (tlb_index vaddr)) (iotlb_at (tm_tlb g) idx (tlb_index vaddr)) v p ->
    addr_write (te_at (tm_tlb g) idx (tlb_index vaddr)) = Z.lor (page_of vaddr) TLB_NOTDIRTY -> p = page_of ram_addr.

Definition mem_op_ok (op : mem_op) (g : tmem) : Prop :=
  match op with
  | MFill e => fill_ok e /\ paddr_ok (t_paddr e)
  | MResetDirty start fin _ => 0 <= start /\ start <= fin < 2 ^ 40
  | MProtect ram_addr => 0 <= ram_addr < 2 ^ 39
  | MWrite vaddr ram_addr _ _ => in_range 32 vaddr /\ one_frame g vaddr ram_addr
  | _ => True
  end.

Fixpoint run_mem (ops : list mem_op) (g : tmem) : option tmem :=
  match ops with
  | [] => Some g
  | op :: ops' => match run_mem_op op g with Some g' => run_mem ops' g' | None => None end
  end.

Fixpoint mem_ops_ok (ops : list mem_op) (g : tmem) : Prop :=
  match ops with
  | [] => True
  | op :: ops' => mem_op_ok op g /\ forall g', run_mem_op op g = Some g' -> mem_ops_ok ops' g'
  end.

(** ** The invariant *)

(** A row allows stores without tracking only if all flags of its page are set. *)
Definition tracked (g : tmem) : Prop :=
  forall idx i, dead (te_at (tm_tlb g) idx i) \/
    exists v p, row (te_at (tm_tlb g) idx i) (iotlb_at (tm_tlb g) idx i) v p /\
      (addr_write (te_at (tm_tlb g) idx i) = v -> cpu_physical_memory_is_dirty (tm_dirty g) p = true).

Lemma mask_pages_spec n addr fl dirty page :
  addr = page_of addr ->
  mask_pages n addr fl dirty page =
    if (addr / 4096 <=? page) && (page <? addr / 4096 + Z.of_nat n) then Z.land (dirty page) (Z.lnot fl) else dirty page.
Proof.
  revert addr dirty. induction n as [|n IH]; intros addr dirty Ha; cbn [mask_pages]; change TARGET_PAGE_SIZE with 4096.
  - by zcase; try lia.
  - rewrite IH by (unfold page_of in *; Z.to_euclidean_division_equations; lia).
    unfold cpu_physical_memory_clear_dirty_flags. rewrite Z.shiftr_div_pow2 by done. change (2 ^ TARGET_PAGE_BITS) with 4096.
    replace ((addr + 4096) / 4096) with (addr / 4096 + 1) by (Z.to_euclidean_division_equations; lia).
    zcase; cbn [andb]; try lia; done.
Qed.
Lemma page_start_of a : page_start a = page_of a.
Proof.
  unfold page_start. change (TARGET_PAGE_SIZE - 1) with (Z.ones 12). apply Z.bits_inj'. intros i Hi.
  rewrite Z.land_spec, Z.lnot_spec, Z.testbit_ones, page_of_bits by lia. by zcase; cbn [andb negb]; rewrite ?andb_true_r, ?andb_false_r; try lia.
Qed.

Lemma land_page v fl : v = page_of v -> 0 <= fl < 4096 -> Z.land v fl = 0.
Proof.
  intros Hv Hfl. apply Z.bits_inj'. intros i Hi. rewrite Z.land_spec, Z.bits_0, Hv, page_of_bits by done.
  destruct (Z.leb_spec 12 i); [|done]. change 4096 with (2 ^ 12) in Hfl.
  rewrite <-(Z.mod_small fl (2 ^ 12)), Z.mod_pow2_bits_high by lia. apply andb_false_r.
Qed.

Lemma page_align_of a : TARGET_PAGE_ALIGN a = page_of (a + 4095).
Proof.
  unfold TARGET_PAGE_ALIGN. fold (page_start (a + TARGET_PAGE_SIZE - 1)). rewrite page_start_of. f_equal. change TARGET_PAGE_SIZE with 4096. lia.
Qed.

Lemma is_dirty_page dirty p : paddr_ok p -> cpu_physical_memory_is_dirty dirty p = (dirty (p / 4096) =? 0xff).
Proof. intros _. unfold cpu_physical_memory_is_dirty. by rewrite Z.shiftr_div_pow2. Qed.

(** Flags that are all set stay so: the rows are as before. *)
Lemma tracked_dirty g dirty :
  (forall page, tm_dirty g page = 0xff -> dirty page = 0xff) -> tracked g -> tracked (mkTM (tm_phys g) (tm_tlb g) dirty).
Proof.
  intros Hd Ht idx i. destruct (Ht idx i) as [H|(v & p & Hr & Hw)]; [by left|right]. exists v, p. split; [done|].
  intros E. specialize (Hw E). pose proof (row_p _ _ _ _ Hr). cbn [tm_dirty]. rewrite is_dirty_page in * by done.
  apply Z.eqb_eq. apply Hd. by apply Z.eqb_eq.
Qed.

Lemma tracked_fill e g t :
  fill_ok e -> paddr_ok (t_paddr e) -> tlb_set_page [] (tm_dirty g) (sec (t_paddr e)) e (tm_tlb g) = Some t ->
  tracked g -> tracked (with_tlb t g).
Proof.
  intros Hok Hp Hset Ht idx i. cbn [tm_tlb with_tlb tm_dirty]. destruct (set_page_rows _ _ _ _ idx i Hset) as [-> ->].
  case_decide; [|apply Ht]. right. exists (t_vaddr e), (t_paddr e). split; [by apply ram_row_ok|].
  cbn [ram_row addr_write]. destruct (has _ _).
  - destruct (cpu_physical_memory_is_dirty _ _); [done|]. intros E. exfalso.
    rewrite page_lor in E by (apply Hok || (unfold TLB_NOTDIRTY; lia)). unfold TLB_NOTDIRTY in E. lia.
  - intros E. exfalso. pose proof (fo_vaddr _ Hok) as Hv. rewrite <-E in Hv. by vm_compute in Hv.
Qed.

Lemma tracked_flush_page a g : tracked g -> tracked (with_tlb (Tlb.tlb_flush_page a (tm_tlb g)) g).
Proof.
  intros Ht idx i. cbn [tm_tlb with_tlb tm_dirty]. destruct (flushed_row a (tm_tlb g) idx i) as [[-> | ->] ->]; [apply Ht|left; apply empty_dead].
Qed.

Lemma te_at_reset start length t idx i :
  te_at (cpu_tlb_reset_dirty_all start length t) idx i = tlb_reset_dirty_range start length (te_at t idx i).
Proof.
  unfold te_at, cpu_tlb_reset_dirty_all. cbn [tlb_table with_table]. rewrite lookup_fmap.
  destruct (tlb_table t !! (idx, i)); [done|]. cbn. symmetry. apply dead_reset, empty_dead.
Qed.

(** The row of a page in the range is marked. *)
Lemma reset_row te io v p start length :
  row te io v p -> 0 <= start -> 0 <= length -> start + length < 2 ^ 41 ->
  let te' := tlb_reset_dirty_range (u64 (ram_base + start)) length te in
  row te' io v p /\ (addr_write te' = v -> addr_write te = v /\ ~ (start <= p < start + length)).
Proof.
  intros Hr Hs Hl Hb te'. pose proof Hr as [Hv [Hp Hpp] H1 H2 H3 H4 H5].
  unfold te', tlb_reset_dirty_range. destruct (tlb_is_dirty_ram te) eqn:Hd.
  2: { split; [done|]. intros E. exfalso. unfold tlb_is_dirty_ram in Hd. by rewrite E, land_page in Hd. }
  assert (addr_write te = v) as Hw.
  { destruct H3 as [E|[E|E]]; [|done|]; unfold tlb_is_dirty_ram in Hd; rewrite E in Hd; [by vm_compute in Hd|].
    rewrite Z.land_lor_distr_l, land_page in Hd by done. by vm_compute in Hd. }
  rewrite Hw. assert (Z.land v TARGET_PAGE_MASK = v) as -> by (by rewrite page_mask_of).
  assert (u64 (u64 (v + addend te) - u64 (ram_base + start)) = u64 (p - start)) as ->.
  { rewrite H4. unfold u64, wrap. rewrite Zplus_mod_idemp_r, <-Zminus_mod. f_equal. lia. }
  destruct (Z.ltb_spec (u64 (p - start)) length) as [Hlt|Hge]; cbn [with_addr_write addr_write].
  - split; [split; cbn; auto; done|]. intros E. exfalso. rewrite page_lor in E by (done || (unfold TLB_NOTDIRTY; lia)). unfold TLB_NOTDIRTY in E. lia.
  - split; [done|]. intros _. split; [done|]. intros Hin. unfold u64, wrap in Hge. rewrite Z.mod_small in Hge by lia. lia.
Qed.

Lemma tracked_reset start fin fl g :
  0 <= start -> start <= fin < 2 ^ 40 -> tracked g -> tracked (cpu_physical_memory_reset_dirty start fin fl g).
Proof.
  intros Hs Hf Ht. unfold cpu_physical_memory_reset_dirty. cbv zeta. rewrite page_start_of, page_align_of.
  set (s0 := page_of start). set (f0 := page_of (fin + 4095)).
  assert (0 <= s0 /\ s0 <= f0 /\ f0 < 2 ^ 40 + 4096 /\ s0 = page_of s0 /\ f0 = page_of f0) as (B1 & B2 & B3 & B4 & B5)
    by (unfold s0, f0, page_of; Z.to_euclidean_division_equations; lia).
  destruct (Z.eqb_spec (f0 - s0) 0) as [|Hne]; [done|]. intros idx i. cbn [tm_tlb tm_dirty]. unfold tlb_reset_dirty_range_all. rewrite te_at_reset.
  change (iotlb_at (cpu_tlb_reset_dirty_all ?x ?y ?t) idx i) with (iotlb_at t idx i).
  destruct (Ht idx i) as [Hd|(v & p & Hr & Hw)]; [left; by rewrite dead_reset|right]. exists v, p.
  destruct (reset_row _ _ _ _ s0 (f0 - s0) Hr) as [Hr' Hw']; [lia..|]. split; [exact Hr'|]. intros E. apply Hw' in E as [E Hout].
  specialize (Hw E). pose proof (row_p _ _ _ _ Hr) as [Hp Hpp]. rewrite is_dirty_page in * by done.
  unfold cpu_physical_memory_mask_dirty_range. cbv zeta. rewrite page_start_of, page_align_of, <-B4, mask_pages_spec by done.
  replace (s0 + (f0 - s0) + 4095) with (f0 + 4095) by lia. replace (page_of (f0 + 4095)) with f0 by (unfold page_of in *; Z.to_euclidean_division_equations; lia).
  change TARGET_PAGE_SIZE with 4096. destruct (_ && _) eqn:Hin; [|done]. exfalso. apply Hout. apply andb_true_iff in Hin as [I1%Z.leb_le I2%Z.ltb_lt].
  rewrite Z2Nat.id in I2 by (apply Z.div_pos; lia). unfold page_of in *. Z.to_euclidean_division_equations. lia.
Qed.
Lemma te_at_set_dirty vaddr t idx i :
  te_at (tlb_set_dirty vaddr t) idx i =
  if decide (i = tlb_index vaddr /\ 0 <= idx < NB_MMU_MODES) then tlb_set_dirty1 (page_of vaddr) (te_at t idx i) else te_at t idx i.
Proof. unfold tlb_set_dirty. rewrite page_mask_of, te_at_on_row, tlb_index_page. done. Qed.

(** What the invalidation of blocks does to the flags: it may set them. *)
Definition blocks_set_flags : Prop :=
  forall a n dirty cache page, dirty page = 0xff -> fst (tb_invalidate_phys_page_fast a n (dirty, cache)) page = 0xff.

Lemma tracked_write vaddr ram_addr val n g :
  blocks_set_flags -> one_frame g vaddr ram_addr -> tracked g -> tracked (notdirty_mem_write vaddr ram_addr val n g).
Proof.
  intros Hbl Hone Ht. unfold notdirty_mem_write.
  assert (forall page, tm_dirty g page = 0xff ->
    fst (if negb (has (dirty_flags_of (tm_dirty g) ram_addr) CODE_DIRTY_FLAG)
         then tb_invalidate_phys_page_fast ram_addr (Z.of_nat n) (tm_dirty g, tb_jmp_cache (tm_tlb g))
         else (tm_dirty g, tb_jmp_cache (tm_tlb g))) page = 0xff) as Hd by (intros page H; destruct (negb _); [by apply Hbl|done]).
  destruct (if negb _ then _ else _) as [dirty cache]. cbn [fst] in Hd.
  set (fl := Z.lor (dirty_flags_of dirty ram_addr) _). set (dirty' := set_dirty_flags _ _ _).
  assert (forall page, tm_dirty g page = 0xff -> dirty' page = 0xff) as Hd'.
  { intros page H. unfold dirty', set_dirty_flags. destruct (Z.eqb_spec page (Z.shiftr ram_addr TARGET_PAGE_BITS)) as [E|]; [|by apply Hd].
    unfold fl, dirty_flags_of. by rewrite <-E, Hd. }
  set (t := with_jmp_cache cache (tm_tlb g)).
  assert (tracked (mkTM (tm_phys g) t dirty')) as Ht' by exact (tracked_dirty g dirty' Hd' Ht).
  destruct (Z.eqb_spec fl 0xff) as [Hfl|]; [|exact Ht']. intros idx i. cbn [tm_tlb tm_dirty]. rewrite te_at_set_dirty.
  change (iotlb_at (tlb_set_dirty vaddr t) idx i) with (iotlb_at t idx i).
  case_decide as Hi; [|apply Ht']. destruct Hi as [-> Hi]. destruct (Ht' idx (tlb_index vaddr)) as [Hdd|(v & p & Hr & Hw)].
  - left. apply dead_set_dirty; [by rewrite page_of_page|done].
  - right. exists v, p. cbn [tm_tlb tm_dirty] in *. split; [by apply set_dirty_row; [rewrite page_of_page|]|].
    unfold tlb_set_dirty1. destruct (Z.eqb_spec (addr_write (te_at t idx (tlb_index vaddr))) (Z.lor (page_of vaddr) TLB_NOTDIRTY)) as [E|]; [|done].
    intros _. assert (p = page_of ram_addr) as -> by exact (Hone idx v p Hi Hr E).
    unfold cpu_physical_memory_is_dirty, dirty', set_dirty_flags. rewrite !Z.shiftr_div_pow2 by done. change (2 ^ TARGET_PAGE_BITS) with 4096.
    unfold page_of. rewrite Z.div_mul, Z.eqb_refl by done. unfold fl, dirty_flags_of in *. rewrite Z.shiftr_div_pow2 in * by done.
    change (2 ^ TARGET_PAGE_BITS) with 4096 in *. rewrite Z.lor_assoc, Z.lor_diag. by apply Z.eqb_eq.
Qed.

Lemma tracked_op op g g' : blocks_set_flags -> mem_op_ok op g -> run_mem_op op g = Some g' -> tracked g -> tracked g'.
Proof.
  intros Hbl Hok Hrun Ht. destruct op as [e| |a|start fin fl|ram|ram|vaddr ram val n]; cbn [mem_op_ok run_mem_op] in *.
  - destruct (tlb_set_page _ _ _ _ _) as [t|] eqn:E; [|done]. injection Hrun as <-. destruct Hok. by eapply tracked_fill.
  - injection Hrun as <-. intros idx i. left. unfold te_at. cbn [tm_tlb with_tlb tlb_table tlb_flush_all]. rewrite lookup_empty. apply empty_dead.
  - injection Hrun as <-. by apply tracked_flush_page.
  - injection Hrun as <-. destruct Hok. by apply tracked_reset.
  - injection Hrun as <-. change TARGET_PAGE_SIZE with 4096 in *. apply tracked_reset; change TARGET_PAGE_SIZE with 4096; lia || done.
  - injection Hrun as <-. apply (tracked_dirty g); [|done]. intros page H. unfold set_dirty_flags. case_match; [by rewrite H|done].
  - injection Hrun as <-. apply tracked_write; try done. apply Hok.
Qed.

Lemma tracked_ops ops g g' : blocks_set_flags -> mem_ops_ok ops g -> run_mem ops g = Some g' -> tracked g -> tracked g'.
Proof.
  intros Hbl. revert g. induction ops as [|op ops IH]; intros g Hok Hrun Ht; cbn [run_mem mem_ops_ok] in *; [by injection Hrun as <-|].
  destruct (run_mem_op op g) as [g1|] eqn:E; [|done]. destruct Hok as [Hok Hoks]. apply (IH g1); try done; [by apply Hoks|by eapply tracked_op].
Qed.

(** A row whose page is not dirty sends stores to [notdirty_mem_write]. *)
Lemma clean_store n idx a v g te env :
  tracked g -> tlb_hit (tm_tlb g) idx a 1 = Some te -> width n ->
  has (dirty_flags_of (tm_dirty g) (ram_of (u64 (a + addend te)))) CODE_DIRTY_FLAG = false ->
  cpu_st n a v idx env g =
    if misaligned n a then slow_st 2 n a v idx env g
    else KRet tt env (notdirty_dispatch a (ram_of (u64 (a + addend te))) v n g).
Proof.
  intros Ht Hh Hn Hc. pose proof Hh as Hh'. unfold tlb_hit in Hh. rewrite page_mask_of in Hh.
  destruct (Z.eqb_spec (page_of a) (Z.land (te_field 1 (te_at (tm_tlb g) idx (tlb_index a))) PAGE_OR_INVALID)) as [E|]; [|done].
  injection Hh as <-. set (te := te_at (tm_tlb g) idx (tlb_index a)) in *. change (te_field 1 te) with (addr_write te) in *.
  destruct (Ht idx (tlb_index a)) as [Hd|(v' & p & Hr & Hw)]; [fold te in Hd; by rewrite (proj1 (proj2 Hd)) in E; destruct (page_not_tag a)|]. fold te in Hr, Hw.
  assert (v' = page_of a) as -> by (symmetry; eapply (row_tag te _ _ _ a 1); [exact Hr|by symmetry]).
  pose proof (row_host _ _ _ _ Hr) as Hram. rewrite Hram in *. pose proof Hr as [Hv [Hp Hpp] _ _ Hwr _ _].
  assert (addr_write te = Z.lor (page_of a) TLB_NOTDIRTY) as Hnd.
  { destruct Hwr as [Hi|[Hi|Hi]]; [rewrite Hi in E; by destruct (page_not_tag a)| |done]. exfalso. specialize (Hw Hi).
    apply Z.eqb_eq in Hw. unfold dirty_flags_of in Hc. replace (Z.shiftr (p + page_offset a) TARGET_PAGE_BITS) with (Z.shiftr p TARGET_PAGE_BITS) in Hc.
    - by rewrite Hw in Hc.
    - rewrite !Z.shiftr_div_pow2, page_offset_mod by done. change (2 ^ TARGET_PAGE_BITS) with 4096. unfold page_of in Hpp. Z.to_euclidean_division_equations; lia. }
  assert (tlb_flags (addr_write te) = true) as Hf.
  { rewrite Hnd. unfold tlb_flags. apply negb_true_iff, Z.eqb_neq. change (TARGET_PAGE_SIZE - 1) with (Z.ones 12).
    rewrite Z.land_ones, page_lor by (done || (unfold TLB_NOTDIRTY; lia)). unfold TLB_NOTDIRTY. change (2 ^ 12) with 4096.
    unfold page_of. rewrite Z.add_comm, Z.mod_add by lia. done. }
  unfold cpu_st. fold te. destruct (Z.eqb_spec (addr_write te) (fast_tag n a)) as [E'|_].
  { exfalso. rewrite Hnd, fast_tag_eq, page_lor in E' by (done || (unfold TLB_NOTDIRTY; lia)). unfold TLB_NOTDIRTY in E'.
    assert (0 < Z.of_nat n <= 8) as Hn8 by (destruct Hn as [->|[->|[->| ->]]]; lia).
    pose proof (Z.mod_pos_bound a (Z.of_nat n)). lia. }
  unfold helper_st, REDO. cbn [redo]. rewrite Hh', Hf. destruct (misaligned n a); [done|].
  unfold st_io, io_write. destruct (row_iotlb _ _ _ _ Hr) as [-> ->]. by rewrite Z.eqb_refl.
Qed.

(** A store in a machine whose TLB agrees with the tables meets [one_frame]. *)
Lemma synced_one_frame env g idx a te e :
  coherent env g -> paging env = true -> a20_mask env = -1 -> in_range 32 a -> 0 <= idx < NB_MMU_MODES -> hits g idx a 1 te e ->
  one_frame g a (host_addr e a).
Proof.
  intros Hc Hpg H20 Ha Hi Hh idx' v p Hi' Hr Hw.
  assert (Z.land (addr_write (te_at (tm_tlb g) idx' (tlb_index a))) PAGE_OR_INVALID = page_of a) as Htag.
  { rewrite Hw. apply tag_page; [by rewrite page_of_page|done]. }
  assert (tlb_hit (tm_tlb g) idx' a 1 = Some (te_at (tm_tlb g) idx' (tlb_index a))) as Hh'.
  { unfold tlb_hit. rewrite page_mask_of. change (te_field 1 ?x) with (addr_write x). by rewrite Htag, Z.eqb_refl. }
  assert (plain_access env 1) as Hpl by (right; by left).
  destruct (Hc idx a 1 te Ha Hi Hpl (h_hit _ _ _ _ _ _ Hh)) as (p1 & Hag1 & Had1).
  destruct (Hc idx' a 1 _ Ha Hi' Hpl Hh') as (p2 & Hag2 & Had2).
  destruct (agree_elim _ _ _ _ _ _ Hpg H20 Ha Hag1) as (pa1 & Hres1 & -> & _).
  destruct (agree_elim _ _ _ _ _ _ Hpg H20 Ha Hag2) as (pa2 & Hres2 & -> & _).
  assert (pa2 = pa1) as -> by congruence. pose proof (path_paddr_ok _ a _ _ Hres1) as Hok.
  assert (v = page_of a) as -> by (symmetry; by apply (row_tag _ _ _ _ a 1 Hr)).
  assert (forall q, paddr_ok q -> u64 (ram_base + q - page_of a) = u64 (ram_base + path_paddr a pa1 - page_of a) -> q = path_paddr a pa1) as Hinj
    by (intros q Hq E; apply (ram_host_inj _ _ (- page_of a)); try done; by rewrite !Z.add_opp_r).
  rewrite (Hinj p (row_p _ _ _ _ Hr)) by (by rewrite <-Had2, (row_addend _ _ _ _ Hr)).
  pose proof (h_row _ _ _ _ _ _ Hh) as Hrow. unfold host_addr.
  rewrite (Hinj (t_paddr e) (row_p _ _ _ _ Hrow)) by (by rewrite <-Had1, (row_addend _ _ _ _ Hrow)).
  destruct Hok as [_ Hq]. rewrite page_offset_mod. revert Hq. generalize (path_paddr a pa1). intros q Hq. unfold page_of in *. Z.to_euclidean_division_equations; lia.
Qed.

(** ** Property *)

End Code.

(** Invalidation lets the page be written freely again. *)
Definition code_board : Board := {|
  ram_base := 0x7f0000000000;
  tb_invalidate_phys_page_fast a _ dc := (set_dirty_flags a CODE_DIRTY_FLAG (fst dc), ∅);
  io_mem_read _ _ _ _ := kabort;
  io_mem_write _ _ _ _ _ := kabort
|}.
Definition code_page : tlb_entry := mkTlb 0x3000 0x5000 (PAGE_READ + PAGE_WRITE + PAGE_EXEC) 1 4096.
Definition code_run : list mem_op := [MFill code_page; MProtect 0x5000].
Definition code_mem : tmem := mkTM demo_phys tlb_reset (fun _ => 0xff).

Lemma code_run_ok : @mem_ops_ok code_board code_run code_mem.
Proof.
  split; [split; [split|split]|].
  - reflexivity.
  - cbn. lia.
  - unfold NB_MMU_MODES. cbn. lia.
  - exists 12. split; [reflexivity|lia].
  - cbn. lia.
  - reflexivity.
  - intros g' _. split; [cbn; lia|]. by intros g'' _.
Qed.

Definition code_state : tmem := default code_mem (@run_mem code_board code_run code_mem).
Definition code_row : CPUTLBEntry := mkTE 0x3000 0x3010 0x3000 (u64 (0x7f0000000000 + 0x5000 - 0x3000)).

