(* ===== verification/PhysMem.v ===== *)
(** * Physical memory and the chip set

    What the helpers for system management, virtualisation and model-specific
    registers use of the machine: loads and stores at physical addresses (exec.c),
    with the laws of memory, the local APIC, the time-stamp counter and the mapping
    of system-management memory. *)

From stdpp Require Import base list.
From Stdlib Require Import ZArith Lia.
From S2P Require Import Prelude Cpu CcHelper Guest Mmu MmuWalk Seg SoftMmu.

Local Open Scope Z_scope.

(** [ldub_phys], [lduw_phys], [ldl_phys] and [ldq_phys], and the stores. *)
Class PhysMem (G : Type) : Type := {
  ld_mem : nat -> Z -> G -> Z;
  st_mem : nat -> Z -> Z -> G -> G
}.

(** Bytes [a] to [a + n - 1] and [b] to [b + k - 1] have none in common. *)
Definition apart (n : nat) (a : Z) (k : nat) (b : Z) : Prop := a + Z.of_nat n <= b \/ b + Z.of_nat k <= a.

Class PhysMemSpec (G : Type) `{!PhysMem G} : Prop := {
  ld_mem_range n a (g : G) : 0 <= ld_mem n a g < 2 ^ (8 * Z.of_nat n);
  ld_st_same n a v (g : G) : ld_mem n a (st_mem n a v g) = wrap (8 * Z.of_nat n) v;
  ld_st_apart n a v k b (g : G) : apart n a k b -> ld_mem k b (st_mem n a v g) = ld_mem k b g
}.

#[export] Instance phys_mem : PhysMem phys := {|
  ld_mem n a p := ld_phys (mkMachine blank_cpu p) n a;
  st_mem n a v p := poke (Z.of_nat n) a v p
|}.

#[export] Instance phys_mem_spec : PhysMemSpec phys.
Proof.
  split.
  - intros n a p. cbn [ld_mem phys_mem]. pose proof (ld_phys_range (mkMachine blank_cpu p) n a) as H.
    by rewrite Z.pow_mul_r by lia.
  - intros n a v p. cbn [ld_mem st_mem phys_mem]. rewrite (ld_phys_bytes _ n a v).
    + unfold wrap. by rewrite Z.pow_mul_r by lia.
    + intros x Hx. cbn [m_phys]. unfold poke. by zcase; try lia.
  - intros n a v k b p Hap. cbn [ld_mem st_mem phys_mem]. apply ld_phys_ext. intros x Hx. cbn [m_phys]. unfold poke, apart in *.
    by zcase; try lia.
Qed.

(** The local APIC (hw/intc/apic_common.c), the clock and [cpu_smm_update], which
    maps or hides system-management memory. *)
Class Chipset (G : Type) : Type := {
  cpu_get_apic_tpr : G -> Z;
  cpu_set_apic_tpr : Z -> G -> G;
  cpu_get_apic_base : G -> Z;
  cpu_set_apic_base : Z -> G -> G;
  cpu_get_tsc : G -> Z;
  cpu_smm_update : bool -> G -> G
}.

(** A board without a local APIC. *)
Definition no_apic (G : Type) : Chipset G := {|
  cpu_get_apic_tpr _ := 0; cpu_set_apic_tpr _ g := g; cpu_get_apic_base _ := 0; cpu_set_apic_base _ g := g;
  cpu_get_tsc _ := 0; cpu_smm_update _ g := g
|}.
