(* ===== verification/CtrlRegs.v ===== *)
(** * Control registers and interception

    The control registers (target-i386/helper.c and misc_helper.c) with the hidden
    flags that copy their bits and the flushes of the TLB that their writes need;
    the test by which a hypervisor intercepts instructions (svm_helper.c); the
    instructions of misc_helper.c that read counters, wait or check I/O
    permissions. *)

From stdpp Require Import base list.
From Stdlib Require Import ZArith Lia.
From S2P Require Import Prelude Cpu CcHelper Excp Guest Mmu Seg SegTask PhysMem.

Local Open Scope Z_scope.
Local Open Scope k_scope.

Definition HF_MP_MASK : Z := 0x200.
Definition HF_EM_MASK : Z := 0x400.
Definition HF_SVME_MASK : Z := Z.shiftl 1 20.
Definition HF_OSFXSR_MASK : Z := Z.shiftl 1 22.
Definition HF_MP_SHIFT : Z := 9.
Definition HF_PE_SHIFT : Z := 7.
Definition HF_ADDSEG_SHIFT : Z := 6.
Definition HF2_VINTR_MASK : Z := 8.
Definition CR0_ET_MASK : Z := 0x10.
Definition CR4_TSD_MASK : Z := 0x4.
Definition CR4_PGE_MASK : Z := 0x80.
Definition CR4_PCE_MASK : Z := 0x100.
Definition CR4_OSFXSR_MASK : Z := 0x200.
Definition FEAT_1_EDX : nat := 0.
Definition FEAT_7_0_EBX : nat := 2.
Definition FEAT_8000_0001_EDX : nat := 3.
Definition FEAT_8000_0001_ECX : nat := 4.
Definition CPUID_SSE : Z := Z.shiftl 1 25.
Definition CPUID_7_0_EBX_SMAP : Z := Z.shiftl 1 20.
Definition CPU_INTERRUPT_EXITTB : Z := 0x4.
Definition MSR_EFER_LMA : Z := 0x400.
Definition MSR_EFER_SVME : Z := 0x1000.
Definition EXCP06_ILLOP : Z := 6.

Definition SVM_EXIT_READ_CR0 : Z := 0x000.
Definition SVM_EXIT_WRITE_CR0 : Z := 0x010.
Definition SVM_EXIT_READ_DR0 : Z := 0x020.
Definition SVM_EXIT_WRITE_DR0 : Z := 0x030.
Definition SVM_EXIT_RDTSC : Z := 0x06e.
Definition SVM_EXIT_RDPMC : Z := 0x06f.
Definition SVM_EXIT_HLT : Z := 0x078.
Definition SVM_EXIT_INVLPG : Z := 0x079.
Definition SVM_EXIT_MSR : Z := 0x07c.
Definition SVM_EXIT_MONITOR : Z := 0x08a.
Definition SVM_EXIT_MWAIT : Z := 0x08b.
(** offsetof(struct vmcb, control.msrpm_base_pa) *)
Definition vmcb_msrpm_base_pa : Z := 0x48.

Definition feature (env : CPUX86State) (word : nat) : Z := nth word (features env) 0.
Definition crx (env : CPUX86State) (n : nat) : Z := nth n (cr env) 0.
Definition set_cr (n : nat) (v : Z) (env : CPUX86State) : CPUX86State := with_cr (<[n := u32 v]> (cr env)) env.

Definition with_tsc_offset (v : Z) (s : SvmState) : SvmState :=
  mkSvm (vm_hsave s) v (intercept_cr_read s) (intercept_cr_write s) (intercept_dr_read s) (intercept_dr_write s) (v_tpr s) (interrupt_request s).
Definition with_v_tpr (v : Z) (s : SvmState) : SvmState :=
  mkSvm (vm_hsave s) (tsc_offset s) (intercept_cr_read s) (intercept_cr_write s) (intercept_dr_read s) (intercept_dr_write s) v (interrupt_request s).
Definition with_interrupt_request (v : Z) (s : SvmState) : SvmState :=
  mkSvm (vm_hsave s) (tsc_offset s) (intercept_cr_read s) (intercept_cr_write s) (intercept_dr_read s) (intercept_dr_write s) (v_tpr s) v.
Definition with_vm_hsave (v : Z) (s : SvmState) : SvmState :=
  mkSvm v (tsc_offset s) (intercept_cr_read s) (intercept_cr_write s) (intercept_dr_read s) (intercept_dr_write s) (v_tpr s) (interrupt_request s).
Definition on_svm (f : SvmState -> SvmState) (env : CPUX86State) : CPUX86State := with_svm (f (svm env)) env.

(** ** The CPU part of a write *)

Definition CR0_FLUSH : Z := Z.lor (Z.lor CR0_PG_MASK CR0_WP_MASK) CR0_PE_MASK.
Definition HF_FPU : Z := Z.lor (Z.lor HF_MP_MASK HF_EM_MASK) HF_TS_MASK.

Definition put_cr0 (new_cr0 : Z) (env : CPUX86State) : CPUX86State :=
  let env := set_cr 0 (Z.lor new_cr0 CR0_ET_MASK) env in
  let pe_state := Z.land (crx env 0) CR0_PE_MASK in
  let env := with_hflags (Z.lor (Z.land (hflags env) (not32 HF_PE_MASK)) (Z.shiftl pe_state HF_PE_SHIFT)) env in
  let env := with_hflags (Z.lor (hflags env) (Z.shiftl (Z.lxor pe_state 1) HF_ADDSEG_SHIFT)) env in
  with_hflags (Z.lor (Z.land (hflags env) (not32 HF_FPU))
                 (Z.land (u32 (Z.shiftl new_cr0 (HF_MP_SHIFT - 1))) HF_FPU)) env.

Definition CR4_FLUSH : Z :=
  Z.lor (Z.lor (Z.lor (Z.lor CR4_PGE_MASK CR4_PAE_MASK) CR4_PSE_MASK) CR4_SMEP_MASK) CR4_SMAP_MASK.

Definition put_cr4 (new_cr4 : Z) (env : CPUX86State) : CPUX86State :=
  let new_cr4 :=
    if negb (has (feature env FEAT_1_EDX) CPUID_SSE) then Z.land new_cr4 (not32 CR4_OSFXSR_MASK) else new_cr4 in
  let env := with_hflags (Z.land (hflags env) (not32 HF_OSFXSR_MASK)) env in
  let env := if has new_cr4 CR4_OSFXSR_MASK then with_hflags (Z.lor (hflags env) HF_OSFXSR_MASK) env else env in
  let new_cr4 :=
    if negb (has (feature env FEAT_7_0_EBX) CPUID_7_0_EBX_SMAP) then Z.land new_cr4 (not32 CR4_SMAP_MASK) else new_cr4 in
  let env := with_hflags (Z.land (hflags env) (not32 HF_SMAP_MASK)) env in
  let env := if has new_cr4 CR4_SMAP_MASK then with_hflags (Z.lor (hflags env) HF_SMAP_MASK) env else env in
  set_cr 4 new_cr4 env.

(** [cpu_load_efer] (cpu.h) *)
Definition cpu_load_efer (val : Z) (env : CPUX86State) : CPUX86State :=
  let env := with_efer val env in
  let env := with_hflags (Z.land (hflags env) (not32 (Z.lor HF_LMA_MASK HF_SVME_MASK))) env in
  let env := if has (efer env) MSR_EFER_LMA then with_hflags (Z.lor (hflags env) HF_LMA_MASK) env else env in
  if has (efer env) MSR_EFER_SVME then with_hflags (Z.lor (hflags env) HF_SVME_MASK) env else env.

Section Regs.
Context {G : Type} `{!SoftMmu G, !PhysMem G, !Chipset G}.

Definition x86_cpu_set_a20 (a20_state : Z) : K G unit :=
  let a20_state := b2z (negb (a20_state =? 0)) in
  env <- kget ;;
  if negb (a20_state =? Z.land (Z.shiftr (a20_mask env) 20) 1) then
    kmod (on_svm (fun s => with_interrupt_request (Z.lor (interrupt_request s) CPU_INTERRUPT_EXITTB) s)) ;;
    kmem tlb_flush ;;
    kmod (with_a20_mask (Z.lor (Z.lnot (Z.shiftl 1 20)) (Z.shiftl a20_state 20)))
  else kret tt.

Definition cpu_x86_update_cr0 (new_cr0 : Z) : K G unit :=
  env <- kget ;;
  (if negb (Z.land new_cr0 CR0_FLUSH =? Z.land (crx env 0) CR0_FLUSH) then kmem tlb_flush else kret tt) ;;
  kmod (put_cr0 new_cr0).

Definition cpu_x86_update_cr4 (new_cr4 : Z) : K G unit :=
  env <- kget ;;
  (if has (Z.lxor new_cr4 (crx env 4)) CR4_FLUSH then kmem tlb_flush else kret tt) ;;
  kmod (put_cr4 new_cr4).

(** ** Interception *)

Definition kvmexit {A} (code info : Z) : K G A := fun env g => KVmexit code info env g.
Definition vmexit_if (b : bool) (type param : Z) : K G unit := if b then kvmexit type param else kret tt.

(** Byte and bit of the permission map for a register. *)
Definition msrpm_bit (ecx : Z) : option (Z * Z) :=
  if (0 <=? ecx) && (ecx <=? 0x1fff) then Some ((ecx * 2) / 8, (ecx * 2) mod 8)
  else if (0xc0000000 <=? ecx) && (ecx <=? 0xc0001fff) then
    let t0 := (8192 + ecx - 0xc0000000) * 2 in Some (t0 / 8, t0 mod 8)
  else if (0xc0010000 <=? ecx) && (ecx <=? 0xc0011fff) then
    let t0 := (16384 + ecx - 0xc0010000) * 2 in Some (t0 / 8, t0 mod 8)
  else None.

Definition check_msr (type param : Z) : K G unit :=
  fun env g =>
    let addr := ld_mem 8 (vm_vmcb env + vmcb_msrpm_base_pa) g in
    match msrpm_bit (reg env R_ECX) with
    | None => KVmexit type param env g
    | Some (t1, t0) =>
        vmexit_if (has (ld_mem 1 (u64 (addr + t1)) g) (Z.shiftl (Z.shiftl 1 param) t0)) type param env g
    end.

Definition within (lo n x : Z) : bool := (lo <=? x) && (x <=? lo + n).

Definition helper_svm_check_intercept_param (type param : Z) : K G unit :=
  env <- kget ;;
  if negb (has (hflags env) HF_SVMI_MASK) then kret tt
  else if within SVM_EXIT_READ_CR0 8 type then
    vmexit_if (Z.testbit (intercept_cr_read (svm env)) (type - SVM_EXIT_READ_CR0)) type param
  else if within SVM_EXIT_WRITE_CR0 8 type then
    vmexit_if (Z.testbit (intercept_cr_write (svm env)) (type - SVM_EXIT_WRITE_CR0)) type param
  else if within SVM_EXIT_READ_DR0 7 type then
    vmexit_if (Z.testbit (intercept_dr_read (svm env)) (type - SVM_EXIT_READ_DR0)) type param
  else if within SVM_EXIT_WRITE_DR0 7 type then
    vmexit_if (Z.testbit (intercept_dr_write (svm env)) (type - SVM_EXIT_WRITE_DR0)) type param
  else if within SVM_EXIT_EXCP_BASE 31 type then
    vmexit_if (Z.testbit (intercept_exceptions env) (type - SVM_EXIT_EXCP_BASE)) type param
  else if type =? SVM_EXIT_MSR then
    if Z.testbit (intercept env) (SVM_EXIT_MSR - SVM_EXIT_INTR) then check_msr type param else kret tt
  else vmexit_if (Z.testbit (intercept env) (type - SVM_EXIT_INTR)) type param.

Definition cpu_svm_check_intercept_param (type param : Z) : K G unit := helper_svm_check_intercept_param type param.

(** ** Control registers *)

Definition helper_read_crN (reg : Z) : K G Z :=
  cpu_svm_check_intercept_param (SVM_EXIT_READ_CR0 + reg) 0 ;;
  env <- kget ;;
  if reg =? 8 then
    if negb (has (hflags2 env) HF2_VINTR_MASK) then fun env g => KRet (cpu_get_apic_tpr g) env g
    else kret (v_tpr (svm env))
  else kret (crx env (Z.to_nat reg)).

Definition helper_write_crN (reg t0 : Z) : K G unit :=
  cpu_svm_check_intercept_param (SVM_EXIT_WRITE_CR0 + reg) 0 ;;
  if reg =? 0 then cpu_x86_update_cr0 t0
  else if reg =? 3 then cpu_x86_update_cr3 t0
  else if reg =? 4 then cpu_x86_update_cr4 t0
  else if reg =? 8 then
    env <- kget ;;
    (if negb (has (hflags2 env) HF2_VINTR_MASK) then kmem (cpu_set_apic_tpr (u8 t0)) else kret tt) ;;
    kmod (on_svm (with_v_tpr (Z.land t0 0x0f)))
  else kmod (set_cr (Z.to_nat reg) t0).

Definition helper_lmsw (t0 : Z) : K G unit :=
  env <- kget ;;
  helper_write_crN 0 (Z.lor (Z.land (crx env 0) (not32 0xe)) (Z.land t0 0xf)).

Definition helper_invlpg (addr : Z) : K G unit :=
  cpu_svm_check_intercept_param SVM_EXIT_INVLPG 0 ;;
  kmem (tlb_flush_page addr).

(** ** Counters *)

Definition helper_rdtsc : K G unit :=
  env <- kget ;;
  raise_if (has (crx env 4) CR4_TSD_MASK && negb (cpl_of env =? 0)) EXCP0D_GPF 0 ;;
  cpu_svm_check_intercept_param SVM_EXIT_RDTSC 0 ;;
  fun env g =>
    let val := u64 (cpu_get_tsc g + tsc_offset (svm env)) in
    KRet tt (put_reg R_EDX (u32 (Z.shiftr val 32)) (put_reg R_EAX (u32 val) env)) g.

Definition helper_rdtscp : K G unit :=
  helper_rdtsc ;; kmod (fun env => put_reg R_ECX (u32 (tsc_aux (msrs env))) env).

Definition helper_rdpmc : K G unit :=
  env <- kget ;;
  raise_if (has (crx env 4) CR4_PCE_MASK && negb (cpl_of env =? 0)) EXCP0D_GPF 0 ;;
  cpu_svm_check_intercept_param SVM_EXIT_RDPMC 0 ;;
  raise EXCP06_ILLOP 0.

(** ** Waiting *)

Definition do_hlt {A} : K G A :=
  kmod (fun env => with_hflags (Z.land (hflags env) (not32 HF_INHIBIT_IRQ_MASK)) env) ;;
  kmod (with_exception_index EXCP_HLT) ;;
  fun env g => KExit env g.

Definition helper_hlt {A} (next_eip_addend : Z) : K G A :=
  cpu_svm_check_intercept_param SVM_EXIT_HLT 0 ;;
  kmod (fun env => with_eip (u32 (eip env + next_eip_addend)) env) ;;
  do_hlt.

Definition helper_monitor (ptr : Z) : K G unit :=
  env <- kget ;;
  raise_if (negb (reg env R_ECX =? 0)) EXCP0D_GPF 0 ;;
  cpu_svm_check_intercept_param SVM_EXIT_MONITOR 0.

(** [other_cpus]: the CPU is not the only one. *)
Definition helper_mwait (other_cpus : bool) (next_eip_addend : Z) : K G unit :=
  env <- kget ;;
  raise_if (negb (reg env R_ECX =? 0)) EXCP0D_GPF 0 ;;
  cpu_svm_check_intercept_param SVM_EXIT_MWAIT 0 ;;
  kmod (fun env => with_eip (u32 (eip env + next_eip_addend)) env) ;;
  if other_cpus then kret tt else do_hlt.

(** ** I/O permissions in the TSS *)

Definition check_io (addr size : Z) : K G unit :=
  env <- kget ;;
  raise_if (negb (has (sflags (tr env)) DESC_P_MASK) || negb (type_of (sflags (tr env)) =? 9) || (limit (tr env) <? 103))
    EXCP0D_GPF 0 ;;
  io_offset <- cpu_lduw_kernel (base (tr env) + 0x66) ;;
  let io_offset := io_offset + Z.shiftr addr 3 in
  raise_if (limit (tr env) <? io_offset + 1) EXCP0D_GPF 0 ;;
  val <- cpu_lduw_kernel (base (tr env) + io_offset) ;;
  raise_if (has (Z.shiftr val (Z.land addr 7)) (Z.shiftl 1 size - 1)) EXCP0D_GPF 0.

Definition helper_check_iob (t0 : Z) : K G unit := check_io t0 1.
Definition helper_check_iow (t0 : Z) : K G unit := check_io t0 2.
Definition helper_check_iol (t0 : Z) : K G unit := check_io t0 4.

Definition EXCP04_INTO : Z := 4.

Definition helper_into (next_eip_addend : Z) : K G unit :=
  env <- kget ;;
  if has (cpu_cc_compute_all env (cc_op env)) CC_O
  then lift (raise_interrupt EXCP04_INTO true 0 next_eip_addend) else kret tt.
End Regs.
