(* ===== verification/CtrlTlb.v ===== *)
(** * Writes to control registers and the TLB

    A write to a control register flushes the TLB when it has to: afterwards the
    TLB agrees with the page tables as the new registers have them. Also the hidden
    flags copy the bits of the control registers. *)

From stdpp Require Import base gmap list.
From Stdlib Require Import ZArith Lia.
From S2P Require Import Prelude Cpu CcHelper Excp Guest Mmu MmuWalk Seg SegSpec SegTask SoftMmu Tlb TlbInv TlbWalk TlbCoh TlbMmu TlbSim PhysMem CtrlRegs.

Local Open Scope Z_scope.
Local Open Scope k_scope.

(** ** What the MMU reads of the CPU *)

Record mmu_same (env env' : CPUX86State) : Prop := {
  ms_a20 : a20_mask env' = a20_mask env;
  ms_pg : has (crx env' 0) CR0_PG_MASK = has (crx env 0) CR0_PG_MASK;
  ms_wp : has (crx env' 0) CR0_WP_MASK = has (crx env 0) CR0_WP_MASK;
  ms_cr3 : has (crx env 0) CR0_PG_MASK = true -> crx env' 3 = crx env 3;
  ms_pae : has (crx env' 4) CR4_PAE_MASK = has (crx env 4) CR4_PAE_MASK;
  ms_pse : has (crx env' 4) CR4_PSE_MASK = has (crx env 4) CR4_PSE_MASK;
  ms_smep : has (crx env' 4) CR4_SMEP_MASK = has (crx env 4) CR4_SMEP_MASK;
  ms_smap : has (crx env' 4) CR4_SMAP_MASK = has (crx env 4) CR4_SMAP_MASK;
  ms_nxe : has (efer env') MSR_EFER_NXE = has (efer env) MSR_EFER_NXE
}.

#[export] Instance mmu_same_refl : Reflexive mmu_same.
Proof. by split. Qed.

Lemma resolve_env env env' p a :
  mmu_same env env' -> paging env = true -> resolve (mkMachine env' p) a = resolve (mkMachine env p) a.
Proof.
  intros [H20 _ _ H3 Hpae Hpse _ _ Hnx] Hpg. specialize (H3 Hpg). unfold crx in *.
  assert (forall x, a20 (mkMachine env' p) x = a20 (mkMachine env p) x) as Ha by (intros; unfold a20; cbn [m_cpu]; by rewrite H20).
  assert (forall n x, ld_phys (mkMachine env' p) n x = ld_phys (mkMachine env p) n x) as Hl by (intros; by apply ld_phys_ext).
  assert (forall e, rsvd (mkMachine env' p) e = rsvd (mkMachine env p) e) as Hr by (intros; unfold rsvd; cbn [m_cpu]; by rewrite Hnx).
  unfold resolve, pae, crn. cbn [m_cpu]. rewrite Hpae. destruct (has (nth 4 (cr env) 0) CR4_PAE_MASK).
  - unfold resolve_pae, ldq_phys, crn. cbn [m_cpu]. rewrite ?H3. repeat (rewrite Ha || rewrite Hl || rewrite Hr). done.
  - unfold resolve_32, ldl_phys, crn. cbn [m_cpu]. rewrite ?H3, ?Hpse. repeat (rewrite Ha || rewrite Hl). done.
Qed.

Lemma denied_env env env' w idx user rw nx : mmu_same env env' -> denied env' w idx user rw nx = denied env w idx user rw nx.
Proof. intros [_ _ Hwp _ _ _ Hep Hap _]. unfold denied, crx in *. by rewrite Hwp, Hep, Hap. Qed.

Lemma agree_env env env' p idx a w paddr :
  mmu_same env env' -> a20_mask env = -1 -> in_range 32 a -> agree env p idx a w paddr -> agree env' p idx a w paddr.
Proof.
  intros Hm H20 Ha Hag. pose proof Hm as [E20 Epg _ _ Epae _ _ _ _]. change (paging env' = paging env) in Epg.
  destruct (paging env) eqn:Hpg.
  - destruct (agree_elim env p idx a w paddr Hpg H20 Ha Hag) as (pa & Hres & Hpa & Hd & Hs).
    pose proof (handle_spec a w idx (mkMachine env' p) Ha ltac:(by cbn; rewrite E20) Epg) as H. cbn [m_cpu] in H.
    rewrite (resolve_env env), Hres, (denied_env env), Hd in H by done. destruct H as (m' & H & _ & _ & Hid).
    assert (entry_size (mkMachine env' p) = entry_size (mkMachine env p)) as En.
    { unfold entry_size, pae, crn. cbn [m_cpu]. unfold crx in Epae. by rewrite Epae. }
    assert (forall n x, ld_phys (mkMachine env' p) n x = ld_phys (mkMachine env p) n x) as Hl by (intros; by apply ld_phys_ext).
    unfold agree. rewrite H, Hid.
    + eexists. by split.
    + rewrite En. destruct Hs as [S1 S2 S3]. by split; intros; rewrite Hl; auto.
  - destruct Hag as (e' & He & Hp). rewrite handle_unpaged in He by done. injection He as <-.
    unfold agree. rewrite handle_unpaged by (done || by rewrite E20). eexists. split; [done|exact Hp].
Qed.

Section Ctrl.
Context {BD : Board}.
#[local] Existing Instance tlb_mmu.

(** The MMU sees no change. *)
Lemma coherent_env env env' g : mmu_same env env' -> a20_mask env = -1 -> coherent env g -> coherent env' g.
Proof.
  intros Hm H20 Hc idx a w te Ha Hi Hpl Hh. assert (plain_access env w) as Hpl'.
  { unfold plain_access in *. pose proof (ms_smep _ _ Hm) as E1. pose proof (ms_smap _ _ Hm) as E2. unfold crx in *. by rewrite <-E1, <-E2. }
  destruct (Hc idx a w te Ha Hi Hpl' Hh) as (paddr & Hag & Hadd). exists paddr. split; [by eapply agree_env|done].
Qed.

Lemma synced_env env env' g : mmu_same env env' -> a20_mask env = -1 -> synced env g -> synced env' g.
Proof. intros Hm H20 [live [Hw Hc]]. exists live. split; [done|by eapply coherent_env]. Qed.

Lemma synced_flush env g : synced env (tlb_flush g).
Proof. exists []. apply flush_all_sync. Qed.

(** ** Masks *)

Lemma land_sub x y mask sub : Z.land mask sub = sub -> Z.land x mask = Z.land y mask -> Z.land x sub = Z.land y sub.
Proof. intros <- H. by rewrite !Z.land_assoc, H. Qed.

Lemma has_sub x y mask sub : Z.land mask sub = sub -> Z.land x mask = Z.land y mask -> has x sub = has y sub.
Proof. intros H1 H2. unfold has. by rewrite (land_sub x y mask sub). Qed.

Lemma has_xor_sub x y mask sub : Z.land mask sub = sub -> has (Z.lxor x y) mask = false -> has x sub = has y sub.
Proof.
  intros H1 H2. apply (has_sub x y mask); [done|]. apply negb_false_iff, Z.eqb_eq in H2.
  apply Z.bits_inj'. intros i Hi. apply (f_equal (fun z => Z.testbit z i)) in H2.
  rewrite !Z.land_spec, Z.lxor_spec, Z.bits_0 in *. by destruct (Z.testbit x i), (Z.testbit y i), (Z.testbit mask i).
Qed.

Lemma has_u32_sub x mask : Z.land (Z.ones 32) mask = mask -> has (u32 x) mask = has x mask.
Proof. intros H. unfold has, u32, wrap. rewrite <-Z.land_ones, <-Z.land_assoc, H by done. done. Qed.

Lemma has_lor_off x y mask : Z.land y mask = 0 -> has (Z.lor x y) mask = has x mask.
Proof. intros H. unfold has. by rewrite Z.land_lor_distr_l, H, Z.lor_0_r. Qed.

(** ** Writes *)

Lemma crx_set n m v env : (n < length (cr env))%nat -> crx (set_cr n v env) m = if Nat.eqb m n then u32 v else crx env m.
Proof.
  intros Hn. unfold crx, set_cr. cbn [cr with_cr]. destruct (Nat.eqb_spec m n) as [->|Hne].
  - by rewrite (nth_lookup_Some _ _ _ (u32 v)) by (by apply list_lookup_insert_eq).
  - rewrite !nth_lookup. by rewrite list_lookup_insert_ne.
Qed.

(** A CPU with its five control registers; SMAP is set only where the CPU has it. *)
Record ctrl_ok (env : CPUX86State) : Prop := {
  ck_cr : length (cr env) = 5%nat;
  ck_smap : has (crx env 4) CR4_SMAP_MASK = true -> has (feature env FEAT_7_0_EBX) CPUID_7_0_EBX_SMAP = true
}.

Lemma put_cr0_fields v env :
  cr (put_cr0 v env) = <[0%nat := u32 (Z.lor v CR0_ET_MASK)]> (cr env) /\ a20_mask (put_cr0 v env) = a20_mask env /\
  efer (put_cr0 v env) = efer env /\ features (put_cr0 v env) = features env /\ watchpoints (put_cr0 v env) = watchpoints env.
Proof. done. Qed.

Lemma crx_insert n m v env env' :
  cr env' = <[n := v]> (cr env) -> (n < length (cr env))%nat -> crx env' m = if Nat.eqb m n then v else crx env m.
Proof.
  intros H Hn. unfold crx. rewrite H. destruct (Nat.eqb_spec m n) as [->|Hne].
  - by rewrite (nth_lookup_Some _ _ _ v) by (by apply list_lookup_insert_eq).
  - rewrite !nth_lookup. by rewrite list_lookup_insert_ne.
Qed.

Lemma put_cr0_mmu v env :
  ctrl_ok env -> Z.land v CR0_FLUSH = Z.land (crx env 0) CR0_FLUSH -> mmu_same env (put_cr0 v env).
Proof.
  intros [Hl _] Hv. assert (forall m, crx (put_cr0 v env) m = if Nat.eqb m 0 then u32 (Z.lor v CR0_ET_MASK) else crx env m) as Hc.
  { intros m. apply crx_insert; [done|]. rewrite Hl. lia. }
  assert (forall sub, Z.land (Z.ones 32) sub = sub -> Z.land CR0_ET_MASK sub = 0 -> Z.land CR0_FLUSH sub = sub ->
    has (crx (put_cr0 v env) 0) sub = has (crx env 0) sub) as Hs.
  { intros sub H1 H2 H3. rewrite Hc. cbn [Nat.eqb]. rewrite has_u32_sub, has_lor_off by done. by apply (has_sub _ _ CR0_FLUSH). }
  split; try done; try (by apply Hs); intros; by rewrite Hc.
Qed.

(** The value that is kept, and the hidden flags. *)
Definition kept_cr4 (v : Z) (env : CPUX86State) : Z :=
  let v := if negb (has (feature env FEAT_1_EDX) CPUID_SSE) then Z.land v (not32 CR4_OSFXSR_MASK) else v in
  if negb (has (feature env FEAT_7_0_EBX) CPUID_7_0_EBX_SMAP) then Z.land v (not32 CR4_SMAP_MASK) else v.

Lemma put_cr4_fields v env :
  cr (put_cr4 v env) = <[4%nat := u32 (kept_cr4 v env)]> (cr env) /\ a20_mask (put_cr4 v env) = a20_mask env /\
  efer (put_cr4 v env) = efer env /\ features (put_cr4 v env) = features env /\ watchpoints (put_cr4 v env) = watchpoints env.
Proof.
  unfold put_cr4, kept_cr4. cbv zeta. set (v1 := if negb (has (feature env FEAT_1_EDX) _) then _ else v).
  destruct (has v1 CR4_OSFXSR_MASK); cbn [feature features with_hflags];
    (destruct (has (feature env FEAT_7_0_EBX) CPUID_7_0_EBX_SMAP) eqn:E; unfold feature in *; cbn [features with_hflags]; rewrite E; cbn [negb];
     [destruct (has v1 CR4_SMAP_MASK)|destruct (has (Z.land v1 _) CR4_SMAP_MASK)]; done).
Qed.

Lemma kept_cr4_has v env sub :
  Z.land (not32 CR4_OSFXSR_MASK) sub = sub -> Z.land (not32 CR4_SMAP_MASK) sub = sub -> has (kept_cr4 v env) sub = has v sub.
Proof. intros H1 H2. unfold kept_cr4. by destruct (negb _), (negb _); rewrite ?has_land. Qed.

Lemma kept_cr4_smap v env :
  has (kept_cr4 v env) CR4_SMAP_MASK = has v CR4_SMAP_MASK && has (feature env FEAT_7_0_EBX) CPUID_7_0_EBX_SMAP.
Proof.
  unfold kept_cr4. set (v1 := if negb (has (feature env FEAT_1_EDX) _) then _ else v).
  assert (has v1 CR4_SMAP_MASK = has v CR4_SMAP_MASK) as E by (unfold v1; destruct (negb _); [by rewrite has_land|done]).
  destruct (has (feature env FEAT_7_0_EBX) _); cbn [negb]; [by rewrite andb_true_r|]. rewrite andb_false_r.
  unfold has. rewrite <-Z.land_assoc. change (Z.land (not32 CR4_SMAP_MASK) CR4_SMAP_MASK) with 0. by rewrite Z.land_0_r.
Qed.

Lemma put_cr4_crx v env m : length (cr env) = 5%nat -> crx (put_cr4 v env) m = if Nat.eqb m 4 then u32 (kept_cr4 v env) else crx env m.
Proof. intros Hl. apply crx_insert; [apply put_cr4_fields|lia]. Qed.

Lemma put_cr4_mmu v env : ctrl_ok env -> has (Z.lxor v (crx env 4)) CR4_FLUSH = false -> mmu_same env (put_cr4 v env).
Proof.
  intros [Hl Hsm] Hv. destruct (put_cr4_fields v env) as (_ & H20 & Hef & _).
  assert (forall sub, Z.land (Z.ones 32) sub = sub -> Z.land (not32 CR4_OSFXSR_MASK) sub = sub -> Z.land (not32 CR4_SMAP_MASK) sub = sub ->
    Z.land CR4_FLUSH sub = sub -> has (crx (put_cr4 v env) 4) sub = has (crx env 4) sub) as Hs.
  { intros sub H1 H2 H3 H4. rewrite put_cr4_crx by done. cbn [Nat.eqb]. rewrite has_u32_sub, kept_cr4_has by done. by apply (has_xor_sub _ _ CR4_FLUSH). }
  split; try done; try (by apply Hs); try (intros; by rewrite put_cr4_crx); [|by rewrite Hef].
  rewrite put_cr4_crx by done. cbn [Nat.eqb]. rewrite has_u32_sub, kept_cr4_smap, (has_xor_sub v (crx env 4) CR4_FLUSH) by done.
  destruct (has (crx env 4) CR4_SMAP_MASK); [|done]. by rewrite Hsm.
Qed.
End Ctrl.

Lemma put_cr0_ok v env : ctrl_ok env -> ctrl_ok (put_cr0 v env).
Proof.
  intros [Hl Hs]. split; [change (length (<[0%nat := u32 (Z.lor v CR0_ET_MASK)]> (cr env)) = 5%nat); by rewrite length_insert|].
  rewrite (crx_insert 0 4 (u32 (Z.lor v CR0_ET_MASK)) env) by (done || lia). exact Hs.
Qed.

Lemma put_cr4_ok v env : ctrl_ok env -> ctrl_ok (put_cr4 v env).
Proof.
  intros [Hl Hs]. destruct (put_cr4_fields v env) as (Hc & _ & _ & Hf & _). split; [by rewrite Hc, length_insert|].
  rewrite put_cr4_crx by done. cbn [Nat.eqb]. rewrite has_u32_sub, kept_cr4_smap by done. unfold feature. rewrite Hf.
  by intros [_ H]%andb_true_iff.
Qed.

Lemma set_cr_ok n v env : (n < 4)%nat -> ctrl_ok env -> ctrl_ok (set_cr n v env).
Proof.
  intros Hn [Hl Hs]. split; [unfold set_cr; cbn [cr with_cr]; by rewrite length_insert|].
  rewrite crx_set by lia. destruct (Nat.eqb_spec 4 n); [lia|exact Hs].
Qed.

Lemma clts_crx env m :
  length (cr env) = 5%nat -> crx (helper_clts env) m = if Nat.eqb m 0 then Z.land (crx env 0) (u32 (Z.lnot CR0_TS_MASK)) else crx env m.
Proof. intros Hl. apply crx_insert; [done|lia]. Qed.

Lemma clts_ok env : ctrl_ok env -> ctrl_ok (helper_clts env).
Proof.
  intros [Hl Hs]. split; [change (length (<[0%nat := Z.land (crx env 0) (u32 (Z.lnot CR0_TS_MASK))]> (cr env)) = 5%nat); by rewrite length_insert|].
  by rewrite clts_crx.
Qed.

(** ** Hidden flags *)

(** The hidden flags that copy bits of CR0 and CR4; in real mode the data segments
    are added in. *)
Record hidden_ok (env : CPUX86State) : Prop := {
  hd_pe : Z.testbit (hflags env) 7 = Z.testbit (crx env 0) 0;
  hd_mp : Z.testbit (hflags env) 9 = Z.testbit (crx env 0) 1;
  hd_em : Z.testbit (hflags env) 10 = Z.testbit (crx env 0) 2;
  hd_ts : Z.testbit (hflags env) 11 = Z.testbit (crx env 0) 3;
  hd_osfxsr : Z.testbit (hflags env) 22 = Z.testbit (crx env 4) 9;
  hd_smap : Z.testbit (hflags env) 23 = Z.testbit (crx env 4) 21;
  hd_addseg : Z.testbit (crx env 0) 0 = false -> Z.testbit (hflags env) 6 = true
}.

Lemma u32_bits x i : 0 <= i -> Z.testbit (u32 x) i = (i <? 32) && Z.testbit x i.
Proof. intros Hi. by apply wrap_bits. Qed.

Lemma has_testbit x i : 0 <= i -> has x (2 ^ i) = Z.testbit x i.
Proof.
  intros Hi. unfold has. destruct (Z.eqb_spec (Z.land x (2 ^ i)) 0) as [E|E]; cbn [negb]; symmetry.
  - apply (f_equal (fun z => Z.testbit z i)) in E. by rewrite Z.land_spec, Z.pow2_bits_true, andb_true_r, Z.bits_0 in E.
  - destruct (Z.testbit x i) eqn:Hb; [done|]. destruct E. apply Z.bits_inj'. intros j Hj. rewrite Z.land_spec, Z.bits_0, Z.pow2_bits_eqb by done.
    destruct (Z.eqb_spec i j) as [->|]; [by rewrite Hb|apply andb_false_r].
Qed.

(** Bits of the values that the writes put together: those of variables remain,
    and all their values are tried. *)
Ltac spread :=
  repeat match goal with
  | |- context [Z.testbit (Z.lor ?a ?b) ?i] => rewrite (Z.lor_spec a b i)
  | |- context [Z.testbit (Z.land ?a ?b) ?i] => rewrite (Z.land_spec a b i)
  | |- context [Z.testbit (Z.lxor ?a ?b) ?i] => rewrite (Z.lxor_spec a b i)
  | |- context [Z.testbit (u32 ?a) ?i] => rewrite (u32_bits a i) by done
  | |- context [Z.testbit (Z.shiftl ?a ?k) ?i] =>
      rewrite (Z.shiftl_spec a k i) by done; let j := eval lazy in (i - k) in change (i - k) with j
  end.
Ltac bits :=
  spread;
  repeat match goal with
  | |- context [Z.testbit (hflags ?x) ?i] => generalize (Z.testbit (hflags x) i); intros ?
  | |- context [Z.testbit (crx ?x ?n) ?i] => generalize (Z.testbit (crx x n) i); intros ?
  | |- context [Z.testbit ?x ?i] => is_var x; tryif (unify (i <? 0) true) then rewrite (Z.testbit_neg_r x i) by done
      else (generalize (Z.testbit x i); intros ?)
  end;
  repeat match goal with b : bool |- _ => destruct b end; try reflexivity; try discriminate.

Lemma hidden_cr0 v env : ctrl_ok env -> hidden_ok env -> hidden_ok (put_cr0 v env).
Proof.
  intros [Hl _] [H1 H2 H3 H4 H5 H6 H7].
  assert (forall m, crx (put_cr0 v env) m = if Nat.eqb m 0 then u32 (Z.lor v CR0_ET_MASK) else crx env m) as Hc
    by (intros m; apply crx_insert; [done|lia]).
  assert (hflags (put_cr0 v env) = let pe_state := Z.land (u32 (Z.lor v CR0_ET_MASK)) CR0_PE_MASK in
    Z.lor (Z.land (Z.lor (Z.lor (Z.land (hflags env) (not32 HF_PE_MASK)) (Z.shiftl pe_state HF_PE_SHIFT)) (Z.shiftl (Z.lxor pe_state 1) HF_ADDSEG_SHIFT))
      (not32 HF_FPU)) (Z.land (u32 (Z.shiftl v (HF_MP_SHIFT - 1))) HF_FPU)) as Hh.
  { unfold put_cr0. cbv zeta. cbn [hflags with_hflags]. change (crx (with_hflags ?h ?e) 0) with (crx e 0).
    rewrite crx_set by lia. done. }
  split; rewrite Hc, Hh; cbn [Nat.eqb]; cbv zeta; clear Hc Hh Hl; [| | | |rewrite <-H5|rewrite <-H6|]; bits.
Qed.

Lemma put_cr4_hflags v env :
  hflags (put_cr4 v env) =
    Z.lor (Z.land (Z.lor (Z.land (hflags env) (not32 HF_OSFXSR_MASK)) (if has (kept_cr4 v env) CR4_OSFXSR_MASK then HF_OSFXSR_MASK else 0))
      (not32 HF_SMAP_MASK)) (if has (kept_cr4 v env) CR4_SMAP_MASK then HF_SMAP_MASK else 0).
Proof.
  unfold put_cr4, kept_cr4. cbv zeta. set (v1 := if negb (has (feature env FEAT_1_EDX) _) then _ else v).
  set (v2 := if negb (has (feature env FEAT_7_0_EBX) _) then _ else v1).
  assert (has v2 CR4_OSFXSR_MASK = has v1 CR4_OSFXSR_MASK) as -> by (unfold v2; destruct (negb (has (feature env FEAT_7_0_EBX) _)); [by rewrite has_land|done]).
  destruct (has v1 CR4_OSFXSR_MASK); repeat (progress change (feature (with_hflags ?h ?e) ?w) with (feature e w)); fold v2;
    destruct (has v2 CR4_SMAP_MASK); cbn [hflags with_hflags set_cr with_cr]; by rewrite ?Z.lor_0_r.
Qed.

Lemma hidden_cr4 v env : ctrl_ok env -> hidden_ok env -> hidden_ok (put_cr4 v env).
Proof.
  intros [Hl _] [H1 H2 H3 H4 H5 H6 H7].
  split; rewrite !put_cr4_crx, put_cr4_hflags by done; cbn [Nat.eqb]; [rewrite <-H1|rewrite <-H2|rewrite <-H3|rewrite <-H4| | |intros H; specialize (H7 H); revert H7];
    change CR4_OSFXSR_MASK with (2 ^ 9); change CR4_SMAP_MASK with (2 ^ 21); rewrite !has_testbit by done;
    generalize (kept_cr4 v env); intros k; clear; destruct (Z.testbit k 9) eqn:E9, (Z.testbit k 21) eqn:E21; rewrite ?u32_bits, ?E9, ?E21 by done; bits.
Qed.

Lemma hidden_clts env : ctrl_ok env -> hidden_ok env -> hidden_ok (helper_clts env).
Proof.
  intros [Hl _] [H1 H2 H3 H4 H5 H6 H7].
  assert (hflags (helper_clts env) = Z.land (hflags env) (u32 (Z.lnot HF_TS_MASK))) as Hh by done.
  split; rewrite clts_crx, Hh by done; cbn [Nat.eqb]; rewrite !Z.land_spec, ?H1, ?H2, ?H3, ?H4, ?H5, ?H6; [bits..|revert H7; bits].
  intros H. by specialize (H eq_refl).
Qed.

(** ** Operations of a guest *)

Inductive ctrl_op : Type :=
| WriteCr (reg v : Z)
| Lmsw (v : Z)
| Clts
| Invlpg (a : Z).

Inductive guest_op : Type :=
| GLoad (mmu_idx : Z) (n : nat) (a : Z)
| GStore (mmu_idx : Z) (n : nat) (a v : Z)
| GCtrl (op : ctrl_op).

Section Run.
Context {G : Type} `{!SoftMmu G, !PhysMem G, !Chipset G}.

Definition run_ctrl (op : ctrl_op) : K G unit :=
  match op with
  | WriteCr reg v => helper_write_crN reg v
  | Lmsw v => helper_lmsw v
  | Clts => kmod helper_clts
  | Invlpg a => helper_invlpg a
  end.

(** The values loaded. *)
Fixpoint run_guest (ops : list guest_op) : K G (list Z) :=
  match ops with
  | [] => kret []
  | GLoad idx n a :: ops' => v <- mmu_load idx n a ;; vs <- run_guest ops' ;; kret (v :: vs)
  | GStore idx n a v :: ops' => mmu_store idx n a v ;; run_guest ops'
  | GCtrl op :: ops' => run_ctrl op ;; run_guest ops'
  end.
End Run.

(** The registers the operations may write. *)
Definition ctrl_op_ok (op : ctrl_op) : Prop :=
  match op with
  | WriteCr reg v => (reg = 0 \/ reg = 2 \/ reg = 3 \/ reg = 4) /\ in_range 32 v
  | Lmsw v => in_range 32 v
  | Clts => True
  | Invlpg a => in_range 32 a
  end.

Section Hidden.
Context {G : Type} `{!SoftMmu G, !PhysMem G, !Chipset G}.

(** An instruction that is not intercepted. *)
Lemma check_ret type param env (g : G) u env' g' :
  cpu_svm_check_intercept_param type param env g = KRet u env' g' -> env' = env /\ g' = g.
Proof.
  unfold cpu_svm_check_intercept_param, helper_svm_check_intercept_param, check_msr, vmexit_if, kvmexit, kret, kbind, kget.
  intros H. repeat (case_match; simplify_eq; try done).
Qed.

Lemma set_cr_hidden n v env : (n = 2 \/ n = 3)%nat -> ctrl_ok env -> hidden_ok env -> hidden_ok (set_cr n v env).
Proof.
  intros Hn [Hl _] [H1 H2 H3 H4 H5 H6 H7].
  assert (forall m, (m = 0 \/ m = 4)%nat -> crx (set_cr n v env) m = crx env m) as Hc
    by (intros m Hm; rewrite crx_set by lia; destruct (Nat.eqb_spec m n); [lia|done]).
  split; rewrite ?Hc by lia; done.
Qed.

Lemma write_crN_hidden n v env (g : G) u env' g' :
  n = 0 \/ n = 2 \/ n = 3 \/ n = 4 -> ctrl_ok env -> hidden_ok env ->
  helper_write_crN n v env g = KRet u env' g' -> ctrl_ok env' /\ hidden_ok env'.
Proof.
  intros Hn Hc Hh. unfold helper_write_crN, kbind. destruct (cpu_svm_check_intercept_param _ _ env g) as [u1 env1 g1| | |] eqn:E; try done.
  apply check_ret in E as [-> ->]. destruct Hn as [->|[->|[->| ->]]]; cbn [Z.eqb Pos.eqb].
  - unfold cpu_x86_update_cr0, kbind, kget, kmem, kmod, kret. intros H. destruct (negb _); injection H as _ <- _; (split; [by apply put_cr0_ok|by apply hidden_cr0]).
  - intros H. injection H as _ <- _. split; [apply set_cr_ok; [cbn; lia|done]|apply set_cr_hidden; [by left|done..]].
  - unfold cpu_x86_update_cr3, kbind, kget, kmem, kmod, kret. fold (set_cr 3 v env). intros H.
    destruct (has _ _); injection H as _ <- _; (split; [apply set_cr_ok; [cbn; lia|done]|apply set_cr_hidden; [by right|done..]]).
  - unfold cpu_x86_update_cr4, kbind, kget, kmem, kmod, kret. intros H. destruct (has _ _); injection H as _ <- _; (split; [by apply put_cr4_ok|by apply hidden_cr4]).
Qed.

(** The hidden flags by which translated code is selected keep following the
    control registers: after any MOV to CR0, CR2, CR3 or CR4, LMSW, CLTS or INVLPG
    that completes, PE, MP, EM, TS, OSFXSR and SMAP are the bits of CR0 and CR4, and
    in real mode the segment bases are added. *)
Theorem hflags_follow_cr op env (g : G) u env' g' :
  ctrl_op_ok op -> ctrl_ok env -> hidden_ok env -> run_ctrl op env g = KRet u env' g' -> ctrl_ok env' /\ hidden_ok env'.
Proof.
  intros Hop Hc Hh. destruct op as [n v|v| |a]; cbn [run_ctrl ctrl_op_ok] in *.
  - apply write_crN_hidden; [apply Hop|done..].
  - unfold helper_lmsw, kbind at 1, kget at 1. apply write_crN_hidden; [by left|done..].
  - intros H. injection H as _ <- _. split; [by apply clts_ok|by apply hidden_clts].
  - unfold helper_invlpg, kbind. destruct (cpu_svm_check_intercept_param _ _ env g) as [u1 env1 g1| | |] eqn:E; try done.
    apply check_ret in E as [-> ->]. intros H. by injection H as _ <- _.
Qed.
End Hidden.

Section Keep.
Context {BD : Board}.
#[local] Existing Instance tlb_mmu.

(** Loads and stores at physical addresses mark the page dirty; translated blocks aside. *)
#[local] Instance tm_mem : PhysMem tmem := {|
  ld_mem n a g := ld_mem n a (tm_phys g);
  st_mem n a v g := mkTM (st_mem n a v (tm_phys g)) (tm_tlb g) (set_dirty_flags a (Z.land 0xff (Z.lnot CODE_DIRTY_FLAG)) (tm_dirty g))
|}.
Context {CS : Chipset tmem} {CP : Chipset phys}.

(** A machine whose gate A20 is open, without watchpoints. *)
Record guest_ok (env : CPUX86State) : Prop := {
  go_ctrl : ctrl_ok env;
  go_a20 : a20_mask env = -1;
  go_watch : watchpoints env = []
}.

(** The same outcome on the machine that walks and on the one with a TLB. *)
Definition same_run {A} (Q : CPUX86State -> tmem -> Prop) (r : kres phys A) (r' : kres tmem A) : Prop :=
  match r with
  | KRet v env p => exists g, r' = KRet v env g /\ tm_phys g = p /\ Q env g
  | KExit env p => exists g, r' = KExit env g /\ tm_phys g = p
  | KVmexit code info env p => exists g, r' = KVmexit code info env g /\ tm_phys g = p
  | KAbort => r' = KAbort
  end.

Lemma same_run_bind {A B} (Q R : CPUX86State -> tmem -> Prop) (m : K phys A) (m' : K tmem A) (k : A -> K phys B) (k' : A -> K tmem B) env p g :
  same_run R (m env p) (m' env g) ->
  (forall v env1 g1, m' env g = KRet v env1 g1 -> R env1 g1 -> same_run Q (k v env1 (tm_phys g1)) (k' v env1 g1)) ->
  same_run Q (kbind m k env p) (kbind m' k' env g).
Proof.
  intros Hm Hk. unfold kbind. unfold same_run in Hm. destruct (m env p) as [v env1 p1|env1 p1|c i env1 p1|].
  - destruct Hm as (g1 & E & <- & HR). rewrite E. by apply Hk.
  - destruct Hm as (g1 & -> & <-). by exists g1.
  - destruct Hm as (g1 & -> & <-). by exists g1.
  - by rewrite Hm.
Qed.

Lemma mirrors_same_run {A} (Q : tmem -> Prop) env (r : kres phys A) r' :
  mirrors Q env r r' -> same_run (fun env' g => env' = env /\ Q g) r r'.
Proof. intros H. destruct r; cbn in *; naive_solver. Qed.

Lemma same_run_weaken {A} (Q R : CPUX86State -> tmem -> Prop) (r : kres phys A) r' :
  same_run Q r r' -> (forall env g, Q env g -> R env g) -> same_run R r r'.
Proof. intros H HQ. destruct r; cbn in *; naive_solver. Qed.

(** Both machines intercept alike. *)
Lemma check_same type param env (g : tmem) :
  same_run (fun env' g' => env' = env /\ g' = g)
    (cpu_svm_check_intercept_param (G := phys) type param env (tm_phys g)) (cpu_svm_check_intercept_param type param env g).
Proof.
  unfold cpu_svm_check_intercept_param, helper_svm_check_intercept_param, check_msr, vmexit_if, kvmexit, kret, kbind, kget.
  change (ld_mem ?n ?a g) with (ld_mem n a (tm_phys g)). cbn [ld_mem phys_mem tm_mem].
  repeat (case_match; simplify_eq; try done); by eexists.
Qed.

Definition kept (env : CPUX86State) (g : tmem) : Prop := guest_ok env /\ synced env g.

Lemma kept_env env env' g :
  mmu_same env env' -> ctrl_ok env' -> watchpoints env' = watchpoints env -> kept env g -> kept env' g.
Proof.
  intros Hm Hc Hw [[_ H20 Hwp] Hs]. split; [split; [done|by rewrite (ms_a20 _ _ Hm)|by rewrite Hw]|by eapply synced_env].
Qed.

Lemma flushed_env env env' g :
  a20_mask env' = a20_mask env -> ctrl_ok env' -> watchpoints env' = watchpoints env -> guest_ok env -> kept env' (tlb_flush g).
Proof. intros H20 Hc Hw [_ H Hwp]. split; [split; [done|by rewrite H20|by rewrite Hw]|apply synced_flush]. Qed.

Lemma update_cr0_kept v env g :
  kept env g -> same_run kept (cpu_x86_update_cr0 (G := phys) v env (tm_phys g)) (cpu_x86_update_cr0 v env g).
Proof.
  intros Hk. pose proof Hk as [Hg _]. pose proof (go_ctrl _ Hg) as Hc. unfold cpu_x86_update_cr0, kbind, kget, kmem, kmod, kret.
  destruct (Z.eqb_spec (Z.land v CR0_FLUSH) (Z.land (crx env 0) CR0_FLUSH)); cbn [negb]; eexists; split_and!; try done.
  - apply (kept_env env); [by apply put_cr0_mmu|by apply put_cr0_ok|done..].
  - by apply (flushed_env env); [done|apply put_cr0_ok|..].
Qed.

Lemma update_cr4_kept v env g :
  kept env g -> same_run kept (cpu_x86_update_cr4 (G := phys) v env (tm_phys g)) (cpu_x86_update_cr4 v env g).
Proof.
  intros Hk. pose proof Hk as [Hg _]. pose proof (go_ctrl _ Hg) as Hc. pose proof (put_cr4_fields v env) as (_ & H20 & _ & _ & Hw).
  unfold cpu_x86_update_cr4, kbind, kget, kmem, kmod, kret.
  destruct (has (Z.lxor v (crx env 4)) CR4_FLUSH) eqn:E; eexists; split_and!; try done.
  - by apply (flushed_env env); [done|apply put_cr4_ok|..].
  - apply (kept_env env); [by apply put_cr4_mmu|by apply put_cr4_ok|done..].
Qed.

Lemma set_cr_mmu n v env :
  ctrl_ok env -> n = 2%nat \/ (n = 3%nat /\ has (crx env 0) CR0_PG_MASK = false) -> mmu_same env (set_cr n v env).
Proof.
  intros [Hl _] Hn. assert (forall m, m <> n -> crx (set_cr n v env) m = crx env m) as Hc.
  { intros m Hm. rewrite crx_set by lia. by destruct (Nat.eqb_spec m n). }
  split; try done; try (by rewrite Hc by lia). intros Hp. destruct Hn as [->|[_ Hp']]; [by rewrite Hc by lia|congruence].
Qed.

(** A write to CR3 under paging leaves nothing stale, whatever the TLB held. *)
Lemma update_cr3_flushes v env g :
  guest_ok env -> has (crx env 0) CR0_PG_MASK = true ->
  same_run kept (cpu_x86_update_cr3 (G := phys) v env (tm_phys g)) (cpu_x86_update_cr3 v env g).
Proof.
  intros Hg Hpg. unfold cpu_x86_update_cr3, kbind, kget, kmem, kmod, kret. fold (set_cr 3 v env). fold (crx (set_cr 3 v env) 0).
  rewrite (crx_set 3 0) by (rewrite (ck_cr _ (go_ctrl _ Hg)); lia). cbn [Nat.eqb]. rewrite Hpg. eexists. split_and!; try done.
  apply (flushed_env env); try done. apply set_cr_ok; [lia|apply Hg].
Qed.

Lemma update_cr3_kept v env g :
  kept env g -> same_run kept (cpu_x86_update_cr3 (G := phys) v env (tm_phys g)) (cpu_x86_update_cr3 v env g).
Proof.
  intros Hk. pose proof Hk as [Hg _]. destruct (has (crx env 0) CR0_PG_MASK) eqn:E; [by apply update_cr3_flushes|].
  unfold cpu_x86_update_cr3, kbind, kget, kmem, kmod, kret. fold (set_cr 3 v env). fold (crx (set_cr 3 v env) 0).
  rewrite (crx_set 3 0) by (rewrite (ck_cr _ (go_ctrl _ Hg)); lia). cbn [Nat.eqb]. rewrite E. eexists. split_and!; try done.
  apply (kept_env env); try done; [apply set_cr_mmu; [apply Hg|by right]|apply set_cr_ok; [lia|apply Hg]].
Qed.

Lemma write_crN_kept n v env g :
  n = 0 \/ n = 2 \/ n = 3 \/ n = 4 -> kept env g ->
  same_run kept (helper_write_crN (G := phys) n v env (tm_phys g)) (helper_write_crN n v env g).
Proof.
  intros Hn Hk. unfold helper_write_crN. eapply same_run_bind; [apply check_same|]. intros _ env1 g1 _ [-> ->].
  destruct Hn as [->|[->|[->| ->]]]; cbn [Z.eqb Pos.eqb].
  - by apply update_cr0_kept.
  - exists g. split_and!; try done. destruct Hk as [Hg Hs]. apply (kept_env env); try done.
    + apply set_cr_mmu; [apply Hg|by left].
    + apply set_cr_ok; [cbn; lia|apply Hg].
  - by apply update_cr3_kept.
  - by apply update_cr4_kept.
Qed.

Lemma clts_kept env g : kept env g -> kept (helper_clts env) g.
Proof.
  intros Hk. pose proof Hk as [[Hc _ _] _]. pose proof (ck_cr _ Hc) as Hl. apply (kept_env env); try done; [|by apply clts_ok].
  split; try done; try (intros; by rewrite clts_crx); rewrite clts_crx by done; cbn [Nat.eqb]; by rewrite has_land.
Qed.

(** Forgetting a page never hurts. *)
Lemma synced_flush_page env g a : in_range 32 a -> synced env g -> synced env (Seg.tlb_flush_page a g).
Proof.
  intros Ha [live [Hw Hc]]. exists (filter (fun e => ~ covers e a) live). split; [by apply flush_page_wf|].
  intros idx b w te Hb Hi Hpl Hh. apply (Hc idx b w te Hb Hi Hpl). by apply (flushed_hit a).
Qed.

Lemma run_ctrl_kept op env g :
  ctrl_op_ok op -> kept env g -> same_run kept (run_ctrl (G := phys) op env (tm_phys g)) (run_ctrl op env g).
Proof.
  intros Hop Hk. destruct op as [n v|v| |a]; cbn [run_ctrl ctrl_op_ok] in *.
  - apply write_crN_kept; [apply Hop|done].
  - unfold helper_lmsw, kbind at 1 2, kget at 1 2. apply write_crN_kept; [by left|done].
  - exists g. split_and!; try done. by apply clts_kept.
  - unfold helper_invlpg. eapply same_run_bind; [apply check_same|]. intros _ env1 g1 _ [-> ->]. eexists. split_and!; try done.
    destruct Hk as [Hg Hs]. split; [done|by apply synced_flush_page].
Qed.

(** ** A guest that keeps the rules *)

(** The next operation writes CR3 under paging. *)
Definition reloads (ops : list guest_op) (env : CPUX86State) : Prop :=
  match ops with
  | GCtrl (WriteCr 3 _) :: _ => has (crx env 0) CR0_PG_MASK = true
  | _ => False
  end.

Definition guest_op_ok (op : guest_op) : Prop :=
  match op with
  | GLoad idx n a | GStore idx n a _ => 0 <= idx < NB_MMU_MODES /\ width n /\ in_range 32 a
  | GCtrl c => ctrl_op_ok c
  end.

(** After each store, the page tables still map the pages that the TLB holds as
    before, or CR3 is written at once. *)
Fixpoint disciplined (ops : list guest_op) (env : CPUX86State) (g : tmem) : Prop :=
  match ops with
  | [] => True
  | op :: ops' =>
      guest_op_ok op /\
      match op with
      | GLoad idx n a => forall v env' g', mmu_load idx n a env g = KRet v env' g' -> disciplined ops' env' g'
      | GStore idx n a v => forall u env' g', mmu_store idx n a v env g = KRet u env' g' ->
          (coherent env' g' \/ reloads ops' env') /\ disciplined ops' env' g'
      | GCtrl c => forall u env' g', run_ctrl c env g = KRet u env' g' -> disciplined ops' env' g'
      end
  end.

Lemma guest_runs ops env g :
  guest_ok env -> synced env g \/ reloads ops env -> disciplined ops env g ->
  same_run (fun env' g' => guest_ok env') (run_guest (G := phys) ops env (tm_phys g)) (run_guest ops env g).
Proof.
  revert env g. induction ops as [|op ops IH]; intros env g Hg Hs Hd; [by exists g|].
  destruct Hd as [Hop Hd]. destruct op as [idx n a|idx n a v|c]; cbn [run_guest guest_op_ok] in *.
  - destruct Hs as [[live Hs]|[]]. destruct Hop as (Hi & Hn & Ha).
    eapply same_run_bind; [eapply mirrors_same_run, cpu_ld_mirrors; try done; apply Hg|].
    intros v env1 g1 E [-> Hs1]. eapply same_run_bind; [apply IH; [done|by left|by eapply Hd]|].
    intros vs env2 g2 _ Hg2. by exists g2.
  - destruct Hs as [[live Hs]|[]]. destruct Hop as (Hi & Hn & Ha).
    eapply same_run_bind; [eapply mirrors_same_run, cpu_st_mirrors; try done; apply Hg|].
    intros u env1 g1 E [-> [live1 Hw]]. destruct (Hd u env g1 E) as [Hc Hd1]. apply IH; try done.
    destruct Hc as [Hc|Hc]; [left; by exists live1|by right].
  - eapply (same_run_bind _ kept).
    + destruct Hs as [Hs|Hr]; [by apply run_ctrl_kept|]. destruct c as [r v| | |]; try done. destruct (decide (r = 3)) as [->|Hr3]; [|by destruct r as [|[[]|[]|]|]].
      cbn [run_ctrl reloads] in *. unfold helper_write_crN. eapply same_run_bind; [apply check_same|]. intros _ env1 g1 _ [-> ->]. by apply update_cr3_flushes.
    + intros u env1 g1 E [Hg1 Hs1]. apply IH; [done|by left|by eapply Hd].
Qed.

(** ** Properties *)

(** MOV to CR0, CR2, CR3 and CR4, LMSW, CLTS and INVLPG keep the TLB in
    agreement with the page tables: whatever the new value, either the register
    bits that the MMU reads are unchanged or the TLB has been flushed. The CPU and
    memory afterwards, and an interception by the hypervisor, are those of the
    machine without a TLB. *)
Theorem ctrl_keeps_tlb op env g :
  ctrl_op_ok op -> guest_ok env -> synced env g ->
  same_run (fun env' g' => guest_ok env' /\ synced env' g') (run_ctrl (G := phys) op env (tm_phys g)) (run_ctrl op env g).
Proof. intros Hop Hg Hs. by apply run_ctrl_kept. Qed.

(** C4: a guest cannot tell that there is a TLB. A run of loads, stores and
    control-register writes in which each store that changes the mapping of a page
    in the TLB is followed by a write to CR3 returns the values, faults and
    interceptions, the CPU and the memory of the machine that walks the page tables
    for each access. *)
Theorem guest_without_tlb ops env g :
  guest_ok env -> synced env g -> disciplined ops env g ->
  same_run (fun _ _ => True) (run_guest (G := phys) ops env (tm_phys g)) (run_guest ops env g).
Proof.
  intros Hg Hs Hd. eapply same_run_weaken; [apply guest_runs; [done|by left|done]|done].
Qed.

Lemma load_keeps env g idx n a v env' g' :
  guest_ok env -> synced env g -> guest_op_ok (GLoad idx n a) -> mmu_load idx n a env g = KRet v env' g' -> env' = env /\ synced env g'.
Proof.
  intros Hg [live Hs] (Hi & Hn & Ha) E. pose proof (cpu_ld_mirrors env idx Hi (go_a20 _ Hg) (go_watch _ Hg) n a g live Hs Hn Ha) as H.
  change (cpu_ld 0 n a idx env g) with (mmu_load idx n a env g) in H. rewrite E in H. destruct (SoftMmu.helper_ld n a idx env (tm_phys g)); cbn in H; naive_solver.
Qed.

Lemma store_keeps env g idx n a v u env' g' :
  guest_ok env -> synced env g -> guest_op_ok (GStore idx n a v) -> mmu_store idx n a v env g = KRet u env' g' -> env' = env.
Proof.
  intros Hg [live Hs] (Hi & Hn & Ha) E. pose proof (cpu_st_mirrors env idx Hi (go_a20 _ Hg) (go_watch _ Hg) n a v g live Hs Hn Ha) as H.
  change (cpu_st n a v idx env g) with (mmu_store idx n a v env g) in H. rewrite E in H. destruct (SoftMmu.helper_st n a v idx env (tm_phys g)); cbn in H; naive_solver.
Qed.

(** A page is read, mapped elsewhere, and read again. *)
Lemma remap_disciplined idx a pte v cr3 env g :
  guest_ok env -> synced env g -> has (crx env 0) CR0_PG_MASK = true ->
  Forall guest_op_ok [GLoad idx 4 a; GStore idx 4 pte v; GCtrl (WriteCr 3 cr3)] ->
  disciplined [GLoad idx 4 a; GStore idx 4 pte v; GCtrl (WriteCr 3 cr3); GLoad idx 4 a] env g.
Proof.
  intros Hg Hs Hpg Hok. inversion Hok as [|? ? H1 Hok1]; subst. inversion Hok1 as [|? ? H2 Hok2]; subst. inversion Hok2 as [|? ? H3 _]; subst.
  cbn [disciplined]. split; [done|]. intros x env1 g1 E1. destruct (load_keeps env g idx 4 a x env1 g1) as [-> Hs1]; try done.
  split; [done|]. intros u env2 g2 E2. apply store_keeps in E2 as ->; try done. split; [by right|].
  split; [done|]. intros _ env3 g3 _. by split.
Qed.
End Keep.

(** Page 4 maps the page table itself, so that the guest can edit it. *)
Definition remap_phys (x : Z) : Z :=
  if x =? 0x2010 then 0x07 else if x =? 0x2011 then 0x20
  else if x =? 0x5abc then 0x11 else if x =? 0x6abc then 0x22 else demo_phys x.
Definition remap_mem : tmem := mkTM remap_phys (tlb_flush_all tlb_reset) (fun _ => 0).

Lemma demo_guest : guest_ok demo_env /\ @synced demo_board demo_env remap_mem.
Proof. split; [by split; [split|..]|]. exists []. apply flush_all_sync. Qed.

(** The result of a run. *)
Definition returned {G A} (r : kres G A) : option (A * CPUX86State) :=
  match r with KRet v env _ => Some (v, env) | _ => None end.

Lemma same_run_returned {A} Q (r : kres phys A) r' v env :
  same_run Q r r' -> returned r = Some (v, env) -> exists g, r' = KRet v env g /\ Q env g.
Proof. destruct r; cbn; naive_solver. Qed.

Definition set_wp : ctrl_op := WriteCr 0 (CR0_PG_MASK + CR0_WP_MASK + 1).

(** Protection is switched on in real mode. *)
Lemma hflags_follow_cr_witness :
  exists env' g', run_ctrl (G := phys) (Chipset0 := no_apic phys) (WriteCr 0 1) (with_hflags HF_ADDSEG_MASK (with_cr [0; 0; 0; 0; 0] blank_cpu)) remap_phys = KRet tt env' g' /\
    hflags env' = HF_PE_MASK + HF_ADDSEG_MASK /\ hidden_ok env'.
Proof.
  do 2 eexists. split; [reflexivity|]. split; [reflexivity|].
  apply (hflags_follow_cr (G := phys) (Chipset0 := no_apic phys) (WriteCr 0 1) (with_hflags HF_ADDSEG_MASK (with_cr [0; 0; 0; 0; 0] blank_cpu)) remap_phys tt _ remap_phys);
    [split; [by left|lia]|by split|by split|reflexivity].
Defined.

(** CR0.WP is set: the TLB has been flushed. *)
Lemma ctrl_keeps_tlb_witness :
  exists env' g', run_ctrl (SoftMmu0 := @tlb_mmu demo_board) (PhysMem0 := tm_mem) (Chipset0 := no_apic tmem) set_wp demo_env remap_mem = KRet tt env' g' /\
    cr env' = [0x80010011; 0; 0; 0x1000; 0] /\ @synced demo_board env' g'.
Proof.
  pose proof (@ctrl_keeps_tlb demo_board (no_apic tmem) (no_apic phys) set_wp demo_env remap_mem
    ltac:(split; [by left|unfold CR0_PG_MASK, CR0_WP_MASK; lia]) (proj1 demo_guest) (proj2 demo_guest)) as H.
  eapply same_run_returned in H as (g' & H & _ & Hs); [|cbv [set_wp]; reflexivity].
  do 2 eexists. split; [exact H|]. split; [reflexivity|exact Hs].
Defined.

(** Page 3 is moved from frame 0x5000 to frame 0x6000. *)
Definition remap : list guest_op :=
  [GLoad 1 4 0x3abc; GStore 1 4 0x400c 0x6007; GCtrl (WriteCr 3 0x1000); GLoad 1 4 0x3abc].

Lemma remap_ok : @disciplined demo_board (no_apic tmem) remap demo_env remap_mem.
Proof.
  assert (forall n, n = 4%nat -> width n) as Hn by (intros n ->; right; right; left; reflexivity).
  apply remap_disciplined; [apply demo_guest|apply demo_guest|reflexivity|].
  rewrite !Forall_cons, Forall_nil. unfold guest_op_ok, ctrl_op_ok, NB_MMU_MODES. split_and!; auto; lia.
Qed.

Lemma remap_result : returned (run_guest (G := phys) (Chipset0 := no_apic phys) remap demo_env remap_phys) = Some ([0x11; 0x22], demo_env).
Proof. lazy. reflexivity. Qed.

Lemma guest_without_tlb_witness :
  exists g', run_guest (SoftMmu0 := @tlb_mmu demo_board) (PhysMem0 := tm_mem) (Chipset0 := no_apic tmem) remap demo_env remap_mem
    = KRet [0x11; 0x22] demo_env g'.
Proof.
  pose proof (@guest_without_tlb demo_board (no_apic tmem) (no_apic phys) remap demo_env remap_mem (proj1 demo_guest) (proj2 demo_guest) remap_ok) as H.
  destruct (same_run_returned _ _ _ _ _ H remap_result) as (g' & H' & _). exists g'. exact H'.
Defined.
