(* ===== verification/DebugRegs.v ===== *)
(** * Debug registers

    Breakpoints and watchpoints (exec.c), the debug registers that insert them
    (target-i386/helper.c and misc_helper.c), the test of an access against the
    watchpoints, and the delivery of debug exceptions. *)

From stdpp Require Import base list.
From Stdlib Require Import ZArith Lia.
From S2P Require Import Prelude Cpu CcHelper Excp Guest Mmu Seg SegSpec SegTask Tlb CtrlRegs.

Local Open Scope Z_scope.
Local Open Scope k_scope.

Definition BP_MEM_WRITE : Z := 0x02.
Definition BP_MEM_ACCESS : Z := Z.lor BP_MEM_READ BP_MEM_WRITE.
Definition BP_STOP_BEFORE_ACCESS : Z := 0x04.
Definition BP_WATCHPOINT_HIT : Z := 0x08.
Definition BP_GDB : Z := 0x10.
Definition BP_CPU : Z := 0x20.
Definition DR6_BS : Z := Z.shiftl 1 14.
Definition DR7_TYPE_BP_INST : Z := 0.
Definition DR7_TYPE_DATA_WR : Z := 1.
Definition DR7_TYPE_IO_RW : Z := 2.
Definition DR7_TYPE_DATA_RW : Z := 3.
Definition DR7_MAX_BP : nat := 4.
Definition EXCP01_DB : Z := 1.
Definition EXCP_DEBUG : Z := 0x10002.
Definition CPU_INTERRUPT_DEBUG : Z := 0x80.

Definition hw_breakpoint_len (dr7 index : Z) : Z :=
  let len := Z.land (Z.shiftr dr7 (18 + index * 4)) 3 in if len =? 2 then 8 else len + 1.

Definition drx (env : CPUX86State) (n : nat) : Z := nth n (dr env) 0.
Definition set_dr (n : nat) (v : Z) (env : CPUX86State) : CPUX86State := with_dr (<[n := u32 v]> (dr env)) env.
(** [env->cpu_breakpoint[index]], in a union with [env->cpu_watchpoint[index]] *)
Definition slot (env : CPUX86State) (index : Z) : option Z := nth (Z.to_nat index) (cpu_breakpoint env) None.
Definition set_slot (index : Z) (p : option Z) (env : CPUX86State) : CPUX86State :=
  with_cpu_breakpoint (<[Z.to_nat index := p]> (cpu_breakpoint env)) env.

(** [g_malloc] and insertion into a list, with those of the debugger in front. *)
Definition enqueue {A} (flags p : Z) (x : A) (l : list (Z * A)) : list (Z * A) :=
  if has flags BP_GDB then (p, x) :: l else l ++ [(p, x)].

Section Debug.
Context {G : Type} `{!SoftMmu G}.

(** ** Lists of the CPU *)

(** [None] is [-EINVAL]. *)
Definition cpu_watchpoint_insert (addr len flags : Z) : K G (option Z) :=
  let len_mask := not32 (len - 1) in
  if has len (len - 1) || has addr (not32 len_mask) || (len =? 0) || (TARGET_PAGE_SIZE <? len) then kret None
  else
    env <- kget ;;
    let p := next_ptr env in
    kmod (fun env => with_next_ptr (p + 1) (with_watchpoints (enqueue flags p (mkWp addr len_mask flags) (watchpoints env)) env)) ;;
    kmem (Seg.tlb_flush_page addr) ;;
    kret (Some p).

Definition cpu_watchpoint_remove (addr len flags : Z) : K G bool :=
  let len_mask := not32 (len - 1) in
  env <- kget ;;
  match find (fun e => (addr =? wp_vaddr e.2) && (len_mask =? wp_len_mask e.2) &&
                       (flags =? Z.land (wp_flags e.2) (Z.lnot BP_WATCHPOINT_HIT))) (watchpoints env) with
  | Some (p, _) => cpu_watchpoint_remove_by_ref p ;; kret true
  | None => kret false
  end.

(** [QTAILQ_FOREACH_SAFE] *)
Fixpoint remove_each (rm : Z -> K G unit) (ps : list Z) : K G unit :=
  match ps with [] => kret tt | p :: ps' => rm p ;; remove_each rm ps' end.

Definition cpu_watchpoint_remove_all (mask : Z) : K G unit :=
  env <- kget ;;
  remove_each cpu_watchpoint_remove_by_ref (filter (fun e => has (wp_flags e.2) mask = true) (watchpoints env)).*1.

(** Translated code at the address is dropped, which is no part of the state here. *)
Definition cpu_breakpoint_insert (pc flags : Z) : K G Z :=
  env <- kget ;;
  let p := next_ptr env in
  kmod (fun env => with_next_ptr (p + 1) (with_breakpoints (enqueue flags p (mkBp pc flags) (breakpoints env)) env)) ;;
  kret p.

Definition cpu_breakpoint_remove (pc flags : Z) : K G bool :=
  env <- kget ;;
  match find (fun e => (bp_pc e.2 =? pc) && (bp_flags e.2 =? flags)) (breakpoints env) with
  | Some (p, _) => cpu_breakpoint_remove_by_ref p ;; kret true
  | None => kret false
  end.

Definition cpu_breakpoint_remove_all (mask : Z) : K G unit :=
  env <- kget ;;
  remove_each cpu_breakpoint_remove_by_ref (filter (fun e => has (bp_flags e.2) mask = true) (breakpoints env)).*1.

(** ** Debug registers *)

Definition hw_breakpoint_insert (index : Z) : K G unit :=
  env <- kget ;;
  let dr7 := drx env 7 in
  let addr := drx env (Z.to_nat index) in
  let type := hw_breakpoint_type dr7 index in
  if type =? DR7_TYPE_BP_INST then
    if hw_breakpoint_enabled dr7 index then
      p <- cpu_breakpoint_insert addr BP_CPU ;; kmod (set_slot index (Some p))
    else kret tt
  else
    let kind :=
      if type =? DR7_TYPE_DATA_WR then Z.lor BP_CPU BP_MEM_WRITE
      else if type =? DR7_TYPE_DATA_RW then Z.lor BP_CPU BP_MEM_ACCESS else 0 in
    if kind =? 0 then kret tt
    else
      r <- cpu_watchpoint_insert addr (hw_breakpoint_len dr7 index) kind ;;
      match r with
      | Some p => kmod (set_slot index (Some p))
      | None => kmod (set_slot index None)
      end.

Definition helper_movl_drN_T0 (reg t0 : Z) : K G unit :=
  if reg <? 4 then
    hw_breakpoint_remove reg ;;
    kmod (set_dr (Z.to_nat reg) t0) ;;
    hw_breakpoint_insert reg
  else if reg =? 7 then
    kiter hw_breakpoint_remove DR7_MAX_BP 0 ;;
    kmod (set_dr 7 t0) ;;
    kiter hw_breakpoint_insert DR7_MAX_BP 0
  else kmod (set_dr (Z.to_nat reg) t0).

(** ** Hits *)

(** One round of the loop: whether the register matches. Reading a watchpoint that
    was freed is an abort. *)
Definition reg_matches (env : CPUX86State) (reg : Z) : option bool :=
  let type := hw_breakpoint_type (drx env 7) reg in
  if type =? DR7_TYPE_BP_INST then Some (drx env (Z.to_nat reg) =? eip env)
  else if (type =? DR7_TYPE_DATA_WR) || (type =? DR7_TYPE_DATA_RW) then
    match slot env reg with
    | None => Some false
    | Some p => match linked p (watchpoints env) with Some wp => Some (has (wp_flags wp) BP_WATCHPOINT_HIT) | None => None end
    end
  else Some false.

Fixpoint matches_loop (env : CPUX86State) (n : nat) (reg dr6 : Z) (hit_enabled : bool) : option (Z * bool) :=
  match n with
  | O => Some (dr6, hit_enabled)
  | S n' =>
      match reg_matches env reg with
      | None => None
      | Some true =>
          matches_loop env n' (reg + 1) (Z.lor dr6 (Z.shiftl 1 reg)) (hit_enabled || hw_breakpoint_enabled (drx env 7) reg)
      | Some false => matches_loop env n' (reg + 1) dr6 hit_enabled
      end
  end.

Definition check_hw_breakpoints (force_dr6_update : bool) : K G bool :=
  env <- kget ;;
  match matches_loop env DR7_MAX_BP 0 (Z.land (drx env 6) (not32 0xf)) false with
  | None => kabort
  | Some (dr6, hit_enabled) =>
      (if hit_enabled || force_dr6_update then kmod (set_dr 6 dr6) else kret tt) ;;
      kret hit_enabled
  end.

Definition helper_single_step : K G unit :=
  check_hw_breakpoints true ;;
  kmod (fun env => set_dr 6 (Z.lor (drx env 6) DR6_BS) env) ;;
  raise EXCP01_DB 0.

(** [cpu_resume_from_signal] *)
Definition resume {A} : K G A := fun env g => KExit (with_exception_index (-1) env) g.

Definition breakpoint_handler : K G unit :=
  env <- kget ;;
  match watchpoint_hit env with
  | Some p =>
      match linked p (watchpoints env) with
      | None => kabort
      | Some wp =>
          if has (wp_flags wp) BP_CPU then
            kmod (with_watchpoint_hit None) ;;
            hit <- check_hw_breakpoints false ;;
            if hit then raise EXCP01_DB 0 else resume
          else kret tt
      end
  | None =>
      match find (fun e => bp_pc e.2 =? eip env) (breakpoints env) with
      | Some (_, bp) =>
          if has (bp_flags bp) BP_CPU then check_hw_breakpoints true ;; raise EXCP01_DB 0 else kret tt
      | None => kret tt
      end
  end.

(** cpu-exec.c *)
Definition cpu_handle_debug_exception : K G unit :=
  env <- kget ;;
  (match watchpoint_hit env with
   | None => kmod (with_watchpoints ((fun e => (e.1, mkWp (wp_vaddr e.2) (wp_len_mask e.2) (Z.land (wp_flags e.2) (Z.lnot BP_WATCHPOINT_HIT)))) <$> watchpoints env))
   | Some _ => kret tt
   end) ;;
  breakpoint_handler.
End Debug.
