(* ===== verification/DebugInv.v ===== *)
(** * Debug registers and the lists of the CPU agree

    Moves to the debug registers keep the breakpoints and watchpoints of the CPU
    those that the registers ask for, never use one that was freed, and leave those
    of the debugger alone. A task switch breaks this. *)

From stdpp Require Import base list.
From Stdlib Require Import ZArith Lia.
From S2P Require Import Prelude Cpu CcHelper Excp Guest Mmu Seg SegSpec SegTask SoftMmu Tlb CtrlRegs DebugRegs.

Local Open Scope Z_scope.
Local Open Scope k_scope.

(** ** One list, with pointers into it *)

Section Mirror.
Context {A : Type}.
Implicit Types (l : list (Z * A)) (o : Z -> option Z) (e : Z -> A -> Prop) (cpu : A -> bool).

(** [o i] is the element that register [i] owns and [e i] what it must hold; the
    elements of the CPU are exactly the owned ones. *)
Record mirror o e cpu l (next : Z) : Prop := {
  mi_nodup : NoDup l.*1;
  mi_fresh : forall p x, (p, x) ∈ l -> p < next;
  mi_owned : forall i p, o i = Some p -> exists x, (p, x) ∈ l /\ e i x /\ cpu x = true;
  mi_only : forall p x, (p, x) ∈ l -> cpu x = true -> exists i, o i = Some p;
  mi_inj : forall i j p, o i = Some p -> o j = Some p -> i = j
}.

Lemma linked_elem p x l : NoDup l.*1 -> (p, x) ∈ l -> linked p l = Some x.
Proof.
  unfold linked. induction l as [|[q y] l IH]; intros Hn Hin; [by apply elem_of_nil in Hin|].
  cbn [find fst]. apply NoDup_cons in Hn as [Hq Hn]. destruct (Z.eqb_spec q p) as [->|Hne].
  - apply elem_of_cons in Hin as [[= <-]|Hin]; [done|]. destruct Hq. by apply (list_elem_of_fmap_2 fst) in Hin.
  - apply elem_of_cons in Hin as [[= <- <-]|Hin]; [done|]. by apply IH.
Qed.

Lemma linked_some p x l : linked p l = Some x -> (p, x) ∈ l.
Proof.
  unfold linked. induction l as [|[q y] l IH]; [done|]. cbn [find fst]. destruct (Z.eqb_spec q p) as [->|].
  - intros [= <-]. left.
  - intros H. right. by apply IH.
Qed.

Lemma unlinked_elem p q x l : (q, x) ∈ unlinked p l <-> q <> p /\ (q, x) ∈ l.
Proof. unfold unlinked. by rewrite list_elem_of_filter. Qed.

Lemma unlinked_nodup p l : NoDup l.*1 -> NoDup (unlinked p l).*1.
Proof.
  unfold unlinked. induction l as [|[q y] l IH]; intros Hn; [done|]. apply NoDup_cons in Hn as [Hq Hn].
  rewrite filter_cons. cbn [fst]. case_decide; [|by apply IH]. cbn [fmap list_fmap fst]. apply NoDup_cons. split; [|by apply IH].
  intros Hin. apply Hq. apply list_elem_of_fmap in Hin as ([q' y'] & -> & [_ Hin]%list_elem_of_filter). by apply (list_elem_of_fmap_2 fst) in Hin.
Qed.

Lemma enqueue_elem fl p x l q y : (q, y) ∈ enqueue fl p x l <-> (q, y) = (p, x) \/ (q, y) ∈ l.
Proof. unfold enqueue. case_match; rewrite ?elem_of_cons, ?elem_of_app, ?list_elem_of_singleton; tauto. Qed.

Lemma enqueue_nodup fl p x l : NoDup l.*1 -> p ∉ l.*1 -> NoDup (enqueue fl p x l).*1.
Proof.
  intros Hn Hp. unfold enqueue. case_match; [by apply NoDup_cons|]. rewrite fmap_app. apply NoDup_app. split_and!; [done| |apply NoDup_singleton].
  intros q Hq Hq'. apply list_elem_of_singleton in Hq' as ->. done.
Qed.

Lemma mirror_ext o o' e e' cpu l next next' :
  (forall i, o i = o' i) -> (forall i p x, o i = Some p -> e i x -> e' i x) -> next <= next' ->
  mirror o e cpu l next -> mirror o' e' cpu l next'.
Proof.
  intros Ho He Hn [H1 H2 H3 H4 H5]. split; try done.
  - intros p x Hin. specialize (H2 p x Hin). lia.
  - intros i p Hi. rewrite <-Ho in Hi. destruct (H3 i p Hi) as (x & Hx & Hex & Hc). exists x. split_and!; [done| |done]. by eapply He.
  - intros p x Hin Hc. destruct (H4 p x Hin Hc) as [i Hi]. exists i. by rewrite <-Ho.
  - intros i j p Hi Hj. rewrite <-Ho in Hi, Hj. by eapply H5.
Qed.

Lemma mirror_unlink o e cpu l next i p :
  mirror o e cpu l next -> o i = Some p -> mirror (fun j => if j =? i then None else o j) e cpu (unlinked p l) next.
Proof.
  intros [H1 H2 H3 H4 H5] Hi. split.
  - by apply unlinked_nodup.
  - intros q x [_ Hin]%unlinked_elem. by eapply H2.
  - intros j q. destruct (Z.eqb_spec j i) as [|Hne]; [done|]. intros Hj. destruct (H3 j q Hj) as (x & Hx & Hex). exists x. split; [|done].
    apply unlinked_elem. split; [|done]. intros ->. by destruct Hne; eapply H5.
  - intros q x [Hne Hin]%unlinked_elem Hc. destruct (H4 q x Hin Hc) as [j Hj]. exists j. destruct (Z.eqb_spec j i) as [->|]; [congruence|done].
  - intros j k q. destruct (j =? i), (k =? i); try done. apply H5.
Qed.

Lemma mirror_enqueue o e cpu l next i fl x :
  mirror o e cpu l next -> o i = None -> e i x -> cpu x = true ->
  mirror (fun j => if j =? i then Some next else o j) e cpu (enqueue fl next x l) (next + 1).
Proof.
  intros [H1 H2 H3 H4 H5] Hi Hex Hc. assert (next ∉ l.*1) as Hfresh.
  { intros Hin. apply list_elem_of_fmap in Hin as ([q y] & -> & Hin). specialize (H2 q y Hin). cbn in H2. lia. }
  assert (forall j, o j <> Some next) as Hno.
  { intros j Hj. destruct (H3 j next Hj) as (y & Hy & _). specialize (H2 _ _ Hy). lia. }
  split.
  - by apply enqueue_nodup.
  - intros q y [[= -> ->]|Hin]%enqueue_elem; [lia|]. specialize (H2 q y Hin). lia.
  - intros j q. destruct (Z.eqb_spec j i) as [->|]; [intros [= <-]; exists x; split_and!; [apply enqueue_elem; by left|done..]|].
    intros Hj. destruct (H3 j q Hj) as (y & Hy & He). exists y. split; [apply enqueue_elem; by right|done].
  - intros q y [[= -> ->]|Hin]%enqueue_elem Hcy; [exists i; by rewrite Z.eqb_refl|]. destruct (H4 q y Hin Hcy) as [j Hj]. exists j.
    destruct (Z.eqb_spec j i) as [->|]; [congruence|done].
  - intros j k q. destruct (Z.eqb_spec j i), (Z.eqb_spec k i); subst; try done; intros; simplify_eq; [by destruct (Hno k)|by destruct (Hno j)|by eapply H5].
Qed.

(** Elements of the debugger stay, in their order. *)
Definition others cpu l : list (Z * A) := filter (fun q => cpu q.2 = false) l.

Lemma others_unlinked o e cpu l next i p : mirror o e cpu l next -> o i = Some p -> others cpu (unlinked p l) = others cpu l.
Proof.
  intros [H1 _ H3 _ _] Hi. destruct (H3 i p Hi) as (x & Hx & _ & Hc).
  assert (forall y, (p, y) ∈ l -> cpu y = true) as Hp.
  { intros y Hy. pose proof (linked_elem _ _ _ H1 Hx). pose proof (linked_elem _ _ _ H1 Hy). congruence. }
  clear -Hp. unfold others, unlinked. induction l as [|[q y] l IH]; [done|].
  rewrite (filter_cons _ (q, y)). cbn [fst]. case_decide as Hq.
  - rewrite !filter_cons, IH by (intros; apply Hp; by right). done.
  - rewrite filter_cons, IH by (intros; apply Hp; by right). cbn [snd]. rewrite decide_False; [done|]. subst q.
    rewrite Hp by left. done.
Qed.

Lemma others_enqueue cpu fl p x l : cpu x = true -> others cpu (enqueue fl p x l) = others cpu l.
Proof.
  intros Hc. unfold others, enqueue. case_match; rewrite ?filter_app, ?filter_cons, ?filter_nil; cbn [snd]; rewrite Hc, decide_False by done; [done|apply app_nil_r].
Qed.
End Mirror.

(** ** What the registers ask for *)

Definition is_inst (env : CPUX86State) (i : Z) : bool :=
  (hw_breakpoint_type (drx env 7) i =? DR7_TYPE_BP_INST) && hw_breakpoint_enabled (drx env 7) i.
Definition is_data (env : CPUX86State) (i : Z) : bool :=
  (hw_breakpoint_type (drx env 7) i =? DR7_TYPE_DATA_WR) || (hw_breakpoint_type (drx env 7) i =? DR7_TYPE_DATA_RW).
Definition data_kind (env : CPUX86State) (i : Z) : Z :=
  if hw_breakpoint_type (drx env 7) i =? DR7_TYPE_DATA_WR then Z.lor BP_CPU BP_MEM_WRITE else Z.lor BP_CPU BP_MEM_ACCESS.
(** Watchpoints are aligned to their length; others are refused. *)
Definition aligned (env : CPUX86State) (i : Z) : bool :=
  drx env (Z.to_nat i) mod hw_breakpoint_len (drx env 7) i =? 0.

Definition bp_asked (env : CPUX86State) (i : Z) (bp : CPUBreakpoint) : Prop := bp = mkBp (drx env (Z.to_nat i)) BP_CPU.
(** The mark of a hit may be set. *)
Definition wp_asked (env : CPUX86State) (i : Z) (wp : CPUWatchpoint) : Prop :=
  wp_vaddr wp = drx env (Z.to_nat i) /\ wp_len_mask wp = not32 (hw_breakpoint_len (drx env 7) i - 1) /\
  Z.land (wp_flags wp) (Z.lnot BP_WATCHPOINT_HIT) = data_kind env i.

Definition bp_cpu (bp : CPUBreakpoint) : bool := has (bp_flags bp) BP_CPU.
Definition wp_cpu (wp : CPUWatchpoint) : bool := has (wp_flags wp) BP_CPU.

(** The registers in [S] own their elements; nothing else is the CPU's. *)
Definition bp_own (S : Z -> bool) (env : CPUX86State) (i : Z) : option Z := if S i && is_inst env i then slot env i else None.
Definition wp_own (S : Z -> bool) (env : CPUX86State) (i : Z) : option Z := if S i && is_data env i then slot env i else None.

Record owned (S : Z -> bool) (env : CPUX86State) : Prop := {
  ow_slots : length (cpu_breakpoint env) = 4%nat;
  ow_dr : length (dr env) = 8%nat;
  ow_in : forall i, S i = true -> 0 <= i < 4;
  ow_bp : mirror (bp_own S env) (bp_asked env) bp_cpu (breakpoints env) (next_ptr env);
  ow_wp : mirror (wp_own S env) (wp_asked env) wp_cpu (watchpoints env) (next_ptr env);
  ow_inst : forall i, S i = true -> is_inst env i = true -> is_Some (slot env i);
  ow_data : forall i, S i = true -> is_data env i = true -> (is_Some (slot env i) <-> aligned env i = true)
}.

Definition gdb_same (env env' : CPUX86State) : Prop :=
  others bp_cpu (breakpoints env') = others bp_cpu (breakpoints env) /\
  others wp_cpu (watchpoints env') = others wp_cpu (watchpoints env).
#[export] Instance gdb_same_preorder : PreOrder gdb_same.
Proof. split; [done|]. intros x y z [H1 H2] [H3 H4]. split; congruence. Qed.

Definition without (S : Z -> bool) (i : Z) : Z -> bool := fun j => S j && negb (j =? i).

Definition adding (S : Z -> bool) (i : Z) : Z -> bool := fun j => S j || (j =? i).

(** ** Lengths *)

Definition len_ok (len : Z) : Prop := len = 1 \/ len = 2 \/ len = 4 \/ len = 8.

Lemma len_cases dr7 i : len_ok (hw_breakpoint_len dr7 i).
Proof.
  unfold hw_breakpoint_len, len_ok. change 3 with (Z.ones 2). rewrite Z.land_ones by done.
  pose proof (Z.mod_pos_bound (Z.shiftr dr7 (18 + i * 4)) (2 ^ 2) ltac:(lia)) as H. case_match eqn:E; [lia|]. apply Z.eqb_neq in E. lia.
Qed.

(** The check of [cpu_watchpoint_insert]. *)
Lemma len_check addr len :
  len_ok len ->
  has len (len - 1) || has addr (not32 (not32 (len - 1))) || (len =? 0) || (TARGET_PAGE_SIZE <? len) = negb (addr mod len =? 0).
Proof.
  intros [->|[->|[->| ->]]].
  - rewrite Z.mod_1_r. change (has addr (not32 (not32 (1 - 1)))) with (has addr 0). unfold has. rewrite (Z.land_0_r addr). reflexivity.
  - change (not32 (not32 (2 - 1))) with (Z.ones 1). unfold has at 2. rewrite Z.land_ones by done. change (2 ^ 1) with 2. by destruct (negb (addr mod 2 =? 0)).
  - change (not32 (not32 (4 - 1))) with (Z.ones 2). unfold has at 2. rewrite Z.land_ones by done. change (2 ^ 2) with 4. by destruct (negb (addr mod 4 =? 0)).
  - change (not32 (not32 (8 - 1))) with (Z.ones 3). unfold has at 2. rewrite Z.land_ones by done. change (2 ^ 3) with 8. by destruct (negb (addr mod 8 =? 0)).
Qed.

(** ** One register *)

Section Regs.
Context {G : Type} `{!SoftMmu G}.

Lemma own_none S env i : S i = false -> bp_own S env i = None /\ wp_own S env i = None.
Proof. intros H. unfold bp_own, wp_own. by rewrite H. Qed.

Lemma own_without S env i j :
  bp_own (without S i) env j = (if j =? i then None else bp_own S env j) /\
  wp_own (without S i) env j = (if j =? i then None else wp_own S env j).
Proof. unfold bp_own, wp_own, without. destruct (j =? i); cbn [negb]; by rewrite ?andb_false_r, ?andb_true_r. Qed.

Lemma inst_not_data env i : is_inst env i = true -> is_data env i = false.
Proof.
  unfold is_inst, is_data. intros [H _]%andb_true_iff. apply Z.eqb_eq in H. by rewrite H.
Qed.

(** Only the lists change. *)
Lemma owned_less S i env env' :
  owned S env -> dr env' = dr env -> cpu_breakpoint env' = cpu_breakpoint env -> next_ptr env' = next_ptr env ->
  mirror (fun j => if j =? i then None else bp_own S env j) (bp_asked env) bp_cpu (breakpoints env') (next_ptr env) ->
  mirror (fun j => if j =? i then None else wp_own S env j) (wp_asked env) wp_cpu (watchpoints env') (next_ptr env) ->
  owned (without S i) env'.
Proof.
  intros [H1 H2 H3 _ _ H6 H7] Hdr Hsl Hn Hb Hw.
  assert (forall n, drx env' n = drx env n) as Ed by (intros n; unfold drx; by rewrite Hdr).
  assert (forall j, slot env' j = slot env j) as Es by (intros j; unfold slot; by rewrite Hsl).
  assert (forall j, is_inst env' j = is_inst env j /\ is_data env' j = is_data env j /\ aligned env' j = aligned env j) as Ei
    by (intros j; unfold is_inst, is_data, aligned; by rewrite !Ed).
  split; rewrite ?Hdr, ?Hsl, ?Hn; try done.
  - intros j [Hj _]%andb_true_iff. by apply H3.
  - eapply mirror_ext; [|intros j p x _|reflexivity|exact Hb].
    + intros j. symmetry. etrans; [|apply (own_without S env i j)]. unfold bp_own. by rewrite (proj1 (Ei j)), Es.
    + unfold bp_asked. by rewrite Ed.
  - eapply mirror_ext; [|intros j p x _|reflexivity|exact Hw].
    + intros j. symmetry. etrans; [|apply (own_without S env i j)]. unfold wp_own. by rewrite (proj1 (proj2 (Ei j))), Es.
    + unfold wp_asked, data_kind. by rewrite !Ed.
  - intros j [Hj _]%andb_true_iff. rewrite (proj1 (Ei j)), Es. by apply H6.
  - intros j [Hj _]%andb_true_iff. rewrite (proj1 (proj2 (Ei j))), (proj2 (proj2 (Ei j))), Es. by apply H7.
Qed.

(** The register owns nothing in a list. *)
Lemma mirror_less {A} o e cpu (l : list (Z * A)) next i :
  o i = None -> mirror o e cpu l next -> mirror (fun j => if j =? i then None else o j) e cpu l next.
Proof. intros Hi H. eapply mirror_ext; [|done|reflexivity|exact H]. intros j. by destruct (Z.eqb_spec j i) as [->|]. Qed.

(** What [hw_breakpoint_remove] and [hw_breakpoint_insert] do. *)
Definition moved (S' : Z -> bool) (env : CPUX86State) (r : kres G unit) : Prop :=
  exists env' g', r = KRet tt env' g' /\ owned S' env' /\ gdb_same env env' /\ dr env' = dr env.

Lemma remove_owned S i env (g : G) : owned S env -> S i = true -> moved (without S i) env (hw_breakpoint_remove i env g).
Proof.
  intros Ho Hi. pose proof Ho as [_ _ _ H4 H5 _ _]. unfold hw_breakpoint_remove, kbind, kget. fold (slot env i). fold (drx env 7).
  assert (bp_own S env i = None -> wp_own S env i = None -> moved (without S i) env (KRet tt env g)) as Hnone.
  { intros Hb Hw. exists env, g. split_and!; try done. by apply (owned_less S i env); try apply mirror_less. }
  destruct (slot env i) as [p|] eqn:Hp; [|apply Hnone; unfold bp_own, wp_own; rewrite Hp; by case_match].
  change 0 with DR7_TYPE_BP_INST. change 1 with DR7_TYPE_DATA_WR. change 3 with DR7_TYPE_DATA_RW. fold (is_data env i).
  destruct (hw_breakpoint_type (drx env 7) i =? DR7_TYPE_BP_INST) eqn:Et;
    [destruct (hw_breakpoint_enabled (drx env 7) i) eqn:Een|destruct (is_data env i) eqn:Hd].
  - assert (is_inst env i = true) as Hin by (unfold is_inst; by rewrite Et, Een).
    assert (bp_own S env i = Some p) as Hb by (unfold bp_own; by rewrite Hi, Hin).
    assert (wp_own S env i = None) as Hw by (unfold wp_own; by rewrite (inst_not_data env i Hin), andb_false_r).
    unfold cpu_breakpoint_remove_by_ref, kbind, kget, kmod. destruct (mi_owned _ _ _ _ _ H4 i p Hb) as (x & Hx & _).
    rewrite (linked_elem _ _ _ (mi_nodup _ _ _ _ _ H4) Hx). eexists _, g. split; [done|]. split; [|split; [|done]].
    + apply (owned_less S i env); try done; [by apply mirror_unlink|by apply mirror_less].
    + split; [|done]. cbn [breakpoints with_breakpoints]. by eapply others_unlinked.
  - apply Hnone; unfold bp_own, wp_own, is_inst, is_data; apply Z.eqb_eq in Et; rewrite Et, ?Een; by rewrite ?andb_false_r.
  - assert (wp_own S env i = Some p) as Hb by (unfold wp_own; by rewrite Hi, Hd).
    assert (bp_own S env i = None) as Hw by (unfold bp_own, is_inst; by rewrite Et, andb_false_r).
    unfold cpu_watchpoint_remove_by_ref, kbind, kget, kmod, kmem. destruct (mi_owned _ _ _ _ _ H5 i p Hb) as (x & Hx & _).
    rewrite (linked_elem _ _ _ (mi_nodup _ _ _ _ _ H5) Hx). eexists _, _. split; [done|]. split; [|split; [|done]].
    + apply (owned_less S i env); try done; [by apply mirror_less|by apply mirror_unlink].
    + split; [done|]. cbn [watchpoints with_watchpoints]. by eapply others_unlinked.
  - apply Hnone; unfold bp_own, wp_own, is_inst; rewrite ?Et, ?Hd; by rewrite ?andb_false_r.
Qed.

Lemma slot_set i j p env : 0 <= i < 4 -> 0 <= j -> length (cpu_breakpoint env) = 4%nat -> slot (set_slot i p env) j = if j =? i then p else slot env j.
Proof.
  intros Hi Hj Hl. unfold slot, set_slot. cbn [cpu_breakpoint with_cpu_breakpoint]. rewrite !nth_lookup. destruct (Z.eqb_spec j i) as [->|Hne].
  - by rewrite list_lookup_insert_eq by lia.
  - by rewrite list_lookup_insert_ne by lia.
Qed.

(** One more register owns its elements. *)
Lemma owned_more S i env env' :
  owned S env -> S i = false -> 0 <= i < 4 -> dr env' = dr env -> length (cpu_breakpoint env') = 4%nat ->
  (forall j, j <> i -> 0 <= j -> slot env' j = slot env j) ->
  mirror (fun j => if j =? i then (if is_inst env i then slot env' i else None) else bp_own S env j) (bp_asked env) bp_cpu (breakpoints env') (next_ptr env') ->
  mirror (fun j => if j =? i then (if is_data env i then slot env' i else None) else wp_own S env j) (wp_asked env) wp_cpu (watchpoints env') (next_ptr env') ->
  (is_inst env i = true -> is_Some (slot env' i)) ->
  (is_data env i = true -> (is_Some (slot env' i) <-> aligned env i = true)) ->
  owned (adding S i) env'.
Proof.
  intros [H1 H2 H3 _ _ H6 H7] HSi Hi Hdr Hsl Hsame Hb Hw Hin Hda.
  assert (forall n, drx env' n = drx env n) as Ed by (intros n; unfold drx; by rewrite Hdr).
  assert (forall j, is_inst env' j = is_inst env j /\ is_data env' j = is_data env j /\ aligned env' j = aligned env j) as Ei
    by (intros j; unfold is_inst, is_data, aligned; by rewrite !Ed).
  assert (forall j, S j = true -> slot env' j = slot env j) as Es.
  { intros j Hj. apply Hsame; [congruence|]. specialize (H3 j Hj). lia. }
  split; rewrite ?Hdr; try done.
  - intros j [Hj|Hj%Z.eqb_eq]%orb_true_iff; [by apply H3|by subst].
  - eapply mirror_ext; [|intros j p x _|reflexivity|exact Hb]; [|unfold bp_asked; by rewrite Ed].
    intros j. cbn beta. unfold bp_own, adding. rewrite (proj1 (Ei j)). destruct (Z.eqb_spec j i) as [->|]; [by rewrite orb_true_r|].
    rewrite orb_false_r. destruct (S j) eqn:Hj; [by rewrite Es|done].
  - eapply mirror_ext; [|intros j p x _|reflexivity|exact Hw]; [|unfold wp_asked, data_kind; by rewrite !Ed].
    intros j. cbn beta. unfold wp_own, adding. rewrite (proj1 (proj2 (Ei j))). destruct (Z.eqb_spec j i) as [->|]; [by rewrite orb_true_r|].
    rewrite orb_false_r. destruct (S j) eqn:Hj; [by rewrite Es|done].
  - intros j [Hj|Hj%Z.eqb_eq]%orb_true_iff; rewrite (proj1 (Ei j)); [rewrite Es by done; by apply H6|by subst].
  - intros j [Hj|Hj%Z.eqb_eq]%orb_true_iff; rewrite (proj1 (proj2 (Ei j))), (proj2 (proj2 (Ei j))); [rewrite Es by done; by apply H7|by subst].
Qed.

(** Nothing is inserted in a list for the register. *)
Lemma mirror_more {A} o e cpu (l : list (Z * A)) next next' i :
  o i = None -> next <= next' -> mirror o e cpu l next -> mirror (fun j => if j =? i then None else o j) e cpu l next'.
Proof. intros Hi Hn H. eapply mirror_ext; [|done|exact Hn|exact H]. intros j. by destruct (Z.eqb_spec j i) as [->|]. Qed.

(** The register asks for nothing. *)
Lemma none_inserted S i env (g : G) :
  owned S env -> S i = false -> 0 <= i < 4 -> is_inst env i = false -> is_data env i = false -> moved (adding S i) env (KRet tt env g).
Proof.
  intros Ho HS Hi Hin Hd. pose proof Ho as [H1 _ _ H4 H5 _ _]. destruct (own_none S env i HS) as [Nb Nw].
  exists env, g. split_and!; try done. apply (owned_more S i env); rewrite ?Hin, ?Hd; try done; by apply (mirror_more _ _ _ _ (next_ptr env)).
Qed.

Lemma slots_after S i env env1 p :
  owned S env -> 0 <= i < 4 -> cpu_breakpoint env1 = cpu_breakpoint env ->
  length (cpu_breakpoint (set_slot i p env1)) = 4%nat /\ slot (set_slot i p env1) i = p /\
  forall j, j <> i -> 0 <= j -> slot (set_slot i p env1) j = slot env j.
Proof.
  intros Ho Hi He. pose proof (ow_slots _ _ Ho) as Hl. split_and!.
  - cbn [set_slot cpu_breakpoint with_cpu_breakpoint]. by rewrite length_insert, He.
  - rewrite slot_set by (rewrite ?He; done || lia). by rewrite Z.eqb_refl.
  - intros j Hj Hj0. rewrite slot_set by (rewrite ?He; done || lia). destruct (Z.eqb_spec j i); [done|]. unfold slot. by rewrite He.
Qed.

Lemma inst_inserted S i env (g : G) :
  owned S env -> S i = false -> 0 <= i < 4 -> is_inst env i = true ->
  moved (adding S i) env ((p <- cpu_breakpoint_insert (drx env (Z.to_nat i)) BP_CPU ;; kmod (set_slot i (Some p))) env g).
Proof.
  intros Ho HS Hi Hin. pose proof Ho as [_ _ _ H4 H5 _ _]. destruct (own_none S env i HS) as [Nb Nw]. pose proof (inst_not_data env i Hin) as Hd.
  unfold cpu_breakpoint_insert, kbind, kget, kmod, kret. eexists _, g. split; [done|]. set (env1 := with_next_ptr _ _).
  destruct (slots_after S i env env1 (Some (next_ptr env)) Ho Hi eq_refl) as (L1 & L2 & L3). split; [|split; [|done]].
  - apply (owned_more S i env); try done; rewrite ?L2, ?Hin, ?Hd; try done.
    + cbn [breakpoints set_slot with_cpu_breakpoint env1 with_next_ptr with_breakpoints next_ptr]. by apply mirror_enqueue.
    + apply (mirror_more _ _ _ _ (next_ptr env)); [done|cbn; lia|done].
  - split; [|done]. cbn [breakpoints set_slot with_cpu_breakpoint env1 with_next_ptr with_breakpoints]. by apply others_enqueue.
Qed.

Lemma kind_asked env i :
  is_data env i = true -> (data_kind env i =? 0) = false /\ has (data_kind env i) BP_CPU = true /\
  Z.land (data_kind env i) (Z.lnot BP_WATCHPOINT_HIT) = data_kind env i.
Proof. intros _. unfold data_kind. by case_match. Qed.

Lemma data_inserted S i env (g : G) :
  owned S env -> S i = false -> 0 <= i < 4 -> is_data env i = true ->
  moved (adding S i) env
    ((r <- cpu_watchpoint_insert (drx env (Z.to_nat i)) (hw_breakpoint_len (drx env 7) i) (data_kind env i) ;;
      match r with Some p => kmod (set_slot i (Some p)) | None => kmod (set_slot i None) end) env g).
Proof.
  intros Ho HS Hi Hd. pose proof Ho as [_ _ _ H4 H5 _ _]. destruct (own_none S env i HS) as [Nb Nw]. destruct (kind_asked env i Hd) as (_ & K1 & K2).
  assert (is_inst env i = false) as Hin by (destruct (is_inst env i) eqn:E; [by rewrite inst_not_data in Hd|done]).
  unfold cpu_watchpoint_insert. cbv zeta. rewrite len_check by apply len_cases. fold (aligned env i). destruct (aligned env i) eqn:Ha; cbn [negb].
  - unfold kbind, kget, kmod, kmem, kret. eexists _, _. split; [done|]. set (env1 := with_next_ptr _ _).
    destruct (slots_after S i env env1 (Some (next_ptr env)) Ho Hi eq_refl) as (L1 & L2 & L3). split; [|split; [|done]].
    + apply (owned_more S i env); try done; rewrite ?L2, ?Hin, ?Hd, ?Ha; try done.
      * apply (mirror_more _ _ _ _ (next_ptr env)); [done|cbn; lia|done].
      * cbn [watchpoints set_slot with_cpu_breakpoint env1 with_next_ptr with_watchpoints next_ptr]. by apply mirror_enqueue.
    + split; [done|]. cbn [watchpoints set_slot with_cpu_breakpoint env1 with_next_ptr with_watchpoints]. by apply others_enqueue.
  - eexists _, g. split; [done|]. destruct (slots_after S i env env None Ho Hi eq_refl) as (L1 & L2 & L3). split_and!; try done.
    apply (owned_more S i env); try done; rewrite ?L2, ?Hin, ?Hd, ?Ha; try done; try (by apply (mirror_more _ _ _ _ (next_ptr env))).
Qed.

Lemma insert_owned S i env (g : G) :
  owned S env -> S i = false -> 0 <= i < 4 -> moved (adding S i) env (hw_breakpoint_insert i env g).
Proof.
  intros Ho HS Hi. unfold hw_breakpoint_insert. unfold kbind at 1, kget at 1. cbv zeta.
  destruct (hw_breakpoint_type (drx env 7) i =? DR7_TYPE_BP_INST) eqn:Et.
  - destruct (hw_breakpoint_enabled (drx env 7) i) eqn:Een.
    + apply inst_inserted; try done. unfold is_inst. by rewrite Et, Een.
    + apply none_inserted; try done; [unfold is_inst; by rewrite Et, Een|unfold is_data; apply Z.eqb_eq in Et; by rewrite Et].
  - assert (is_inst env i = false) as Hin by (unfold is_inst; by rewrite Et).
    destruct (is_data env i) eqn:Hd.
    + replace (if hw_breakpoint_type (drx env 7) i =? DR7_TYPE_DATA_WR then _ else _) with (data_kind env i).
      * destruct (kind_asked env i Hd) as (-> & _). by apply data_inserted.
      * unfold data_kind. unfold is_data in Hd. destruct (_ =? DR7_TYPE_DATA_WR); [done|]. cbn [orb] in Hd. by rewrite Hd.
    + unfold is_data in Hd. apply orb_false_iff in Hd as [E1 E2]. rewrite E1, E2. cbn [Z.eqb].
      apply none_inserted; try done. unfold is_data. by rewrite E1, E2.
Qed.

(** ** Moves *)

Definition all4 (i : Z) : bool := (0 <=? i) && (i <? 4).

Lemma owned_ext S S' env : (forall i, S i = S' i) -> owned S env -> owned S' env.
Proof.
  intros HS [H1 H2 H3 H4 H5 H6 H7]. split; try done.
  - intros i. rewrite <-HS. apply H3.
  - eapply mirror_ext; [|done|reflexivity|exact H4]. intros i. unfold bp_own. by rewrite HS.
  - eapply mirror_ext; [|done|reflexivity|exact H5]. intros i. unfold wp_own. by rewrite HS.
  - intros i. rewrite <-HS. apply H6.
  - intros i. rewrite <-HS. apply H7.
Qed.

Lemma drx_set n m v env : (n < length (dr env))%nat -> drx (set_dr n v env) m = if Nat.eqb m n then u32 v else drx env m.
Proof.
  intros Hn. unfold drx, set_dr. cbn [dr with_dr]. rewrite !nth_lookup. destruct (Nat.eqb_spec m n) as [->|Hne].
  - by rewrite list_lookup_insert_eq.
  - by rewrite list_lookup_insert_ne.
Qed.

(** A register changes of which nothing depends. *)
Lemma set_dr_owned S n v env :
  (n < 8)%nat -> (forall i, S i = true -> Z.to_nat i <> n /\ n <> 7%nat) -> owned S env -> owned S (set_dr n v env).
Proof.
  intros Hn HS [H1 H2 H3 H4 H5 H6 H7].
  assert (forall i, S i = true -> drx (set_dr n v env) (Z.to_nat i) = drx env (Z.to_nat i) /\ drx (set_dr n v env) 7 = drx env 7) as Ed.
  { intros i Hi. destruct (HS i Hi). rewrite !drx_set by lia. by destruct (Nat.eqb_spec (Z.to_nat i) n), (Nat.eqb_spec 7 n). }
  assert (forall i, S i = true -> is_inst (set_dr n v env) i = is_inst env i /\ is_data (set_dr n v env) i = is_data env i /\
    aligned (set_dr n v env) i = aligned env i /\ data_kind (set_dr n v env) i = data_kind env i) as Ei.
  { intros i Hi. destruct (Ed i Hi) as [E1 E2]. unfold is_inst, is_data, aligned, data_kind. by rewrite E1, !E2. }
  split; try done; cbn [set_dr dr with_dr breakpoints watchpoints next_ptr].
  - by rewrite length_insert.
  - eapply mirror_ext; [| |reflexivity|exact H4].
    + intros i. unfold bp_own. destruct (S i) eqn:Hi; [|done]. by rewrite (proj1 (Ei i Hi)).
    + intros i p x Hp. unfold bp_own in Hp. destruct (S i) eqn:Hi; [|done]. unfold bp_asked. by rewrite (proj1 (Ed i Hi)).
  - eapply mirror_ext; [| |reflexivity|exact H5].
    + intros i. unfold wp_own. destruct (S i) eqn:Hi; [|done]. by rewrite (proj1 (proj2 (Ei i Hi))).
    + intros i p x Hp. unfold wp_own in Hp. destruct (S i) eqn:Hi; [|done]. unfold wp_asked. destruct (Ei i Hi) as (_ & _ & _ & ->), (Ed i Hi) as [-> ->]. done.
  - intros i Hi. rewrite (proj1 (Ei i Hi)). by apply H6.
  - intros i Hi. destruct (Ei i Hi) as (_ & -> & -> & _). by apply H7.
Qed.

Lemma moved_bind S1 S2 env (m k : K G unit) g :
  moved S1 env (m env g) -> (forall env' g', owned S1 env' -> moved S2 env' (k env' g')) -> moved S2 env ((m ;; k) env g).
Proof.
  intros (env1 & g1 & E & Ho & Hg & Hd) Hk. unfold kbind. rewrite E. destruct (Hk env1 g1 Ho) as (env2 & g2 & E2 & Ho2 & Hg2 & Hd2).
  exists env2, g2. split_and!; [done|done|by etrans|congruence].
Qed.

Lemma moved_ext S S' env (r : kres G unit) : (forall i, S i = S' i) -> moved S env r -> moved S' env r.
Proof. intros HS (env' & g' & H1 & H2 & H3). exists env', g'. split_and!; try done; [by eapply owned_ext|apply H3..]. Qed.

Lemma moved_ret S env (g : G) : owned S env -> moved S env (kret tt env g).
Proof. intros Ho. by exists env, g. Qed.

Lemma remove_all env (g : G) : owned all4 env -> moved (fun _ => false) env (kiter hw_breakpoint_remove DR7_MAX_BP 0 env g).
Proof.
  intros Ho. cbn [kiter DR7_MAX_BP Z.add]. apply (moved_ext (without (without (without (without all4 0) 1) 2) 3)).
  - intros i. unfold without, all4. by zcase; try lia.
  - do 4 (eapply moved_bind; [by apply remove_owned|clear dependent env g; intros env g Ho]). by apply moved_ret.
Qed.

Lemma insert_all env (g : G) : owned (fun _ => false) env -> moved all4 env (kiter hw_breakpoint_insert DR7_MAX_BP 0 env g).
Proof.
  intros Ho. cbn [kiter DR7_MAX_BP Z.add]. apply (moved_ext (adding (adding (adding (adding (fun _ => false) 0) 1) 2) 3)).
  - intros i. unfold adding, all4. by zcase; try lia.
  - do 4 (eapply moved_bind; [apply insert_owned; [done|done|lia]|clear dependent env g; intros env g Ho]). by apply moved_ret.
Qed.

Lemma move_owned reg v env (g : G) :
  owned all4 env -> 0 <= reg < 8 ->
  exists env' g', helper_movl_drN_T0 reg v env g = KRet tt env' g' /\ owned all4 env' /\ gdb_same env env' /\
    dr env' = <[Z.to_nat reg := u32 v]> (dr env).
Proof.
  intros Ho Hr. unfold helper_movl_drN_T0. destruct (Z.ltb_spec reg 4) as [H4|H4]; [|destruct (Z.eqb_spec reg 7) as [->|H7]].
  - destruct (remove_owned all4 reg env g Ho) as (env1 & g1 & E1 & Ho1 & Hg1 & Hd1); [unfold all4; by zcase; try lia|].
    unfold kbind, kmod. rewrite E1. destruct (insert_owned (without all4 reg) reg (set_dr (Z.to_nat reg) v env1) g1) as (env2 & g2 & E2 & Ho2 & Hg2 & Hd2).
    + apply set_dr_owned; [lia| |done]. intros i [Hi Hne]%andb_true_iff. unfold all4 in Hi. revert Hi Hne. zcase; cbn; try done; lia.
    + unfold without. by rewrite Z.eqb_refl, andb_false_r.
    + lia.
    + exists env2, g2. split_and!; [done| |by etrans|by rewrite Hd2; cbn [set_dr dr with_dr]; rewrite Hd1].
      eapply owned_ext; [|exact Ho2]. intros i. unfold adding, without, all4. by zcase; try lia.
  - destruct (remove_all env g Ho) as (env1 & g1 & E1 & Ho1 & Hg1 & Hd1). unfold kbind, kmod. rewrite E1.
    destruct (insert_all (set_dr 7 v env1) g1) as (env2 & g2 & E2 & Ho2 & Hg2 & Hd2); [apply set_dr_owned; done || lia|].
    exists env2, g2. split_and!; [done|done|by etrans|by rewrite Hd2; cbn [set_dr dr with_dr]; rewrite Hd1].
  - exists (set_dr (Z.to_nat reg) v env), g. split_and!; try done. apply set_dr_owned; [lia| |done].
    intros i Hi. unfold all4 in Hi. revert Hi. zcase; cbn; try done; lia.
Qed.

(** ** Matches *)

Lemma reg_matches_some env i : owned all4 env -> 0 <= i < 4 -> is_Some (reg_matches env i).
Proof.
  intros [_ _ _ _ H5 _ _] Hi. unfold reg_matches. cbv zeta. case_match; [done|]. fold (is_data env i). destruct (is_data env i) eqn:Hd; [|done].
  destruct (slot env i) as [p|] eqn:Hp; [|done]. assert (wp_own all4 env i = Some p) as Hw.
  { unfold wp_own. rewrite Hd. unfold all4. by zcase; try lia. }
  destruct (mi_owned _ _ _ _ _ H5 i p Hw) as (x & Hx & _). by rewrite (linked_elem _ _ _ (mi_nodup _ _ _ _ _ H5) Hx).
Qed.

Definition matched (env : CPUX86State) (i : Z) : bool := default false (reg_matches env i).

(** The bits of the registers from [i] on. *)
Fixpoint match_bits (env : CPUX86State) (n : nat) (i : Z) : Z :=
  match n with O => 0 | S n' => Z.lor (if matched env i then Z.shiftl 1 i else 0) (match_bits env n' (i + 1)) end.

Lemma matches_loop_some env n i dr6 hit :
  owned all4 env -> 0 <= i -> i + Z.of_nat n <= 4 ->
  matches_loop env n i dr6 hit =
    Some (Z.lor dr6 (match_bits env n i),
          hit || existsb (fun j => matched env j && hw_breakpoint_enabled (drx env 7) j) (seqZ i (Z.of_nat n))).
Proof.
  intros Ho. revert i dr6 hit. induction n as [|n IH]; intros i dr6 hit Hi Hn; cbn [matches_loop match_bits].
  - by rewrite Z.lor_0_r, orb_false_r.
  - destruct (reg_matches_some env i Ho ltac:(lia)) as [b Hb]. rewrite seqZ_cons by lia. replace (Z.pred (Z.of_nat (S n))) with (Z.of_nat n) by lia.
    replace (Z.succ i) with (i + 1) by lia. cbn [existsb]. unfold matched at 1 2. rewrite Hb. cbn [default]. destruct b; rewrite IH by lia.
    + by rewrite Z.lor_assoc, orb_assoc.
    + by rewrite Z.lor_0_l.
Qed.

(** ** Properties *)


(** The test for hits never reads a freed watchpoint; it reports a hit exactly
    when an enabled register matches, and then, or when told to, records in DR6
    every register that matches. *)
Theorem debug_hits force env (g : G) :
  owned all4 env ->
  let hit := existsb (fun i => matched env i && hw_breakpoint_enabled (drx env 7) i) [0; 1; 2; 3] in
  check_hw_breakpoints force env g =
    KRet hit (if hit || force then set_dr 6 (Z.lor (Z.land (drx env 6) (not32 0xf)) (match_bits env 4 0)) env else env) g.
Proof.
  intros Ho hit. unfold check_hw_breakpoints, kbind, kget. rewrite matches_loop_some by (done || lia).
  change (false || ?b) with b. change (seqZ 0 (Z.of_nat DR7_MAX_BP)) with [0; 1; 2; 3]. fold hit. by destruct (hit || force).
Qed.
End Regs.

(** DR0 watches writes to the four bytes at 0x1000, for the current task only. *)
Definition no_debug : CPUX86State := with_cpu_breakpoint [None; None; None; None] (with_dr [0; 0; 0; 0; 0; 0; 0; 0] blank_cpu).
Definition LOCAL_WATCH : Z := Z.lor (Z.shiftl 0xd 16) 1.

Definition watch_dr0 : K phys unit :=
  helper_movl_drN_T0 0 0x1000 ;; helper_movl_drN_T0 7 LOCAL_WATCH.

Lemma no_debug_asks i : is_inst no_debug i = false /\ is_data no_debug i = false.
Proof.
  unfold is_inst, is_data, hw_breakpoint_enabled, hw_global_breakpoint_enabled, hw_local_breakpoint_enabled, hw_breakpoint_type.
  change (drx no_debug 7) with 0. by rewrite !Z.shiftr_0_l.
Qed.

Lemma no_debug_owned : owned all4 no_debug.
Proof.
  assert (forall A o (e : Z -> A -> Prop) cpu, (forall i, o i = None) -> mirror o e cpu [] 0) as Hm.
  { intros A o e cpu Ho. split; [apply NoDup_nil_2|by intros p x ?%elem_of_nil|intros i p; by rewrite Ho|by intros p x ?%elem_of_nil|intros i j p; by rewrite Ho]. }
  split; try done.
  - intros i. unfold all4. zcase; cbn; try done; lia.
  - apply Hm. intros i. unfold bp_own. by rewrite (proj1 (no_debug_asks i)), andb_false_r.
  - apply Hm. intros i. unfold wp_own. by rewrite (proj2 (no_debug_asks i)), andb_false_r.
  - intros i _. by rewrite (proj1 (no_debug_asks i)).
  - intros i _. by rewrite (proj2 (no_debug_asks i)).
Qed.


(** All four registers hold the address of the instruction; none is enabled. *)
Lemma debug_hits_witness : check_hw_breakpoints (G := phys) true no_debug (fun _ => 0) = KRet false (set_dr 6 0xf no_debug) (fun _ => 0).
Proof. exact (debug_hits (G := phys) true no_debug (fun _ => 0) no_debug_owned). Defined.

(** A task switch leaves a debug register with a freed watchpoint. The debug
    registers are set by two moves and own what they ask for; a task switch then
    removes the watchpoint, which was local to the task, but keeps its pointer and
    the type of the register, so that the next move to the register frees it
    again. *)
Theorem task_switch_dangles (g : phys) :
  exists env1 env2, watch_dr0 no_debug g = KRet tt env1 g /\ owned all4 env1 /\
    reset_local_breakpoints env1 g = KRet tt env2 g /\ watchpoints env2 = [] /\ slot env2 0 = Some 0 /\
    helper_movl_drN_T0 0 0x2000 env2 g = KAbort.
Proof.
  destruct (move_owned (G := phys) 0 0x1000 no_debug g no_debug_owned ltac:(lia)) as (env0 & g0 & E0 & H0 & _).
  destruct (move_owned (G := phys) 7 LOCAL_WATCH env0 g0 H0 ltac:(lia)) as (env1 & g1 & E1 & H1 & _).
  unfold watch_dr0, kbind. rewrite E0, E1. vm_compute in E0. injection E0 as <- <-. vm_compute in E1. injection E1 as <- <-.
  do 2 eexists. split; [reflexivity|]. split; [exact H1|]. split; [vm_compute; reflexivity|]. by vm_compute.
Qed.
