(* ===== verification/TlbWatch.v ===== *)
(** * Watchpoints through the TLB

    exec.c: the test of an access against the watchpoints and the memory region
    that makes it. The TLB keeps the accesses to a page with a watchpoint off the
    direct path, so that no access to watched bytes completes unnoticed. *)

From stdpp Require Import base gmap list.
From Stdlib Require Import ZArith Lia.
From S2P Require Import Prelude Cpu CcHelper Excp Guest Mmu MmuWalk Seg SegSpec SegTask SoftMmu Tlb TlbInv TlbWalk TlbCoh TlbMmu TlbSim TlbCode CtrlRegs DebugRegs.

Local Open Scope Z_scope.
Local Open Scope k_scope.

(** ** The test *)

Definition with_wp_flags (fl : Z) (wp : CPUWatchpoint) : CPUWatchpoint := mkWp (wp_vaddr wp) (wp_len_mask wp) fl.

Definition wp_hit (vaddr len_mask flags : Z) (wp : CPUWatchpoint) : bool :=
  ((vaddr =? Z.land (wp_vaddr wp) len_mask) || (Z.land vaddr (wp_len_mask wp) =? wp_vaddr wp)) && has (wp_flags wp) flags.

(** The loop over the watchpoints: those before the first hit lose their mark. *)
Fixpoint scan (vaddr len_mask flags : Z) (l : list (Z * CPUWatchpoint)) : list (Z * CPUWatchpoint) * option (Z * CPUWatchpoint) :=
  match l with
  | [] => ([], None)
  | (p, wp) :: l' =>
      if wp_hit vaddr len_mask flags wp then
        let wp := with_wp_flags (Z.lor (wp_flags wp) BP_WATCHPOINT_HIT) wp in ((p, wp) :: l', Some (p, wp))
      else
        let '(l'', r) := scan vaddr len_mask flags l' in
        ((p, with_wp_flags (Z.land (wp_flags wp) (Z.lnot BP_WATCHPOINT_HIT)) wp) :: l'', r)
  end.

(** [mem_io_vaddr] is the address of the access. The code is translated again
    before the access is resumed, which is no part of the state here. *)
Definition check_watchpoint {G} (mem_io_vaddr offset len_mask flags : Z) : K G unit :=
  env <- kget ;;
  match watchpoint_hit env with
  | Some _ => kmod (on_svm (fun s => with_interrupt_request (Z.lor (interrupt_request s) CPU_INTERRUPT_DEBUG) s))
  | None =>
      let vaddr := u32 (Z.land mem_io_vaddr TARGET_PAGE_MASK + offset) in
      let '(l, r) := scan vaddr len_mask flags (watchpoints env) in
      kmod (with_watchpoints l) ;;
      match r with
      | None => kret tt
      | Some (p, wp) =>
          kmod (with_watchpoint_hit (Some p)) ;;
          if has (wp_flags wp) BP_STOP_BEFORE_ACCESS
          then kmod (with_exception_index EXCP_DEBUG) ;; fun env g => KExit env g
          else resume
      end
  end.

(** [size] is 1, 2 or 4. *)
Definition watch_mem_read (vaddr addr : Z) (size : nat) : K tmem Z :=
  check_watchpoint vaddr (Z.land addr (TARGET_PAGE_SIZE - 1)) (not32 (Z.of_nat size - 1)) BP_MEM_READ ;;
  fun env g => KRet (ld_phys (mkMachine env (tm_phys g)) size addr) env g.

Definition watch_mem_write (vaddr addr val : Z) (size : nat) : K tmem unit :=
  check_watchpoint vaddr (Z.land addr (TARGET_PAGE_SIZE - 1)) (not32 (Z.of_nat size - 1)) BP_MEM_WRITE ;;
  kmem (fun g => mkTM (poke (Z.of_nat size) addr val (tm_phys g)) (tm_tlb g)
                   (set_dirty_flags addr (Z.land 0xff (Z.lnot CODE_DIRTY_FLAG)) (tm_dirty g))).

(** ** Overlap *)

(** What [cpu_watchpoint_insert] accepts, of up to 8 bytes. *)
Definition wp_ok (wp : CPUWatchpoint) (len : Z) : Prop :=
  (len = 1 \/ len = 2 \/ len = 4 \/ len = 8) /\ in_range 32 (wp_vaddr wp) /\ wp_vaddr wp mod len = 0 /\ wp_len_mask wp = not32 (len - 1).

Lemma mask_down n a : (n = 1 \/ n = 2 \/ n = 4 \/ n = 8) -> in_range 32 a -> Z.land a (not32 (n - 1)) = a / n * n.
Proof.
  intros Hn Ha. pose proof (align_down (Z.to_nat n) a) as H. rewrite Z2Nat.id in H by lia. apply H; [|done].
  unfold width. destruct Hn as [->|[->|[->| ->]]]; auto.
Qed.

(** The two tests of the addresses: the byte ranges have one in common. *)
Lemma overlap vaddr n wp len :
  (n = 1 \/ n = 2 \/ n = 4 \/ n = 8) -> in_range 32 vaddr -> vaddr mod n = 0 -> wp_ok wp len ->
  (vaddr =? Z.land (wp_vaddr wp) (not32 (n - 1))) || (Z.land vaddr (wp_len_mask wp) =? wp_vaddr wp) = true <->
  exists x, vaddr <= x < vaddr + n /\ wp_vaddr wp <= x < wp_vaddr wp + len.
Proof.
  intros Hn Hv Hal (Hl & Hw & Hwal & ->). rewrite !mask_down by done. rewrite orb_true_iff, !Z.eqb_eq.
  generalize dependent (wp_vaddr wp). intros w Hw Hwal. split.
  - intros H. exists (Z.max vaddr w). destruct Hn as [->|[->|[->| ->]]], Hl as [->|[->|[->| ->]]]; Z.to_euclidean_division_equations; lia.
  - intros (x & H1 & H2). destruct Hn as [->|[->|[->| ->]]], Hl as [->|[->|[->| ->]]]; Z.to_euclidean_division_equations; lia.
Qed.

(** The first watchpoint hit is recorded; a hit is found if there is one. *)
Lemma scan_hit vaddr len_mask flags l wp :
  wp ∈ l.*2 -> wp_hit vaddr len_mask flags wp = true ->
  exists l' p wp', scan vaddr len_mask flags l = (l', Some (p, with_wp_flags (Z.lor (wp_flags wp') BP_WATCHPOINT_HIT) wp')) /\ (p, wp') ∈ l /\
    wp_hit vaddr len_mask flags wp' = true.
Proof.
  induction l as [|[p wp1] l IH]; intros Hin Hh; [by apply elem_of_nil in Hin|]. cbn [scan].
  destruct (wp_hit vaddr len_mask flags wp1) eqn:E.
  - do 3 eexists. split; [done|]. split; [apply list_elem_of_here|done].
  - apply elem_of_cons in Hin as [->|Hin]; [cbn in Hh; congruence|]. destruct (IH Hin Hh) as (l' & q & wp' & -> & Hq & Hh').
    do 3 eexists. split; [done|]. split; [by apply list_elem_of_further|done].
Qed.

Lemma check_watchpoint_hit {G} vaddr offset len_mask flags env (g : G) wp :
  watchpoint_hit env = None -> wp ∈ (watchpoints env).*2 ->
  wp_hit (u32 (Z.land vaddr TARGET_PAGE_MASK + offset)) len_mask flags wp = true ->
  exists env' p wp', check_watchpoint vaddr offset len_mask flags env g = KExit env' g /\ watchpoint_hit env' = Some p /\ (p, wp') ∈ watchpoints env /\
    wp_hit (u32 (Z.land vaddr TARGET_PAGE_MASK + offset)) len_mask flags wp' = true.
Proof.
  intros Hn Hin Hh. unfold check_watchpoint, kbind, kget, kmod, kret, resume. rewrite Hn.
  destruct (scan_hit _ _ _ _ _ Hin Hh) as (l' & p & wp' & -> & Hp & Hh').
  destruct (has _ BP_STOP_BEFORE_ACCESS); do 3 eexists; split; done.
Qed.

(** ** What changes the TLB and the watchpoints *)

Section Watch.
Context {BD : Board}.

Inductive watch_op : Type :=
| WFill (dirty : Z -> Z) (e : tlb_entry)
| WFlush
| WFlushPage (a : Z)
| WResetDirty (start length : Z)
| WSetDirty (a : Z)
| WInsert (flags p : Z) (wp : CPUWatchpoint)
| WRemove (p : Z).

(** The TLB and [env->watchpoints]. *)
Definition wstate : Type := tlb * list (Z * CPUWatchpoint).

Definition run_watch_op (op : watch_op) (s : wstate) : option wstate :=
  let '(t, wps) := s in
  match op with
  | WFill dirty e => match tlb_set_page wps.*2 dirty (sec (t_paddr e)) e t with Some t' => Some (t', wps) | None => None end
  | WFlush => Some (tlb_flush_all t, wps)
  | WFlushPage a => Some (Tlb.tlb_flush_page a t, wps)
  | WResetDirty start length => Some (cpu_tlb_reset_dirty_all start length t, wps)
  | WSetDirty a => Some (tlb_set_dirty a t, wps)
  | WInsert flags p wp => Some (Tlb.tlb_flush_page (wp_vaddr wp) t, enqueue flags p wp wps)
  | WRemove p =>
      match linked p wps with
      | Some wp => Some (Tlb.tlb_flush_page (wp_vaddr wp) t, unlinked p wps)
      | None => None
      end
  end.

Definition watch_op_ok (op : watch_op) : Prop :=
  match op with
  | WFill _ e => fill_ok e /\ paddr_ok (t_paddr e)
  | WFlushPage a | WSetDirty a => in_range 32 a
  | WInsert _ _ wp => in_range 32 (wp_vaddr wp)
  | _ => True
  end.

Fixpoint run_watch (ops : list watch_op) (s : wstate) : option wstate :=
  match ops with
  | [] => Some s
  | op :: ops' => match run_watch_op op s with Some s' => run_watch ops' s' | None => None end
  end.

(** ** The invariant *)

(** An access that a watchpoint may concern, by the flags: stores, and loads if
    reads are watched. *)
Definition concerns (w : Z) (wp : CPUWatchpoint) : bool := (w =? 1) || ((w =? 0) && has (wp_flags wp) BP_MEM_READ).

Definition watched (s : wstate) : Prop :=
  forall idx a w te wp, 0 <= idx < NB_MMU_MODES -> in_range 32 a -> tlb_hit (fst s) idx a w = Some te ->
    wp ∈ (snd s).*2 -> page_of a = page_of (wp_vaddr wp) -> concerns w wp = true ->
    has (te_field w te) TLB_MMIO = true /\
    exists paddr, paddr_ok paddr /\ iotlb_at (fst s) idx (tlb_index a) = u64 (PHYS_SECTION_WATCH + paddr - page_of a).

Lemma watched_less t wps t' wps' :
  (forall idx a w te, tlb_hit t' idx a w = Some te -> tlb_hit t idx a w = Some te) -> iotlb t' = iotlb t ->
  (forall wp, wp ∈ wps'.*2 -> wp ∈ wps.*2) -> watched (t, wps) -> watched (t', wps').
Proof.
  intros Hh Hi Hw H idx a w te wp Hidx Ha Hte Hin Hp Hc. cbn [fst snd] in *. unfold iotlb_at. rewrite Hi.
  by apply (H idx a w te wp); auto.
Qed.

(** No row is left for a page that was flushed. *)
Lemma no_hit_flushed a b t idx w :
  0 <= idx < NB_MMU_MODES -> page_of a = page_of b -> tlb_hit (Tlb.tlb_flush_page b t) idx a w = None.
Proof.
  intros Hi Hp. unfold tlb_hit. replace (tlb_index a) with (tlb_index b) by (by rewrite <-tlb_index_page, <-Hp, tlb_index_page).
  unfold Tlb.tlb_flush_page. destruct (_ =? tlb_flush_addr t).
  - unfold te_at. cbn [tlb_table tlb_flush_all]. rewrite lookup_empty. cbn [default]. by rewrite empty_no_hit.
  - cbv zeta. rewrite !page_mask_of, Hp, tlb_index_page. change (te_at (tb_flush_jmp_cache ?v ?x) idx ?i) with (te_at x idx i).
    rewrite te_at_on_row, decide_True by done. unfold tlb_flush_entry. destruct (_ || _ || _) eqn:E.
    + rewrite <-page_mask_of. by rewrite empty_no_hit.
    + apply orb_false_iff in E as [[E1 E2]%orb_false_iff E3]. unfold te_field. destruct (w =? 0); [by rewrite E1|]. destruct (w =? 1); [by rewrite E2|by rewrite E3].
Qed.

Lemma flush_iotlb a t : iotlb (Tlb.tlb_flush_page a t) = iotlb t.
Proof. unfold Tlb.tlb_flush_page. by case_match. Qed.

Lemma watched_insert t wps flags p wp :
  watched (t, wps) -> watched (Tlb.tlb_flush_page (wp_vaddr wp) t, enqueue flags p wp wps).
Proof.
  intros H idx a w te wp' Hidx Ha Hte Hin Hp Hc. cbn [fst snd] in *. unfold iotlb_at. rewrite flush_iotlb. fold (iotlb_at t idx (tlb_index a)).
  apply list_elem_of_fmap in Hin as ([q x] & -> & Hin). cbn [snd] in *.
  assert ((q, x) = (p, wp) \/ (q, x) ∈ wps) as [[= -> ->]|Hin'].
  { unfold enqueue in Hin. case_match; rewrite ?elem_of_cons, ?elem_of_app, ?list_elem_of_singleton in Hin; tauto. }
  - by rewrite no_hit_flushed in Hte.
  - apply (H idx a w te x); try done; [by eapply flushed_hit|]. by apply (list_elem_of_fmap_2 snd) in Hin'.
Qed.

Lemma get_iotlb_watch wps s vaddr paddr prot wp :
  wp ∈ wps -> vaddr = page_of (wp_vaddr wp) -> has prot PAGE_WRITE || has (wp_flags wp) BP_MEM_READ = true ->
  memory_region_section_get_iotlb wps s vaddr paddr prot = (PHYS_SECTION_WATCH + paddr, true).
Proof.
  intros Hin Hv Hc. unfold memory_region_section_get_iotlb. destruct (existsb _ wps) eqn:E; [done|].
  assert (existsb (fun wp => (vaddr =? Z.land (wp_vaddr wp) TARGET_PAGE_MASK) && (has prot PAGE_WRITE || has (wp_flags wp) BP_MEM_READ)) wps = true) as E'; [|congruence].
  apply existsb_exists. exists wp. split; [by apply list_elem_of_In|]. by rewrite page_mask_of, Hv, Z.eqb_refl, Hc.
Qed.

(** The row of a page: the flag and the region of watchpoints, if one concerns it. *)
Lemma set_page_watch wps dirty e t t' idx i :
  tlb_set_page wps dirty (sec (t_paddr e)) e t = Some t' ->
  if decide (idx = t_idx e /\ i = tlb_index (t_vaddr e)) then
    forall wp w, wp ∈ wps -> t_vaddr e = page_of (wp_vaddr wp) -> concerns w wp = true -> te_field w (te_at t' idx i) <> INVALID ->
      has (te_field w (te_at t' idx i)) TLB_MMIO = true /\ iotlb_at t' idx i = u64 (PHYS_SECTION_WATCH + t_paddr e - t_vaddr e)
  else te_at t' idx i = te_at t idx i /\ iotlb_at t' idx i = iotlb_at t idx i.
Proof.
  destruct e as [vaddr paddr prot idx' size]. unfold tlb_set_page. cbn [t_vaddr t_paddr t_idx]. destruct (size <? TARGET_PAGE_SIZE); [done|].
  assert (forall t1, (if negb (size =? TARGET_PAGE_SIZE) then tlb_add_large_page vaddr size t else Some t) = Some t1 ->
    tlb_table t1 = tlb_table t /\ iotlb t1 = iotlb t) as Ht.
  { intros t1. unfold tlb_add_large_page. repeat case_match; intros; by simplify_eq. }
  destruct (if negb _ then _ else _) as [t1|]; [|done]. destruct (Ht t1 eq_refl) as [H1 H2]. clear Ht.
  destruct (sz _ <? _); [done|]. destruct (memory_region_section_get_iotlb wps (sec paddr) vaddr paddr prot) as [io watch] eqn:Eio.
  cbn [sec ram_section is_ram is_romd is_readonly ram_ptr ram_addr section_number xlat negb andb orb].
  intros [= <-]. match goal with |- context [mkTE ?a ?b ?c ?d] => set (te := mkTE a b c d) end.
  match goal with |- context [with_table ?x ?y] => set (t' := with_table x y) end.
  assert (te_at t' idx i = if decide (idx = idx' /\ i = tlb_index vaddr) then te else te_at t idx i) as ->
    by (rewrite <-te_at_insert; unfold te_at, t'; cbn [tlb_table with_table with_iotlb]; by rewrite H1).
  assert (iotlb_at t' idx i = if decide (idx = idx' /\ i = tlb_index vaddr) then u64 (io - vaddr) else iotlb_at t idx i) as ->
    by (rewrite <-iotlb_at_insert; unfold iotlb_at, t'; cbn [iotlb with_table with_iotlb]; by rewrite H2).
  case_decide as Hd; [|done]. intros wp w Hin Hv Hc. unfold te_field, concerns in *. destruct (Z.eqb_spec w 1) as [->|].
  - cbn [Z.eqb]. unfold te at 1 2. cbn [addr_write]. destruct (has prot PAGE_WRITE) eqn:Hw; [|by intros []]. intros _.
    rewrite (get_iotlb_watch wps (sec paddr) vaddr paddr prot wp Hin Hv) in Eio by (by rewrite Hw). injection Eio as <- <-. split; [|done].
    destruct (negb _); by rewrite ?has_lor, ?orb_true_r.
  - cbn [orb] in Hc. apply andb_true_iff in Hc as [->%Z.eqb_eq Hc]. cbn [Z.eqb]. unfold te at 1 2. cbn [addr_read].
    destruct (has prot PAGE_READ); [|by intros []]. intros _.
    rewrite (get_iotlb_watch wps (sec paddr) vaddr paddr prot wp Hin Hv) in Eio by (by rewrite Hc, orb_true_r). injection Eio as <- <-. split; [|done].
    by rewrite has_lor, orb_true_r.
Qed.

Lemma hit_tag t idx a w te : tlb_hit t idx a w = Some te <-> te = te_at t idx (tlb_index a) /\ Z.land (te_field w te) PAGE_OR_INVALID = page_of a.
Proof.
  unfold tlb_hit. rewrite page_mask_of. destruct (Z.eqb_spec (page_of a) (Z.land (te_field w (te_at t idx (tlb_index a))) PAGE_OR_INVALID)) as [E|E].
  - split; [intros [= <-]; by rewrite <-E|by intros [-> _]].
  - split; [done|]. intros [-> E']. by rewrite E' in E.
Qed.

Lemma tag_valid x a : Z.land x PAGE_OR_INVALID = page_of a -> x <> INVALID.
Proof. intros H ->. by apply (page_not_tag a). Qed.

Lemma watched_fill wps dirty e t t' :
  fill_ok e -> paddr_ok (t_paddr e) -> region_ok t -> tlb_set_page wps.*2 dirty (sec (t_paddr e)) e t = Some t' ->
  watched (t, wps) -> watched (t', wps) /\ region_ok t'.
Proof.
  intros Hok Hp Hreg Hset H. destruct (set_page_spec sec sec_size wps.*2 dirty e t Hok Hreg) as (t1 & te1 & Hset1 & Hc1 & Hreg1 & _ & _ & _ & Hte1).
  rewrite Hset in Hset1. injection Hset1 as <-. split; [|done]. intros idx a w te wp Hidx Ha [-> Htag]%hit_tag Hin Hpg Hc. cbn [fst snd] in *.
  pose proof (set_page_watch _ _ _ _ _ idx (tlb_index a) Hset) as Hrow. specialize (Hte1 idx (tlb_index a)). case_decide as Hd.
  - assert (page_of a = t_vaddr e) as Hv.
    { rewrite <-Htag, Hte1. apply (names_page _ (t_prot e) (access_of w)); [apply Hok| |rewrite <-Hte1; by eapply tag_valid].
      by apply (caches_field sec). }
    rewrite Hpg in Hv. destruct (Hrow wp w Hin (eq_sym Hv) Hc) as [H1 H2]; [by eapply tag_valid|]. split; [done|].
    exists (t_paddr e). by rewrite Hpg, Hv.
  - destruct Hrow as [E1 E2]. rewrite E1, E2 in *. apply (H idx a w _ wp); try done. by apply hit_tag.
Qed.

(** Rows change, but neither their pages nor the flag. *)
Lemma watched_rows t t' wps :
  iotlb t' = iotlb t ->
  (forall idx i w, Z.land (te_field w (te_at t' idx i)) PAGE_OR_INVALID = Z.land (te_field w (te_at t idx i)) PAGE_OR_INVALID /\
     (has (te_field w (te_at t idx i)) TLB_MMIO = true -> has (te_field w (te_at t' idx i)) TLB_MMIO = true)) ->
  watched (t, wps) -> watched (t', wps).
Proof.
  intros Hi Hf H idx a w te wp Hidx Ha [-> Htag]%hit_tag Hin Hpg Hc. cbn [fst snd] in *. destruct (Hf idx (tlb_index a) w) as [H1 H2].
  rewrite H1 in Htag. destruct (H idx a w _ wp Hidx Ha (proj2 (hit_tag _ _ _ _ _) (conj eq_refl Htag)) Hin Hpg Hc) as [H3 H4].
  split; [by apply H2|]. unfold iotlb_at. by rewrite Hi.
Qed.

Lemma watched_reset t wps start length : watched (t, wps) -> watched (cpu_tlb_reset_dirty_all start length t, wps).
Proof.
  apply watched_rows; [done|]. intros idx i w. rewrite te_at_reset. unfold tlb_reset_dirty_range.
  destruct (tlb_is_dirty_ram _); [|done]. destruct (_ <? length); [|done]. unfold te_field. destruct (w =? 0); [done|]. destruct (w =? 1); [|done].
  cbn [addr_write with_addr_write]. rewrite has_lor. split; [|by intros ->].
  rewrite Z.land_lor_distr_l. change (Z.land TLB_NOTDIRTY PAGE_OR_INVALID) with 0. by rewrite Z.lor_0_r.
Qed.

Lemma watched_set_dirty t wps a : watched (t, wps) -> watched (tlb_set_dirty a t, wps).
Proof.
  apply watched_rows; [done|]. intros idx i w. rewrite te_at_set_dirty. case_decide; [|done].
  split; [apply set_dirty_tag; by rewrite page_of_page|]. unfold tlb_set_dirty1. case_match eqn:E; [|done].
  unfold te_field. destruct (w =? 0); [done|]. destruct (w =? 1); [|done]. apply Z.eqb_eq in E. rewrite E, has_lor.
  unfold has at 1. by rewrite land_page by (rewrite ?page_of_page; done).
Qed.

Lemma region_flush_page a t : region_ok t -> region_ok (Tlb.tlb_flush_page a t).
Proof. intros H. unfold Tlb.tlb_flush_page. case_match; [|exact H]. by left. Qed.

Lemma watched_op op s s' :
  watch_op_ok op -> run_watch_op op s = Some s' -> watched s -> region_ok (fst s) -> watched s' /\ region_ok (fst s').
Proof.
  destruct s as [t wps]. intros Hop Hrun Hw Hr. destruct op as [dirty e| |a|start length|a|flags p wp|p]; cbn [run_watch_op watch_op_ok fst] in *.
  - destruct (tlb_set_page _ _ _ _ _) as [t'|] eqn:E; [|done]. injection Hrun as <-. destruct Hop. by eapply watched_fill.
  - injection Hrun as <-. split; [|by left]. intros idx a w te wp _ _ [-> Htag]%hit_tag. exfalso. cbn [fst] in Htag. unfold te_at in Htag.
    cbn [tlb_table tlb_flush_all] in Htag. rewrite lookup_empty in Htag. apply tag_valid in Htag. apply Htag. by apply dead_field.
  - injection Hrun as <-. split; [|by apply region_flush_page]. eapply watched_less; [|apply flush_iotlb|done|done]. intros idx b w te. apply flushed_hit.
  - injection Hrun as <-. split; [by apply watched_reset|done].
  - injection Hrun as <-. split; [by apply watched_set_dirty|done].
  - injection Hrun as <-. split; [by apply watched_insert|by apply region_flush_page].
  - destruct (linked p wps) as [wp|]; [|done]. injection Hrun as <-. split; [|by apply region_flush_page].
    eapply watched_less; [|apply flush_iotlb| |done]; [intros idx b w te; apply flushed_hit|]. unfold unlinked.
    intros wp' (x & -> & [_ Hx]%list_elem_of_filter)%list_elem_of_fmap. by apply list_elem_of_fmap_2.
Qed.

Lemma watched_ops ops s s' :
  Forall watch_op_ok ops -> run_watch ops s = Some s' -> watched s -> region_ok (fst s) -> watched s' /\ region_ok (fst s').
Proof.
  intros Hops. revert s. induction Hops as [|op ops Hop _ IH]; intros s Hrun Hw Hr; cbn [run_watch] in Hrun; [by injection Hrun as <-|].
  destruct (run_watch_op op s) as [s1|] eqn:E; [|done]. destruct (watched_op op s s1 Hop E Hw Hr). by apply (IH s1).
Qed.

(** ** Accesses *)

Lemma watch_iotlb io p a :
  paddr_ok p -> io = u64 (PHYS_SECTION_WATCH + p - page_of a) ->
  Z.land io (TARGET_PAGE_SIZE - 1) = PHYS_SECTION_WATCH /\ u64 (Z.land io TARGET_PAGE_MASK + a) = p + page_offset a.
Proof.
  intros [Hp Hpp] ->. rewrite page_mask, page_offset_mod. change (TARGET_PAGE_SIZE - 1) with (Z.ones 12). rewrite Z.land_ones by done.
  change (2 ^ 12) with 4096. change PHYS_SECTION_WATCH with 3.
  assert (u64 (3 + p - page_of a) = u64 (p - page_of a) + 3 /\ u64 (p - page_of a) mod 4096 = 0) as [-> Hq].
  { unfold u64, wrap, page_of in *. Z.to_euclidean_division_equations. lia. }
  rewrite Z.add_mod, Hq by lia. split; [done|].
  assert ((u64 (p - page_of a) + 3) / 4096 * 4096 = u64 (p - page_of a)) as -> by (Z.to_euclidean_division_equations; lia).
  unfold u64, wrap. rewrite Zplus_mod_idemp_l. pose proof (Z.mod_pos_bound a 4096 ltac:(lia)).
  replace (p - page_of a + a) with (p + a mod 4096); [apply Z.mod_small; lia|].
  unfold page_of. pose proof (Z.div_mod a 4096). lia.
Qed.

Lemma mmio_flagged x : has x TLB_MMIO = true -> tlb_flags x = true.
Proof.
  intros H. unfold tlb_flags. apply negb_true_iff, Z.eqb_neq. intros E. unfold has in H. apply negb_true_iff, Z.eqb_neq in H. apply H.
  change TLB_MMIO with (Z.land (TARGET_PAGE_SIZE - 1) TLB_MMIO). by rewrite Z.land_assoc, E.
Qed.

Lemma mmio_not_fast n a x : width n -> has x TLB_MMIO = true -> (x =? fast_tag n a) = false.
Proof.
  intros Hn H. apply Z.eqb_neq. intros ->. unfold fast_tag, has in H. rewrite <-Z.land_assoc in H.
  replace (Z.land (Z.lor TARGET_PAGE_MASK (Z.of_nat n - 1)) TLB_MMIO) with 0 in H by (by destruct Hn as [->|[->|[->| ->]]]). by rewrite Z.land_0_r in H.
Qed.

(** The access leaves the instruction. *)
Definition stops {A} (r : kres tmem A) : Prop := match r with KExit _ _ | KVmexit _ _ _ _ => True | _ => False end.

Lemma raise_stops {A} i err env g : stops (raise (A := A) i err env g).
Proof.
  unfold raise, lift, raise_exception_err, raise_interrupt2, svm_check_exception, check_exception, xbind, xget, xret, vmexit, xmod, xloop_exit.
  cbn [negb fst snd]. destruct (in_svm env && Z.testbit (intercept_exceptions env) i); [done|].
  destruct (old_exception env =? EXCP08_DBLE); [by destruct (in_svm env)|].
  destruct (_ || (_ && _)); cbn [fst snd]; by destruct (_ || _ || _).
Qed.

(** A page in the TLB or entered now is flagged. *)
Lemma watched_redo {A} (body : CPUTLBEntry -> K tmem A) idx a w wp env g :
  watched (tm_tlb g, watchpoints env) -> region_ok (tm_tlb g) -> 0 <= idx < NB_MMU_MODES -> in_range 32 a -> a20_mask env = -1 ->
  w = 0 \/ w = 1 -> wp ∈ (watchpoints env).*2 -> page_of a = page_of (wp_vaddr wp) -> concerns w wp = true ->
  (forall te g1 paddr, has (te_field w te) TLB_MMIO = true -> paddr_ok paddr ->
     iotlb_at (tm_tlb g1) idx (tlb_index a) = u64 (PHYS_SECTION_WATCH + paddr - page_of a) -> stops (body te env g1)) ->
  stops (redo REDO w a idx body env g).
Proof.
  intros Hw Hr Hi Ha H20 Hrw Hin Hpg Hc Hb. unfold REDO. cbn [redo]. destruct (tlb_hit (tm_tlb g) idx a w) as [te|] eqn:Hh.
  { destruct (Hw idx a w te wp Hi Ha Hh Hin Hpg Hc) as (H1 & paddr & H2 & H3). by eapply Hb. }
  unfold kbind, TlbMmu.tlb_fill. destruct (cpu_x86_handle_mmu_fault a w idx (mkMachine env (tm_phys g))) as [[e|] m'] eqn:Hm.
  - assert (plain_access env w) as Hpl by (destruct Hrw; [by left|right; by left]).
    destruct (handle_fills a w idx env (tm_phys g) e m' Ha Hi H20 Hpl Hm) as [Hcpu [Fok Fi Fv Fp Fpr _ _]].
    change (ram_section ram_base (t_paddr e)) with (sec (t_paddr e)).
    destruct (set_page_spec sec sec_size (snd <$> watchpoints env) (tm_dirty g) e (tm_tlb g) Fok Hr) as (t' & _ & Hset & _). rewrite Hset, Hcpu. cbn [redo].
    destruct (watched_fill _ _ _ _ _ Fok Fp Hr Hset Hw) as [Hw' _].
    destruct (fill_hits sec sec_size _ (tm_dirty g) e (tm_tlb g) t' a w Fok Hr Hset (eq_sym Fv) Fpr) as [te Hte]. rewrite Fi in Hte. cbn [tm_tlb]. rewrite Hte.
    destruct (Hw' idx a w te wp Hi Ha Hte Hin Hpg Hc) as (H1 & paddr & H2 & H3). by eapply Hb.
  - pose proof (raise_stops (A := unit) (exception_index (m_cpu m')) (error_code (m_cpu m')) (m_cpu m') (with_phys (m_phys m') g)) as Hs.
    by destruct (raise _ _ _ _).
Qed.

(** Bytes in common are on one page. *)
Lemma overlap_page n a wp len x :
  (n = 1 \/ n = 2 \/ n = 4)%nat -> a mod Z.of_nat n = 0 -> wp_ok wp len ->
  a <= x < a + Z.of_nat n -> wp_vaddr wp <= x < wp_vaddr wp + len -> page_of a = page_of (wp_vaddr wp).
Proof.
  intros Hn Hal (Hl & _ & Hw & _) H1 H2. generalize dependent (wp_vaddr wp). intros v Hw H2. unfold page_of.
  destruct Hn as [->|[->| ->]], Hl as [->|[->|[->| ->]]]; Z.to_euclidean_division_equations; lia.
Qed.

Lemma not_misaligned n a : (n = 1 \/ n = 2 \/ n = 4)%nat -> a mod Z.of_nat n = 0 -> misaligned n a = false.
Proof.
  intros Hn Ha. unfold misaligned. apply negb_false_iff, Z.eqb_eq. destruct Hn as [->|[->| ->]].
  - apply Z.land_0_r.
  - change (Z.of_nat 2 - 1) with (Z.ones 1). by rewrite Z.land_ones.
  - change (Z.of_nat 4 - 1) with (Z.ones 2). by rewrite Z.land_ones.
Qed.

(** The direct path is not taken. *)
Lemma watched_not_fast idx n a w wp env g :
  watched (tm_tlb g, watchpoints env) -> 0 <= idx < NB_MMU_MODES -> in_range 32 a -> width n -> a mod Z.of_nat n = 0 ->
  wp ∈ (watchpoints env).*2 -> page_of a = page_of (wp_vaddr wp) -> concerns w wp = true ->
  (te_field w (te_at (tm_tlb g) idx (tlb_index a)) =? fast_tag n a) = false.
Proof.
  intros Hw Hi Ha Hn Hal Hin Hpg Hc. destruct (Z.eqb_spec (te_field w (te_at (tm_tlb g) idx (tlb_index a))) (fast_tag n a)) as [E|]; [|done].
  assert (tlb_hit (tm_tlb g) idx a w = Some (te_at (tm_tlb g) idx (tlb_index a))) as Hh.
  { apply hit_tag. split; [done|]. rewrite E, fast_tag_eq, Hal, Z.add_0_r by done. rewrite <-(Z.lor_0_r (page_of a)) at 1. apply tag_page; [by rewrite page_of_page|done]. }
  destruct (Hw idx a w _ wp Hi Ha Hh Hin Hpg Hc) as [H1 _]. pose proof (mmio_not_fast n a _ Hn H1) as H2. by rewrite E, Z.eqb_refl in H2.
Qed.

(** The region of watchpoints is that of exec.c. *)
Class Watches : Prop := {
  io_watch_read addr vaddr n : io_mem_read PHYS_SECTION_WATCH addr vaddr n = watch_mem_read vaddr addr n;
  io_watch_write addr vaddr val n : io_mem_write PHYS_SECTION_WATCH addr vaddr val n = watch_mem_write vaddr addr val n
}.
Context {WT : Watches}.

(** The test in the region of watchpoints fails the access. *)
Lemma check_stops {A} (n : nat) a paddr flags env g wp len x (k : unit -> K tmem A) :
  (n = 1 \/ n = 2 \/ n = 4)%nat -> in_range 32 a -> a mod Z.of_nat n = 0 -> paddr_ok paddr -> watchpoint_hit env = None ->
  wp ∈ (watchpoints env).*2 -> wp_ok wp len -> a <= x < a + Z.of_nat n -> wp_vaddr wp <= x < wp_vaddr wp + len -> has (wp_flags wp) flags = true ->
  stops (kbind (check_watchpoint a (Z.land (paddr + page_offset a) (TARGET_PAGE_SIZE - 1)) (not32 (Z.of_nat n - 1)) flags) k env g).
Proof.
  intros Hn Ha Hal [Hp Hpp] Hnone Hin Hwp H1 H2 Hfl.
  assert (u32 (Z.land a TARGET_PAGE_MASK + Z.land (paddr + page_offset a) (TARGET_PAGE_SIZE - 1)) = a) as Ev.
  { change (TARGET_PAGE_SIZE - 1) with (Z.ones 12). rewrite page_mask_of, Z.land_ones, page_offset_mod by done. change (2 ^ 12) with 4096.
    replace ((paddr + a mod 4096) mod 4096) with (a mod 4096) by (unfold page_of in Hpp; Z.to_euclidean_division_equations; lia).
    rewrite u32_id; unfold page_of; Z.to_euclidean_division_equations; lia. }
  assert (wp_hit a (not32 (Z.of_nat n - 1)) flags wp = true) as Hh.
  { unfold wp_hit. rewrite Hfl, andb_true_r. apply (overlap a (Z.of_nat n) wp len); [lia|done..|by exists x]. }
  rewrite <-Ev in Hh at 1. destruct (check_watchpoint_hit _ _ _ _ _ g _ Hnone Hin Hh) as (env' & p & wp' & E & _). unfold kbind. by rewrite E.
Qed.

(** C20: no access to watched bytes goes unnoticed. After any pages were entered and
    flushed, dirty flags changed and watchpoints set and removed, a load of bytes of
    which one is watched for reads, or a store of bytes of which one is watched for
    writes, does not complete: a fault or the watchpoint takes it out of the
    instruction, whether or not the page was in the TLB. *)
Theorem watchpoints_stop ops t wps env g idx (n : nat) a v wp len x :
  Forall watch_op_ok ops -> run_watch ops (tlb_reset, []) = Some (t, wps) -> tm_tlb g = t -> watchpoints env = wps ->
  watchpoint_hit env = None -> a20_mask env = -1 -> 0 <= idx < NB_MMU_MODES ->
  (n = 1 \/ n = 2 \/ n = 4)%nat -> in_range 32 a -> a mod Z.of_nat n = 0 ->
  wp ∈ wps.*2 -> wp_ok wp len -> a <= x < a + Z.of_nat n -> wp_vaddr wp <= x < wp_vaddr wp + len ->
  (has (wp_flags wp) BP_MEM_READ = true -> stops (cpu_ld 0 n a idx env g)) /\
  (has (wp_flags wp) BP_MEM_WRITE = true -> stops (cpu_st n a v idx env g)).
Proof.
  intros Hops Hrun <- <- Hnone H20 Hi Hn Ha Hal Hin Hwp H1 H2. destruct (watched_ops _ _ _ Hops Hrun) as [Hw Hr]; [|by left|].
  { intros idx' a' w' te wp' _ _ [-> Htag]%hit_tag. exfalso. apply tag_valid in Htag. apply Htag. by apply dead_field. }
  pose proof (overlap_page n a wp len x Hn Hal Hwp H1 H2) as Hpg. assert (width n) as Hn' by (unfold width; tauto). split; intros Hfl.
  - unfold cpu_ld. rewrite (watched_not_fast idx n a 0 wp env g) by done. eapply watched_redo; try done; [by left|].
    intros te g1 paddr Hm Hp Hio. cbv zeta. rewrite mmio_flagged, not_misaligned by done. unfold ld_io, io_read. cbv zeta.
    destruct (watch_iotlb _ _ _ Hp Hio) as [-> ->]. rewrite io_watch_read. unfold watch_mem_read. by eapply check_stops.
  - unfold cpu_st. cbv zeta. change (addr_write (te_at (tm_tlb g) idx (tlb_index a))) with (te_field 1 (te_at (tm_tlb g) idx (tlb_index a))). rewrite (watched_not_fast idx n a 1 wp env g) by done.
    eapply watched_redo; try done; [by right|]. intros te g1 paddr Hm Hp Hio. cbv zeta. change (addr_write te) with (te_field 1 te). rewrite mmio_flagged, not_misaligned by done. unfold st_io, io_write. cbv zeta.
    destruct (watch_iotlb _ _ _ Hp Hio) as [-> ->]. change (PHYS_SECTION_WATCH =? PHYS_SECTION_NOTDIRTY) with false.
    rewrite io_watch_write. unfold watch_mem_write. by eapply check_stops.
Qed.
End Watch.

(** RAM and the region of watchpoints. *)
Definition watch_board : Board := {|
  ram_base := 0x7f0000000000;
  tb_invalidate_phys_page_fast _ _ dc := dc;
  io_mem_read mr addr vaddr n := if mr =? PHYS_SECTION_WATCH then watch_mem_read vaddr addr n else kabort;
  io_mem_write mr addr vaddr val n := if mr =? PHYS_SECTION_WATCH then watch_mem_write vaddr addr val n else kabort
|}.
Lemma watch_board_watches : @Watches watch_board.
Proof. by split. Qed.

(** Four bytes at 0x3abc are watched after their page was entered. *)
Definition demo_wp : CPUWatchpoint := mkWp 0x3abc 0xfffffffc (BP_CPU + BP_MEM_ACCESS).
Definition watch_run : list watch_op := [WFill (fun _ => 0xff) code_page; WInsert BP_CPU 0 demo_wp].
Definition watch_state : wstate := default (tlb_reset, []) (@run_watch watch_board watch_run (tlb_reset, [])).
Definition watch_env : CPUX86State := with_watchpoints [(0, demo_wp)] demo_env.

Lemma watchpoints_stop_witness :
  stops (@cpu_ld watch_board 0 2 0x3abe 1 watch_env (mkTM demo_phys (fst watch_state) (fun _ => 0xff))) /\
  stops (@cpu_st watch_board 2 0x3abe 0x1234 1 watch_env (mkTM demo_phys (fst watch_state) (fun _ => 0xff))).
Proof.
  destruct (@watchpoints_stop watch_board watch_board_watches watch_run (fst watch_state) (snd watch_state) watch_env
    (mkTM demo_phys (fst watch_state) (fun _ => 0xff)) 1 2 0x3abe 0x1234 demo_wp 4 0x3abe) as [H1 H2].
  - apply Forall_cons; split; [|apply Forall_cons; split; [|by apply Forall_nil]].
    + split; [split|split]; [reflexivity|cbn; lia|unfold NB_MMU_MODES; cbn; lia|exists 12; split; [reflexivity|lia]|cbn; lia|reflexivity].
    + cbn. lia.
  - vm_compute. reflexivity.
  - reflexivity.
  - vm_compute. reflexivity.
  - reflexivity.
  - reflexivity.
  - unfold NB_MMU_MODES. lia.
  - by right; left.
  - lia.
  - reflexivity.
  - vm_compute. by left.
  - split; [by right; right; left|]. split; [cbn; lia|]. by split.
  - lia.
  - cbn. lia.
  - split; [apply H1|apply H2]; reflexivity.
Defined.
