(* ===== verification/Msr.v ===== *)
(** * Model-specific registers

    RDMSR and WRMSR (target-i386/misc_helper.c) as compiled for the 32-bit target:
    every register, the writes that are ignored, and the arrays behind the memory
    type and machine check registers with their bounds. *)

From stdpp Require Import base list.
From Stdlib Require Import ZArith Lia.
From S2P Require Import Prelude Cpu CcHelper Excp Guest Mmu Seg SegSpec SegTask SoftMmu TlbWalk PhysMem CtrlRegs.

Local Open Scope Z_scope.
Local Open Scope k_scope.

Definition MCG_CTL_P : Z := Z.shiftl 1 8.
Definition MSR_IA32_APICBASE : Z := 0x1b.
Definition MSR_MTRRcap : Z := 0xfe.
Definition MSR_IA32_SYSENTER_CS : Z := 0x174.
Definition MSR_IA32_SYSENTER_ESP : Z := 0x175.
Definition MSR_IA32_SYSENTER_EIP : Z := 0x176.
Definition MSR_MCG_CAP : Z := 0x179.
Definition MSR_MCG_STATUS : Z := 0x17a.
Definition MSR_MCG_CTL : Z := 0x17b.
Definition MSR_IA32_PERF_STATUS : Z := 0x198.
Definition MSR_IA32_MISC_ENABLE : Z := 0x1a0.
Definition MSR_PAT : Z := 0x277.
Definition MSR_MTRRdefType : Z := 0x2ff.
Definition MSR_MC0_CTL : Z := 0x400.
Definition MSR_EFER : Z := 0xc0000080.
Definition MSR_STAR : Z := 0xc0000081.
Definition MSR_TSC_AUX : Z := 0xc0000103.
Definition MSR_VM_HSAVE_PA : Z := 0xc0010117.
Definition MSR_EFER_SCE : Z := Z.shiftl 1 0.
Definition MSR_EFER_LME : Z := Z.shiftl 1 8.
Definition MSR_EFER_FFXSR : Z := Z.shiftl 1 14.
Definition CPUID_MTRR : Z := Z.shiftl 1 12.
Definition CPUID_EXT2_SYSCALL : Z := Z.shiftl 1 11.
Definition CPUID_EXT2_NX : Z := Z.shiftl 1 20.
Definition CPUID_EXT2_FFXSR : Z := Z.shiftl 1 25.
Definition CPUID_EXT2_LM : Z := Z.shiftl 1 29.
Definition CPUID_EXT3_SVM : Z := Z.shiftl 1 2.

(** ** Fields *)

Definition on_msrs (f : MsrState -> MsrState) (env : CPUX86State) : CPUX86State := with_msrs (f (msrs env)) env.
Definition with_pat (v : Z) (m : MsrState) : MsrState :=
  mkMsr v (mtrr_fixed m) (mtrr_deftype m) (mtrr_var m) (mcg_status m) (mcg_cap m) (mcg_ctl m) (mce_banks m) (tsc_aux m) (msr_ia32_misc_enable m).
Definition with_mtrr_fixed (v : list Z) (m : MsrState) : MsrState :=
  mkMsr (pat m) v (mtrr_deftype m) (mtrr_var m) (mcg_status m) (mcg_cap m) (mcg_ctl m) (mce_banks m) (tsc_aux m) (msr_ia32_misc_enable m).
Definition with_mtrr_deftype (v : Z) (m : MsrState) : MsrState :=
  mkMsr (pat m) (mtrr_fixed m) v (mtrr_var m) (mcg_status m) (mcg_cap m) (mcg_ctl m) (mce_banks m) (tsc_aux m) (msr_ia32_misc_enable m).
Definition with_mtrr_var (v : list (Z * Z)) (m : MsrState) : MsrState :=
  mkMsr (pat m) (mtrr_fixed m) (mtrr_deftype m) v (mcg_status m) (mcg_cap m) (mcg_ctl m) (mce_banks m) (tsc_aux m) (msr_ia32_misc_enable m).
Definition with_mcg_status (v : Z) (m : MsrState) : MsrState :=
  mkMsr (pat m) (mtrr_fixed m) (mtrr_deftype m) (mtrr_var m) v (mcg_cap m) (mcg_ctl m) (mce_banks m) (tsc_aux m) (msr_ia32_misc_enable m).
Definition with_mcg_ctl (v : Z) (m : MsrState) : MsrState :=
  mkMsr (pat m) (mtrr_fixed m) (mtrr_deftype m) (mtrr_var m) (mcg_status m) (mcg_cap m) v (mce_banks m) (tsc_aux m) (msr_ia32_misc_enable m).
Definition with_mce_banks (v : list Z) (m : MsrState) : MsrState :=
  mkMsr (pat m) (mtrr_fixed m) (mtrr_deftype m) (mtrr_var m) (mcg_status m) (mcg_cap m) (mcg_ctl m) v (tsc_aux m) (msr_ia32_misc_enable m).
Definition with_tsc_aux (v : Z) (m : MsrState) : MsrState :=
  mkMsr (pat m) (mtrr_fixed m) (mtrr_deftype m) (mtrr_var m) (mcg_status m) (mcg_cap m) (mcg_ctl m) (mce_banks m) v (msr_ia32_misc_enable m).
Definition with_misc_enable (v : Z) (m : MsrState) : MsrState :=
  mkMsr (pat m) (mtrr_fixed m) (mtrr_deftype m) (mtrr_var m) (mcg_status m) (mcg_cap m) (mcg_ctl m) (mce_banks m) (tsc_aux m) v.

(** The index behind the registers for fixed ranges. *)
Definition fixed_index (ecx : Z) : option nat :=
  if ecx =? 0x250 then Some 0%nat
  else if (ecx =? 0x258) || (ecx =? 0x259) then Some (Z.to_nat (ecx - 0x258 + 1))
  else if (0x268 <=? ecx) && (ecx <=? 0x26f) then Some (Z.to_nat (ecx - 0x268 + 3)) else None.

(** Whether a register of a variable range is its mask, and the index. *)
Definition var_index (ecx : Z) : option (bool * nat) :=
  if (0x200 <=? ecx) && (ecx <=? 0x20f) then
    if Z.even ecx then Some (false, Z.to_nat ((ecx - 0x200) / 2)) else Some (true, Z.to_nat ((ecx - 0x201) / 2))
  else None.

Definition bank_index (env : CPUX86State) (ecx : Z) : option nat :=
  if (MSR_MC0_CTL <=? ecx) && (ecx <? MSR_MC0_CTL + Z.land (4 * mcg_cap (msrs env)) 0xff)
  then Some (Z.to_nat (ecx - MSR_MC0_CTL)) else None.

(** The bits of EFER that the CPU has. *)
Definition efer_mask (env : CPUX86State) : Z :=
  let edx := feature env FEAT_8000_0001_EDX in
  let bit (b : bool) (m : Z) (x : Z) := if b then Z.lor x m else x in
  bit (has edx CPUID_EXT2_FFXSR) MSR_EFER_FFXSR
    (bit (has (feature env FEAT_8000_0001_ECX) CPUID_EXT3_SVM) MSR_EFER_SVME
      (bit (has edx CPUID_EXT2_NX) MSR_EFER_NXE
        (bit (has edx CPUID_EXT2_FFXSR) MSR_EFER_FFXSR
          (bit (has edx CPUID_EXT2_LM) MSR_EFER_LME
            (bit (has edx CPUID_EXT2_SYSCALL) MSR_EFER_SCE 0))))).

Definition ALL64 : Z := u64 (-1).

Section Msr.
Context {G : Type} `{!SoftMmu G, !PhysMem G, !Chipset G}.

(** An index outside the array is an abort. *)
Definition kset {A} (i : nat) (l : list A) (k : K G unit) : K G unit := if Nat.ltb i (length l) then k else kabort.

Definition write_msr (ecx val : Z) : K G unit :=
  env <- kget ;;
  let m := msrs env in
  if ecx =? MSR_IA32_SYSENTER_CS then kmod (with_sysenter_cs (Z.land val 0xffff))
  else if ecx =? MSR_IA32_SYSENTER_ESP then kmod (with_sysenter_esp (u32 val))
  else if ecx =? MSR_IA32_SYSENTER_EIP then kmod (with_sysenter_eip (u32 val))
  else if ecx =? MSR_IA32_APICBASE then kmem (cpu_set_apic_base val)
  else if ecx =? MSR_EFER then
    kmod (cpu_load_efer (Z.lor (Z.land (efer env) (Z.lnot (efer_mask env))) (Z.land val (efer_mask env))))
  else if ecx =? MSR_STAR then kmod (with_star val)
  else if ecx =? MSR_PAT then kmod (on_msrs (with_pat val))
  else if ecx =? MSR_VM_HSAVE_PA then kmod (on_svm (with_vm_hsave val))
  else match var_index ecx with
  | Some (mask, i) =>
      kset i (mtrr_var m)
        (kmod (on_msrs (fun m =>
           let '(b, k) := nth i (mtrr_var m) (0, 0) in
           with_mtrr_var (<[i := if mask : bool then (b, val) else (val, k)]> (mtrr_var m)) m)))
  | None =>
  match fixed_index ecx with
  | Some i => kset i (mtrr_fixed m) (kmod (on_msrs (fun m => with_mtrr_fixed (<[i := val]> (mtrr_fixed m)) m)))
  | None =>
  if ecx =? MSR_MTRRdefType then kmod (on_msrs (with_mtrr_deftype val))
  else if ecx =? MSR_MCG_STATUS then kmod (on_msrs (with_mcg_status val))
  else if ecx =? MSR_MCG_CTL then
    if has (mcg_cap m) MCG_CTL_P && ((val =? 0) || (val =? ALL64)) then kmod (on_msrs (with_mcg_ctl val)) else kret tt
  else if ecx =? MSR_TSC_AUX then kmod (on_msrs (with_tsc_aux val))
  else if ecx =? MSR_IA32_MISC_ENABLE then kmod (on_msrs (with_misc_enable val))
  else match bank_index env ecx with
  | Some i =>
      if negb (Z.land (ecx - MSR_MC0_CTL) 3 =? 0) || (val =? 0) || (val =? ALL64)
      then kset i (mce_banks m) (kmod (on_msrs (fun m => with_mce_banks (<[i := val]> (mce_banks m)) m)))
      else kret tt
  | None => kret tt
  end end end.

Definition helper_wrmsr : K G unit :=
  cpu_svm_check_intercept_param SVM_EXIT_MSR 1 ;;
  env <- kget ;;
  let val := Z.lor (u32 (reg env R_EAX)) (Z.shiftl (u32 (reg env R_EDX)) 32) in
  write_msr (u32 (reg env R_ECX)) val.

Definition kread {A} (o : option A) (f : A -> Z) : K G Z := match o with Some x => kret (f x) | None => kabort end.

Definition read_msr (ecx : Z) : K G Z :=
  env <- kget ;;
  let m := msrs env in
  if ecx =? MSR_IA32_SYSENTER_CS then kret (sysenter_cs env)
  else if ecx =? MSR_IA32_SYSENTER_ESP then kret (sysenter_esp env)
  else if ecx =? MSR_IA32_SYSENTER_EIP then kret (sysenter_eip env)
  else if ecx =? MSR_IA32_APICBASE then fun env g => KRet (cpu_get_apic_base g) env g
  else if ecx =? MSR_EFER then kret (efer env)
  else if ecx =? MSR_STAR then kret (star env)
  else if ecx =? MSR_PAT then kret (pat m)
  else if ecx =? MSR_VM_HSAVE_PA then kret (vm_hsave (svm env))
  else if ecx =? MSR_IA32_PERF_STATUS then kret (Z.lor 1000 (Z.shiftl 4 40))
  else match var_index ecx with
  | Some (mask, i) => kread (mtrr_var m !! i) (fun r => if mask : bool then r.2 else r.1)
  | None =>
  match fixed_index ecx with
  | Some i => kread (mtrr_fixed m !! i) id
  | None =>
  if ecx =? MSR_MTRRdefType then kret (mtrr_deftype m)
  else if ecx =? MSR_MTRRcap then
    kret (if has (feature env FEAT_1_EDX) CPUID_MTRR then Z.lor (Z.lor 8 (Z.shiftl 1 8)) (Z.shiftl 1 10) else 0)
  else if ecx =? MSR_MCG_CAP then kret (mcg_cap m)
  else if ecx =? MSR_MCG_CTL then kret (if has (mcg_cap m) MCG_CTL_P then mcg_ctl m else 0)
  else if ecx =? MSR_MCG_STATUS then kret (mcg_status m)
  else if ecx =? MSR_IA32_MISC_ENABLE then kret (msr_ia32_misc_enable m)
  else match bank_index env ecx with
  | Some i => kread (mce_banks m !! i) id
  | None => kret 0
  end end end.

Definition helper_rdmsr : K G unit :=
  cpu_svm_check_intercept_param SVM_EXIT_MSR 0 ;;
  env <- kget ;;
  val <- read_msr (u32 (reg env R_ECX)) ;;
  kmod (fun env => put_reg R_EDX (u32 (Z.shiftr val 32)) (put_reg R_EAX (u32 val) env)).
End Msr.

(** ** Bounds and round trips *)

(** As [x86_cpu_initfn] and [mce_init] set the state up. *)
Record msr_ok (env : CPUX86State) : Prop := {
  mk_fixed : length (mtrr_fixed (msrs env)) = 11%nat;
  mk_var : length (mtrr_var (msrs env)) = 8%nat;
  mk_banks : length (mce_banks (msrs env)) = 40%nat;
  mk_cap : Z.land (4 * mcg_cap (msrs env)) 0xff <= 40;
  mk_regs : length (regs env) = 8%nat
}.

Lemma var_bound ecx mask i : var_index ecx = Some (mask, i) -> (i < 8)%nat.
Proof.
  unfold var_index. destruct (Z.leb_spec 0x200 ecx), (Z.leb_spec ecx 0x20f); cbn [andb]; try done.
  destruct (Z.even ecx); intros [= _ <-]; Z.to_euclidean_division_equations; lia.
Qed.

Lemma fixed_bound ecx i : fixed_index ecx = Some i -> (i < 11)%nat.
Proof.
  unfold fixed_index. destruct (ecx =? 0x250); [intros [= <-]; lia|].
  destruct (Z.eqb_spec ecx 0x258), (Z.eqb_spec ecx 0x259); cbn [orb]; try (intros [= <-]; lia).
  destruct (Z.leb_spec 0x268 ecx), (Z.leb_spec ecx 0x26f); cbn [andb]; try done. intros [= <-]. lia.
Qed.

Lemma bank_bound env ecx i : msr_ok env -> bank_index env ecx = Some i -> (i < 40)%nat.
Proof.
  intros Hok. unfold bank_index. pose proof (mk_cap _ Hok). unfold MSR_MC0_CTL. destruct (Z.leb_spec 0x400 ecx); cbn [andb]; [|done].
  destruct (Z.ltb_spec ecx (0x400 + Z.land (4 * mcg_cap (msrs env)) 0xff)); [|done]. intros [= <-]. lia.
Qed.

(** Different registers have different places. *)
Lemma var_inj ecx ecx' mask i : var_index ecx = Some (mask, i) -> var_index ecx' = Some (mask, i) -> ecx = ecx'.
Proof.
  unfold var_index. destruct (Z.leb_spec 0x200 ecx), (Z.leb_spec ecx 0x20f); cbn [andb]; try done.
  destruct (Z.leb_spec 0x200 ecx'), (Z.leb_spec ecx' 0x20f); cbn [andb]; try done. rewrite !Zeven_mod.
  destruct (Zeq_bool (ecx mod 2) 0) eqn:E, (Zeq_bool (ecx' mod 2) 0) eqn:E'; intros [= <- <-] [= Hi];
    (apply Zeq_bool_eq in E || apply Zeq_bool_neq in E); (apply Zeq_bool_eq in E' || apply Zeq_bool_neq in E');
    apply (f_equal Z.of_nat) in Hi; rewrite !Z2Nat.id in Hi by (apply Z.div_pos; Z.to_euclidean_division_equations; lia);
    Z.to_euclidean_division_equations; lia.
Qed.

Lemma fixed_inj ecx ecx' i : fixed_index ecx = Some i -> fixed_index ecx' = Some i -> ecx = ecx'.
Proof.
  unfold fixed_index. intros H H'. repeat case_match; simplify_eq; repeat match goal with H : (_ || _) = true |- _ => apply orb_true_iff in H end;
    repeat match goal with H : (_ && _) = true |- _ => apply andb_true_iff in H end; lia.
Qed.

Section Laws.
Context {G : Type} `{!SoftMmu G, !PhysMem G, !Chipset G}.

(** What is read after [val] was written. *)
Definition read_back (env : CPUX86State) (ecx val : Z) : Z :=
  let m := msrs env in
  let all_or_none := (val =? 0) || (val =? ALL64) in
  if ecx =? MSR_IA32_SYSENTER_CS then Z.land val 0xffff
  else if (ecx =? MSR_IA32_SYSENTER_ESP) || (ecx =? MSR_IA32_SYSENTER_EIP) then u32 val
  else if ecx =? MSR_EFER then Z.lor (Z.land (efer env) (Z.lnot (efer_mask env))) (Z.land val (efer_mask env))
  else if ecx =? MSR_IA32_PERF_STATUS then Z.lor 1000 (Z.shiftl 4 40)
  else if ecx =? MSR_MTRRcap then if has (feature env FEAT_1_EDX) CPUID_MTRR then 0x508 else 0
  else if ecx =? MSR_MCG_CAP then mcg_cap m
  else if ecx =? MSR_MCG_CTL then
    if has (mcg_cap m) MCG_CTL_P then (if all_or_none then val else mcg_ctl m) else 0
  else match bank_index env ecx with
  | Some i => if negb (Z.land (ecx - MSR_MC0_CTL) 3 =? 0) || all_or_none then val else nth i (mce_banks m) 0
  | None =>
      if (ecx =? MSR_STAR) || (ecx =? MSR_PAT) || (ecx =? MSR_VM_HSAVE_PA) || (ecx =? MSR_MTRRdefType) || (ecx =? MSR_MCG_STATUS) ||
         (ecx =? MSR_IA32_MISC_ENABLE) || bool_decide (is_Some (var_index ecx)) || bool_decide (is_Some (fixed_index ecx))
      then val else 0
  end.

Lemma bank_none env ecx : ecx < 0x400 \/ 0x500 <= ecx -> bank_index env ecx = None.
Proof.
  intros H. unfold bank_index, MSR_MC0_CTL. change 0xff with (Z.ones 8). rewrite Z.land_ones by done.
  pose proof (Z.mod_pos_bound (4 * mcg_cap (msrs env)) (2 ^ 8) ltac:(lia)). by zcase; try lia.
Qed.

Lemma bank_some env ecx i : bank_index env ecx = Some i -> 0x400 <= ecx < 0x500.
Proof. intros H. destruct (Z.ltb_spec ecx 0x400), (Z.leb_spec 0x500 ecx); [by rewrite bank_none in H by lia..|lia]. Qed.

Lemma var_some ecx r : var_index ecx = Some r -> 0x200 <= ecx < 0x210.
Proof. unfold var_index. zcase; cbn; try done; lia. Qed.

Lemma fixed_some ecx i : fixed_index ecx = Some i -> 0x250 <= ecx < 0x270.
Proof. unfold fixed_index. zcase; cbn; try done; lia. Qed.

Lemma load_efer_fields v env :
  efer (cpu_load_efer v env) = v /\ msrs (cpu_load_efer v env) = msrs env /\ regs (cpu_load_efer v env) = regs env /\
  svm (cpu_load_efer v env) = svm env /\ features (cpu_load_efer v env) = features env /\ star (cpu_load_efer v env) = star env /\
  sysenter_cs (cpu_load_efer v env) = sysenter_cs env /\ sysenter_esp (cpu_load_efer v env) = sysenter_esp env /\
  sysenter_eip (cpu_load_efer v env) = sysenter_eip env.
Proof. unfold cpu_load_efer. cbv zeta. cbn [efer with_efer with_hflags hflags]. destruct (has v MSR_EFER_LMA); cbn [efer with_efer with_hflags hflags]; by destruct (has v MSR_EFER_SVME). Qed.

Lemma kset_ok {A} i (l : list A) (k : K G unit) : (i < length l)%nat -> kset i l k = k.
Proof. intros H. unfold kset. by rewrite (proj2 (Nat.ltb_lt _ _) H). Qed.

(** The effect of a write as a function on the CPU. *)
Definition put_msr (ecx val : Z) (env : CPUX86State) : CPUX86State :=
  let m := msrs env in
  if ecx =? MSR_IA32_SYSENTER_CS then with_sysenter_cs (Z.land val 0xffff) env
  else if ecx =? MSR_IA32_SYSENTER_ESP then with_sysenter_esp (u32 val) env
  else if ecx =? MSR_IA32_SYSENTER_EIP then with_sysenter_eip (u32 val) env
  else if ecx =? MSR_EFER then
    cpu_load_efer (Z.lor (Z.land (efer env) (Z.lnot (efer_mask env))) (Z.land val (efer_mask env))) env
  else if ecx =? MSR_STAR then with_star val env
  else if ecx =? MSR_VM_HSAVE_PA then on_svm (with_vm_hsave val) env
  else on_msrs (fun m =>
    if ecx =? MSR_PAT then with_pat val m
    else match var_index ecx with
    | Some (mask, i) =>
        let '(b, k) := nth i (mtrr_var m) (0, 0) in
        with_mtrr_var (<[i := if mask : bool then (b, val) else (val, k)]> (mtrr_var m)) m
    | None =>
    match fixed_index ecx with
    | Some i => with_mtrr_fixed (<[i := val]> (mtrr_fixed m)) m
    | None =>
    if ecx =? MSR_MTRRdefType then with_mtrr_deftype val m
    else if ecx =? MSR_MCG_STATUS then with_mcg_status val m
    else if ecx =? MSR_MCG_CTL then
      if has (mcg_cap m) MCG_CTL_P && ((val =? 0) || (val =? ALL64)) then with_mcg_ctl val m else m
    else if ecx =? MSR_TSC_AUX then with_tsc_aux val m
    else if ecx =? MSR_IA32_MISC_ENABLE then with_misc_enable val m
    else match bank_index env ecx with
    | Some i =>
        if negb (Z.land (ecx - MSR_MC0_CTL) 3 =? 0) || (val =? 0) || (val =? ALL64)
        then with_mce_banks (<[i := val]> (mce_banks m)) m else m
    | None => m
    end end end) env.

Lemma on_msrs_id env : on_msrs id env = env.
Proof. by destruct env. Qed.

Lemma write_msr_puts ecx val env (g : G) :
  msr_ok env -> ecx <> MSR_IA32_APICBASE -> write_msr ecx val env g = KRet tt (put_msr ecx val env) g.
Proof.
  intros Hok Hne. unfold write_msr, put_msr, kbind at 1, kget at 1. cbv zeta.
  destruct (ecx =? MSR_IA32_SYSENTER_CS); [done|]. destruct (ecx =? MSR_IA32_SYSENTER_ESP); [done|]. destruct (ecx =? MSR_IA32_SYSENTER_EIP); [done|].
  destruct (Z.eqb_spec ecx MSR_IA32_APICBASE); [done|]. destruct (ecx =? MSR_EFER); [done|]. destruct (ecx =? MSR_STAR); [done|].
  destruct (Z.eqb_spec ecx MSR_PAT) as [->|]; [done|]. destruct (ecx =? MSR_VM_HSAVE_PA); [done|].
  assert (forall f, (forall m, f m = m) -> KRet tt env g = KRet tt (on_msrs f env) g) as Hid by (intros f Hf; unfold on_msrs; rewrite Hf; by destruct env).
  destruct (var_index ecx) as [[mask i]|] eqn:Ev; [rewrite kset_ok by (rewrite (mk_var _ Hok); by eapply var_bound); done|].
  destruct (fixed_index ecx) as [i|] eqn:Ef; [rewrite kset_ok by (rewrite (mk_fixed _ Hok); by eapply fixed_bound); done|].
  destruct (ecx =? MSR_MTRRdefType); [done|]. destruct (ecx =? MSR_MCG_STATUS); [done|].
  destruct (ecx =? MSR_MCG_CTL).
  { destruct (has (mcg_cap (msrs env)) MCG_CTL_P) eqn:Ec; cbn [andb].
    - unfold on_msrs. rewrite Ec. destruct (_ || _); [done|by destruct env].
    - unfold on_msrs. rewrite Ec. by destruct env. }
  destruct (ecx =? MSR_TSC_AUX); [done|]. destruct (ecx =? MSR_IA32_MISC_ENABLE); [done|].
  destruct (bank_index env ecx) as [i|] eqn:Eb; [|by apply Hid].
  rewrite kset_ok by (rewrite (mk_banks _ Hok); by eapply bank_bound). destruct (_ || _ || _); [done|by apply Hid].
Qed.

Definition get_msr (ecx : Z) (env : CPUX86State) : Z :=
  let m := msrs env in
  if ecx =? MSR_IA32_SYSENTER_CS then sysenter_cs env
  else if ecx =? MSR_IA32_SYSENTER_ESP then sysenter_esp env
  else if ecx =? MSR_IA32_SYSENTER_EIP then sysenter_eip env
  else if ecx =? MSR_EFER then efer env
  else if ecx =? MSR_STAR then star env
  else if ecx =? MSR_PAT then pat m
  else if ecx =? MSR_VM_HSAVE_PA then vm_hsave (svm env)
  else if ecx =? MSR_IA32_PERF_STATUS then Z.lor 1000 (Z.shiftl 4 40)
  else match var_index ecx with
  | Some (mask, i) => if mask : bool then (nth i (mtrr_var m) (0, 0)).2 else (nth i (mtrr_var m) (0, 0)).1
  | None =>
  match fixed_index ecx with
  | Some i => nth i (mtrr_fixed m) 0
  | None =>
  if ecx =? MSR_MTRRdefType then mtrr_deftype m
  else if ecx =? MSR_MTRRcap then if has (feature env FEAT_1_EDX) CPUID_MTRR then 0x508 else 0
  else if ecx =? MSR_MCG_CAP then mcg_cap m
  else if ecx =? MSR_MCG_CTL then if has (mcg_cap m) MCG_CTL_P then mcg_ctl m else 0
  else if ecx =? MSR_MCG_STATUS then mcg_status m
  else if ecx =? MSR_IA32_MISC_ENABLE then msr_ia32_misc_enable m
  else match bank_index env ecx with
  | Some i => nth i (mce_banks m) 0
  | None => 0
  end end end.

Lemma nth_some {A} (l : list A) i d : (i < length l)%nat -> l !! i = Some (nth i l d).
Proof. intros H. destruct (lookup_lt_is_Some_2 l i H) as [x Hx]. rewrite Hx. f_equal. symmetry. by apply nth_lookup_Some. Qed.

Lemma read_msr_gets ecx env (g : G) :
  msr_ok env -> ecx <> MSR_IA32_APICBASE -> read_msr ecx env g = KRet (get_msr ecx env) env g.
Proof.
  intros Hok Hne. unfold read_msr, get_msr, kbind at 1, kget at 1. cbv zeta. rewrite (proj2 (Z.eqb_neq ecx MSR_IA32_APICBASE) Hne).
  destruct (ecx =? MSR_IA32_SYSENTER_CS); [done|]. destruct (ecx =? MSR_IA32_SYSENTER_ESP); [done|]. destruct (ecx =? MSR_IA32_SYSENTER_EIP); [done|].
  destruct (ecx =? MSR_EFER); [done|]. destruct (ecx =? MSR_STAR); [done|]. destruct (ecx =? MSR_PAT); [done|].
  destruct (ecx =? MSR_VM_HSAVE_PA); [done|]. destruct (ecx =? MSR_IA32_PERF_STATUS); [done|].
  destruct (var_index ecx) as [[mask i]|] eqn:Ev.
  { unfold kread. rewrite (nth_some _ i (0, 0)) by (rewrite (mk_var _ Hok); by eapply var_bound). by destruct mask. }
  destruct (fixed_index ecx) as [i|] eqn:Ef.
  { unfold kread. by rewrite (nth_some _ i 0) by (rewrite (mk_fixed _ Hok); by eapply fixed_bound). }
  destruct (ecx =? MSR_MTRRdefType); [done|]. destruct (ecx =? MSR_MTRRcap); [done|]. destruct (ecx =? MSR_MCG_CAP); [done|].
  destruct (ecx =? MSR_MCG_CTL); [done|]. destruct (ecx =? MSR_MCG_STATUS); [done|]. destruct (ecx =? MSR_IA32_MISC_ENABLE); [done|].
  destruct (bank_index env ecx) as [i|] eqn:Eb; [|done].
  unfold kread. by rewrite (nth_some _ i 0) by (rewrite (mk_banks _ Hok); by eapply bank_bound).
Qed.

(** The register read is not [c]; the rest of the registers is unchanged. *)
Ltac other x c := unfold get_msr; cbv zeta; destruct (Z.eqb_spec x c); [congruence|done].

Lemma nth_insert {A} i j (x d : A) l : (i < length l)%nat -> nth j (<[i := x]> l) d = if Nat.eqb j i then x else nth j l d.
Proof.
  intros Hi. rewrite !nth_lookup. destruct (Nat.eqb_spec j i) as [->|]; [by rewrite list_lookup_insert_eq|by rewrite list_lookup_insert_ne].
Qed.

Lemma bank_inj env ecx ecx' i : bank_index env ecx = Some i -> bank_index env ecx' = Some i -> ecx = ecx'.
Proof.
  intros H H'. pose proof (bank_some _ _ _ H). pose proof (bank_some _ _ _ H'). unfold bank_index, MSR_MC0_CTL in *. repeat case_match; simplify_eq. lia.
Qed.

Lemma put_get_other ecx ecx' val env :
  msr_ok env -> ecx' <> ecx -> get_msr ecx' (put_msr ecx val env) = get_msr ecx' env.
Proof.
  intros Hok Hne. unfold put_msr. cbv zeta.
  destruct (Z.eqb_spec ecx MSR_IA32_SYSENTER_CS) as [->|_]; [other ecx' MSR_IA32_SYSENTER_CS|].
  destruct (Z.eqb_spec ecx MSR_IA32_SYSENTER_ESP) as [->|_]; [other ecx' MSR_IA32_SYSENTER_ESP|].
  destruct (Z.eqb_spec ecx MSR_IA32_SYSENTER_EIP) as [->|_]; [other ecx' MSR_IA32_SYSENTER_EIP|].
  destruct (Z.eqb_spec ecx MSR_EFER) as [->|_].
  { destruct (load_efer_fields (Z.lor (Z.land (efer env) (Z.lnot (efer_mask env))) (Z.land val (efer_mask env))) env)
      as (_ & E1 & _ & E2 & E3 & E4 & E5 & E6 & E7).
    unfold get_msr, bank_index, feature. cbv zeta. rewrite E1, E2, E3, E4, E5, E6, E7. destruct (Z.eqb_spec ecx' MSR_EFER); [congruence|done]. }
  destruct (Z.eqb_spec ecx MSR_STAR) as [->|_]; [other ecx' MSR_STAR|].
  destruct (Z.eqb_spec ecx MSR_VM_HSAVE_PA) as [->|_]; [other ecx' MSR_VM_HSAVE_PA|].
  destruct (Z.eqb_spec ecx MSR_PAT) as [->|_]; [other ecx' MSR_PAT|].
  destruct (var_index ecx) as [[mask i]|] eqn:Ev.
  { pose proof (var_bound _ _ _ Ev) as Hi. unfold get_msr, on_msrs. cbv zeta. cbn [msrs with_msrs].
    destruct (nth i (mtrr_var (msrs env)) (0, 0)) as [b k] eqn:En. cbn [mtrr_var with_mtrr_var].
    destruct (var_index ecx') as [[mask' i']|] eqn:Ev'; [|done]. rewrite nth_insert by (by rewrite (mk_var _ Hok)).
    destruct (Nat.eqb_spec i' i) as [->|]; [|done]. rewrite En.
    destruct mask, mask'; try done; destruct Hne; by eapply var_inj. }
  destruct (fixed_index ecx) as [i|] eqn:Ef.
  { pose proof (fixed_bound _ _ Ef) as Hi. unfold get_msr, on_msrs. cbv zeta. cbn [msrs with_msrs mtrr_fixed with_mtrr_fixed].
    destruct (fixed_index ecx') as [i'|] eqn:Ef'; [|done]. rewrite nth_insert by (by rewrite (mk_fixed _ Hok)).
    destruct (Nat.eqb_spec i' i) as [->|]; [|done]. destruct Hne. by eapply fixed_inj. }
  destruct (Z.eqb_spec ecx MSR_MTRRdefType) as [->|_]; [other ecx' MSR_MTRRdefType|].
  destruct (Z.eqb_spec ecx MSR_MCG_STATUS) as [->|_]; [other ecx' MSR_MCG_STATUS|].
  destruct (Z.eqb_spec ecx MSR_MCG_CTL) as [->|_].
  { unfold get_msr, on_msrs. cbv zeta. destruct (Z.eqb_spec ecx' MSR_MCG_CTL); [congruence|]. by destruct (_ && _). }
  destruct (Z.eqb_spec ecx MSR_TSC_AUX) as [->|_]; [done|].
  destruct (Z.eqb_spec ecx MSR_IA32_MISC_ENABLE) as [->|_]; [other ecx' MSR_IA32_MISC_ENABLE|].
  destruct (bank_index env ecx) as [i|] eqn:Eb; [|by destruct env].
  destruct (_ || _ || _); [|by destruct env]. pose proof (bank_bound _ _ _ Hok Eb) as Hi. unfold get_msr, on_msrs. cbv zeta.
  cbn [msrs with_msrs mce_banks with_mce_banks]. change (bank_index (with_msrs _ env) ecx') with (bank_index env ecx').
  destruct (bank_index env ecx') as [i'|] eqn:Eb'; [|done]. rewrite nth_insert by (by rewrite (mk_banks _ Hok)).
  destruct (Nat.eqb_spec i' i) as [->|]; [|done]. destruct Hne. by eapply bank_inj.
Qed.

(** The register is none of the constants, since [H] places it elsewhere. *)
Ltac elsewhere ecx H := repeat match goal with
  | |- context [ecx =? ?c] => destruct (Z.eqb_spec ecx c) as [->|?]; [exfalso; vm_compute in H; destruct H; congruence|]
  end.

Lemma put_get_bank ecx val env i :
  msr_ok env -> bank_index env ecx = Some i -> get_msr ecx (put_msr ecx val env) = read_back env ecx val.
Proof.
  intros Hok Eb. pose proof (bank_some _ _ _ Eb) as Hr. pose proof (bank_bound _ _ _ Hok Eb) as Hi.
  assert (var_index ecx = None) as Ev by (destruct (var_index ecx) eqn:E; [apply var_some in E; lia|done]).
  assert (fixed_index ecx = None) as Ef by (destruct (fixed_index ecx) eqn:E; [apply fixed_some in E; lia|done]).
  unfold put_msr, read_back. cbv zeta. rewrite Ev, Ef, Eb. elsewhere ecx Hr. cbn [orb]. rewrite <-orb_assoc.
  unfold get_msr, on_msrs. cbv zeta. rewrite Ev, Ef. elsewhere ecx Hr.
  destruct (_ || (_ || _)); cbn [msrs with_msrs mce_banks with_mce_banks].
  - change (bank_index (with_msrs _ env) ecx) with (bank_index env ecx). rewrite Eb. by rewrite nth_insert, Nat.eqb_refl by (by rewrite (mk_banks _ Hok)).
  - change (bank_index (with_msrs (msrs env) env) ecx) with (bank_index env ecx). by rewrite Eb.
Qed.

Lemma put_get_var ecx val env r :
  msr_ok env -> bank_index env ecx = None -> var_index ecx = Some r -> get_msr ecx (put_msr ecx val env) = read_back env ecx val.
Proof.
  intros Hok Eb Ev. destruct r as [mask i]. pose proof (var_some _ _ Ev) as Hr. pose proof (var_bound _ _ _ Ev) as Hi.
  unfold put_msr, read_back. cbv zeta. rewrite Ev, Eb. elsewhere ecx Hr. rewrite bool_decide_true by done. cbn [orb].
  unfold get_msr, on_msrs. cbv zeta. rewrite Ev. elsewhere ecx Hr. cbn [msrs with_msrs].
  destruct (nth i (mtrr_var (msrs env)) (0, 0)) as [b k]. cbn [mtrr_var with_mtrr_var].
  rewrite nth_insert, Nat.eqb_refl by (by rewrite (mk_var _ Hok)). by destruct mask.
Qed.

Lemma put_get_fixed ecx val env i :
  msr_ok env -> bank_index env ecx = None -> var_index ecx = None -> fixed_index ecx = Some i ->
  get_msr ecx (put_msr ecx val env) = read_back env ecx val.
Proof.
  intros Hok Eb Ev Ef. pose proof (fixed_some _ _ Ef) as Hr. pose proof (fixed_bound _ _ Ef) as Hi.
  unfold put_msr, read_back. cbv zeta. rewrite Ev, Ef, Eb. elsewhere ecx Hr. rewrite (bool_decide_true (is_Some (Some i))) by done. rewrite orb_true_r.
  unfold get_msr, on_msrs. cbv zeta. rewrite Ev, Ef. elsewhere ecx Hr. cbn [msrs with_msrs mtrr_fixed with_mtrr_fixed].
  by rewrite nth_insert, Nat.eqb_refl by (by rewrite (mk_fixed _ Hok)).
Qed.

Lemma put_get_same ecx val env :
  msr_ok env -> ecx <> MSR_IA32_APICBASE -> get_msr ecx (put_msr ecx val env) = read_back env ecx val.
Proof.
  intros Hok Hne. destruct (bank_index env ecx) as [i|] eqn:Eb; [by eapply put_get_bank|].
  destruct (var_index ecx) as [r|] eqn:Ev; [by eapply put_get_var|]. destruct (fixed_index ecx) as [i|] eqn:Ef; [by eapply put_get_fixed|].
  unfold put_msr, read_back. cbv zeta. rewrite Ev, Ef, Eb.
  destruct (Z.eqb_spec ecx MSR_IA32_SYSENTER_CS) as [->|]; [done|].
  destruct (Z.eqb_spec ecx MSR_IA32_SYSENTER_ESP) as [->|]; [done|]. destruct (Z.eqb_spec ecx MSR_IA32_SYSENTER_EIP) as [->|]; [done|].
  destruct (Z.eqb_spec ecx MSR_EFER) as [->|]; [apply load_efer_fields|]. destruct (Z.eqb_spec ecx MSR_STAR) as [->|]; [done|].
  destruct (Z.eqb_spec ecx MSR_VM_HSAVE_PA) as [->|]; [done|]. destruct (Z.eqb_spec ecx MSR_PAT) as [->|]; [done|].
  destruct (Z.eqb_spec ecx MSR_MTRRdefType) as [->|]; [done|]. destruct (Z.eqb_spec ecx MSR_MCG_STATUS) as [->|]; [done|].
  assert (forall f, mcg_cap (f (msrs env)) = mcg_cap (msrs env) -> bank_index (on_msrs f env) ecx = None) as Hb
    by (intros f Hf; unfold bank_index, on_msrs; cbn [msrs with_msrs]; rewrite Hf; exact Eb).
  destruct (Z.eqb_spec ecx MSR_MCG_CTL) as [->|].
  { unfold on_msrs. destruct (has (mcg_cap (msrs env)) MCG_CTL_P) eqn:Ec; cbn [andb]; [destruct (_ || _)|]; cbn; by rewrite ?Ec. }
  destruct (Z.eqb_spec ecx MSR_TSC_AUX) as [->|].
  { change (get_msr MSR_TSC_AUX ?e) with (match bank_index e MSR_TSC_AUX with Some i => nth i (mce_banks (msrs e)) 0 | None => 0 end). by rewrite Hb. }
  destruct (Z.eqb_spec ecx MSR_IA32_MISC_ENABLE) as [->|]; [done|]. unfold get_msr. cbv zeta. rewrite Ev, Ef, (Hb (fun m => m)) by done.
  repeat match goal with H : ecx <> ?c |- _ => rewrite (proj2 (Z.eqb_neq ecx c) H); clear H end. cbn [orb].
  destruct (Z.eqb_spec ecx MSR_IA32_PERF_STATUS); [done|]. destruct (Z.eqb_spec ecx MSR_MTRRcap); [done|]. by destruct (Z.eqb_spec ecx MSR_MCG_CAP).
Qed.

Lemma put_msr_ok ecx val env : msr_ok env -> msr_ok (put_msr ecx val env) /\ regs (put_msr ecx val env) = regs env.
Proof.
  intros Hok. pose proof Hok as [H1 H2 H3 H4 H5]. unfold put_msr. cbv zeta.
  destruct (ecx =? MSR_IA32_SYSENTER_CS); [done|]. destruct (ecx =? MSR_IA32_SYSENTER_ESP); [done|]. destruct (ecx =? MSR_IA32_SYSENTER_EIP); [done|].
  destruct (ecx =? MSR_EFER).
  { destruct (load_efer_fields (Z.lor (Z.land (efer env) (Z.lnot (efer_mask env))) (Z.land val (efer_mask env))) env) as (_ & E1 & E2 & _).
    split; [|done]. by split; rewrite ?E1, ?E2. }
  destruct (ecx =? MSR_STAR); [done|]. destruct (ecx =? MSR_VM_HSAVE_PA); [done|]. split; [|done].
  split; unfold on_msrs; cbn [msrs with_msrs regs]; repeat case_match; cbn; rewrite ?length_insert; done.
Qed.

Lemma load_efer_svmi v env : has (hflags (cpu_load_efer v env)) HF_SVMI_MASK = has (hflags env) HF_SVMI_MASK.
Proof.
  unfold cpu_load_efer. cbv zeta. cbn [efer with_efer with_hflags hflags].
  destruct (has v MSR_EFER_LMA); cbn [efer with_efer with_hflags hflags]; destruct (has v MSR_EFER_SVME); cbn [with_hflags hflags];
    by rewrite ?has_lor, has_land, ?orb_false_r.
Qed.

Lemma put_msr_svmi ecx val env : has (hflags (put_msr ecx val env)) HF_SVMI_MASK = has (hflags env) HF_SVMI_MASK.
Proof.
  unfold put_msr. cbv zeta. destruct (ecx =? MSR_IA32_SYSENTER_CS); [done|]. destruct (ecx =? MSR_IA32_SYSENTER_ESP); [done|].
  destruct (ecx =? MSR_IA32_SYSENTER_EIP); [done|]. destruct (ecx =? MSR_EFER); [apply load_efer_svmi|].
  destruct (ecx =? MSR_STAR); [done|]. by destruct (ecx =? MSR_VM_HSAVE_PA).
Qed.

(** Outside a guest nothing is intercepted. *)
Lemma not_intercepted type param env (g : G) :
  has (hflags env) HF_SVMI_MASK = false -> cpu_svm_check_intercept_param type param env g = KRet tt env g.
Proof. intros H. unfold cpu_svm_check_intercept_param, helper_svm_check_intercept_param, kbind, kget. by rewrite H. Qed.

Lemma reg_put r r' v env : (r < length (regs env))%nat -> reg (put_reg r v env) r' = if Nat.eqb r' r then u32 v else reg env r'.
Proof. intros H. unfold reg, put_reg. cbn [regs with_regs]. by apply nth_insert. Qed.

(** C30: WRMSR and RDMSR stay within their arrays and are a round trip. Outside a
    guest, for every register but the APIC base, a write completes and a read of the
    same register then gives in EDX:EAX what the register keeps of the value: all of
    it, the bits it has, or its old value where the write is ignored. Every other
    register reads as before. *)
Theorem msr_round_trip env (g : G) :
  let ecx := u32 (reg env R_ECX) in
  let val := Z.lor (u32 (reg env R_EAX)) (Z.shiftl (u32 (reg env R_EDX)) 32) in
  msr_ok env -> has (hflags env) HF_SVMI_MASK = false -> ecx <> MSR_IA32_APICBASE ->
  exists env1 env2, helper_wrmsr env g = KRet tt env1 g /\ helper_rdmsr env1 g = KRet tt env2 g /\ msr_ok env2 /\
    reg env2 R_EAX = u32 (read_back env ecx val) /\ reg env2 R_EDX = u32 (Z.shiftr (read_back env ecx val) 32) /\
    forall ecx', ecx' <> ecx -> ecx' <> MSR_IA32_APICBASE ->
      exists v, read_msr ecx' env g = KRet v env g /\ read_msr ecx' env1 g = KRet v env1 g.
Proof.
  intros ecx val Hok Hs Hne. destruct (put_msr_ok ecx val env Hok) as [Hok1 Hr1]. exists (put_msr ecx val env).
  unfold helper_wrmsr, helper_rdmsr, kbind, kget, kmod. rewrite (not_intercepted _ _ env g Hs). fold ecx val.
  rewrite (write_msr_puts _ _ _ _ Hok Hne), not_intercepted by (by rewrite put_msr_svmi).
  assert (u32 (reg (put_msr ecx val env) R_ECX) = ecx) as -> by (unfold reg; by rewrite Hr1).
  rewrite (read_msr_gets _ _ _ Hok1 Hne), (put_get_same _ _ _ Hok Hne). eexists. split; [done|]. split; [done|].
  pose proof (mk_regs _ Hok1) as Hl. split_and!.
  - split; try apply Hok1. cbn [regs put_reg with_regs]. by rewrite !length_insert.
  - rewrite !reg_put by (cbn [regs put_reg with_regs]; rewrite ?length_insert, Hl; unfold R_EAX, R_EDX; lia). cbn. by rewrite u32_id by apply u32_range.
  - rewrite !reg_put by (cbn [regs put_reg with_regs]; rewrite ?length_insert, Hl; unfold R_EAX, R_EDX; lia). cbn. by rewrite u32_id by apply u32_range.
  - intros ecx' He Hne'. exists (get_msr ecx' env). split; [by apply read_msr_gets|]. by rewrite read_msr_gets, put_get_other.
Qed.
End Laws.

(** A CPU of the i386 target after reset, with NX. *)
Definition msr_cpu (ecx eax edx : Z) : CPUX86State :=
  with_msrs (mkMsr 0 (replicate 11 0) 0 (replicate 8 (0, 0)) 0 10 0 (replicate 40 0) 0 1)
    (with_features [0; 0; 0; CPUID_EXT2_NX; 0] (with_regs [eax; ecx; edx; 0; 0; 0; 0; 0] blank_cpu)).

(** EFER keeps the one bit the CPU has. *)
Lemma msr_round_trip_witness :
  exists env1 env2, helper_wrmsr (G := phys) (Chipset0 := no_apic phys) (msr_cpu MSR_EFER 0xffffffff 0) (fun _ => 0) = KRet tt env1 (fun _ => 0) /\
    helper_rdmsr (G := phys) (Chipset0 := no_apic phys) env1 (fun _ => 0) = KRet tt env2 (fun _ => 0) /\ reg env2 R_EAX = MSR_EFER_NXE.
Proof.
  destruct (msr_round_trip (G := phys) (Chipset0 := no_apic phys) (msr_cpu MSR_EFER 0xffffffff 0) (fun _ => 0)) as (env1 & env2 & H1 & H2 & _ & H3 & _).
  - split; reflexivity.
  - reflexivity.
  - vm_compute. discriminate.
  - exists env1, env2. split; [exact H1|]. split; [exact H2|]. rewrite H3. vm_compute. reflexivity.
Defined.
