(* ===== verification/Image.v ===== *)
(** * State kept in memory

    Tables of words that one routine stores and another loads again: the state save
    map of system management mode and the control blocks of virtual machines. An
    image is a list of stores, each with offset, width and value; an image whose
    entries do not overlap is read back as it was written. *)

From stdpp Require Import base list.
From Stdlib Require Import ZArith Lia.
From S2P Require Import Prelude Cpu CcHelper Excp Guest Mmu Seg SegTask PhysMem CtrlRegs.

Local Open Scope Z_scope.
Local Open Scope k_scope.

Create HintDb image.

(** [stb_phys], [stw_phys], [stl_phys] and [stq_phys] at an offset. *)
Definition entry : Type := Z * nat * Z.
Definition stb (off v : Z) : entry := (off, 1%nat, v).
Definition stw (off v : Z) : entry := (off, 2%nat, v).
Definition stl (off v : Z) : entry := (off, 4%nat, v).
Definition stq (off v : Z) : entry := (off, 8%nat, v).

Section Access.
Context {G : Type} `{!PhysMem G}.

(** [at_] gives the address of an offset. *)
Definition put_image (at_ : Z -> Z) (l : list entry) (g : G) : G :=
  foldl (fun g '(off, n, v) => st_mem n (at_ off) v g) g l.

Definition ld (n : nat) (a : Z) : K G Z := fun env g => KRet (ld_mem n a g) env g.

(** A word of the image into a field. *)
Definition load (n : nat) (a : Z) (f : Z -> CPUX86State -> CPUX86State) : K G unit := v <- ld n a ;; kmod (f v).
End Access.

(** ** Images without overlap *)

Definition IMAGE : Z := 0x8000.

(** Two entries have no byte in common. *)
Definition clear_of (off : Z) (n : nat) (e : Z * nat) : bool :=
  (off + Z.of_nat n <=? e.1) || (e.1 + Z.of_nat e.2 <=? off).

(** The check can be computed: it looks at offsets and widths only. *)
Fixpoint image_ok (l : list (Z * nat)) : bool :=
  match l with
  | [] => true
  | (off, n) :: l' =>
      (0 <=? off) && (off + Z.of_nat n <=? IMAGE) && (1 <=? Z.of_nat n) && forallb (clear_of off n) l' && image_ok l'
  end.

Fixpoint word (off : Z) (n : nat) (l : list entry) : option Z :=
  match l with
  | [] => None
  | (o, k, v) :: l' => if (o =? off) && (k =? n)%nat then Some v else word off n l'
  end.

(** Offsets of an image that do not overlap lead to addresses that do not. *)
Definition spread_out (at_ : Z -> Z) : Prop :=
  forall o n o' n', 0 <= o -> o + Z.of_nat n <= IMAGE -> 0 <= o' -> o' + Z.of_nat n' <= IMAGE ->
    clear_of o n (o', n') = true -> apart n (at_ o) n' (at_ o').

(** As they do when addresses wrap around, at 32 or 64 bits. *)
Lemma wrap_spread w b : 17 <= w -> spread_out (fun off => wrap w (b + off)).
Proof.
  intros Hw o n o' n' H1 H2 H3 H4 Hc. unfold clear_of in Hc. cbn [fst snd] in Hc. rewrite orb_true_iff, !Z.leb_le in Hc.
  unfold apart, wrap, IMAGE in *. assert (2 ^ 17 <= 2 ^ w) as Hp by (by apply Z.pow_le_mono_r).
  change (2 ^ 17) with 131072 in Hp. generalize dependent (2 ^ w). intros M HM.
  pose proof (Z.mod_pos_bound (b + o) M). pose proof (Z.mod_pos_bound (b + o') M).
  pose proof (Z.div_mod (b + o) M). pose proof (Z.div_mod (b + o') M).
  set (q := (b + o) / M) in *. set (q' := (b + o') / M) in *.
  assert (q' = q \/ q' = q + 1 \/ q' = q - 1) as [E | [E | E]] by nia; rewrite E in *; nia.
Qed.

Section Read.
Context {G : Type} `{!PhysMem G, !PhysMemSpec G} (at_ : Z -> Z) (Hat : spread_out at_).
Implicit Types (g : G) (l : list entry).

Lemma put_image_other o n l g :
  0 <= o -> o + Z.of_nat n <= IMAGE -> image_ok l.*1 = true -> forallb (clear_of o n) l.*1 = true ->
  ld_mem n (at_ o) (put_image at_ l g) = ld_mem n (at_ o) g.
Proof.
  intros Ho Hn. revert g. induction l as [|[[o' n'] v] l IH]; [done|]. intros g. cbn [fmap list_fmap fst image_ok forallb].
  rewrite !andb_true_iff, !Z.leb_le. intros ((((H1 & H2) & H3) & _) & Hl) [Hc Hf].
  change (put_image at_ ((o', n', v) :: l) g) with (put_image at_ l (st_mem n' (at_ o') v g)).
  rewrite (IH _ Hl Hf). apply ld_st_apart. destruct (Hat o n o' n'); try done; [by right|by left].
Qed.

Lemma put_image_word o n v l g :
  image_ok l.*1 = true -> word o n l = Some v -> ld_mem n (at_ o) (put_image at_ l g) = wrap (8 * Z.of_nat n) v.
Proof.
  revert g. induction l as [|[[o' n'] v'] l IH]; [done|]. intros g. cbn [fmap list_fmap fst image_ok word].
  rewrite !andb_true_iff, !Z.leb_le. intros ((((H1 & H2) & H3) & Hf) & Hl).
  change (put_image at_ ((o', n', v') :: l) g) with (put_image at_ l (st_mem n' (at_ o') v' g)).
  destruct (Z.eqb_spec o' o) as [->|]; [|by apply IH]. destruct (Nat.eqb_spec n' n) as [->|]; [|by apply IH].
  intros [= ->]. rewrite put_image_other by done. apply ld_st_same.
Qed.

(** Words of an image lie where its entries do. *)
Lemma word_in o n v l : word o n l = Some v -> (o, n) ∈ l.*1.
Proof.
  induction l as [|[[o' n'] v'] l IH]; [done|]. cbn [word fmap list_fmap fst]. destruct (Z.eqb_spec o' o) as [->|]; [|right; by apply IH].
  destruct (Nat.eqb_spec n' n) as [->|]; [by left|]. right. by apply IH.
Qed.
End Read.

(** ** Runs that read an image *)

(** A flush of the TLB is no store. *)
Class FlushKeeps (G : Type) `{!SoftMmu G, !PhysMem G} : Prop :=
  ld_flush n a (g : G) : ld_mem n a (tlb_flush g) = ld_mem n a g.

Section Runs.
Context {G : Type} `{!SoftMmu G, !PhysMem G, !PhysMemSpec G, !Chipset G, !FlushKeeps G}.
Context (at_ : Z -> Z) (l : list entry).
Implicit Types (g : G) (k : K G unit) (f : CPUX86State -> CPUX86State).

Definition sees g : Prop := forall o n v, word o n l = Some v -> ld_mem n (at_ o) g = wrap (8 * Z.of_nat n) v.

(** [k] completes, changes the CPU by [f] and leaves the image alone. *)
Definition runs k f : Prop := forall env g, sees g -> exists g', k env g = KRet tt (f env) g' /\ sees g'.

Lemma sees_flush g : sees g -> sees (tlb_flush g).
Proof. intros H o n v Hw. by rewrite ld_flush, (H o n v). Qed.

Lemma runs_mod f : runs (kmod f) f.
Proof. intros env g H. by exists g. Qed.

Lemma runs_ret : runs (kret tt) (fun env => env).
Proof. intros env g H. by exists g. Qed.

(** A store that keeps the image. *)
Lemma runs_mem (h : G -> G) : (forall g, sees g -> sees (h g)) -> runs (kmem h) (fun env => env).
Proof. intros Hh env g Hg. exists (h g). split; [done|]. by apply Hh. Qed.

Lemma runs_ext k f f' : runs k f -> (forall env, f env = f' env) -> runs k f'.
Proof. intros H Hf env g Hg. rewrite <-Hf. by apply H. Qed.

Lemma runs_seq k k' f f' : runs k f -> runs k' f' -> runs (k ;; k') (fun env => f' (f env)).
Proof.
  intros H H' env g Hg. destruct (H env g Hg) as (g1 & E & Hg1). destruct (H' (f env) g1 Hg1) as (g2 & E' & Hg2).
  exists g2. unfold kbind. by rewrite E.
Qed.

Lemma runs_iter (k : Z -> K G unit) (h : nat -> CPUX86State -> CPUX86State) n i :
  (forall j, (i <= j < i + n)%nat -> runs (k (Z.of_nat j)) (h j)) ->
  runs (kiter k n (Z.of_nat i)) (fun env => foldl (fun e j => h j e) env (seq i n)).
Proof.
  revert i. induction n as [|n IH]; intros i H; [apply runs_ret|]. cbn [kiter seq foldl].
  apply (runs_seq _ _ (h i) (fun env => foldl (fun e j => h j e) env (seq (S i) n))); [apply H; lia|].
  replace (Z.of_nat i + 1) with (Z.of_nat (S i)) by lia. apply IH. intros j Hj. apply H. lia.
Qed.

Lemma runs_ld o n v (k : Z -> K G unit) f :
  word o n l = Some v -> runs (k (wrap (8 * Z.of_nat n) v)) f -> runs (x <- ld n (at_ o) ;; k x) f.
Proof. intros Hw H env g Hg. unfold kbind, ld. rewrite (Hg o n v Hw). by apply H. Qed.

Lemma runs_load o n v (f : Z -> CPUX86State -> CPUX86State) :
  word o n l = Some v -> runs (load n (at_ o) f) (f (wrap (8 * Z.of_nat n) v)).
Proof. intros Hw. apply (runs_ld o n v); [done|]. apply runs_mod. Qed.

Lemma runs_loadl o v (f : Z -> CPUX86State -> CPUX86State) : word o 4 l = Some v -> runs (load 4 (at_ o) f) (f (u32 v)).
Proof. apply runs_load. Qed.

Lemma runs_loadq o v (f : Z -> CPUX86State -> CPUX86State) : word o 8 l = Some v -> runs (load 8 (at_ o) f) (f (u64 v)).
Proof. apply runs_load. Qed.

Lemma runs_cr0 v : runs (cpu_x86_update_cr0 v) (put_cr0 v).
Proof.
  intros env g Hg. unfold cpu_x86_update_cr0, kbind, kget, kmod, kmem, kret.
  destruct (negb _); eexists; (split; [done|]); [by apply sees_flush|done].
Qed.

Lemma runs_cr4 v : runs (cpu_x86_update_cr4 v) (put_cr4 v).
Proof.
  intros env g Hg. unfold cpu_x86_update_cr4, kbind, kget, kmod, kmem, kret.
  destruct (has _ _); eexists; (split; [done|]); [by apply sees_flush|done].
Qed.

Lemma runs_cr3 v : runs (cpu_x86_update_cr3 v) (set_cr 3 v).
Proof.
  intros env g Hg. unfold cpu_x86_update_cr3, kbind, kget, kmod, kmem, kret.
  destruct (has _ _); eexists; (split; [done|]); [by apply sees_flush|done].
Qed.

(** One step of a sequence. *)
Lemma run_step k (k' : K G unit) f env g :
  runs k f -> sees g -> exists g', (k ;; k') env g = k' (f env) g' /\ sees g'.
Proof. intros H Hg. destruct (H env g Hg) as (g' & E & Hg'). exists g'. unfold kbind. by rewrite E. Qed.
End Runs.

#[export] Hint Resolve runs_mod runs_ret runs_cr0 runs_cr3 runs_cr4 : image.

(** Steps of the K monad without an outcome of their own. *)
Section Steps.
Context {G : Type}.

Lemma step_mod f (k : K G unit) env g : (kmod f ;; k) env g = k (f env) g.
Proof. done. Qed.
Lemma step_mem f (k : K G unit) env g : (kmem f ;; k) env g = k env (f g).
Proof. done. Qed.
Lemma step_get (k : CPUX86State -> K G unit) env g : (e <- kget ;; k e) env g = k env env g.
Proof. done. Qed.
End Steps.
