(* ===== verification/Smm.v ===== *)
(** * System management mode

    target-i386/smm_helper.c for the 32-bit target: the state save map that an SMI
    writes at [smbase + 0x8000], and the instruction RSM that reads it. *)

From stdpp Require Import base list.
From Stdlib Require Import ZArith Lia.
From S2P Require Import Prelude Cpu CcHelper Excp Guest Mmu Seg SegTask PhysMem CtrlRegs DebugRegs Image.

Local Open Scope Z_scope.
Local Open Scope k_scope.

Definition SMM_REVISION_ID : Z := 0x00020000.
Definition HF_SMM_MASK : Z := Z.shiftl 1 19.

(** The flags that [cpu_load_eflags] takes apart. *)
Definition ARITH : Z := Z.lor CC_ALL DF_MASK.
Definition CR0_SMM_CLEAR : Z := Z.lor (Z.lor (Z.lor CR0_PE_MASK CR0_EM_MASK) CR0_TS_MASK) CR0_PG_MASK.

(** ** The state save map *)

Definition sm_state (env : CPUX86State) : Z := u32 (smbase env + 0x8000).

(** The address of an offset. *)
Definition sm_at (sm off : Z) : Z := u32 (sm + off).

Definition seg_offset (i : Z) : Z := if i <? 3 then 0x7f84 + i * 12 else 0x7f2c + (i - 3) * 12.

Definition saved_flags (sc : SegmentCache) : Z := Z.land (Z.shiftr (sflags sc) 8) 0xf0ff.

(** The stores, in their order. *)
Definition save_seg (env : CPUX86State) (i : Z) : list entry :=
  let dt := seg env (Z.to_nat i) in
  let offset := seg_offset i in
  [stl (0x7fa8 + i * 4) (selector dt); stl (offset + 8) (base dt); stl (offset + 4) (limit dt); stl offset (saved_flags dt)].

Definition save_map (env : CPUX86State) : list entry :=
  [stl 0x7ffc (crx env 0); stl 0x7ff8 (crx env 3); stl 0x7ff4 (cpu_compute_eflags env); stl 0x7ff0 (eip env);
   stl 0x7fec (reg env R_EDI); stl 0x7fe8 (reg env R_ESI); stl 0x7fe4 (reg env R_EBP); stl 0x7fe0 (reg env R_ESP);
   stl 0x7fdc (reg env R_EBX); stl 0x7fd8 (reg env R_EDX); stl 0x7fd4 (reg env R_ECX); stl 0x7fd0 (reg env R_EAX);
   stl 0x7fcc (drx env 6); stl 0x7fc8 (drx env 7);
   stl 0x7fc4 (selector (tr env)); stl 0x7f64 (base (tr env)); stl 0x7f60 (limit (tr env)); stl 0x7f5c (saved_flags (tr env));
   stl 0x7fc0 (selector (ldt env)); stl 0x7f80 (base (ldt env)); stl 0x7f7c (limit (ldt env)); stl 0x7f78 (saved_flags (ldt env));
   stl 0x7f74 (base (gdt env)); stl 0x7f70 (limit (gdt env));
   stl 0x7f58 (base (idt env)); stl 0x7f54 (limit (idt env))] ++
  concat (map (save_seg env) [0; 1; 2; 3; 4; 5]) ++
  [stl 0x7f14 (crx env 4); stl 0x7efc (SMM_REVISION_ID); stl 0x7ef8 (smbase env)].

(** The segment registers on entry. *)
Definition smm_seg (r : nat) (env : CPUX86State) : CPUX86State := cpu_x86_load_seg_cache r 0 0 0xffffffff 0 env.

Definition smm_segs (env : CPUX86State) : CPUX86State :=
  let env := cpu_x86_load_seg_cache R_CS (Z.land (Z.shiftr (smbase env) 4) 0xffff) (smbase env) 0xffffffff 0 env in
  smm_seg R_GS (smm_seg R_FS (smm_seg R_SS (smm_seg R_ES (smm_seg R_DS env)))).

Section Smm.
Context {G : Type} `{!SoftMmu G, !PhysMem G, !Chipset G}.

(** [cpu_smm_update(env)]: system management memory is mapped in this mode only. *)
Definition smm_update : K G unit := fun env g => KRet tt env (cpu_smm_update (has (hflags env) HF_SMM_MASK) g).

Definition do_smm_enter : K G unit :=
  kmod (fun env => with_hflags (Z.lor (hflags env) HF_SMM_MASK) env) ;;
  smm_update ;;
  env <- kget ;;
  kmem (put_image (sm_at (sm_state env)) (save_map env)) ;;
  kmod (cpu_load_eflags 0 (Z.lnot ARITH)) ;;
  kmod (with_eip 0x8000) ;;
  kmod smm_segs ;;
  cpu_x86_update_cr0 (Z.land (crx env 0) (not32 CR0_SMM_CLEAR)) ;;
  cpu_x86_update_cr4 0 ;;
  kmod (set_dr 7 0x400) ;;
  kmod (with_cc_op CC_OP_EFLAGS).

Definition ldl (sm off : Z) : K G Z := ld 4 (sm_at sm off).

Definition rsm_flags (v : Z) : Z := u32 (Z.shiftl (Z.land v 0xf0ff) 8).

Definition with_selector (v : Z) (sc : SegmentCache) : SegmentCache := mkSeg (Z.land v 0xffff) (base sc) (limit sc) (sflags sc).
Definition with_base (v : Z) (sc : SegmentCache) : SegmentCache := mkSeg (selector sc) v (limit sc) (sflags sc).
Definition with_limit (v : Z) (sc : SegmentCache) : SegmentCache := mkSeg (selector sc) (base sc) v (sflags sc).
Definition with_rights (v : Z) (sc : SegmentCache) : SegmentCache := mkSeg (selector sc) (base sc) (limit sc) (rsm_flags v).

Definition rsm_seg (sm : Z) (i : Z) : K G unit :=
  let offset := seg_offset i in
  sel <- ldl sm (0x7fa8 + i * 4) ;; bas <- ldl sm (offset + 8) ;; lim <- ldl sm (offset + 4) ;; fl <- ldl sm offset ;;
  kmod (cpu_x86_load_seg_cache (Z.to_nat i) (Z.land sel 0xffff) bas lim (rsm_flags fl)).

(** The registers up to the debug registers. *)
Definition rsm_regs (sm : Z) : K G unit :=
  let load off := load 4 (sm_at sm off) in
  load 0x7ff4 (fun v => cpu_load_eflags v (Z.lnot ARITH)) ;; load 0x7ff0 with_eip ;;
  load 0x7fec (put_reg R_EDI) ;; load 0x7fe8 (put_reg R_ESI) ;; load 0x7fe4 (put_reg R_EBP) ;; load 0x7fe0 (put_reg R_ESP) ;;
  load 0x7fdc (put_reg R_EBX) ;; load 0x7fd8 (put_reg R_EDX) ;; load 0x7fd4 (put_reg R_ECX) ;; load 0x7fd0 (put_reg R_EAX) ;;
  load 0x7fcc (set_dr 6) ;; load 0x7fc8 (set_dr 7).

(** The registers of the descriptor tables. *)
Definition on_tr (f : Z -> SegmentCache -> SegmentCache) (v : Z) (env : CPUX86State) : CPUX86State := with_tr (f v (tr env)) env.
Definition on_ldt (f : Z -> SegmentCache -> SegmentCache) (v : Z) (env : CPUX86State) : CPUX86State := with_ldt (f v (ldt env)) env.
Definition on_gdt (f : Z -> SegmentCache -> SegmentCache) (v : Z) (env : CPUX86State) : CPUX86State := with_gdt (f v (gdt env)) env.
Definition on_idt (f : Z -> SegmentCache -> SegmentCache) (v : Z) (env : CPUX86State) : CPUX86State := with_idt (f v (idt env)) env.

Definition rsm_tables (sm : Z) : K G unit :=
  let load off := load 4 (sm_at sm off) in
  load 0x7fc4 (on_tr with_selector) ;; load 0x7f64 (on_tr with_base) ;; load 0x7f60 (on_tr with_limit) ;; load 0x7f5c (on_tr with_rights) ;;
  load 0x7fc0 (on_ldt with_selector) ;; load 0x7f80 (on_ldt with_base) ;; load 0x7f7c (on_ldt with_limit) ;; load 0x7f78 (on_ldt with_rights) ;;
  load 0x7f74 (on_gdt with_base) ;; load 0x7f70 (on_gdt with_limit) ;;
  load 0x7f58 (on_idt with_base) ;; load 0x7f54 (on_idt with_limit).

Definition rsm_smbase (sm : Z) : K G unit :=
  val <- ldl sm 0x7efc ;;
  if has val 0x20000 then load 4 (sm_at sm 0x7ef8) (fun v => with_smbase (Z.land v (not32 0x7fff))) else kret tt.

Definition helper_rsm : K G unit :=
  env <- kget ;;
  let sm := sm_state env in
  (v <- ldl sm 0x7ffc ;; cpu_x86_update_cr0 v) ;;
  (v <- ldl sm 0x7ff8 ;; cpu_x86_update_cr3 v) ;;
  rsm_regs sm ;;
  rsm_tables sm ;;
  kiter (rsm_seg sm) 6 0 ;;
  (v <- ldl sm 0x7f14 ;; cpu_x86_update_cr4 v) ;;
  rsm_smbase sm ;;
  kmod (with_cc_op CC_OP_EFLAGS) ;;
  kmod (fun env => with_hflags (Z.land (hflags env) (not32 HF_SMM_MASK)) env) ;;
  smm_update.
End Smm.
