(* ===== verification/SmmRound.v ===== *)
(** * System management mode is left as it was entered

    The state save map is a round trip: whatever the handler does, as long as it
    leaves the map alone, RSM resumes the interrupted program with the registers it
    had. The level is not part of the map. *)

From stdpp Require Import base list.
From Stdlib Require Import ZArith Lia.
From S2P Require Import Prelude Cpu CcHelper Excp Guest Mmu MmuWalk Seg SegSpec SegTask SegInv SoftMmu TlbWalk PhysMem CtrlRegs CtrlTlb DebugRegs Image Smm.

Local Open Scope Z_scope.
Local Open Scope k_scope.

#[export] Instance phys_flush : @FlushKeeps phys phys_mmu phys_mem.
Proof. by intros n a g. Qed.

Lemma save_map_ok env : image_ok (save_map env).*1 = true.
Proof. reflexivity. Qed.

(** ** What is restored *)

(** What the map keeps of a segment register. *)
Definition saved_seg (sc : SegmentCache) : SegmentCache :=
  mkSeg (selector sc) (base sc) (limit sc) (Z.land (sflags sc) 0xf0ff00).

Record seg_range (sc : SegmentCache) : Prop := {
  sr_selector : in_range 16 (selector sc);
  sr_base : in_range 32 (base sc);
  sr_limit : in_range 32 (limit sc)
}.

Definition is32 (x : Z) : Prop := in_range 32 x.

(** Registers of their widths, in arrays of their lengths. *)
Record cpu_ok (env : CPUX86State) : Prop := {
  so_regs : length (regs env) = 8%nat;
  so_reg : Forall is32 (regs env);
  so_eip : in_range 32 (eip env);
  so_eflags : eflags_ok env;
  so_segs : length (segs env) = 6%nat;
  so_seg : Forall seg_range (segs env);
  so_tr : seg_range (tr env);
  so_ldt : seg_range (ldt env);
  so_gdt : in_range 32 (base (gdt env)) /\ in_range 32 (limit (gdt env));
  so_idt : in_range 32 (base (idt env)) /\ in_range 32 (limit (idt env));
  so_cr : length (cr env) = 5%nat /\ Forall is32 (cr env);
  so_dr : length (dr env) = 8%nat /\ Forall is32 (dr env);
  so_cr0 : Z.lor (crx env 0) CR0_ET_MASK = crx env 0;
  so_cr4 : kept_cr4 (crx env 4) env = crx env 4
}.

Record smm_ok (env : CPUX86State) : Prop := {
  so_cpu :> cpu_ok env;
  so_smbase : in_range 32 (smbase env) /\ smbase env mod 0x8000 = 0
}.

Lemma seg_in_range env i : cpu_ok env -> (i < 6)%nat -> seg_range (seg env i).
Proof.
  intros Hok Hi. destruct (lookup_lt_is_Some_2 (segs env) i) as [sc E]; [by rewrite (so_segs _ Hok)|].
  unfold seg. rewrite (nth_lookup_Some _ _ _ _ E). by apply (Forall_lookup_1 _ _ _ _ (so_seg _ Hok) E).
Qed.

Lemma nth_id l n : Forall is32 l -> u32 (nth n l 0) = nth n l 0.
Proof.
  intros H. apply u32_id. rewrite nth_lookup. destruct (l !! n) eqn:E; [|done]. by apply (Forall_lookup_1 _ _ _ _ H E).
Qed.

(** The two halves of the rights go through the map together. *)
Lemma rights_kept fl : rsm_flags (u32 (Z.land (Z.shiftr fl 8) 0xf0ff)) = Z.land fl 0xf0ff00.
Proof.
  unfold rsm_flags. apply Z.bits_inj'. intros i Hi. rewrite u32_bits, Z.land_spec by done.
  destruct (Z.ltb_spec i 32); cbn [andb].
  - destruct (Z.lt_ge_cases i 8).
    + rewrite Z.shiftl_spec_low by done. change 0xf0ff00 with (Z.shiftl 0xf0ff 8). by rewrite Z.shiftl_spec_low, andb_false_r by done.
    + rewrite Z.shiftl_spec, Z.land_spec, u32_bits, Z.land_spec, Z.shiftr_spec by lia. change 0xf0ff00 with (Z.shiftl 0xf0ff 8).
      rewrite Z.shiftl_spec by lia. replace (i - 8 + 8) with i by lia. destruct (Z.ltb_spec (i - 8) 32); [|lia].
      cbn [andb]. by rewrite <-andb_assoc, andb_diag.
  - rewrite (testbit_high 32 0xf0ff00) by (lia || done). by rewrite andb_false_r.
Qed.

Lemma sel_kept x : in_range 16 x -> Z.land (u32 x) 0xffff = x.
Proof.
  intros H. assert (in_range 32 x) by (change (2 ^ 16) with 65536 in H; change (2 ^ 32) with 4294967296; lia).
  rewrite u32_id by done. change 0xffff with (Z.ones 16). rewrite Z.land_ones by done. by apply Z.mod_small.
Qed.

(** Every element of an array of eight is written. *)
Lemma put_all (l l0 : list Z) :
  length l = 8%nat -> length l0 = 8%nat ->
  <[R_EAX := nth R_EAX l0 0]> (<[R_ECX := nth R_ECX l0 0]> (<[R_EDX := nth R_EDX l0 0]> (<[R_EBX := nth R_EBX l0 0]>
    (<[R_ESP := nth R_ESP l0 0]> (<[R_EBP := nth R_EBP l0 0]> (<[R_ESI := nth R_ESI l0 0]> (<[R_EDI := nth R_EDI l0 0]> l))))))) = l0.
Proof.
  do 9 (destruct l as [|? l]; try done). do 9 (destruct l0 as [|? l0]; try done).
Qed.

Lemma put_reg_new r v env : put_reg r v env = with_regs (<[r := u32 v]> (regs env)) env.
Proof. done. Qed.
Lemma put_reg_twice r v l env : put_reg r v (with_regs l env) = with_regs (<[r := u32 v]> l) env.
Proof. done. Qed.
Lemma set_dr_new r v l env : set_dr r v (with_regs l env) = with_dr (<[r := u32 v]> (dr env)) (with_regs l env).
Proof. done. Qed.
Lemma set_dr_twice r v l env : set_dr r v (with_dr l env) = with_dr (<[r := u32 v]> l) env.
Proof. done. Qed.

Lemma tr_new f v env : on_tr f v env = with_tr (f v (tr env)) env.
Proof. done. Qed.
Lemma tr_twice f v sc env : on_tr f v (with_tr sc env) = with_tr (f v sc) env.
Proof. done. Qed.
Lemma ldt_new f v env : on_ldt f v env = with_ldt (f v (ldt env)) env.
Proof. done. Qed.
Lemma ldt_twice f v sc env : on_ldt f v (with_ldt sc env) = with_ldt (f v sc) env.
Proof. done. Qed.
Lemma gdt_new f v env : on_gdt f v env = with_gdt (f v (gdt env)) env.
Proof. done. Qed.
Lemma gdt_twice f v sc env : on_gdt f v (with_gdt sc env) = with_gdt (f v sc) env.
Proof. done. Qed.
Lemma idt_new f v env : on_idt f v env = with_idt (f v (idt env)) env.
Proof. done. Qed.
Lemma idt_twice f v sc env : on_idt f v (with_idt sc env) = with_idt (f v sc) env.
Proof. done. Qed.

Lemma four_fields s b l r sc : with_rights r (with_limit l (with_base b (with_selector s sc))) = mkSeg (Z.land s 0xffff) b l (rsm_flags r).
Proof. done. Qed.
Lemma two_fields b l sc : with_limit l (with_base b sc) = mkSeg (selector sc) b l (sflags sc).
Proof. done. Qed.

Section Restore.
Context {G : Type} `{!SoftMmu G, !PhysMem G, !PhysMemSpec G, !Chipset G, !FlushKeeps G}.
Context (sm : Z) (e0 : CPUX86State) (Hok : cpu_ok e0).

Lemma regs_run : exists f, runs (sm_at sm) (save_map e0) (rsm_regs (G := G) sm) f /\
  forall env, length (regs env) = 8%nat ->
    f env = with_dr (<[7%nat := drx e0 7]> (<[6%nat := drx e0 6]> (dr env)))
              (with_regs (regs e0) (with_eip (eip e0) (cpu_load_eflags (cpu_compute_eflags e0) (Z.lnot ARITH) env))).
Proof.
  eexists. split.
  { unfold rsm_regs. cbv zeta. repeat eapply runs_seq; eapply runs_loadl; reflexivity. }
  intros env Hl. cbv beta. pose proof (so_reg _ Hok) as Hr. destruct (so_dr _ Hok) as [_ Hd].
  rewrite (u32_id (cpu_compute_eflags e0)), (u32_id (eip e0)) by (apply compute_eflags_range, Hok || apply Hok).
  unfold reg, drx. rewrite !(nth_id (regs e0)), !(nth_id (dr e0)) by done. set (e1 := with_eip _ _).
  rewrite (put_reg_new R_EDI), !put_reg_twice, !(nth_id (regs e0)), put_all by (done || apply Hok).
  rewrite set_dr_new, set_dr_twice, !(nth_id (dr e0)) by done. change (dr e1) with (dr env). reflexivity.
Qed.

Lemma tables_run : exists f, runs (sm_at sm) (save_map e0) (rsm_tables (G := G) sm) f /\
  forall env,
    f env = with_idt (mkSeg (selector (idt env)) (base (idt e0)) (limit (idt e0)) (sflags (idt env)))
             (with_gdt (mkSeg (selector (gdt env)) (base (gdt e0)) (limit (gdt e0)) (sflags (gdt env)))
               (with_ldt (saved_seg (ldt e0)) (with_tr (saved_seg (tr e0)) env))).
Proof.
  eexists. split.
  { unfold rsm_tables. cbv zeta. repeat eapply runs_seq; eapply runs_loadl; reflexivity. }
  intros env. cbv beta. destruct (so_tr _ Hok), (so_ldt _ Hok), (so_gdt _ Hok), (so_idt _ Hok).
  rewrite (tr_new with_selector), !tr_twice, (ldt_new with_selector), !ldt_twice, (gdt_new with_base), gdt_twice, (idt_new with_base), idt_twice.
  rewrite !four_fields, !two_fields. unfold saved_flags. rewrite !rights_kept, !sel_kept, !u32_id by done. reflexivity.
Qed.

(** The segment registers, one after the other. *)
Definition restore_seg (i : nat) : CPUX86State -> CPUX86State :=
  let sc := saved_seg (seg e0 i) in cpu_x86_load_seg_cache i (selector sc) (base sc) (limit sc) (sflags sc).
Definition restore_segs (env : CPUX86State) : CPUX86State :=
  foldl (fun e i => restore_seg i e) env (seq 0 6).

Lemma seg_run i : (i < 6)%nat -> runs (sm_at sm) (save_map e0) (rsm_seg (G := G) sm (Z.of_nat i)) (restore_seg i).
Proof.
  intros Hi. destruct (seg_in_range e0 i Hok Hi) as [Hs Hb Hl].
  apply (runs_ext _ _ _ (cpu_x86_load_seg_cache i (Z.land (u32 (selector (seg e0 i))) 0xffff) (u32 (base (seg e0 i)))
    (u32 (limit (seg e0 i))) (rsm_flags (u32 (saved_flags (seg e0 i)))))).
  - unfold rsm_seg. rewrite Nat2Z.id. cbv zeta.
    do 6 (destruct i as [|i]; [repeat (eapply runs_ld; [reflexivity|]); apply runs_mod|]). lia.
  - intros env. unfold restore_seg, saved_seg, saved_flags. cbn [selector base limit sflags].
    by rewrite rights_kept, sel_kept, !u32_id by done.
Qed.

Lemma segs_run : runs (sm_at sm) (save_map e0) (kiter (rsm_seg (G := G) sm) 6 0) restore_segs.
Proof. apply (runs_iter _ _ _ restore_seg 6 0). intros j Hj. apply seg_run. lia. Qed.
End Restore.

(** ** Hidden flags *)

(** Both groups of hidden flags: those of the control registers and those of the
    segment registers. *)
Definition hflags_ok (env : CPUX86State) : Prop := CtrlTlb.hidden_ok env /\ SegInv.hidden_ok env.

Lemma hflags_ext e e' : hflags e' = hflags e -> cr e' = cr e -> segs e' = segs e -> hflags_ok e -> hflags_ok e'.
Proof.
  intros H1 H2 H3 [[] H]. split; [split; unfold crx in *; by rewrite H1, H2|].
  revert H. unfold SegInv.hidden_ok, flat, seg. by rewrite H1, H3.
Qed.

(** The bits of the hidden flags that a write of CR0 or CR4 leaves alone. *)
Lemma put_cr0_bit v env k : 0 <= k < 32 -> negb (one_of [6; 7; 9; 10; 11] k) = true ->
  Z.testbit (hflags (put_cr0 v env)) k = Z.testbit (hflags env) k.
Proof.
  intros Hk Hn. apply negb_true_iff in Hn. unfold one_of in Hn. cbn [existsb] in Hn. rewrite !orb_false_iff, !Z.eqb_neq in Hn.
  unfold put_cr0. cbv zeta. cbn [hflags with_hflags set_cr with_cr].
  set (pe := Z.land (crx _ _) CR0_PE_MASK). assert (0 <= pe < 2) as Hpe.
  { unfold pe. change CR0_PE_MASK with (Z.ones 1). rewrite Z.land_ones by done. by apply Z.mod_pos_bound. }
  clearbody pe.
  assert (forall x j, 0 <= x < 2 -> 0 <= j -> k <> j -> Z.testbit (Z.shiftl x j) k = false) as Hsh.
  { intros x j Hx Hj Hne. rewrite Z.shiftl_spec by lia. destruct (Z.lt_ge_cases k j); [by apply Z.testbit_neg_r; lia|].
    apply (testbit_high 1); [lia|done]. }
  assert (0 <= Z.lxor pe 1 < 2) by (assert (pe = 0 \/ pe = 1) as [-> | ->] by lia; by split).
  assert (Z.testbit HF_FPU k = false) as Hf.
  { change HF_FPU with (Z.lor (Z.lor (2 ^ 9) (2 ^ 10)) (2 ^ 11)). rewrite !Z.lor_spec, !Z.pow2_bits_false by lia. done. }
  rewrite !Z.lor_spec, !Z.land_spec, Hf, !Z.lor_spec, !Z.land_spec, !testbit_not32, Hf by lia.
  rewrite !Hsh by (done || unfold HF_PE_SHIFT, HF_ADDSEG_SHIFT; lia).
  change HF_PE_MASK with (2 ^ 7). rewrite Z.pow2_bits_false by lia. by rewrite !andb_true_r, andb_false_r, !orb_false_r.
Qed.

Lemma put_cr4_bit v env k : 0 <= k < 32 -> k <> 22 -> k <> 23 ->
  Z.testbit (hflags (put_cr4 v env)) k = Z.testbit (hflags env) k.
Proof.
  intros Hk H22 H23. rewrite put_cr4_hflags, !Z.lor_spec, !Z.land_spec, !Z.lor_spec, !Z.land_spec, !testbit_not32 by lia.
  assert (forall b : bool, Z.testbit (if b then HF_OSFXSR_MASK else 0) k = false) as ->.
  { intros []; [|apply Z.bits_0]. change HF_OSFXSR_MASK with (2 ^ 22). apply Z.pow2_bits_false. lia. }
  assert (forall b : bool, Z.testbit (if b then HF_SMAP_MASK else 0) k = false) as ->.
  { intros []; [|apply Z.bits_0]. change HF_SMAP_MASK with (2 ^ 23). apply Z.pow2_bits_false. lia. }
  change HF_OSFXSR_MASK with (2 ^ 22). change HF_SMAP_MASK with (2 ^ 23). rewrite !Z.pow2_bits_false by lia.
  by rewrite !orb_false_r, !andb_true_r.
Qed.

Lemma seg_hidden_kept env env' :
  segs env' = segs env -> (forall k, In k [4; 5; 15] -> Z.testbit (hflags env') k = Z.testbit (hflags env) k) ->
  (Z.testbit (hflags env) 6 = true -> Z.testbit (hflags env') 6 = true) -> SegInv.hidden_ok env -> SegInv.hidden_ok env'.
Proof.
  intros Hs Hb H6 (H1 & H2 & H3 & H4 & H5). unfold SegInv.hidden_ok, flat, seg in *. rewrite Hs.
  change HF_CS32_MASK with (2 ^ 4) in *. change HF_SS32_MASK with (2 ^ 5) in *. change HF_CS64_MASK with (2 ^ 15) in *.
  change HF_ADDSEG_MASK with (2 ^ 6) in *. rewrite !(has_bit (hflags _)) in * by done.
  rewrite !Hb by (simpl; tauto). split_and!; try done. intros E. apply H5. destruct (Z.testbit (hflags env) 6); [|done].
  by rewrite H6 in E.
Qed.

(** The bits that the hidden flags consist of. *)
Definition hidden_bits : list Z := [4; 5; 6; 7; 9; 10; 11; 15; 22; 23].

Lemma hflags_bits h env :
  (forall k, In k hidden_bits -> Z.testbit h k = Z.testbit (hflags env) k) -> hflags_ok env -> hflags_ok (with_hflags h env).
Proof.
  intros Hb [[] Hs]. split.
  - split; cbn [hflags with_hflags]; change (crx (with_hflags h env)) with (crx env); rewrite Hb by (simpl; tauto); done.
  - apply (seg_hidden_kept env); [done| | |done]; cbn [hflags with_hflags].
    + intros k [<- | [<- | [<- | []]]]; apply Hb; simpl; tauto.
    + rewrite Hb by (simpl; tauto). done.
Qed.

Lemma hidden_bits_range k : In k hidden_bits -> 2 <= k < 32 /\ one_of [0; 1; 3; 14; 19; 20; 21] k = false.
Proof. intros H. repeat (destruct H as [<-|H]; [done|]). destruct H. Qed.

(** Only CR4 and hidden flags change. *)
Lemma put_cr4_only v env : put_cr4 v env = with_hflags (hflags (put_cr4 v env)) (with_cr (cr (put_cr4 v env)) env).
Proof.
  unfold put_cr4. cbv zeta. set (w := if negb (has (feature env FEAT_1_EDX) CPUID_SSE) then _ else v).
  destruct (has w CR4_OSFXSR_MASK).
  - generalize (Z.lor (hflags (with_hflags (Z.land (hflags env) (not32 HF_OSFXSR_MASK)) env)) HF_OSFXSR_MASK). intros h.
    set (w' := if negb _ then Z.land w _ else w). by destruct (has w' CR4_SMAP_MASK).
  - generalize (Z.land (hflags env) (not32 HF_OSFXSR_MASK)). intros h.
    set (w' := if negb _ then Z.land w _ else w). by destruct (has w' CR4_SMAP_MASK).
Qed.

Lemma hflags_cr0 v env : ctrl_ok env -> hflags_ok env -> hflags_ok (put_cr0 v env).
Proof.
  intros Hc [H1 H2]. split; [by apply hidden_cr0|]. apply (seg_hidden_kept env); [done| | |done].
  - intros k Hk. destruct Hk as [<- | [<- | [<- | []]]]; by apply put_cr0_bit.
  - intros H6. unfold put_cr0. cbv zeta. cbn [hflags with_hflags set_cr with_cr].
    rewrite !Z.lor_spec, !Z.land_spec, !Z.lor_spec, !Z.land_spec, H6. done.
Qed.

Lemma hflags_cr4 v env : ctrl_ok env -> hflags_ok env -> hflags_ok (put_cr4 v env).
Proof.
  intros Hc [H1 H2]. split; [by apply hidden_cr4|]. apply (seg_hidden_kept env); [by rewrite put_cr4_only| | |done].
  - intros k Hk. destruct Hk as [<- | [<- | [<- | []]]]; by apply put_cr4_bit.
  - by rewrite put_cr4_bit.
Qed.

Lemma load_seg_bit r sel bas lim fl env k :
  0 <= k < 32 -> free_bit k = true -> Z.testbit (hflags (cpu_x86_load_seg_cache r sel bas lim fl env)) k = Z.testbit (hflags env) k.
Proof.
  intros Hk Hf. rewrite load_seg_bits by done. unfold free_bit, one_of in Hf. cbn [existsb] in Hf.
  apply negb_true_iff in Hf. rewrite !orb_false_iff in Hf. destruct Hf as (-> & -> & -> & -> & _). by destruct (r =? R_CS)%nat.
Qed.

Lemma hflags_load r sel bas lim fl env : (r < 6)%nat -> hflags_ok env -> hflags_ok (cpu_x86_load_seg_cache r sel bas lim fl env).
Proof.
  intros Hr [H1 H2]. pose proof (SegInv.hidden_load r sel bas lim fl env H2 Hr) as H2'. split; [|done].
  pose proof (load_seg_only r sel bas lim fl env) as Ho. destruct H2' as (_ & _ & _ & H15 & _).
  assert (cr (cpu_x86_load_seg_cache r sel bas lim fl env) = cr env) as Hcr by (by rewrite Ho).
  destruct H1 as [P1 P2 P3 P4 P5 P6 P7]. split; unfold crx in *; rewrite ?Hcr, ?load_seg_bit by done; try done.
  intros H0. rewrite load_seg_bits by done. cbn [Z.eqb Pos.eqb]. unfold needs_base. rewrite H15, Hcr.
  change CR0_PE_MASK with (2 ^ 0). by rewrite has_bit, H0 by done.
Qed.

Lemma ctrl_ext e e' : cr e' = cr e -> features e' = features e -> ctrl_ok e -> ctrl_ok e'.
Proof. intros H1 H2 [H3 H4]. split; unfold crx, feature in *; by rewrite H1, ?H2. Qed.

Lemma ctrl_load r sel bas lim fl env : ctrl_ok env -> ctrl_ok (cpu_x86_load_seg_cache r sel bas lim fl env).
Proof. apply ctrl_ext; by rewrite (load_seg_only r sel bas lim fl env). Qed.

(** Bits of the hidden flags that no step of SMM changes but its own. *)
Definition kept_bit (k : Z) : Prop := k = 0 \/ k = 1 \/ k = 19.

Lemma kept_steps k env env' :
  kept_bit k -> (exists v, env' = put_cr0 v env) \/ (exists v, env' = put_cr4 v env) \/
    (exists r sel bas lim fl, env' = cpu_x86_load_seg_cache r sel bas lim fl env) ->
  Z.testbit (hflags env') k = Z.testbit (hflags env) k.
Proof.
  intros Hk [[v ->]|[[v ->]|(r & sel & bas & lim & fl & ->)]].
  - apply put_cr0_bit; by destruct Hk as [-> | [-> | ->]].
  - apply put_cr4_bit; by destruct Hk as [-> | [-> | ->]].
  - apply load_seg_bit; by destruct Hk as [-> | [-> | ->]].
Qed.

Section Segs.
Context (e0 : CPUX86State) (Hok : cpu_ok e0).

Lemma restore_seg_segs i env : (i < 6)%nat -> segs (restore_seg e0 i env) = <[i := saved_seg (seg e0 i)]> (segs env).
Proof.
  intros Hi. unfold restore_seg. rewrite load_seg_segs. f_equal.
  destruct (seg_in_range e0 i Hok Hi) as [Hs Hb Hl].
  unfold saved_seg. cbn [selector base limit sflags]. f_equal; apply u32_id; try done.
  - change (2 ^ 16) with 65536 in Hs. change (2 ^ 32) with 4294967296. lia.
  - apply (in_range_within 0xf0ff00); [done|]. unfold CcHelper.within. by rewrite <-Z.land_assoc.
Qed.

Lemma restore_segs_segs env : length (segs env) = 6%nat -> segs (restore_segs e0 env) = map saved_seg (segs e0).
Proof.
  intros Hl. unfold restore_segs. cbn [seq foldl]. rewrite !restore_seg_segs by lia. pose proof (so_segs _ Hok) as Hl0. unfold seg.
  destruct (segs env) as [|? [|? [|? [|? [|? [|? [|]]]]]]]; try done.
  destruct (segs e0) as [|? [|? [|? [|? [|? [|? [|]]]]]]]; done.
Qed.

(** What loading the six registers keeps. *)
Lemma restore_segs_kept (P : CPUX86State -> Prop) env :
  (forall r sel bas lim fl e, (r < 6)%nat -> P e -> P (cpu_x86_load_seg_cache r sel bas lim fl e)) -> P env -> P (restore_segs e0 env).
Proof. intros H HP. unfold restore_segs. cbn [seq foldl]. unfold restore_seg. do 6 (apply H; [lia|]). done. Qed.
End Segs.

(** ** Flags *)

(** Flags saved by one CPU state and loaded into another, which keeps none of the
    arithmetic flags itself. *)
Lemma eflags_transfer env env' :
  eflags_ok env -> Z.land (eflags env') ARITH = 0 ->
  cpu_compute_eflags (load_eflags (cpu_compute_eflags env) (Z.lnot ARITH) env') = cpu_compute_eflags env.
Proof.
  intros Hok Hz. rewrite <-(eflags_reload env (Z.lnot ARITH) Hok) at 2. destruct Hok as (_ & Hz' & _). change (Z.lor CC_ALL DF_MASK) with ARITH in Hz'.
  generalize (cpu_compute_eflags env). intros fl. unfold cpu_compute_eflags, load_eflags, helper_write_eflags, cpu_load_eflags.
  cbn [eflags cc_op df with_cc_op with_eflags with_df with_cc_src]. rewrite Z.lnot_involutive. change (u32 ARITH) with ARITH.
  rewrite Hz, Hz'. done.
Qed.

Lemma compute_eflags_ext env env' :
  eflags env' = eflags env -> cc_src env' = cc_src env -> df env' = df env -> cc_op env' = CC_OP_EFLAGS -> cc_op env = CC_OP_EFLAGS ->
  cpu_compute_eflags env' = cpu_compute_eflags env.
Proof. intros H1 H2 H3 H4 H5. unfold cpu_compute_eflags, cpu_cc_compute_all. rewrite H1, H3, H4, H5. simpl. by rewrite H2. Qed.

(** ** Properties *)

(** The CPU as an SMI starts the handler. *)
Record entered (env env1 : CPUX86State) : Prop := {
  en_eip : eip env1 = 0x8000;
  en_cs : seg env1 R_CS = mkSeg (Z.land (Z.shiftr (smbase env) 4) 0xffff) (smbase env) 0xffffffff 0;
  en_data : Forall (fun r => seg env1 r = mkSeg 0 0 0xffffffff 0) [R_ES; R_SS; R_DS; R_FS; R_GS];
  en_real : has (crx env1 0) CR0_PE_MASK = false /\ has (crx env1 0) CR0_PG_MASK = false /\ crx env1 4 = 0;
  en_eflags : cpu_compute_eflags env1 = 0x2;
  en_smm : has (hflags env1) HF_SMM_MASK = true;
  en_hidden : hflags_ok env1;
  en_level : cpl_of env1 = cpl_of env
}.

(** What a handler must leave as it was; it may change everything else. *)
Record handler_ok (env env2 : CPUX86State) : Prop := {
  hn_smbase : smbase env2 = smbase env;
  hn_features : features env2 = features env;
  hn_regs : length (regs env2) = 8%nat;
  hn_segs : length (segs env2) = 6%nat;
  hn_ctrl : ctrl_ok env2;
  hn_dr : length (dr env2) = 8%nat;
  hn_eflags : Z.land (eflags env2) ARITH = 0;
  hn_hidden : hflags_ok env2
}.

(** The interrupted program goes on where it was. *)
Record resumed (env env3 : CPUX86State) : Prop := {
  rs_regs : regs env3 = regs env;
  rs_eip : eip env3 = eip env;
  rs_eflags : cpu_compute_eflags env3 = cpu_compute_eflags env;
  rs_segs : segs env3 = map saved_seg (segs env);
  rs_tr : tr env3 = saved_seg (tr env);
  rs_ldt : ldt env3 = saved_seg (ldt env);
  rs_gdt : base (gdt env3) = base (gdt env) /\ limit (gdt env3) = limit (gdt env);
  rs_idt : base (idt env3) = base (idt env) /\ limit (idt env3) = limit (idt env);
  rs_cr : crx env3 0 = crx env 0 /\ crx env3 3 = crx env 3 /\ crx env3 4 = crx env 4;
  rs_dr : drx env3 6 = drx env 6 /\ drx env3 7 = drx env 7;
  rs_smbase : smbase env3 = smbase env;
  rs_smm : has (hflags env3) HF_SMM_MASK = false;
  rs_hidden : hflags_ok env3
}.

Section Rsm.
Context {G : Type} `{!SoftMmu G, !PhysMem G, !PhysMemSpec G, !Chipset G, !FlushKeeps G}.
Context (e0 : CPUX86State) (Hok : smm_ok e0).
Let sm := sm_state e0.

Lemma smbase_run : runs (sm_at sm) (save_map e0) (rsm_smbase (G := G) sm) (with_smbase (smbase e0)).
Proof.
  unfold rsm_smbase. eapply runs_ld; [reflexivity|]. change (has (u32 SMM_REVISION_ID) 0x20000) with true. cbv iota.
  eapply runs_ext; [eapply runs_loadl; reflexivity|]. intros env. cbv beta. f_equal. destruct (so_smbase _ Hok) as [H1 H2].
  rewrite u32_id by done. apply Z.bits_inj'. intros i Hi. rewrite Z.land_spec. destruct (Z.lt_ge_cases i 32).
  - rewrite testbit_not32 by lia. change 0x7fff with (Z.ones 15). destruct (Z.lt_ge_cases i 15).
    + rewrite Z.ones_spec_low, andb_false_r by lia. symmetry. change 0x8000 with (2 ^ 15) in H2.
      rewrite (Z.div_mod (smbase e0) (2 ^ 15)), H2, Z.add_0_r, Z.mul_comm, Z.mul_pow2_bits by lia. apply Z.testbit_neg_r. lia.
    + rewrite Z.ones_spec_high, andb_true_r by lia. done.
  - by rewrite (testbit_high 32 (smbase e0)) by (lia || done).
Qed.

Lemma rsm_run env2 g2 :
  handler_ok e0 env2 -> sees (sm_at sm) (save_map e0) g2 ->
  exists a2 a3 a4 a7 a9 g3, helper_rsm (G := G) env2 g2 = KRet tt a9 g3 /\
    a2 = set_cr 3 (crx e0 3) (put_cr0 (crx e0 0) env2) /\
    a3 = with_dr (<[7%nat := drx e0 7]> (<[6%nat := drx e0 6]> (dr a2)))
           (with_regs (regs e0) (with_eip (eip e0) (cpu_load_eflags (cpu_compute_eflags e0) (Z.lnot ARITH) a2))) /\
    a4 = with_idt (mkSeg (selector (idt a3)) (base (idt e0)) (limit (idt e0)) (sflags (idt a3)))
          (with_gdt (mkSeg (selector (gdt a3)) (base (gdt e0)) (limit (gdt e0)) (sflags (gdt a3)))
            (with_ldt (saved_seg (ldt e0)) (with_tr (saved_seg (tr e0)) a3))) /\
    a7 = with_cc_op CC_OP_EFLAGS (with_smbase (smbase e0) (put_cr4 (crx e0 4) (restore_segs e0 a4))) /\
    a9 = with_hflags (Z.land (hflags a7) (not32 HF_SMM_MASK)) a7.
Proof.
  intros Hh Hg. unfold helper_rsm, kbind at 1, kget at 1. cbv zeta.
  assert (sm_state env2 = sm) as -> by (unfold sm, sm_state; by rewrite (hn_smbase _ _ Hh)).
  destruct (so_cr _ Hok) as [_ Hcr].
  assert (forall n, u32 (crx e0 n) = crx e0 n) as Hid by (intros n; by apply nth_id).
  edestruct (run_step (sm_at sm) (save_map e0)) as (g3 & -> & Hg3); [eapply runs_ld; [reflexivity|apply runs_cr0]|done|].
  edestruct (run_step (sm_at sm) (save_map e0)) as (g4 & -> & Hg4); [eapply runs_ld; [reflexivity|apply runs_cr3]|done|]. change (wrap (8 * Z.of_nat 4)) with u32. rewrite !Hid.
  destruct (regs_run (G := G) sm e0 Hok) as (fr & Hr & Er). edestruct (run_step (sm_at sm) (save_map e0)) as (g5 & -> & Hg5); [apply Hr|done|].
  rewrite Er by apply (hn_regs _ _ Hh).
  destruct (tables_run (G := G) sm e0 Hok) as (ft & Ht & Et). edestruct (run_step (sm_at sm) (save_map e0)) as (g6 & -> & Hg6); [apply Ht|done|]. rewrite Et.
  edestruct (run_step (sm_at sm) (save_map e0)) as (g7 & -> & Hg7); [apply segs_run, Hok|done|].
  edestruct (run_step (sm_at sm) (save_map e0)) as (g8 & -> & Hg8); [eapply runs_ld; [reflexivity|apply runs_cr4]|done|]. change (wrap (8 * Z.of_nat 4)) with u32. rewrite Hid.
  edestruct (run_step (sm_at sm) (save_map e0)) as (g9 & -> & Hg9); [by apply smbase_run|done|].
  eexists _, _, _, _, _, _. split; [reflexivity|]. split_and!; reflexivity.
Qed.

Lemma land_smm h k : 0 <= k < 32 -> k <> 19 -> Z.testbit (Z.land h (not32 HF_SMM_MASK)) k = Z.testbit h k.
Proof.
  intros Hk Hn. rewrite Z.land_spec, testbit_not32 by lia. change HF_SMM_MASK with (2 ^ 19).
  by rewrite Z.pow2_bits_false, andb_true_r by lia.
Qed.

Lemma hflags_cr3 v env : ctrl_ok env -> hflags_ok env -> hflags_ok (set_cr 3 v env).
Proof. intros Hc [H1 H2]. split; [by apply set_cr_hidden; [right| |]|exact H2]. Qed.

(** Only control registers, segment registers and what comes last change after the
    tables. *)
Lemma rsm_shape a4 h :
  let a5 := restore_segs e0 a4 in
  with_hflags h (with_cc_op CC_OP_EFLAGS (with_smbase (smbase e0) (put_cr4 (crx e0 4) a5))) =
  with_hflags h (with_cc_op CC_OP_EFLAGS (with_smbase (smbase e0) (with_cr (cr (put_cr4 (crx e0 4) a5)) (with_segs (segs a5) a4)))).
Proof.
  intros a5. rewrite put_cr4_only at 1. assert (only_segs a4 a5) as Ho.
  { apply (restore_segs_kept e0 (only_segs a4)); [|apply only_segs_refl].
    intros r sel bas lim fl e _ H. apply (only_segs_trans _ e); [done|apply load_seg_only]. }
  generalize (cr (put_cr4 (crx e0 4) a5)) (hflags (put_cr4 (crx e0 4) a5)). intros c h'. rewrite Ho. by destruct a4.
Qed.

(** The hidden flags and the level along the way. *)
Lemma rsm_hidden env2 a4 :
  handler_ok e0 env2 -> hflags a4 = hflags (put_cr0 (crx e0 0) env2) -> cr a4 = cr (set_cr 3 (crx e0 3) (put_cr0 (crx e0 0) env2)) ->
  segs a4 = segs env2 -> features a4 = features env2 ->
  let a6 := put_cr4 (crx e0 4) (restore_segs e0 a4) in
  ctrl_ok a4 /\ hflags_ok a6 /\ forall k, kept_bit k -> Z.testbit (hflags a6) k = Z.testbit (hflags env2) k.
Proof.
  intros Hh H1 H2 H3 H4 a6. pose proof (hn_ctrl _ _ Hh) as Hc2. set (a2 := set_cr 3 (crx e0 3) (put_cr0 (crx e0 0) env2)) in *.
  assert (ctrl_ok a2) as Hc by (apply set_cr_ok; [lia|]; by apply put_cr0_ok).
  assert (hflags_ok a2) as Hf by (apply hflags_cr3; [by apply put_cr0_ok|]; apply hflags_cr0; [done|apply (hn_hidden _ _ Hh)]).
  assert (ctrl_ok a4) as Hc4 by (by apply (ctrl_ext a2)). split; [done|].
  assert (hflags_ok a4) as Hf4 by (by apply (hflags_ext a2)). split.
  - apply hflags_cr4; [by apply (restore_segs_kept e0 ctrl_ok); [intros; apply ctrl_load|]|].
    apply (restore_segs_kept e0 hflags_ok); [intros; by apply hflags_load|done].
  - intros k Hk. unfold a6. rewrite (kept_steps k (restore_segs e0 a4)) by (done || right; left; by eexists).
    transitivity (Z.testbit (hflags a4) k); [|by rewrite H1, (kept_steps k env2) by (done || left; by eexists)].
    apply (restore_segs_kept e0 (fun e => Z.testbit (hflags e) k = Z.testbit (hflags a4) k)); [|done].
    intros r sel bas lim fl e _ <-. apply kept_steps; [done|]. right; right. by eexists _, _, _, _, _.
Qed.

Lemma rsm_cr env2 a4 :
  handler_ok e0 env2 -> ctrl_ok a4 -> cr a4 = cr (set_cr 3 (crx e0 3) (put_cr0 (crx e0 0) env2)) -> features a4 = features env2 ->
  let a6 := put_cr4 (crx e0 4) (restore_segs e0 a4) in crx a6 0 = crx e0 0 /\ crx a6 3 = crx e0 3 /\ crx a6 4 = crx e0 4.
Proof.
  intros Hh [Hl _] Hcr Hft a6. destruct (so_cr _ Hok) as [_ Hr]. destruct (hn_ctrl _ _ Hh) as [Hl2 _].
  assert (forall n, u32 (crx e0 n) = crx e0 n) as Hid by (intros n; by apply nth_id).
  assert (cr (restore_segs e0 a4) = cr a4 /\ features (restore_segs e0 a4) = features a4) as [Hc5 Hf5].
  { apply (restore_segs_kept e0 (fun e => cr e = cr a4 /\ features e = features a4)); [|done].
    intros r sel bas lim fl e _ [<- <-]. by rewrite (load_seg_only r sel bas lim fl e). }
  assert (forall m, crx a6 m = if Nat.eqb m 4 then crx e0 4 else crx a4 m) as Hc.
  { intros m. unfold a6. rewrite put_cr4_crx by (by rewrite Hc5).
    unfold crx at 2. rewrite Hc5. unfold kept_cr4, feature. rewrite Hf5, Hft, (hn_features _ _ Hh).
    pose proof (so_cr4 _ Hok) as H4. unfold kept_cr4, feature in H4. by rewrite H4, Hid. }
  rewrite !Hc. cbn [Nat.eqb]. split_and!; [| |done].
  - unfold crx at 1. rewrite Hcr. change (crx (set_cr 3 (crx e0 3) (put_cr0 (crx e0 0) env2)) 0 = crx e0 0).
    rewrite crx_set by (by rewrite (ck_cr _ (put_cr0_ok _ _ (hn_ctrl _ _ Hh))); lia). cbn [Nat.eqb].
    rewrite (crx_insert 0 0 (u32 (Z.lor (crx e0 0) CR0_ET_MASK)) env2) by (done || lia). cbn [Nat.eqb].
    by rewrite (so_cr0 _ Hok), Hid.
  - unfold crx at 1. rewrite Hcr. change (crx (set_cr 3 (crx e0 3) (put_cr0 (crx e0 0) env2)) 3 = crx e0 3).
    rewrite crx_set by (rewrite (ck_cr _ (put_cr0_ok _ _ (hn_ctrl _ _ Hh))); lia). cbn [Nat.eqb]. by rewrite Hid.
Qed.

Lemma set_cr_others n v env :
  hflags (set_cr n v env) = hflags env /\ segs (set_cr n v env) = segs env /\ features (set_cr n v env) = features env /\
  eflags (set_cr n v env) = eflags env /\ dr (set_cr n v env) = dr env.
Proof. done. Qed.

Lemma put_cr0_others v env :
  segs (put_cr0 v env) = segs env /\ features (put_cr0 v env) = features env /\ eflags (put_cr0 v env) = eflags env /\
  dr (put_cr0 v env) = dr env.
Proof. done. Qed.

(** The registers, once the steps are known. *)
Lemma resumed_fields env2 a2 a3 a4 a6 a9 :
  handler_ok e0 env2 -> eflags a2 = eflags env2 -> dr a2 = dr env2 ->
  a3 = with_dr (<[7%nat := drx e0 7]> (<[6%nat := drx e0 6]> (dr a2)))
         (with_regs (regs e0) (with_eip (eip e0) (cpu_load_eflags (cpu_compute_eflags e0) (Z.lnot ARITH) a2))) ->
  a4 = with_idt (mkSeg (selector (idt a3)) (base (idt e0)) (limit (idt e0)) (sflags (idt a3)))
        (with_gdt (mkSeg (selector (gdt a3)) (base (gdt e0)) (limit (gdt e0)) (sflags (gdt a3)))
          (with_ldt (saved_seg (ldt e0)) (with_tr (saved_seg (tr e0)) a3))) ->
  crx a6 0 = crx e0 0 /\ crx a6 3 = crx e0 3 /\ crx a6 4 = crx e0 4 ->
  a9 = with_hflags (hflags a9) (with_cc_op CC_OP_EFLAGS (with_smbase (smbase e0) (with_cr (cr a6) (with_segs (map saved_seg (segs e0)) a4)))) ->
  has (hflags a9) HF_SMM_MASK = false -> hflags_ok a9 -> resumed e0 a9.
Proof.
  intros Hh Q5 Q6 E3 E4 Hcr E9 Hsmm Hf. split; try done; rewrite E9.
  - rewrite E4, E3. reflexivity.
  - rewrite E4, E3. reflexivity.
  - transitivity (cpu_compute_eflags (load_eflags (cpu_compute_eflags e0) (Z.lnot ARITH) a2)).
    + apply compute_eflags_ext; rewrite ?E4, ?E3; reflexivity.
    + apply eflags_transfer; [apply (so_eflags _ Hok)|rewrite Q5; apply (hn_eflags _ _ Hh)].
  - reflexivity.
  - rewrite E4. reflexivity.
  - rewrite E4. reflexivity.
  - rewrite E4. split; reflexivity.
  - rewrite E4. split; reflexivity.
  - done.
  - unfold drx at 1 3. cbn [dr with_hflags with_cc_op with_smbase with_cr with_segs]. rewrite E4, E3.
    cbn [dr with_idt with_gdt with_ldt with_tr with_dr]. rewrite Q6. pose proof (hn_dr _ _ Hh) as Hd.
    destruct (dr env2) as [|? [|? [|? [|? [|? [|? [|? [|? [|]]]]]]]]]; done.
  - reflexivity.
Qed.

Lemma rsm_last a6 a7 a9 sb :
  a7 = with_cc_op CC_OP_EFLAGS (with_smbase sb a6) -> a9 = with_hflags (Z.land (hflags a7) (not32 HF_SMM_MASK)) a7 -> hflags_ok a6 ->
  hflags a9 = Z.land (hflags a6) (not32 HF_SMM_MASK) /\ hflags_ok a9 /\ has (hflags a9) HF_SMM_MASK = false /\
  a9 = with_hflags (hflags a9) (with_cc_op CC_OP_EFLAGS (with_smbase sb a6)).
Proof.
  intros -> -> Hf. split; [done|]. split; [|split; [|done]].
  - apply hflags_bits; [intros k [Hk Ho]%hidden_bits_range; apply land_smm; [lia|intros ->; done]|]. by apply (hflags_ext a6).
  - cbn [hflags with_hflags]. change HF_SMM_MASK with (2 ^ 19). rewrite has_bit, Z.land_spec, testbit_not32, Z.pow2_bits_true by done. apply andb_false_r.
Qed.

Lemma rsm_resumed env2 g2 :
  handler_ok e0 env2 -> sees (sm_at sm) (save_map e0) g2 ->
  exists env3 g3, helper_rsm (G := G) env2 g2 = KRet tt env3 g3 /\ resumed e0 env3 /\ cpl_of env3 = cpl_of env2.
Proof.
  intros Hh Hg. destruct (rsm_run env2 g2 Hh Hg) as (a2 & a3 & a4 & a7 & a9 & g3 & E & E2 & E3 & E4 & E7 & E9).
  exists a9, g3. split; [done|].
  assert (hflags a4 = hflags a2 /\ cr a4 = cr a2 /\ segs a4 = segs a2 /\ features a4 = features a2) as (Q1 & Q2 & Q3 & Q4) by (by rewrite E4, E3).
  destruct (set_cr_others 3 (crx e0 3) (put_cr0 (crx e0 0) env2)) as (R1 & R3 & R4 & R5 & R6).
  destruct (put_cr0_others (crx e0 0) env2) as (S3 & S4 & S5 & S6). rewrite <-E2 in R1, R3, R4, R5, R6.
  rewrite R1 in Q1. rewrite E2 in Q2. rewrite R3, S3 in Q3. rewrite R4, S4 in Q4. rewrite S5 in R5. rewrite S6 in R6. clear E2 E S3 S4 S5 S6.
  destruct (rsm_hidden env2 a4 Hh Q1 Q2 Q3 Q4) as (Hc & Hf & Hk).
  destruct (rsm_cr env2 a4 Hh Hc Q2 Q4) as (C0 & C3 & C4).
  pose proof (restore_segs_segs e0 Hok a4) as Hs. rewrite Q3 in Hs. specialize (Hs (hn_segs _ _ Hh)).
  pose proof (rsm_shape a4 (hflags a9)) as Hsh. cbv zeta in Hsh. rewrite Hs in Hsh. clear Hs.
  destruct (rsm_last _ a7 a9 (smbase e0) E7 E9 Hf) as (H9 & Hf9 & Hsmm & E9'). rewrite Hsh in E9'. split.
  - exact (resumed_fields env2 a2 a3 a4 _ a9 Hh R5 R6 E3 E4 (conj C0 (conj C3 C4)) E9' Hsmm Hf9).
  - apply land3_bits; rewrite H9, land_smm by done; apply Hk; unfold kept_bit; tauto.
Qed.
End Rsm.

(** ** Entry *)

Section Enter.
Context {G : Type} `{!SoftMmu G, !PhysMem G, !PhysMemSpec G, !Chipset G, !FlushKeeps G}.

(** The CPU after the stores. *)
Definition smm_cpu (env : CPUX86State) : CPUX86State :=
  let a2 := smm_segs (with_eip 0x8000 (cpu_load_eflags 0 (Z.lnot ARITH) (with_hflags (Z.lor (hflags env) HF_SMM_MASK) env))) in
  with_cc_op CC_OP_EFLAGS (set_dr 7 0x400 (put_cr4 0 (put_cr0 (Z.land (crx env 0) (not32 CR0_SMM_CLEAR)) a2))).

Lemma save_map_hflags h env : save_map (with_hflags h env) = save_map env.
Proof. reflexivity. Qed.

(** The steps of the entry behind the stores. *)
Lemma enter_steps at_ l v : exists f, runs (G := G) at_ l
  (kmod (cpu_load_eflags 0 (Z.lnot ARITH)) ;; kmod (with_eip 0x8000) ;; kmod smm_segs ;; cpu_x86_update_cr0 v ;; cpu_x86_update_cr4 0 ;;
   kmod (set_dr 7 0x400) ;; kmod (with_cc_op CC_OP_EFLAGS)) f /\
  forall env, f env = with_cc_op CC_OP_EFLAGS (set_dr 7 0x400 (put_cr4 0 (put_cr0 v (smm_segs (with_eip 0x8000 (cpu_load_eflags 0 (Z.lnot ARITH) env)))))).
Proof.
  eexists. split.
  { repeat (eapply runs_seq; [auto with image|]). apply runs_mod. }
  intros env. reflexivity.
Qed.

Lemma step_update (k : K G unit) env g : (smm_update ;; k) env g = k env (cpu_smm_update (has (hflags env) HF_SMM_MASK) g).
Proof. done. Qed.

Lemma enter_run env (g : G) :
  exists g1, do_smm_enter env g = KRet tt (smm_cpu env) g1 /\ sees (sm_at (sm_state env)) (save_map env) g1.
Proof.
  unfold do_smm_enter. rewrite step_mod, step_update, step_get, step_mem, save_map_hflags.
  change (sm_state (with_hflags ?h env)) with (sm_state env). change (crx (with_hflags ?h env) 0) with (crx env 0).
  destruct (enter_steps (sm_at (sm_state env)) (save_map env) (Z.land (crx env 0) (not32 CR0_SMM_CLEAR))) as (f & Hf & Ef).
  edestruct Hf as (g1 & E & Hg); [|exists g1; split; [rewrite E, Ef; reflexivity|exact Hg]].
  intros o n v Hw. apply put_image_word; [by apply (wrap_spread 32)|apply save_map_ok|done].
Qed.
End Enter.

Lemma smm_segs_kept (P : CPUX86State -> Prop) env :
  (forall r sel bas lim fl e, (r < 6)%nat -> P e -> P (cpu_x86_load_seg_cache r sel bas lim fl e)) -> P env -> P (smm_segs env).
Proof. intros H HP. unfold smm_segs, smm_seg. unfold R_GS, R_FS, R_SS, R_ES, R_DS, R_CS. do 6 (apply H; [lia|]). done. Qed.

Lemma smm_segs_segs env :
  in_range 32 (smbase env) -> length (segs env) = 6%nat ->
  segs (smm_segs env) = [mkSeg 0 0 0xffffffff 0; mkSeg (Z.land (Z.shiftr (smbase env) 4) 0xffff) (smbase env) 0xffffffff 0;
    mkSeg 0 0 0xffffffff 0; mkSeg 0 0 0xffffffff 0; mkSeg 0 0 0xffffffff 0; mkSeg 0 0 0xffffffff 0].
Proof.
  intros Hb Hl. unfold smm_segs, smm_seg. rewrite !load_seg_segs, (u32_id (smbase env)), (u32_id (Z.land _ _)) by
    (done || (apply (in_range_within 0xffff); [done|]; unfold CcHelper.within; by rewrite <-Z.land_assoc)).
  destruct (segs env) as [|? [|? [|? [|? [|? [|? [|]]]]]]]; done.
Qed.

Lemma cpu_ctrl_ok env : cpu_ok env -> ctrl_ok env.
Proof.
  intros Hok. split; [apply Hok|]. intros H. pose proof (kept_cr4_smap (crx env 4) env) as H'. rewrite (so_cr4 _ Hok), H in H'. by destruct (has _ _).
Qed.

Lemma set_smm_bit h k : 0 <= k < 32 -> k <> 19 -> Z.testbit (Z.lor h HF_SMM_MASK) k = Z.testbit h k.
Proof. intros Hk Hn. rewrite Z.lor_spec. change HF_SMM_MASK with (2 ^ 19). by rewrite Z.pow2_bits_false, orb_false_r by lia. Qed.

(** The CPU before the control registers are written. *)
Lemma enter_hidden env :
  smm_ok env -> hflags_ok env ->
  let a1 := with_eip 0x8000 (cpu_load_eflags 0 (Z.lnot ARITH) (with_hflags (Z.lor (hflags env) HF_SMM_MASK) env)) in
  let a2 := smm_segs a1 in
  only_segs a1 a2 /\ ctrl_ok a2 /\ hflags_ok a2 /\ forall k, kept_bit k -> Z.testbit (hflags a2) k = Z.testbit (Z.lor (hflags env) HF_SMM_MASK) k.
Proof.
  intros Hok Hf a1 a2. assert (hflags_ok a1) as H1.
  { apply (hflags_ext (with_hflags (Z.lor (hflags env) HF_SMM_MASK) env)); [done..|]. apply hflags_bits; [|done]. intros k [Hk Ho]%hidden_bits_range. apply set_smm_bit; [lia|]. intros ->. done. }
  assert (ctrl_ok a1) as Hc by (apply (ctrl_ext env); [done..|apply cpu_ctrl_ok, Hok]). split_and!.
  - apply smm_segs_kept; [|apply only_segs_refl]. intros r sel bas lim fl e _ H. apply (only_segs_trans _ e); [done|apply load_seg_only].
  - apply smm_segs_kept; [intros; by apply ctrl_load|done].
  - apply smm_segs_kept; [intros; by apply hflags_load|done].
  - intros k Hk. apply (smm_segs_kept (fun e => Z.testbit (hflags e) k = _)); [|done].
    intros r sel bas lim fl e _ <-. apply kept_steps; [done|]. right; right. by eexists _, _, _, _, _.
Qed.

Lemma entered_fields env a2 :
  smm_ok env -> ctrl_ok a2 -> hflags_ok a2 -> cr a2 = cr env -> eip a2 = 0x8000 -> eflags a2 = 2 -> cc_src a2 = 0 -> df a2 = 1 ->
  (forall k, kept_bit k -> Z.testbit (hflags a2) k = Z.testbit (Z.lor (hflags env) HF_SMM_MASK) k) ->
  segs a2 = [mkSeg 0 0 0xffffffff 0; mkSeg (Z.land (Z.shiftr (smbase env) 4) 0xffff) (smbase env) 0xffffffff 0;
    mkSeg 0 0 0xffffffff 0; mkSeg 0 0 0xffffffff 0; mkSeg 0 0 0xffffffff 0; mkSeg 0 0 0xffffffff 0] ->
  entered env (with_cc_op CC_OP_EFLAGS (set_dr 7 0x400 (put_cr4 0 (put_cr0 (Z.land (crx env 0) (not32 CR0_SMM_CLEAR)) a2)))).
Proof.
  intros Hok Hc Hf Ecr Eip Efl Esrc Edf Hk Hs. set (v := Z.land _ _). pose proof (put_cr0_ok v a2 Hc) as Hc3.
  pose proof (hflags_cr4 0 _ Hc3 (hflags_cr0 v a2 Hc Hf)) as Hf4.
  assert (forall k, kept_bit k -> Z.testbit (hflags (put_cr4 0 (put_cr0 v a2))) k = Z.testbit (Z.lor (hflags env) HF_SMM_MASK) k) as Hk4.
  { intros k H. rewrite (kept_steps k (put_cr0 v a2)) by (done || right; left; by eexists).
    rewrite (kept_steps k a2) by (done || left; by eexists). by apply Hk. }
  assert (crx (put_cr4 0 (put_cr0 v a2)) 0 = u32 (Z.lor v CR0_ET_MASK)) as H0.
  { rewrite put_cr4_crx by apply Hc3. cbn [Nat.eqb]. rewrite (crx_insert 0 0 (u32 (Z.lor v CR0_ET_MASK)) a2); [done|done|].
    rewrite (ck_cr _ Hc). lia. }
  assert (crx (put_cr4 0 (put_cr0 v a2)) 4 = 0) as H4.
  { rewrite put_cr4_crx by apply Hc3. cbn [Nat.eqb]. unfold kept_cr4. by destruct (negb _), (negb _). }
  assert (segs (put_cr4 0 (put_cr0 v a2)) = segs a2 /\ eip (put_cr4 0 (put_cr0 v a2)) = eip a2 /\ eflags (put_cr4 0 (put_cr0 v a2)) = eflags a2 /\
    cc_src (put_cr4 0 (put_cr0 v a2)) = cc_src a2 /\ df (put_cr4 0 (put_cr0 v a2)) = df a2) as (R1 & R2 & R3 & R4 & R5) by (by rewrite put_cr4_only).
  generalize dependent (put_cr4 0 (put_cr0 v a2)). intros a4 Hf4 Hk4 H0 H4 R1 R2 R3 R4 R5. rewrite Hs in R1.
  split.
  - by cbn [eip with_cc_op set_dr with_dr]; rewrite R2.
  - unfold seg. cbn [segs with_cc_op set_dr with_dr]. by rewrite R1.
  - unfold seg. cbn [segs with_cc_op set_dr with_dr]. rewrite R1. rewrite !Forall_cons, Forall_nil. done.
  - change (crx (with_cc_op CC_OP_EFLAGS (set_dr 7 1024 a4))) with (crx a4). rewrite H0, H4, !has_u32_sub by done. unfold v.
    split_and!; [| |done]; change CR0_PE_MASK with (2 ^ 0); change CR0_PG_MASK with (2 ^ 31); rewrite has_bit, Z.lor_spec, Z.land_spec by done; apply orb_false_iff; (split; [by rewrite andb_false_r|done]).
  - unfold cpu_compute_eflags, cpu_cc_compute_all. cbn [eflags cc_op df with_cc_op set_dr with_dr]. rewrite R3, R5, Efl, Edf.
    cbn [helper_cc_compute_all cc_src cc_dst cc_src2 with_cc_op set_dr with_dr]. by rewrite R4, Esrc.
  - cbn [hflags with_cc_op set_dr with_dr]. change HF_SMM_MASK with (2 ^ 19). rewrite has_bit, Hk4 by (done || unfold kept_bit; tauto).
    rewrite Z.lor_spec. change HF_SMM_MASK with (2 ^ 19). by rewrite Z.pow2_bits_true, orb_true_r.
  - by apply (hflags_ext a4).
  - apply land3_bits; cbn [hflags with_cc_op set_dr with_dr]; rewrite Hk4, set_smm_bit by (done || unfold kept_bit; tauto); done.
Qed.

Lemma enter_entered env : smm_ok env -> hflags_ok env -> entered env (smm_cpu env).
Proof.
  intros Hok Hf. destruct (enter_hidden env Hok Hf) as (Ho & Hc & Hf2 & Hk). unfold smm_cpu. cbv zeta.
  set (a1 := with_eip _ _) in *. assert (segs a1 = segs env /\ smbase a1 = smbase env) as [S1 S2] by done.
  pose proof (smm_segs_segs a1) as Hs. rewrite S1, S2 in Hs. specialize (Hs (proj1 (so_smbase _ Hok)) (so_segs _ Hok)).
  assert (cr a1 = cr env /\ eip a1 = 0x8000 /\ cc_src a1 = 0 /\ df a1 = 1) as (P1 & P2 & P4 & P5) by done.
  assert (eflags a1 = 2) as P3.
  { change (Z.lor (Z.lor (Z.land (eflags env) (u32 (Z.lnot (Z.lnot ARITH)))) (u32 (Z.land 0 (Z.lnot ARITH)))) 0x2 = 2).
    rewrite Z.lnot_involutive. change (u32 ARITH) with (Z.lor CC_ALL DF_MASK). by rewrite (proj1 (proj2 (so_eflags _ Hok))). }
  clearbody a1. apply entered_fields; try done; by rewrite Ho.
Qed.

Lemma save_map_range env o n v : word o n (save_map env) = Some v -> n = 4%nat /\ 0x7ef8 <= o < 0x8000 /\ o mod 4 = 0.
Proof.
  intros Hw%word_in.
  assert (forallb (fun x => (x.2 =? 4)%nat && (0x7ef8 <=? x.1) && (x.1 <? 0x8000) && (x.1 mod 4 =? 0)) (save_map env).*1 = true) as H by reflexivity.
  rewrite forallb_forall in H. apply list_elem_of_In in Hw. specialize (H _ Hw). cbn [fst snd] in H.
  rewrite !andb_true_iff, Nat.eqb_eq, Z.leb_le, Z.ltb_lt, Z.eqb_eq in H. tauto.
Qed.

Section RoundTrip.
Context {G : Type} `{!SoftMmu G, !PhysMem G, !PhysMemSpec G, !Chipset G, !FlushKeeps G}.

(** C15: system management mode is a round trip. An SMI saves the state and starts the
    handler in real mode at [smbase + 0x8000]; whatever the handler does to the CPU
    and to memory outside the state save map, RSM resumes the interrupted program
    with the general, segment, table, control and debug registers, flags and hidden
    flags it had. The privilege level is the exception: it stays that of the
    handler. *)
Theorem rsm_resumes env (g : G) :
  smm_ok env -> hflags_ok env ->
  exists g1, do_smm_enter env g = KRet tt (smm_cpu env) g1 /\ entered env (smm_cpu env) /\
    forall env2 g2, handler_ok env env2 ->
      (forall off, 0x7ef8 <= off < 0x8000 -> off mod 4 = 0 ->
         ld_mem 4 (u32 (sm_state env + off)) g2 = ld_mem 4 (u32 (sm_state env + off)) g1) ->
      exists env3 g3, helper_rsm env2 g2 = KRet tt env3 g3 /\ resumed env env3 /\ cpl_of env3 = cpl_of env2.
Proof.
  intros Hok Hf. destruct (enter_run env g) as (g1 & E & Hg). exists g1. split; [done|]. split; [by apply enter_entered|].
  intros env2 g2 Hh Hm. apply rsm_resumed; [done|done|]. intros o n v Hw. destruct (save_map_range env o n v Hw) as (-> & ? & ?).
  unfold sm_at. rewrite Hm by done. by apply (Hg o 4%nat).
Qed.
End RoundTrip.

(** A handler that has done nothing, or only changed the level, is one. *)
Lemma handler_start env c : smm_ok env -> hflags_ok env -> 0 <= c < 4 -> handler_ok env (cpu_x86_set_cpl c (smm_cpu env)).
Proof.
  intros Hok Hf Hc. destruct (enter_hidden env Hok Hf) as (Ho & Hc2 & _ & _).
  pose proof (en_hidden _ _ (enter_entered env Hok Hf)) as Hh. revert Hh. unfold smm_cpu. cbv zeta.
  set (v := Z.land (crx env 0) _). set (a1 := with_eip _ _) in *.
  assert (smbase a1 = smbase env /\ features a1 = features env /\ regs a1 = regs env /\ segs a1 = segs env /\ dr a1 = dr env) as (P1 & P2 & P3 & P4 & P5) by done.
  assert (eflags a1 = Z.lor (Z.lor (Z.land (eflags env) ARITH) 0) 2) as P6.
  { change (eflags a1) with (Z.lor (Z.lor (Z.land (eflags env) (u32 (Z.lnot (Z.lnot ARITH)))) (u32 (Z.land 0 (Z.lnot ARITH)))) 0x2).
    by rewrite Z.lnot_involutive. }
  change ARITH with (Z.lor CC_ALL DF_MASK) in P6 at 1. rewrite (proj1 (proj2 (so_eflags _ Hok))) in P6.
  assert (length (segs (smm_segs a1)) = 6%nat) as Hl.
  { apply (smm_segs_kept (fun e => length (segs e) = 6%nat)); [intros; by rewrite load_seg_len|]. rewrite P4. apply Hok. }
  clearbody a1. generalize dependent (smm_segs a1). intros a2 Ho Hc2 Hl.
  pose proof (put_cr4_ok 0 _ (put_cr0_ok v a2 Hc2)) as Hc4. pose proof (put_cr4_only 0 (put_cr0 v a2)) as Hp.
  generalize dependent (put_cr4 0 (put_cr0 v a2)). intros a4 Hc4 Hp Hh. split.
  - change (smbase a4 = smbase env). by rewrite Hp, <-P1, Ho.
  - change (features a4 = features env). by rewrite Hp, <-P2, Ho.
  - change (length (regs a4) = 8%nat). rewrite Hp. change (length (regs a2) = 8%nat). rewrite Ho. change (length (regs a1) = 8%nat). rewrite P3. apply Hok.
  - change (length (segs a4) = 6%nat). by rewrite Hp.
  - by apply (ctrl_ext a4).
  - change (length (<[7%nat := u32 0x400]> (dr a4)) = 8%nat). rewrite length_insert, Hp. change (length (dr a2) = 8%nat). rewrite Ho.
    change (length (dr a1) = 8%nat). rewrite P5. apply Hok.
  - change (Z.land (eflags a4) ARITH = 0). rewrite Hp. change (Z.land (eflags a2) ARITH = 0). rewrite Ho. change (Z.land (eflags a1) ARITH = 0). by rewrite P6.
  - apply hflags_bits; [|done]. intros k [Hk _]%hidden_bits_range. by apply (set_cpl_bits c).
Qed.

(** A user program of level 3, interrupted by a handler that runs at level 0. *)
Definition user_seg (sel fl : Z) : SegmentCache := mkSeg sel 0 0xffffffff fl.
Definition smm_user : CPUX86State :=
  with_cr [0x11; 0; 0; 0x1000; 0] (with_hflags 0xb3
    (with_segs [user_seg 0x2b 0xcff300; user_seg 0x23 0xcffb00; user_seg 0x2b 0xcff300; user_seg 0x2b 0xcff300; seg0; seg0] blank_cpu)).

Lemma smm_user_ok : smm_ok smm_user /\ hflags_ok smm_user.
Proof.
  split.
  - split; [|done]. split; try done; try (by repeat constructor); try (by split; [|repeat constructor]).
  - split; [by split|]. by split.
Qed.

Lemma rsm_resumes_witness :
  exists g1 env3 g3, do_smm_enter (G := phys) (Chipset0 := no_apic phys) smm_user (fun _ => 0) = KRet tt (smm_cpu smm_user) g1 /\
    helper_rsm (Chipset0 := no_apic phys) (cpu_x86_set_cpl 0 (smm_cpu smm_user)) g1 = KRet tt env3 g3 /\
    selector (seg env3 R_CS) = 0x23 /\ cpl_of env3 = 0.
Proof.
  destruct smm_user_ok as [Hok Hf].
  assert (handler_ok smm_user (cpu_x86_set_cpl 0 (smm_cpu smm_user))) as Hh by (apply handler_start; [done|done|lia]).
  destruct (rsm_resumes (G := phys) (Chipset0 := no_apic phys) smm_user (fun _ => 0) Hok Hf) as (g1 & E & _ & H).
  destruct (H _ g1 Hh) as (env3 & g3 & E3 & Hr & Hl); [done|]. exists g1, env3, g3.
  split; [done|]. split; [done|]. split; [|by rewrite Hl]. unfold seg. by rewrite (rs_segs _ _ Hr).
Defined.
