(* ===== verification/Svm.v ===== *)
(** * Virtual machines

    target-i386/svm_helper.c for the 32-bit target: VMRUN and #VMEXIT with the host
    save area and the virtual machine control block (VMCB), VMLOAD and VMSAVE, and the
    instructions around them. The interception tests are in file CtrlRegs. *)

From stdpp Require Import base list.
From Stdlib Require Import ZArith Lia.
From S2P Require Import Prelude Cpu CcHelper Excp Guest Mmu Seg SegTask SegInt PhysMem CtrlRegs DebugRegs Image Smm.

Local Open Scope Z_scope.
Local Open Scope k_scope.

Definition HF2_GIF_MASK : Z := 1.
Definition HF2_HIF_MASK : Z := 2.
Definition CPU_INTERRUPT_VIRQ : Z := 0x100.
Definition V_TPR_MASK : Z := 0x0f.
Definition V_IRQ_MASK : Z := Z.shiftl 1 8.
Definition V_INTR_MASKING_MASK : Z := Z.shiftl 1 24.
Definition SVM_INTERRUPT_SHADOW_MASK : Z := 1.
Definition SVM_EVTINJ_VEC_MASK : Z := 0xff.
Definition SVM_EVTINJ_TYPE_MASK : Z := Z.shiftl 7 8.
Definition SVM_EVTINJ_TYPE_INTR : Z := 0.
Definition SVM_EVTINJ_TYPE_NMI : Z := Z.shiftl 2 8.
Definition EXCP02_NMI : Z := 2.
Definition SVM_EXIT_INVLPGA : Z := 0x07a.
Definition SVM_EXIT_IOIO : Z := 0x07b.
Definition SVM_EXIT_VMRUN : Z := 0x080.
Definition SVM_EXIT_VMMCALL : Z := 0x081.
Definition SVM_EXIT_VMLOAD : Z := 0x082.
Definition SVM_EXIT_VMSAVE : Z := 0x083.
Definition SVM_EXIT_STGI : Z := 0x084.
Definition SVM_EXIT_CLGI : Z := 0x085.
Definition SVM_EXIT_SKINIT : Z := 0x086.

(** Offsets in [struct vmcb] (svm.h): the control area and the save area. *)
Module Vmcb.
Definition intercept_cr_read : Z := 0x00.
Definition intercept_cr_write : Z := 0x02.
Definition intercept_dr_read : Z := 0x04.
Definition intercept_dr_write : Z := 0x06.
Definition intercept_exceptions : Z := 0x08.
Definition intercept : Z := 0x0c.
Definition iopm_base_pa : Z := 0x40.
Definition tsc_offset : Z := 0x50.
Definition tlb_ctl : Z := 0x5c.
Definition int_ctl : Z := 0x60.
Definition int_state : Z := 0x68.
Definition exit_code : Z := 0x70.
Definition exit_info_1 : Z := 0x78.
Definition exit_info_2 : Z := 0x80.
Definition exit_int_info : Z := 0x88.
Definition exit_int_info_err : Z := 0x8c.
Definition event_inj : Z := 0xa8.
Definition event_inj_err : Z := 0xac.
Definition es : Z := 0x400.
Definition cs : Z := 0x410.
Definition ss : Z := 0x420.
Definition ds : Z := 0x430.
Definition fs : Z := 0x440.
Definition gs : Z := 0x450.
Definition gdtr : Z := 0x460.
Definition ldtr : Z := 0x470.
Definition idtr : Z := 0x480.
Definition tr : Z := 0x490.
Definition cpl : Z := 0x4cb.
Definition efer : Z := 0x4d0.
Definition cr4 : Z := 0x548.
Definition cr3 : Z := 0x550.
Definition cr0 : Z := 0x558.
Definition dr7 : Z := 0x560.
Definition dr6 : Z := 0x568.
Definition rflags : Z := 0x570.
Definition rip : Z := 0x578.
Definition rsp : Z := 0x5d8.
Definition rax : Z := 0x5f8.
Definition star : Z := 0x600.
Definition sysenter_cs : Z := 0x628.
Definition sysenter_esp : Z := 0x630.
Definition sysenter_eip : Z := 0x638.
Definition cr2 : Z := 0x640.

(** In [struct vmcb_seg]. *)
Definition selector : Z := 0.
Definition attrib : Z := 2.
Definition limit : Z := 4.
Definition base : Z := 8.
End Vmcb.

(** ** Segment registers *)

Definition svm_attrib (sc : SegmentCache) : Z :=
  Z.lor (Z.land (Z.shiftr (sflags sc) 8) 0xff) (Z.land (Z.shiftr (sflags sc) 12) 0x0f00).

Definition svm_save_seg (off : Z) (sc : SegmentCache) : list entry :=
  [stw (off + Vmcb.selector) (selector sc); stq (off + Vmcb.base) (base sc);
   stl (off + Vmcb.limit) (limit sc); stw (off + Vmcb.attrib) (svm_attrib sc)].

Definition svm_flags (flags : Z) : Z := Z.lor (Z.shiftl (Z.land flags 0xff) 8) (Z.shiftl (Z.land flags 0x0f00) 12).

(** The address of an offset behind [vm_hsave] or [vm_vmcb]. *)
Definition vm_at (b off : Z) : Z := u64 (b + off).

(** ** What the host keeps *)

Definition host_image (next_eip_addend : Z) (env : CPUX86State) : list entry :=
  [stq (Vmcb.gdtr + Vmcb.base) (base (gdt env)); stl (Vmcb.gdtr + Vmcb.limit) (limit (gdt env));
   stq (Vmcb.idtr + Vmcb.base) (base (idt env)); stl (Vmcb.idtr + Vmcb.limit) (limit (idt env));
   stq Vmcb.cr0 (crx env 0); stq Vmcb.cr2 (crx env 2); stq Vmcb.cr3 (crx env 3); stq Vmcb.cr4 (crx env 4);
   stq Vmcb.dr6 (drx env 6); stq Vmcb.dr7 (drx env 7);
   stq Vmcb.efer (efer env); stq Vmcb.rflags (cpu_compute_eflags env)] ++
  svm_save_seg Vmcb.es (seg env R_ES) ++ svm_save_seg Vmcb.cs (seg env R_CS) ++
  svm_save_seg Vmcb.ss (seg env R_SS) ++ svm_save_seg Vmcb.ds (seg env R_DS) ++
  [stq Vmcb.rip (u32 (eip env + next_eip_addend)); stq Vmcb.rsp (reg env R_ESP); stq Vmcb.rax (reg env R_EAX)].

(** What is kept of a guest, before and after the word [int_ctl]. *)
Definition guest_image1 (env : CPUX86State) : list entry :=
  svm_save_seg Vmcb.es (seg env R_ES) ++ svm_save_seg Vmcb.cs (seg env R_CS) ++
  svm_save_seg Vmcb.ss (seg env R_SS) ++ svm_save_seg Vmcb.ds (seg env R_DS) ++
  [stq (Vmcb.gdtr + Vmcb.base) (base (gdt env)); stl (Vmcb.gdtr + Vmcb.limit) (limit (gdt env));
   stq (Vmcb.idtr + Vmcb.base) (base (idt env)); stl (Vmcb.idtr + Vmcb.limit) (limit (idt env));
   stq Vmcb.efer (efer env); stq Vmcb.cr0 (crx env 0); stq Vmcb.cr2 (crx env 2); stq Vmcb.cr3 (crx env 3);
   stq Vmcb.cr4 (crx env 4)].

Definition guest_image2 (env : CPUX86State) : list entry :=
  [stq Vmcb.rflags (cpu_compute_eflags env); stq Vmcb.rip (eip env); stq Vmcb.rsp (reg env R_ESP);
   stq Vmcb.rax (reg env R_EAX); stq Vmcb.dr7 (drx env 7); stq Vmcb.dr6 (drx env 6);
   stb Vmcb.cpl (Z.land (hflags env) HF_CPL_MASK)].

(** ** Fields *)

Definition with_intercepts (cr_read cr_write dr_read dr_write : Z) (s : SvmState) : SvmState :=
  mkSvm (vm_hsave s) (tsc_offset s) cr_read cr_write dr_read dr_write (v_tpr s) (interrupt_request s).

Definition put_gdt_base (v : Z) : CPUX86State -> CPUX86State := on_gdt with_base (u32 v).
Definition put_gdt_limit : Z -> CPUX86State -> CPUX86State := on_gdt with_limit.
Definition put_idt_base (v : Z) : CPUX86State -> CPUX86State := on_idt with_base (u32 v).
Definition put_idt_limit : Z -> CPUX86State -> CPUX86State := on_idt with_limit.

(** [env->eflags = 0] and what follows; the flags are passed as an [int]. *)
Definition load_rflags (v : Z) (env : CPUX86State) : CPUX86State :=
  with_cc_op CC_OP_EFLAGS (cpu_load_eflags (u32 v) (Z.lnot ARITH) (with_eflags 0 env)).

(** Masking of interrupts in the guest. *)
Definition set_vintr (int_ctl : Z) (env : CPUX86State) : CPUX86State :=
  let env := with_hflags2 (Z.land (hflags2 env) (not32 (Z.lor HF2_HIF_MASK HF2_VINTR_MASK))) env in
  if has int_ctl V_INTR_MASKING_MASK then
    let env := on_svm (with_v_tpr (Z.land int_ctl V_TPR_MASK)) env in
    let env := with_hflags2 (Z.lor (hflags2 env) HF2_VINTR_MASK) env in
    if has (eflags env) IF_MASK then with_hflags2 (Z.lor (hflags2 env) HF2_HIF_MASK) env else env
  else env.

Definition set_event (index code is_int next_eip : Z) (env : CPUX86State) : CPUX86State :=
  with_exception_next_eip next_eip (with_exception_is_int is_int (with_error_code code (with_exception_index index env))).

Section Svm.
Context {G : Type} `{!SoftMmu G, !IntrHooks G, !PhysMem G, !Chipset G}.

Definition svm_load_seg (b off : Z) : K G SegmentCache :=
  sel <- ld 2 (vm_at b (off + Vmcb.selector)) ;;
  bas <- ld 8 (vm_at b (off + Vmcb.base)) ;;
  lim <- ld 4 (vm_at b (off + Vmcb.limit)) ;;
  flags <- ld 2 (vm_at b (off + Vmcb.attrib)) ;;
  kret (mkSeg sel (u32 bas) lim (svm_flags flags)).

Definition svm_load_seg_cache (b off : Z) (seg_reg : nat) : K G unit :=
  sc <- svm_load_seg b off ;;
  kmod (cpu_x86_load_seg_cache seg_reg (selector sc) (base sc) (limit sc) (sflags sc)).

(** [cpu_loop_exit] *)
Definition loop_exit {A} : K G A := fun env g => KExit env g.

(** ** VMRUN *)

(** The interception bitmaps and the offset of the counter. *)
Definition load_controls (b : Z) : K G unit :=
  load 8 (vm_at b Vmcb.intercept) with_intercept ;;
  cr_read <- ld 2 (vm_at b Vmcb.intercept_cr_read) ;;
  cr_write <- ld 2 (vm_at b Vmcb.intercept_cr_write) ;;
  dr_read <- ld 2 (vm_at b Vmcb.intercept_dr_read) ;;
  dr_write <- ld 2 (vm_at b Vmcb.intercept_dr_write) ;;
  kmod (on_svm (with_intercepts cr_read cr_write dr_read dr_write)) ;;
  load 4 (vm_at b Vmcb.intercept_exceptions) with_intercept_exceptions ;;
  kmod (fun env => with_hflags (Z.lor (hflags env) HF_SVMI_MASK) env) ;;
  load 8 (vm_at b Vmcb.tsc_offset) (fun v => on_svm (with_tsc_offset v)).

Definition load_tables (b : Z) : K G unit :=
  load 8 (vm_at b (Vmcb.gdtr + Vmcb.base)) put_gdt_base ;;
  load 4 (vm_at b (Vmcb.gdtr + Vmcb.limit)) put_gdt_limit ;;
  load 8 (vm_at b (Vmcb.idtr + Vmcb.base)) put_idt_base ;;
  load 4 (vm_at b (Vmcb.idtr + Vmcb.limit)) put_idt_limit.

Definition load_crs (b set : Z) : K G unit :=
  (v <- ld 8 (vm_at b Vmcb.cr0) ;; cpu_x86_update_cr0 (u32 (Z.lor v set))) ;;
  (v <- ld 8 (vm_at b Vmcb.cr4) ;; cpu_x86_update_cr4 (u32 v)) ;;
  (v <- ld 8 (vm_at b Vmcb.cr3) ;; cpu_x86_update_cr3 (u32 v)).

Definition load_state (b : Z) : K G unit :=
  load 8 (vm_at b Vmcb.efer) cpu_load_efer ;;
  load 8 (vm_at b Vmcb.rflags) load_rflags ;;
  svm_load_seg_cache b Vmcb.es R_ES ;;
  svm_load_seg_cache b Vmcb.cs R_CS ;;
  svm_load_seg_cache b Vmcb.ss R_SS ;;
  svm_load_seg_cache b Vmcb.ds R_DS ;;
  load 8 (vm_at b Vmcb.rip) (fun v => with_eip (u32 v)) ;;
  load 8 (vm_at b Vmcb.rsp) (put_reg R_ESP) ;;
  load 8 (vm_at b Vmcb.rax) (put_reg R_EAX).

(** [do_interrupt_x86_hardirq] delivers the event; the others leave the loop. *)
Definition inject_event (b : Z) : K G unit :=
  event_inj <- ld 4 (vm_at b Vmcb.event_inj) ;;
  if has event_inj SVM_EVTINJ_VALID then
    let vector := Z.land event_inj SVM_EVTINJ_VEC_MASK in
    event_inj_err <- ld 4 (vm_at b Vmcb.event_inj_err) ;;
    env <- kget ;;
    let type := Z.land event_inj SVM_EVTINJ_TYPE_MASK in
    if type =? SVM_EVTINJ_TYPE_INTR then
      kmod (set_event vector event_inj_err 0 (u32 (-1))) ;; do_interrupt_x86_hardirq vector true
    else if type =? SVM_EVTINJ_TYPE_NMI then kmod (set_event EXCP02_NMI event_inj_err 0 (eip env)) ;; loop_exit
    else if type =? SVM_EVTINJ_TYPE_EXEPT then kmod (set_event vector event_inj_err 0 (u32 (-1))) ;; loop_exit
    else if type =? SVM_EVTINJ_TYPE_SOFT then kmod (set_event vector event_inj_err 1 (eip env)) ;; loop_exit
    else kret tt
  else kret tt.

(** From the control block, up to the injected event. *)
Definition load_guest (b : Z) : K G unit :=
  load_controls b ;;
  load_tables b ;;
  kmem (st_mem 8 (vm_at b Vmcb.exit_info_2) 0) ;;
  load_crs b 0 ;;
  load 8 (vm_at b Vmcb.cr2) (set_cr 2) ;;
  int_ctl <- ld 4 (vm_at b Vmcb.int_ctl) ;;
  kmod (set_vintr int_ctl) ;;
  load_state b ;;
  load 8 (vm_at b Vmcb.dr7) (set_dr 7) ;;
  load 8 (vm_at b Vmcb.dr6) (set_dr 6) ;;
  load 1 (vm_at b Vmcb.cpl) cpu_x86_set_cpl ;;
  tlb_ctl <- ld 1 (vm_at b Vmcb.tlb_ctl) ;;
  (if tlb_ctl =? 1 then kmem tlb_flush else kret tt) ;;
  kmod (fun env => with_hflags2 (Z.lor (hflags2 env) HF2_GIF_MASK) env) ;;
  (if has int_ctl V_IRQ_MASK
   then kmod (on_svm (fun s => with_interrupt_request (Z.lor (interrupt_request s) CPU_INTERRUPT_VIRQ) s)) else kret tt).

(** [addr] is the same for every [aflag] on a 32-bit target. *)
Definition helper_vmrun (next_eip_addend : Z) : K G unit :=
  cpu_svm_check_intercept_param SVM_EXIT_VMRUN 0 ;;
  env <- kget ;;
  let addr := u32 (reg env R_EAX) in
  kmod (with_vm_vmcb addr) ;;
  kmem (put_image (vm_at (vm_hsave (svm env))) (host_image next_eip_addend env)) ;;
  load_guest addr ;;
  inject_event addr.

(** ** #VMEXIT *)

(** Whether interrupts were inhibited. *)
Definition save_shadow (b : Z) : K G unit :=
  env <- kget ;;
  if has (hflags env) HF_INHIBIT_IRQ_MASK then
    kmem (st_mem 4 (vm_at b Vmcb.int_state) SVM_INTERRUPT_SHADOW_MASK) ;;
    kmod (fun env => with_hflags (Z.land (hflags env) (not32 HF_INHIBIT_IRQ_MASK)) env)
  else kmem (st_mem 4 (vm_at b Vmcb.int_state) 0).

(** The virtual interrupt that is still pending. *)
Definition virq_of (env : CPUX86State) (int_ctl : Z) : Z :=
  let int_ctl := Z.land int_ctl (not32 (Z.lor V_TPR_MASK V_IRQ_MASK)) in
  let int_ctl := Z.lor int_ctl (Z.land (v_tpr (svm env)) V_TPR_MASK) in
  if has (interrupt_request (svm env)) CPU_INTERRUPT_VIRQ then Z.lor int_ctl V_IRQ_MASK else int_ctl.

Definition save_int_ctl (b : Z) : K G unit :=
  env <- kget ;;
  int_ctl <- ld 4 (vm_at b Vmcb.int_ctl) ;;
  kmem (st_mem 4 (vm_at b Vmcb.int_ctl) (virq_of env int_ctl)).

Definition save_guest (b : Z) : K G unit :=
  save_shadow b ;;
  env <- kget ;;
  kmem (put_image (vm_at b) (guest_image1 env)) ;;
  save_int_ctl b ;;
  kmem (put_image (vm_at b) (guest_image2 env)).

(** The host is not intercepted. *)
Definition leave_guest (env : CPUX86State) : CPUX86State :=
  let env := with_hflags2 (Z.land (hflags2 env) (not32 (Z.lor HF2_HIF_MASK HF2_VINTR_MASK))) env in
  let env := with_hflags (Z.land (hflags env) (not32 HF_SVMI_MASK)) env in
  let env := with_intercept_exceptions 0 (with_intercept 0 env) in
  let env := on_svm (fun s => with_interrupt_request (Z.land (interrupt_request s) (not32 CPU_INTERRUPT_VIRQ)) s) env in
  on_svm (with_tsc_offset 0) env.

Definition load_host (b : Z) : K G unit :=
  load_tables b ;;
  load_crs b CR0_PE_MASK ;;
  load_state b ;;
  load 8 (vm_at b Vmcb.dr6) (set_dr 6) ;;
  load 8 (vm_at b Vmcb.dr7) (set_dr 7).

(** The reason of the exit and the event that was being injected. *)
Definition exit_report (b exit_code exit_info_1 : Z) : K G unit :=
  kmem (put_image (vm_at b) [stq Vmcb.exit_code exit_code; stq Vmcb.exit_info_1 exit_info_1]) ;;
  inj <- ld 4 (vm_at b Vmcb.event_inj) ;;
  kmem (st_mem 4 (vm_at b Vmcb.exit_int_info) inj) ;;
  err <- ld 4 (vm_at b Vmcb.event_inj_err) ;;
  kmem (st_mem 4 (vm_at b Vmcb.exit_int_info_err) err) ;;
  kmem (st_mem 4 (vm_at b Vmcb.event_inj) 0).

Definition finish_exit (env : CPUX86State) : CPUX86State :=
  let env := with_hflags2 (Z.land (hflags2 env) (not32 HF2_GIF_MASK)) env in
  let env := with_cr (<[0%nat := Z.lor (crx env 0) CR0_PE_MASK]> (cr env)) env in
  let env := with_eflags (Z.land (eflags env) (not32 VM_MASK)) env in
  with_old_exception (-1) (with_error_code 0 (with_exception_index (-1) env)).

Definition helper_vmexit {A} (exit_code exit_info_1 : Z) : K G A :=
  env <- kget ;;
  let b := vm_vmcb env in
  save_guest b ;;
  kmod leave_guest ;;
  load_host (vm_hsave (svm env)) ;;
  kmod (cpu_x86_set_cpl 0) ;;
  exit_report b exit_code exit_info_1 ;;
  kmod finish_exit ;;
  loop_exit.

(** A helper of the guest, with the exit that it may cause. *)
Definition in_guest {A} (k : K G A) : K G A :=
  fun env g => match k env g with KVmexit code info env' g' => helper_vmexit code info env' g' | r => r end.

(** ** Other instructions *)

Definition helper_vmmcall : K G unit :=
  cpu_svm_check_intercept_param SVM_EXIT_VMMCALL 0 ;; raise EXCP06_ILLOP 0.

Definition helper_vmload : K G unit :=
  cpu_svm_check_intercept_param SVM_EXIT_VMLOAD 0 ;;
  env <- kget ;;
  let b := u32 (reg env R_EAX) in
  svm_load_seg_cache b Vmcb.fs R_FS ;;
  svm_load_seg_cache b Vmcb.gs R_GS ;;
  (sc <- svm_load_seg b Vmcb.tr ;; kmod (with_tr sc)) ;;
  (sc <- svm_load_seg b Vmcb.ldtr ;; kmod (with_ldt sc)) ;;
  load 8 (vm_at b Vmcb.star) with_star ;;
  load 8 (vm_at b Vmcb.sysenter_cs) (fun v => with_sysenter_cs (u32 v)) ;;
  load 8 (vm_at b Vmcb.sysenter_esp) (fun v => with_sysenter_esp (u32 v)) ;;
  load 8 (vm_at b Vmcb.sysenter_eip) (fun v => with_sysenter_eip (u32 v)).

Definition vmsave_image (env : CPUX86State) : list entry :=
  svm_save_seg Vmcb.fs (seg env R_FS) ++ svm_save_seg Vmcb.gs (seg env R_GS) ++
  svm_save_seg Vmcb.tr (tr env) ++ svm_save_seg Vmcb.ldtr (ldt env) ++
  [stq Vmcb.star (star env); stq Vmcb.sysenter_cs (sysenter_cs env); stq Vmcb.sysenter_esp (sysenter_esp env);
   stq Vmcb.sysenter_eip (sysenter_eip env)].

Definition helper_vmsave : K G unit :=
  cpu_svm_check_intercept_param SVM_EXIT_VMSAVE 0 ;;
  env <- kget ;;
  kmem (put_image (vm_at (u32 (reg env R_EAX))) (vmsave_image env)).

Definition helper_stgi : K G unit :=
  cpu_svm_check_intercept_param SVM_EXIT_STGI 0 ;;
  kmod (fun env => with_hflags2 (Z.lor (hflags2 env) HF2_GIF_MASK) env).

Definition helper_clgi : K G unit :=
  cpu_svm_check_intercept_param SVM_EXIT_CLGI 0 ;;
  kmod (fun env => with_hflags2 (Z.land (hflags2 env) (not32 HF2_GIF_MASK)) env).

Definition helper_skinit : K G unit :=
  cpu_svm_check_intercept_param SVM_EXIT_SKINIT 0 ;; raise EXCP06_ILLOP 0.

Definition helper_invlpga : K G unit :=
  cpu_svm_check_intercept_param SVM_EXIT_INVLPGA 0 ;;
  env <- kget ;;
  kmem (tlb_flush_page (u32 (reg env R_EAX))).

(** An access to a port of a guest. *)
Definition helper_svm_check_io (port param next_eip_addend : Z) : K G unit :=
  env <- kget ;;
  if Z.testbit (intercept env) (SVM_EXIT_IOIO - SVM_EXIT_INTR) then
    let b := vm_vmcb env in
    addr <- ld 8 (vm_at b Vmcb.iopm_base_pa) ;;
    let mask := u16 (Z.shiftl 1 (Z.land (Z.shiftr param 4) 7) - 1) in
    bits <- ld 2 (u64 (addr + port / 8)) ;;
    if has bits (Z.shiftl mask (Z.land port 7)) then
      kmem (st_mem 8 (vm_at b Vmcb.exit_info_2) (u32 (eip env + next_eip_addend))) ;;
      kvmexit SVM_EXIT_IOIO (Z.lor param (u32 (Z.shiftl port 16)))
    else kret tt
  else kret tt.
End Svm.
