(* ===== verification/SvmRound.v ===== *)
(** * Hosts and guests are resumed where they were

    VMRUN keeps the host in its save area and #VMEXIT loads it from there; #VMEXIT
    keeps the guest in the control block and the next VMRUN loads it. Both are round
    trips, and so are VMSAVE and VMLOAD. *)

From stdpp Require Import base list.
From Stdlib Require Import ZArith Lia.
From S2P Require Import Prelude Cpu CcHelper Excp Guest Mmu MmuWalk Seg SegSpec SegTask SegInt SegInv SoftMmu TlbWalk PhysMem CtrlRegs CtrlTlb DebugRegs Image Smm SmmRound Svm.

Local Open Scope Z_scope.
Local Open Scope k_scope.

(** ** Values in the control block *)

(** The rights keep the bits that [svm_attrib] packs, those of [saved_seg]. *)
Lemma attrib_kept fl sel bas lim : svm_flags (wrap 16 (svm_attrib (mkSeg sel bas lim fl))) = Z.land fl 0xf0ff00.
Proof.
  unfold svm_flags, svm_attrib. cbn [sflags]. apply Z.bits_inj'. intros i Hi. rewrite Z.lor_spec, Z.land_spec.
  assert (forall x k j, 0 <= k -> Z.testbit (Z.shiftl x k) j = (k <=? j) && Z.testbit x (j - k)) as Hs.
  { intros x k j Hk. destruct (Z.leb_spec k j); [by rewrite Z.shiftl_spec_high by lia|].
    destruct (Z.lt_ge_cases j 0); [by rewrite Z.testbit_neg_r|]. by rewrite Z.shiftl_spec_low. }
  rewrite !Hs by done. change 0xf0ff00 with (Z.lor (Z.shiftl 0xff 8) (Z.shiftl 0xf00 12)). rewrite Z.lor_spec, !Hs by done.
  assert (forall x m j, 0 <= j -> 0 <= m < 2 ^ 16 -> Z.testbit (Z.land (wrap 16 x) m) j = Z.testbit (Z.land x m) j) as Hw.
  { intros x m j Hj Hm. rewrite !Z.land_spec. destruct (Z.lt_ge_cases j 16); [by rewrite testbit_wrap by lia|].
    by rewrite (testbit_high 16 m), !andb_false_r by (lia || done). }
  destruct (Z.leb_spec 8 i); [|destruct (Z.leb_spec 12 i); [lia|by rewrite andb_false_r]]. cbn [andb].
  assert (Z.testbit 0xf00 (i - 8) && Z.testbit 0xff (i - 8) = false) as H0 by (rewrite <-Z.land_spec; apply Z.bits_0).
  destruct (Z.leb_spec 12 i); cbn [andb]; rewrite !Hw, !Z.land_spec, !Z.lor_spec, !Z.land_spec, !Z.shiftr_spec by (lia || done).
  - assert (Z.testbit 0xff (i - 12) && Z.testbit 0xf00 (i - 12) = false) as Hd by (rewrite <-Z.land_spec; apply Z.bits_0).
    replace (i - 8 + 8) with i by lia. replace (i - 12 + 12) with i by lia.
    by destruct (Z.testbit fl i), (Z.testbit fl (i - 12 + 8)), (Z.testbit fl (i - 8 + 12)), (Z.testbit 0xff (i - 8)), (Z.testbit 0xf00 (i - 8)),
      (Z.testbit 0xff (i - 12)), (Z.testbit 0xf00 (i - 12)).
  - replace (i - 8 + 8) with i by lia. by destruct (Z.testbit fl i), (Z.testbit fl (i - 8 + 12)), (Z.testbit 0xff (i - 8)), (Z.testbit 0xf00 (i - 8)).
Qed.

Lemma u64_id x : in_range 64 x -> u64 x = x.
Proof. apply wrap_id. Qed.

Lemma wrap64_u32 x : in_range 32 x -> u32 (u64 x) = x.
Proof.
  intros H. rewrite u64_id by (split; [lia|]; apply (Z.lt_le_trans _ (2 ^ 32)); [lia|by apply Z.pow_le_mono_r]). by apply u32_id.
Qed.

(** ** Loading a state from an image *)

(** The image holds the four segment registers, tables, control registers, flags and
    the two general registers of [e0], which is to go on at [rip]. *)
Definition holds_seg (l : list entry) (off : Z) (sc : SegmentCache) : Prop :=
  word (off + Vmcb.selector) 2 l = Some (selector sc) /\ word (off + Vmcb.base) 8 l = Some (base sc) /\
  word (off + Vmcb.limit) 4 l = Some (limit sc) /\ word (off + Vmcb.attrib) 2 l = Some (svm_attrib sc).

Record holds (l : list entry) (e0 : CPUX86State) (rip : Z) : Prop := {
  ho_gdt : word (Vmcb.gdtr + Vmcb.base) 8 l = Some (base (gdt e0)) /\ word (Vmcb.gdtr + Vmcb.limit) 4 l = Some (limit (gdt e0));
  ho_idt : word (Vmcb.idtr + Vmcb.base) 8 l = Some (base (idt e0)) /\ word (Vmcb.idtr + Vmcb.limit) 4 l = Some (limit (idt e0));
  ho_cr : word Vmcb.cr0 8 l = Some (crx e0 0) /\ word Vmcb.cr3 8 l = Some (crx e0 3) /\ word Vmcb.cr4 8 l = Some (crx e0 4);
  ho_dr : word Vmcb.dr6 8 l = Some (drx e0 6) /\ word Vmcb.dr7 8 l = Some (drx e0 7);
  ho_efer : word Vmcb.efer 8 l = Some (efer e0);
  ho_rflags : word Vmcb.rflags 8 l = Some (cpu_compute_eflags e0);
  ho_segs : holds_seg l Vmcb.es (seg e0 R_ES) /\ holds_seg l Vmcb.cs (seg e0 R_CS) /\
            holds_seg l Vmcb.ss (seg e0 R_SS) /\ holds_seg l Vmcb.ds (seg e0 R_DS);
  ho_rip : word Vmcb.rip 8 l = Some rip;
  ho_regs : word Vmcb.rsp 8 l = Some (reg e0 R_ESP) /\ word Vmcb.rax 8 l = Some (reg e0 R_EAX)
}.

Definition restore4 (e0 env : CPUX86State) : CPUX86State :=
  restore_seg e0 3 (restore_seg e0 2 (restore_seg e0 1 (restore_seg e0 0 env))).

Section Load.
Context {G : Type} `{!SoftMmu G, !IntrHooks G, !PhysMem G, !PhysMemSpec G, !Chipset G, !FlushKeeps G}.
Context (b : Z) (l : list entry) (e0 : CPUX86State) (rip : Z).
Context (Hl : holds l e0 rip) (Hok : cpu_ok e0) (Hefer : in_range 64 (efer e0)) (Hrip : in_range 32 rip).

Lemma tables_load : exists f, runs (G := G) (vm_at b) l (load_tables b) f /\
  forall env,
    f env = with_idt (mkSeg (selector (idt env)) (base (idt e0)) (limit (idt e0)) (sflags (idt env)))
             (with_gdt (mkSeg (selector (gdt env)) (base (gdt e0)) (limit (gdt e0)) (sflags (gdt env))) env).
Proof.
  destruct (ho_gdt _ _ _ Hl), (ho_idt _ _ _ Hl). eexists. split.
  { unfold load_tables. repeat eapply runs_seq; first [eapply runs_loadq; eassumption|eapply runs_loadl; eassumption]. }
  intros env. cbv beta. 
  destruct (so_gdt _ Hok), (so_idt _ Hok). unfold put_gdt_base, put_gdt_limit, put_idt_base, put_idt_limit.
  rewrite (gdt_new with_base), gdt_twice, (idt_new with_base), idt_twice, !two_fields, !wrap64_u32, !u32_id by done. reflexivity.
Qed.

Lemma crs_load set :
  Z.lor (crx e0 0) set = crx e0 0 ->
  runs (G := G) (vm_at b) l (load_crs b set) (fun env => set_cr 3 (crx e0 3) (put_cr4 (crx e0 4) (put_cr0 (crx e0 0) env))).
Proof.
  intros Hset. destruct (ho_cr _ _ _ Hl) as (H0 & H3 & H4). destruct (so_cr _ Hok) as [_ Hcr].
  assert (forall n, u32 (u64 (crx e0 n)) = crx e0 n) as Hid.
  { intros n. apply wrap64_u32. unfold crx. rewrite nth_lookup. destruct (cr e0 !! n) eqn:E; [|done]. by apply (Forall_lookup_1 _ _ _ _ Hcr E). }
  assert (u32 (Z.lor (u64 (crx e0 0)) set) = crx e0 0) as Hid0.
  { pose proof (Hid 0%nat) as H. rewrite <-H at 2. f_equal. apply Z.bits_inj'. intros i Hi.
    assert (u64 (crx e0 0) = crx e0 0) as ->; [|by rewrite Hset].
    rewrite u64_id; [done|]. unfold crx. rewrite nth_lookup. destruct (cr e0 !! 0%nat) as [x|] eqn:E; [|done].
    pose proof (Forall_lookup_1 _ _ _ _ Hcr E) as Hx. simpl. unfold is32 in Hx. change (2 ^ 32) with 4294967296 in Hx. change (2 ^ 64) with 18446744073709551616. lia. }
  unfold load_crs. apply (runs_seq _ _ _ _ (put_cr0 (crx e0 0)) (fun env => set_cr 3 (crx e0 3) (put_cr4 (crx e0 4) env))).
  { eapply runs_ld; [exact H0|]. change (wrap (8 * Z.of_nat 8)) with u64. rewrite Hid0. apply runs_cr0. }
  apply (runs_seq _ _ _ _ (put_cr4 (crx e0 4)) (set_cr 3 (crx e0 3))); (eapply runs_ld; [eassumption|]); change (wrap (8 * Z.of_nat 8)) with u64; rewrite Hid; [apply runs_cr4|apply runs_cr3].
Qed.

Lemma seg_load_run off i : (i < 6)%nat -> holds_seg l off (seg e0 i) -> runs (G := G) (vm_at b) l (svm_load_seg_cache b off i) (restore_seg e0 i).
Proof.
  intros Hi (H1 & H2 & H3 & H4). destruct (seg_in_range e0 i Hok Hi) as [Hs Hb Hlim].
  apply (runs_ext _ _ _ (cpu_x86_load_seg_cache i (wrap 16 (selector (seg e0 i))) (u32 (u64 (base (seg e0 i)))) (u32 (limit (seg e0 i)))
    (svm_flags (wrap 16 (svm_attrib (seg e0 i)))))).
  - intros env g Hg. exists g. split; [|done]. unfold svm_load_seg_cache, svm_load_seg, kbind, ld, kret, kmod.
    rewrite (Hg _ _ _ H1), (Hg _ _ _ H2), (Hg _ _ _ H3), (Hg _ _ _ H4). reflexivity.
  - intros env. destruct (seg e0 i) as [sel bas lim fl] eqn:E. cbn [selector base limit sflags] in *. unfold restore_seg, saved_seg. rewrite E.
    cbn [selector base limit sflags]. by rewrite attrib_kept, wrap64_u32, u32_id, wrap_id by done.
Qed.

Lemma state_tail a :
  put_reg R_EAX (u64 (reg e0 R_EAX)) (put_reg R_ESP (u64 (reg e0 R_ESP)) (with_eip (u32 (u64 rip)) a)) =
  with_regs (<[R_EAX := reg e0 R_EAX]> (<[R_ESP := reg e0 R_ESP]> (regs a))) (with_eip rip a).
Proof.
  pose proof (so_reg _ Hok) as Hr. assert (forall r, u32 (u64 (reg e0 r)) = reg e0 r) as Hreg.
  { intros r. apply wrap64_u32. unfold reg. rewrite nth_lookup. destruct (regs e0 !! r) eqn:E; [|done]. by apply (Forall_lookup_1 _ _ _ _ Hr E). }
  by rewrite (put_reg_new R_ESP), put_reg_twice, !Hreg, wrap64_u32 by done.
Qed.

Lemma state_load : exists f, runs (G := G) (vm_at b) l (load_state b) f /\
  forall env,
    f env = let a := restore4 e0 (load_rflags (cpu_compute_eflags e0) (cpu_load_efer (efer e0) env)) in
            with_regs (<[R_EAX := reg e0 R_EAX]> (<[R_ESP := reg e0 R_ESP]> (regs a))) (with_eip rip a).
Proof.
  destruct (ho_segs _ _ _ Hl) as (H1 & H2 & H3 & H4). destruct (ho_regs _ _ _ Hl) as [H5 H6].
  pose proof (ho_efer _ _ _ Hl) as H7. pose proof (ho_rflags _ _ _ Hl) as H8. pose proof (ho_rip _ _ _ Hl) as H9. eexists. split.
  { unfold load_state. do 2 (eapply runs_seq; [eapply runs_loadq; eassumption|]).
    eapply runs_seq; [apply (seg_load_run _ 0); [lia|exact H1]|]. eapply runs_seq; [apply (seg_load_run _ 1); [lia|exact H2]|].
    eapply runs_seq; [apply (seg_load_run _ 2); [lia|exact H3]|]. eapply runs_seq; [apply (seg_load_run _ 3); [lia|exact H4]|].
    do 2 (eapply runs_seq; [eapply runs_loadq; eassumption|]). eapply runs_loadq; eassumption. }
  intros env. cbv beta zeta. rewrite state_tail, (u64_id (efer e0)), (u64_id (cpu_compute_eflags e0)) by
    (done || (pose proof (compute_eflags_range e0 (so_eflags _ Hok)) as Hx; change (2 ^ 32) with 4294967296 in Hx; change (2 ^ 64) with 18446744073709551616; lia)).
  reflexivity.
Qed.
End Load.

(** ** Stores beside an image *)

Definition PAGE : Z := 0x1000.

(** Two pages of physical memory, neither at the end of the address space. *)
Definition pages_apart (b b' : Z) : Prop :=
  0 <= b /\ b + PAGE <= 2 ^ 64 /\ 0 <= b' /\ b' + PAGE <= 2 ^ 64 /\ (b + PAGE <= b' \/ b' + PAGE <= b).

Definition in_page (x : Z * nat) : bool := (0 <=? x.1) && (x.1 + Z.of_nat x.2 <=? PAGE) && (1 <=? Z.of_nat x.2).

Lemma vm_at_page b off : 0 <= b -> b + PAGE <= 2 ^ 64 -> 0 <= off < PAGE -> vm_at b off = b + off.
Proof. intros H1 H2 H3. unfold vm_at. apply u64_id. lia. Qed.

(** [k] completes and leaves what [P] says of memory alone. *)
Definition calm {G A} (P : G -> Prop) (k : K G A) : Prop := forall env g, P g -> exists x env' g', k env g = KRet x env' g' /\ P g'.

Section Calm.
Context {G : Type} `{!SoftMmu G, !PhysMem G, !PhysMemSpec G, !Chipset G, !FlushKeeps G}.
Implicit Types (P : G -> Prop).

Lemma calm_seq {A B} P (k : K G A) (k' : A -> K G B) : calm P k -> (forall x, calm P (k' x)) -> calm P (x <- k ;; k' x).
Proof.
  intros H H' env g Hg. destruct (H env g Hg) as (x & e1 & g1 & E & Hg1). destruct (H' x e1 g1 Hg1) as (y & e2 & g2 & E' & Hg2).
  exists y, e2, g2. unfold kbind. by rewrite E.
Qed.

Lemma calm_mod P f : calm P (kmod f).
Proof. intros env g Hg. by eexists _, _, _. Qed.
Lemma calm_ret {A} P (x : A) : calm P (kret x).
Proof. intros env g Hg. by eexists _, _, _. Qed.
Lemma calm_get P : calm P kget.
Proof. intros env g Hg. by eexists _, _, _. Qed.
Lemma calm_ld P n a : calm P (ld n a).
Proof. intros env g Hg. by eexists _, _, _. Qed.
Lemma calm_load P n a f : calm P (load n a f).
Proof. intros env g Hg. by eexists _, _, _. Qed.
Lemma calm_mem P (f : G -> G) : (forall g, P g -> P (f g)) -> calm P (kmem f).
Proof. intros H env g Hg. eexists _, _, _. split; [done|]. by apply H. Qed.
Lemma calm_runs at_ l (k : K G unit) f : runs at_ l k f -> calm (sees at_ l) k.
Proof. intros H env g Hg. destruct (H env g Hg) as (g' & E & Hg'). by exists tt, (f env), g'. Qed.
Lemma calm_if {A} P (c : bool) (k k' : K G A) : calm P k -> calm P k' -> calm P (if c then k else k').
Proof. by destruct c. Qed.

(** A store to another page, or to another word of the same page. *)
Lemma sees_other b b' l off n v (g : G) :
  pages_apart b b' -> forallb in_page l.*1 = true -> in_page (off, n) = true ->
  sees (vm_at b) l g -> sees (vm_at b) l (st_mem n (vm_at b' off) v g).
Proof.
  intros (H1 & H2 & H3 & H4 & H5) Hl Hin Hg o k w Hw. rewrite <-(Hg o k w Hw). pose proof (word_in o k w l Hw) as Hi.
  rewrite forallb_forall in Hl. specialize (Hl _ (proj1 (list_elem_of_In _ _) Hi)). unfold in_page in *. cbn [fst snd] in *.
  rewrite !andb_true_iff, !Z.leb_le in *. apply ld_st_apart. rewrite !vm_at_page by lia. unfold apart. lia.
Qed.

Lemma sees_same b l off n v (g : G) :
  image_ok l.*1 = true -> 0 <= off -> off + Z.of_nat n <= IMAGE -> forallb (clear_of off n) l.*1 = true ->
  sees (vm_at b) l g -> sees (vm_at b) l (st_mem n (vm_at b off) v g).
Proof.
  intros Hl H1 H2 Hc Hg o k w Hw. rewrite <-(Hg o k w Hw). pose proof (word_in o k w l Hw) as Hi%list_elem_of_In.
  rewrite forallb_forall in Hc. specialize (Hc _ Hi). apply ld_st_apart.
  assert (0 <= o /\ o + Z.of_nat k <= IMAGE) as [H3 H4].
  { clear -Hl Hi. induction l as [|[[o' k'] v'] l IH]; [done|]. cbn [fmap list_fmap fst image_ok] in *. rewrite !andb_true_iff, !Z.leb_le in Hl.
    destruct Hl as ((((? & ?) & ?) & _) & Hl). destruct Hi as [[= -> ->]|Hi]; [done|]. by apply IH. }
  by apply (wrap_spread 64 b).
Qed.

(** The same for several stores. *)
Lemma sees_image b b' l l' (g : G) :
  pages_apart b b' -> forallb in_page l.*1 = true -> forallb in_page l'.*1 = true ->
  sees (vm_at b) l g -> sees (vm_at b) l (put_image (vm_at b') l' g).
Proof.
  intros Hp Hl. revert g. induction l' as [|[[o n] v] l' IH]; [done|]. intros g. cbn [fmap list_fmap fst forallb]. rewrite andb_true_iff.
  intros [H1 H2] Hg. apply (IH _ H2). by apply sees_other.
Qed.
End Calm.

#[export] Hint Resolve calm_seq calm_mod calm_ret calm_get calm_ld calm_load calm_if : image.

Section Phases.
Context {G : Type} `{!SoftMmu G, !IntrHooks G, !PhysMem G, !PhysMemSpec G, !Chipset G, !FlushKeeps G}.

Definition end_shadow (env : CPUX86State) : CPUX86State :=
  if has (hflags env) HF_INHIBIT_IRQ_MASK then with_hflags (Z.land (hflags env) (not32 HF_INHIBIT_IRQ_MASK)) env else env.

(** Loading a guest touches no other page; it cannot fail. *)
Lemma load_guest_calm b b' l :
  pages_apart b b' -> forallb in_page l.*1 = true -> calm (sees (vm_at b) l) (load_guest (G := G) b').
Proof.
  intros Hp Hl. assert (forall n a v, in_page (a, n) = true -> calm (sees (vm_at b) l) (kmem (st_mem n (vm_at b' a) v))) as Hst.
  { intros n a v Ha. apply calm_mem. intros g Hg. by apply sees_other. }
  unfold load_guest, load_controls, load_tables, load_crs, load_state, svm_load_seg_cache, svm_load_seg.
  repeat first [apply calm_seq; [|intros ?] | apply calm_mod | apply calm_ret | apply calm_get | apply calm_ld | apply calm_load
    | apply calm_if | by apply Hst | eapply calm_runs, runs_cr0 | eapply calm_runs, runs_cr3 | eapply calm_runs, runs_cr4
    | apply calm_mem; intros; by apply sees_flush].
Qed.

Lemma runs_get at_ l (k : CPUX86State -> K G unit) h :
  (forall e, runs at_ l (k e) (h e)) -> runs at_ l (e <- kget ;; k e) (fun env => h env env).
Proof. intros H env g Hg. by apply H. Qed.

Lemma runs_any n a at_ l (k : Z -> K G unit) f : (forall v, runs at_ l (k v) f) -> runs at_ l (v <- ld n a ;; k v) f.
Proof. intros H env g Hg. unfold kbind, ld. by apply H. Qed.

Lemma runs_st b b' l n off v :
  pages_apart b b' -> forallb in_page l.*1 = true -> in_page (off, n) = true ->
  runs (G := G) (vm_at b) l (kmem (st_mem n (vm_at b' off) v)) (fun env => env).
Proof. intros Hp Hl Ho. apply runs_mem. intros g Hg. by apply sees_other. Qed.

Lemma runs_put b b' l l' :
  pages_apart b b' -> forallb in_page l.*1 = true -> forallb in_page l'.*1 = true ->
  runs (G := G) (vm_at b) l (kmem (put_image (vm_at b') l')) (fun env => env).
Proof. intros Hp Hl Ho. apply runs_mem. intros g Hg. by apply sees_image. Qed.

(** Nor does saving one. *)
Lemma save_guest_run b b' l :
  pages_apart b b' -> forallb in_page l.*1 = true -> runs (vm_at b) l (save_guest (G := G) b') end_shadow.
Proof.
  intros Hp Hl. unfold save_guest. apply (runs_seq _ _ _ _ end_shadow (fun env => env)).
  - unfold save_shadow. apply (runs_get _ _ _ (fun e env => if has (hflags e) HF_INHIBIT_IRQ_MASK then
      with_hflags (Z.land (hflags env) (not32 HF_INHIBIT_IRQ_MASK)) env else env)).
    intros e. destruct (has (hflags e) HF_INHIBIT_IRQ_MASK); [|by apply runs_st].
    apply (runs_seq _ _ _ _ (fun env => env) (fun env => with_hflags (Z.land (hflags env) (not32 HF_INHIBIT_IRQ_MASK)) env)); [by apply runs_st|apply runs_mod].
  - apply (runs_get _ _ _ (fun _ env => env)). intros e.
    apply (runs_seq _ _ _ _ (fun env => env) (fun env => env)); [by apply runs_put|].
    apply (runs_seq _ _ _ _ (fun env => env) (fun env => env)); [|by apply runs_put].
    apply (runs_get _ _ _ (fun _ env => env)). intros e'. apply runs_any. intros v. by apply runs_st.
Qed.

Lemma exit_report_run b b' l code info :
  pages_apart b b' -> forallb in_page l.*1 = true -> runs (vm_at b) l (exit_report (G := G) b' code info) (fun env => env).
Proof.
  intros Hp Hl. unfold exit_report. apply (runs_seq _ _ _ _ (fun env => env) (fun env => env)); [by apply runs_put|].
  apply runs_any. intros v. apply (runs_seq _ _ _ _ (fun env => env) (fun env => env)); [by apply runs_st|].
  apply runs_any. intros w. apply (runs_seq _ _ _ _ (fun env => env) (fun env => env)); by apply runs_st.
Qed.
End Phases.

(** ** The CPU after loading *)

Lemma efer_only v env : cpu_load_efer v env = with_hflags (hflags (cpu_load_efer v env)) (with_efer v env).
Proof. unfold cpu_load_efer. cbv zeta. cbn [efer with_hflags with_efer]. destruct (has v MSR_EFER_LMA); cbn [efer with_hflags with_efer]; by destruct (has v MSR_EFER_SVME). Qed.

Lemma efer_bits v env k :
  0 <= k < 32 -> k <> 14 -> k <> 20 -> Z.testbit (hflags (cpu_load_efer v env)) k = Z.testbit (hflags env) k.
Proof.
  intros Hk H14 H20. unfold cpu_load_efer. cbv zeta. cbn [efer with_hflags with_efer].
  assert (Z.testbit (Z.land (hflags env) (not32 (Z.lor HF_LMA_MASK HF_SVME_MASK))) k = Z.testbit (hflags env) k) as H.
  { rewrite Z.land_spec, testbit_not32, Z.lor_spec by lia. change HF_LMA_MASK with (2 ^ 14). change HF_SVME_MASK with (2 ^ 20).
    by rewrite !Z.pow2_bits_false, andb_true_r by lia. }
  destruct (has v MSR_EFER_LMA); cbn [efer with_hflags with_efer]; destruct (has v MSR_EFER_SVME); cbn [hflags with_hflags with_efer]; rewrite ?Z.lor_spec, H;
    change HF_LMA_MASK with (2 ^ 14); change HF_SVME_MASK with (2 ^ 20); by rewrite ?Z.pow2_bits_false, ?orb_false_r by lia.
Qed.

Section Restore4.
Context (e0 : CPUX86State) (Hok : cpu_ok e0).

Lemma restore4_kept (P : CPUX86State -> Prop) env :
  (forall r sel bas lim fl e, (r < 6)%nat -> P e -> P (cpu_x86_load_seg_cache r sel bas lim fl e)) -> P env -> P (restore4 e0 env).
Proof. intros H HP. unfold restore4, restore_seg. do 4 (apply H; [lia|]). done. Qed.

Lemma restore4_segs env : length (segs env) = 6%nat -> segs (restore4 e0 env) = take 4 (map saved_seg (segs e0)) ++ drop 4 (segs env).
Proof.
  intros Hl. unfold restore4. rewrite !restore_seg_segs by (done || lia). pose proof (so_segs _ Hok) as Hl0. unfold seg.
  destruct (segs env) as [|? [|? [|? [|? [|? [|? [|]]]]]]]; try done.
  destruct (segs e0) as [|? [|? [|? [|? [|? [|? [|]]]]]]]; done.
Qed.

Lemma restore4_only env : only_segs env (restore4 e0 env).
Proof.
  apply (restore4_kept (only_segs env)); [|apply only_segs_refl]. intros r sel bas lim fl e _ H. apply (only_segs_trans _ e); [done|apply load_seg_only].
Qed.

(** Hidden flags after the state is loaded: they are right if they were, and the
    level and the intercepts are not touched. *)
Lemma state_hidden fl v a :
  ctrl_ok a -> hflags_ok a ->
  let a' := restore4 e0 (load_rflags fl (cpu_load_efer v a)) in
  ctrl_ok a' /\ hflags_ok a' /\ forall k, In k [0; 1; 3; 21] -> Z.testbit (hflags a') k = Z.testbit (hflags a) k.
Proof.
  intros Hc Hf a'. assert (hflags_ok (cpu_load_efer v a)) as H1.
  { rewrite efer_only. apply hflags_bits; [|by apply (hflags_ext a)]. intros k [Hk Ho]%hidden_bits_range.
    change (hflags (with_efer v a)) with (hflags a). apply efer_bits; [lia|intros ->; done..]. }
  assert (ctrl_ok (cpu_load_efer v a)) as H2 by (rewrite efer_only; by apply (ctrl_ext a)). split_and!.
  - apply restore4_kept; [intros; by apply ctrl_load|]. by apply (ctrl_ext (cpu_load_efer v a)).
  - apply restore4_kept; [intros; by apply hflags_load|]. by apply (hflags_ext (cpu_load_efer v a)).
  - intros k Hk. transitivity (Z.testbit (hflags (cpu_load_efer v a)) k).
    + apply (restore4_kept (fun e => Z.testbit (hflags e) k = Z.testbit (hflags (cpu_load_efer v a)) k)); [|done].
      intros r sel bas lim fl' e _ <-. apply load_seg_bit; by destruct Hk as [<- | [<- | [<- | [<- | []]]]].
    + apply efer_bits; by destruct Hk as [<- | [<- | [<- | [<- | []]]]].
Qed.
End Restore4.

Lemma cr_shape x a c h1 c1 h2 c2 r :
  a = with_hflags h1 (with_cr c1 x) -> c = with_hflags h2 (with_cr c2 a) -> with_cr r c = with_hflags (hflags c) (with_cr r x).
Proof. by intros -> ->. Qed.

Lemma crs_facts e0 a2 :
  cpu_ok e0 -> ctrl_ok a2 -> hflags_ok a2 -> features a2 = features e0 ->
  let a3 := set_cr 3 (crx e0 3) (put_cr4 (crx e0 4) (put_cr0 (crx e0 0) a2)) in
  (crx a3 0 = crx e0 0 /\ crx a3 2 = crx a2 2 /\ crx a3 3 = crx e0 3 /\ crx a3 4 = crx e0 4) /\
  ctrl_ok a3 /\ hflags_ok a3 /\ (forall k, In k [0; 1; 3; 21] -> Z.testbit (hflags a3) k = Z.testbit (hflags a2) k) /\
  a3 = with_hflags (hflags a3) (with_cr (cr a3) a2).
Proof.
  intros Hok Hc Hf Hft. destruct (so_cr _ Hok) as [_ Hr]. assert (forall n, u32 (crx e0 n) = crx e0 n) as Hid by (intros n; by apply nth_id).
  pose proof (put_cr0_ok (crx e0 0) a2 Hc) as Hc1. pose proof (hflags_cr0 (crx e0 0) a2 Hc Hf) as Hf1.
  assert (forall m, crx (put_cr0 (crx e0 0) a2) m = if Nat.eqb m 0 then crx e0 0 else crx a2 m) as Hx0.
  { intros m. rewrite (crx_insert 0 m (u32 (Z.lor (crx e0 0) CR0_ET_MASK)) a2); [|done|rewrite (ck_cr _ Hc); lia]. by rewrite (so_cr0 _ Hok), Hid. }
  assert (features (put_cr0 (crx e0 0) a2) = features e0) as Hft1 by done.
  assert (put_cr0 (crx e0 0) a2 = with_hflags (hflags (put_cr0 (crx e0 0) a2)) (with_cr (cr (put_cr0 (crx e0 0) a2)) a2)) as Hs0 by done.
  assert (forall k, In k [0; 1; 3; 21] -> Z.testbit (hflags (put_cr0 (crx e0 0) a2)) k = Z.testbit (hflags a2) k) as Hb0.
  { intros k Hk. apply put_cr0_bit; by destruct Hk as [<- | [<- | [<- | [<- | []]]]]. }
  generalize dependent (put_cr0 (crx e0 0) a2). intros a Hc1 Hf1 Hx0 Hft1 Hs0 Hb0.
  pose proof (put_cr4_ok (crx e0 4) a Hc1) as Hc2. pose proof (hflags_cr4 (crx e0 4) a Hc1 Hf1) as Hf2.
  assert (forall m, crx (put_cr4 (crx e0 4) a) m = if Nat.eqb m 4 then crx e0 4 else crx a m) as Hx4.
  { intros m. rewrite put_cr4_crx by apply Hc1. pose proof (so_cr4 _ Hok) as H4. unfold kept_cr4, feature in *. by rewrite Hft1, H4, Hid. }
  assert (forall k, In k [0; 1; 3; 21] -> Z.testbit (hflags (put_cr4 (crx e0 4) a)) k = Z.testbit (hflags a) k) as Hb4.
  { intros k Hk. apply put_cr4_bit; by destruct Hk as [<- | [<- | [<- | [<- | []]]]]. }
  pose proof (put_cr4_only (crx e0 4) a) as Hs4. generalize dependent (put_cr4 (crx e0 4) a). intros c Hc2 Hf2 Hx4 Hb4 Hs4 a3.
  assert (forall m, crx a3 m = if Nat.eqb m 3 then crx e0 3 else crx c m) as Hx3.
  { intros m. unfold a3. rewrite crx_set by (rewrite (ck_cr _ Hc2); lia). by rewrite Hid. }
  split_and!; try (by rewrite Hx3; cbn [Nat.eqb]; rewrite ?Hx4; cbn [Nat.eqb]; rewrite ?Hx0).
  - apply set_cr_ok; [lia|done].
  - by apply hflags_cr3.
  - intros k Hk. change (hflags a3) with (hflags c). by rewrite Hb4, Hb0.
  - exact (cr_shape _ _ _ _ _ _ _ _ Hs0 Hs4).
Qed.

Definition load_cpu (e0 : CPUX86State) (rip : Z) (env : CPUX86State) : CPUX86State :=
  let a := restore4 e0 (load_rflags (cpu_compute_eflags e0) (cpu_load_efer (efer e0) env)) in
  with_regs (<[R_EAX := reg e0 R_EAX]> (<[R_ESP := reg e0 R_ESP]> (regs a))) (with_eip rip a).

Lemma state_shape e0 rip a fl h1 x r1 y :
  a = with_hflags h1 (with_efer (efer e0) x) -> y = with_hflags (hflags y) (with_segs (segs y) (load_rflags fl a)) ->
  with_regs r1 (with_eip rip y) = with_hflags (hflags y) (with_segs (segs y) (with_regs r1 (with_eip rip (load_rflags fl (with_efer (efer e0) x))))).
Proof. intros E1 E2. rewrite E2 at 1. rewrite E1. reflexivity. Qed.

Lemma rflags_transfer e0 a y :
  cpu_ok e0 -> let c := load_rflags (cpu_compute_eflags e0) a in
  eflags y = eflags c -> cc_src y = cc_src c -> df y = df c -> cc_op y = cc_op c -> cpu_compute_eflags y = cpu_compute_eflags e0.
Proof.
  intros Hok c H1 H2 H3 H4. unfold c, load_rflags in *. pose proof (compute_eflags_range e0 (so_eflags _ Hok)) as Hx.
  rewrite (u32_id (cpu_compute_eflags e0) Hx) in *.
  rewrite <-(eflags_transfer e0 (with_eflags 0 a)) by (done || apply (so_eflags _ Hok)). by apply compute_eflags_ext.
Qed.

Lemma only_segs_flags c y :
  only_segs c y -> eflags y = eflags c /\ cc_src y = cc_src c /\ df y = df c /\ cc_op y = cc_op c /\ regs y = regs c.
Proof. by intros ->. Qed.

Record state_loaded (e0 : CPUX86State) (rip : Z) (a a' : CPUX86State) : Prop := {
  sl_segs : segs a' = take 4 (map saved_seg (segs e0)) ++ drop 4 (segs a);
  sl_regs : regs a' = <[R_EAX := reg e0 R_EAX]> (<[R_ESP := reg e0 R_ESP]> (regs a));
  sl_eflags : cpu_compute_eflags a' = cpu_compute_eflags e0;
  sl_ctrl : ctrl_ok a';
  sl_hidden : hflags_ok a';
  sl_bits : forall k, In k [0; 1; 3; 21] -> Z.testbit (hflags a') k = Z.testbit (hflags a) k;
  sl_shape : a' = with_hflags (hflags a') (with_segs (segs a') (with_regs (regs a') (with_eip rip
    (load_rflags (cpu_compute_eflags e0) (with_efer (efer e0) a)))))
}.

Lemma state_facts e0 rip a :
  cpu_ok e0 -> ctrl_ok a -> hflags_ok a -> length (segs a) = 6%nat -> state_loaded e0 rip a (load_cpu e0 rip a).
Proof.
  intros Hok Hc Hf Hl. destruct (state_hidden e0 (cpu_compute_eflags e0) (efer e0) a Hc Hf) as (Hc' & Hf' & Hb).
  pose proof (efer_only (efer e0) a) as H1. unfold load_cpu. cbv zeta in *.
  set (a1 := cpu_load_efer (efer e0) a) in *. clearbody a1. pose proof (restore4_only e0 (load_rflags (cpu_compute_eflags e0) a1)) as H2.
  assert (segs (load_rflags (cpu_compute_eflags e0) a1) = segs a) as H3 by (by rewrite H1).
  pose proof (restore4_segs e0 Hok (load_rflags (cpu_compute_eflags e0) a1)) as H4. rewrite H3 in H4. specialize (H4 Hl). unfold only_segs in H2.
  generalize dependent (restore4 e0 (load_rflags (cpu_compute_eflags e0) a1)). intros y Hc' Hf' Hb H2 H4.
  assert (regs y = regs a) as Hr.
  { destruct (only_segs_flags _ _ H2) as (_ & _ & _ & _ & ->). by rewrite H1. }
  split.
  - exact H4.
  - by rewrite <-Hr.
  - destruct (only_segs_flags _ _ H2) as (F1 & F2 & F3 & F4 & _). exact (rflags_transfer e0 a1 (with_regs _ (with_eip rip y)) Hok F1 F2 F3 F4).
  - by apply (ctrl_ext y).
  - by apply (hflags_ext y).
  - exact Hb.
  - exact (state_shape e0 rip a1 _ _ a _ y H1 H2).
Qed.

(** ** The host *)

Definition load_tabs (e0 env : CPUX86State) : CPUX86State :=
  with_idt (mkSeg (selector (idt env)) (base (idt e0)) (limit (idt e0)) (sflags (idt env)))
    (with_gdt (mkSeg (selector (gdt env)) (base (gdt e0)) (limit (gdt e0)) (sflags (gdt env))) env).

Definition load_ctrl (e0 env : CPUX86State) : CPUX86State := set_cr 3 (crx e0 3) (put_cr4 (crx e0 4) (put_cr0 (crx e0 0) env)).

Section Host.
Context {G : Type} `{!SoftMmu G, !IntrHooks G, !PhysMem G, !PhysMemSpec G, !Chipset G, !FlushKeeps G}.
Context (b : Z) (l : list entry) (e0 : CPUX86State) (rip : Z).
Context (Hl : holds l e0 rip) (Hok : cpu_ok e0) (Hefer : in_range 64 (efer e0)) (Hrip : in_range 32 rip).

Lemma dr_id n : u32 (u64 (drx e0 n)) = drx e0 n.
Proof.
  destruct (so_dr _ Hok) as [_ Hd]. apply wrap64_u32. unfold drx. rewrite nth_lookup. destruct (dr e0 !! n) eqn:E; [|done]. by apply (Forall_lookup_1 _ _ _ _ Hd E).
Qed.

Lemma load_host_run :
  Z.lor (crx e0 0) CR0_PE_MASK = crx e0 0 ->
  exists f, runs (G := G) (vm_at b) l (load_host b) f /\
    forall env, f env = set_dr 7 (u64 (drx e0 7)) (set_dr 6 (u64 (drx e0 6)) (load_cpu e0 rip (load_ctrl e0 (load_tabs e0 env)))).
Proof.
  intros Hpe. destruct (tables_load (G := G) b l e0 rip Hl Hok) as (f1 & R1 & E1).
  destruct (state_load (G := G) b l e0 rip Hl Hok Hefer Hrip) as (f3 & R3 & E3). destruct (ho_dr _ _ _ Hl) as [D6 D7].
  eexists. split.
  { unfold load_host. eapply runs_seq; [exact R1|]. eapply runs_seq; [by apply (crs_load b l e0 rip Hl Hok)|].
    eapply runs_seq; [exact R3|]. eapply runs_seq; [eapply runs_loadq; exact D6|eapply runs_loadq; exact D7]. }
  intros env. cbv beta. rewrite E3, E1. reflexivity.
Qed.

Lemma vmexit_run b' code info env2 g2 :
  Z.lor (crx e0 0) CR0_PE_MASK = crx e0 0 -> pages_apart b b' -> forallb in_page l.*1 = true ->
  vm_hsave (svm env2) = b -> vm_vmcb env2 = b' -> sees (vm_at b) l g2 ->
  exists g3, helper_vmexit (G := G) (A := unit) code info env2 g2 = KExit (finish_exit (cpu_x86_set_cpl 0
    (set_dr 7 (u64 (drx e0 7)) (set_dr 6 (u64 (drx e0 6)) (load_cpu e0 rip (load_ctrl e0 (load_tabs e0 (leave_guest (end_shadow env2))))))))) g3.
Proof.
  intros Hpe Hp Hin Hb Hb' Hg. unfold helper_vmexit. rewrite step_get. cbv zeta. rewrite Hb, Hb'.
  edestruct (run_step (vm_at b) l) as (g3 & -> & Hg3); [by apply save_guest_run|done|].
  rewrite step_mod. destruct (load_host_run Hpe) as (f & Rf & Ef).
  edestruct (run_step (vm_at b) l) as (g4 & -> & Hg4); [exact Rf|done|]. rewrite Ef, step_mod.
  edestruct (run_step (vm_at b) l) as (g5 & -> & Hg5); [by apply exit_report_run|done|].
  rewrite step_mod. by exists g5.
Qed.
End Host.

(** What the guest must not have changed, besides the host save area. *)
Record guest_ok (env env2 : CPUX86State) (b : Z) : Prop := {
  gu_hsave : vm_hsave (svm env2) = vm_hsave (svm env);
  gu_vmcb : vm_vmcb env2 = b;
  gu_features : features env2 = features env;
  gu_segs : length (segs env2) = 6%nat;
  gu_ctrl : ctrl_ok env2;
  gu_dr : length (dr env2) = 8%nat;
  gu_hidden : hflags_ok env2
}.

(** The host goes on at [rip] with its own registers, but for the general registers,
    FS and GS, which the guest leaves behind. *)
Record host_resumed (env env2 : CPUX86State) (rip : Z) (env3 : CPUX86State) : Prop := {
  hr_eip : eip env3 = rip;
  hr_regs : regs env3 = <[R_EAX := reg env R_EAX]> (<[R_ESP := reg env R_ESP]> (regs env2));
  hr_segs : segs env3 = take 4 (map saved_seg (segs env)) ++ drop 4 (segs env2);
  hr_gdt : base (gdt env3) = base (gdt env) /\ limit (gdt env3) = limit (gdt env);
  hr_idt : base (idt env3) = base (idt env) /\ limit (idt env3) = limit (idt env);
  hr_cr : crx env3 0 = crx env 0 /\ crx env3 3 = crx env 3 /\ crx env3 4 = crx env 4;
  hr_dr : drx env3 6 = drx env 6 /\ drx env3 7 = drx env 7;
  hr_efer : efer env3 = efer env;
  hr_eflags : cpu_compute_eflags env3 = cpu_compute_eflags env;
  hr_level : cpl_of env3 = 0;
  hr_free : has (hflags env3) HF_SVMI_MASK = false /\ intercept env3 = 0 /\ intercept_exceptions env3 = 0;
  hr_gif : has (hflags2 env3) HF2_GIF_MASK = false;
  hr_hidden : hflags_ok env3
}.

Lemma svmi_off h k : 0 <= k < 32 -> Z.testbit (Z.land h (not32 HF_SVMI_MASK)) k = Z.testbit h k && negb (k =? 21).
Proof.
  intros Hk. rewrite Z.land_spec, testbit_not32 by lia. change HF_SVMI_MASK with (2 ^ 21). rewrite Z.pow2_bits_eqb by lia. by rewrite Z.eqb_sym.
Qed.

Lemma shadow_off env k : 0 <= k < 32 -> k <> 3 -> Z.testbit (hflags (end_shadow env)) k = Z.testbit (hflags env) k.
Proof.
  intros Hk Hn. unfold end_shadow. destruct (has _ _); [|done]. cbn [hflags with_hflags]. rewrite Z.land_spec, testbit_not32 by lia.
  change HF_INHIBIT_IRQ_MASK with (2 ^ 3). by rewrite Z.pow2_bits_false, andb_true_r by lia.
Qed.

Lemma end_shadow_only env : end_shadow env = with_hflags (hflags (end_shadow env)) env.
Proof. unfold end_shadow. destruct (has _ _); [done|by destruct env]. Qed.

(** The CPU between the guest and the host. *)
Lemma left_facts env2 :
  ctrl_ok env2 -> hflags_ok env2 ->
  let a := leave_guest (end_shadow env2) in
  ctrl_ok a /\ hflags_ok a /\ Z.testbit (hflags a) 21 = false /\
  segs a = segs env2 /\ regs a = regs env2 /\ dr a = dr env2 /\ features a = features env2 /\ intercept a = 0 /\ intercept_exceptions a = 0.
Proof.
  intros Hc Hf. pose proof (shadow_off env2) as Hb. pose proof (end_shadow_only env2) as Hs. generalize dependent (end_shadow env2). intros y Hb Hs a.
  assert (hflags_ok y) as Hfy by (rewrite Hs; apply hflags_bits; [intros k [Hk Ho]%hidden_bits_range; apply Hb; [lia|intros ->; done]|done]).
  assert (cr y = cr env2 /\ segs y = segs env2 /\ regs y = regs env2 /\ dr y = dr env2 /\ features y = features env2) as (R1 & R2 & R3 & R4 & R5) by (by rewrite Hs).
  split_and!; try done.
  - by apply (ctrl_ext env2).
  - apply (hflags_ext (with_hflags (Z.land (hflags y) (not32 HF_SVMI_MASK)) y)); [done..|]. apply hflags_bits; [|done].
    intros k [Hk Ho]%hidden_bits_range. rewrite svmi_off by lia. destruct (Z.eqb_spec k 21) as [->|]; [done|apply andb_true_r].
  - change (hflags a) with (Z.land (hflags y) (not32 HF_SVMI_MASK)). rewrite svmi_off by done. apply andb_false_r.
Qed.

(** Fields that loading the state leaves alone. *)
Definition beside_state (a a' : CPUX86State) : Prop :=
  gdt a' = gdt a /\ idt a' = idt a /\ cr a' = cr a /\ dr a' = dr a /\ intercept a' = intercept a /\
  intercept_exceptions a' = intercept_exceptions a /\ hflags2 a' = hflags2 a.

Lemma state_beside a a' h s r rip fl v :
  a' = with_hflags h (with_segs s (with_regs r (with_eip rip (load_rflags fl (with_efer v a))))) ->
  beside_state a a' /\ eip a' = rip /\ efer a' = v /\ eflags a' = eflags (load_rflags fl (with_efer v a)).
Proof. intros ->. split; [repeat split|done]. Qed.

Lemma ctrl_beside a a' h c :
  a' = with_hflags h (with_cr c a) ->
  gdt a' = gdt a /\ idt a' = idt a /\ dr a' = dr a /\ intercept a' = intercept a /\
  intercept_exceptions a' = intercept_exceptions a /\ hflags2 a' = hflags2 a /\ segs a' = segs a /\ regs a' = regs a.
Proof. intros ->. repeat split. Qed.

Definition exit_cpu (d6 d7 : Z) (a : CPUX86State) : CPUX86State := finish_exit (cpu_x86_set_cpl 0 (set_dr 7 d7 (set_dr 6 d6 a))).

Lemma exit_beside d6 d7 a :
  let a' := exit_cpu d6 d7 a in
  eip a' = eip a /\ regs a' = regs a /\ segs a' = segs a /\ gdt a' = gdt a /\ idt a' = idt a /\ efer a' = efer a /\
  cr a' = <[0%nat := Z.lor (crx a 0) CR0_PE_MASK]> (cr a) /\ dr a' = <[7%nat := u32 d7]> (<[6%nat := u32 d6]> (dr a)) /\
  intercept a' = intercept a /\ intercept_exceptions a' = intercept_exceptions a /\
  hflags a' = hflags (cpu_x86_set_cpl 0 a) /\ has (hflags2 a') HF2_GIF_MASK = false.
Proof.
  cbv zeta. do 11 (split; [reflexivity|]). change (has (Z.land (hflags2 a) (not32 HF2_GIF_MASK)) HF2_GIF_MASK = false).
  change HF2_GIF_MASK with (2 ^ 0). by rewrite has_bit, Z.land_spec, testbit_not32, Z.pow2_bits_true, andb_false_r.
Qed.

Lemma exit_eflags d6 d7 a :
  has (eflags a) VM_MASK = false -> in_range 32 (eflags a) -> cpu_compute_eflags (exit_cpu d6 d7 a) = cpu_compute_eflags a.
Proof.
  intros Hv Hr. assert (Z.land (eflags a) (not32 VM_MASK) = eflags a) as H.
  { apply Z.bits_inj'. intros i Hi. rewrite Z.land_spec. destruct (Z.lt_ge_cases i 32).
    - rewrite testbit_not32 by lia. change VM_MASK with (2 ^ 17) in *. rewrite has_bit in Hv by done. rewrite Z.pow2_bits_eqb by lia.
      destruct (Z.eqb_spec 17 i) as [<-|]; [by rewrite Hv|apply andb_true_r].
    - by rewrite (testbit_high 32 (eflags a)) by (lia || done). }
  unfold cpu_compute_eflags. change (eflags (exit_cpu d6 d7 a)) with (Z.land (eflags a) (not32 VM_MASK)). rewrite H. reflexivity.
Qed.

Lemma rflags_vm fl a :
  has fl VM_MASK = false -> let e := eflags (load_rflags fl a) in has e VM_MASK = false /\ in_range 32 e.
Proof.
  intros Hv e. change e with (Z.lor (u32 (Z.land (u32 fl) (Z.lnot ARITH))) 2). split.
  - change VM_MASK with (2 ^ 17) in *. rewrite has_bit in * by done. rewrite Z.lor_spec. unfold u32. rewrite testbit_wrap, Z.land_spec, testbit_wrap by lia. by rewrite Hv.
  - apply (in_range_within 0xffffffff); [done|]. unfold CcHelper.within. rewrite Z.land_lor_distr_l. f_equal.
    unfold u32, wrap. change 0xffffffff with (Z.ones 32). rewrite Z.land_ones by lia. by rewrite Z.mod_mod.
Qed.

Lemma dr_loaded d6 d7 l : length l = 8%nat -> nth 6 (<[7%nat := d7]> (<[6%nat := d6]> l)) 0 = d6 /\ nth 7 (<[7%nat := d7]> (<[6%nat := d6]> l)) 0 = d7.
Proof. intros Hl. by destruct l as [|? [|? [|? [|? [|? [|? [|? [|? [|]]]]]]]]]. Qed.

Lemma exit_hidden c a a' :
  0 <= c < 4 -> hflags a' = hflags (cpu_x86_set_cpl c a) -> cr a' = cr a -> segs a' = segs a -> hflags_ok a ->
  hflags_ok a' /\ cpl_of a' = c /\ forall k, 2 <= k < 32 -> Z.testbit (hflags a') k = Z.testbit (hflags a) k.
Proof.
  intros Hc H1 H2 H3 Hf. split_and!.
  - apply (hflags_ext (cpu_x86_set_cpl c a)); [done..|]. apply hflags_bits; [|done]. intros k [Hk _]%hidden_bits_range. by apply (set_cpl_bits c).
  - unfold cpl_of. rewrite H1. by apply (cpl_set c).
  - intros k Hk. rewrite H1. by apply (set_cpl_bits c).
Qed.

Lemma host_fields env env2 rip a1 a3 a4 :
  cpu_ok env -> Z.lor (crx env 0) CR0_PE_MASK = crx env 0 -> has (cpu_compute_eflags env) VM_MASK = false -> length (dr a1) = 8%nat ->
  segs a1 = segs env2 -> regs a1 = regs env2 -> intercept a1 = 0 -> intercept_exceptions a1 = 0 -> Z.testbit (hflags a1) 21 = false ->
  crx a3 0 = crx env 0 /\ crx a3 3 = crx env 3 /\ crx a3 4 = crx env 4 -> Z.testbit (hflags a3) 21 = Z.testbit (hflags a1) 21 ->
  a3 = with_hflags (hflags a3) (with_cr (cr a3) (load_tabs env a1)) -> state_loaded env rip a3 a4 ->
  host_resumed env env2 rip (exit_cpu (u64 (drx env 6)) (u64 (drx env 7)) a4).
Proof.
  intros Hok Hpe Hvm Hdr S1 S2 S3 S4 S5 (C0 & C3 & C4) B3 E3 [L1 L2 L3 L4 L5 L6 L7].
  destruct (ctrl_beside _ _ _ _ E3) as (P1 & P2 & P3 & P4 & P5 & _ & P7 & P8).
  destruct (state_beside _ _ _ _ _ _ _ _ L7) as ((Q1 & Q2 & Q3 & Q4 & Q5 & Q6 & _) & Q8 & Q9 & Q10).
  destruct (exit_beside (u64 (drx env 6)) (u64 (drx env 7)) a4) as (R1 & R2 & R3 & R4 & R5 & R6 & R7 & R8 & R9 & R10 & R11 & R12).
  assert (has (eflags a4) VM_MASK = false /\ in_range 32 (eflags a4)) as [V1 V2] by (rewrite Q10; exact (rflags_vm _ _ Hvm)).
  pose proof (exit_eflags (u64 (drx env 6)) (u64 (drx env 7)) a4 V1 V2) as Hfl. rewrite !(dr_id env Hok) in R8.
  assert (crx a4 0 = crx env 0) as D0 by (unfold crx at 1; by rewrite Q3).
  assert (cr (exit_cpu (u64 (drx env 6)) (u64 (drx env 7)) a4) = cr a4) as Hcr.
  { rewrite R7, D0, Hpe, <-D0. unfold crx. rewrite nth_lookup. pose proof (ck_cr _ L4) as Hl. destruct (cr a4) as [|x c]; done. }
  generalize dependent (exit_cpu (u64 (drx env 6)) (u64 (drx env 7)) a4). intros a7 R1 R2 R3 R4 R5 R6 R7 R8 R9 R10 R11 R12 Hfl Hcr.
  destruct (exit_hidden 0 a4 a7 ltac:(lia) R11 Hcr R3 L5) as (Hf & Hc & Hb). split; try done.
  - by rewrite R1.
  - by rewrite R2, L2, P8, <-S2.
  - by rewrite R3, L1, P7, <-S1.
  - rewrite R4, Q1, P1. done.
  - rewrite R5, Q2, P2. done.
  - unfold crx in *. by rewrite Hcr, Q3.
  - unfold drx at 1 3. rewrite R8, Q4, P3. by apply dr_loaded.
  - by rewrite R6.
  - by rewrite Hfl.
  - rewrite R9, R10, Q5, Q6, P4, P5. split; [|done]. change HF_SVMI_MASK with (2 ^ 21). rewrite has_bit, Hb, L6, B3 by (done || simpl; tauto). done.
Qed.

Lemma host_image_ok next env : image_ok (host_image next env).*1 = true.
Proof. reflexivity. Qed.

Lemma host_image_page next env : forallb in_page (host_image next env).*1 = true.
Proof. reflexivity. Qed.

Lemma host_image_holds next env : holds (host_image next env) env (u32 (eip env + next)).
Proof. split; repeat split. Qed.

Lemma page_kept {G} `{!PhysMem G} b l (g1 g2 : G) :
  forallb in_page l.*1 = true -> sees (G := G) (vm_at b) l g1 ->
  (forall off n, 0 <= off -> off + Z.of_nat n <= PAGE -> ld_mem n (vm_at b off) g2 = ld_mem n (vm_at b off) g1) -> sees (vm_at b) l g2.
Proof.
  intros Hl Hg Hm o n v Hw. rewrite <-(Hg o n v Hw). pose proof (word_in o n v l Hw) as Hi%list_elem_of_In.
  rewrite forallb_forall in Hl. specialize (Hl _ Hi). unfold in_page in Hl. cbn [fst snd] in Hl. rewrite !andb_true_iff, !Z.leb_le in Hl. apply Hm; lia.
Qed.

Section HostRoundTrip.
Context {G : Type} `{!SoftMmu G, !IntrHooks G, !PhysMem G, !PhysMemSpec G, !Chipset G, !FlushKeeps G}.

Lemma vmrun_saves next env (g : G) :
  has (hflags env) HF_SVMI_MASK = false ->
  let b := vm_hsave (svm env) in let b' := u32 (reg env R_EAX) in
  pages_apart b b' ->
  exists env1 g1, helper_vmrun next env g = inject_event b' env1 g1 /\ sees (vm_at b) (host_image next env) g1.
Proof.
  intros Hs b b' Hp. unfold helper_vmrun. assert (forall k : K G unit, (cpu_svm_check_intercept_param SVM_EXIT_VMRUN 0 ;; k) env g = k env g) as ->.
  { intros k. unfold cpu_svm_check_intercept_param, helper_svm_check_intercept_param, kbind, kget. by rewrite Hs. }
  rewrite step_get. cbv zeta. rewrite step_mod, step_mem.
  destruct (load_guest_calm b b' (host_image next env) Hp (host_image_page next env) (with_vm_vmcb b' env) (put_image (vm_at b) (host_image next env) g))
    as ([] & env1 & g1 & E & Hg).
  - intros o n v Hw. apply put_image_word; [by apply (wrap_spread 64)|apply host_image_ok|done].
  - exists env1, g1. split; [|done]. unfold kbind. fold b b'. by rewrite E.
Qed.

End HostRoundTrip.

(** A host in flat protected mode, and a guest with other registers. *)
Definition svm_host : CPUX86State :=
  on_svm (fun s => mkSvm 0x5000 (tsc_offset s) 0 0 0 0 (v_tpr s) 0)
    (with_eip 0x7c00 (with_regs [0x3000; 1; 2; 3; 0x9000; 5; 6; 7] (with_hflags 0xb0 (with_cr [0x11; 0; 0; 0x1000; 0]
      (with_segs [user_seg 0x10 0xcf9300; user_seg 0x08 0xcf9b00; user_seg 0x10 0xcf9300; user_seg 0x10 0xcf9300; seg0; seg0] blank_cpu))))).

Definition guest_of (env : CPUX86State) : CPUX86State :=
  with_vm_vmcb 0x3000 (with_intercept 0x80000000 (with_hflags 0x2000b0 (with_regs [8; 9; 10; 11; 12; 13; 14; 15] (with_eip 0x100 env)))).
Definition svm_guest : CPUX86State := guest_of svm_host.

Definition no_hooks : IntrHooks phys := {| on_interrupt _ := kret tt; on_iret := kret tt |}.

Lemma svm_host_ok : cpu_ok svm_host.
Proof. split; try done; try (by repeat constructor); try (by split; [|repeat constructor]). Qed.

Lemma guest_of_fields env : vm_hsave (svm (guest_of env)) = vm_hsave (svm env) /\ features (guest_of env) = features env /\ svm (guest_of env) = svm env.
Proof. done. Qed.

Lemma svm_guest_ok : guest_ok svm_host svm_guest 0x3000.
Proof.
  destruct (guest_of_fields svm_host) as (H1 & H2 & H3). split; [exact H1|reflexivity|exact H2|reflexivity|by split|reflexivity|].
  split; [by split|by split].
Qed.

Lemma svm_host_runs :
  in_range 64 (efer svm_host) /\ Z.lor (crx svm_host 0) CR0_PE_MASK = crx svm_host 0 /\ has (cpu_compute_eflags svm_host) VM_MASK = false /\
  has (hflags svm_host) HF_SVMI_MASK = false /\ pages_apart (vm_hsave (svm svm_host)) (u32 (reg svm_host R_EAX)).
Proof.
  assert (crx svm_host 0 = 0x11 /\ vm_hsave (svm svm_host) = 0x5000 /\ u32 (reg svm_host R_EAX) = 0x3000) as (-> & -> & ->) by (split; [|split]; reflexivity).
  split; [split; [reflexivity|]; done|]. split; [reflexivity|]. split; [reflexivity|]. split; [reflexivity|]. unfold pages_apart, PAGE. lia.
Qed.

