(* ===== verification/SvmGuest.v ===== *)
(** * Guests are resumed where they were

    #VMEXIT keeps a guest in its control block and the next VMRUN of that block loads
    it again, whatever the hypervisor has done to the control area in between. *)

From stdpp Require Import base list.
From Stdlib Require Import ZArith Lia.
From S2P Require Import Prelude Cpu CcHelper Excp Guest Mmu MmuWalk Seg SegSpec SegTask SegInt SegInv SoftMmu TlbWalk PhysMem CtrlRegs CtrlTlb DebugRegs Image Smm SmmRound Svm SvmRound.

Local Open Scope Z_scope.
Local Open Scope k_scope.

Definition guest_image (env : CPUX86State) : list entry := guest_image1 env ++ guest_image2 env.

Lemma guest_image_page env : forallb in_page (guest_image env).*1 = true.
Proof. reflexivity. Qed.

Lemma guest_image_holds env : holds (guest_image env) env (eip env).
Proof. split; repeat split. Qed.

Lemma guest_image_save env : forallb (fun x => 0x400 <=? x.1) (guest_image env).*1 = true.
Proof. reflexivity. Qed.

Section Save.
Context {G : Type} `{!SoftMmu G, !IntrHooks G, !PhysMem G, !PhysMemSpec G, !Chipset G, !FlushKeeps G}.

Lemma sees_app at_ l l' (g : G) : sees at_ l g -> sees at_ l' g -> sees at_ (l ++ l') g.
Proof.
  intros H H' o n v Hw. assert (word o n l = Some v \/ word o n l' = Some v) as [Hl|Hl]; [|by apply H|by apply H'].
  revert Hw. clear. induction l as [|[[o' n'] v'] l IH]; [by right|]. cbn [app word]. destruct (_ && _); [by left|apply IH].
Qed.

Lemma sees_put b l (g : G) : image_ok l.*1 = true -> sees (vm_at b) l (put_image (vm_at b) l g).
Proof. intros Hl o n v Hw. apply put_image_word; [by apply (wrap_spread 64)|done|done]. Qed.

(** Stores to other words of the same page. *)
Lemma sees_beside b l l' (g : G) :
  image_ok l.*1 = true -> image_ok l'.*1 = true -> forallb (fun x => forallb (clear_of x.1 x.2) l.*1) l'.*1 = true ->
  sees (vm_at b) l g -> sees (vm_at b) l (put_image (vm_at b) l' g).
Proof.
  intros Hl. revert g. induction l' as [|[[o n] v] l' IH]; [done|]. intros g. cbn [fmap list_fmap fst snd forallb image_ok]. rewrite !andb_true_iff, !Z.leb_le.
  intros ((((H1 & H2) & _) & _) & H3) [H4 H5] Hg. apply (IH _ H3 H5). by apply sees_same.
Qed.

Lemma sees_store b env off n v (g : G) :
  0 <= off -> off + Z.of_nat n <= 0x400 -> sees (vm_at b) (guest_image env) g -> sees (vm_at b) (guest_image env) (st_mem n (vm_at b off) v g).
Proof.
  intros H1 H2. apply sees_same; [reflexivity|done|unfold IMAGE; lia|]. apply forallb_forall. intros x Hx. unfold clear_of. apply orb_true_iff. left.
  apply Z.leb_le. pose proof (guest_image_save env) as Hs. rewrite forallb_forall in Hs. specialize (Hs _ Hx). lia.
Qed.

Lemma save_guest_sees b env (g : G) :
  exists g', save_guest b env g = KRet tt (end_shadow env) g' /\ sees (vm_at b) (guest_image (end_shadow env)) g'.
Proof.
  unfold save_guest. assert (exists g0, forall k : K G unit, (save_shadow b ;; k) env g = k (end_shadow env) g0) as (g0 & E).
  { unfold save_shadow, end_shadow, kbind, kget, kmem, kmod. destruct (has _ _); by eexists. }
  rewrite E. set (e := end_shadow env). unfold save_int_ctl, kbind, kget, kmem, ld. eexists. split; [reflexivity|].
  apply sees_app; [|by apply sees_put]. apply sees_beside; [reflexivity..|]. apply sees_same; [reflexivity|done..|]. by apply sees_put.
Qed.

Lemma load_host_calm P b : (forall g, P g -> P (tlb_flush g)) -> calm P (load_host (G := G) b).
Proof.
  intros HP. unfold load_host, load_tables, load_crs, load_state, svm_load_seg_cache, svm_load_seg, cpu_x86_update_cr0, cpu_x86_update_cr3, cpu_x86_update_cr4.
  repeat first [apply calm_seq; [|intros ?] | apply calm_mod | apply calm_ret | apply calm_get | apply calm_ld | apply calm_load
    | apply calm_if | by apply calm_mem].
Qed.

Lemma exit_report_calm b env code info :
  calm (sees (vm_at b) (guest_image env)) (exit_report (G := G) b code info).
Proof.
  assert (forall n a v, 0 <= a -> a + Z.of_nat n <= 0x400 -> calm (sees (vm_at b) (guest_image env)) (kmem (st_mem n (vm_at b a) v))) as Hst.
  { intros n a v H1 H2. apply calm_mem. intros g Hg. by apply sees_store. }
  unfold exit_report. apply calm_seq; [apply calm_mem; intros g Hg; by apply sees_beside|intros _].
  repeat first [apply calm_seq; [|intros ?] | apply calm_ld | by apply Hst].
Qed.

(** #VMEXIT leaves the guest in its control block. *)
Lemma vmexit_saves code info env (g : G) :
  exists env1 g1, helper_vmexit (A := unit) code info env g = KExit env1 g1 /\ sees (vm_at (vm_vmcb env)) (guest_image (end_shadow env)) g1.
Proof.
  unfold helper_vmexit. rewrite step_get. cbv zeta. destruct (save_guest_sees (vm_vmcb env) env g) as (g2 & E2 & H2).
  unfold kbind at 1. rewrite E2, step_mod.
  destruct (load_host_calm (sees (vm_at (vm_vmcb env)) (guest_image (end_shadow env))) (vm_hsave (svm env)) (sees_flush _ _) (leave_guest (end_shadow env)) g2 H2)
    as ([] & e3 & g3 & E3 & H3).
  unfold kbind at 1. rewrite E3, step_mod.
  destruct (exit_report_calm (vm_vmcb env) (end_shadow env) code info (cpu_x86_set_cpl 0 e3) g3 H3) as ([] & e4 & g4 & E4 & H4).
  unfold kbind at 1. rewrite E4, step_mod. by eexists _, g4.
Qed.
End Save.

(** ** Loading it again *)

Definition raise_virq (int_ctl : Z) (env : CPUX86State) : CPUX86State :=
  if has int_ctl V_IRQ_MASK
  then on_svm (fun s => with_interrupt_request (Z.lor (interrupt_request s) CPU_INTERRUPT_VIRQ) s) env else env.

Definition set_gif (env : CPUX86State) : CPUX86State := with_hflags2 (Z.lor (hflags2 env) HF2_GIF_MASK) env.

(** Fields that the control area has no part in. *)
Definition same_state (a a' : CPUX86State) : Prop :=
  regs a' = regs a /\ segs a' = segs a /\ cr a' = cr a /\ dr a' = dr a /\ features a' = features a.

Section Load.
Context {G : Type} `{!SoftMmu G, !IntrHooks G, !PhysMem G, !PhysMemSpec G, !Chipset G, !FlushKeeps G}.

Lemma controls_run b a (g : G) :
  exists a', load_controls b a g = KRet tt a' g /\ same_state a a' /\ hflags a' = Z.lor (hflags a) HF_SVMI_MASK.
Proof. eexists. split; [reflexivity|]. split; [repeat split|]; reflexivity. Qed.

Context (b : Z) (e : CPUX86State) (Hok : cpu_ok e) (Hefer : in_range 64 (efer e)).

Definition guest_cpu (ic : Z) (a : CPUX86State) : CPUX86State :=
  raise_virq ic (set_gif (cpu_x86_set_cpl (wrap 8 (Z.land (hflags e) HF_CPL_MASK)) (set_dr 6 (u64 (drx e 6)) (set_dr 7 (u64 (drx e 7))
    (load_cpu e (eip e) (set_vintr ic (set_cr 2 (u64 (crx e 2)) (load_ctrl e (load_tabs e a))))))))).

Lemma runs_virq at_ l ic :
  runs (G := G) at_ l (if has ic V_IRQ_MASK
   then kmod (on_svm (fun s => with_interrupt_request (Z.lor (interrupt_request s) CPU_INTERRUPT_VIRQ) s)) else kret tt) (raise_virq ic).
Proof. unfold raise_virq. destruct (has _ _); [apply runs_mod|apply runs_ret]. Qed.

Lemma runs_tlb_ctl at_ l (c : bool) : runs (G := G) at_ l (if c then kmem tlb_flush else kret tt) (fun env => env).
Proof. destruct c; [|apply runs_ret]. apply runs_mem. intros g. apply sees_flush. Qed.

Lemma crs_load0 : runs (G := G) (vm_at b) (guest_image e) (load_crs b 0) (load_ctrl e).
Proof. apply (crs_load b _ e (eip e) (guest_image_holds e) Hok). apply Z.lor_0_r. Qed.

Lemma load_guest_run a g :
  sees (G := G) (vm_at b) (guest_image e) g ->
  exists a1 ic g', load_guest b a g = KRet tt (guest_cpu ic a1) g' /\ same_state a a1 /\ hflags a1 = Z.lor (hflags a) HF_SVMI_MASK.
Proof.
  intros Hg. destruct (controls_run b a g) as (a1 & E1 & Hs & Hh). unfold load_guest, kbind at 1. rewrite E1. exists a1.
  destruct (tables_load (G := G) b _ e _ (guest_image_holds e) Hok) as (f1 & R1 & F1).
  destruct (state_load (G := G) b _ e _ (guest_image_holds e) Hok Hefer (so_eip _ Hok)) as (f3 & R3 & F3).
  edestruct (run_step (vm_at b) (guest_image e)) as (g2 & -> & H2); [exact R1|done|]. rewrite F1.
  rewrite step_mem. apply (sees_store b e Vmcb.exit_info_2 8 0) in H2; [|done..].
  edestruct (run_step (vm_at b) (guest_image e)) as (g3 & -> & H3); [exact crs_load0|exact H2|].
  edestruct (run_step (vm_at b) (guest_image e)) as (g4 & -> & H4); [eapply runs_loadq; reflexivity|exact H3|].
  unfold kbind at 1. unfold ld at 1. rewrite step_mod. exists (ld_mem 4 (vm_at b Vmcb.int_ctl) g4).
  edestruct (run_step (vm_at b) (guest_image e)) as (g5 & -> & H5); [exact R3|exact H4|]. rewrite F3.
  edestruct (run_step (vm_at b) (guest_image e)) as (g6 & -> & H6); [eapply runs_loadq; reflexivity|exact H5|].
  edestruct (run_step (vm_at b) (guest_image e)) as (g7 & -> & H7); [eapply runs_loadq; reflexivity|exact H6|].
  edestruct (run_step (vm_at b) (guest_image e)) as (g8 & -> & H8); [eapply runs_load; reflexivity|exact H7|].
  unfold kbind at 1. unfold ld at 1.
  edestruct (run_step (vm_at b) (guest_image e)) as (g9 & -> & H9); [apply runs_tlb_ctl|exact H8|]. rewrite step_mod.
  destruct (runs_virq (vm_at b) (guest_image e) (ld_mem 4 (vm_at b Vmcb.int_ctl) g4)
    (set_gif (cpu_x86_set_cpl (wrap 8 (Z.land (hflags e) HF_CPL_MASK)) (set_dr 6 (u64 (drx e 6)) (set_dr 7 (u64 (drx e 7))
    (load_cpu e (eip e) (set_vintr (ld_mem 4 (vm_at b Vmcb.int_ctl) g4) (set_cr 2 (u64 (crx e 2)) (load_ctrl e (load_tabs e a1))))))))) g9 H9) as (g10 & E10 & H10).
  exists g10. split; [exact E10|done].
Qed.
End Load.

(** ** The guest, resumed *)

(** What the host must have as it runs the guest again. *)
Record hypervisor_ok (env env2 : CPUX86State) : Prop := {
  hy_hsave : pages_apart (vm_vmcb env) (vm_hsave (svm env2));
  hy_vmcb : u32 (reg env2 R_EAX) = vm_vmcb env;
  hy_free : has (hflags env2) HF_SVMI_MASK = false;
  hy_features : features env2 = features env;
  hy_segs : length (segs env2) = 6%nat;
  hy_ctrl : ctrl_ok env2;
  hy_dr : length (dr env2) = 8%nat;
  hy_hidden : hflags_ok env2
}.

(** The guest goes on where it was; the general registers but ESP and EAX, FS and GS
    and the interrupt shadow are those of the host. *)
Record guest_resumed (env env2 env3 : CPUX86State) : Prop := {
  gr_eip : eip env3 = eip env;
  gr_regs : regs env3 = <[R_EAX := reg env R_EAX]> (<[R_ESP := reg env R_ESP]> (regs env2));
  gr_segs : segs env3 = take 4 (map saved_seg (segs env)) ++ drop 4 (segs env2);
  gr_gdt : base (gdt env3) = base (gdt env) /\ limit (gdt env3) = limit (gdt env);
  gr_idt : base (idt env3) = base (idt env) /\ limit (idt env3) = limit (idt env);
  gr_cr : Forall (fun n => crx env3 n = crx env n) [0; 2; 3; 4]%nat;
  gr_dr : drx env3 6 = drx env 6 /\ drx env3 7 = drx env 7;
  gr_efer : efer env3 = efer env;
  gr_eflags : cpu_compute_eflags env3 = cpu_compute_eflags env;
  gr_level : cpl_of env3 = cpl_of env;
  gr_guest : has (hflags env3) HF_SVMI_MASK = true /\ has (hflags2 env3) HF2_GIF_MASK = true;
  gr_shadow : has (hflags env3) HF_INHIBIT_IRQ_MASK = has (hflags env2) HF_INHIBIT_IRQ_MASK;
  gr_hidden : hflags_ok env3
}.

Lemma vintr_only ic a : exists s h, set_vintr ic a = with_hflags2 h (with_svm s a).
Proof.
  unfold set_vintr. cbv zeta. destruct (has ic _).
  - destruct (has _ _); eexists _, _; reflexivity.
  - exists (svm a). eexists. by destruct a.
Qed.

Lemma vintr_beside a a' s h :
  a' = with_hflags2 h (with_svm s a) ->
  gdt a' = gdt a /\ idt a' = idt a /\ dr a' = dr a /\ cr a' = cr a /\ features a' = features a /\ hflags a' = hflags a /\ segs a' = segs a /\ regs a' = regs a.
Proof. intros ->. repeat split. Qed.

(** The last steps. *)
Definition enter_cpu (ic c d6 d7 : Z) (a : CPUX86State) : CPUX86State :=
  raise_virq ic (set_gif (cpu_x86_set_cpl c (set_dr 6 d6 (set_dr 7 d7 a)))).

Lemma enter_beside ic c d6 d7 a :
  let a' := enter_cpu ic c d6 d7 a in
  eip a' = eip a /\ regs a' = regs a /\ segs a' = segs a /\ gdt a' = gdt a /\ idt a' = idt a /\ efer a' = efer a /\
  cr a' = cr a /\ dr a' = <[6%nat := u32 d6]> (<[7%nat := u32 d7]> (dr a)) /\ cpu_compute_eflags a' = cpu_compute_eflags a /\
  hflags a' = hflags (cpu_x86_set_cpl c a) /\ has (hflags2 a') HF2_GIF_MASK = true.
Proof.
  cbv zeta. unfold enter_cpu, raise_virq. set (d := set_dr 6 d6 (set_dr 7 d7 a)).
  assert (has (Z.lor (hflags2 a) HF2_GIF_MASK) HF2_GIF_MASK = true) as Hg
    by (change HF2_GIF_MASK with (2 ^ 0); rewrite has_bit, Z.lor_spec, Z.pow2_bits_true by done; apply orb_true_r).
  destruct (has ic V_IRQ_MASK); (do 10 (split; [reflexivity|])); exact Hg.
Qed.

(** The control registers, in the order of VMRUN. *)
Lemma guest_ctrl e a1 ic :
  cpu_ok e -> ctrl_ok a1 -> hflags_ok a1 -> features a1 = features e ->
  let a3 := set_vintr ic (set_cr 2 (u64 (crx e 2)) (load_ctrl e (load_tabs e a1))) in
  Forall (fun n => crx a3 n = crx e n) [0; 2; 3; 4]%nat /\ ctrl_ok a3 /\ hflags_ok a3 /\
  (forall k, In k [0; 1; 3; 21] -> Z.testbit (hflags a3) k = Z.testbit (hflags a1) k) /\
  (gdt a3 = gdt (load_tabs e a1) /\ idt a3 = idt (load_tabs e a1) /\ dr a3 = dr a1 /\ segs a3 = segs a1 /\ regs a3 = regs a1).
Proof.
  intros Hok Hc Hf Hft. destruct (crs_facts e (load_tabs e a1) Hok) as ((C0 & C2 & C3 & C4) & Hc3 & Hf3 & Hb3 & E3);
    [by apply (ctrl_ext a1)|by apply (hflags_ext a1)|done|]. destruct (ctrl_beside _ _ _ _ E3) as (P1 & P2 & P3 & _ & _ & _ & P7 & P8).
  fold (load_ctrl e (load_tabs e a1)) in *. generalize dependent (load_ctrl e (load_tabs e a1)). intros a C0 C2 C3 C4 Hc3 Hf3 Hb3 E3 P1 P2 P3 P7 P8 a3.
  set (y := set_cr 2 (u64 (crx e 2)) a) in *. destruct (vintr_only ic y) as (s & h & Ey). fold a3 in Ey.
  destruct (vintr_beside _ _ _ _ Ey) as (V1 & V2 & V3 & V4 & V5 & V6 & V7 & V8). clearbody a3.
  assert (forall m, crx y m = if Nat.eqb m 2 then crx e 2 else crx a m) as Hx.
  { intros m. unfold y. rewrite crx_set by (rewrite (ck_cr _ Hc3); lia). destruct (so_cr _ Hok) as [_ Hr]. rewrite wrap64_u32; [done|].
    unfold crx. rewrite nth_lookup. destruct (cr e !! 2%nat) eqn:E; [|done]. by apply (Forall_lookup_1 _ _ _ _ Hr E). }
  assert (forall m, crx a3 m = crx y m) as Hy by (intros m; unfold crx; by rewrite V4). split_and!.
  - rewrite !Forall_cons, Forall_nil, !Hy, !Hx. done.
  - apply (ctrl_ext y); [done..|]. apply set_cr_ok; [lia|done].
  - apply (hflags_ext y); [done..|]. destruct Hf3 as [F1 F2]. split; [|exact F2]. apply set_cr_hidden; [by left|done|done].
  - intros k Hk. rewrite V6. change (hflags y) with (hflags a). by apply Hb3.
  - by rewrite V1.
  - by rewrite V2.
  - by rewrite V3.
  - by rewrite V7.
  - by rewrite V8.
Qed.

Lemma guest_fields e env2 a1 ic :
  cpu_ok e -> hypervisor_ok e env2 -> same_state env2 a1 -> hflags a1 = Z.lor (hflags env2) HF_SVMI_MASK ->
  guest_resumed e env2 (guest_cpu e ic a1).
Proof.
  intros Hok Hh (S1 & S2 & S3 & S4 & S5) Hhf. pose proof (hy_features _ _ Hh) as Hft. rewrite <-S5 in Hft.
  assert (forall k, 0 <= k < 32 -> Z.testbit (hflags a1) k = Z.testbit (hflags env2) k || (k =? 21)) as Hb.
  { intros k Hk. rewrite Hhf, Z.lor_spec. change HF_SVMI_MASK with (2 ^ 21). rewrite Z.pow2_bits_eqb, Z.eqb_sym by lia. done. }
  assert (hflags_ok a1) as Hf1.
  { apply (hflags_ext (with_hflags (hflags a1) env2)); [done..|]. apply hflags_bits; [|apply (hy_hidden _ _ Hh)]. intros k [Hk Ho]%hidden_bits_range.
    rewrite Hb by lia. destruct (Z.eqb_spec k 21) as [->|]; [done|apply orb_false_r]. }
  assert (ctrl_ok a1) as Hc1 by (apply (ctrl_ext env2); [done..|apply (hy_ctrl _ _ Hh)]).
  destruct (guest_ctrl e a1 ic Hok Hc1 Hf1 Hft) as (C & Hc3 & Hf3 & Hb3 & P1 & P2 & P3 & P4 & P5). unfold guest_cpu.
  change (raise_virq ic (set_gif (cpu_x86_set_cpl ?c (set_dr 6 ?d6 (set_dr 7 ?d7 ?a))))) with (enter_cpu ic c d6 d7 a).
  generalize dependent (set_vintr ic (set_cr 2 (u64 (crx e 2)) (load_ctrl e (load_tabs e a1)))). intros a3 C Hc3 Hf3 Hb3 P1 P2 P3 P4 P5.
  destruct (state_facts e (eip e) a3 Hok Hc3 Hf3) as [L1 L2 L3 L4 L5 L6 L7]; [rewrite P4, S2; apply (hy_segs _ _ Hh)|].
  destruct (state_beside _ _ _ _ _ _ _ _ L7) as ((Q1 & Q2 & Q3 & Q4 & _ & _ & _) & Q8 & Q9 & _).
  generalize dependent (load_cpu e (eip e) a3). intros a4 L1 L2 L3 L4 L5 L6 L7 Q1 Q2 Q3 Q4 Q8 Q9. clear L7.
  assert (0 <= Z.land (hflags e) HF_CPL_MASK < 4) as Hcpl by (change HF_CPL_MASK with (Z.ones 2); rewrite Z.land_ones by lia; by apply Z.mod_pos_bound).
  rewrite wrap_id by (change (2 ^ 8) with 256; lia).
  destruct (enter_beside ic (Z.land (hflags e) HF_CPL_MASK) (u64 (drx e 6)) (u64 (drx e 7)) a4) as (R1 & R2 & R3 & R4 & R5 & R6 & R7 & R8 & R9 & R10 & R11).
  generalize dependent (enter_cpu ic (Z.land (hflags e) HF_CPL_MASK) (u64 (drx e 6)) (u64 (drx e 7)) a4). intros a7 R1 R2 R3 R4 R5 R6 R7 R8 R9 R10 R11.
  destruct (exit_hidden _ a4 a7 Hcpl R10 R7 R3 L5) as (Hf & Hc & Hb7). rewrite !(dr_id e Hok) in R8. split; try done.
  - by rewrite R1.
  - by rewrite R2, L2, P5, S1.
  - by rewrite R3, L1, P4, S2.
  - by rewrite R4, Q1, P1.
  - by rewrite R5, Q2, P2.
  - unfold crx in *. by rewrite R7, Q3.
  - unfold drx at 1 3. rewrite R8, Q4, P3, S4. pose proof (hy_dr _ _ Hh) as Hd. destruct (dr env2) as [|? [|? [|? [|? [|? [|? [|? [|? [|]]]]]]]]]; done.
  - by rewrite R6.
  - by rewrite R9.
  - split; [|done]. change HF_SVMI_MASK with (2 ^ 21). rewrite has_bit, Hb7, L6, Hb3, Hb by (lia || done || simpl; tauto). apply orb_true_r.
  - change HF_INHIBIT_IRQ_MASK with (2 ^ 3). rewrite !has_bit, Hb7, L6, Hb3, Hb by (lia || done || simpl; tauto). apply orb_false_r.
Qed.

(** The shadow is not part of what is saved. *)
Lemma shadow_same env e :
  e = with_hflags (hflags e) env -> cpl_of e = cpl_of env ->
  (cpu_ok env -> cpu_ok e) /\ efer e = efer env /\ (forall env2, hypervisor_ok env env2 -> hypervisor_ok e env2) /\
  (forall env2 env3, guest_resumed e env2 env3 -> guest_resumed env env2 env3).
Proof.
  intros E Hc. revert Hc. rewrite E. generalize (hflags e). intros h Hc. split_and!; [by intros []|done|by intros ? []|].
  intros env2 env3 []. split; try done. by rewrite <-Hc.
Qed.

Lemma shadow_level env : cpl_of (end_shadow env) = cpl_of env.
Proof. apply land3_bits; by apply shadow_off. Qed.

Section GuestRoundTrip.
Context {G : Type} `{!SoftMmu G, !IntrHooks G, !PhysMem G, !PhysMemSpec G, !Chipset G, !FlushKeeps G}.

Lemma vmrun_loads next env2 e (g : G) :
  cpu_ok e -> in_range 64 (efer e) -> hypervisor_ok e env2 -> sees (vm_at (vm_vmcb e)) (guest_image e) g ->
  exists env3 g3, helper_vmrun next env2 g = inject_event (vm_vmcb e) env3 g3 /\ guest_resumed e env2 env3.
Proof.
  intros Hok Hefer Hh Hg. unfold helper_vmrun. assert (forall k : K G unit, (cpu_svm_check_intercept_param SVM_EXIT_VMRUN 0 ;; k) env2 g = k env2 g) as ->.
  { intros k. unfold cpu_svm_check_intercept_param, helper_svm_check_intercept_param, kbind, kget. by rewrite (hy_free _ _ Hh). }
  rewrite step_get. cbv zeta. rewrite step_mod, step_mem, (hy_vmcb _ _ Hh).
  destruct (load_guest_run (vm_vmcb e) e Hok Hefer (with_vm_vmcb (vm_vmcb e) env2) (put_image (vm_at (vm_hsave (svm env2))) (host_image next env2) g))
    as (a1 & ic & g3 & E & Hs & Hhf).
  { apply sees_image; [apply (hy_hsave _ _ Hh)|apply guest_image_page|apply host_image_page|done]. }
  exists (guest_cpu e ic a1), g3. unfold kbind. rewrite E. split; [done|]. by apply guest_fields.
Qed.

End GuestRoundTrip.

(** A guest that exits in the shadow of an STI. *)
Definition shadow_guest : CPUX86State := with_hflags 0x2000b8 svm_guest.

Lemma shadow_guest_ok : cpu_ok shadow_guest /\ in_range 64 (efer shadow_guest).
Proof. split; [|by split]. split; try done; try (by repeat constructor); try (by split; [|repeat constructor]). Qed.

Lemma guest_of_other env h : svm (with_hflags h (guest_of env)) = svm env /\ features (with_hflags h (guest_of env)) = features env.
Proof. done. Qed.

Lemma svm_host_hypervisor : hypervisor_ok shadow_guest svm_host.
Proof.
  destruct (guest_of_other svm_host 0x2000b8) as [H1 H2]. destruct svm_host_runs as (_ & _ & _ & H3 & Hp).
  split; [|reflexivity|exact H3|exact (eq_sym H2)|reflexivity|by split|reflexivity|split; by split].
  assert (vm_vmcb shadow_guest = 0x3000 /\ vm_hsave (svm svm_host) = 0x5000) as [-> ->] by (split; reflexivity). unfold pages_apart, PAGE. lia.
Qed.

