(* ===== verification/Pic.v ===== *)
(** * The interrupt controllers

    hw/intc/i8259.c and i8259_common.c: the master and the slave 8259 of the board,
    the slave wired to line 2 of the master, and the output of the master to the
    CPU. *)

From stdpp Require Import base list.
From Stdlib Require Import ZArith Lia.
From S2P Require Import Prelude Cpu CcHelper Guest Mmu.

Local Open Scope Z_scope.

Record PICCommonState : Type := mkPic {
  last_irr : Z; irr : Z; imr : Z; isr : Z; priority_add : Z; irq_base : Z; read_reg_select : Z; poll : Z;
  special_mask : Z; init_state : Z; auto_eoi : Z; rotate_on_auto_eoi : Z; special_fully_nested_mode : Z;
  init4 : Z; single_mode : Z; elcr : Z; elcr_mask : Z; master : bool
}.

(** Both chips and the levels that the master has signalled, latest first. *)
Record pics : Type := mkPics { p_master : PICCommonState; p_slave : PICCommonState; p_sent : list bool }.
Definition p_out (s : pics) : bool := hd false (p_sent s).

Definition with_last_irr v s := mkPic v (irr s) (imr s) (isr s) (priority_add s) (irq_base s) (read_reg_select s) (poll s) (special_mask s) (init_state s) (auto_eoi s) (rotate_on_auto_eoi s) (special_fully_nested_mode s) (init4 s) (single_mode s) (elcr s) (elcr_mask s) (master s).
Definition with_irr v s := mkPic (last_irr s) v (imr s) (isr s) (priority_add s) (irq_base s) (read_reg_select s) (poll s) (special_mask s) (init_state s) (auto_eoi s) (rotate_on_auto_eoi s) (special_fully_nested_mode s) (init4 s) (single_mode s) (elcr s) (elcr_mask s) (master s).
Definition with_imr v s := mkPic (last_irr s) (irr s) v (isr s) (priority_add s) (irq_base s) (read_reg_select s) (poll s) (special_mask s) (init_state s) (auto_eoi s) (rotate_on_auto_eoi s) (special_fully_nested_mode s) (init4 s) (single_mode s) (elcr s) (elcr_mask s) (master s).
Definition with_isr v s := mkPic (last_irr s) (irr s) (imr s) v (priority_add s) (irq_base s) (read_reg_select s) (poll s) (special_mask s) (init_state s) (auto_eoi s) (rotate_on_auto_eoi s) (special_fully_nested_mode s) (init4 s) (single_mode s) (elcr s) (elcr_mask s) (master s).
Definition with_priority_add v s := mkPic (last_irr s) (irr s) (imr s) (isr s) v (irq_base s) (read_reg_select s) (poll s) (special_mask s) (init_state s) (auto_eoi s) (rotate_on_auto_eoi s) (special_fully_nested_mode s) (init4 s) (single_mode s) (elcr s) (elcr_mask s) (master s).
Definition with_irq_base v s := mkPic (last_irr s) (irr s) (imr s) (isr s) (priority_add s) v (read_reg_select s) (poll s) (special_mask s) (init_state s) (auto_eoi s) (rotate_on_auto_eoi s) (special_fully_nested_mode s) (init4 s) (single_mode s) (elcr s) (elcr_mask s) (master s).
Definition with_read_reg_select v s := mkPic (last_irr s) (irr s) (imr s) (isr s) (priority_add s) (irq_base s) v (poll s) (special_mask s) (init_state s) (auto_eoi s) (rotate_on_auto_eoi s) (special_fully_nested_mode s) (init4 s) (single_mode s) (elcr s) (elcr_mask s) (master s).
Definition with_poll v s := mkPic (last_irr s) (irr s) (imr s) (isr s) (priority_add s) (irq_base s) (read_reg_select s) v (special_mask s) (init_state s) (auto_eoi s) (rotate_on_auto_eoi s) (special_fully_nested_mode s) (init4 s) (single_mode s) (elcr s) (elcr_mask s) (master s).
Definition with_special_mask v s := mkPic (last_irr s) (irr s) (imr s) (isr s) (priority_add s) (irq_base s) (read_reg_select s) (poll s) v (init_state s) (auto_eoi s) (rotate_on_auto_eoi s) (special_fully_nested_mode s) (init4 s) (single_mode s) (elcr s) (elcr_mask s) (master s).
Definition with_init_state v s := mkPic (last_irr s) (irr s) (imr s) (isr s) (priority_add s) (irq_base s) (read_reg_select s) (poll s) (special_mask s) v (auto_eoi s) (rotate_on_auto_eoi s) (special_fully_nested_mode s) (init4 s) (single_mode s) (elcr s) (elcr_mask s) (master s).
Definition with_auto_eoi v s := mkPic (last_irr s) (irr s) (imr s) (isr s) (priority_add s) (irq_base s) (read_reg_select s) (poll s) (special_mask s) (init_state s) v (rotate_on_auto_eoi s) (special_fully_nested_mode s) (init4 s) (single_mode s) (elcr s) (elcr_mask s) (master s).
Definition with_rotate_on_auto_eoi v s := mkPic (last_irr s) (irr s) (imr s) (isr s) (priority_add s) (irq_base s) (read_reg_select s) (poll s) (special_mask s) (init_state s) (auto_eoi s) v (special_fully_nested_mode s) (init4 s) (single_mode s) (elcr s) (elcr_mask s) (master s).
Definition with_special_fully_nested_mode v s := mkPic (last_irr s) (irr s) (imr s) (isr s) (priority_add s) (irq_base s) (read_reg_select s) (poll s) (special_mask s) (init_state s) (auto_eoi s) (rotate_on_auto_eoi s) v (init4 s) (single_mode s) (elcr s) (elcr_mask s) (master s).
Definition with_init4 v s := mkPic (last_irr s) (irr s) (imr s) (isr s) (priority_add s) (irq_base s) (read_reg_select s) (poll s) (special_mask s) (init_state s) (auto_eoi s) (rotate_on_auto_eoi s) (special_fully_nested_mode s) v (single_mode s) (elcr s) (elcr_mask s) (master s).
Definition with_single_mode v s := mkPic (last_irr s) (irr s) (imr s) (isr s) (priority_add s) (irq_base s) (read_reg_select s) (poll s) (special_mask s) (init_state s) (auto_eoi s) (rotate_on_auto_eoi s) (special_fully_nested_mode s) (init4 s) v (elcr s) (elcr_mask s) (master s).
Definition with_elcr v s := mkPic (last_irr s) (irr s) (imr s) (isr s) (priority_add s) (irq_base s) (read_reg_select s) (poll s) (special_mask s) (init_state s) (auto_eoi s) (rotate_on_auto_eoi s) (special_fully_nested_mode s) (init4 s) (single_mode s) v (elcr_mask s) (master s).

(** ** Priorities *)

(** The loop of [get_priority]: a mask of 8 bits has one within 8 rounds. *)
Fixpoint priority_loop (n : nat) (mask add priority : Z) : Z :=
  match n with
  | O => priority
  | S n' => if Z.testbit mask (Z.land (priority + add) 7) then priority else priority_loop n' mask add (priority + 1)
  end.

Definition get_priority (s : PICCommonState) (mask : Z) : Z :=
  if mask =? 0 then 8 else priority_loop 8 mask (priority_add s) 0.

(** Lines in service that count. *)
Definition service_mask (s : PICCommonState) : Z :=
  let mask := isr s in
  let mask := if special_mask s =? 0 then mask else Z.land mask (Z.lnot (imr s)) in
  if negb (special_fully_nested_mode s =? 0) && master s then Z.land mask (Z.lnot (Z.shiftl 1 2)) else mask.

Definition pic_get_irq (s : PICCommonState) : Z :=
  let priority := get_priority s (Z.land (irr s) (Z.lnot (imr s))) in
  if priority =? 8 then -1
  else if priority <? get_priority s (service_mask s) then Z.land (priority + priority_add s) 7 else -1.

(** ** Lines *)

Definition chip (m : bool) (s : pics) : PICCommonState := if m then p_master s else p_slave s.
Definition on_chip (m : bool) (f : PICCommonState -> PICCommonState) (s : pics) : pics :=
  if m then mkPics (f (p_master s)) (p_slave s) (p_sent s) else mkPics (p_master s) (f (p_slave s)) (p_sent s).

(** What a level does to the registers. *)
Definition set_line (irq : Z) (level : bool) (s : PICCommonState) : PICCommonState :=
  let mask := Z.shiftl 1 irq in
  if has (elcr s) mask then
    if level then with_last_irr (Z.lor (last_irr s) mask) (with_irr (Z.lor (irr s) mask) s)
    else with_last_irr (Z.land (last_irr s) (Z.lnot mask)) (with_irr (Z.land (irr s) (Z.lnot mask)) s)
  else if level then
    let s := if has (last_irr s) mask then s else with_irr (Z.lor (irr s) mask) s in
    with_last_irr (Z.lor (last_irr s) mask) s
  else with_last_irr (Z.land (last_irr s) (Z.lnot mask)) s.

Definition wants (s : PICCommonState) : bool := 0 <=? pic_get_irq s.

(** The output of the slave is line 2 of the master, whose handler updates the output
    of the master in turn. *)
Definition signal_cpu (s : pics) : pics := mkPics (p_master s) (p_slave s) (wants (p_master s) :: p_sent s).

Definition pic_update_irq (m : bool) (s : pics) : pics :=
  if m then signal_cpu s else signal_cpu (on_chip true (set_line 2 (wants (p_slave s))) s).

Definition pic_set_irq (m : bool) (irq : Z) (level : bool) (s : pics) : pics :=
  pic_update_irq m (on_chip m (set_line irq level) s).

(** ** Acknowledgement *)

Definition ack (irq : Z) (s : PICCommonState) : PICCommonState :=
  let s :=
    if auto_eoi s =? 0 then with_isr (Z.lor (isr s) (Z.shiftl 1 irq)) s
    else if rotate_on_auto_eoi s =? 0 then s else with_priority_add (Z.land (irq + 1) 7) s in
  if has (elcr s) (Z.shiftl 1 irq) then s else with_irr (Z.land (irr s) (Z.lnot (Z.shiftl 1 irq))) s.

Definition pic_intack (m : bool) (irq : Z) (s : pics) : pics := pic_update_irq m (on_chip m (ack irq) s).

Definition pic_read_irq (s : pics) : Z * pics :=
  let irq := pic_get_irq (p_master s) in
  if 0 <=? irq then
    let '(intno, s) :=
      if irq =? 2 then
        let irq2 := pic_get_irq (p_slave s) in
        let s := if 0 <=? irq2 then pic_intack false irq2 s else s in
        (irq_base (p_slave s) + (if 0 <=? irq2 then irq2 else 7), s)
      else (irq_base (p_master s) + irq, s) in
    (intno, pic_intack true irq s)
  else (irq_base (p_master s) + 7, s).

Definition pic_get_output (s : pics) : bool := wants (p_master s).

(** ** Ports *)

Definition pic_reset_common (s : PICCommonState) : PICCommonState :=
  mkPic 0 (Z.land (irr s) (elcr s)) 0 0 0 0 0 0 0 0 0 0 0 0 0 (elcr s) (elcr_mask s) (master s).

Definition pic_init_reset (m : bool) (s : pics) : pics := pic_update_irq m (on_chip m pic_reset_common s).
Definition pic_reset (m : bool) (s : pics) : pics := pic_init_reset m (on_chip m (with_elcr 0) s).

Definition clear_isr (irq : Z) (s : PICCommonState) : PICCommonState := with_isr (Z.land (isr s) (Z.lnot (Z.shiftl 1 irq))) s.

(** The commands of OCW2; a command that ends an interrupt may also rotate the
    priorities. *)
Definition pic_command (m : bool) (cmd val : Z) (s : pics) : pics :=
  let p := chip m s in
  if (cmd =? 0) || (cmd =? 4) then on_chip m (with_rotate_on_auto_eoi (Z.shiftr cmd 2)) s
  else if (cmd =? 1) || (cmd =? 5) then
    let priority := get_priority p (isr p) in
    if priority =? 8 then s
    else
      let irq := Z.land (priority + priority_add p) 7 in
      let s := on_chip m (clear_isr irq) s in
      pic_update_irq m (if cmd =? 5 then on_chip m (with_priority_add (Z.land (irq + 1) 7)) s else s)
  else if cmd =? 3 then pic_update_irq m (on_chip m (clear_isr (Z.land val 7)) s)
  else if cmd =? 6 then pic_update_irq m (on_chip m (with_priority_add (Z.land (val + 1) 7)) s)
  else if cmd =? 7 then
    let irq := Z.land val 7 in
    pic_update_irq m (on_chip m (fun p => with_priority_add (Z.land (irq + 1) 7) (clear_isr irq p)) s)
  else s.

(** OCW3 *)
Definition pic_mode (val : Z) (p : PICCommonState) : PICCommonState :=
  let p := if has val 0x04 then with_poll 1 p else p in
  let p := if has val 0x02 then with_read_reg_select (Z.land val 1) p else p in
  if has val 0x40 then with_special_mask (Z.land (Z.shiftr val 5) 1) p else p.

(** The words ICW2 to ICW4. *)
Definition pic_init_word (val : Z) (p : PICCommonState) : PICCommonState :=
  if init_state p =? 1 then
    with_init_state (if single_mode p =? 0 then 2 else if init4 p =? 0 then 0 else 3) (with_irq_base (Z.land val 0xf8) p)
  else if init_state p =? 2 then with_init_state (if init4 p =? 0 then 0 else 3) p
  else if init_state p =? 3 then
    with_init_state 0 (with_auto_eoi (Z.land (Z.shiftr val 1) 1) (with_special_fully_nested_mode (Z.land (Z.shiftr val 4) 1) p))
  else p.

(** [None] is [hw_error], which stops the emulator. *)
Definition pic_ioport_write (m : bool) (addr val : Z) (s : pics) : option pics :=
  if addr =? 0 then
    if has val 0x10 then
      let s := pic_init_reset m s in
      let s := on_chip m (fun p => with_single_mode (Z.land val 2) (with_init4 (Z.land val 1) (with_init_state 1 p))) s in
      if has val 0x08 then None else Some s
    else if has val 0x08 then Some (on_chip m (pic_mode val) s)
    else Some (pic_command m (Z.shiftr val 5) val s)
  else if init_state (chip m s) =? 0 then Some (pic_update_irq m (on_chip m (with_imr (wrap 8 val)) s))
  else Some (on_chip m (pic_init_word val) s).

Definition pic_ioport_read (m : bool) (addr : Z) (s : pics) : Z * pics :=
  let p := chip m s in
  if poll p =? 0 then
    (if addr =? 0 then if read_reg_select p =? 0 then irr p else isr p else imr p, s)
  else
    let irq := pic_get_irq p in
    let '(ret, s) := if 0 <=? irq then (Z.lor irq 0x80, pic_intack m irq s) else (0, s) in
    (ret, on_chip m (with_poll 0) s).

Definition elcr_ioport_write (m : bool) (val : Z) (s : pics) : pics :=
  on_chip m (fun p => with_elcr (Z.land val (elcr_mask p)) p) s.

Definition elcr_ioport_read (m : bool) (s : pics) : Z := elcr (chip m s).

(** [i8259_init]: chips with all registers 0, and their masks of lines that may be
    level triggered. *)
Definition i8259_chip (m : bool) : PICCommonState := mkPic 0 0 0 0 0 0 0 0 0 0 0 0 0 0 0 0 (if m then 0xf8 else 0xde) m.
Definition i8259_init : pics := mkPics (i8259_chip true) (i8259_chip false) [].

(** The sixteen lines of the board. *)
Definition irq_set (irq : Z) (level : bool) (s : pics) : pics :=
  if irq <? 8 then pic_set_irq true irq level s else pic_set_irq false (irq - 8) level s.
