(* ===== verification/PicInv.v ===== *)
(** * Priorities and outputs of the interrupt controllers

    The line a controller asks for is the one of highest priority, and in ordinary
    use no request is lost between the two controllers and the CPU. *)

From stdpp Require Import base list relations.
From Stdlib Require Import ZArith Lia.
From S2P Require Import Prelude Cpu CcHelper Guest Mmu Seg SegSpec Pic.

Local Open Scope Z_scope.

(** ** Registers *)

Record pic_ok (p : PICCommonState) : Prop := {
  po_last : in_range 8 (last_irr p); po_irr : in_range 8 (irr p); po_imr : in_range 8 (imr p); po_isr : in_range 8 (isr p);
  po_elcr : in_range 8 (elcr p); po_mask : in_range 8 (elcr_mask p); po_base : in_range 8 (irq_base p);
  po_add : 0 <= priority_add p < 8; po_init : 0 <= init_state p < 4
}.

(** ** Priorities *)

(** How far a line is from the one of highest priority. *)
Definition rank (p : PICCommonState) (i : Z) : Z := (i - priority_add p) mod 8.

Definition requested (p : PICCommonState) (i : Z) : bool := Z.testbit (irr p) i && negb (Z.testbit (imr p) i).

(** Lines in service that hold others back: not those masked in special mask mode,
    nor the slave's in special fully nested mode. *)
Definition in_service (p : PICCommonState) (i : Z) : bool :=
  Z.testbit (isr p) i && negb (negb (special_mask p =? 0) && Z.testbit (imr p) i) &&
  negb (negb (special_fully_nested_mode p =? 0) && master p && (i =? 2)).

(** The line is requested, no other request and no line in service comes before it. *)
Definition wanted (p : PICCommonState) (i : Z) : Prop :=
  0 <= i < 8 /\ requested p i = true /\
  (forall j, 0 <= j < 8 -> requested p j = true -> rank p i <= rank p j) /\
  (forall j, 0 <= j < 8 -> in_service p j = true -> rank p i < rank p j).

Lemma land7 x : Z.land x 7 = x mod 8.
Proof. change 7 with (Z.ones 3). by rewrite Z.land_ones by lia. Qed.

Lemma loop_spec n mask add p :
  let r := priority_loop n mask add p in
  p <= r <= p + Z.of_nat n /\ (forall q, p <= q < r -> Z.testbit mask ((q + add) mod 8) = false) /\
  (r < p + Z.of_nat n -> Z.testbit mask ((r + add) mod 8) = true).
Proof.
  revert p. induction n as [|n IH]; intros p r; unfold r; cbn [priority_loop].
  { split; [lia|]. split; intros; lia. }
  rewrite land7. destruct (Z.testbit mask ((p + add) mod 8)) eqn:E.
  - split; [lia|]. split; [intros; lia|done].
  - destruct (IH (p + 1)) as (H1 & H2 & H3). split; [lia|]. split; [|intros; apply H3; lia].
    intros q Hq. destruct (Z.eq_dec q p) as [->|]; [done|]. apply H2. lia.
Qed.

Section Priority.
Context (p : PICCommonState) (Hok : pic_ok p).

Lemma rank_bound i : 0 <= rank p i < 8.
Proof. by apply Z.mod_pos_bound. Qed.

Lemma rank_line i : 0 <= i < 8 -> (rank p i + priority_add p) mod 8 = i.
Proof. intros Hi. unfold rank. rewrite Zplus_mod_idemp_l. replace (i - priority_add p + priority_add p) with i by lia. by rewrite Z.mod_small. Qed.

Lemma line_rank r : 0 <= r < 8 -> rank p ((r + priority_add p) mod 8) = r.
Proof. intros Hr. unfold rank. rewrite Zminus_mod_idemp_l. replace (r + priority_add p - priority_add p) with r by lia. by rewrite Z.mod_small. Qed.

(** The priority is the least rank in the mask. *)
Lemma get_priority_spec mask :
  in_range 8 mask ->
  let r := get_priority p mask in
  (r = 8 /\ forall i, 0 <= i < 8 -> Z.testbit mask i = false) \/
  (0 <= r < 8 /\ Z.testbit mask ((r + priority_add p) mod 8) = true /\ forall i, 0 <= i < 8 -> Z.testbit mask i = true -> r <= rank p i).
Proof.
  intros Hm r. unfold r, get_priority. destruct (Z.eqb_spec mask 0) as [->|Hn].
  { left. split; [done|]. intros i _. apply Z.bits_0. }
  destruct (loop_spec 8 mask (priority_add p) 0) as (H1 & H2 & H3). set (q := priority_loop 8 mask (priority_add p) 0) in *. change (Z.of_nat 8) with 8 in *.
  assert (forall i, 0 <= i < 8 -> Z.testbit mask i = true -> q <= rank p i) as Hmin.
  { intros i Hi Hb. destruct (Z.le_gt_cases q (rank p i)) as [|Hlt]; [done|]. pose proof (rank_bound i).
    specialize (H2 (rank p i) ltac:(lia)). rewrite rank_line in H2 by done. congruence. }
  destruct (Z.eq_dec q 8) as [E|]; [|right; split; [lia|]; split; [apply H3; lia|done]].
  exfalso. apply Hn. apply Z.bits_inj'. intros i Hi. rewrite Z.bits_0. destruct (Z.lt_ge_cases i 8).
  - destruct (Z.testbit mask i) eqn:Eb; [|done]. specialize (Hmin i ltac:(lia) Eb). pose proof (rank_bound i). lia.
  - by apply (testbit_high 8).
Qed.

Lemma land_bits a b : in_range 8 a -> in_range 8 (Z.land a b).
Proof.
  intros Ha. assert (0 <= Z.land a b) by (apply Z.land_nonneg; left; apply Ha).
  split; [done|]. assert (Z.land a b = Z.land a b mod 2 ^ 8) as ->; [|by apply Z.mod_pos_bound].
  rewrite <-Z.land_ones by lia. rewrite <-Z.land_assoc, (Z.land_comm b), Z.land_assoc. f_equal.
  rewrite Z.land_ones by lia. symmetry. apply Z.mod_small, Ha.
Qed.

Lemma request_bit i : 0 <= i -> Z.testbit (Z.land (irr p) (Z.lnot (imr p))) i = requested p i.
Proof. intros Hi. by rewrite Z.land_spec, Z.lnot_spec. Qed.

Lemma service_bit i : 0 <= i -> Z.testbit (service_mask p) i = in_service p i.
Proof.
  intros Hi. unfold service_mask, in_service. change (Z.shiftl 1 2) with (2 ^ 2).
  assert (Z.testbit (Z.lnot (2 ^ 2)) i = negb (i =? 2)) as H2 by (rewrite Z.lnot_spec, Z.pow2_bits_eqb by lia; by rewrite Z.eqb_sym).
  destruct (special_mask p =? 0), (negb (special_fully_nested_mode p =? 0) && master p); cbn [negb andb];
    rewrite ?Z.land_spec, ?H2, ?Z.lnot_spec by done; by rewrite ?andb_true_r.
Qed.

Lemma service_range : in_range 8 (service_mask p).
Proof.
  pose proof (po_isr _ Hok). unfold service_mask. destruct (special_mask p =? 0), (_ && _); repeat apply land_bits; done.
Qed.
End Priority.

Lemma wanted_unique p i j : wanted p i -> wanted p j -> i = j.
Proof.
  intros (Hi & Ri & Mi & _) (Hj & Rj & Mj & _). pose proof (Mi j Hj Rj). pose proof (Mj i Hi Ri).
  rewrite <-(rank_line p i Hi), <-(rank_line p j Hj). do 2 f_equal. lia.
Qed.

Lemma get_irq_cases p : pic_ok p -> wanted p (pic_get_irq p) \/ (pic_get_irq p = -1 /\ forall j, ~ wanted p j).
Proof.
  intros Hok. unfold pic_get_irq.
  destruct (get_priority_spec p (Z.land (irr p) (Z.lnot (imr p)))) as [(E & H0) | (H1 & H2 & H3)]; [by apply land_bits, Hok| |].
  - rewrite E. right. split; [done|]. intros j (Hj & Rj & _). rewrite <-request_bit, H0 in Rj by lia. done.
  - set (r := get_priority p _) in *. destruct (Z.eqb_spec r 8); [lia|]. rewrite land7.
    assert (0 <= (r + priority_add p) mod 8 < 8) as Hb by (by apply Z.mod_pos_bound). rewrite request_bit in H2 by lia.
    assert (forall j, 0 <= j < 8 -> requested p j = true -> r <= rank p j) as Hmin by (intros j Hj Rj; apply H3; [done|]; by rewrite request_bit by lia).
    destruct (get_priority_spec p (service_mask p) (service_range p Hok)) as [(E & S0) | (S1 & S2 & S3)].
    + rewrite E. destruct (Z.ltb_spec r 8); [|lia]. left. split; [done|]. split; [done|]. split.
      * intros j Hj Rj. rewrite line_rank by done. by apply Hmin.
      * intros j Hj Sj. rewrite <-service_bit, S0 in Sj by lia. done.
    + set (c := get_priority p (service_mask p)) in *. destruct (Z.ltb_spec r c) as [Hlt|Hge].
      * left. split; [done|]. split; [done|]. split; intros j Hj Hb'; rewrite line_rank by done; [by apply Hmin|].
        rewrite <-service_bit in Hb' by lia. specialize (S3 j Hj Hb'). lia.
      * right. split; [done|]. intros j (Hj & Rj & Mj & Sj). assert (0 <= (c + priority_add p) mod 8 < 8) as Hc by (by apply Z.mod_pos_bound).
        rewrite service_bit in S2 by lia. specialize (Sj _ Hc S2). rewrite line_rank in Sj by done.
        specialize (Mj _ Hb H2). rewrite line_rank in Mj by done. specialize (Hmin _ Hj Rj). lia.
Qed.

(** C29: a controller asks for the line of highest priority among the requested ones
    that are not masked, if that is before every line in service, and for none
    otherwise; priorities rotate around [priority_add], and the search for one ends
    within 8 rounds. *)
Theorem pic_priorities p i :
  pic_ok p -> (pic_get_irq p = i <-> wanted p i \/ (i = -1 /\ forall j, ~ wanted p j)).
Proof.
  intros Hok. pose proof (get_irq_cases p Hok) as Hk. generalize dependent (pic_get_irq p). intros k Hk.
  split; [by intros <-|]. intros Hi. destruct Hk as [Hk | [-> Hk]], Hi as [Hi | [-> Hi]].
  - by apply (wanted_unique p).
  - by destruct (Hi k).
  - by destruct (Hk i).
  - done.
Qed.

Lemma wants_wanted p : pic_ok p -> wants p = true <-> exists i, wanted p i.
Proof.
  intros Hok. unfold wants. rewrite Z.leb_le. destruct (get_irq_cases p Hok) as [Hw | [-> Hn]].
  - split; [|intros _; apply Hw]. intros _. by exists (pic_get_irq p).
  - split; [lia|]. intros [i Hi]. by destruct (Hn i).
Qed.

Lemma get_irq_wanted p i : pic_ok p -> wanted p i -> pic_get_irq p = i.
Proof. intros Hok Hi. destruct (get_irq_cases p Hok) as [Hw | [_ Hn]]; [by apply (wanted_unique p)|by destruct (Hn i)]. Qed.

(** ** Ordinary use

    Fully nested mode with an end of interrupt for each acknowledgement: no automatic
    end, no special mask, no special nesting. *)
Record regs_ok (m : bool) (p : PICCommonState) : Prop := {
  ro_ok : pic_ok p;
  ro_plain : auto_eoi p = 0 /\ special_mask p = 0 /\ special_fully_nested_mode p = 0;
  ro_name : master p = m /\ elcr_mask p = if m then 0xf8 else 0xde
}.

(** All but the outputs. Line 2 of the master is edge triggered; a level that has been
    seen there is a request. *)
Record core (s : pics) : Prop := {
  co_master : regs_ok true (p_master s);
  co_slave : regs_ok false (p_slave s);
  co_poll : poll (p_master s) = 0;
  co_edge : Z.testbit (elcr (p_master s)) 2 = false;
  co_req : Z.testbit (last_irr (p_master s)) 2 = true -> Z.testbit (irr (p_master s)) 2 = true
}.

Record link_ok (s : pics) : Prop := {
  lk_core :> core s;
  lk_line : Z.testbit (last_irr (p_master s)) 2 = wants (p_slave s);
  lk_out : p_out s = wants (p_master s)
}.

Lemma lor_bits a b : in_range 8 a -> in_range 8 b -> in_range 8 (Z.lor a b).
Proof.
  intros [Ha1 Ha2] [Hb1 Hb2]. split; [by apply Z.lor_nonneg|]. assert (0 <= Z.lor a b) by (by apply Z.lor_nonneg).
  destruct (Z.eq_dec (Z.lor a b) 0) as [->|]; [done|]. apply Z.log2_lt_pow2; [lia|]. rewrite Z.log2_lor by done.
  apply Z.max_lub_lt; (destruct (Z.eq_dec a 0) as [->|], (Z.eq_dec b 0) as [->|]; try done; apply Z.log2_lt_pow2; lia).
Qed.

Lemma shift_bits i : 0 <= i < 8 -> in_range 8 (Z.shiftl 1 i).
Proof. intros Hi. rewrite Z.shiftl_1_l. split; [by apply Z.pow_nonneg|]. apply Z.pow_lt_mono_r; lia. Qed.

Lemma has_line a i : 0 <= i -> has a (Z.shiftl 1 i) = Z.testbit a i.
Proof. intros Hi. rewrite Z.shiftl_1_l. by apply has_bit. Qed.

Lemma set_bit a i j : 0 <= i -> 0 <= j -> Z.testbit (Z.lor a (Z.shiftl 1 i)) j = Z.testbit a j || (i =? j).
Proof. intros Hi Hj. by rewrite Z.lor_spec, Z.shiftl_1_l, Z.pow2_bits_eqb. Qed.

Lemma clear_bit a i j : 0 <= i -> 0 <= j -> Z.testbit (Z.land a (Z.lnot (Z.shiftl 1 i))) j = Z.testbit a j && negb (i =? j).
Proof. intros Hi Hj. by rewrite Z.land_spec, Z.lnot_spec, Z.shiftl_1_l, Z.pow2_bits_eqb. Qed.

#[local] Hint Resolve land_bits lor_bits shift_bits : core.

Ltac regs_tac :=
  match goal with H : regs_ok ?m ?p |- _ =>
    destruct H as [[] [? [? ?]] [? ?]]; split; [split; cbn; auto with core; try lia|split_and!; cbn; auto|split; cbn; auto] end.

Lemma set_line_ok m irq level p : 0 <= irq < 8 -> regs_ok m p -> regs_ok m (set_line irq level p).
Proof. intros Hi H. unfold set_line. destruct (has (elcr p) _), level; [..|destruct (has (last_irr p) _)|]; regs_tac. Qed.

Lemma ack_ok m irq p : 0 <= irq < 8 -> regs_ok m p -> regs_ok m (ack irq p).
Proof. intros Hi H. unfold ack. rewrite (proj1 (ro_plain _ _ H)). change (0 =? 0) with true. cbv iota. cbn [elcr with_isr]. destruct (has (elcr p) _); regs_tac. Qed.

(** ** Updates *)

(** Line 2 of the master follows the slave. *)
Lemma line2_seen level p :
  Z.testbit (elcr p) 2 = false -> (Z.testbit (last_irr p) 2 = true -> Z.testbit (irr p) 2 = true) ->
  let p' := set_line 2 level p in
  Z.testbit (last_irr p') 2 = level /\ (level = true -> Z.testbit (irr p') 2 = true) /\ elcr p' = elcr p /\ poll p' = poll p.
Proof.
  intros He Hr p'. unfold p', set_line. rewrite !has_line, He by lia. destruct level.
  - destruct (Z.testbit (last_irr p) 2) eqn:E; cbn [last_irr irr with_last_irr with_irr]; rewrite !set_bit by lia; cbn; rewrite ?orb_true_r; auto.
  - cbn [last_irr with_last_irr]. rewrite clear_bit by lia. by rewrite andb_false_r.
Qed.

Lemma update_slave s : core s -> link_ok (pic_update_irq false s).
Proof.
  intros [Hm Hs Hp He Hr]. destruct (line2_seen (wants (p_slave s)) (p_master s) He Hr) as (L1 & L2 & L3 & L4).
  assert (regs_ok true (set_line 2 (wants (p_slave s)) (p_master s))) as Hm' by (by apply set_line_ok).
  unfold pic_update_irq, signal_cpu, on_chip. cbn [p_master p_slave p_out]. split; [split|..]; cbn [p_master p_slave p_out]; try done.
  - by rewrite L4.
  - by rewrite L3.
  - by rewrite L1.
Qed.

Lemma update_master s : core s -> Z.testbit (last_irr (p_master s)) 2 = wants (p_slave s) -> link_ok (pic_update_irq true s).
Proof. intros [] Hl. by split; [split|..]. Qed.

(** A change of the slave's registers. *)
Lemma slave_step f s : link_ok s -> (forall p, regs_ok false p -> regs_ok false (f p)) -> link_ok (pic_update_irq false (on_chip false f s)).
Proof. intros [[] _ _] Hf. apply update_slave. split; cbn [on_chip p_master p_slave]; auto. Qed.

(** A change of the master's registers other than by line 2. *)
Definition keeps2 (f : PICCommonState -> PICCommonState) (p : PICCommonState) : Prop :=
  poll (f p) = poll p /\ elcr (f p) = elcr p /\ Z.testbit (last_irr (f p)) 2 = Z.testbit (last_irr p) 2 /\
  (Z.testbit (last_irr p) 2 = true -> Z.testbit (irr p) 2 = true -> Z.testbit (irr (f p)) 2 = true).

Lemma master_step f s :
  link_ok s -> (forall p, regs_ok true p -> regs_ok true (f p)) -> keeps2 f (p_master s) -> link_ok (pic_update_irq true (on_chip true f s)).
Proof.
  intros [[Hm Hs Hp He Hr] Hl _] Hf (K1 & K2 & K3 & K4). apply update_master.
  - split; cbn [on_chip p_master p_slave]; auto; [by rewrite K1|by rewrite K2|]. intros H. rewrite K3 in H. auto.
  - cbn [on_chip p_master p_slave]. by rewrite K3.
Qed.

Lemma chip_step m f s :
  link_ok s -> (forall p, regs_ok m p -> regs_ok m (f p)) -> (forall p, m = true -> keeps2 f p) -> link_ok (pic_update_irq m (on_chip m f s)).
Proof. intros Hs Hf Hk. destruct m; [apply master_step; auto|by apply slave_step]. Qed.

(** A change that the outputs do not depend on. *)
Lemma quiet_step m f s :
  link_ok s -> (regs_ok m (chip m s) -> regs_ok m (f (chip m s)) /\ wants (f (chip m s)) = wants (chip m s)) ->
  (m = true -> poll (f (p_master s)) = 0 /\ Z.testbit (elcr (f (p_master s))) 2 = false /\
    last_irr (f (p_master s)) = last_irr (p_master s) /\ irr (f (p_master s)) = irr (p_master s)) -> link_ok (on_chip m f s).
Proof.
  intros [[Hm Hs Hp He Hr] Hl Ho] Hf Hk. destruct m; cbn [on_chip chip] in *.
  - destruct (Hf Hm) as [Hf1 Hw]. destruct (Hk eq_refl) as (K1 & K2 & K3 & K4). split; [split|..]; cbn [p_master p_slave p_out]; auto; rewrite ?K3, ?K4, ?Hw; auto.
  - destruct (Hf Hs) as [Hf1 Hw]. split; [split|..]; cbn [p_master p_slave p_out]; rewrite ?Hw; auto.
Qed.

Lemma line_other irq level p : 0 <= irq < 8 -> irq <> 2 -> keeps2 (set_line irq level) p.
Proof.
  intros Hi Hn. unfold keeps2, set_line. destruct (has (elcr p) _), level; [..|destruct (has (last_irr p) _)|];
    cbn [poll elcr last_irr irr with_last_irr with_irr]; rewrite ?set_bit, ?clear_bit by lia; destruct (Z.eqb_spec irq 2); try done;
    rewrite ?orb_false_r, ?andb_true_r; auto.
Qed.

Lemma ack_other irq p : 0 <= irq < 8 -> irq <> 2 \/ Z.testbit (last_irr p) 2 = false -> auto_eoi p = 0 -> keeps2 (ack irq) p.
Proof.
  intros Hi Hn Ha. unfold keeps2, ack. rewrite Ha. change (0 =? 0) with true. cbv iota. cbn [elcr with_isr].
  destruct (has (elcr p) _); cbn [poll elcr last_irr irr with_isr with_irr]; [auto|]. split_and!; [done..|]. intros H1 H2.
  rewrite clear_bit, H2 by lia. destruct Hn as [Hn|Hn]; [by destruct (Z.eqb_spec irq 2)|congruence].
Qed.

(** ** Operations *)

(** After an acknowledgement nothing comes before the line in service. *)
Lemma ack_quiet m p : regs_ok m p -> 0 <= pic_get_irq p -> wants (ack (pic_get_irq p) p) = false.
Proof.
  intros Hp Hi. destruct (get_irq_cases p (ro_ok _ _ Hp)) as [Hw | [E _]]; [|lia]. set (i := pic_get_irq p) in *.
  pose proof (proj1 Hw) as Hb. destruct (ro_plain _ _ Hp) as (P1 & P2 & P3).
  apply not_true_is_false. intros H. apply wants_wanted in H as [j (Hj & Rj & _ & Sj)]; [|by apply (ack_ok m)].
  assert (forall k, rank (ack i p) k = rank p k) as Hr by (intros k; unfold rank, ack; rewrite P1; change (0 =? 0) with true; cbv iota; cbn [elcr with_isr]; by destruct (has (elcr p) _)).
  assert (in_service (ack i p) i = true) as Hs.
  { unfold in_service, ack. rewrite P1. change (0 =? 0) with true. cbv iota. cbn [elcr with_isr].
    destruct (has (elcr p) _); cbn; rewrite P2, P3, set_bit, Z.eqb_refl, orb_true_r by lia; done. }
  assert (requested p j = true) as Rj'.
  { revert Rj. unfold requested, ack. rewrite P1. change (0 =? 0) with true. cbv iota. cbn [elcr with_isr].
    destruct (has (elcr p) _); cbn; [done|]. rewrite clear_bit by lia. destruct (Z.testbit (irr p) j); [|done]. by destruct (i =? j). }
  specialize (Sj i Hb Hs). rewrite !Hr in Sj. destruct Hw as (_ & _ & Mi & _). specialize (Mi j Hj Rj'). lia.
Qed.

Lemma get_irq_range m p : regs_ok m p -> 0 <= pic_get_irq p -> 0 <= pic_get_irq p < 8.
Proof. intros Hp Hi. destruct (get_irq_cases p (ro_ok _ _ Hp)) as [Hw | [E _]]; [apply Hw|lia]. Qed.

Lemma master_ack irq s :
  link_ok s -> 0 <= irq < 8 -> irq <> 2 \/ Z.testbit (last_irr (p_master s)) 2 = false -> link_ok (pic_intack true irq s).
Proof.
  intros Hs Hi Hn. apply master_step; [done|intros; by apply ack_ok|]. apply ack_other; [done..|]. apply (co_master _ Hs).
Qed.

Lemma slave_ack s :
  link_ok s -> 0 <= pic_get_irq (p_slave s) -> let s' := pic_intack false (pic_get_irq (p_slave s)) s in
  link_ok s' /\ Z.testbit (last_irr (p_master s')) 2 = false.
Proof.
  intros Hs Hi s'. pose proof (get_irq_range _ _ (co_slave _ Hs) Hi) as Hb.
  assert (link_ok s') as Hs' by (apply slave_step; [done|intros; by apply ack_ok]). split; [done|].
  rewrite (lk_line _ Hs'). change (p_slave s') with (ack (pic_get_irq (p_slave s)) (p_slave s)). apply (ack_quiet false); [apply Hs|done].
Qed.

Lemma read_irq_ok s : link_ok s -> link_ok (pic_read_irq s).2.
Proof.
  intros Hs. unfold pic_read_irq. destruct (Z.leb_spec 0 (pic_get_irq (p_master s))) as [Hi|]; [|done].
  pose proof (get_irq_range _ _ (co_master _ Hs) Hi) as Hb. destruct (Z.eqb_spec (pic_get_irq (p_master s)) 2) as [E|Hn].
  - rewrite E. destruct (Z.leb_spec 0 (pic_get_irq (p_slave s))) as [Hi2|Hi2]; cbn [snd].
    + destruct (slave_ack s Hs Hi2) as [H1 H2]. apply master_ack; [done|done|by right].
    + apply master_ack; [done|done|]. right. rewrite (lk_line _ Hs). apply Z.leb_gt. lia.
  - cbn [snd]. apply master_ack; [done|done|by left].
Qed.

Lemma reset_ok m p : regs_ok m p -> regs_ok m (pic_reset_common p).
Proof. intros H. unfold pic_reset_common. regs_tac. Qed.

(** The master may be reset while the slave asks for nothing. *)
Lemma init_reset_ok m s : link_ok s -> (m = true -> wants (p_slave s) = false) -> link_ok (pic_init_reset m s).
Proof.
  intros Hs Hm. destruct m; [|apply slave_step; [done|apply reset_ok]]. apply master_step; [done|apply reset_ok|].
  pose proof (lk_line _ Hs) as Hl. rewrite (Hm eq_refl) in Hl. split_and!; cbn [pic_reset_common poll elcr last_irr]; [by rewrite (co_poll _ Hs)|done|by rewrite Hl|].
  intros H. congruence.
Qed.

Lemma clear_isr_ok m irq p : regs_ok m p -> regs_ok m (clear_isr irq p).
Proof. intros H. unfold clear_isr. regs_tac. Qed.

Lemma with_add_ok m v p : regs_ok m p -> regs_ok m (with_priority_add (Z.land v 7) p).
Proof. intros H. assert (0 <= Z.land v 7 < 8) by (rewrite land7; by apply Z.mod_pos_bound). regs_tac. Qed.

#[local] Hint Resolve clear_isr_ok with_add_ok : core.

Ltac keeps_tac := intros ? ?; unfold keeps2; cbn; auto.

Lemma on_chip_twice m f g s : on_chip m g (on_chip m f s) = on_chip m (fun p => g (f p)) s.
Proof. by destruct m. Qed.

Lemma command_ok m cmd val s : link_ok s -> link_ok (pic_command m cmd val s).
Proof.
  intros Hs. unfold pic_command. destruct (_ || _).
  { apply quiet_step; [done|intros H; split; [regs_tac|done]|]. intros ->. split_and!; [apply (co_poll _ Hs)|apply (co_edge _ Hs)|done..]. }
  destruct (_ || _).
  { destruct (_ =? 8); [done|]. set (irq := Z.land (get_priority _ _ + _) 7). destruct (cmd =? 5); [|by apply chip_step; [done|auto with core|keeps_tac]].
    rewrite on_chip_twice. by apply chip_step; [done|auto with core|keeps_tac]. }
  destruct (cmd =? 3); [by apply chip_step; [done|auto with core|keeps_tac]|].
  destruct (cmd =? 6); [by apply chip_step; [done|auto with core|keeps_tac]|].
  destruct (cmd =? 7); [by apply chip_step; [done|auto with core|keeps_tac]|done].
Qed.

(** What ordinary use does not write: OCW3 with the special mask mode, a poll of the
    master, ICW4 with special nesting or automatic end of interrupt, ICW1 to the
    master while the slave asks for an interrupt. *)
Definition write_plain (m : bool) (addr val : Z) (s : pics) : bool :=
  if addr =? 0 then
    if has val 0x10 then negb (m && wants (p_slave s))
    else if has val 0x08 then negb (has val 0x40 && has val 0x20) && negb (m && has val 0x04)
    else true
  else if init_state (chip m s) =? 3 then negb (has val 0x02) && negb (has val 0x10) else true.

Lemma shift_off val k : 0 <= k -> has val (2 ^ k) = false -> Z.land (Z.shiftr val k) 1 = 0.
Proof.
  intros Hk H. rewrite has_bit in H by done. change 1 with (Z.ones 1). rewrite Z.land_ones by lia. change (2 ^ 1) with 2.
  rewrite <-Z.bit0_mod, Z.shiftr_spec, Z.add_0_l, H by lia. done.
Qed.

Lemma init_word_ok m val p :
  (init_state p = 3 -> has val 0x02 = false /\ has val 0x10 = false) -> regs_ok m p -> regs_ok m (pic_init_word val p).
Proof.
  intros Hv H. unfold pic_init_word. destruct (Z.eqb_spec (init_state p) 1).
  { assert (in_range 8 (Z.land val 0xf8)) by (rewrite Z.land_comm; by apply land_bits). destruct (single_mode p =? 0), (init4 p =? 0); regs_tac. }
  destruct (Z.eqb_spec (init_state p) 2); [destruct (init4 p =? 0); regs_tac|]. destruct (Z.eqb_spec (init_state p) 3) as [E|]; [|done].
  destruct (Hv E) as [V1 V2]. rewrite (shift_off val 1), (shift_off val 4) by done. regs_tac.
Qed.

Lemma init_word_wants m val p :
  regs_ok m p -> (init_state p = 3 -> has val 0x02 = false /\ has val 0x10 = false) -> wants (pic_init_word val p) = wants p.
Proof.
  intros H Hv. unfold pic_init_word. destruct (Z.eqb_spec (init_state p) 1); [done|]. destruct (Z.eqb_spec (init_state p) 2); [done|].
  destruct (Z.eqb_spec (init_state p) 3) as [E|]; [|done]. destruct (Hv E) as [V1 V2]. rewrite (shift_off val 1), (shift_off val 4) by done.
  destruct (ro_plain _ _ H) as (P1 & P2 & P3). unfold wants, pic_get_irq, service_mask. cbn. by rewrite P3.
Qed.

Lemma mode_wants val p : has val 0x40 && has val 0x20 = false -> special_mask p = 0 -> wants (pic_mode val p) = wants p /\ special_mask (pic_mode val p) = 0.
Proof.
  intros Hv Hp. unfold pic_mode. destruct (has val 0x04), (has val 0x02), (has val 0x40) eqn:E; cbn [andb] in Hv; try done;
    (rewrite (shift_off val 5) by done; split; [|done]; unfold wants, pic_get_irq, service_mask; cbn; by rewrite Hp).
Qed.

Lemma mode_ok m val p : has val 0x40 && has val 0x20 = false -> regs_ok m p -> regs_ok m (pic_mode val p).
Proof.
  intros Hv H. destruct (mode_wants val p Hv (proj1 (proj2 (ro_plain _ _ H)))) as [_ Hs]. revert Hs. unfold pic_mode.
  destruct (has val 0x04), (has val 0x02), (has val 0x40); cbn; intros Hs; regs_tac.
Qed.

Lemma port_write_ok m addr val s s' :
  0 <= val < 256 -> link_ok s -> write_plain m addr val s = true -> pic_ioport_write m addr val s = Some s' -> link_ok s'.
Proof.
  intros Hv Hs Hp. unfold write_plain, pic_ioport_write in *. destruct (addr =? 0).
  - destruct (has val 0x10).
    { destruct (has val 0x08); [done|]. intros [= <-]. pose proof (init_reset_ok m s Hs) as Hr.
      apply quiet_step; [apply Hr; intros ->; by destruct (wants (p_slave s))|intros H; split; [regs_tac|done]|]. intros ->.
      assert (link_ok (pic_init_reset true s)) as H' by (apply Hr; intros _; by destruct (wants (p_slave s))).
      split_and!; [apply (co_poll _ H')|apply (co_edge _ H')|done..]. }
    destruct (has val 0x08); [|intros [= <-]; by apply command_ok]. intros [= <-]. apply andb_true_iff in Hp as [H1%negb_true_iff H2%negb_true_iff].
    apply quiet_step; [done|intros H; split; [by apply mode_ok|apply mode_wants; [done|apply (ro_plain _ _ H)]]|]. intros ->. cbn [andb] in H2.
    pose proof (co_poll _ Hs). pose proof (co_edge _ Hs). unfold pic_mode. rewrite H2. by destruct (has val 0x02), (has val 0x40).
  - destruct (Z.eqb_spec (init_state (chip m s)) 0).
    { intros [= <-]. apply chip_step; [done|intros p H|keeps_tac]. assert (in_range 8 (wrap 8 val)) by (rewrite wrap_id by lia; lia). regs_tac. }
    intros [= <-]. assert (init_state (chip m s) = 3 -> has val 0x02 = false /\ has val 0x10 = false) as Hg.
    { intros E. rewrite E in Hp. change (3 =? 3) with true in Hp. cbv iota in Hp. by apply andb_true_iff in Hp as [H1%negb_true_iff H2%negb_true_iff]. }
    apply quiet_step; [done|intros H; split; [by apply init_word_ok|by apply (init_word_wants m)]|]. intros ->.
    pose proof (co_poll _ Hs). pose proof (co_edge _ Hs). unfold pic_init_word.
    destruct (init_state _ =? 1); [by split_and!|]. destruct (init_state _ =? 2); [by split_and!|]. by destruct (init_state _ =? 3); split_and!.
Qed.

Lemma read_ok m addr s : link_ok s -> link_ok (pic_ioport_read m addr s).2.
Proof.
  intros Hs. unfold pic_ioport_read. destruct (Z.eqb_spec (poll (chip m s)) 0) as [|Hn]; [done|].
  destruct m; [by destruct (Hn (co_poll _ Hs))|]. destruct (Z.leb_spec 0 (pic_get_irq (chip false s))) as [Hi|]; cbn [snd].
  - apply quiet_step; [by apply slave_ack|intros H; split; [regs_tac|done]|done].
  - apply quiet_step; [done|intros Hr; split; [regs_tac|done]|done].
Qed.

Lemma elcr_ok m val s : 0 <= val < 256 -> link_ok s -> link_ok (elcr_ioport_write m val s).
Proof.
  intros Hv Hs. apply quiet_step; [done| |].
  - intros H. split; [|done]. assert (in_range 8 (Z.land val (elcr_mask (chip m s)))) by (apply land_bits; lia). regs_tac.
  - intros ->. split_and!; [apply (co_poll _ Hs)| |done..]. cbn [elcr with_elcr]. rewrite (proj2 (ro_name _ _ (co_master _ Hs))), Z.land_spec. apply andb_false_r.
Qed.

Lemma pic_reset_ok m s : link_ok s -> (m = true -> wants (p_slave s) = false) -> link_ok (pic_reset m s).
Proof.
  intros Hs Hm. apply init_reset_ok; [|intros ->; by apply Hm].
  apply quiet_step; [done|intros H; split; [regs_tac|done]|]. intros ->. split_and!; [apply (co_poll _ Hs)|apply Z.bits_0|done..].
Qed.

(** ** Runs *)

Inductive pic_step : pics -> pics -> Prop :=
| step_line irq level s : 0 <= irq < 16 -> irq <> 2 -> pic_step s (irq_set irq level s)
| step_ack s : pic_step s (pic_read_irq s).2
| step_write m addr val s s' :
    0 <= val < 256 -> write_plain m addr val s = true -> pic_ioport_write m addr val s = Some s' -> pic_step s s'
| step_read m addr s : pic_step s (pic_ioport_read m addr s).2
| step_elcr m val s : 0 <= val < 256 -> pic_step s (elcr_ioport_write m val s)
| step_reset m s : (m = true -> wants (p_slave s) = false) -> pic_step s (pic_reset m s).

Lemma pic_step_ok s s' : pic_step s s' -> link_ok s -> link_ok s'.
Proof.
  intros Hst Hs. destruct Hst as [irq level s Hi Hn|s|m addr val s s' Hv Hp Hw|m addr s|m val s Hv|m s Hm].
  - unfold irq_set. destruct (Z.ltb_spec irq 8).
    + apply master_step; [done|intros; apply set_line_ok; [lia|done]|]. apply line_other; lia.
    + apply slave_step; [done|]. intros p H'. apply set_line_ok; [lia|done].
  - by apply read_irq_ok.
  - by apply (port_write_ok m addr val s).
  - by apply read_ok.
  - by apply elcr_ok.
  - by apply pic_reset_ok.
Qed.

Lemma init_ok : link_ok i8259_init.
Proof. split; [split|..]; try done; (split; [split; cbn; lia|done|done]). Qed.

Lemma runs_ok s : rtc pic_step i8259_init s -> link_ok s.
Proof.
  intros H. apply (rtc_ind_r (R := pic_step) (fun s => link_ok s) i8259_init init_ok); [|done]. intros y z _ Hst Hy. by apply (pic_step_ok y).
Qed.

Lemma ack_base i p : irq_base (ack i p) = irq_base p.
Proof. unfold ack. destruct (auto_eoi p =? 0), (rotate_on_auto_eoi p =? 0); cbn [elcr with_isr with_priority_add]; by destruct (has (elcr p) _). Qed.

(** C12: no interrupt is lost between the lines of the board and the CPU. After any
    sequence of level changes, acknowledgements, reads and writes of the ports and
    resets in ordinary use, the CPU is signalled exactly when the master has a line
    to serve, a line to serve of the slave is a request of the master, and the
    acknowledgement gives the vector of that line. *)
Theorem pic_never_loses s :
  rtc pic_step i8259_init s ->
  (p_out s = true <-> exists i, wanted (p_master s) i) /\
  (forall i, wanted (p_master s) i -> i <> 2 -> (pic_read_irq s).1 = irq_base (p_master s) + i) /\
  (forall i, wanted (p_slave s) i ->
     Z.testbit (irr (p_master s)) 2 = true /\ (wanted (p_master s) 2 -> (pic_read_irq s).1 = irq_base (p_slave s) + i)).
Proof.
  intros H%runs_ok. pose proof (ro_ok _ _ (co_master _ H)) as Hm. pose proof (ro_ok _ _ (co_slave _ H)) as Hs. split_and!.
  - rewrite (lk_out _ H). by apply wants_wanted.
  - intros i Hi Hn. unfold pic_read_irq. rewrite (get_irq_wanted _ i Hm Hi). destruct Hi as (Hi & _).
    destruct (Z.leb_spec 0 i); [|lia]. by destruct (Z.eqb_spec i 2).
  - intros i Hi. split.
    + apply (co_req _ H). rewrite (lk_line _ H). apply wants_wanted; [done|]. by exists i.
    + intros H2. unfold pic_read_irq. rewrite (get_irq_wanted _ 2 Hm H2), (get_irq_wanted _ i Hs Hi). destruct Hi as (Hi & _).
      destruct (Z.leb_spec 0 i); [|lia]. exact (f_equal (fun b => b + i) (ack_base i (p_slave s))).
Qed.

(** Lines 1 and 4 are requested while line 2 is in service. *)
Definition busy_pic : PICCommonState := mkPic 0 0x12 0 0x04 0 0x20 0 0 0 0 0 0 0 1 0 0 0xf8 true.

Lemma pic_priorities_witness : pic_ok busy_pic /\ wanted busy_pic 1.
Proof.
  assert (pic_ok busy_pic) as Hok by (split; cbn; lia). split; [done|].
  destruct (proj1 (pic_priorities busy_pic 1 Hok) eq_refl) as [H | [H _]]; [done|discriminate].
Defined.

(** The slave is given the vectors from 0x28; then its line 4 is raised. *)
Definition slave_raised : pics :=
  mkPics (mkPic 4 4 0 0 0 0 0 0 0 0 0 0 0 0 0 0 0xf8 true) (mkPic 0x10 0x10 0 0 0 0x28 0 0 0 0 0 0 0 1 0 0 0xde false) [true; false].

Lemma slave_raised_run : rtc pic_step i8259_init slave_raised.
Proof.
  set (st base init := mkPics (i8259_chip true) (mkPic 0 0 0 0 0 base 0 0 0 init 0 0 0 1 0 0 0xde false) [false]).
  apply (rtc_l _ _ (st 0 1)); [by apply (step_write false 0 0x11)|]. apply (rtc_l _ _ (st 0x28 2)); [by apply (step_write false 1 0x28)|].
  apply (rtc_l _ _ (st 0x28 3)); [by apply (step_write false 1 2)|]. apply (rtc_l _ _ (st 0x28 0)); [by apply (step_write false 1 1)|].
  apply rtc_once. exact (step_line 12 true (st 0x28 0) ltac:(lia) ltac:(lia)).
Qed.

Lemma pic_never_loses_witness : p_out slave_raised = true /\ (pic_read_irq slave_raised).1 = 0x2c.
Proof.
  destruct (pic_never_loses slave_raised slave_raised_run) as (H1 & _ & H3).
  assert (pic_ok (p_master slave_raised) /\ pic_ok (p_slave slave_raised)) as [Hm Hs] by (split; split; cbn; lia).
  assert (wanted (p_master slave_raised) 2) as W2 by (destruct (get_irq_cases _ Hm) as [W | [E _]]; [exact W|discriminate]).
  assert (wanted (p_slave slave_raised) 4) as W4 by (destruct (get_irq_cases _ Hs) as [W | [E _]]; [exact W|discriminate]).
  split; [apply H1; by exists 2|]. exact (proj2 (H3 4 W4) W2).
Defined.

(** Special mask mode is set without an update of the output: line 5 may now interrupt
    line 3, and the CPU is not told. *)
Lemma special_mask_missed :
  let s := mkPics (mkPic 0x20 0x20 0x08 0x08 0 0x20 0 0 0 0 0 0 0 1 0 0 0xf8 true) (i8259_chip false) [false] in
  p_out s = wants (p_master s) /\ exists s', pic_ioport_write true 0 0x68 s = Some s' /\ p_out s' = false /\ pic_get_irq (p_master s') = 5.
Proof. split; [reflexivity|]. eexists. split; [reflexivity|]. split; reflexivity. Qed.

(** With automatic end of interrupt in the slave, the acknowledgement of its line 0
    takes the request of its line 4 from the master: the level of the output does not
    change, and only an edge is a request. *)
Lemma auto_eoi_loses :
  let s := mkPics (mkPic 4 4 0 0 0 0x20 0 0 0 0 0 0 0 1 0 0 0xf8 true) (mkPic 0x11 0x11 0 0 0 0x28 0 0 0 0 1 0 0 1 0 0 0xde false) [true] in
  (pic_read_irq s).1 = 0x28 /\ wants (p_slave (pic_read_irq s).2) = true /\ Z.testbit (irr (p_master (pic_read_irq s).2)) 2 = false.
Proof. split; [reflexivity|]. split; reflexivity. Qed.
