(* ===== verification/Apic.v ===== *)
(** * Local APICs

    hw/intc/apic.c and apic_common.c: the local interrupt controllers of the CPUs and
    the bus between them, up to the registers the CPU accesses. The VAPIC of
    hw/i386/kvmvapic.c is off ([vapic_paddr] is 0), so that [apic_sync_vapic] returns
    at once, and accesses to the TPR are not reported; the count of delivered
    interrupts, a statistic for the clock, is left out. *)

From stdpp Require Import base list.
From Stdlib Require Import ZArith Lia.
From S2P Require Import Prelude Cpu CcHelper Guest Mmu Seg Pic.

Local Open Scope Z_scope.

(** The state of one APIC; its timer, and the interrupt requests and the APIC feature
    of its CPU. The index of an APIC is its position on the bus. *)
Record APICCommonState : Type := mkApic {
  a_apicbase : Z;
  a_id : Z;
  a_arb_id : Z;
  a_tpr : Z;
  a_spurious_vec : Z;
  a_log_dest : Z;
  a_dest_mode : Z;
  a_isr : list Z;
  a_tmr : list Z;
  a_irr : list Z;
  a_lvt : list Z;
  a_esr : Z;
  a_icr : list Z;
  a_divide_conf : Z;
  a_count_shift : Z;
  a_initial_count : Z;
  a_load_time : Z;
  a_next_time : Z;
  a_timer_expiry : Z;
  a_sipi_vector : Z;
  a_wait_for_sipi : bool;
  a_request : Z;
  a_timer : option Z;
  a_feature : bool
}.

Definition with_a_apicbase v s := mkApic v (a_id s) (a_arb_id s) (a_tpr s) (a_spurious_vec s) (a_log_dest s) (a_dest_mode s) (a_isr s) (a_tmr s) (a_irr s) (a_lvt s) (a_esr s) (a_icr s) (a_divide_conf s) (a_count_shift s) (a_initial_count s) (a_load_time s) (a_next_time s) (a_timer_expiry s) (a_sipi_vector s) (a_wait_for_sipi s) (a_request s) (a_timer s) (a_feature s).
Definition with_a_id v s := mkApic (a_apicbase s) v (a_arb_id s) (a_tpr s) (a_spurious_vec s) (a_log_dest s) (a_dest_mode s) (a_isr s) (a_tmr s) (a_irr s) (a_lvt s) (a_esr s) (a_icr s) (a_divide_conf s) (a_count_shift s) (a_initial_count s) (a_load_time s) (a_next_time s) (a_timer_expiry s) (a_sipi_vector s) (a_wait_for_sipi s) (a_request s) (a_timer s) (a_feature s).
Definition with_a_arb_id v s := mkApic (a_apicbase s) (a_id s) v (a_tpr s) (a_spurious_vec s) (a_log_dest s) (a_dest_mode s) (a_isr s) (a_tmr s) (a_irr s) (a_lvt s) (a_esr s) (a_icr s) (a_divide_conf s) (a_count_shift s) (a_initial_count s) (a_load_time s) (a_next_time s) (a_timer_expiry s) (a_sipi_vector s) (a_wait_for_sipi s) (a_request s) (a_timer s) (a_feature s).
Definition with_a_tpr v s := mkApic (a_apicbase s) (a_id s) (a_arb_id s) v (a_spurious_vec s) (a_log_dest s) (a_dest_mode s) (a_isr s) (a_tmr s) (a_irr s) (a_lvt s) (a_esr s) (a_icr s) (a_divide_conf s) (a_count_shift s) (a_initial_count s) (a_load_time s) (a_next_time s) (a_timer_expiry s) (a_sipi_vector s) (a_wait_for_sipi s) (a_request s) (a_timer s) (a_feature s).
Definition with_a_spurious_vec v s := mkApic (a_apicbase s) (a_id s) (a_arb_id s) (a_tpr s) v (a_log_dest s) (a_dest_mode s) (a_isr s) (a_tmr s) (a_irr s) (a_lvt s) (a_esr s) (a_icr s) (a_divide_conf s) (a_count_shift s) (a_initial_count s) (a_load_time s) (a_next_time s) (a_timer_expiry s) (a_sipi_vector s) (a_wait_for_sipi s) (a_request s) (a_timer s) (a_feature s).
Definition with_a_log_dest v s := mkApic (a_apicbase s) (a_id s) (a_arb_id s) (a_tpr s) (a_spurious_vec s) v (a_dest_mode s) (a_isr s) (a_tmr s) (a_irr s) (a_lvt s) (a_esr s) (a_icr s) (a_divide_conf s) (a_count_shift s) (a_initial_count s) (a_load_time s) (a_next_time s) (a_timer_expiry s) (a_sipi_vector s) (a_wait_for_sipi s) (a_request s) (a_timer s) (a_feature s).
Definition with_a_dest_mode v s := mkApic (a_apicbase s) (a_id s) (a_arb_id s) (a_tpr s) (a_spurious_vec s) (a_log_dest s) v (a_isr s) (a_tmr s) (a_irr s) (a_lvt s) (a_esr s) (a_icr s) (a_divide_conf s) (a_count_shift s) (a_initial_count s) (a_load_time s) (a_next_time s) (a_timer_expiry s) (a_sipi_vector s) (a_wait_for_sipi s) (a_request s) (a_timer s) (a_feature s).
Definition with_a_isr v s := mkApic (a_apicbase s) (a_id s) (a_arb_id s) (a_tpr s) (a_spurious_vec s) (a_log_dest s) (a_dest_mode s) v (a_tmr s) (a_irr s) (a_lvt s) (a_esr s) (a_icr s) (a_divide_conf s) (a_count_shift s) (a_initial_count s) (a_load_time s) (a_next_time s) (a_timer_expiry s) (a_sipi_vector s) (a_wait_for_sipi s) (a_request s) (a_timer s) (a_feature s).
Definition with_a_tmr v s := mkApic (a_apicbase s) (a_id s) (a_arb_id s) (a_tpr s) (a_spurious_vec s) (a_log_dest s) (a_dest_mode s) (a_isr s) v (a_irr s) (a_lvt s) (a_esr s) (a_icr s) (a_divide_conf s) (a_count_shift s) (a_initial_count s) (a_load_time s) (a_next_time s) (a_timer_expiry s) (a_sipi_vector s) (a_wait_for_sipi s) (a_request s) (a_timer s) (a_feature s).
Definition with_a_irr v s := mkApic (a_apicbase s) (a_id s) (a_arb_id s) (a_tpr s) (a_spurious_vec s) (a_log_dest s) (a_dest_mode s) (a_isr s) (a_tmr s) v (a_lvt s) (a_esr s) (a_icr s) (a_divide_conf s) (a_count_shift s) (a_initial_count s) (a_load_time s) (a_next_time s) (a_timer_expiry s) (a_sipi_vector s) (a_wait_for_sipi s) (a_request s) (a_timer s) (a_feature s).
Definition with_a_lvt v s := mkApic (a_apicbase s) (a_id s) (a_arb_id s) (a_tpr s) (a_spurious_vec s) (a_log_dest s) (a_dest_mode s) (a_isr s) (a_tmr s) (a_irr s) v (a_esr s) (a_icr s) (a_divide_conf s) (a_count_shift s) (a_initial_count s) (a_load_time s) (a_next_time s) (a_timer_expiry s) (a_sipi_vector s) (a_wait_for_sipi s) (a_request s) (a_timer s) (a_feature s).
Definition with_a_esr v s := mkApic (a_apicbase s) (a_id s) (a_arb_id s) (a_tpr s) (a_spurious_vec s) (a_log_dest s) (a_dest_mode s) (a_isr s) (a_tmr s) (a_irr s) (a_lvt s) v (a_icr s) (a_divide_conf s) (a_count_shift s) (a_initial_count s) (a_load_time s) (a_next_time s) (a_timer_expiry s) (a_sipi_vector s) (a_wait_for_sipi s) (a_request s) (a_timer s) (a_feature s).
Definition with_a_icr v s := mkApic (a_apicbase s) (a_id s) (a_arb_id s) (a_tpr s) (a_spurious_vec s) (a_log_dest s) (a_dest_mode s) (a_isr s) (a_tmr s) (a_irr s) (a_lvt s) (a_esr s) v (a_divide_conf s) (a_count_shift s) (a_initial_count s) (a_load_time s) (a_next_time s) (a_timer_expiry s) (a_sipi_vector s) (a_wait_for_sipi s) (a_request s) (a_timer s) (a_feature s).
Definition with_a_divide_conf v s := mkApic (a_apicbase s) (a_id s) (a_arb_id s) (a_tpr s) (a_spurious_vec s) (a_log_dest s) (a_dest_mode s) (a_isr s) (a_tmr s) (a_irr s) (a_lvt s) (a_esr s) (a_icr s) v (a_count_shift s) (a_initial_count s) (a_load_time s) (a_next_time s) (a_timer_expiry s) (a_sipi_vector s) (a_wait_for_sipi s) (a_request s) (a_timer s) (a_feature s).
Definition with_a_count_shift v s := mkApic (a_apicbase s) (a_id s) (a_arb_id s) (a_tpr s) (a_spurious_vec s) (a_log_dest s) (a_dest_mode s) (a_isr s) (a_tmr s) (a_irr s) (a_lvt s) (a_esr s) (a_icr s) (a_divide_conf s) v (a_initial_count s) (a_load_time s) (a_next_time s) (a_timer_expiry s) (a_sipi_vector s) (a_wait_for_sipi s) (a_request s) (a_timer s) (a_feature s).
Definition with_a_initial_count v s := mkApic (a_apicbase s) (a_id s) (a_arb_id s) (a_tpr s) (a_spurious_vec s) (a_log_dest s) (a_dest_mode s) (a_isr s) (a_tmr s) (a_irr s) (a_lvt s) (a_esr s) (a_icr s) (a_divide_conf s) (a_count_shift s) v (a_load_time s) (a_next_time s) (a_timer_expiry s) (a_sipi_vector s) (a_wait_for_sipi s) (a_request s) (a_timer s) (a_feature s).
Definition with_a_load_time v s := mkApic (a_apicbase s) (a_id s) (a_arb_id s) (a_tpr s) (a_spurious_vec s) (a_log_dest s) (a_dest_mode s) (a_isr s) (a_tmr s) (a_irr s) (a_lvt s) (a_esr s) (a_icr s) (a_divide_conf s) (a_count_shift s) (a_initial_count s) v (a_next_time s) (a_timer_expiry s) (a_sipi_vector s) (a_wait_for_sipi s) (a_request s) (a_timer s) (a_feature s).
Definition with_a_next_time v s := mkApic (a_apicbase s) (a_id s) (a_arb_id s) (a_tpr s) (a_spurious_vec s) (a_log_dest s) (a_dest_mode s) (a_isr s) (a_tmr s) (a_irr s) (a_lvt s) (a_esr s) (a_icr s) (a_divide_conf s) (a_count_shift s) (a_initial_count s) (a_load_time s) v (a_timer_expiry s) (a_sipi_vector s) (a_wait_for_sipi s) (a_request s) (a_timer s) (a_feature s).
Definition with_a_timer_expiry v s := mkApic (a_apicbase s) (a_id s) (a_arb_id s) (a_tpr s) (a_spurious_vec s) (a_log_dest s) (a_dest_mode s) (a_isr s) (a_tmr s) (a_irr s) (a_lvt s) (a_esr s) (a_icr s) (a_divide_conf s) (a_count_shift s) (a_initial_count s) (a_load_time s) (a_next_time s) v (a_sipi_vector s) (a_wait_for_sipi s) (a_request s) (a_timer s) (a_feature s).
Definition with_a_sipi_vector v s := mkApic (a_apicbase s) (a_id s) (a_arb_id s) (a_tpr s) (a_spurious_vec s) (a_log_dest s) (a_dest_mode s) (a_isr s) (a_tmr s) (a_irr s) (a_lvt s) (a_esr s) (a_icr s) (a_divide_conf s) (a_count_shift s) (a_initial_count s) (a_load_time s) (a_next_time s) (a_timer_expiry s) v (a_wait_for_sipi s) (a_request s) (a_timer s) (a_feature s).
Definition with_a_wait_for_sipi v s := mkApic (a_apicbase s) (a_id s) (a_arb_id s) (a_tpr s) (a_spurious_vec s) (a_log_dest s) (a_dest_mode s) (a_isr s) (a_tmr s) (a_irr s) (a_lvt s) (a_esr s) (a_icr s) (a_divide_conf s) (a_count_shift s) (a_initial_count s) (a_load_time s) (a_next_time s) (a_timer_expiry s) (a_sipi_vector s) v (a_request s) (a_timer s) (a_feature s).
Definition with_a_request v s := mkApic (a_apicbase s) (a_id s) (a_arb_id s) (a_tpr s) (a_spurious_vec s) (a_log_dest s) (a_dest_mode s) (a_isr s) (a_tmr s) (a_irr s) (a_lvt s) (a_esr s) (a_icr s) (a_divide_conf s) (a_count_shift s) (a_initial_count s) (a_load_time s) (a_next_time s) (a_timer_expiry s) (a_sipi_vector s) (a_wait_for_sipi s) v (a_timer s) (a_feature s).
Definition with_a_timer v s := mkApic (a_apicbase s) (a_id s) (a_arb_id s) (a_tpr s) (a_spurious_vec s) (a_log_dest s) (a_dest_mode s) (a_isr s) (a_tmr s) (a_irr s) (a_lvt s) (a_esr s) (a_icr s) (a_divide_conf s) (a_count_shift s) (a_initial_count s) (a_load_time s) (a_next_time s) (a_timer_expiry s) (a_sipi_vector s) (a_wait_for_sipi s) (a_request s) v (a_feature s).
Definition with_a_feature v s := mkApic (a_apicbase s) (a_id s) (a_arb_id s) (a_tpr s) (a_spurious_vec s) (a_log_dest s) (a_dest_mode s) (a_isr s) (a_tmr s) (a_irr s) (a_lvt s) (a_esr s) (a_icr s) (a_divide_conf s) (a_count_shift s) (a_initial_count s) (a_load_time s) (a_next_time s) (a_timer_expiry s) (a_sipi_vector s) (a_wait_for_sipi s) (a_request s) (a_timer s) v.

Definition APIC_LVT_TIMER : nat := 0.
Definition APIC_LVT_LINT0 : nat := 3.
Definition APIC_LVT_LINT1 : nat := 4.
Definition APIC_LVT_NB : nat := 6.
Definition APIC_DM_FIXED : Z := 0.
Definition APIC_DM_LOWPRI : Z := 1.
Definition APIC_DM_SMI : Z := 2.
Definition APIC_DM_NMI : Z := 4.
Definition APIC_DM_INIT : Z := 5.
Definition APIC_DM_SIPI : Z := 6.
Definition APIC_DM_EXTINT : Z := 7.
Definition APIC_LVT_TIMER_PERIODIC : Z := Z.shiftl 1 17.
Definition APIC_LVT_MASKED : Z := Z.shiftl 1 16.
Definition APIC_LVT_LEVEL_TRIGGER : Z := Z.shiftl 1 15.
Definition ESR_ILLEGAL_ADDRESS : Z := Z.shiftl 1 7.
Definition APIC_SV_DIRECTED_IO : Z := Z.shiftl 1 12.
Definition APIC_SV_ENABLE : Z := Z.shiftl 1 8.
Definition MAX_APICS : nat := 255.
Definition MSR_IA32_APICBASE_BSP : Z := Z.shiftl 1 8.
Definition MSR_IA32_APICBASE_ENABLE : Z := Z.shiftl 1 11.
Definition APIC_DEFAULT_ADDRESS : Z := 0xfee00000.
Definition CPU_INTERRUPT_HARD : Z := 0x0002.
Definition CPU_INTERRUPT_POLL : Z := 0x0010.
Definition CPU_INTERRUPT_SMI : Z := 0x0040.
Definition CPU_INTERRUPT_NMI : Z := 0x0200.
Definition CPU_INTERRUPT_INIT : Z := 0x0400.
Definition CPU_INTERRUPT_SIPI : Z := 0x0800.

(** The handler also wakes the CPU or makes it leave the translated code. *)
Definition cpu_interrupt (mask : Z) (s : APICCommonState) : APICCommonState := with_a_request (Z.lor (a_request s) mask) s.
Definition cpu_reset_interrupt (mask : Z) (s : APICCommonState) : APICCommonState := with_a_request (Z.land (a_request s) (not32 mask)) s.

(** ** Tables of 256 bits *)

Definition apic_set_bit (tab : list Z) (index : Z) : list Z :=
  alter (fun w => Z.lor w (Z.shiftl 1 (Z.land index 0x1f))) (Z.to_nat (Z.shiftr index 5)) tab.
Definition apic_reset_bit (tab : list Z) (index : Z) : list Z :=
  alter (fun w => Z.land w (not32 (Z.shiftl 1 (Z.land index 0x1f)))) (Z.to_nat (Z.shiftr index 5)) tab.
Definition apic_get_bit (tab : list Z) (index : Z) : bool :=
  has (nth (Z.to_nat (Z.shiftr index 5)) tab 0) (Z.shiftl 1 (Z.land index 0x1f)).

(** [31 - clz32(value)] and [ctz32(value)] *)
Definition apic_fls_bit (value : Z) : Z := if value =? 0 then -1 else Z.log2 value.
Fixpoint ctz_loop (n : nat) (value : Z) : Z :=
  match n with O => 0 | S n' => if Z.odd value then 0 else 1 + ctz_loop n' (Z.shiftr value 1) end.
Definition apic_ffs_bit (value : Z) : Z := ctz_loop 32 value.

Fixpoint highest_loop (n : nat) (tab : list Z) : Z :=
  match n with
  | O => -1
  | S i => if nth i tab 0 =? 0 then highest_loop i tab else Z.of_nat i * 32 + apic_fls_bit (nth i tab 0)
  end.
Definition get_highest_priority_int (tab : list Z) : Z := highest_loop 8 tab.

(** ** Pending interrupts *)

Definition apic_get_ppr (s : APICCommonState) : Z :=
  let isrv := get_highest_priority_int (a_isr s) in
  let isrv := Z.shiftr (if isrv <? 0 then 0 else isrv) 4 in
  if isrv <=? Z.shiftr (a_tpr s) 4 then a_tpr s else Z.shiftl isrv 4.

Definition apic_irq_pending (s : APICCommonState) : Z :=
  let irrv := get_highest_priority_int (a_irr s) in
  if irrv <? 0 then 0
  else
    let ppr := apic_get_ppr s in
    if negb (ppr =? 0) && (Z.land irrv 0xf0 <=? Z.land ppr 0xf0) then -1 else irrv.

(** [self]: the code runs in the thread of the CPU. *)
Definition apic_update_irq (self : bool) (s : APICCommonState) : APICCommonState :=
  if negb (has (a_spurious_vec s) APIC_SV_ENABLE) then s
  else if negb self then cpu_interrupt CPU_INTERRUPT_POLL s
  else if 0 <? apic_irq_pending s then cpu_interrupt CPU_INTERRUPT_HARD s else s.

Definition apic_poll_irq (self : bool) (s : APICCommonState) : APICCommonState := apic_update_irq self s.

Definition apic_set_irq (self : bool) (vector_num : Z) (trigger_mode : Z) (s : APICCommonState) : APICCommonState :=
  let s := with_a_irr (apic_set_bit (a_irr s) vector_num) s in
  let s := with_a_tmr ((if trigger_mode =? 0 then apic_reset_bit else apic_set_bit) (a_tmr s) vector_num) s in
  apic_update_irq self s.

(** ** Local sources *)

Definition lvt_mode (lvt : Z) : Z := Z.land (Z.shiftr lvt 8) 7.

Definition apic_local_deliver (self : bool) (vector : nat) (s : APICCommonState) : APICCommonState :=
  let lvt := nth vector (a_lvt s) 0 in
  if has lvt APIC_LVT_MASKED then s
  else if lvt_mode lvt =? APIC_DM_SMI then cpu_interrupt CPU_INTERRUPT_SMI s
  else if lvt_mode lvt =? APIC_DM_NMI then cpu_interrupt CPU_INTERRUPT_NMI s
  else if lvt_mode lvt =? APIC_DM_EXTINT then cpu_interrupt CPU_INTERRUPT_HARD s
  else if lvt_mode lvt =? APIC_DM_FIXED then
    let trigger_mode := b2z (((vector =? APIC_LVT_LINT0)%nat || (vector =? APIC_LVT_LINT1)%nat) && has lvt APIC_LVT_LEVEL_TRIGGER) in
    apic_set_irq self (Z.land lvt 0xff) trigger_mode s
  else s.

Definition apic_deliver_pic_intr (self : bool) (level : bool) (s : APICCommonState) : APICCommonState :=
  if level then apic_local_deliver self APIC_LVT_LINT0 s
  else
    let lvt := nth APIC_LVT_LINT0 (a_lvt s) 0 in
    if lvt_mode lvt =? APIC_DM_FIXED then
      if has lvt APIC_LVT_LEVEL_TRIGGER
      then cpu_reset_interrupt CPU_INTERRUPT_HARD (with_a_irr (apic_reset_bit (a_irr s) (Z.land lvt 0xff)) s) else s
    else if lvt_mode lvt =? APIC_DM_EXTINT then cpu_reset_interrupt CPU_INTERRUPT_HARD s
    else s.

Definition apic_external_nmi (self : bool) (s : APICCommonState) : APICCommonState := apic_local_deliver self APIC_LVT_LINT1 s.

Definition apic_accept_pic_intr (s : APICCommonState) : bool :=
  negb (has (a_apicbase s) MSR_IA32_APICBASE_ENABLE) || negb (has (nth APIC_LVT_LINT0 (a_lvt s) 0) APIC_LVT_MASKED).

(** [output]: [pic_get_output(isa_pic)] *)
Definition apic_check_pic (self output : bool) (s : APICCommonState) : bool * APICCommonState :=
  if apic_accept_pic_intr s && output then (true, apic_deliver_pic_intr self true s) else (false, s).

Definition apic_get_interrupt (self output : bool) (s : APICCommonState) : Z * APICCommonState :=
  if negb (has (a_spurious_vec s) APIC_SV_ENABLE) then (-1, s)
  else
    let intno := apic_irq_pending s in
    if intno =? 0 then (-1, s)
    else if intno <? 0 then (Z.land (a_spurious_vec s) 0xff, s)
    else
      let s := with_a_isr (apic_set_bit (a_isr s) intno) (with_a_irr (apic_reset_bit (a_irr s) intno) s) in
      (intno, apic_update_irq self (apic_check_pic self output s).2).

(** ** Registers *)

Definition apic_set_base (val : Z) (s : APICCommonState) : APICCommonState :=
  let s := with_a_apicbase (Z.lor (Z.land val 0xfffff000) (Z.land (a_apicbase s) (Z.lor MSR_IA32_APICBASE_BSP MSR_IA32_APICBASE_ENABLE))) s in
  if has val MSR_IA32_APICBASE_ENABLE then s
  else
    let s := with_a_apicbase (Z.land (a_apicbase s) (not32 MSR_IA32_APICBASE_ENABLE)) s in
    with_a_spurious_vec (Z.land (a_spurious_vec s) (not32 APIC_SV_ENABLE)) (with_a_feature false s).

Definition apic_set_tpr (self : bool) (val : Z) (s : APICCommonState) : APICCommonState :=
  apic_update_irq self (with_a_tpr (wrap 8 (Z.shiftl val 4)) s).

Definition apic_get_tpr (s : APICCommonState) : Z := Z.shiftr (a_tpr s) 4.

Definition cpu_is_bsp (s : APICCommonState) : bool := has (a_apicbase s) MSR_IA32_APICBASE_BSP.

Definition apic_init_reset (s : APICCommonState) : APICCommonState :=
  let zeros := replicate 8 0 in
  mkApic (a_apicbase s) (a_id s) (a_arb_id s) 0 0xff 0 0xf zeros zeros zeros (replicate APIC_LVT_NB APIC_LVT_MASKED) 0 [0; 0] 0 0 0 0 0
    (-1) (a_sipi_vector s) true (a_request s) None (a_feature s).

Definition apic_designate_bsp (s : APICCommonState) : APICCommonState := with_a_apicbase (Z.lor (a_apicbase s) MSR_IA32_APICBASE_BSP) s.

Definition apic_reset_common (s : APICCommonState) : APICCommonState :=
  let bsp := cpu_is_bsp s in
  let s := with_a_apicbase (Z.lor (Z.lor APIC_DEFAULT_ADDRESS (if bsp then MSR_IA32_APICBASE_BSP else 0)) MSR_IA32_APICBASE_ENABLE) s in
  let s := apic_init_reset s in
  if bsp then with_a_lvt (<[APIC_LVT_LINT0 := 0x700]> (a_lvt s)) s else s.

(** ** Timer

    Times are in nanoseconds of the virtual clock. *)

Definition timer_lvt (s : APICCommonState) : Z := nth APIC_LVT_TIMER (a_lvt s) 0.

Definition apic_next_timer (current_time : Z) (s : APICCommonState) : bool * APICCommonState :=
  let s := with_a_timer_expiry (-1) s in
  if has (timer_lvt s) APIC_LVT_MASKED then (false, s)
  else
    let d := Z.shiftr (s64 (current_time - a_load_time s)) (a_count_shift s) in
    let ic := a_initial_count s in
    let go d :=
      let next := s64 (a_load_time s + s64 (Z.shiftl d (a_count_shift s))) in
      (true, with_a_timer_expiry next (with_a_next_time next s)) in
    if has (timer_lvt s) APIC_LVT_TIMER_PERIODIC then
      if ic =? 0 then (false, s) else go (s64 (u64 ((u64 d / (ic + 1) + 1) * (ic + 1))))
    else if ic <=? d then (false, s) else go (ic + 1).

(** [qemu_mod_timer] and [qemu_del_timer] *)
Definition apic_timer_update (current_time : Z) (s : APICCommonState) : APICCommonState :=
  let '(armed, s) := apic_next_timer current_time s in
  with_a_timer (if armed then Some (a_next_time s) else None) s.

Definition apic_timer (self : bool) (s : APICCommonState) : APICCommonState :=
  let s := apic_local_deliver self APIC_LVT_TIMER s in apic_timer_update (a_next_time s) s.

Definition apic_get_current_count (now : Z) (s : APICCommonState) : Z :=
  let d := Z.shiftr (s64 (now - a_load_time s)) (a_count_shift s) in
  let ic := a_initial_count s in
  if has (timer_lvt s) APIC_LVT_TIMER_PERIODIC then u32 (ic - u64 d mod (ic + 1))
  else if ic <=? d then 0 else u32 (ic - d).

(** ** The bus *)

Abbreviation bus := (list APICCommonState).

(** The APICs whose bits are set in the words of a mask. *)
Definition foreach_apic (mask : list Z) (f : APICCommonState -> APICCommonState) (b : bus) : bus :=
  imap (fun i s => if apic_get_bit mask (Z.of_nat i) then f s else s) b.

(** The first of the eight words that is not 0. *)
Fixpoint first_bit (i : nat) (mask : list Z) : option nat :=
  match mask with
  | [] => None
  | w :: mask' => if w =? 0 then first_bit (S i) mask' else Some (i * 32 + Z.to_nat (apic_ffs_bit w))%nat
  end.

Definition apic_bus_deliver (self : bool) (mask : list Z) (delivery_mode vector_num trigger_mode : Z) (b : bus) : bus :=
  let set := apic_set_irq self vector_num trigger_mode in
  if delivery_mode =? APIC_DM_LOWPRI then match first_bit 0 mask with Some d => alter set d b | None => b end
  else if delivery_mode =? APIC_DM_SMI then foreach_apic mask (cpu_interrupt CPU_INTERRUPT_SMI) b
  else if delivery_mode =? APIC_DM_NMI then foreach_apic mask (cpu_interrupt CPU_INTERRUPT_NMI) b
  else if delivery_mode =? APIC_DM_INIT then foreach_apic mask (cpu_interrupt CPU_INTERRUPT_INIT) b
  else if (delivery_mode =? APIC_DM_FIXED) || (delivery_mode =? APIC_DM_EXTINT) then foreach_apic mask set b
  else b.

Definition apic_find_dest (dest : Z) (b : bus) : option nat :=
  match b !! Z.to_nat dest with
  | Some s => if a_id s =? dest then Some (Z.to_nat dest) else fst <$> list_find (fun s => a_id s = dest) b
  | None => fst <$> list_find (fun s => a_id s = dest) b
  end.

Definition no_apics : list Z := replicate 8 0.
Definition all_apics : list Z := replicate 8 0xffffffff.

(** The test for one APIC in logical mode. *)
Definition logical_match (dest : Z) (s : APICCommonState) : bool :=
  if a_dest_mode s =? 0xf then has dest (a_log_dest s)
  else if a_dest_mode s =? 0 then
    (Z.land dest 0xf0 =? Z.land (a_log_dest s) 0xf0) && negb (Z.land (Z.land dest (a_log_dest s)) 0x0f =? 0)
  else false.

Fixpoint logical_loop (i : nat) (dest : Z) (b : bus) (mask : list Z) : list Z :=
  match b with
  | [] => mask
  | s :: b' => logical_loop (S i) dest b' (if logical_match dest s then apic_set_bit mask (Z.of_nat i) else mask)
  end.

Definition apic_get_delivery_bitmask (dest dest_mode : Z) (b : bus) : list Z :=
  if dest_mode =? 0 then
    if dest =? 0xff then all_apics
    else match apic_find_dest dest b with Some idx => apic_set_bit no_apics (Z.of_nat idx) | None => no_apics end
  else logical_loop 0 dest b no_apics.

Definition apic_deliver_irq (self : bool) (dest dest_mode delivery_mode vector_num trigger_mode : Z) (b : bus) : bus :=
  apic_bus_deliver self (apic_get_delivery_bitmask dest dest_mode b) delivery_mode vector_num trigger_mode b.

Definition apic_startup (vector_num : Z) (s : APICCommonState) : APICCommonState :=
  cpu_interrupt CPU_INTERRUPT_SIPI (with_a_sipi_vector vector_num s).

(** The interrupt command register of the APIC at [i]. *)
Definition apic_deliver (self : bool) (i : nat) (dest dest_mode delivery_mode vector_num trigger_mode : Z) (b : bus) : bus :=
  let icr0 := match b !! i with Some s => nth 0 (a_icr s) 0 | None => 0 end in
  let shorthand := Z.land (Z.shiftr icr0 18) 3 in
  let mask :=
    if shorthand =? 0 then apic_get_delivery_bitmask dest dest_mode b
    else if shorthand =? 1 then apic_set_bit no_apics (Z.of_nat i)
    else if shorthand =? 2 then all_apics
    else apic_reset_bit all_apics (Z.of_nat i) in
  if (delivery_mode =? APIC_DM_INIT) && (Z.land (Z.shiftr icr0 14) 1 =? 0) && (Z.land (Z.shiftr icr0 15) 1 =? 1)
  then foreach_apic mask (fun s => with_a_arb_id (a_id s) s) b
  else if delivery_mode =? APIC_DM_SIPI then foreach_apic mask (apic_startup vector_num) b
  else apic_bus_deliver self mask delivery_mode vector_num trigger_mode b.

Definition apic_send_msi (self : bool) (addr data : Z) (b : bus) : bus :=
  let dest := wrap 8 (Z.shiftr (Z.land addr 0x00ffff0) 12) in
  let vector := Z.land data 0xff in
  let dest_mode := Z.land (Z.shiftr addr 2) 1 in
  let trigger_mode := Z.land (Z.shiftr data 15) 1 in
  let delivery := Z.land (Z.shiftr data 8) 7 in
  apic_deliver_irq self dest dest_mode delivery vector trigger_mode b.
