(* ===== verification/Board.v ===== *)
(** * The board

    hw/intc/ioapic.c, the registers of the local APICs (hw/intc/apic.c) and the
    wiring of hw/i386/pc.c: devices raise lines of the 8259s and of the I/O APIC;
    the 8259s signal the CPUs through LINT0, the I/O APIC through the bus of the
    local APICs; the CPU asks for the vector. *)

From stdpp Require Import base list.
From Stdlib Require Import ZArith Lia.
From S2P Require Import Prelude Cpu CcHelper Guest Mmu Seg Pic Apic.

Local Open Scope Z_scope.

Record IOAPICCommonState : Type := mkIoapic { io_id : Z; ioregsel : Z; io_irr : Z; ioredtbl : list Z }.

Record board : Type := mkBoard { b_apics : bus; b_ioapic : IOAPICCommonState; b_pics : pics }.

Definition on_apics (f : bus -> bus) (b : board) : board := mkBoard (f (b_apics b)) (b_ioapic b) (b_pics b).
Definition on_ioapic (f : IOAPICCommonState -> IOAPICCommonState) (b : board) : board := mkBoard (b_apics b) (f (b_ioapic b)) (b_pics b).
Definition on_apic (i : nat) (f : APICCommonState -> APICCommonState) : board -> board := on_apics (alter f i).

Definition IOAPIC_NUM_PINS : nat := 24.
Definition IOAPIC_LVT_MASKED : Z := Z.shiftl 1 16.
Definition IOAPIC_LVT_REMOTE_IRR : Z := Z.shiftl 1 14.
Definition IOAPIC_VERSION : Z := 0x11.

(** [self]: the code runs in the thread of the CPUs. *)
Section Board.
Context (self : bool).

(** ** The 8259s and the CPUs *)

Definition pic_irq_request (level : bool) (b : board) : board :=
  on_apics (fmap (fun s => if apic_accept_pic_intr s then apic_deliver_pic_intr self level s else s)) b.

(** An operation of the 8259s, with the levels that it signals, in their order. *)
Definition with_pics {A} (f : pics -> A * pics) (b : board) : A * board :=
  let '(x, p) := f (b_pics b) in
  let sent := take (length (p_sent p) - length (p_sent (b_pics b))) (p_sent p) in
  (x, foldr pic_irq_request (mkBoard (b_apics b) (b_ioapic b) p) sent).

Definition cpu_get_pic_interrupt (i : nat) (b : board) : Z * board :=
  match b_apics b !! i with
  | None => (-1, b)
  | Some s =>
      let '(intno, s') := apic_get_interrupt self (pic_get_output (b_pics b)) s in
      let b := on_apic i (fun _ => s') b in
      if 0 <=? intno then (intno, b)
      else if negb (apic_accept_pic_intr s') then (-1, b)
      else with_pics pic_read_irq b
  end.

(** ** The I/O APIC *)

Definition redirection (b : board) (i : nat) : Z := nth i (ioredtbl (b_ioapic b)) 0.
Definition set_redirection (i : nat) (v : Z) : board -> board :=
  on_ioapic (fun s => mkIoapic (io_id s) (ioregsel s) (io_irr s) (<[i := v]> (ioredtbl s))).
Definition set_io_irr (v : Z) : board -> board := on_ioapic (fun s => mkIoapic (io_id s) (ioregsel s) v (ioredtbl s)).

(** One round of the loop: a pin that is requested and not masked. *)
Definition service_pin (i : nat) (b : board) : board :=
  let mask := Z.shiftl 1 (Z.of_nat i) in
  let entry := redirection b i in
  if has (io_irr (b_ioapic b)) mask && negb (has entry IOAPIC_LVT_MASKED) then
    let trig_mode := Z.land (Z.shiftr entry 15) 1 in
    let dest := Z.shiftr entry 56 in
    let dest_mode := Z.land (Z.shiftr entry 11) 1 in
    let delivery_mode := Z.land (Z.shiftr entry 8) 7 in
    let b := if trig_mode =? 0 then set_io_irr (Z.land (io_irr (b_ioapic b)) (not32 mask)) b
             else set_redirection i (Z.lor entry IOAPIC_LVT_REMOTE_IRR) b in
    let '(vector, b) := if delivery_mode =? APIC_DM_EXTINT then with_pics pic_read_irq b else (Z.land entry 0xff, b) in
    on_apics (apic_deliver_irq self dest dest_mode delivery_mode (wrap 8 vector) trig_mode) b
  else b.

Definition ioapic_service (b : board) : board := foldl (fun b i => service_pin i b) b (seq 0 IOAPIC_NUM_PINS).

Definition ioapic_set_irq (vector : Z) (level : bool) (b : board) : board :=
  let vector := if vector =? 0 then 2 else vector in
  if (0 <=? vector) && (vector <? Z.of_nat IOAPIC_NUM_PINS) then
    let mask := Z.shiftl 1 vector in
    let entry := redirection b (Z.to_nat vector) in
    let level := if has entry (Z.shiftl 1 13) then negb level else level in
    if Z.land (Z.shiftr entry 15) 1 =? 1 then
      if level then ioapic_service (set_io_irr (Z.lor (io_irr (b_ioapic b)) mask) b)
      else set_io_irr (Z.land (io_irr (b_ioapic b)) (not32 mask)) b
    else if level && negb (has entry IOAPIC_LVT_MASKED)
    then ioapic_service (set_io_irr (Z.lor (io_irr (b_ioapic b)) mask) b) else b
  else b.

Definition eoi_pin (vector : Z) (n : nat) (b : board) : board :=
  let entry := redirection b n in
  if has entry IOAPIC_LVT_REMOTE_IRR && (Z.land entry 0xff =? vector) then
    let b := set_redirection n (Z.land entry (u64 (Z.lnot IOAPIC_LVT_REMOTE_IRR))) b in
    if negb (has entry IOAPIC_LVT_MASKED) && has (io_irr (b_ioapic b)) (Z.shiftl 1 (Z.of_nat n)) then ioapic_service b else b
  else b.

Definition ioapic_eoi_broadcast (vector : Z) (b : board) : board := foldl (fun b n => eoi_pin vector n b) b (seq 0 IOAPIC_NUM_PINS).

Definition ioapic_mem_read (addr size : Z) (b : board) : Z :=
  let s := b_ioapic b in
  if Z.land addr 0xff =? 0x00 then ioregsel s
  else if (Z.land addr 0xff =? 0x10) && (size =? 4) then
    if ioregsel s =? 0 then Z.shiftl (io_id s) 24
    else if ioregsel s =? 1 then Z.lor IOAPIC_VERSION (Z.shiftl (Z.of_nat IOAPIC_NUM_PINS - 1) 16)
    else if ioregsel s =? 2 then 0
    else
      let index := Z.shiftr (ioregsel s - 0x10) 1 in
      if (0 <=? index) && (index <? Z.of_nat IOAPIC_NUM_PINS) then
        let entry := redirection b (Z.to_nat index) in
        if Z.odd (ioregsel s) then Z.shiftr entry 32 else Z.land entry 0xffffffff
      else 0
  else 0.

Definition ioapic_mem_write (addr val size : Z) (b : board) : board :=
  let s := b_ioapic b in
  if Z.land addr 0xff =? 0x00 then on_ioapic (fun s => mkIoapic (io_id s) (wrap 8 val) (io_irr s) (ioredtbl s)) b
  else if (Z.land addr 0xff =? 0x10) && (size =? 4) then
    if ioregsel s =? 0 then on_ioapic (fun s => mkIoapic (Z.land (Z.shiftr val 24) 0xf) (ioregsel s) (io_irr s) (ioredtbl s)) b
    else if (ioregsel s =? 1) || (ioregsel s =? 2) then b
    else
      let index := Z.shiftr (ioregsel s - 0x10) 1 in
      if (0 <=? index) && (index <? Z.of_nat IOAPIC_NUM_PINS) then
        let entry := redirection b (Z.to_nat index) in
        let entry := if Z.odd (ioregsel s) then Z.lor (Z.land entry 0xffffffff) (u64 (Z.shiftl val 32))
                     else Z.lor (Z.land entry (u64 (Z.lnot 0xffffffff))) val in
        ioapic_service (set_redirection (Z.to_nat index) entry b)
      else b
  else b.

Definition ioapic_reset_common : board -> board := on_ioapic (fun _ => mkIoapic 0 0 0 (replicate IOAPIC_NUM_PINS IOAPIC_LVT_MASKED)).

(** ** Devices *)

Definition gsi_handler (n : Z) (level : bool) (b : board) : board :=
  let b := if n <? 16 then (with_pics (fun p => (tt, irq_set n level p)) b).2 else b in
  ioapic_set_irq n level b.

(** ** Registers of a local APIC *)

Definition apic_eoi (i : nat) (b : board) : board :=
  match b_apics b !! i with
  | None => b
  | Some s =>
      let isrv := get_highest_priority_int (a_isr s) in
      if isrv <? 0 then b
      else
        let b := on_apic i (with_a_isr (apic_reset_bit (a_isr s) isrv)) b in
        let b := if negb (has (a_spurious_vec s) APIC_SV_DIRECTED_IO) && apic_get_bit (a_tmr s) isrv
                 then ioapic_eoi_broadcast isrv b else b in
        on_apic i (apic_update_irq self) b
  end.

Definition apic_mem_readl (now : Z) (addr : Z) (s : APICCommonState) : Z * APICCommonState :=
  let index := Z.land (Z.shiftr addr 4) 0xff in
  let word (tab : list Z) := nth (Z.to_nat (Z.land index 7)) tab 0 in
  if index =? 0x02 then (Z.shiftl (a_id s) 24, s)
  else if index =? 0x03 then (Z.lor 0x11 (Z.shiftl (Z.of_nat APIC_LVT_NB - 1) 16), s)
  else if index =? 0x08 then (a_tpr s, s)
  else if index =? 0x09 then (0, s)
  else if index =? 0x0a then (apic_get_ppr s, s)
  else if index =? 0x0b then (0, s)
  else if index =? 0x0d then (Z.shiftl (a_log_dest s) 24, s)
  else if index =? 0x0e then (u32 (Z.shiftl (a_dest_mode s) 28), s)
  else if index =? 0x0f then (a_spurious_vec s, s)
  else if (0x10 <=? index) && (index <=? 0x17) then (word (a_isr s), s)
  else if (0x18 <=? index) && (index <=? 0x1f) then (word (a_tmr s), s)
  else if (0x20 <=? index) && (index <=? 0x27) then (word (a_irr s), s)
  else if index =? 0x28 then (a_esr s, s)
  else if (index =? 0x30) || (index =? 0x31) then (nth (Z.to_nat (Z.land index 1)) (a_icr s) 0, s)
  else if (0x32 <=? index) && (index <=? 0x37) then (nth (Z.to_nat (index - 0x32)) (a_lvt s) 0, s)
  else if index =? 0x38 then (a_initial_count s, s)
  else if index =? 0x39 then (apic_get_current_count now s, s)
  else if index =? 0x3e then (a_divide_conf s, s)
  else (0, with_a_esr (Z.lor (a_esr s) ESR_ILLEGAL_ADDRESS) s).

(** The local vector table; a change of LINT0 may let a pending 8259 through. *)
Definition write_lvt (now : Z) (output : bool) (n : nat) (val : Z) (s : APICCommonState) : APICCommonState :=
  let s := with_a_lvt (<[n := val]> (a_lvt s)) s in
  if (n =? APIC_LVT_TIMER)%nat then apic_timer_update now s
  else if (n =? APIC_LVT_LINT0)%nat then
    let '(sent, s) := apic_check_pic self output s in if sent then apic_update_irq self s else s
  else s.

Definition apic_mem_writel (now : Z) (i : nat) (addr val : Z) (b : board) : board :=
  let index := Z.land (Z.shiftr addr 4) 0xff in
  if (0xfff <? addr) || (index =? 0) then on_apics (apic_send_msi self addr val) b
  else if index =? 0x02 then on_apic i (with_a_id (Z.shiftr val 24)) b
  else if index =? 0x08 then on_apic i (fun s => apic_update_irq self (with_a_tpr (wrap 8 val) s)) b
  else if index =? 0x0b then apic_eoi i b
  else if index =? 0x0d then on_apic i (with_a_log_dest (Z.shiftr val 24)) b
  else if index =? 0x0e then on_apic i (with_a_dest_mode (Z.shiftr val 28)) b
  else if index =? 0x0f then on_apic i (fun s => apic_update_irq self (with_a_spurious_vec (Z.land val 0x1ff) s)) b
  else if index =? 0x30 then
    let b := on_apic i (fun s => with_a_icr (<[0%nat := val]> (a_icr s)) s) b in
    let icr1 := match b_apics b !! i with Some s => nth 1 (a_icr s) 0 | None => 0 end in
    on_apics (apic_deliver self i (Z.land (Z.shiftr icr1 24) 0xff) (Z.land (Z.shiftr val 11) 1) (Z.land (Z.shiftr val 8) 7)
      (Z.land val 0xff) (Z.land (Z.shiftr val 15) 1)) b
  else if index =? 0x31 then on_apic i (fun s => with_a_icr (<[1%nat := val]> (a_icr s)) s) b
  else if (0x32 <=? index) && (index <=? 0x37) then on_apic i (write_lvt now (pic_get_output (b_pics b)) (Z.to_nat (index - 0x32)) val) b
  else if index =? 0x38 then on_apic i (fun s => apic_timer_update now (with_a_load_time now (with_a_initial_count val s))) b
  else if index =? 0x3e then
    on_apic i (fun s =>
      let conf := Z.land val 0xb in
      let v := Z.lor (Z.land conf 3) (Z.land (Z.shiftr conf 1) 4) in
      with_a_count_shift (Z.land (v + 1) 7) (with_a_divide_conf conf s)) b
  else if existsb (Z.eqb index) [0x03; 0x09; 0x0a; 0x28; 0x39] || ((0x10 <=? index) && (index <=? 0x27)) then b
  else on_apic i (fun s => with_a_esr (Z.lor (a_esr s) ESR_ILLEGAL_ADDRESS) s) b.
End Board.
