(* ===== verification/ApicInv.v ===== *)
(** * Properties of the local APICs

    Vectors in service form a stack, an interrupt goes to exactly the CPUs it is
    addressed to, and the timer keeps its period. *)

From stdpp Require Import base list relations.
From Stdlib Require Import ZArith Lia Sorted.
From S2P Require Import Prelude Cpu CcHelper Guest Mmu Seg SegSpec Pic Apic Board.

Local Open Scope Z_scope.

(** ** Widths *)

Lemma range_bits w x : 0 <= w -> 0 <= x -> in_range w x <-> (forall i, w <= i -> Z.testbit x i = false).
Proof.
  intros Hw Hx. split.
  - intros Hr i Hi. rewrite <-(Z.mod_small x (2 ^ w)) by done. by apply Z.mod_pow2_bits_high.
  - intros Hb. assert (x = x mod 2 ^ w) as ->; [|by apply Z.mod_pos_bound, Z.pow_pos_nonneg].
    apply Z.bits_inj'. intros i Hi. destruct (Z.lt_ge_cases i w); [by rewrite Z.mod_pow2_bits_low|]. rewrite Z.mod_pow2_bits_high by lia. by apply Hb.
Qed.

Lemma range_lor w x y : 0 <= w -> in_range w x -> in_range w y -> in_range w (Z.lor x y).
Proof.
  intros Hw Hx Hy. apply range_bits; [done|apply Z.lor_nonneg; lia|]. intros i Hi. rewrite Z.lor_spec.
  rewrite range_bits in Hx, Hy by lia. by rewrite Hx, Hy.
Qed.

Lemma range_land w x m : 0 <= w -> in_range w m -> in_range w (Z.land x m).
Proof.
  intros Hw Hm. apply range_bits; [done|apply Z.land_nonneg; lia|]. intros i Hi. rewrite Z.land_spec, range_bits in * by lia. by rewrite Hm, andb_false_r.
Qed.

Lemma range_land_l w x m : 0 <= w -> in_range w x -> in_range w (Z.land x m).
Proof. rewrite Z.land_comm. by apply range_land. Qed.

Lemma range_shiftr w n x : 0 <= n -> 0 <= w -> in_range (w + n) x -> in_range w (Z.shiftr x n).
Proof.
  intros Hn Hw Hx. rewrite Z.shiftr_div_pow2 by done. split; [apply Z.div_pos; [lia|by apply Z.pow_pos_nonneg]|].
  apply Z.div_lt_upper_bound; [by apply Z.pow_pos_nonneg|]. rewrite Z.pow_add_r in Hx by lia. lia.
Qed.

(** ** Tables as sets of vectors *)

Definition word_ok (w : Z) : Prop := in_range 32 w.
Record tab_ok (t : list Z) : Prop := { tb_len : length t = 8%nat; tb_words : Forall word_ok t }.

Lemma shift5 v : 0 <= v < 256 -> 0 <= Z.shiftr v 5 < 8.
Proof. intros Hv. rewrite Z.shiftr_div_pow2 by lia. change (2 ^ 5) with 32. split; [apply Z.div_pos; lia|apply Z.div_lt_upper_bound; lia]. Qed.

Lemma land31 v : Z.land v 0x1f = v mod 32.
Proof. change 0x1f with (Z.ones 5). by rewrite Z.land_ones by lia. Qed.

Lemma has_shift w k : 0 <= k -> has w (Z.shiftl 1 k) = Z.testbit w k.
Proof. intros Hk. rewrite Z.shiftl_1_l. by apply has_bit. Qed.

Lemma get_bit_spec t v : 0 <= v -> apic_get_bit t v = Z.testbit (nth (Z.to_nat (v / 32)) t 0) (v mod 32).
Proof.
  intros Hv. unfold apic_get_bit. rewrite has_shift by (rewrite land31; apply Z.mod_pos_bound; lia).
  rewrite land31, Z.shiftr_div_pow2 by lia. done.
Qed.

Lemma nth_alter (f : Z -> Z) i j t : (i < length t)%nat -> nth j (alter f i t) 0 = if (i =? j)%nat then f (nth i t 0) else nth j t 0.
Proof.
  intros Hi. rewrite !nth_lookup. destruct (Nat.eqb_spec i j) as [<-|Hn].
  - rewrite list_lookup_alter_eq. destruct (t !! i) eqn:E; [done|]. apply lookup_ge_None_1 in E. lia.
  - by rewrite list_lookup_alter_ne.
Qed.

Lemma divmod_eq v w : 0 <= v -> 0 <= w -> v / 32 = w / 32 -> v mod 32 = w mod 32 -> v = w.
Proof. intros Hv Hw H1 H2. rewrite (Z.div_mod v 32), (Z.div_mod w 32) by lia. lia. Qed.

Lemma same_vector v w :
  0 <= v < 256 -> 0 <= w < 256 -> (Z.to_nat (v / 32) =? Z.to_nat (w / 32))%nat && (v mod 32 =? w mod 32) = (v =? w).
Proof.
  intros Hv Hw. assert (0 <= v / 32 /\ 0 <= w / 32) as [H1 H2] by (split; apply Z.div_pos; lia).
  destruct (Nat.eqb_spec (Z.to_nat (v / 32)) (Z.to_nat (w / 32))) as [E1|], (Z.eqb_spec (v mod 32) (w mod 32)) as [E2|], (Z.eqb_spec v w) as [E3|E3]; cbn; try done; try congruence.
  exfalso. apply E3, divmod_eq; lia.
Qed.

Lemma vector_word v : 0 <= v < 256 -> (Z.to_nat (v / 32) < 8)%nat /\ 0 <= v mod 32 < 32.
Proof. intros Hv. pose proof (shift5 v Hv) as H. rewrite Z.shiftr_div_pow2 in H by lia. change (2 ^ 5) with 32 in H. split; [lia|by apply Z.mod_pos_bound]. Qed.

Lemma set_bit_spec t v w : length t = 8%nat -> 0 <= v < 256 -> 0 <= w < 256 -> apic_get_bit (apic_set_bit t v) w = apic_get_bit t w || (v =? w).
Proof.
  intros Hl Hv Hw. destruct (vector_word v Hv) as [V1 V2], (vector_word w Hw) as [W1 W2]. rewrite !get_bit_spec by lia. unfold apic_set_bit.
  rewrite Z.shiftr_div_pow2, land31 by lia. change (2 ^ 5) with 32. rewrite nth_alter by lia. rewrite <-(same_vector v w Hv Hw).
  destruct (Nat.eqb_spec (Z.to_nat (v / 32)) (Z.to_nat (w / 32))) as [E|]; [|by rewrite orb_false_r].
  rewrite Z.lor_spec, Z.shiftl_1_l, Z.pow2_bits_eqb, E by lia. done.
Qed.

Lemma reset_bit_spec t v w : length t = 8%nat -> 0 <= v < 256 -> 0 <= w < 256 -> apic_get_bit (apic_reset_bit t v) w = apic_get_bit t w && negb (v =? w).
Proof.
  intros Hl Hv Hw. destruct (vector_word v Hv) as [V1 V2], (vector_word w Hw) as [W1 W2]. rewrite !get_bit_spec by lia. unfold apic_reset_bit.
  rewrite Z.shiftr_div_pow2, land31 by lia. change (2 ^ 5) with 32. rewrite nth_alter by lia. rewrite <-(same_vector v w Hv Hw).
  destruct (Nat.eqb_spec (Z.to_nat (v / 32)) (Z.to_nat (w / 32))) as [E|]; [|by rewrite andb_true_r].
  rewrite Z.land_spec, testbit_not32, Z.shiftl_1_l, Z.pow2_bits_eqb, E by lia. done.
Qed.

Lemma land_word w m : word_ok w -> word_ok (Z.land w m).
Proof.
  intros Hw. assert (Z.land w m = Z.land w m mod 2 ^ 32) as ->; [|by apply Z.mod_pos_bound]. rewrite <-Z.land_ones by lia.
  rewrite <-Z.land_assoc, (Z.land_comm m), Z.land_assoc. f_equal. rewrite Z.land_ones by lia. symmetry. apply Z.mod_small, Hw.
Qed.

Lemma bit_word k : 0 <= k < 32 -> word_ok (Z.shiftl 1 k).
Proof. intros Hk. rewrite Z.shiftl_1_l. split; [by apply Z.pow_nonneg|]. apply Z.pow_lt_mono_r; lia. Qed.

Lemma set_tab_ok t v : 0 <= v < 256 -> tab_ok t -> tab_ok (apic_set_bit t v).
Proof.
  intros Hv [Hl Hw]. destruct (vector_word v Hv) as [V1 V2]. split; [unfold apic_set_bit; by rewrite length_alter|].
  unfold apic_set_bit. rewrite land31. apply Forall_alter; [done|]. intros w _ Hw'. by apply in_range_lor, bit_word.
Qed.

Lemma reset_tab_ok t v : tab_ok t -> tab_ok (apic_reset_bit t v).
Proof.
  intros [Hl Hw]. split; [unfold apic_reset_bit; by rewrite length_alter|]. unfold apic_reset_bit. apply Forall_alter; [done|]. intros w _ Hw'. by apply land_word.
Qed.

(** The largest vector of a table. *)
Definition largest (t : list Z) (v : Z) : Prop :=
  0 <= v < 256 /\ apic_get_bit t v = true /\ forall w, 0 <= w < 256 -> apic_get_bit t w = true -> w <= v.

Lemma highest_spec t :
  tab_ok t -> let v := get_highest_priority_int t in
  largest t v \/ (v = -1 /\ forall w, 0 <= w < 256 -> apic_get_bit t w = false).
Proof.
  intros [Hl Hw]. unfold get_highest_priority_int.
  assert (forall n, (n <= 8)%nat -> let v := highest_loop n t in
    (0 <= v < Z.of_nat n * 32 /\ apic_get_bit t v = true /\ forall w, 0 <= w < Z.of_nat n * 32 -> apic_get_bit t w = true -> w <= v) \/
    (v = -1 /\ forall w, 0 <= w < Z.of_nat n * 32 -> apic_get_bit t w = false)) as H; [|exact (H 8%nat ltac:(lia))].
  induction n as [|n IH]; intros Hn; [right; split; [done|]; intros; lia|]. cbn [highest_loop].
  assert (word_ok (nth n t 0)) as Hn' by (rewrite nth_lookup; destruct (t !! n) eqn:E; [by apply (Forall_lookup_1 _ _ _ _ Hw E)|done]).
  assert (forall w, Z.of_nat n * 32 <= w < Z.of_nat (S n) * 32 -> apic_get_bit t w = Z.testbit (nth n t 0) (w - Z.of_nat n * 32)) as Hb.
  { intros w Hr. rewrite get_bit_spec by lia. assert (w / 32 = Z.of_nat n) as E by (symmetry; apply (Z.div_unique _ _ _ (w - Z.of_nat n * 32)); lia).
    rewrite E, Nat2Z.id. f_equal. rewrite Z.mod_eq by lia. lia. }
  destruct (Z.eqb_spec (nth n t 0) 0) as [E0|Hne].
  - destruct (IH ltac:(lia)) as [(H1 & H2 & H3) | [H1 H2]]; [left; split; [lia|]; split; [done|]|right; split; [done|]].
    + intros w Hr Hg. destruct (Z.lt_ge_cases w (Z.of_nat n * 32)); [apply H3; [lia|done]|]. rewrite Hb, E0, Z.bits_0 in Hg by lia. done.
    + intros w Hr. destruct (Z.lt_ge_cases w (Z.of_nat n * 32)); [apply H2; lia|]. by rewrite Hb, E0, Z.bits_0 by lia.
  - unfold apic_fls_bit. destruct (Z.eqb_spec (nth n t 0) 0); [done|]. set (x := nth n t 0) in *. destruct Hn' as [Hx1 Hx2].
    assert (0 <= Z.log2 x < 32) as Hlg by (split; [apply Z.log2_nonneg|apply Z.log2_lt_pow2; lia]).
    left. split; [lia|]. split; [rewrite Hb by lia; replace (Z.of_nat n * 32 + Z.log2 x - Z.of_nat n * 32) with (Z.log2 x) by lia; apply Z.bit_log2; lia|].
    intros w Hr Hg. destruct (Z.le_gt_cases w (Z.of_nat n * 32 + Z.log2 x)); [done|]. rewrite Hb in Hg by lia.
    rewrite Z.bits_above_log2 in Hg by lia. done.
Qed.

Lemma largest_unique t v w : largest t v -> largest t w -> v = w.
Proof. intros (H1 & H2 & H3) (H4 & H5 & H6). pose proof (H3 w H4 H5). pose proof (H6 v H1 H2). lia. Qed.

(** ** Vectors in service *)

(** The priority class of a vector. *)
Definition cls (v : Z) : Z := v / 16.

(** A table holds the vectors of a stack, of rising class towards the top. *)
Record stack_of (t l : list Z) : Prop := {
  so_tab : tab_ok t;
  so_member : forall v, 0 <= v < 256 -> apic_get_bit t v = true <-> v ∈ l;
  so_legal : Forall (fun v => 16 <= v < 256) l;
  so_rising : StronglySorted (fun v w => cls w < cls v) l
}.

Lemma cls_mono v w : cls w < cls v -> w < v.
Proof. unfold cls. intros H. destruct (Z.lt_ge_cases w v); [done|]. pose proof (Z.div_le_mono v w 16). lia. Qed.

Lemma stack_top t v l : stack_of t (v :: l) -> largest t v.
Proof.
  intros [Ht Hm Hg Hr]. apply Forall_cons in Hg as [Hv _]. apply StronglySorted_inv in Hr as [_ Hr]. rewrite Forall_forall in Hr.
  split; [lia|]. split; [apply Hm; [lia|by left]|]. intros w Hw Hb. apply Hm in Hb; [|done].
  apply elem_of_cons in Hb as [->|Hb]; [lia|]. specialize (Hr w Hb). apply cls_mono in Hr. lia.
Qed.

Lemma highest_top t l : stack_of t l -> get_highest_priority_int t = hd (-1) l.
Proof.
  intros Hs. destruct (highest_spec t (so_tab _ _ Hs)) as [Hl | [-> Hn]]; destruct l as [|v l]; cbn [hd].
  - destruct Hl as (H1 & H2 & _). by apply (so_member _ _ Hs), elem_of_nil in H2.
  - by apply (largest_unique t); [|apply (stack_top t v l)].
  - done.
  - destruct (stack_top t v l Hs) as (H1 & H2 & _). by rewrite Hn in H2.
Qed.

Lemma stack_push t v l : stack_of t l -> 16 <= v < 256 -> Forall (fun w => cls w < cls v) l -> stack_of (apic_set_bit t v) (v :: l).
Proof.
  intros [Ht Hm Hg Hr] Hv Hc. split.
  - apply set_tab_ok; [lia|done].
  - intros w Hw. rewrite set_bit_spec, orb_true_iff, Hm, Z.eqb_eq by (done || apply Ht || lia). rewrite elem_of_cons. split; intros [|]; auto.
  - by constructor.
  - by constructor.
Qed.

Lemma stack_pop t v l : stack_of t (v :: l) -> stack_of (apic_reset_bit t v) l.
Proof.
  intros [Ht Hm Hg Hr]. apply Forall_cons in Hg as [Hv Hg]. apply StronglySorted_inv in Hr as [Hr Hc]. rewrite Forall_forall in Hc. split; try done.
  - by apply reset_tab_ok.
  - intros w Hw. rewrite reset_bit_spec, andb_true_iff, negb_true_iff, Hm, Z.eqb_neq, elem_of_cons by (done || apply Ht || lia). split.
    + intros [[->|] Hn]; done.
    + intros Hi. split; [by right|]. intros ->. specialize (Hc _ Hi). lia.
Qed.

Lemma stack_empty : stack_of (replicate 8 0) [].
Proof.
  split; [split; [done|repeat constructor; done]| |constructor|constructor]. intros v Hv. split; [|by intros ?%elem_of_nil].
  rewrite get_bit_spec by lia. intros H. exfalso. revert H. rewrite nth_lookup. destruct (replicate 8 0 !! _) eqn:E; cbn; [|by rewrite Z.bits_0].
  apply lookup_replicate in E as [-> _]. by rewrite Z.bits_0.
Qed.

(** ** One APIC *)

Record apic_ok (s : APICCommonState) (l : list Z) : Prop := {
  ao_irr : tab_ok (a_irr s);
  ao_tpr : in_range 8 (a_tpr s);
  ao_isr : stack_of (a_isr s) l
}.

Lemma land_f0 v : 0 <= v < 256 -> Z.land v 0xf0 = 16 * cls v.
Proof.
  intros Hv. unfold cls. apply Z.bits_inj'. intros i Hi. change 16 with (2 ^ 4) at 1. rewrite Z.mul_comm, Z.land_spec.
  destruct (Z.lt_ge_cases i 4).
  - rewrite Z.mul_pow2_bits_low by lia. assert (i = 0 \/ i = 1 \/ i = 2 \/ i = 3) as [-> | [-> | [-> | ->]]] by lia; apply andb_false_r.
  - rewrite Z.mul_pow2_bits by lia. change 16 with (2 ^ 4). rewrite Z.div_pow2_bits by lia. replace (i - 4 + 4) with i by lia.
    destruct (Z.lt_ge_cases i 8); [|by rewrite (testbit_high 8) by (lia || done)].
    assert (i = 4 \/ i = 5 \/ i = 6 \/ i = 7) as [-> | [-> | [-> | ->]]] by lia; apply andb_true_r.
Qed.

(** What is accepted comes before everything in service. *)
Lemma pending_spec s l :
  apic_ok s l -> 0 < apic_irq_pending s ->
  let v := apic_irq_pending s in largest (a_irr s) v /\ (16 <= v -> cls (a_tpr s) < cls v) /\ Forall (fun w => cls w < cls v) l.
Proof.
  intros [Hirr Htpr Hisr] Hp. unfold apic_irq_pending in *. destruct (highest_spec _ Hirr) as [Hl | [E _]]; [|by rewrite E in Hp].
  set (v := get_highest_priority_int (a_irr s)) in *. destruct (Z.ltb_spec v 0); [lia|]. unfold apic_get_ppr in *. rewrite (highest_top _ _ Hisr) in *.
  rewrite !(Z.shiftr_div_pow2 _ 4) in * by lia. change (2 ^ 4) with 16 in *. set (x := if hd (-1) l <? 0 then 0 else hd (-1) l) in *.
  set (ppr := if x / 16 <=? a_tpr s / 16 then a_tpr s else Z.shiftl (x / 16) 4) in *. destruct (_ && _) eqn:Ec; [lia|]. split; [done|].
  assert (0 <= x < 256) as Hx.
  { unfold x. pose proof (so_legal _ _ Hisr) as Hg. destruct l as [|y l]; [done|]. cbn [hd]. apply Forall_cons in Hg as [Hy _]. destruct (Z.ltb_spec y 0); lia. }
  assert (0 <= x / 16 < 16) as Hx16 by (split; [apply Z.div_pos; lia|apply Z.div_lt_upper_bound; lia]).
  assert (0 <= ppr < 256 /\ cls x <= cls ppr /\ cls (a_tpr s) <= cls ppr) as (P1 & P2 & P3).
  { unfold ppr, cls. destruct (Z.leb_spec (x / 16) (a_tpr s / 16)); [by split|]. rewrite Z.shiftl_mul_pow2 by lia. change (2 ^ 4) with 16. rewrite Z.div_mul by lia. lia. }
  destruct Hl as (Hv & _). apply andb_false_iff in Ec as [Ec%negb_false_iff%Z.eqb_eq | Ec%Z.leb_gt].
  - rewrite Ec in *. change (cls 0) with 0 in *. assert (0 <= cls (a_tpr s)) by (apply Z.div_pos; lia). split.
    + intros Hge. unfold cls in *. assert (16 / 16 <= v / 16) by (apply Z.div_le_mono; lia). change (16 / 16) with 1 in *. lia.
    + destruct l as [|y l]; [constructor|]. exfalso. pose proof (so_legal _ _ Hisr) as Hg. apply Forall_cons in Hg as [Hy _].
      unfold x in P2. cbn [hd] in P2. destruct (Z.ltb_spec y 0); [lia|]. assert (16 / 16 <= y / 16) by (apply Z.div_le_mono; lia). unfold cls in P2. change (16 / 16) with 1 in *. lia.
  - rewrite !land_f0 in Ec by lia. split; [lia|]. destruct l as [|y l]; [constructor|]. pose proof (so_rising _ _ Hisr) as Hr. apply StronglySorted_inv in Hr as [_ Hr].
    pose proof (so_legal _ _ Hisr) as Hg. apply Forall_cons in Hg as [Hy _]. unfold x in P2. cbn [hd] in P2. destruct (Z.ltb_spec y 0); [lia|].
    constructor; [lia|]. eapply Forall_impl; [exact Hr|]. intros w Hw. cbv beta in Hw. lia.
Qed.

Lemma pending_complete s l v :
  apic_ok s l -> largest (a_irr s) v -> cls (a_tpr s) < cls v -> Forall (fun w => cls w < cls v) l -> apic_irq_pending s = v.
Proof.
  intros [Hirr Htpr Hisr] Hl Ht Hf. unfold apic_irq_pending.
  assert (get_highest_priority_int (a_irr s) = v) as ->.
  { destruct (highest_spec _ Hirr) as [Hl'|[_ Hn]]; [by apply (largest_unique (a_irr s))|]. destruct Hl as (H1 & H2 & _). by rewrite Hn in H2. }
  destruct Hl as (Hv & _). destruct (Z.ltb_spec v 0); [lia|]. unfold apic_get_ppr. rewrite (highest_top _ _ Hisr).
  rewrite !(Z.shiftr_div_pow2 _ 4) by lia. change (2 ^ 4) with 16. set (x := if hd (-1) l <? 0 then 0 else hd (-1) l).
  assert (0 <= cls (a_tpr s)) by (apply Z.div_pos; lia). assert (0 <= x < 256 /\ cls x < cls v) as [Hx Hc].
  { unfold x. pose proof (so_legal _ _ Hisr) as Hg. destruct l as [|y l]; [cbn; split; [done|change (cls 0) with 0; lia]|]. cbn [hd].
    apply Forall_cons in Hg as [Hy _], Hf as [Hf _]. destruct (Z.ltb_spec y 0); [lia|]. by split; [lia|]. }
  destruct (_ && _) eqn:Ec; [|done]. apply andb_true_iff in Ec as [_ Ec%Z.leb_le]. exfalso. revert Ec.
  assert (0 <= x / 16 < 16) by (split; [apply Z.div_pos; lia|apply Z.div_lt_upper_bound; lia]).
  destruct (Z.leb_spec (x / 16) (a_tpr s / 16)); rewrite !land_f0 by (rewrite ?Z.shiftl_mul_pow2; lia); [lia|].
  unfold cls in *. rewrite Z.shiftl_mul_pow2 by done. change (2 ^ 4) with 16. rewrite Z.div_mul by lia. lia.
Qed.

(** ** What leaves the vectors in service alone *)

Definition calm_apic (f : APICCommonState -> APICCommonState) : Prop := forall s l, apic_ok s l -> apic_ok (f s) l.

Lemma calm_same f : (forall s, a_irr (f s) = a_irr s /\ a_tpr (f s) = a_tpr s /\ a_isr (f s) = a_isr s) -> calm_apic f.
Proof. intros H s l []. destruct (H s) as (E1 & E2 & E3). split; by rewrite ?E1, ?E2, ?E3. Qed.

Lemma calm_comp f g : calm_apic f -> calm_apic g -> calm_apic (fun s => g (f s)).
Proof. intros Hf Hg s l Hs. by apply Hg, Hf. Qed.

Section Calm.
Context (self : bool).

Lemma calm_interrupt m : calm_apic (cpu_interrupt m).
Proof. by apply calm_same. Qed.

Lemma calm_update : calm_apic (apic_update_irq self).
Proof. apply calm_same. intros s. unfold apic_update_irq. destruct (negb _); [done|]. destruct (negb self); [done|]. by destruct (0 <? _). Qed.

Lemma calm_set_irq v trig : 0 <= v < 256 -> calm_apic (apic_set_irq self v trig).
Proof. intros Hv s l [H1 H2 H3]. apply calm_update. split; [by apply set_tab_ok|done..]. Qed.

Lemma land_low_byte v : 0 <= Z.land v 0xff < 256.
Proof. change 0xff with (Z.ones 8). rewrite Z.land_ones by lia. by apply Z.mod_pos_bound. Qed.

Lemma calm_local v : calm_apic (apic_local_deliver self v).
Proof.
  intros s l Hs. unfold apic_local_deliver. destruct (has _ APIC_LVT_MASKED); [done|]. repeat (destruct (lvt_mode _ =? _); [try by apply calm_interrupt|]); [|done].
  apply calm_set_irq; [apply land_low_byte|done].
Qed.

Lemma calm_pic_intr level : calm_apic (apic_deliver_pic_intr self level).
Proof.
  intros s l Hs. unfold apic_deliver_pic_intr. destruct level; [by apply calm_local|]. destruct (lvt_mode _ =? _).
  - destruct (has _ _); [|done]. destruct Hs. split; [by apply reset_tab_ok|done..].
  - by destruct (lvt_mode _ =? _); destruct Hs.
Qed.

Lemma calm_apic_if (c : APICCommonState -> bool) f g : calm_apic f -> calm_apic g -> calm_apic (fun s => if c s then f s else g s).
Proof. intros Hf Hg s l Hs. destruct (c s); [by apply Hf|by apply Hg]. Qed.

Lemma calm_timer_update now : calm_apic (apic_timer_update now).
Proof. apply calm_same. intros s. unfold apic_timer_update, apic_next_timer. destruct (has _ _); [done|]. destruct (has _ _); by destruct (_ : bool). Qed.

Lemma calm_check_pic output : calm_apic (fun s => (apic_check_pic self output s).2).
Proof. intros s l Hs. unfold apic_check_pic. destruct (_ && _); [by apply calm_pic_intr|done]. Qed.

Lemma calm_write_lvt now output n val : calm_apic (write_lvt self now output n val).
Proof.
  intros s l Hs. unfold write_lvt. assert (apic_ok (with_a_lvt (<[n:=val]> (a_lvt s)) s) l) as Hs' by (by destruct Hs).
  destruct (n =? _)%nat; [by apply calm_timer_update|]. destruct (n =? _)%nat; [|done].
  pose proof (calm_check_pic output _ _ Hs') as Hc. cbv beta in Hc. destruct (apic_check_pic _ _ _) as [sent s']. cbn [snd] in Hc. destruct sent; [by apply calm_update|done].
Qed.

(** ** Buses and boards *)

Definition bus_ok (b : bus) (ls : list (list Z)) : Prop := Forall2 apic_ok b ls.
Definition calm_bus (f : bus -> bus) : Prop := forall b ls, bus_ok b ls -> bus_ok (f b) ls.
Definition calm_board (f : board -> board) : Prop := forall b ls, bus_ok (b_apics b) ls -> bus_ok (b_apics (f b)) ls.

Lemma calm_alter f i : calm_apic f -> calm_bus (alter f i).
Proof.
  intros Hf b ls. unfold bus_ok. revert i ls. induction b as [|s b IH]; intros i ls Hb; [by destruct i|].
  apply Forall2_cons_inv_l in Hb as (l & ls' & Hs & Hb & ->). destruct i; cbn; constructor; auto.
Qed.

Lemma calm_foreach mask f : calm_apic f -> calm_bus (foreach_apic mask f).
Proof.
  intros Hf b ls Hb. unfold foreach_apic. assert (forall g, (forall i : nat, calm_apic (g i)) -> Forall2 apic_ok (imap g b) ls) as H.
  { unfold bus_ok in Hb. induction Hb as [|s l b ls Hs Hb IH]; intros g Hg; [constructor|]. rewrite imap_cons. constructor; [by apply Hg|].
    apply IH. intros i. apply Hg. }
  apply H. intros i s l Hs. destruct (apic_get_bit _ _); [by apply Hf|done].
Qed.

Lemma calm_map f : calm_apic f -> calm_bus (fmap f).
Proof. intros Hf b ls Hb. unfold bus_ok. rewrite Forall2_fmap_l. eapply Forall2_impl; [exact Hb|]. intros s l. apply Hf. Qed.

Lemma calm_bus_deliver mask mode v trig : 0 <= v < 256 -> calm_bus (apic_bus_deliver self mask mode v trig).
Proof.
  intros Hv b ls Hb. unfold apic_bus_deliver.
  destruct (_ =? _); [destruct (first_bit 0 mask); [apply calm_alter; [by apply calm_set_irq|done]|done]|].
  repeat (destruct (mode =? _); [apply calm_foreach; [apply calm_interrupt|done]|]).
  destruct (_ || _); [apply calm_foreach; [by apply calm_set_irq|done]|done].
Qed.

Lemma calm_deliver_irq dest dm mode v trig : 0 <= v < 256 -> calm_bus (apic_deliver_irq self dest dm mode v trig).
Proof. intros Hv b ls Hb. by apply calm_bus_deliver. Qed.
Lemma calm_on_apics f : calm_bus f -> calm_board (on_apics f).
Proof. intros Hf b ls. apply Hf. Qed.

Lemma calm_on_apic i f : calm_apic f -> calm_board (on_apic i f).
Proof. intros Hf. by apply calm_on_apics, calm_alter. Qed.

Lemma calm_on_ioapic f : calm_board (on_ioapic f).
Proof. by intros b ls. Qed.

Lemma calm_request level : calm_board (pic_irq_request self level).
Proof. apply calm_on_apics, calm_map, calm_apic_if; [apply calm_pic_intr|by apply calm_same]. Qed.

Lemma calm_with_pics {A} (f : pics -> A * pics) : calm_board (fun b => (with_pics self f b).2).
Proof.
  intros b ls Hb. unfold with_pics. destruct (f (b_pics b)) as [x p]. cbn [snd]. induction (take _ _) as [|level l IH]; [done|]. by apply calm_request.
Qed.

Lemma calm_fold (f : nat -> board -> board) ns : (forall i, calm_board (f i)) -> calm_board (fun b => foldl (fun b i => f i b) b ns).
Proof. intros Hf. induction ns as [|n ns IH]; intros b ls Hb; [done|]. cbn [foldl]. by apply IH, Hf. Qed.

Lemma calm_service_pin i : calm_board (service_pin self i).
Proof.
  intros b ls Hb. unfold service_pin. destruct (_ && _); [|done]. set (b1 := if _ =? 0 then _ else _).
  assert (bus_ok (b_apics b1) ls) as H1 by (unfold b1; by destruct (_ =? 0)). clearbody b1. destruct (_ =? APIC_DM_EXTINT).
  - pose proof (calm_with_pics pic_read_irq b1 ls H1) as H2. cbv beta in H2. destruct (with_pics _ _ _) as [v b2]. cbn [snd] in H2.
    apply calm_on_apics; [|done]. apply calm_deliver_irq. by apply Z.mod_pos_bound.
  - apply calm_on_apics; [|done]. apply calm_deliver_irq. by apply Z.mod_pos_bound.
Qed.

Lemma calm_service : calm_board (ioapic_service self).
Proof. apply calm_fold. apply calm_service_pin. Qed.

Lemma calm_ioapic_set_irq v level : calm_board (ioapic_set_irq self v level).
Proof.
  intros b ls Hb. unfold ioapic_set_irq. destruct (_ && _); [|done]. destruct (_ =? 1); [destruct (if has _ _ then _ else _)|destruct (_ && _)]; try done; by apply calm_service.
Qed.

Lemma calm_eoi_broadcast v : calm_board (ioapic_eoi_broadcast self v).
Proof.
  apply calm_fold. intros n b ls Hb. unfold eoi_pin. destruct (_ && _); [|done]. destruct (_ && _); [by apply calm_service|done].
Qed.

Lemma calm_ioapic_write addr val size : calm_board (ioapic_mem_write self addr val size).
Proof.
  intros b ls Hb. unfold ioapic_mem_write. destruct (_ =? 0x00); [done|]. destruct (_ && _); [|done]. destruct (_ =? 0); [done|]. destruct (_ || _); [done|].
  destruct (_ && _); [by apply calm_service|done].
Qed.

Lemma calm_gsi n level : calm_board (gsi_handler self n level).
Proof.
  intros b ls Hb. unfold gsi_handler. apply calm_ioapic_set_irq. destruct (n <? 16); [|done]. by apply (calm_with_pics (fun p => (tt, irq_set n level p))).
Qed.

(** Every write of a register but the end of an interrupt. *)
Lemma calm_apic_write now i addr val :
  (0xfff <? addr) || negb (Z.land (Z.shiftr addr 4) 0xff =? 0x0b) = true -> calm_board (apic_mem_writel self now i addr val).
Proof.
  intros Hn b ls Hb. unfold apic_mem_writel. destruct (0xfff <? addr) eqn:E1; [cbn [orb]; apply calm_on_apics; [|done]; apply calm_deliver_irq, land_low_byte|].
  cbn [orb] in *. apply negb_true_iff in Hn. destruct (_ =? 0); [apply calm_on_apics; [|done]; apply calm_deliver_irq, land_low_byte|].
  destruct (_ =? 0x02); [apply calm_on_apic; [by apply calm_same|done]|].
  destruct (_ =? 0x08); [apply calm_on_apic; [|done]; intros s l []; apply calm_update; split; [done|by apply Z.mod_pos_bound|done]|]. rewrite Hn.
  destruct (_ =? 0x0d); [apply calm_on_apic; [by apply calm_same|done]|]. destruct (_ =? 0x0e); [apply calm_on_apic; [by apply calm_same|done]|].
  destruct (_ =? 0x0f); [apply calm_on_apic; [|done]; intros s l []; by apply calm_update|].
  destruct (_ =? 0x30).
  { set (b1 := on_apic i _ b). assert (bus_ok (b_apics b1) ls) as H1 by (apply calm_on_apic; [by apply calm_same|done]). apply calm_on_apics; [|done].
    intros c cs Hc. unfold apic_deliver. destruct (_ && _); [apply calm_foreach; [by apply calm_same|done]|].
    destruct (_ =? APIC_DM_SIPI); [apply calm_foreach; [by apply calm_same|done]|]. apply calm_bus_deliver; [apply land_low_byte|done]. }
  destruct (_ =? 0x31); [apply calm_on_apic; [by apply calm_same|done]|]. destruct (_ && _); [apply calm_on_apic; [apply calm_write_lvt|done]|].
  destruct (_ =? 0x38); [apply calm_on_apic; [|done]; intros s l []; by apply calm_timer_update|].
  destruct (_ =? 0x3e); [apply calm_on_apic; [by apply calm_same|done]|]. destruct (_ || _); [done|]. apply calm_on_apic; [by apply calm_same|done].
Qed.
End Calm.

(** ** Runs *)

(** The 8259s may do anything; the clock is that of the timers. *)
Inductive board_op : Type :=
| Gsi (n : Z) (level : bool)
| PicOp (f : pics -> pics)
| IoapicWrite (addr val size : Z)
| ApicWrite (now : Z) (i : nat) (addr val : Z)
| ApicRead (now : Z) (i : nat) (addr : Z)
| TimerExpires (i : nat)
| SetTpr (i : nat) (val : Z)
| SetBase (i : nat) (val : Z)
| ApicInit (i : nat)
| GetInterrupt (i : nat).

Definition run_board (self : bool) (op : board_op) (b : board) : board :=
  match op with
  | Gsi n level => gsi_handler self n level b
  | PicOp f => (with_pics self (fun p => (tt, f p)) b).2
  | IoapicWrite addr val size => ioapic_mem_write self addr val size b
  | ApicWrite now i addr val => apic_mem_writel self now i addr val b
  | ApicRead now i addr => on_apic i (fun s => (apic_mem_readl now addr s).2) b
  | TimerExpires i => on_apic i (apic_timer self) b
  | SetTpr i val => on_apic i (apic_set_tpr self val) b
  | SetBase i val => on_apic i (apic_set_base val) b
  | ApicInit i => on_apic i apic_init_reset b
  | GetInterrupt i => (cpu_get_pic_interrupt self i b).2
  end.

(** The vector that the local APIC would give to its CPU. *)
Definition next_vector (b : board) (i : nat) : option Z :=
  match b_apics b !! i with
  | Some s => if has (a_spurious_vec s) APIC_SV_ENABLE && (0 <? apic_irq_pending s) then Some (apic_irq_pending s) else None
  | None => None
  end.

(** The effect on the stacks of vectors in service. *)
Definition effect (op : board_op) (b : board) (ls : list (list Z)) : list (list Z) :=
  match op with
  | GetInterrupt i => match next_vector b i with Some v => alter (cons v) i ls | None => ls end
  | ApicWrite _ i addr _ => if (addr <=? 0xfff) && (Z.land (Z.shiftr addr 4) 0xff =? 0x0b) then alter (@tail Z) i ls else ls
  | ApicInit i => alter (fun _ => []) i ls
  | _ => ls
  end.

(** Vectors below 16 are reserved. *)
Inductive board_step : board * list (list Z) -> board * list (list Z) -> Prop :=
| board_does self op b ls :
    (forall i v, op = GetInterrupt i -> next_vector b i = Some v -> 16 <= v) ->
    board_step (b, ls) (run_board self op b, effect op b ls).

Lemma bus_alter (f : APICCommonState -> APICCommonState) (h : list Z -> list Z) i b ls :
  bus_ok b ls -> (forall s l, b !! i = Some s -> ls !! i = Some l -> apic_ok s l -> apic_ok (f s) (h l)) -> bus_ok (alter f i b) (alter h i ls).
Proof.
  intros Hb Hf. unfold bus_ok in *. apply Forall2_same_length_lookup. pose proof (Forall2_length _ _ _ Hb) as Hlen.
  split; [rewrite !length_alter; exact Hlen|]. intros j x y Hx Hy. destruct (decide (i = j)) as [<-|Hn].
  - rewrite list_lookup_alter_eq in Hx. rewrite list_lookup_alter_eq in Hy. apply fmap_Some in Hx as (s & Hs & ->), Hy as (l & Hl & ->).
    apply Hf; [done|done|]. by apply (Forall2_lookup_lr _ _ _ _ _ _ Hb Hs Hl).
  - rewrite list_lookup_alter_ne in Hx by done. rewrite list_lookup_alter_ne in Hy by done. by apply (Forall2_lookup_lr _ _ _ _ _ _ Hb Hx Hy).
Qed.

Lemma alter_none {A} (f : A -> A) i (l : list A) : l !! i = None -> alter f i l = l.
Proof. revert i. induction l as [|x l IH]; intros [|i] H; cbn in *; try done. f_equal. by apply IH. Qed.

Lemma bus_lookup b ls i s : bus_ok b ls -> b !! i = Some s -> exists l, ls !! i = Some l /\ apic_ok s l.
Proof. intros Hb Hs. destruct (Forall2_lookup_l _ _ _ _ _ Hb Hs) as (l & Hl & Ho). by exists l. Qed.

(** An end of interrupt pops the vector on top. *)
Lemma eoi_pops self i b ls : bus_ok (b_apics b) ls -> bus_ok (b_apics (apic_eoi self i b)) (alter (@tail Z) i ls).
Proof.
  intros Hb. unfold apic_eoi. destruct (b_apics b !! i) as [s|] eqn:E.
  2:{ rewrite alter_none; [done|]. apply lookup_ge_None. apply lookup_ge_None in E. by rewrite <-(Forall2_length _ _ _ Hb). }
  destruct (bus_lookup _ _ _ _ Hb E) as (l & Hl & Hs). rewrite (highest_top _ _ (ao_isr _ _ Hs)).
  destruct l as [|v l]; cbn [hd].
  { change (-1 <? 0) with true. cbv iota. replace (alter (@tail Z) i ls) with ls; [done|]. apply list_eq. intros j.
    destruct (decide (i = j)) as [<-|Hn]; [by rewrite list_lookup_alter_eq, Hl|by rewrite list_lookup_alter_ne]. }
  pose proof (so_legal _ _ (ao_isr _ _ Hs)) as Hg. apply Forall_cons in Hg as [Hv _]. destruct (Z.ltb_spec v 0); [lia|].
  apply calm_on_apic; [apply calm_update|]. assert (bus_ok (b_apics (on_apic i (with_a_isr (apic_reset_bit (a_isr s) v)) b)) (alter (@tail Z) i ls)) as H1.
  { apply bus_alter; [done|]. intros s' l' Hs' Hl' Ho. rewrite Hl in Hl'. injection Hl' as <-. rewrite E in Hs'. injection Hs' as <-.
    destruct Ho as [O1 O2 O3]. split; [done|done|]. by apply stack_pop. }
  destruct (_ && _); [by apply calm_eoi_broadcast|done].
Qed.

(** Taking a vector pushes it. *)
Lemma accept_pushes self output s l :
  apic_ok s l -> (has (a_spurious_vec s) APIC_SV_ENABLE = true -> 0 < apic_irq_pending s -> 16 <= apic_irq_pending s) ->
  let taken := has (a_spurious_vec s) APIC_SV_ENABLE && (0 <? apic_irq_pending s) in
  let r := apic_get_interrupt self output s in
  apic_ok r.2 (if taken then apic_irq_pending s :: l else l) /\ (taken = true -> r.1 = apic_irq_pending s).
Proof.
  intros Hs Hlegal taken r. unfold taken, r, apic_get_interrupt. destruct (has (a_spurious_vec s) APIC_SV_ENABLE) eqn:Ee; [|done]. cbn [negb andb].
  destruct (Z.eqb_spec (apic_irq_pending s) 0) as [E0|Hn]; [by rewrite E0|]. destruct (Z.ltb_spec (apic_irq_pending s) 0) as [Hlt|Hge].
  { destruct (Z.ltb_spec 0 (apic_irq_pending s)); [lia|]. done. }
  assert (0 < apic_irq_pending s) as Hp by lia. destruct (Z.ltb_spec 0 (apic_irq_pending s)); [|lia]. cbn [fst snd].
  destruct (pending_spec s l Hs Hp) as ((H1 & _) & _ & H3). specialize (Hlegal eq_refl Hp).
  set (v := apic_irq_pending s) in *. split; [|done]. apply calm_update, calm_check_pic. destruct Hs as [O1 O2 O3]. split; [by apply reset_tab_ok|done|].
  apply stack_push; [done|lia|done].
Qed.

Lemma calm_read now addr : calm_apic (fun s => (apic_mem_readl now addr s).2).
Proof. apply calm_same. intros s. unfold apic_mem_readl. repeat (destruct (_ : bool); [done|]). done. Qed.

Lemma alter_same {A} (f : A -> A) i (l : list A) : (forall x, l !! i = Some x -> f x = x) -> alter f i l = l.
Proof.
  intros Hf. apply list_eq. intros j. destruct (decide (i = j)) as [<-|Hn]; [|by rewrite list_lookup_alter_ne].
  rewrite list_lookup_alter_eq. destruct (l !! i) as [x|] eqn:E; [|done]. cbn. by rewrite Hf.
Qed.

Lemma get_interrupt_ok self i b ls :
  bus_ok (b_apics b) ls -> (forall v, next_vector b i = Some v -> 16 <= v) ->
  bus_ok (b_apics (cpu_get_pic_interrupt self i b).2) (effect (GetInterrupt i) b ls) /\
  (forall v, next_vector b i = Some v -> (cpu_get_pic_interrupt self i b).1 = v).
Proof.
  intros Hb Hlegal. unfold cpu_get_pic_interrupt, effect. unfold next_vector in *. destruct (b_apics b !! i) as [s|] eqn:E; [|done].
  destruct (bus_lookup _ _ _ _ Hb E) as (l & Hl & Hs). destruct (accept_pushes self (pic_get_output (b_pics b)) s l Hs) as [H1 H2].
  { intros He Hp. apply Hlegal. rewrite He. destruct (Z.ltb_spec 0 (apic_irq_pending s)); [done|lia]. }
  destruct (apic_get_interrupt self (pic_get_output (b_pics b)) s) as [intno s']. cbn [fst snd] in H1, H2.
  set (taken := has (a_spurious_vec s) APIC_SV_ENABLE && (0 <? apic_irq_pending s)) in *.
  assert (bus_ok (b_apics (on_apic i (fun _ => s') b)) (match (if taken then Some (apic_irq_pending s) else None) with Some v => alter (cons v) i ls | None => ls end)) as H3.
  { destruct taken.
    - apply bus_alter; [done|]. intros s0 l0 Hs0 Hl0 _. rewrite Hl in Hl0. by injection Hl0 as <-.
    - rewrite <-(alter_same (fun l => l) i ls) by done. apply bus_alter; [done|]. intros s0 l0 Hs0 Hl0 _. rewrite Hl in Hl0. by injection Hl0 as <-. }
  assert (taken = true -> 0 <= intno) as Hpos.
  { intros Ht. rewrite (H2 Ht). unfold taken in Ht. apply andb_true_iff in Ht as [_ Ht%Z.ltb_lt]. lia. }
  destruct (Z.leb_spec 0 intno).
  - split; [done|]. destruct taken; [|done]. intros v [= <-]. by apply H2.
  - destruct taken; [exfalso; specialize (Hpos eq_refl); lia|]. destruct (negb _); [done|]. split; [|done]. by apply (calm_with_pics self pic_read_irq).
Qed.

Lemma board_run_ok self op b ls :
  bus_ok (b_apics b) ls -> (forall i v, op = GetInterrupt i -> next_vector b i = Some v -> 16 <= v) ->
  bus_ok (b_apics (run_board self op b)) (effect op b ls).
Proof.
  intros Hb Hlegal. destruct op as [n level|f|addr val size|now i addr val|now i addr|i|i val|i val|i|i]; cbn [run_board effect].
  - by apply calm_gsi.
  - by apply (calm_with_pics self (fun p => (tt, f p))).
  - by apply calm_ioapic_write.
  - destruct (Z.leb_spec addr 0xfff); cbn [andb]; [|apply calm_apic_write; [by rewrite (proj2 (Z.ltb_lt 0xfff addr)) by lia|done]].
    destruct (Z.land (Z.shiftr addr 4) 0xff =? 0x0b) eqn:E; [|apply calm_apic_write; [rewrite E; apply orb_true_r|done]].
    unfold apic_mem_writel. rewrite (proj2 (Z.ltb_ge 0xfff addr)) by done. apply Z.eqb_eq in E. rewrite E. by apply eoi_pops.
  - apply calm_on_apic; [apply calm_read|done].
  - apply calm_on_apic; [|done]. intros s l Hs. by apply calm_timer_update, calm_local.
  - apply calm_on_apic; [|done]. intros s l []. apply calm_update. split; [done|by apply Z.mod_pos_bound|done].
  - apply calm_on_apic; [|done]. apply calm_same. intros s. unfold apic_set_base. by destruct (has val _).
  - apply bus_alter; [done|]. intros s l _ _ _. split; [apply stack_empty|done|apply stack_empty].
  - apply get_interrupt_ok; [done|]. intros v Hv. by apply (Hlegal i).
Qed.

(** C13: the vectors in service of each local APIC are a stack. Whatever devices, the
    8259s, the I/O APIC, inter-processor interrupts, timers and register accesses do
    from reset on, a CPU that asks for an interrupt is given the highest requested
    vector if, and only if, its priority class is above that of the task priority and of
    every vector in service, which it is pushed onto; an end of interrupt ends the
    vector accepted last. *)
Theorem in_service_stack apics io p b ls :
  rtc board_step (mkBoard (apic_reset_common <$> apics) io p, (fun _ => []) <$> apics) (b, ls) ->
  Forall2 (fun s l => stack_of (a_isr s) l) (b_apics b) ls /\
  (forall i v l, next_vector b i = Some v -> ls !! i = Some l -> 16 <= v ->
    (forall self, (cpu_get_pic_interrupt self i b).1 = v) /\
    exists s, b_apics b !! i = Some s /\ largest (a_irr s) v /\ cls (a_tpr s) < cls v /\ Forall (fun w => cls w < cls v) l) /\
  forall i s l v, b_apics b !! i = Some s -> ls !! i = Some l -> has (a_spurious_vec s) APIC_SV_ENABLE = true -> 16 <= v ->
    largest (a_irr s) v -> cls (a_tpr s) < cls v -> Forall (fun w => cls w < cls v) l -> next_vector b i = Some v.
Proof.
  intros H. assert (bus_ok (b_apics b) ls) as Hb.
  { change (bus_ok (b_apics (b, ls).1) (b, ls).2). revert H. generalize (b, ls). intros x Hx.
    refine (rtc_ind_r (R := board_step) (fun x => bus_ok (b_apics x.1) x.2) _ _ _ x Hx).
    - cbn [fst snd b_apics]. apply Forall2_fmap, Forall2_same_length_lookup. split; [done|]. intros i s1 s2 H1 H2.
      unfold apic_reset_common. destruct (cpu_is_bsp s1); (split; [apply stack_empty|done|apply stack_empty]).
    - intros y z _ [self op c ls' Hlegal] Hy. by apply board_run_ok. }
  split; [eapply Forall2_impl; [exact Hb|]; by intros s l []|]. split; [intros i v l Hv Hl H16; split|].
  - intros self. apply (get_interrupt_ok self i b ls Hb); [|done]. intros w Hw. congruence.
  - unfold next_vector in Hv. destruct (b_apics b !! i) as [s|] eqn:E; [|done]. exists s. split; [done|].
    destruct (bus_lookup _ _ _ _ Hb E) as (l' & Hl' & Hs). rewrite Hl in Hl'. injection Hl' as <-.
    destruct (_ && _) eqn:Et; [|done]. injection Hv as <-. apply andb_true_iff in Et as [_ Et%Z.ltb_lt].
    destruct (pending_spec s l Hs Et) as (H1 & H2 & H3). auto.
  - intros i s l v Hi Hl He H16 Hv Ht Hf. unfold next_vector. rewrite Hi, He. rewrite (pending_complete s l v (Forall2_lookup_lr _ _ _ _ _ _ Hb Hi Hl) Hv Ht Hf).
    by destruct (Z.ltb_spec 0 v); [|lia].
Qed.

(** An APIC is enabled and sent vector 0x31 by a device. *)
Definition one_apic : APICCommonState :=
  mkApic 0 0 0 0 0 0 0 (replicate 8 0) (replicate 8 0) (replicate 8 0) (replicate 6 0) 0 [0; 0] 0 0 0 0 0 (-1) 0 false 0 None true.
Definition first_board : board := mkBoard (apic_reset_common <$> [one_apic]) (mkIoapic 0 0 0 []) i8259_init.
Definition enabled_board : board := run_board true (ApicWrite 0 0 0xf0 0x1ff) first_board.
Definition woken_board : board := run_board true (ApicWrite 0 0 0xfee00000 0x31) enabled_board.

Lemma woken_run : rtc board_step (first_board, [[]]) (woken_board, [[]]).
Proof.
  apply (rtc_l _ _ (enabled_board, [[]])); [by apply (board_does true (ApicWrite 0 0 0xf0 0x1ff) first_board [[]])|].
  apply rtc_once. by apply (board_does true (ApicWrite 0 0 0xfee00000 0x31) enabled_board [[]]).
Qed.

Lemma in_service_stack_witness :
  next_vector woken_board 0 = Some 0x31 /\ (forall self, (cpu_get_pic_interrupt self 0 woken_board).1 = 0x31).
Proof.
  assert (next_vector woken_board 0 = Some 0x31) as Hn by reflexivity. split; [done|].
  destruct (in_service_stack [one_apic] (mkIoapic 0 0 0 []) i8259_init woken_board [[]] woken_run) as (_ & H & _).
  exact (proj1 (H 0%nat 0x31 [] Hn eq_refl ltac:(lia))).
Defined.

(** ** Destinations *)

Lemma all_bits i : 0 <= i < 256 -> apic_get_bit all_apics i = true.
Proof.
  intros Hi. destruct (vector_word i Hi) as [H1 H2]. rewrite get_bit_spec by lia. unfold all_apics. rewrite nth_lookup, lookup_replicate_2 by done. cbn.
  change 0xffffffff with (Z.ones 32). by rewrite Z.ones_spec_low by lia.
Qed.

Lemma no_bits i : 0 <= i -> apic_get_bit no_apics i = false.
Proof.
  intros Hi. rewrite get_bit_spec by lia. unfold no_apics. rewrite nth_lookup. destruct (_ !! _) as [x|] eqn:E; cbn; [|apply Z.bits_0].
  apply lookup_replicate in E as [-> _]. apply Z.bits_0.
Qed.

Lemma logical_bits k dest b mask i :
  length mask = 8%nat -> (k + length b <= 256)%nat -> 0 <= i < 256 ->
  apic_get_bit (logical_loop k dest b mask) i =
  apic_get_bit mask i || ((Z.of_nat k <=? i) && match b !! (Z.to_nat i - k)%nat with Some s => logical_match dest s | None => false end).
Proof.
  revert k mask. induction b as [|s b IH]; intros k mask Hm Hl Hi; cbn [logical_loop].
  { by rewrite lookup_nil, andb_false_r, orb_false_r. }
  cbn [length] in Hl. rewrite IH; [|destruct (logical_match dest s); unfold apic_set_bit; rewrite ?length_alter; done|lia|done].
  assert (apic_get_bit (if logical_match dest s then apic_set_bit mask (Z.of_nat k) else mask) i = apic_get_bit mask i || (logical_match dest s && (Z.of_nat k =? i))) as ->.
  { destruct (logical_match dest s); [by rewrite set_bit_spec by (done || lia)|by rewrite orb_false_r]. }
  rewrite <-orb_assoc. f_equal. destruct (Z.eqb_spec (Z.of_nat k) i) as [<-|Hn].
  - rewrite Nat2Z.id, Nat.sub_diag, Z.leb_refl. cbn. destruct (Z.leb_spec (Z.of_nat (S k)) (Z.of_nat k)); [lia|]. by rewrite andb_true_r, orb_false_r.
  - rewrite andb_false_r. cbn [orb]. destruct (Z.leb_spec (Z.of_nat k) i), (Z.leb_spec (Z.of_nat (S k)) i); try lia; try done.
    cbn [andb]. by replace (Z.to_nat i - k)%nat with (S (Z.to_nat i - S k)) by lia.
Qed.

(** The CPUs an interrupt is addressed to: in logical mode those that share a bit with the destination, in the
    cluster model one of the four low bits, within the cluster named by the four high bits. *)
Definition shares (n : nat) (x y : Z) : bool := existsb (fun i => Z.testbit x (Z.of_nat i) && Z.testbit y (Z.of_nat i)) (seq 0 n).
Definition addressed (dest dest_mode : Z) (s : APICCommonState) : bool :=
  if dest_mode =? 0 then (dest =? 0xff) || (a_id s =? dest)
  else if a_dest_mode s =? 0xf then shares 8 dest (a_log_dest s)
  else (a_dest_mode s =? 0) && ((dest / 16) mod 16 =? (a_log_dest s / 16) mod 16) && shares 4 dest (a_log_dest s).

Lemma shares_land n x y m :
  0 <= m < 2 ^ Z.of_nat n -> (forall i, 0 <= i < Z.of_nat n -> Z.testbit m i = Z.testbit x i && Z.testbit y i) -> shares n x y = negb (m =? 0).
Proof.
  intros Hm Hb. apply eq_bool_prop_intro. unfold shares. rewrite !Is_true_true, existsb_exists, negb_true_iff, Z.eqb_neq. split.
  - intros (i & Hi & Ht) ->. apply in_seq in Hi. rewrite <-Hb, Z.bits_0 in Ht by lia. done.
  - intros Hn. pose proof (Z.bit_log2 m ltac:(lia)) as Ht. assert (0 <= Z.log2 m < Z.of_nat n) as Hl by (split; [apply Z.log2_nonneg|apply Z.log2_lt_pow2; lia]).
    exists (Z.to_nat (Z.log2 m)). rewrite Z2Nat.id, in_seq by lia. split; [lia|]. by rewrite <-Hb, Ht by lia.
Qed.

Lemma land_f x : Z.land x 0xf = x mod 16.
Proof. exact (Z.land_ones x 4 ltac:(lia)). Qed.

Lemma high_nibble x : Z.land x 0xf0 = Z.shiftl ((x / 16) mod 16) 4.
Proof.
  rewrite <-land_f. change 0xf0 with (Z.shiftl 0xf 4). change 16 with (2 ^ 4). rewrite <-Z.shiftr_div_pow2 by done.
  apply Z.bits_inj'. intros i Hi. rewrite Z.land_spec, !Z.shiftl_spec by done. destruct (Z.lt_ge_cases i 4).
  - by rewrite (Z.testbit_neg_r 0xf (i - 4)), (Z.testbit_neg_r (Z.land _ _) (i - 4)), andb_false_r by lia.
  - rewrite Z.land_spec, Z.shiftr_spec by lia. by replace (i - 4 + 4) with i by lia.
Qed.

Lemma logical_addressed dest s : 0 <= dest < 256 -> logical_match dest s = addressed dest 1 s.
Proof.
  intros Hd. unfold logical_match, addressed. change (1 =? 0) with false. cbv iota. destruct (a_dest_mode s =? 0xf).
  - unfold has. rewrite (shares_land 8 _ _ (Z.land dest (a_log_dest s))); [done| |intros i Hi; apply Z.land_spec].
    by apply range_land_l.
  - destruct (a_dest_mode s =? 0); [|done]. cbn [andb]. rewrite !high_nibble. f_equal.
    + destruct (Z.eqb_spec (Z.shiftl ((dest / 16) mod 16) 4) (Z.shiftl ((a_log_dest s / 16) mod 16) 4)) as [E|E], (Z.eqb_spec ((dest / 16) mod 16) ((a_log_dest s / 16) mod 16)) as [E'|E']; try done.
      * rewrite !Z.shiftl_mul_pow2 in E by done. lia.
      * by rewrite E' in E.
    + symmetry. apply shares_land; [by apply (range_land 4)|]. intros i Hi. rewrite !Z.land_spec. change 0x0f with (Z.ones 4).
      by rewrite Z.ones_spec_low, andb_true_r by lia.
Qed.

Lemma find_dest_spec dest b i s :
  NoDup (a_id <$> b) -> 0 <= dest -> b !! i = Some s ->
  a_id s = dest <-> apic_find_dest dest b = Some i.
Proof.
  intros Hd Hdest Hi. assert (forall j s', b !! j = Some s' -> a_id s' = a_id s -> j = i) as Hu.
  { intros j s' Hj He. apply (NoDup_lookup (a_id <$> b) j i (a_id s)); [done|by rewrite list_lookup_fmap, Hj, <-He|by rewrite list_lookup_fmap, Hi]. }
  unfold apic_find_dest. assert (a_id s = dest <-> fst <$> list_find (fun s => a_id s = dest) b = Some i) as Hf.
  { split.
    - intros <-. destruct (list_find (fun s' => a_id s' = a_id s) b) as [[j s']|] eqn:E; cbn.
      + apply list_find_Some in E as (E1 & E2 & _). f_equal. by apply (Hu j s').
      + apply list_find_None in E. rewrite Forall_forall in E. exfalso. apply (E s); [|done]. apply list_elem_of_lookup. by exists i.
    - intros (p & E & ->)%fmap_Some. destruct p as [j s']. apply list_find_Some in E as (E1 & E2 & _). cbn in Hi. rewrite E1 in Hi. by injection Hi as ->. }
  destruct (b !! Z.to_nat dest) as [s'|] eqn:E; [|done]. destruct (Z.eqb_spec (a_id s') dest) as [E'|]; [|done]. split.
  - intros <-. f_equal. apply (Hu _ s'); [done|congruence].
  - intros [= <-]. rewrite E in Hi. by injection Hi as ->.
Qed.

Lemma find_dest_lt dest b j : apic_find_dest dest b = Some j -> (j < length b)%nat.
Proof.
  unfold apic_find_dest. destruct (b !! Z.to_nat dest) as [s'|] eqn:E'; [destruct (_ =? _); [intros [= <-]; by apply lookup_lt_Some in E'|]|];
    intros (q & Eq & ->)%fmap_Some; destruct q as [k x]; apply list_find_Some in Eq as (Eq & _); by apply lookup_lt_Some in Eq.
Qed.

Lemma delivery_bits dest dest_mode b i s :
  NoDup (a_id <$> b) -> (length b <= MAX_APICS)%nat -> 0 <= dest < 256 -> b !! i = Some s ->
  apic_get_bit (apic_get_delivery_bitmask dest dest_mode b) (Z.of_nat i) = addressed dest dest_mode s.
Proof.
  intros Hd Hl Hdest Hi. pose proof (lookup_lt_Some _ _ _ Hi) as Hlt. unfold MAX_APICS in *. assert (0 <= Z.of_nat i < 256) as Hr by lia.
  unfold apic_get_delivery_bitmask. destruct (Z.eqb_spec dest_mode 0) as [->|Hm].
  - unfold addressed. cbn [Z.eqb]. destruct (dest =? 0xff); [by apply all_bits|]. cbn [orb]. pose proof (find_dest_spec dest b i s Hd (proj1 Hdest) Hi) as Hf.
    destruct (apic_find_dest dest b) as [j|] eqn:E.
    + pose proof (find_dest_lt _ _ _ E) as Hj.
      rewrite set_bit_spec, no_bits by (done || lia). cbn [orb]. destruct (Z.eqb_spec (a_id s) dest) as [He|He], (Z.eqb_spec (Z.of_nat j) (Z.of_nat i)) as [Ej|Ej]; try done.
      * apply Hf in He. injection He as ->. done.
      * exfalso. apply He, Hf. f_equal. lia.
    + rewrite no_bits by lia. destruct (Z.eqb_spec (a_id s) dest) as [He|]; [|done]. apply Hf in He. done.
  - rewrite logical_bits by (done || cbn; lia). rewrite no_bits by lia. cbn [orb]. rewrite Nat2Z.id, Nat.sub_0_r, Hi. destruct (Z.leb_spec (Z.of_nat 0) (Z.of_nat i)); [|lia]. cbn [andb].
    rewrite logical_addressed by done. unfold addressed. by rewrite (proj2 (Z.eqb_neq _ _) Hm).
Qed.

Lemma get_bit_cons w t v : 0 <= v -> apic_get_bit (w :: t) v = if v <? 32 then Z.testbit w v else apic_get_bit t (v - 32).
Proof.
  intros Hv. rewrite get_bit_spec by lia. destruct (Z.ltb_spec v 32) as [Hl|Hg].
  - by rewrite Z.div_small, Z.mod_small by lia.
  - rewrite get_bit_spec by lia. replace v with (v - 32 + 1 * 32) at 1 2 by lia. rewrite Z.div_add, Z.mod_add by lia.
    pose proof (Z.div_pos (v - 32) 32 ltac:(lia) ltac:(lia)). by replace (Z.to_nat ((v - 32) / 32 + 1)) with (S (Z.to_nat ((v - 32) / 32))) by lia.
Qed.

Lemma ctz_spec n w : 0 < w < 2 ^ Z.of_nat n ->
  0 <= ctz_loop n w < Z.of_nat n /\ Z.testbit w (ctz_loop n w) = true /\ (forall i, 0 <= i < ctz_loop n w -> Z.testbit w i = false).
Proof.
  revert w. induction n as [|n IH]; intros w Hw; cbn [ctz_loop]; [change (2 ^ Z.of_nat 0) with 1 in Hw; lia|].
  destruct (Z.odd w) eqn:Ho; [split_and!; [lia|lia|by rewrite Z.bit0_odd|lia]|].
  rewrite Nat2Z.inj_succ, Z.pow_succ_r in Hw by lia. pose proof (Zdiv2_odd_eqn w) as Hd. rewrite Ho in Hd. rewrite <-Z.div2_spec.
  destruct (IH (Z.div2 w) ltac:(lia)) as (H1 & H2 & H3). rewrite Z.div2_spec in *. split_and!; [lia|lia| |].
  - rewrite <-H2, Z.shiftr_spec by lia. f_equal. lia.
  - intros i Hi. destruct (Z.eq_dec i 0) as [->|]; [by rewrite Z.bit0_odd|].
    specialize (H3 (i - 1) ltac:(lia)). rewrite Z.shiftr_spec in H3 by lia. by replace (i - 1 + 1) with i in H3 by lia.
Qed.

Lemma first_bit_spec k mask :
  Forall (fun w => 0 <= w < 2 ^ 32) mask ->
  match first_bit k mask with
  | Some d => (k * 32 <= d)%nat /\ apic_get_bit mask (Z.of_nat (d - k * 32)) = true /\
              (forall i, 0 <= i < Z.of_nat (d - k * 32) -> apic_get_bit mask i = false)
  | None => forall i, 0 <= i -> apic_get_bit mask i = false
  end.
Proof.
  revert k. induction mask as [|w mask IH]; intros k Hm; cbn [first_bit].
  { intros i Hi. rewrite get_bit_spec by lia. destruct (Z.to_nat (i / 32)); apply Z.bits_0. }
  apply Forall_cons in Hm as [Hw Hm]. destruct (Z.eqb_spec w 0) as [->|Hne].
  - specialize (IH (S k) Hm). destruct (first_bit (S k) mask) as [d|].
    + destruct IH as (H1 & H2 & H3). split_and!; [lia| |intros i Hi]; rewrite get_bit_cons by lia.
      * destruct (Z.ltb_spec (Z.of_nat (d - k * 32)) 32); [lia|]. rewrite <-H2. f_equal. lia.
      * destruct (Z.ltb_spec i 32); [apply Z.bits_0|]. apply H3. lia.
    + intros i Hi. rewrite get_bit_cons by lia. destruct (Z.ltb_spec i 32); [apply Z.bits_0|]. apply IH. lia.
  - destruct (ctz_spec 32 w ltac:(change (2 ^ Z.of_nat 32) with (2 ^ 32); lia)) as (H1 & H2 & H3). change (ctz_loop 32 w) with (apic_ffs_bit w) in *.
    replace (k * 32 + Z.to_nat (apic_ffs_bit w) - k * 32)%nat with (Z.to_nat (apic_ffs_bit w)) by lia. rewrite Z2Nat.id by lia.
    split_and!; [lia| |intros i Hi]; rewrite get_bit_cons by lia.
    + destruct (Z.ltb_spec (apic_ffs_bit w) 32); [done|lia].
    + destruct (Z.ltb_spec i 32); [by apply H3|lia].
Qed.

(** Which CPUs the command register's destination names for the sender at [i]. *)
Definition targeted (i : nat) (icr0 dest dest_mode : Z) (j : nat) (s : APICCommonState) : bool :=
  let shorthand := Z.land (Z.shiftr icr0 18) 3 in
  if shorthand =? 0 then addressed dest dest_mode s
  else if shorthand =? 1 then (i =? j)%nat
  else if shorthand =? 2 then true
  else negb (i =? j)%nat.

(** What the message does to a CPU that receives it. *)
Definition ipi_effect (self : bool) (icr0 mode v trig : Z) (s : APICCommonState) : APICCommonState :=
  if (mode =? APIC_DM_INIT) && (Z.land (Z.shiftr icr0 14) 1 =? 0) && (Z.land (Z.shiftr icr0 15) 1 =? 1) then with_a_arb_id (a_id s) s
  else if mode =? APIC_DM_SIPI then cpu_interrupt CPU_INTERRUPT_SIPI (with_a_sipi_vector v s)
  else if mode =? APIC_DM_SMI then cpu_interrupt CPU_INTERRUPT_SMI s
  else if mode =? APIC_DM_NMI then cpu_interrupt CPU_INTERRUPT_NMI s
  else if mode =? APIC_DM_INIT then cpu_interrupt CPU_INTERRUPT_INIT s
  else if (mode =? APIC_DM_FIXED) || (mode =? APIC_DM_LOWPRI) || (mode =? APIC_DM_EXTINT) then apic_set_irq self v trig s
  else s.

Definition none_before (f : nat -> APICCommonState -> bool) (j : nat) (b : list APICCommonState) : bool := negb (existsb id (imap f (take j b))).

Lemma none_before_spec f j b : none_before f j b = true <-> (forall k s, (k < j)%nat -> b !! k = Some s -> f k s = false).
Proof.
  unfold none_before. rewrite negb_true_iff, <-not_true_iff_false, existsb_exists. split.
  - intros H k s Hk Hs. apply not_true_iff_false. intros Hf. apply H. exists true. split; [|done]. apply list_elem_of_In, list_elem_of_lookup. exists k.
    rewrite list_lookup_imap, lookup_take_lt, Hs by done. cbn. by rewrite Hf.
  - intros H (x & Hx & Ht). apply list_elem_of_In, list_elem_of_lookup in Hx as [k Hx]. rewrite list_lookup_imap in Hx. apply fmap_Some in Hx as (s & Hs & ->).
    destruct (Nat.lt_ge_cases k j) as [Hk|Hk]; [|by rewrite lookup_take_ge in Hs]. rewrite lookup_take_lt in Hs by done. unfold id in Ht. by rewrite (H k s) in Ht.
Qed.

(** The mask a delivery uses, tested at the CPUs of the bus. *)
Lemma mask_effect mask (tgt : nat -> APICCommonState -> bool) self mode v trig b j s :
  tab_ok mask -> b !! j = Some s -> (forall k s, b !! k = Some s -> apic_get_bit mask (Z.of_nat k) = tgt k s) ->
  mode = APIC_DM_LOWPRI ->
  apic_bus_deliver self mask mode v trig b !! j = Some (if tgt j s && none_before tgt j b then apic_set_irq self v trig s else s).
Proof.
  intros [_ Hm] Hj Ht ->. unfold apic_bus_deliver. rewrite Z.eqb_refl. pose proof (first_bit_spec 0 mask Hm) as Hf.
  destruct (first_bit 0 mask) as [d|].
  - destruct Hf as (_ & H2 & H3). rewrite Nat.sub_0_r in H2, H3. destruct (decide (d = j)) as [->|Hne].
    + rewrite list_lookup_alter_eq, Hj. cbn. rewrite <-(Ht j s Hj), H2. replace (none_before tgt j b) with true; [done|]. symmetry. apply none_before_spec.
      intros k s' Hk Hs. rewrite <-(Ht k s' Hs). apply H3. lia.
    + rewrite list_lookup_alter_ne by done. rewrite Hj. destruct (tgt j s && none_before tgt j b) eqn:E; [|done]. exfalso. apply andb_true_iff in E as [E1 E2].
      rewrite none_before_spec in E2. rewrite <-(Ht j s Hj) in E1. destruct (Nat.lt_ge_cases j d) as [Hl|Hg]; [rewrite H3 in E1 by lia; done|].
      destruct (lookup_lt_is_Some_2 b d) as [s' Hd]; [apply lookup_lt_Some in Hj; lia|]. pose proof (E2 d s' ltac:(lia) Hd) as Hx. by rewrite <-(Ht d s' Hd), H2 in Hx.
  - rewrite Hj, <-(Ht j s Hj), Hf by lia. done.
Qed.

Lemma foreach_at mask tgt f b j s :
  b !! j = Some s -> apic_get_bit mask (Z.of_nat j) = tgt -> foreach_apic mask f b !! j = Some (if (tgt : bool) then f s else s).
Proof. intros Hj <-. unfold foreach_apic. by rewrite list_lookup_imap, Hj. Qed.

Lemma no_tab_ok : tab_ok no_apics.
Proof. split; [done|]. repeat (constructor; [split; done|]). constructor. Qed.
Lemma all_tab_ok : tab_ok all_apics.
Proof. split; [done|]. repeat (constructor; [split; done|]). constructor. Qed.

Lemma logical_tab_ok k dest b mask : (k + length b <= 256)%nat -> tab_ok mask -> tab_ok (logical_loop k dest b mask).
Proof.
  revert k mask. induction b as [|s b IH]; intros k mask Hl Hm; cbn [logical_loop]; [done|]. cbn [length] in Hl.
  apply IH; [lia|]. destruct (logical_match dest s); [|done]. apply set_tab_ok; [lia|done].
Qed.

Lemma delivery_tab_ok dest dest_mode b : (length b <= MAX_APICS)%nat -> tab_ok (apic_get_delivery_bitmask dest dest_mode b).
Proof.
  unfold MAX_APICS. intros Hl. unfold apic_get_delivery_bitmask. destruct (dest_mode =? 0); [destruct (dest =? 0xff); [apply all_tab_ok|]|apply logical_tab_ok; [lia|apply no_tab_ok]].
  destruct (apic_find_dest dest b) as [j|] eqn:E; [|apply no_tab_ok]. apply find_dest_lt in E. apply set_tab_ok; [lia|apply no_tab_ok].
Qed.

Lemma of_nat_eqb i j : (Z.of_nat i =? Z.of_nat j) = (i =? j)%nat.
Proof. destruct (Z.eqb_spec (Z.of_nat i) (Z.of_nat j)), (Nat.eqb_spec i j); lia. Qed.

(** Delivery, at each APIC of the bus. *)
Lemma deliver_at self i sender dest dest_mode mode v trig b j s :
  NoDup (a_id <$> b) -> (length b <= MAX_APICS)%nat -> 0 <= dest < 256 ->
  b !! i = Some sender -> b !! j = Some s ->
  let icr0 := nth 0 (a_icr sender) 0 in
  let target := targeted i icr0 dest dest_mode in
  apic_deliver self i dest dest_mode mode v trig b !! j =
  Some (if target j s && (negb (mode =? APIC_DM_LOWPRI) || none_before target j b) then ipi_effect self icr0 mode v trig s else s).
Proof.
  intros Hd Hl Hdest Hi Hj icr0 target. unfold apic_deliver. rewrite Hi. fold icr0.
  match goal with |- context [foreach_apic ?x (fun s => with_a_arb_id _ s) _] => set (mask := x) end.
  pose proof (lookup_lt_Some _ _ _ Hi) as Li. assert (length b <= 255)%nat as Hl' by exact Hl.
  assert (tab_ok mask) as Hm.
  { unfold mask. destruct (_ =? 0); [by apply delivery_tab_ok|]. destruct (_ =? 1); [apply set_tab_ok; [lia|apply no_tab_ok]|].
    destruct (_ =? 2); [apply all_tab_ok|]. apply reset_tab_ok, all_tab_ok. }
  assert (forall k s, b !! k = Some s -> apic_get_bit mask (Z.of_nat k) = target k s) as Ht.
  { intros k s' Hk. pose proof (lookup_lt_Some _ _ _ Hk) as Lk. unfold mask, target, targeted. destruct (_ =? 0); [by apply delivery_bits|].
    destruct (_ =? 1); [rewrite set_bit_spec, no_bits by (done || lia); apply of_nat_eqb|].
    destruct (_ =? 2); [apply all_bits; lia|]. rewrite reset_bit_spec, all_bits by (done || lia). by rewrite of_nat_eqb. }
  clearbody mask target. unfold ipi_effect.
  destruct (Z.eqb_spec mode APIC_DM_LOWPRI) as [->|Hlow].
  { cbn [APIC_DM_LOWPRI APIC_DM_INIT APIC_DM_SIPI APIC_DM_SMI APIC_DM_NMI APIC_DM_FIXED Z.eqb Pos.eqb andb orb negb].
    by apply mask_effect. }
  cbn [negb orb]. rewrite andb_true_r. rewrite <-(Ht j s Hj).
  destruct (_ && _ && _); [by apply (foreach_at _ _ (fun s => with_a_arb_id (a_id s) s))|]. destruct (_ =? APIC_DM_SIPI); [by apply (foreach_at _ _ (apic_startup v))|].
  unfold apic_bus_deliver. rewrite (proj2 (Z.eqb_neq _ _) Hlow). rewrite orb_false_r.
  destruct (_ =? APIC_DM_SMI); [by apply foreach_at|]. destruct (_ =? APIC_DM_NMI); [by apply foreach_at|].
  destruct (_ =? APIC_DM_INIT); [by apply foreach_at|]. destruct (_ || _); [by apply foreach_at|]. rewrite Hj. by destruct (apic_get_bit _ _).
Qed.

(** C27: The interrupt command register reaches exactly the CPUs it names: with at most 255 APICs of distinct
    ids, a message acts on the APIC at [j] when the destination shorthand (none, self, all, all but self)
    and, without one, the destination (physical id, the physical broadcast 0xff, or the logical id in flat or
    cluster mode) names it, for the lowest-priority mode only on the first such APIC; what it does there is
    given by the delivery mode, and every other APIC is left as it was. *)
Theorem ipi_destinations self i sender dest dest_mode mode v trig b j s :
  NoDup (a_id <$> b) -> (length b <= MAX_APICS)%nat -> 0 <= dest < 256 ->
  b !! i = Some sender -> b !! j = Some s ->
  let icr0 := nth 0 (a_icr sender) 0 in
  let target := targeted i icr0 dest dest_mode in
  apic_deliver self i dest dest_mode mode v trig b !! j =
  Some (if target j s && (negb (mode =? APIC_DM_LOWPRI) || none_before target j b) then ipi_effect self icr0 mode v trig s else s).
Proof. apply deliver_at. Qed.

(** Three APICs, the second of which sends vector 0x41 to logical CPUs 1 and 4, by lowest priority. *)
Definition apic_numbered (id : Z) : APICCommonState :=
  with_a_icr [0; 0] (with_a_dest_mode 0xf (with_a_log_dest (Z.shiftl 1 id) (with_a_id id one_apic))).
Definition three_apics : list APICCommonState := apic_numbered <$> [0; 1; 2].

Lemma ipi_destinations_witness :
  let b := apic_deliver true 1 0x5 1 APIC_DM_LOWPRI 0x41 0 three_apics in
  b !! 0%nat = Some (ipi_effect true 0 APIC_DM_LOWPRI 0x41 0 (apic_numbered 0)) /\ b !! 2%nat = Some (apic_numbered 2).
Proof.
  assert (NoDup (a_id <$> three_apics)) as Hd by (change (NoDup [0; 1; 2]); repeat constructor; by set_solver).
  assert (forall j s, three_apics !! j = Some s ->
    apic_deliver true 1 0x5 1 APIC_DM_LOWPRI 0x41 0 three_apics !! j =
    Some (if targeted 1 0 0x5 1 j s && none_before (targeted 1 0 0x5 1) j three_apics then ipi_effect true 0 APIC_DM_LOWPRI 0x41 0 s else s)) as H.
  { intros j s Hj. apply (ipi_destinations true 1 (apic_numbered 1)); [done|cbn; unfold MAX_APICS; lia|lia|done|done]. }
  split.
  - rewrite (H 0%nat (apic_numbered 0) eq_refl). by replace (_ && _) with true by reflexivity.
  - rewrite (H 2%nat (apic_numbered 2) eq_refl). by replace (_ && _) with false by reflexivity.
Defined.
