(* ===== verification/ApicTimer.v ===== *)
(** * The timer of the local APIC

    When the timer of an APIC fires, what its count register reads meanwhile,
    and that the interrupts of a periodic timer stay on the grid of its period. *)

From stdpp Require Import base list.
From Stdlib Require Import ZArith Lia.
From S2P Require Import Prelude Cpu CcHelper Guest Mmu Seg Apic.

Local Open Scope Z_scope.

(** The time between two expiries, in nanoseconds. *)
Definition period (s : APICCommonState) : Z := (a_initial_count s + 1) * 2 ^ a_count_shift s.

Record timer_ok (s : APICCommonState) : Prop := {
  to_count : in_range 32 (a_initial_count s);
  to_shift : 0 <= a_count_shift s < 8;
  to_load : 0 <= a_load_time s;
  to_unmasked : has (timer_lvt s) APIC_LVT_MASKED = false;
}.

Lemma s64_fits x : 0 <= x < 2 ^ 63 -> s64 x = x.
Proof. intros H. unfold s64, sext, wrap. rewrite Z.mod_small by lia. change (2 ^ (64 - 1)) with (2 ^ 63). destruct (Z.ltb_spec x (2 ^ 63)); lia. Qed.
Lemma u64_fits x : 0 <= x < 2 ^ 64 -> u64 x = x.
Proof. intros H. unfold u64, wrap. by rewrite Z.mod_small. Qed.

Definition periodic (s : APICCommonState) : bool := has (timer_lvt s) APIC_LVT_TIMER_PERIODIC.

(** The next expiry after [now]: a periodic timer expires at every multiple of the period after the count
    was loaded, a one-shot timer once, provided its count has not run out. *)
Definition expiry (now : Z) (s : APICCommonState) : option Z :=
  let elapsed := now - a_load_time s in
  if periodic s then if a_initial_count s =? 0 then None else Some (a_load_time s + (elapsed / period s + 1) * period s)
  else if elapsed <? a_initial_count s * 2 ^ a_count_shift s then Some (a_load_time s + period s) else None.

Section Timer.
Context (s : APICCommonState) (now : Z) (Hs : timer_ok s) (Hload : a_load_time s <= now) (Hfits : now + period s < 2 ^ 63).

Let tick := 2 ^ a_count_shift s.
Let ic := a_initial_count s.

Lemma tick_pos : 0 < tick.
Proof. apply Z.pow_pos_nonneg; [lia|apply Hs]. Qed.

Lemma ticks_div x : x / tick / (ic + 1) = x / period s.
Proof. pose proof tick_pos. destruct (to_count s Hs). unfold period. fold tick ic. rewrite Z.mul_comm. apply Z.div_div; lia. Qed.

Lemma ticks_elapsed : Z.shiftr (s64 (now - a_load_time s)) (a_count_shift s) = (now - a_load_time s) / tick.
Proof.
  pose proof tick_pos. destruct (to_count s Hs). pose proof (to_load s Hs). unfold period in Hfits. fold tick ic in Hfits.
  rewrite s64_fits by (unfold ic in *; nia). apply Z.shiftr_div_pow2, Hs.
Qed.

Lemma next_grid : now < a_load_time s + ((now - a_load_time s) / period s + 1) * period s <= now + period s.
Proof.
  assert (0 < period s) as Hp by (pose proof tick_pos; destruct (to_count s Hs); unfold period; fold tick ic; unfold ic in *; nia).
  pose proof (Z.div_mod (now - a_load_time s) (period s) ltac:(lia)). pose proof (Z.mod_pos_bound (now - a_load_time s) (period s) Hp). nia.
Qed.

Lemma periodic_ticks : s64 (u64 ((u64 ((now - a_load_time s) / tick) / (ic + 1) + 1) * (ic + 1))) = ((now - a_load_time s) / period s + 1) * (ic + 1).
Proof.
  pose proof tick_pos. pose proof next_grid as Hg. destruct (to_count s Hs) as [Hc1 Hc2]. pose proof (to_load s Hs) as Hl. fold ic in Hc1, Hc2.
  assert (0 <= (now - a_load_time s) / tick <= now - a_load_time s) as Hd by (split; [apply Z.div_pos; lia|apply Z.div_le_upper_bound; nia]).
  assert (0 <= (now - a_load_time s) / period s) as Hq by (apply Z.div_pos; [lia|unfold period; fold tick ic; nia]).
  assert (0 < period s) by (unfold period; fold tick ic; nia).
  rewrite (u64_fits (_ / tick)), ticks_div by lia.
  assert (0 <= ((now - a_load_time s) / period s + 1) * (ic + 1) < 2 ^ 63) as Hr.
  { split; [nia|]. unfold period in Hg, Hfits, Hq |- *. fold tick ic in Hg, Hfits, Hq |- *.
    rewrite Z.mul_assoc in Hg. set (y := (_ + 1) * (ic + 1)) in *. assert (0 <= y) by (unfold y; nia). clearbody y. nia. }
  by rewrite u64_fits, s64_fits by lia.
Qed.

Lemma update_expiry : a_timer (apic_timer_update now s) = expiry now s.
Proof.
  pose proof tick_pos. pose proof next_grid as Hg. destruct (to_count s Hs) as [Hc1 Hc2]. pose proof (to_load s Hs) as Hl.
  pose proof (to_unmasked s Hs) as Hm. unfold apic_timer_update, apic_next_timer, expiry, periodic.
  change (timer_lvt (with_a_timer_expiry (-1) s)) with (timer_lvt s). rewrite Hm.
  cbn [with_a_timer_expiry a_load_time a_count_shift a_initial_count]. rewrite ticks_elapsed. fold ic tick.
  destruct (has (timer_lvt s) APIC_LVT_TIMER_PERIODIC).
  - destruct (ic =? 0); [done|]. rewrite periodic_ticks. cbn. f_equal. rewrite Z.shiftl_mul_pow2 by apply Hs. fold tick.
    unfold period in *. fold tick ic in Hg, Hfits |- *. rewrite (s64_fits (_ * tick)), s64_fits by lia. ring_simplify. lia.
  - destruct (Z.leb_spec ic ((now - a_load_time s) / tick)) as [Hd|Hd], (Z.ltb_spec (now - a_load_time s) (ic * tick)) as [He|He]; try done.
    + exfalso. rewrite Z.mul_comm in He. apply Z.div_lt_upper_bound in He; lia.
    + cbn. f_equal. rewrite Z.shiftl_mul_pow2 by apply Hs. unfold period in *. fold tick ic in Hg, Hfits |- *. fold ic in Hc1, Hc2. rewrite (s64_fits (_ * tick)), s64_fits by nia. done.
    + exfalso. assert (ic <= (now - a_load_time s) / tick); [|lia]. apply Z.div_le_lower_bound; lia.
Qed.

Lemma current_count t :
  expiry now s = Some t -> apic_get_current_count now s = (t - now - 1) / tick.
Proof.
  pose proof tick_pos. destruct (to_count s Hs) as [Hc1 Hc2]. pose proof (to_load s Hs) as Hl. fold ic in Hc1, Hc2.
  unfold expiry, apic_get_current_count, periodic. rewrite ticks_elapsed. fold ic tick. set (x := now - a_load_time s).
  assert (0 < period s) by (unfold period; fold tick ic; nia).
  assert (0 <= x / tick <= x) as Hd by (split; [apply Z.div_pos; lia|apply Z.div_le_upper_bound; nia]).
  assert (forall n, (a_load_time s + n * tick - now - 1) / tick = n - 1 - x / tick) as Hn.
  { intros n. pose proof (Z.div_mod x tick ltac:(lia)) as Hx. pose proof (Z.mod_pos_bound x tick ltac:(lia)).
    symmetry. apply (Z.div_unique _ _ _ (tick - 1 - x mod tick)); [left; lia|]. unfold x in *. lia. }
  destruct (has (timer_lvt s) APIC_LVT_TIMER_PERIODIC).
  - destruct (ic =? 0); [done|]. intros [= <-]. rewrite u64_fits by (unfold x in *; lia).
    rewrite <-ticks_div. unfold period. fold tick ic. rewrite Z.mul_assoc, Hn.
    pose proof (Z.div_mod (x / tick) (ic + 1) ltac:(lia)). pose proof (Z.mod_pos_bound (x / tick) (ic + 1) ltac:(lia)).
    rewrite u32_id by (split; lia). lia.
  - destruct (Z.ltb_spec x (ic * tick)) as [He|He]; [|done]. intros [= <-]. unfold period. fold tick ic. rewrite Hn.
    assert (x / tick < ic) by (apply Z.div_lt_upper_bound; lia). destruct (Z.leb_spec ic (x / tick)); [lia|]. rewrite u32_id by (split; lia). lia.
Qed.

Lemma expiry_after t :
  expiry now s = Some t -> now < t <= now + period s /\ (t - a_load_time s) mod period s = 0.
Proof.
  pose proof next_grid as Hg. pose proof tick_pos. destruct (to_count s Hs) as [Hc1 Hc2]. fold ic in Hc1, Hc2. unfold expiry. fold ic tick.
  assert (0 < period s) by (unfold period; fold tick ic; nia). destruct (periodic s).
  - destruct (ic =? 0); [done|]. intros [= <-]. split; [done|]. rewrite <-Z.add_sub_assoc, Z.add_comm, Z.sub_add. by apply Z.mod_mul; lia.
  - destruct (Z.ltb_spec (now - a_load_time s) (ic * tick)); [|done]. intros [= <-]. split.
    + unfold period. fold tick ic. lia.
    + replace (a_load_time s + period s - a_load_time s) with (1 * period s) by lia. apply Z.mod_mul. lia.
Qed.
End Timer.

(** The fields the timer works from. *)
Definition timer_fields (s : APICCommonState) := (a_lvt s, a_initial_count s, a_count_shift s, a_load_time s).

Lemma expiry_fields now s s' : timer_fields s' = timer_fields s -> expiry now s' = expiry now s /\ period s' = period s /\ periodic s' = periodic s.
Proof. unfold timer_fields. intros [= H1 H2 H3 H4]. unfold expiry, period, periodic, timer_lvt. by rewrite H1, H2, H3, H4. Qed.
Lemma count_fields now s s' : timer_fields s' = timer_fields s -> apic_get_current_count now s' = apic_get_current_count now s.
Proof. unfold timer_fields. intros [= H1 H2 H3 H4]. unfold apic_get_current_count, timer_lvt. by rewrite H1, H2, H3, H4. Qed.
Lemma ok_fields s s' : timer_fields s' = timer_fields s -> timer_ok s -> timer_ok s'.
Proof. unfold timer_fields. intros [= H1 H2 H3 H4] [??? Hm]. split; unfold timer_lvt; by rewrite ?H1, ?H2, ?H3, ?H4. Qed.

Lemma update_fields now s : timer_fields (apic_timer_update now s) = timer_fields s.
Proof. unfold apic_timer_update, apic_next_timer. by repeat case_match; simplify_eq/=. Qed.
Lemma update_next now s t : a_timer (apic_timer_update now s) = Some t -> a_next_time (apic_timer_update now s) = t.
Proof. unfold apic_timer_update. destruct (apic_next_timer now s) as [[] s']; cbn; congruence. Qed.

Lemma set_irq_fields self v trig s : timer_fields (apic_set_irq self v trig s) = timer_fields s /\ a_next_time (apic_set_irq self v trig s) = a_next_time s.
Proof. unfold apic_set_irq, apic_update_irq, cpu_interrupt. by repeat case_match. Qed.
Lemma local_fields self n s : timer_fields (apic_local_deliver self n s) = timer_fields s /\ a_next_time (apic_local_deliver self n s) = a_next_time s.
Proof. unfold apic_local_deliver. repeat case_match; try done. apply set_irq_fields. Qed.

(** The expiry that follows one at [t]. *)
Lemma next_expiry s now t :
  timer_ok s -> a_load_time s <= now -> expiry now s = Some t -> expiry t s = if periodic s then Some (t + period s) else None.
Proof.
  intros Hs Hl. pose proof (tick_pos s Hs) as Ht. destruct (to_count s Hs) as [Hc1 Hc2]. assert (0 < period s) as Hp by (unfold period; nia).
  unfold expiry. destruct (periodic s).
  - destruct (_ =? 0); [done|]. intros [= <-]. f_equal. set (q := (now - a_load_time s) / period s).
    replace (a_load_time s + (q + 1) * period s - a_load_time s) with ((q + 1) * period s) by lia. rewrite Z.div_mul by lia. lia.
  - destruct (_ <? _); [|done]. intros [= <-]. unfold period. destruct (Z.ltb_spec (a_load_time s + (a_initial_count s + 1) * 2 ^ a_count_shift s - a_load_time s) (a_initial_count s * 2 ^ a_count_shift s)); [lia|done].
Qed.

(** C28: The timer of a local APIC is on time: when it is set up at [now], it is armed for the next expiry of its
    mode (every multiple of the period after the count was loaded, or once); an armed expiry is in the future
    and at most a period away; the count register reads the whole ticks left before it; and when
    the timer fires, however late the callback runs, a periodic timer is armed exactly one period after the
    expiry, so that no drift builds up, and a one-shot timer stays off. *)
Theorem timer_on_time self s now :
  timer_ok s -> a_load_time s <= now -> now + 2 * period s < 2 ^ 63 ->
  let armed := apic_timer_update now s in
  a_timer armed = expiry now s /\
  forall t, a_timer armed = Some t ->
    now < t <= now + period s /\ (t - a_load_time s) mod period s = 0 /\
    apic_get_current_count now armed = (t - now - 1) / 2 ^ a_count_shift s /\
    a_timer (apic_timer self armed) = if periodic s then Some (t + period s) else None.
Proof.
  intros Hs Hl Hf armed. pose proof (tick_pos s Hs) as Ht. assert (0 < period s) as Hp by (destruct (to_count s Hs); unfold period; nia).
  pose proof (update_expiry s now Hs Hl ltac:(lia)) as He. fold armed in He. split; [done|]. intros t Hat. rewrite He in Hat.
  destruct (expiry_after s now Hs Hl t Hat) as [Hr Hm]. split; [done|]. split; [done|]. split.
  { unfold armed. rewrite (count_fields now s) by apply update_fields. by apply current_count; try lia. }
  destruct (local_fields self APIC_LVT_TIMER armed) as [Hlf Hln].
  assert (timer_fields armed = timer_fields s) as Ha by apply update_fields. assert (a_next_time armed = t) as Hn by (apply update_next; by rewrite <-Hat).
  clearbody armed. rewrite Ha in Hlf. rewrite Hn in Hln. destruct (expiry_fields t s _ Hlf) as (Hx & Hper & _).
  unfold apic_timer. rewrite Hln. rewrite update_expiry; [rewrite Hx; by apply (next_expiry s now)|by apply (ok_fields s)| |rewrite Hper; lia].
  injection Hlf as _ _ _ ->. lia.
Qed.

(** A timer of 1000 ticks of 16 ns, loaded at 5000 and set up at 30000, while it counts its second period. *)
Definition ticking : APICCommonState :=
  mkApic 0 0 0 0 0 0 0 (replicate 8 0) (replicate 8 0) (replicate 8 0) [0x20030; 0; 0; 0; 0; 0] 0 [0; 0] 3 4 999 5000 0 (-1) 0 false 0 None true.

Lemma timer_on_time_witness :
  a_timer (apic_timer_update 30000 ticking) = Some 37000 /\
  a_timer (apic_timer true (apic_timer_update 30000 ticking)) = Some 53000.
Proof.
  assert (timer_ok ticking) as Hs by (split; cbn; try done; split; done).
  destruct (timer_on_time true ticking 30000 Hs ltac:(done) ltac:(done)) as [H1 H2].
  assert (a_timer (apic_timer_update 30000 ticking) = Some 37000) as Ha by (rewrite H1; reflexivity).
  split; [done|]. destruct (H2 37000 Ha) as (_ & _ & _ & H). rewrite H. reflexivity.
Defined.

(** A one-shot timer counts down to 0 a tick before it fires; when its vector is written again in that
    tick, it is turned off and does not fire. *)
Definition one_shot : APICCommonState :=
  mkApic 0 0 0 0 0 0 0 (replicate 8 0) (replicate 8 0) (replicate 8 0) [0x30; 0; 0; 0; 0; 0] 0 [0; 0] 3 4 999 0 0 (-1) 0 false 0 None true.

Lemma last_tick_lost :
  a_timer (apic_timer_update 0 one_shot) = Some 16000 /\
  a_timer (apic_timer_update 15990 (apic_timer_update 0 one_shot)) = None.
Proof. done. Qed.
