(* ===== verification/BoardTyped.v ===== *)
(** * Types of the interrupt controllers

    Every register of the local APICs and of the I/O APIC holds a value of its C type,
    after any access to the board, and what a register reads as is a word. *)

From stdpp Require Import base list relations.
From Stdlib Require Import ZArith Lia.
From S2P Require Import Prelude Cpu CcHelper Guest Mmu Seg SegSpec Pic Apic Board ApicInv.

Local Open Scope Z_scope.

(** A value of [int64_t]. *)
Definition signed64 (x : Z) : Prop := - 2 ^ 63 <= x < 2 ^ 63.

Definition words (n : nat) (l : list Z) : Prop := length l = n /\ Forall word_ok l.

Record apic_typed (s : APICCommonState) : Prop := {
  at_base : in_range 32 (a_apicbase s); at_id : in_range 8 (a_id s); at_arb : in_range 8 (a_arb_id s);
  at_tpr : in_range 8 (a_tpr s); at_spurious : in_range 32 (a_spurious_vec s);
  at_log : in_range 8 (a_log_dest s); at_mode : in_range 8 (a_dest_mode s);
  at_isr : words 8 (a_isr s); at_tmr : words 8 (a_tmr s); at_irr : words 8 (a_irr s);
  at_lvt : words 6 (a_lvt s); at_esr : in_range 32 (a_esr s); at_icr : words 2 (a_icr s);
  at_divide : in_range 32 (a_divide_conf s); at_shift : 0 <= a_count_shift s < 8; at_count : in_range 32 (a_initial_count s);
  at_load : signed64 (a_load_time s); at_next : signed64 (a_next_time s); at_expiry : signed64 (a_timer_expiry s);
  at_sipi : in_range 8 (a_sipi_vector s); at_request : in_range 32 (a_request s)
}.

Record ioapic_typed (s : IOAPICCommonState) : Prop := {
  it_id : in_range 4 (io_id s); it_sel : in_range 8 (ioregsel s); it_irr : in_range 32 (io_irr s);
  it_table : length (ioredtbl s) = IOAPIC_NUM_PINS; it_entries : Forall (fun e => in_range 64 e) (ioredtbl s)
}.

Record board_typed (b : board) : Prop := { bt_apics : Forall apic_typed (b_apics b); bt_ioapic : ioapic_typed (b_ioapic b) }.

(** ** Widths *)

Lemma range_wrap w x : 0 <= w -> in_range w (wrap w x).
Proof. by apply wrap_range. Qed.

Lemma signed_s64 x : signed64 (s64 x).
Proof. unfold signed64, s64, sext. pose proof (wrap_range 64 x ltac:(lia)) as H. cbv zeta. change (64 - 1) with 63. destruct (Z.ltb_spec (wrap 64 x) (2 ^ 63)); lia. Qed.

Lemma words_insert n l i v : words n l -> in_range 32 v -> words n (<[i := v]> l).
Proof. intros [Hl Hf] Hv. split; [by rewrite length_insert|]. by apply Forall_insert. Qed.
Lemma words_nth n l i : words n l -> in_range 32 (nth i l 0).
Proof. intros [_ Hf]. rewrite nth_lookup. destruct (l !! i) as [w|] eqn:E; [exact (Forall_lookup_1 _ _ _ _ Hf E)|done]. Qed.
Lemma words_tab l : words 8 l <-> tab_ok l.
Proof. split; [by intros []; split|by intros []; split]. Qed.

Create HintDb typed.
#[local] Hint Resolve range_lor range_land range_wrap signed_s64 words_insert words_nth : typed.

(** ** One APIC *)

Ltac apic_typed_tac := let H := fresh in intros H; destruct H; split; cbn; auto; try (by split; try lia).

Abbreviation keeps f := (forall s, apic_typed s -> apic_typed (f s)).

Lemma typed_interrupt m : in_range 32 m -> keeps (cpu_interrupt m).
Proof. intros Hm s. apic_typed_tac. apply range_lor; [lia|done|done]. Qed.

Lemma typed_update self : keeps (apic_update_irq self).
Proof. intros s Hs. unfold apic_update_irq. repeat case_match; try done; by apply typed_interrupt. Qed.

Lemma typed_irr t : words 8 t -> keeps (with_a_irr t).
Proof. intros Ht s. apic_typed_tac. Qed.
Lemma typed_tmr t : words 8 t -> keeps (with_a_tmr t).
Proof. intros Ht s. apic_typed_tac. Qed.
Lemma typed_isr t : words 8 t -> keeps (with_a_isr t).
Proof. intros Ht s. apic_typed_tac. Qed.

Lemma words_set t v : 0 <= v < 256 -> words 8 t -> words 8 (apic_set_bit t v).
Proof. rewrite !words_tab. apply set_tab_ok. Qed.
Lemma words_reset t v : words 8 t -> words 8 (apic_reset_bit t v).
Proof. rewrite !words_tab. apply reset_tab_ok. Qed.

Lemma typed_set_irq self v trig : 0 <= v < 256 -> keeps (apic_set_irq self v trig).
Proof.
  intros Hv s Hs. unfold apic_set_irq. apply typed_update. apply typed_tmr; [|apply typed_irr; [|done]].
  - destruct (trig =? 0); [apply words_reset|apply words_set; [done|]]; apply Hs.
  - apply words_set; [done|apply Hs].
Qed.

Lemma land_byte x : 0 <= Z.land x 0xff < 256.
Proof. exact (range_land 8 x 0xff ltac:(lia) ltac:(lia)). Qed.

Lemma typed_local self n : keeps (apic_local_deliver self n).
Proof. intros s Hs. unfold apic_local_deliver. repeat case_match; try done; try (by apply typed_interrupt). by apply typed_set_irq; [apply land_byte|]. Qed.

Lemma typed_reset_interrupt m : keeps (cpu_reset_interrupt m).
Proof. intros s. apic_typed_tac. apply range_land_l; [lia|done]. Qed.

Lemma typed_pic_intr self level : keeps (apic_deliver_pic_intr self level).
Proof.
  intros s Hs. unfold apic_deliver_pic_intr. destruct level; [by apply typed_local|]. repeat case_match; try done; try by apply typed_reset_interrupt.
  apply typed_reset_interrupt, typed_irr; [apply words_reset, Hs|done].
Qed.

Lemma typed_check_pic self output : keeps (fun s => (apic_check_pic self output s).2).
Proof. intros s Hs. unfold apic_check_pic. case_match; [exact (typed_pic_intr self true s Hs)|done]. Qed.

Lemma typed_timer_update now : keeps (apic_timer_update now).
Proof.
  intros s Hs. unfold apic_timer_update, apic_next_timer. cbv zeta.
  repeat case_match; simplify_eq; revert Hs; apic_typed_tac; apply signed_s64.
Qed.

Lemma typed_timer self : keeps (apic_timer self).
Proof. intros s Hs. unfold apic_timer. by apply typed_timer_update, typed_local. Qed.

Lemma typed_get_interrupt self output : keeps (fun s => (apic_get_interrupt self output s).2).
Proof.
  intros s Hs. unfold apic_get_interrupt. repeat case_match; try done. cbn. apply typed_update, typed_check_pic.
  assert (0 <= apic_irq_pending s < 256) as Hv.
  { unfold apic_irq_pending in *. repeat case_match; try lia. pose proof (highest_spec (a_irr s) ltac:(apply words_tab, Hs)) as Hh. cbv zeta in Hh.
    destruct Hh as [[Hh _]|[Hh _]]; lia. }
  apply typed_isr; [apply words_set; [done|apply Hs]|]. apply typed_irr; [apply words_reset, Hs|done].
Qed.

Lemma typed_set_tpr self val : keeps (apic_set_tpr self val).
Proof. intros s Hs. apply typed_update. revert Hs. apic_typed_tac. by apply range_wrap. Qed.

Lemma typed_set_base val : keeps (apic_set_base val).
Proof.
  intros s Hs. unfold apic_set_base.
  assert (in_range 32 (Z.lor (Z.land val 0xfffff000) (Z.land (a_apicbase s) (Z.lor MSR_IA32_APICBASE_BSP MSR_IA32_APICBASE_ENABLE)))) as Hb
    by (apply range_lor; [lia|by apply range_land|by apply range_land]).
  destruct (has val _); revert Hs; apic_typed_tac; by apply range_land_l.
Qed.

Lemma words_zero n v : in_range 32 v -> words n (replicate n v).
Proof. intros Hv. split; [apply length_replicate|by apply Forall_replicate]. Qed.

Lemma typed_init_reset : keeps apic_init_reset.
Proof.
  intros s. assert (words 2 [0; 0]) by exact (words_zero 2 0 ltac:(done)).
  assert (words 8 (replicate 8 0)) by (by apply words_zero). assert (words 6 (replicate APIC_LVT_NB APIC_LVT_MASKED)) by (by apply words_zero).
  unfold apic_init_reset. apic_typed_tac.
Qed.

Lemma typed_lvt i v : in_range 32 v -> keeps (fun s => with_a_lvt (<[i := v]> (a_lvt s)) s).
Proof. intros Hv s. apic_typed_tac. by apply words_insert. Qed.

Lemma typed_reset s : apic_typed s -> apic_typed (apic_reset_common s).
Proof.
  intros Hs. unfold apic_reset_common. cbv zeta.
  set (s1 := with_a_apicbase _ s). assert (apic_typed s1) as H1 by (unfold s1; revert Hs; destruct (cpu_is_bsp s); apic_typed_tac). clearbody s1.
  apply typed_init_reset in H1. destruct (cpu_is_bsp s); [|done]. exact (typed_lvt APIC_LVT_LINT0 0x700 ltac:(done) _ H1).
Qed.

Lemma typed_write_lvt self now output n val : in_range 32 val -> keeps (write_lvt self now output n val).
Proof.
  intros Hv s Hs. unfold write_lvt. assert (apic_typed (with_a_lvt (<[n := val]> (a_lvt s)) s)) as H1 by exact (typed_lvt n val Hv s Hs).
  cbv zeta. generalize dependent (with_a_lvt (<[n := val]> (a_lvt s)) s). intros s1 H1.
  destruct (n =? APIC_LVT_TIMER)%nat; [by apply typed_timer_update|]. destruct (n =? APIC_LVT_LINT0)%nat; [|done].
  pose proof (typed_check_pic self output s1 H1) as Hc. cbv beta in Hc. destruct (apic_check_pic self output s1) as [[] s2]; cbn [snd] in Hc; [by apply typed_update|done].
Qed.

(** ** The bus *)

Abbreviation keeps_bus f := (forall b : list APICCommonState, Forall apic_typed b -> Forall apic_typed (f b)).

Lemma typed_alter f i : keeps f -> keeps_bus (alter f i).
Proof. intros Hf b Hb. apply Forall_alter; [done|]. auto. Qed.
Lemma typed_foreach mask f : keeps f -> keeps_bus (foreach_apic mask f).
Proof.
  intros Hf b Hb. unfold foreach_apic. apply Forall_lookup. intros i x. rewrite list_lookup_imap. intros (s & Hs & ->)%fmap_Some.
  pose proof (Forall_lookup_1 _ _ _ _ Hb Hs). case_match; auto.
Qed.
Lemma typed_map f : keeps f -> keeps_bus (fmap f).
Proof. intros Hf b Hb. apply Forall_fmap. by apply (Forall_impl _ _ _ Hb). Qed.

Lemma typed_bus_deliver self mask mode v trig : 0 <= v < 256 -> keeps_bus (apic_bus_deliver self mask mode v trig).
Proof.
  intros Hv b Hb. unfold apic_bus_deliver. repeat case_match; try done; try (apply typed_foreach; [by apply typed_interrupt|done]).
  - apply typed_alter; [by apply typed_set_irq|done].
  - apply typed_foreach; [by apply typed_set_irq|done].
Qed.

Lemma typed_deliver self i dest dest_mode mode v trig : 0 <= v < 256 -> keeps_bus (apic_deliver self i dest dest_mode mode v trig).
Proof.
  intros Hv b Hb. unfold apic_deliver. cbv zeta. set (mask := if _ =? 0 then _ else _). clearbody mask.
  destruct (_ && _ && _); [apply typed_foreach; [|done]; intros s; by apic_typed_tac|].
  destruct (_ =? _); [|by apply typed_bus_deliver]. apply typed_foreach; [|done]. intros s Hs. unfold apic_startup. apply typed_interrupt; [done|].
  revert Hs. by apic_typed_tac.
Qed.

Lemma typed_send_msi self addr data : keeps_bus (apic_send_msi self addr data).
Proof. intros b Hb. unfold apic_send_msi, apic_deliver_irq. apply typed_bus_deliver; [apply land_byte|done]. Qed.

(** ** The board *)

Section Typed.
Context (self : bool).

Abbreviation keeps_board f := (forall b, board_typed b -> board_typed (f b)).

Lemma typed_on_apics f : keeps_bus f -> keeps_board (on_apics f).
Proof. intros Hf b [Ha Hi]. split; [by apply Hf|done]. Qed.
Lemma typed_on_apic i f : keeps f -> keeps_board (on_apic i f).
Proof. intros Hf. by apply typed_on_apics, typed_alter. Qed.

Lemma typed_request level : keeps_board (pic_irq_request self level).
Proof. apply typed_on_apics, typed_map. intros s Hs. case_match; [by apply typed_pic_intr|done]. Qed.

Lemma typed_with_pics {A} (f : pics -> A * pics) : keeps_board (fun b => (with_pics self f b).2).
Proof.
  intros b [Ha Hi]. unfold with_pics. destruct (f (b_pics b)) as [x p]. cbn [snd].
  assert (board_typed (mkBoard (b_apics b) (b_ioapic b) p)) as H0 by done. revert H0. generalize (mkBoard (b_apics b) (b_ioapic b) p).
  induction (take _ _) as [|l ls IH]; intros b' H'; cbn; [done|]. by apply typed_request, IH.
Qed.

Lemma typed_irr_lines v : in_range 32 v -> keeps_board (set_io_irr v).
Proof. intros Hv b [Ha []]. split; [done|]. by split. Qed.

Lemma typed_redirection i v : in_range 64 v -> keeps_board (set_redirection i v).
Proof. intros Hv b [Ha []]. split; [done|]. split; cbn; auto; [by rewrite length_insert|by apply Forall_insert]. Qed.

Lemma entry_typed b i : board_typed b -> in_range 64 (redirection b i).
Proof. intros [_ Hi]. unfold redirection. rewrite nth_lookup. destruct (_ !! i) eqn:E; [exact (Forall_lookup_1 _ _ _ _ (it_entries _ Hi) E)|done]. Qed.

Lemma typed_deliver_irq dest dest_mode mode v trig : 0 <= v < 256 -> keeps_board (on_apics (apic_deliver_irq self dest dest_mode mode v trig)).
Proof. intros Hv. apply typed_on_apics. intros b Hb. by apply typed_bus_deliver. Qed.

Lemma typed_service_pin i : keeps_board (service_pin self i).
Proof.
  intros b Hb. unfold service_pin. destruct (_ && _); [|done]. cbv zeta.
  set (b1 := if _ =? 0 then _ else _). assert (board_typed b1) as H1.
  { unfold b1. case_match; [apply typed_irr_lines; [|done]; apply range_land_l; [lia|apply Hb]|].
    apply typed_redirection; [|done]. apply range_lor; [lia|by apply entry_typed|done]. }
  clearbody b1. destruct (_ =? APIC_DM_EXTINT).
  - pose proof (typed_with_pics pic_read_irq b1 H1) as H2. cbv beta in H2. destruct (with_pics self pic_read_irq b1) as [v b2]. cbn [snd] in H2.
    apply typed_deliver_irq; [|done]. by apply (wrap_range 8).
  - apply typed_deliver_irq; [|done]. by apply (wrap_range 8).
Qed.

Lemma typed_loop (f : nat -> board -> board) l : (forall i, keeps_board (f i)) -> keeps_board (fun b => foldl (fun b i => f i b) b l).
Proof. intros Hf. induction l as [|i l IH]; intros b Hb; [done|]. cbn. by apply IH, Hf. Qed.

Lemma typed_service : keeps_board (ioapic_service self).
Proof. apply (typed_loop (service_pin self)), typed_service_pin. Qed.

Lemma pin_word i : (i < IOAPIC_NUM_PINS)%nat -> in_range 32 (Z.shiftl 1 (Z.of_nat i)).
Proof. unfold IOAPIC_NUM_PINS. intros Hi. rewrite Z.shiftl_1_l. split; [by apply Z.pow_nonneg|]. apply Z.pow_lt_mono_r; lia. Qed.

Lemma typed_io_set_irq v level : keeps_board (ioapic_set_irq self v level).
Proof.
  intros b Hb. pose proof (it_irr _ (bt_ioapic _ Hb)) as Hr. unfold ioapic_set_irq. cbv zeta. set (n := if v =? 0 then 2 else v). clearbody n.
  destruct ((0 <=? n) && (n <? Z.of_nat IOAPIC_NUM_PINS)) eqn:E; [|done]. apply andb_true_iff in E as [E1%Z.leb_le E2%Z.ltb_lt].
  assert (in_range 32 (Z.shiftl 1 n)) as Hn by (rewrite <-(Z2Nat.id n) by done; apply pin_word; lia).
  assert (board_typed (ioapic_service self (set_io_irr (Z.lor (io_irr (b_ioapic b)) (Z.shiftl 1 n)) b))) as Hs
    by (apply typed_service, typed_irr_lines; [by apply range_lor|done]).
  repeat (case_match; try done); (apply typed_irr_lines; [by apply range_land_l|done]).
Qed.

Lemma typed_eoi_pin v n : keeps_board (eoi_pin self v n).
Proof.
  intros b Hb. unfold eoi_pin. destruct (_ && _); [|done].
  assert (board_typed (set_redirection n (Z.land (redirection b n) (u64 (Z.lnot IOAPIC_LVT_REMOTE_IRR))) b)) as H1
    by (apply typed_redirection; [apply range_land_l; [lia|by apply entry_typed]|done]).
  case_match; [by apply typed_service|done].
Qed.

Lemma typed_broadcast v : keeps_board (ioapic_eoi_broadcast self v).
Proof. apply (typed_loop (eoi_pin self v)), typed_eoi_pin. Qed.

Lemma typed_io_write addr val size : in_range 64 val -> keeps_board (ioapic_mem_write self addr val size).
Proof.
  intros Hv b Hb. pose proof (bt_ioapic _ Hb) as [I1 I2 I3 I4 I5]. destruct Hb as [Ha Hi]. unfold ioapic_mem_write.
  destruct (_ =? 0); [split; [done|split; cbn; auto; by apply range_wrap]|]. destruct (_ && _); [|done].
  destruct (_ =? 0); [split; [done|split; cbn; auto; by apply (range_land 4)]|]. destruct (_ || _); [done|]. cbv zeta. destruct (_ && _); [|done].
  assert (board_typed b) as Hb by done. apply typed_service, typed_redirection; [|done].
  pose proof (entry_typed b (Z.to_nat (Z.shiftr (ioregsel (b_ioapic b) - 0x10) 1)) Hb) as He.
  case_match; apply range_lor; try lia; [by apply range_land|by apply range_wrap|by apply range_land_l].
Qed.

Lemma typed_gsi n level : keeps_board (gsi_handler self n level).
Proof. intros b Hb. unfold gsi_handler. apply typed_io_set_irq. case_match; [by apply typed_with_pics|done]. Qed.

Lemma typed_eoi i : keeps_board (apic_eoi self i).
Proof.
  intros b Hb. unfold apic_eoi. destruct (b_apics b !! i) as [s|] eqn:E; [|done]. destruct (_ <? 0); [done|].
  pose proof (Forall_lookup_1 _ _ _ _ (bt_apics _ Hb) E) as Hs. apply typed_on_apic; [apply typed_update|].
  assert (board_typed (on_apic i (with_a_isr (apic_reset_bit (a_isr s) (get_highest_priority_int (a_isr s)))) b)) as H1
    by (apply typed_on_apic; [apply typed_isr, words_reset, Hs|done]).
  case_match; [by apply typed_broadcast|done].
Qed.

Lemma typed_read now i addr : keeps_board (on_apic i (fun s => (apic_mem_readl now addr s).2)).
Proof.
  apply typed_on_apic. intros s Hs. unfold apic_mem_readl. cbv zeta.
  repeat lazymatch goal with |- context [if ?c then _ else _] => destruct c; [done|] end. revert Hs. apic_typed_tac. by apply range_lor.
Qed.

Lemma typed_write now i addr val : signed64 now -> in_range 32 val -> keeps_board (apic_mem_writel self now i addr val).
Proof.
  intros Hn Hv b Hb. unfold apic_mem_writel. cbv zeta.
  destruct (_ || _); [apply typed_on_apics; [apply typed_send_msi|done]|].
  destruct (_ =? 0x02); [apply typed_on_apic; [intros s; apic_typed_tac; by apply range_shiftr|done]|].
  destruct (_ =? 0x08); [apply typed_on_apic; [intros s Hs; apply typed_update; revert Hs; apic_typed_tac; by apply range_wrap|done]|].
  destruct (_ =? 0x0b); [by apply typed_eoi|].
  destruct (_ =? 0x0d); [apply typed_on_apic; [intros s; apic_typed_tac; by apply range_shiftr|done]|].
  destruct (_ =? 0x0e); [apply typed_on_apic; [intros s; apic_typed_tac; pose proof (range_shiftr 4 28 val); lia|done]|].
  destruct (_ =? 0x0f); [apply typed_on_apic; [intros s Hs; apply typed_update; revert Hs; apic_typed_tac; by apply range_land|done]|].
  assert (forall k, board_typed (on_apic i (fun s => with_a_icr (<[k := val]> (a_icr s)) s) b)) as Hicr
    by (intros k; apply typed_on_apic; [intros s; apic_typed_tac; by apply words_insert|done]).
  destruct (_ =? 0x30); [apply typed_on_apics; [|apply (Hicr 0%nat)]; intros b'; apply typed_deliver, land_byte|].
  destruct (_ =? 0x31); [apply (Hicr 1%nat)|].
  destruct (_ && _); [apply typed_on_apic; [by apply typed_write_lvt|done]|].
  destruct (_ =? 0x38); [apply typed_on_apic; [intros s Hs; apply typed_timer_update; revert Hs; apic_typed_tac|done]|].
  destruct (_ =? 0x3e); [apply typed_on_apic; [intros s; apic_typed_tac; [by apply range_land|by apply (range_land 3)]|done]|].
  case_match; [done|]. apply typed_on_apic; [intros s; apic_typed_tac; by apply range_lor|done].
Qed.

Lemma typed_get_vector i : keeps_board (fun b => (cpu_get_pic_interrupt self i b).2).
Proof.
  intros b Hb. unfold cpu_get_pic_interrupt. destruct (b_apics b !! i) as [s|] eqn:E; [|done].
  pose proof (typed_get_interrupt self (pic_get_output (b_pics b)) s (Forall_lookup_1 _ _ _ _ (bt_apics _ Hb) E)) as Hs. cbv beta in Hs.
  destruct (apic_get_interrupt self (pic_get_output (b_pics b)) s) as [v s']. cbn [snd] in Hs.
  assert (board_typed (on_apic i (fun _ => s') b)) as H1 by (by apply typed_on_apic). repeat (case_match; [done|]). by apply typed_with_pics.
Qed.
End Typed.

(** The arguments of an access have their types. *)
Definition op_typed (op : board_op) : Prop :=
  match op with
  | IoapicWrite _ val _ => in_range 64 val
  | ApicWrite now _ _ val => signed64 now /\ in_range 32 val
  | _ => True
  end.

Lemma typed_op self op b : op_typed op -> board_typed b -> board_typed (run_board self op b).
Proof.
  destruct op; cbn [run_board op_typed]; intros Ho Hb.
  - by apply typed_gsi.
  - by apply typed_with_pics.
  - by apply typed_io_write.
  - by apply typed_write; [apply Ho..|].
  - by apply typed_read.
  - apply typed_on_apic; [apply typed_timer|done].
  - apply typed_on_apic; [apply typed_set_tpr|done].
  - apply typed_on_apic; [apply typed_set_base|done].
  - apply typed_on_apic; [apply typed_init_reset|done].
  - by apply typed_get_vector.
Qed.

Lemma range_shiftl w n x : 0 <= w -> 0 <= n -> w + n <= 32 -> in_range w x -> in_range 32 (Z.shiftl x n).
Proof.
  intros Hw Hn Hwn Hx. rewrite Z.shiftl_mul_pow2 by done. split; [by apply Z.mul_nonneg_nonneg; [lia|apply Z.pow_nonneg]|].
  apply (Z.lt_le_trans _ (2 ^ (w + n))); [rewrite Z.pow_add_r by done; apply Z.mul_lt_mono_pos_r; [by apply Z.pow_pos_nonneg|lia]|].
  apply Z.pow_le_mono_r; lia.
Qed.

Lemma range_more w x : 0 <= w <= 32 -> in_range w x -> in_range 32 x.
Proof. intros Hw Hx. pose proof (Z.pow_le_mono_r 2 w 32 ltac:(lia) ltac:(lia)). lia. Qed.

Lemma ppr_byte s : apic_typed s -> in_range 8 (apic_get_ppr s).
Proof.
  intros Hs. unfold apic_get_ppr. case_match; [apply Hs|]. pose proof (highest_spec (a_isr s) ltac:(apply words_tab, Hs)) as Hh. cbv zeta in Hh.
  set (v := get_highest_priority_int (a_isr s)) in *. clearbody v. assert (in_range 8 (if v <? 0 then 0 else v)) as Hv
    by (destruct Hh as [[Hh _]|[-> _]]; [case_match; lia|done]).
  apply (range_shiftr 4 4) in Hv; [|done..]. rewrite Z.shiftl_mul_pow2 by done. lia.
Qed.

Lemma count_word now s : apic_typed s -> in_range 32 (apic_get_current_count now s).
Proof. intros _. unfold apic_get_current_count. repeat case_match; try done; by apply (wrap_range 32). Qed.

Lemma read_word now addr s : apic_typed s -> in_range 32 (apic_mem_readl now addr s).1.
Proof.
  intros Hs. pose proof (range_more 8 _ ltac:(done) (ppr_byte s Hs)). pose proof (range_more 8 _ ltac:(done) (at_tpr s Hs)).
  pose proof (count_word now s Hs). pose proof (range_shiftl 8 24 _ ltac:(done) ltac:(done) ltac:(done) (at_id s Hs)).
  pose proof (range_shiftl 8 24 _ ltac:(done) ltac:(done) ltac:(done) (at_log s Hs)). unfold apic_mem_readl. cbv zeta.
  repeat lazymatch goal with |- context [if ?c then _ else _] => destruct c; cbn [fst] end;
    first [assumption | by apply (wrap_range 32) | eapply words_nth; apply Hs | apply Hs | done].
Qed.

Lemma io_read_word addr size b : board_typed b -> in_range 32 (ioapic_mem_read addr size b).
Proof.
  intros Hb. pose proof (range_more 8 _ ltac:(done) (it_sel _ (bt_ioapic _ Hb))).
  pose proof (range_shiftl 4 24 _ ltac:(done) ltac:(done) ltac:(done) (it_id _ (bt_ioapic _ Hb))). unfold ioapic_mem_read. cbv zeta.
  repeat lazymatch goal with |- context [if ?c then _ else _] => destruct c end; try done.
  - apply (range_shiftr 32 32); [done|done|by apply entry_typed].
  - by apply range_land.
Qed.

Inductive typed_step : board -> board -> Prop :=
| typed_does self op b : op_typed op -> typed_step b (run_board self op b).

Definition board_reset (b : board) : board := ioapic_reset_common (on_apics (fmap apic_reset_common) b).

Lemma reset_typed b : Forall apic_typed (b_apics b) -> board_typed (board_reset b).
Proof.
  intros Ha. split; cbn; [by apply typed_map; [apply typed_reset|]|]. split; try done. apply (Forall_replicate _ IOAPIC_NUM_PINS). done.
Qed.


(** The divider of the timer of a reset board is set, and read back. *)
Definition set_up_board : board := run_board true (ApicWrite 0 0 0x3e0 0xb) (board_reset first_board).

