(* ===== verification/Reset.v ===== *)
(** * Reset, INIT and the start of a CPU

    [x86_cpu_reset] of cpu.c, [do_cpu_init] and [do_cpu_sipi] of helper.c, [apic_sipi]
    of hw/intc/apic.c, on a machine with the interrupt controllers of file Board. A reset puts the CPU,
    whatever its state, at the first instruction of the firmware in real mode, with the
    invariants of segments, control registers and debug registers that the other files
    start from. *)

From stdpp Require Import base list.
From Stdlib Require Import ZArith Lia.
From S2P Require Import Prelude Cpu CcHelper Excp Guest Mmu Seg SegSpec SegTask SegInv SoftMmu SegTracer PhysMem CtrlRegs CtrlTlb DebugRegs DebugInv Msr Image Smm Svm Pic Apic Board.

Local Open Scope Z_scope.
Local Open Scope k_scope.

(** ** The board of a machine

    What a machine has beside its memory: the interrupt controllers, the counter of
    clock cycles, the mapping of system-management memory, and whether the CPU is
    halted ([halted] of [CPUState]). *)
Class PcBoard (G : Type) : Type := {
  the_board : G -> board;
  put_board : board -> G -> G;
  halted : G -> bool;
  put_halted : bool -> G -> G;
  board_tsc : G -> Z;
  board_smm : bool -> G -> G
}.

Section Chip.
Context {G : Type} `{!PcBoard G} (me : nat).

(** The APIC of the CPU at [me]. *)
Definition my_apic (g : G) : option APICCommonState := b_apics (the_board g) !! me.
Definition on_board (f : board -> board) (g : G) : G := put_board (f (the_board g)) g.
Definition on_my_apic (f : APICCommonState -> APICCommonState) : G -> G := on_board (on_apic me f).

(** The local APIC as the control registers and the model-specific registers see it. *)
Definition board_chipset : Chipset G := {|
  cpu_get_apic_tpr g := match my_apic g with Some s => apic_get_tpr s | None => 0 end;
  cpu_set_apic_tpr val := on_my_apic (apic_set_tpr true val);
  cpu_get_apic_base g := match my_apic g with Some s => a_apicbase s | None => MSR_IA32_APICBASE_BSP end;
  cpu_set_apic_base val := on_my_apic (apic_set_base val);
  cpu_get_tsc := board_tsc;
  cpu_smm_update := board_smm
|}.

(** ** Requests

    The requests of the interrupt controllers are kept with the APIC, the others in the
    CPU; [interrupt_request] of the source is their union. *)
Definition requests (env : CPUX86State) (g : G) : Z :=
  Z.lor (interrupt_request (svm env)) (match my_apic g with Some s => a_request s | None => 0 end).

Definition on_requests (f : Z -> Z) : K G unit :=
  kmod (on_svm (fun s => with_interrupt_request (f (interrupt_request s)) s)) ;;
  kmem (on_my_apic (fun s => with_a_request (f (a_request s)) s)).
Definition drop_requests (mask : Z) : K G unit := on_requests (fun r => Z.land r (not32 mask)).
End Chip.

(** ** Reset *)

Definition HF_SOFTMMU_MASK : Z := 4.
Definition DR6_FIXED_1 : Z := 0xffff0ff0.
Definition DR7_FIXED_1 : Z := 0x400.
Definition CODE_FLAGS : Z := Z.lor (Z.lor (Z.lor (Z.lor DESC_P_MASK DESC_S_MASK) DESC_CS_MASK) DESC_R_MASK) DESC_A_MASK.
Definition DATA_FLAGS : Z := Z.lor (Z.lor (Z.lor DESC_P_MASK DESC_S_MASK) DESC_W_MASK) DESC_A_MASK.

(** [memset] of the fields up to the breakpoints; those behind stay. *)
Definition clear_state (env : CPUX86State) : CPUX86State :=
  let m := msrs env in
  mkCPU (replicate 8 0) 0 0 0 0 0 CC_OP_DYNAMIC 0 0 0 (replicate 6 seg0) seg0 seg0 seg0 seg0 (replicate 5 0) (replicate 8 0)
    (replicate 4 None) (breakpoints env) (watchpoints env) (watchpoint_hit env) (next_ptr env) 0 0 0 0 0 0 0
    (mkMsr (pat m) (mtrr_fixed m) (mtrr_deftype m) (mtrr_var m) 0 (mcg_cap m) (mcg_ctl m) (mce_banks m) (tsc_aux m) 0)
    (features env) 0 0 0 (exception_index env) 0 0 0 0 (with_interrupt_request (interrupt_request (svm env)) svm0) (reset_requested env).

Definition reset_tables (env : CPUX86State) : CPUX86State :=
  let env := with_idt (mkSeg (selector (idt env)) (base (idt env)) 0xffff (sflags (idt env))) env in
  let env := with_gdt (mkSeg (selector (gdt env)) (base (gdt env)) 0xffff (sflags (gdt env))) env in
  let env := with_ldt (mkSeg (selector (ldt env)) (base (ldt env)) 0xffff (Z.lor DESC_P_MASK (Z.shiftl 2 8))) env in
  with_tr (mkSeg (selector (tr env)) (base (tr env)) 0xffff (Z.lor DESC_P_MASK (Z.shiftl 11 8))) env.

Definition reset_data (r : nat) : CPUX86State -> CPUX86State := cpu_x86_load_seg_cache r 0 0 0xffff DATA_FLAGS.
Definition reset_segs (env : CPUX86State) : CPUX86State :=
  let env := cpu_x86_load_seg_cache R_CS 0xf000 0xffff0000 0xffff CODE_FLAGS env in
  reset_data R_GS (reset_data R_FS (reset_data R_SS (reset_data R_ES (reset_data R_DS env)))).

Definition reset_msrs (m : MsrState) : MsrState :=
  mkMsr 0x0007040600070406 (mtrr_fixed m) (mtrr_deftype m) (mtrr_var m) (mcg_status m) (mcg_cap m) (mcg_ctl m) (mce_banks m) (tsc_aux m) 1.

Section Reset.
Context {G : Type} `{!SoftMmu G, !PcBoard G} (me : nat) (cpuid_version : Z).

(** The FPU is not part of the state. *)
Definition x86_cpu_reset : K G unit :=
  on_requests me (fun _ => 0) ;;
  kmem (put_halted false) ;;
  kmod clear_state ;;
  kmem tlb_flush ;;
  kmod (with_old_exception (-1)) ;;
  kmod (fun env => with_hflags (Z.lor (hflags env) HF_SOFTMMU_MASK) env) ;;
  kmod (fun env => with_hflags2 (Z.lor (hflags2 env) HF2_GIF_MASK) env) ;;
  cpu_x86_update_cr0 0x60000010 ;;
  kmod (with_a20_mask (-1)) ;;
  kmod (with_smbase 0x30000) ;;
  kmod reset_tables ;;
  kmod reset_segs ;;
  kmod (with_eip 0xfff0) ;;
  kmod (put_reg R_EDX cpuid_version) ;;
  kmod (with_eflags 0x2) ;;
  kmod (fun env => with_msrs (reset_msrs (msrs env)) env) ;;
  kmod (with_dr (replicate 8 0)) ;;
  kmod (set_dr 6 DR6_FIXED_1) ;;
  kmod (set_dr 7 DR7_FIXED_1) ;;
  cpu_breakpoint_remove_all BP_CPU ;;
  cpu_watchpoint_remove_all BP_CPU ;;
  (if (me =? 0)%nat then kmem (on_my_apic me apic_designate_bsp) else kret tt) ;;
  kmem (fun g => put_halted (negb (match my_apic me g with Some s => cpu_is_bsp s | None => true end)) g).

Definition do_cpu_init : K G unit :=
  fun env g =>
    let sipi := Z.land (requests me env g) CPU_INTERRUPT_SIPI in
    (x86_cpu_reset ;;
     kmem (on_my_apic me (with_a_request sipi)) ;;
     kmod (fun env' => with_msrs (with_pat (pat (msrs env)) (msrs env')) env') ;;
     kmem (on_my_apic me apic_init_reset)) env g.

Definition cpu_x86_load_seg_cache_sipi (sipi_vector : Z) : K G unit :=
  kmod (with_eip 0) ;;
  kmod (fun env => cpu_x86_load_seg_cache R_CS (Z.shiftl sipi_vector 8) (Z.shiftl sipi_vector 12)
                     (limit (seg env R_CS)) (sflags (seg env R_CS)) env) ;;
  kmem (put_halted false).

Definition apic_sipi : K G unit :=
  drop_requests me CPU_INTERRUPT_SIPI ;;
  fun env g =>
    match my_apic me g with
    | Some s =>
        if a_wait_for_sipi s
        then (cpu_x86_load_seg_cache_sipi (a_sipi_vector s) ;; kmem (on_my_apic me (with_a_wait_for_sipi false))) env g
        else KRet tt env g
    | None => KRet tt env g
    end.

Definition do_cpu_sipi : K G unit := apic_sipi.
End Reset.

(** ** A PC

    Guest memory with the board and the state of one CPU. *)

#[export] Instance pair_mem {U} : PhysMem (phys * U) := {|
  ld_mem n a g := ld_mem n a (fst g);
  st_mem n a v g := (st_mem n a v (fst g), snd g)
|}.

Definition pc : Type := phys * (board * bool).
#[export] Instance pc_board : PcBoard pc := {|
  the_board g := fst (snd g);
  put_board b g := (fst g, (b, snd (snd g)));
  halted g := snd (snd g);
  put_halted h g := (fst g, (fst (snd g), h));
  board_tsc _ := 0;
  board_smm _ g := g
|}.

(** ** A board beside memory *)

Class PcBoardSpec (G : Type) `{!SoftMmu G, !PcBoard G} : Prop := {
  board_put b (g : G) : the_board (put_board b g) = b;
  board_put_halted h (g : G) : the_board (put_halted h g) = the_board g;
  halted_put h (g : G) : halted (put_halted h g) = h;
  halted_put_board b (g : G) : halted (put_board b g) = halted g;
  board_flush (g : G) : the_board (tlb_flush g) = the_board g;
  halted_flush (g : G) : halted (tlb_flush g) = halted g;
  board_flush_page a (g : G) : the_board (tlb_flush_page a g) = the_board g;
  halted_flush_page a (g : G) : halted (tlb_flush_page a g) = halted g
}.

#[export] Instance pc_board_spec : PcBoardSpec pc.
Proof. by split. Qed.

Lemma alter_twice {A} (f h : A -> A) i (l : list A) : alter f i (alter h i l) = alter (fun x => f (h x)) i l.
Proof. revert i. induction l as [|x l IH]; intros [|i]; cbn; [done..|]. f_equal. apply IH. Qed.

(** ** Lists of breakpoints *)

Section Lists.
Context {A : Type}.
Implicit Types (l : list (Z * A)).

Lemma linked_key p l : p ∈ l.*1 -> is_Some (linked p l).
Proof.
  unfold linked. induction l as [|[q y] l IH]; [by intros ?%elem_of_nil|]. cbn [fmap list_fmap fst find]. intros Hp.
  destruct (Z.eqb_spec q p); [by eexists|]. apply elem_of_cons in Hp as [->|Hp]; [done|]. auto.
Qed.

Lemma unlinked_key p q l : q ∈ l.*1 -> q <> p -> q ∈ (unlinked p l).*1.
Proof.
  intros (e & -> & He)%list_elem_of_fmap Hn. apply list_elem_of_fmap. exists e. split; [done|]. unfold unlinked. by apply list_elem_of_filter.
Qed.
End Lists.

(** What is left when the elements of [ps] are taken out one by one. *)
Definition without_all {A} (ps : list Z) (l : list (Z * A)) : list (Z * A) := filter (fun e => e.1 ∉ ps) l.

Lemma without_cons {A} p ps (l : list (Z * A)) : without_all ps (unlinked p l) = without_all (p :: ps) l.
Proof.
  unfold without_all, unlinked. rewrite list_filter_filter. apply list_filter_iff. intros e. rewrite not_elem_of_cons. tauto.
Qed.

Lemma filter_on {A} (P Q : A -> Prop) `{!forall x, Decision (P x), !forall x, Decision (Q x)} (l : list A) :
  (forall x, x ∈ l -> P x <-> Q x) -> filter P l = filter Q l.
Proof.
  induction l as [|x l IH]; intros Hpq; [done|]. rewrite !filter_cons, IH by (intros; apply Hpq; by right).
  pose proof (Hpq x ltac:(left)). do 2 case_decide; tauto || done.
Qed.

Lemma without_none {A} (l : list (Z * A)) : without_all [] l = l.
Proof. unfold without_all. induction l as [|e l IH]; [done|]. rewrite filter_cons, IH. rewrite decide_True; [done|apply not_elem_of_nil]. Qed.

(** The elements with a mark. *)
Lemma without_marked {A} (mark : A -> bool) (l : list (Z * A)) :
  NoDup l.*1 -> without_all (filter (fun e => mark e.2 = true) l).*1 l = filter (fun e => mark e.2 = false) l.
Proof.
  intros Hn. unfold without_all. apply filter_on. intros e He. rewrite <-not_true_iff_false. split; intros H1 H2; apply H1.
  - apply list_elem_of_fmap. exists e. split; [done|]. by apply list_elem_of_filter.
  - apply list_elem_of_fmap in H2 as (e' & Hk & [Hm He']%list_elem_of_filter). destruct e as [p x], e' as [p' x']. cbn in *. subst p'.
    pose proof (linked_elem _ _ _ Hn He). pose proof (linked_elem _ _ _ Hn He'). congruence.
Qed.

Section Reset.
Context {G : Type} `{!SoftMmu G, !PcBoard G, !PcBoardSpec G} (me : nat) (cpuid_version : Z).

Lemma remove_bps ps env (g : G) :
  NoDup ps -> NoDup (breakpoints env).*1 -> (forall p, p ∈ ps -> p ∈ (breakpoints env).*1) ->
  remove_each cpu_breakpoint_remove_by_ref ps env g = KRet tt (with_breakpoints (without_all ps (breakpoints env)) env) g.
Proof.
  revert env. induction ps as [|p ps IH]; intros env Hps Hl Hin.
  { rewrite without_none. by destruct env. }
  apply NoDup_cons in Hps as [Hp Hps]. cbn [remove_each]. unfold kbind at 1, cpu_breakpoint_remove_by_ref at 1, kbind at 1, kget.
  destruct (linked_key p (breakpoints env)) as [x ->]; [apply Hin; left|]. unfold kmod. rewrite IH.
  - cbn [breakpoints with_breakpoints]. by rewrite without_cons.
  - done.
  - cbn [breakpoints with_breakpoints]. by apply unlinked_nodup.
  - intros q Hq. cbn [breakpoints with_breakpoints]. apply unlinked_key; [apply Hin; by right|]. by intros ->.
Qed.

(** Each removal of a watchpoint flushes its page; the board is not touched. *)
Lemma remove_wps ps env (g : G) :
  NoDup ps -> NoDup (watchpoints env).*1 -> (forall p, p ∈ ps -> p ∈ (watchpoints env).*1) ->
  exists g', remove_each cpu_watchpoint_remove_by_ref ps env g = KRet tt (with_watchpoints (without_all ps (watchpoints env)) env) g' /\
    the_board g' = the_board g /\ halted g' = halted g.
Proof.
  revert env g. induction ps as [|p ps IH]; intros env g Hps Hl Hin.
  { exists g. rewrite without_none. split; [by destruct env|done]. }
  apply NoDup_cons in Hps as [Hp Hps]. cbn [remove_each]. unfold kbind at 1, cpu_watchpoint_remove_by_ref at 1, kbind at 1, kget.
  destruct (linked_key p (watchpoints env)) as [x ->]; [apply Hin; left|]. unfold kbind at 1, kmod at 1, kmem at 1.
  destruct (IH (with_watchpoints (unlinked p (watchpoints env)) env) (tlb_flush_page (wp_vaddr x) g)) as (g' & -> & Hb & Hh).
  - done.
  - cbn [watchpoints with_watchpoints]. by apply unlinked_nodup.
  - intros q Hq. cbn [watchpoints with_watchpoints]. apply unlinked_key; [apply Hin; by right|]. by intros ->.
  - exists g'. cbn [watchpoints with_watchpoints]. rewrite without_cons. rewrite board_flush_page in Hb. rewrite halted_flush_page in Hh. done.
Qed.

Lemma filter_keys {A} (P : Z * A -> Prop) `{!forall e, Decision (P e)} (l : list (Z * A)) :
  NoDup l.*1 -> NoDup (filter P l).*1 /\ (forall p, p ∈ (filter P l).*1 -> p ∈ l.*1).
Proof.
  intros Hn. split.
  - induction l as [|[p x] l IH]; [done|]. apply NoDup_cons in Hn as [Hp Hn]. rewrite filter_cons. case_decide; [|auto]. cbn. apply NoDup_cons. split; [|auto].
    intros (e & Hk & [_ He]%list_elem_of_filter)%list_elem_of_fmap. apply Hp. cbn [fst] in *. rewrite Hk. by apply list_elem_of_fmap_2.
  - intros p (e & -> & [_ He]%list_elem_of_filter)%list_elem_of_fmap. by apply list_elem_of_fmap_2.
Qed.

Lemma remove_all_bps env (g : G) :
  NoDup (breakpoints env).*1 -> cpu_breakpoint_remove_all BP_CPU env g = KRet tt (with_breakpoints (others bp_cpu (breakpoints env)) env) g.
Proof.
  intros Hn. destruct (filter_keys (fun e => bp_cpu e.2 = true) _ Hn) as [H1 H2]. pose proof (remove_bps _ env g H1 Hn H2) as Hr.
  rewrite (without_marked bp_cpu) in Hr by done. exact Hr.
Qed.

Lemma remove_all_wps env (g : G) :
  NoDup (watchpoints env).*1 -> exists g', cpu_watchpoint_remove_all BP_CPU env g = KRet tt (with_watchpoints (others wp_cpu (watchpoints env)) env) g' /\
    the_board g' = the_board g /\ halted g' = halted g.
Proof.
  intros Hn. destruct (filter_keys (fun e => wp_cpu e.2 = true) _ Hn) as [H1 H2]. destruct (remove_wps _ env g H1 Hn H2) as (g' & Hr & Hb). exists g'. split; [|done].
  rewrite (without_marked wp_cpu) in Hr by done. exact Hr.
Qed.

(** ** The state after a reset *)

(** The CPU but for its breakpoints. *)
Definition booted (env : CPUX86State) : CPUX86State :=
  let env := clear_state (on_svm (fun s => with_interrupt_request 0 s) env) in
  let env := with_old_exception (-1) env in
  let env := with_hflags (Z.lor (hflags env) HF_SOFTMMU_MASK) env in
  let env := with_hflags2 (Z.lor (hflags2 env) HF2_GIF_MASK) env in
  let env := put_cr0 0x60000010 env in
  let env := with_smbase 0x30000 (with_a20_mask (-1) env) in
  let env := reset_segs (reset_tables env) in
  let env := with_eflags 0x2 (put_reg R_EDX cpuid_version (with_eip 0xfff0 env)) in
  let env := with_dr (replicate 8 0) (with_msrs (reset_msrs (msrs env)) env) in
  set_dr 7 DR7_FIXED_1 (set_dr 6 DR6_FIXED_1 env).

Definition reset_state (env : CPUX86State) : CPUX86State :=
  with_watchpoints (others wp_cpu (watchpoints env)) (with_breakpoints (others bp_cpu (breakpoints env)) (booted env)).

Definition reset_apic (s : APICCommonState) : APICCommonState :=
  let s := with_a_request 0 s in if (me =? 0)%nat then apic_designate_bsp s else s.

Lemma board_on f (g : G) : the_board (on_board f g) = f (the_board g).
Proof. apply board_put. Qed.
Lemma halted_on f (g : G) : halted (on_board f g) = halted g.
Proof. apply halted_put_board. Qed.

Lemma requests_then f (k : K G unit) env g :
  (on_requests me f ;; k) env g = k (on_svm (fun s => with_interrupt_request (f (interrupt_request s)) s) env) (on_my_apic me (fun s => with_a_request (f (a_request s)) s) g).
Proof. done. Qed.

Lemma update_cr0_ret v env (g : G) : exists g', cpu_x86_update_cr0 v env g = KRet tt (put_cr0 v env) g' /\ the_board g' = the_board g /\ halted g' = halted g.
Proof.
  unfold cpu_x86_update_cr0, kbind, kget, kmem, kmod, kret. destruct (negb _); [|by exists g].
  exists (tlb_flush g). by rewrite board_flush, halted_flush.
Qed.

Lemma ret_then {A B} (m : K G A) (k : A -> K G B) env g a env' g' : m env g = KRet a env' g' -> kbind m k env g = k a env' g'.
Proof. unfold kbind. by intros ->. Qed.

Lemma reset_run env (g : G) :
  NoDup (breakpoints env).*1 -> NoDup (watchpoints env).*1 ->
  exists g', x86_cpu_reset me cpuid_version env g = KRet tt (reset_state env) g' /\
    the_board g' = on_apic me reset_apic (the_board g) /\
    halted g' = negb (match my_apic me g' with Some s => cpu_is_bsp s | None => true end).
Proof.
  intros Hb Hw. unfold x86_cpu_reset. rewrite requests_then. rewrite step_mem. rewrite step_mod. rewrite step_mem. rewrite !step_mod.
  match goal with |- context [kbind (cpu_x86_update_cr0 _) _ ?e ?g] => destruct (update_cr0_ret 0x60000010 e g) as (g2 & Hu & Hg2 & Hh2) end.
  rewrite (ret_then _ _ _ _ _ _ _ Hu). clear Hu. rewrite board_flush, board_put_halted in Hg2. unfold on_my_apic in Hg2. rewrite board_on in Hg2. rewrite !step_mod.
  match goal with |- context [kbind (cpu_breakpoint_remove_all _) _ ?e ?g] =>
    rewrite (ret_then _ _ _ _ _ _ _ (remove_all_bps e g Hb)) end.
  match goal with |- context [kbind (cpu_watchpoint_remove_all _) _ ?e ?g] =>
    destruct (remove_all_wps e g Hw) as (g3 & Hr & Hg3 & _) end.
  rewrite (ret_then _ _ _ _ _ _ _ Hr). clear Hr.
  set (g4 := if (me =? 0)%nat then on_my_apic me apic_designate_bsp g3 else g3).
  exists (put_halted (negb (match my_apic me g4 with Some s => cpu_is_bsp s | None => true end)) g4). split; [|split].
  - unfold kbind, kmem, kret, g4. by destruct (me =? 0)%nat.
  - rewrite board_put_halted. unfold g4, reset_apic, on_my_apic. destruct (me =? 0)%nat; rewrite ?board_on, Hg3, Hg2; [|done].
    unfold on_apic, on_apics. cbn [b_apics b_ioapic b_pics]. f_equal. apply alter_twice.
  - rewrite halted_put. unfold my_apic. by rewrite board_put_halted.
Qed.

(** Pointers of the lists are distinct and allocated. *)
Record lists_ok (env : CPUX86State) : Prop := {
  ls_bp : NoDup (breakpoints env).*1;
  ls_wp : NoDup (watchpoints env).*1;
  ls_bp_fresh : forall p x, (p, x) ∈ breakpoints env -> p < next_ptr env;
  ls_wp_fresh : forall p x, (p, x) ∈ watchpoints env -> p < next_ptr env
}.

Lemma reset_values env :
  eip (reset_state env) = 0xfff0 /\ seg (reset_state env) R_CS = mkSeg 0xf000 0xffff0000 0xffff CODE_FLAGS /\
  crx (reset_state env) 0 = 0x60000010 /\ crx (reset_state env) 4 = 0 /\ eflags (reset_state env) = 2 /\
  hflags (reset_state env) = 0x44 /\ hflags2 (reset_state env) = 1 /\ length (segs (reset_state env)) = 6%nat /\
  sflags (seg (reset_state env) R_SS) = DATA_FLAGS /\ interrupt_request (svm (reset_state env)) = 0.
Proof. split_and!; vm_compute; reflexivity. Qed.

Lemma reset_debug env :
  cpu_breakpoint (reset_state env) = replicate 4 None /\ dr (reset_state env) = [0; 0; 0; 0; 0; 0; DR6_FIXED_1; DR7_FIXED_1] /\
  next_ptr (reset_state env) = next_ptr env /\ breakpoints (reset_state env) = others bp_cpu (breakpoints env) /\
  watchpoints (reset_state env) = others wp_cpu (watchpoints env).
Proof. split_and!; vm_compute; reflexivity. Qed.

Lemma others_mirror {A} (o : Z -> option Z) (e : Z -> A -> Prop) cpu (l : list (Z * A)) next :
  NoDup l.*1 -> (forall p x, (p, x) ∈ l -> p < next) -> (forall i, o i = None) -> mirror o e cpu (others cpu l) next.
Proof.
  intros Hn Hf Ho. split.
  - by apply filter_keys.
  - intros p x [_ Hin]%list_elem_of_filter. by apply (Hf p x).
  - intros i p Hi. by rewrite Ho in Hi.
  - intros p x [Hc _]%list_elem_of_filter Hc'. cbn in Hc. by rewrite Hc in Hc'.
  - intros i j p Hi. by rewrite Ho in Hi.
Qed.

Lemma reset_owned env : lists_ok env -> owned all4 (reset_state env).
Proof.
  intros [Hb Hw Hbf Hwf]. destruct (reset_debug env) as (Hs' & Hd' & Hp' & Hlb & Hlw). generalize dependent (reset_state env). intros r Hs' Hd' Hp' Hlb Hlw.
  assert (forall i, all4 i = true -> is_inst r i = false /\ is_data r i = false) as Hn.
  { intros i Hi. unfold is_inst, is_data, drx. rewrite Hd'. unfold all4 in Hi. assert (i = 0 \/ i = 1 \/ i = 2 \/ i = 3) as Hc by lia.
    by destruct Hc as [->|[->|[->| ->]]]. }
  assert (forall i, bp_own all4 r i = None /\ wp_own all4 r i = None) as Hno.
  { intros i. unfold bp_own, wp_own. destruct (all4 i) eqn:Ei; [|done]. by destruct (Hn i Ei) as [-> ->]. }
  split.
  - by rewrite Hs'.
  - by rewrite Hd'.
  - intros i Hi. unfold all4 in Hi. lia.
  - rewrite Hp', Hlb. apply others_mirror; [done|done|]. intros i. apply Hno.
  - rewrite Hp', Hlw. apply others_mirror; [done|done|]. intros i. apply Hno.
  - intros i Hi Hx. by rewrite (proj1 (Hn i Hi)) in Hx.
  - intros i Hi Hx. by rewrite (proj2 (Hn i Hi)) in Hx.
Qed.

Lemma reset_gdb env : gdb_same env (reset_state env).
Proof.
  assert (forall {A} (cpu : A -> bool) (l : list (Z * A)), others cpu (others cpu l) = others cpu l) as H.
  { intros A cpu l. unfold others. rewrite list_filter_filter. apply filter_on. tauto. }
  destruct (reset_debug env) as (_ & _ & _ & Hlb & Hlw). split; [rewrite Hlb|rewrite Hlw]; apply H.
Qed.

Lemma reset_hidden env : SegInv.hidden_ok (reset_state env) /\ CtrlTlb.hidden_ok (reset_state env) /\ cpl_of (reset_state env) = 0.
Proof.
  destruct (reset_values env) as (_ & Hcs' & H0' & H4' & _ & Hh' & _ & Hl' & Hss' & _). generalize dependent (reset_state env).
  intros r Hcs' H0' H4' Hh' Hl' Hss'. split_and!.
  - unfold SegInv.hidden_ok. by rewrite Hh', Hcs', Hss'.
  - by split; rewrite Hh', ?H0', ?H4'.
  - unfold cpl_of. by rewrite Hh'.
Qed.

Lemma my_apic_on f (g g' : G) : the_board g' = on_apic me f (the_board g) -> my_apic me g' = f <$> my_apic me g.
Proof. intros H. unfold my_apic. rewrite H. apply list_lookup_alter_eq. Qed.

Lemma reset_requests env (g g' : G) : the_board g' = on_apic me reset_apic (the_board g) -> requests me (reset_state env) g' = 0.
Proof.
  intros H. unfold requests. rewrite (my_apic_on _ _ _ H). destruct (reset_values env) as (_ & _ & _ & _ & _ & _ & _ & _ & _ & Hr).
  rewrite Hr. destruct (my_apic me g) as [s|]; [|done]. cbn. unfold reset_apic. by destruct (me =? 0)%nat.
Qed.

(** C11: A reset puts the CPU into a state from which every other theorem can start, whatever it was doing: it runs
    to its end, the next instruction is fetched from 0xfffffff0 in real mode at level 0 with interrupts
    off and no paging, the hidden flags agree with the segments and the control registers, no breakpoint or
    watchpoint of the debug registers is left and those of the debugger stay, no interrupt is requested, and the
    CPU waits exactly if it is not the boot processor. *)
Theorem reset_ready env (g : G) :
  lists_ok env ->
  exists env' g', x86_cpu_reset me cpuid_version env g = KRet tt env' g' /\
    base (seg env' R_CS) + eip env' = 0xfffffff0 /\ in_protected env' = false /\ has (crx env' 0) CR0_PG_MASK = false /\
    cpl_of env' = 0 /\ has (eflags env') IF_MASK = false /\ SegInv.hidden_ok env' /\ CtrlTlb.hidden_ok env' /\
    owned all4 env' /\ gdb_same env env' /\ requests me env' g' = 0 /\
    halted g' = match my_apic me g' with Some s => negb (cpu_is_bsp s) | None => false end.
Proof.
  intros Hl. destruct (reset_run env g (ls_bp _ Hl) (ls_wp _ Hl)) as (g' & Hr & Hb & Hh). exists (reset_state env), g'.
  destruct (reset_hidden env) as (H1 & H2 & H3). split; [done|]. destruct (reset_values env) as (He & Hcs & K2 & _ & K3 & _).
  split; [by rewrite He, Hcs|]. split; [unfold in_protected; fold (crx (reset_state env) 0); by rewrite K2|]. split; [by rewrite K2|]. split; [done|]. split; [by rewrite K3|].
  split; [done|]. split; [done|]. split; [by apply reset_owned|]. split; [apply reset_gdb|]. split; [by apply (reset_requests env g)|].
  rewrite Hh. by destruct (my_apic me g').
Qed.
End Reset.

(** A CPU with a breakpoint of each kind, in the middle of a program, is reset. *)
Definition busy_cpu : CPUX86State :=
  with_next_ptr 8 (with_breakpoints [(5, mkBp 0x1000 BP_GDB); (6, mkBp 0x2000 BP_CPU)] blank_cpu).
Definition some_pc : pc := (fun _ => 0, (mkBoard [mkApic 0 0 0 0 0 0 0 (replicate 8 0) (replicate 8 0) (replicate 8 0) (replicate 6 0) 0 [0; 0] 0 0 0 0 0 (-1) 0 false 0x202 None true] (mkIoapic 0 0 0 []) i8259_init, true)).

Lemma reset_ready_witness :
  exists env' g', x86_cpu_reset 0 0x663 busy_cpu some_pc = KRet tt env' g' /\ owned all4 env' /\ requests 0 env' g' = 0.
Proof.
  assert (lists_ok busy_cpu) as Hl.
  { split; [change (NoDup [5; 6]); apply NoDup_cons; split; [by intros [=]%list_elem_of_singleton|apply NoDup_singleton]|constructor| |by intros p x ?%elem_of_nil].
    intros p x H. cbn in *. repeat (apply elem_of_cons in H as [[= -> ->]|H]; [done|]). by apply elem_of_nil in H. }
  destruct (reset_ready 0 0x663 busy_cpu some_pc Hl) as (env' & g' & H & _ & _ & _ & _ & _ & _ & _ & Ho & _ & Hr & _). by exists env', g'.
Defined.
