(* ===== verification/Exec.v ===== *)
(** * Interrupts between blocks

    The part of [cpu_exec] (src/cpu-exec.c) that serves the requests of devices and of
    other CPUs before the next block of translated code is run. *)

From stdpp Require Import base list.
From Stdlib Require Import ZArith Lia.
From S2P Require Import Prelude Cpu CcHelper Excp Guest Mmu Seg SegSpec SegTask SegInt SoftMmu PhysMem CtrlRegs DebugRegs Msr Smm Svm Pic Apic Board Reset.

Local Open Scope Z_scope.
Local Open Scope k_scope.

Definition CPU_INTERRUPT_MCE : Z := 0x1000.
Definition CPU_INTERRUPT_SSTEP_MASK : Z := 0x125a.
Definition EXCP_HALTED : Z := 0x10003.
Definition EXCP12_MCHK : Z := 18.
Definition SVM_EXIT_SMI : Z := 0x062.
Definition SVM_EXIT_INIT : Z := 0x063.
Definition SVM_EXIT_VINTR : Z := 0x064.
(** offsetof(struct vmcb, control.int_vector) *)
Definition vmcb_int_vector : Z := 0x64.

(** The CPU takes interrupts of the board: in a guest that does not virtualise them
    and outside guests as the interrupt flag and the shadow of [STI] say, otherwise as
    the host had them. *)
Definition irq_enabled (env : CPUX86State) : bool :=
  (has (hflags2 env) HF2_VINTR_MASK && has (hflags2 env) HF2_HIF_MASK) ||
  (negb (has (hflags2 env) HF2_VINTR_MASK) && (has (eflags env) IF_MASK && negb (has (hflags env) HF_INHIBIT_IRQ_MASK))).
Definition virq_enabled (env : CPUX86State) : bool := has (eflags env) IF_MASK && negb (has (hflags env) HF_INHIBIT_IRQ_MASK).

(** The flags in the format of translated code, and back. *)
Definition CC_MASKS : Z := Z.lor (Z.lor (Z.lor (Z.lor (Z.lor CC_O CC_S) CC_Z) CC_A) CC_P) CC_C.
Definition enter_flags (env : CPUX86State) : CPUX86State :=
  let env := with_cc_src (Z.land (eflags env) CC_MASKS) env in
  let env := with_df (1 - 2 * Z.land (Z.shiftr (eflags env) 10) 1) env in
  let env := with_cc_op CC_OP_EFLAGS env in
  with_eflags (Z.land (eflags env) (not32 (Z.lor DF_MASK CC_MASKS))) env.
Definition leave_flags (env : CPUX86State) : CPUX86State :=
  with_eflags (Z.lor (Z.lor (eflags env) (cpu_cc_compute_all env (cc_op env))) (Z.land (df env) DF_MASK)) env.

(** Leaving translated code right after entering it gives the flags back. *)
Lemma flags_return env : in_range 32 (eflags env) -> eflags (leave_flags (enter_flags env)) = eflags env.
Proof.
  intros He. unfold leave_flags, enter_flags. cbn [eflags with_eflags with_cc_src with_df with_cc_op df].
  set (e := eflags env) in *.
  match goal with |- context [cpu_cc_compute_all ?s ?o] => assert (cpu_cc_compute_all s o = Z.land e CC_MASKS) as -> by done end.
  assert (Z.land (1 - 2 * Z.land (Z.shiftr e 10) 1) DF_MASK = Z.land e DF_MASK) as ->.
  { rewrite Z.land_ones with (n := 1) by done. change DF_MASK with (2 ^ 10). rewrite !land_bit by done.
    rewrite <-Z.bit0_mod, Z.shiftr_spec by done. change (0 + 10) with 10. by destruct (Z.testbit e 10). }
  apply Z.bits_inj'. intros i Hi. rewrite !Z.lor_spec, !Z.land_spec. destruct (Z.lt_ge_cases i 32).
  - rewrite testbit_not32, Z.lor_spec by done. destruct (Z.testbit e i), (Z.testbit DF_MASK i), (Z.testbit CC_MASKS i); done.
  - by rewrite !(testbit_high 32 e) by done.
Qed.

Section Exec.
Context {G : Type} `{!SoftMmu G, !IntrHooks G, !PhysMem G, !PcBoard G} (me : nat) (cpuid_version : Z).

#[local] Instance my_chipset : Chipset G := board_chipset me.

Definition cpu_has_work (env : CPUX86State) (g : G) : bool :=
  let req := requests me env g in
  (has req (Z.lor CPU_INTERRUPT_HARD CPU_INTERRUPT_POLL) && has (eflags env) IF_MASK) ||
  has req (Z.lor (Z.lor (Z.lor CPU_INTERRUPT_NMI CPU_INTERRUPT_INIT) CPU_INTERRUPT_SIPI) CPU_INTERRUPT_MCE).

(** Up to the loop; [false]: the CPU stays halted. *)
Definition cpu_exec_start : K G bool :=
  fun env g =>
    if halted g && negb (cpu_has_work env g) then KRet false env g
    else KRet true (with_exception_index (-1) (enter_flags env)) (if halted g then put_halted false g else g).

(** [cpu_get_pic_interrupt] runs in the thread of the CPU. *)
Definition get_vector : K G Z :=
  fun env g => let '(intno, b) := cpu_get_pic_interrupt true me (the_board g) in KRet intno env (put_board b g).

Definition serve_irq : K G unit :=
  cpu_svm_check_intercept_param SVM_EXIT_INTR 0 ;;
  drop_requests me (Z.lor CPU_INTERRUPT_HARD CPU_INTERRUPT_VIRQ) ;;
  intno <- get_vector ;;
  do_interrupt_x86_hardirq intno true.

Definition serve_virq : K G unit :=
  cpu_svm_check_intercept_param SVM_EXIT_VINTR 0 ;;
  (fun env g => do_interrupt_x86_hardirq (s32 (ld_mem 4 (vm_at (vm_vmcb env) vmcb_int_vector) g)) true env g) ;;
  drop_requests me CPU_INTERRUPT_VIRQ.

(** The requests served when the global interrupt flag is set, in their order. *)
Definition serve_events (req : Z) : K G unit :=
  env <- kget ;;
  if has req CPU_INTERRUPT_SMI && negb (has (hflags env) HF_SMM_MASK) then
    cpu_svm_check_intercept_param SVM_EXIT_SMI 0 ;; drop_requests me CPU_INTERRUPT_SMI ;; do_smm_enter
  else if has req CPU_INTERRUPT_NMI && negb (has (hflags2 env) HF2_NMI_MASK) then
    drop_requests me CPU_INTERRUPT_NMI ;;
    kmod (fun env => with_hflags2 (Z.lor (hflags2 env) HF2_NMI_MASK) env) ;;
    do_interrupt_x86_hardirq EXCP02_NMI true
  else if has req CPU_INTERRUPT_MCE then drop_requests me CPU_INTERRUPT_MCE ;; do_interrupt_x86_hardirq EXCP12_MCHK false
  else if has req CPU_INTERRUPT_HARD && irq_enabled env then serve_irq
  else if has req CPU_INTERRUPT_VIRQ && virq_enabled env then serve_virq
  else kret tt.

(** [noirq]: the debugger steps without interrupts ([SSTEP_NOIRQ]). The requests are
    read once; what polling the APIC adds is served the next time. *)
Definition serve_requests (noirq : bool) : K G unit :=
  fun env g =>
    if requests me env g =? 0 then KRet tt env g
    else
      let req := if noirq then Z.land (requests me env g) (not32 CPU_INTERRUPT_SSTEP_MASK) else requests me env g in
      ((if has req CPU_INTERRUPT_DEBUG
        then drop_requests me CPU_INTERRUPT_DEBUG ;; kmod (with_exception_index EXCP_DEBUG) ;; loop_exit else kret tt) ;;
       (if has req CPU_INTERRUPT_POLL then drop_requests me CPU_INTERRUPT_POLL ;; kmem (on_my_apic me (apic_poll_irq true)) else kret tt) ;;
       (if has req CPU_INTERRUPT_INIT then
          cpu_svm_check_intercept_param SVM_EXIT_INIT 0 ;; do_cpu_init me cpuid_version ;;
          kmod (with_exception_index EXCP_HALTED) ;; loop_exit
        else if has req CPU_INTERRUPT_SIPI then do_cpu_sipi me
        else (e <- kget ;; if has (hflags2 e) HF2_GIF_MASK then serve_events req else kret tt)) ;;
       drop_requests me CPU_INTERRUPT_EXITTB) env g.
End Exec.
