(* ===== verification/ExecInv.v ===== *)
(** * Starting a processor

    How [serve_requests] serves INIT and SIPI, and the start of a second processor by
    the two messages. *)

From stdpp Require Import base list.
From Stdlib Require Import ZArith Lia.
From S2P Require Import Prelude Cpu CcHelper Excp Guest Mmu Seg SegSpec SegTask SegInt SegInv SoftMmu SegTracer PhysMem CtrlRegs CtrlTlb DebugRegs DebugInv Msr Image Smm Svm Pic Apic Board ApicInv Reset Exec.

Local Open Scope Z_scope.
Local Open Scope k_scope.

Section Exec.
Context {G : Type} `{!SoftMmu G, !IntrHooks G, !PhysMem G, !PcBoard G, !PcBoardSpec G} (me : nat) (cpuid_version : Z).
#[local] Existing Instance my_chipset.

Lemma no_intercept type param env (g : G) :
  has (hflags env) HF_SVMI_MASK = false -> cpu_svm_check_intercept_param type param env g = KRet tt env g.
Proof. intros H. unfold cpu_svm_check_intercept_param, helper_svm_check_intercept_param, kbind, kget. by rewrite H. Qed.

Lemma drop_run mask env (g : G) :
  drop_requests me mask env g =
  KRet tt (on_svm (fun s => with_interrupt_request (Z.land (interrupt_request s) (not32 mask)) s) env)
    (on_my_apic me (fun s => with_a_request (Z.land (a_request s) (not32 mask)) s) g).
Proof. done. Qed.

Lemma exit_then {A B} (m : K G A) (k : A -> K G B) env g env' g' : m env g = KExit env' g' -> kbind m k env g = KExit env' g'.
Proof. unfold kbind. by intros ->. Qed.

Lemma skip_then {A} (k : K G A) env g : (kret tt ;; k) env g = k env g.
Proof. done. Qed.

(** ** INIT *)

(** The requests of a served POLL; only the requests of the APIC change. *)
Definition polled (s : APICCommonState) : APICCommonState := apic_poll_irq true (with_a_request (Z.land (a_request s) (not32 CPU_INTERRUPT_POLL)) s).

Definition initialised (sipi : Z) (s : APICCommonState) : APICCommonState := apic_init_reset (with_a_request sipi (reset_apic me s)).

Lemma init_run env (g : G) :
  lists_ok env ->
  exists g', do_cpu_init me cpuid_version env g =
      KRet tt (with_msrs (with_pat (pat (msrs env)) (msrs (reset_state cpuid_version env))) (reset_state cpuid_version env)) g' /\
    the_board g' = on_apic me (initialised (Z.land (requests me env g) CPU_INTERRUPT_SIPI)) (the_board g) /\
    halted g' = negb (match my_apic me g' with Some s => cpu_is_bsp s | None => true end).
Proof.
  intros Hl. destruct (reset_run me cpuid_version env g (ls_bp _ Hl) (ls_wp _ Hl)) as (g1 & Hr & Hb & Hh).
  unfold do_cpu_init. rewrite (ret_then _ _ _ _ _ _ _ Hr). rewrite step_mem, step_mod. eexists. split; [reflexivity|].
  unfold on_my_apic. rewrite !board_on, Hb. split.
  - unfold on_apic, on_apics. cbn [b_apics b_ioapic b_pics]. by rewrite !alter_twice.
  - rewrite !halted_on, Hh. unfold my_apic. rewrite !board_on. unfold on_apic, on_apics. cbn [b_apics]. rewrite !list_lookup_alter_eq.
    by destruct (b_apics (the_board g1) !! me).
Qed.

(** An APIC that has the same place on the bus and the same role. *)
Definition same_place (s s' : APICCommonState) : Prop := a_id s' = a_id s /\ a_apicbase s' = a_apicbase s /\ a_icr s' = a_icr s.

Lemma polled_place s : same_place s (polled s).
Proof. unfold polled, apic_poll_irq, apic_update_irq, cpu_interrupt. by repeat case_match. Qed.

(** Serving POLL, if it is requested. *)
Lemma poll_stage (k : K G unit) req env g :
  exists env0 poll g0,
    ((if has req CPU_INTERRUPT_POLL then drop_requests me CPU_INTERRUPT_POLL ;; kmem (on_my_apic me (apic_poll_irq true)) else kret tt) ;; k) env g = k env0 g0 /\
    the_board g0 = on_apic me poll (the_board g) /\ halted g0 = halted g /\ (forall s, same_place s (poll s)) /\
    (exists f, env0 = on_svm (fun s => with_interrupt_request (f (interrupt_request s)) s) env).
Proof.
  destruct (has req CPU_INTERRUPT_POLL).
  - exists (on_svm (fun s => with_interrupt_request (Z.land (interrupt_request s) (not32 CPU_INTERRUPT_POLL)) s) env), polled.
    eexists. split; [reflexivity|]. unfold on_my_apic. rewrite !board_on, !halted_on. split_and!.
    + unfold on_apic, on_apics. cbn [b_apics b_ioapic b_pics]. by rewrite alter_twice.
    + done.
    + apply polled_place.
    + by exists (fun r => Z.land r (not32 CPU_INTERRUPT_POLL)).
  - exists env, (fun s => s), g. split_and!; [done| |done|done|].
    + destruct (the_board g) as [a i p]. unfold on_apic, on_apics. cbn. by rewrite list_alter_id.
    + exists (fun r => r). by destruct env as [? ? ? ? ? ? ? ? ? ? ? ? ? ? ? ? ? ? ? ? ? ? ? ? ? ? ? ? ? ? ? ? ? ? ? ? ? ? ? [] ?].
Qed.

(** The CPU after INIT, reset but for the register of page attributes. *)
Definition init_state (env : CPUX86State) : CPUX86State :=
  with_exception_index EXCP_HALTED (with_msrs (with_pat (pat (msrs env)) (msrs (reset_state cpuid_version env))) (reset_state cpuid_version env)).

Lemma init_served env (g : G) :
  lists_ok env -> has (hflags env) HF_SVMI_MASK = false ->
  has (requests me env g) CPU_INTERRUPT_INIT = true -> has (requests me env g) CPU_INTERRUPT_DEBUG = false ->
  exists env0 g' poll sipi, serve_requests me cpuid_version false env g = KExit (init_state env0) g' /\ lists_ok env0 /\
    the_board g' = on_apic me (fun s => initialised sipi (poll s)) (the_board g) /\ (forall s, same_place s (poll s)) /\
    (sipi = 0 \/ sipi = CPU_INTERRUPT_SIPI) /\
    halted g' = negb (match my_apic me g' with Some s => cpu_is_bsp s | None => true end).
Proof.
  intros Hl Hs Hi Hd. unfold serve_requests. destruct (Z.eqb_spec (requests me env g) 0) as [E|_]; [by rewrite E in Hi|]. cbv zeta. rewrite Hd.
  match goal with |- context [kbind (kret tt) (fun _ => ?k)] => change (kbind (kret tt) (fun _ => k)) with k end.
  match goal with |- context [kbind (if has ?r CPU_INTERRUPT_POLL then _ else _) (fun _ => ?k)] =>
    destruct (poll_stage k r env g) as (env0 & poll & g0 & -> & Hb0 & _ & Hp & f & He0) end.
  rewrite Hi. assert (lists_ok env0) as Hl0 by (subst env0; by destruct Hl). assert (has (hflags env0) HF_SVMI_MASK = false) as Hs0 by (by subst env0).
  clear He0. destruct (init_run env0 g0 Hl0) as (g' & Hr & Hb & Hh).
  exists env0, g', poll, (Z.land (requests me env0 g0) CPU_INTERRUPT_SIPI). split; [|split; [done|]].
  - apply exit_then. rewrite (ret_then _ _ _ _ _ _ _ (no_intercept SVM_EXIT_INIT 0 env0 g0 Hs0)). rewrite (ret_then _ _ _ _ _ _ _ Hr). done.
  - rewrite Hb, Hb0. unfold on_apic, on_apics. cbn [b_apics b_ioapic b_pics]. rewrite alter_twice. split_and!; [done|done| |done].
    change CPU_INTERRUPT_SIPI with (2 ^ 11). rewrite land_bit by done. destruct (Z.testbit _ 11); [by right|by left].
Qed.
End Exec.

(** ** The interrupt command register *)

Definition ids (b : board) : list Z := a_id <$> b_apics b.

Lemma deliver_length self i dest dm mode v trig b : length (apic_deliver self i dest dm mode v trig b) = length b.
Proof.
  unfold apic_deliver, apic_bus_deliver, foreach_apic. cbv zeta. set (mask := if _ =? 0 then _ else _). clearbody mask.
  repeat case_match; by rewrite ?length_imap, ?length_alter.
Qed.

Definition ICR_INIT : Z := 0xc500.
Definition ICR_SIPI (v : Z) : Z := 0x600 + v.

(** A write of the low word sends the message; [y] is the high word. *)
Lemma icr_write now i val b sender x y :
  b_apics b !! i = Some sender -> a_icr sender = [x; y] ->
  b_apics (apic_mem_writel true now i 0x300 val b) =
  apic_deliver true i (Z.land (Z.shiftr y 24) 0xff) (Z.land (Z.shiftr val 11) 1) (Z.land (Z.shiftr val 8) 7) (Z.land val 0xff) (Z.land (Z.shiftr val 15) 1)
    (alter (with_a_icr [val; y]) i (b_apics b)).
Proof.
  intros Hi Hy. unfold apic_mem_writel. change (Z.land (Z.shiftr 0x300 4) 0xff) with 0x30.
  cbn [Z.ltb Z.compare Pos.compare Pos.compare_cont orb Z.eqb Pos.eqb]. cbv zeta. unfold on_apic, on_apics. cbn [b_apics].
  assert (alter (fun s => with_a_icr (<[0%nat:=val]> (a_icr s)) s) i (b_apics b) = alter (with_a_icr [val; y]) i (b_apics b)) as ->.
  { apply list_eq. intros j. destruct (decide (i = j)) as [<-|Hn]; [|by rewrite !list_lookup_alter_ne]. rewrite !list_lookup_alter_eq, Hi. cbn. by rewrite Hy. }
  by rewrite list_lookup_alter_eq, Hi.
Qed.

Lemma ipi_effect_id self icr0 mode v trig s : a_id (ipi_effect self icr0 mode v trig s) = a_id s.
Proof. unfold ipi_effect, apic_set_irq, apic_update_irq, cpu_interrupt. by repeat case_match. Qed.

Lemma ids_alter f i (b : list APICCommonState) : (forall s, a_id (f s) = a_id s) -> a_id <$> alter f i b = a_id <$> b.
Proof. intros Hf. apply list_eq. intros j. rewrite !list_lookup_fmap. destruct (decide (i = j)) as [<-|]; [rewrite list_lookup_alter_eq|by rewrite list_lookup_alter_ne]. destruct (b !! i); [|done]. cbn. by rewrite Hf. Qed.

Section Ipi.
Context (now : Z) (i me : nat) (val : Z) (b : board) (sender s : APICCommonState) (x y : Z).
Context (Hi : b_apics b !! i = Some sender) (Hicr : a_icr sender = [x; y]) (Hme : b_apics b !! me = Some s) (Hne : i <> me).
Context (Hids : NoDup (ids b)) (Hlen : (length (b_apics b) <= MAX_APICS)%nat) (Hdest : Z.land (Z.shiftr y 24) 0xff = a_id s) (Hbc : a_id s <> 0xff).
Context (Hsh : Z.land (Z.shiftr val 18) 3 = 0) (Hdm : Z.land (Z.shiftr val 11) 1 = 0) (Hmode : Z.land (Z.shiftr val 8) 7 <> APIC_DM_LOWPRI).

(** A message to the APIC at [me], by its id. *)
Lemma ipi_at :
  let b' := apic_mem_writel true now i 0x300 val b in
  b_apics b' !! me = Some (ipi_effect true val (Z.land (Z.shiftr val 8) 7) (Z.land val 0xff) (Z.land (Z.shiftr val 15) 1) s) /\
  b_apics b' !! i = Some (with_a_icr [val; y] sender) /\ ids b' = ids b /\ length (b_apics b') = length (b_apics b).
Proof.
  cbv zeta. unfold ids. rewrite (icr_write now i val b sender x y Hi Hicr). set (c := alter (with_a_icr [val; y]) i (b_apics b)).
  assert (c !! i = Some (with_a_icr [val; y] sender)) as Hci by (unfold c; by rewrite list_lookup_alter_eq, Hi).
  assert (c !! me = Some s) as Hcme by (unfold c; by rewrite list_lookup_alter_ne).
  assert (a_id <$> c = a_id <$> b_apics b) as Hcids by (by apply ids_alter). assert (length c = length (b_apics b)) as Hcl by apply length_alter.
  assert (0 <= Z.land (Z.shiftr y 24) 0xff < 256) as Hd by apply land_low_byte.
  assert (forall j t, c !! j = Some t -> apic_deliver true i (Z.land (Z.shiftr y 24) 0xff) (Z.land (Z.shiftr val 11) 1) (Z.land (Z.shiftr val 8) 7) (Z.land val 0xff) (Z.land (Z.shiftr val 15) 1) c !! j =
    Some (if a_id t =? a_id s then ipi_effect true val (Z.land (Z.shiftr val 8) 7) (Z.land val 0xff) (Z.land (Z.shiftr val 15) 1) t else t)) as Hall.
  { intros j t Ht. rewrite (deliver_at true i (with_a_icr [val; y] sender) _ _ _ _ _ c j t); [|by rewrite Hcids|by rewrite Hcl|done|done|done].
    cbn [a_icr with_a_icr nth]. unfold targeted. rewrite Hsh, Hdm, Hdest. cbn [Z.eqb]. unfold addressed. cbn [Z.eqb]. rewrite (proj2 (Z.eqb_neq _ _) Hbc).
    rewrite (proj2 (Z.eqb_neq _ _) Hmode). cbn [negb orb]. by rewrite andb_true_r. }
  split_and!.
  - rewrite (Hall me s Hcme). by rewrite Z.eqb_refl.
  - rewrite (Hall i _ Hci). cbn [a_id with_a_icr]. destruct (Z.eqb_spec (a_id sender) (a_id s)) as [E|]; [|done]. exfalso. apply Hne.
    apply (NoDup_lookup (ids b) i me (a_id s)); [done|..]; unfold ids; rewrite list_lookup_fmap, ?Hi, ?Hme; [by rewrite <-E|done].
  - rewrite <-Hcids. apply list_eq. intros j. rewrite !list_lookup_fmap. destruct (c !! j) as [t|] eqn:Ej.
    + rewrite (Hall j t Ej). cbn. case_match; [by rewrite ipi_effect_id|done].
    + rewrite (proj2 (lookup_ge_None _ _)); [done|]. rewrite deliver_length. by apply lookup_ge_None.
  - by rewrite deliver_length.
Qed.
End Ipi.

(** ** SIPI *)

Section Start.
Context {G : Type} `{!SoftMmu G, !IntrHooks G, !PhysMem G, !PcBoard G, !PcBoardSpec G} (me : nat) (cpuid_version : Z).
#[local] Existing Instance my_chipset.

Definition drop_svm (mask : Z) : CPUX86State -> CPUX86State := on_svm (fun s => with_interrupt_request (Z.land (interrupt_request s) (not32 mask)) s).
Definition drop_apic (mask : Z) (s : APICCommonState) : APICCommonState := with_a_request (Z.land (a_request s) (not32 mask)) s.

(** The state of a started CPU. *)
Definition sipi_state (v : Z) (env : CPUX86State) : CPUX86State :=
  let env := with_eip 0 env in
  cpu_x86_load_seg_cache R_CS (Z.shiftl v 8) (Z.shiftl v 12) (limit (seg env R_CS)) (sflags (seg env R_CS)) env.

Lemma sipi_served env (g : G) s :
  my_apic me g = Some s -> a_wait_for_sipi s = true -> requests me env g = CPU_INTERRUPT_SIPI ->
  exists g', serve_requests me cpuid_version false env g =
      KRet tt (drop_svm CPU_INTERRUPT_EXITTB (sipi_state (a_sipi_vector s) (drop_svm CPU_INTERRUPT_SIPI env))) g' /\
    the_board g' = on_apic me (fun s => drop_apic CPU_INTERRUPT_EXITTB (with_a_wait_for_sipi false (drop_apic CPU_INTERRUPT_SIPI s))) (the_board g) /\
    halted g' = false.
Proof.
  intros Hs Hw Hr. unfold serve_requests. rewrite Hr. change (CPU_INTERRUPT_SIPI =? 0) with false. cbv iota zeta.
  change (has CPU_INTERRUPT_SIPI CPU_INTERRUPT_DEBUG) with false. change (has CPU_INTERRUPT_SIPI CPU_INTERRUPT_POLL) with false.
  change (has CPU_INTERRUPT_SIPI CPU_INTERRUPT_INIT) with false. change (has CPU_INTERRUPT_SIPI CPU_INTERRUPT_SIPI) with true. cbv iota.
  set (g1 := on_my_apic me (drop_apic CPU_INTERRUPT_SIPI) g).
  assert (my_apic me g1 = Some (drop_apic CPU_INTERRUPT_SIPI s)) as Hs1 by (rewrite (my_apic_on me (drop_apic CPU_INTERRUPT_SIPI) g g1); [by rewrite Hs|apply board_on]).
  set (g2 := on_my_apic me (with_a_wait_for_sipi false) (put_halted false g1)).
  exists (on_my_apic me (drop_apic CPU_INTERRUPT_EXITTB) g2).
  assert (do_cpu_sipi me env g = KRet tt (sipi_state (a_sipi_vector s) (drop_svm CPU_INTERRUPT_SIPI env)) g2) as Hd.
  { unfold do_cpu_sipi, apic_sipi. rewrite (ret_then _ _ _ _ _ _ _ (drop_run me CPU_INTERRUPT_SIPI env g)). change (on_my_apic me _ g) with g1.
    rewrite Hs1. cbn [a_wait_for_sipi drop_apic with_a_request a_sipi_vector]. rewrite Hw. done. }
  split; [|split].
  - rewrite !skip_then.
    rewrite (ret_then _ _ _ _ _ _ _ Hd). done.
  - unfold on_my_apic. rewrite board_on. unfold g2, on_my_apic. rewrite board_on, board_put_halted. unfold g1, on_my_apic. rewrite board_on.
    unfold on_apic, on_apics. cbn [b_apics b_ioapic b_pics]. by rewrite !alter_twice.
  - unfold on_my_apic at 1. rewrite halted_on. unfold g2, on_my_apic at 1. rewrite halted_on. apply halted_put.
Qed.

(** From the exit with EXCP_HALTED to the next round of the loop, and the state SIPI leads to. *)
Definition woken (env : CPUX86State) : CPUX86State := with_exception_index (-1) (enter_flags (leave_flags (init_state cpuid_version env))).
Definition started (v : Z) (env : CPUX86State) : CPUX86State :=
  drop_svm CPU_INTERRUPT_EXITTB (sipi_state v (drop_svm CPU_INTERRUPT_SIPI (woken env))).

Lemma woken_values env :
  length (segs (drop_svm CPU_INTERRUPT_SIPI (woken env))) = 6%nat /\
  limit (seg (drop_svm CPU_INTERRUPT_SIPI (woken env)) R_CS) = 0xffff /\ sflags (seg (drop_svm CPU_INTERRUPT_SIPI (woken env)) R_CS) = CODE_FLAGS /\
  interrupt_request (svm (woken env)) = 0 /\ interrupt_request (svm (leave_flags (init_state cpuid_version env))) = 0.
Proof. split_and!; vm_compute; reflexivity. Qed.

Lemma sipi_seg m v env :
  length (segs env) = 6%nat ->
  seg (drop_svm m (sipi_state v env)) R_CS = mkSeg (u32 (Z.shiftl v 8)) (u32 (Z.shiftl v 12)) (u32 (limit (seg env R_CS))) (u32 (sflags (seg env R_CS))).
Proof.
  intros Hl. assert (forall e, seg (drop_svm m e) R_CS = seg e R_CS) as -> by done. unfold sipi_state. rewrite seg_load; [|done|unfold R_CS; lia].
  by rewrite decide_True.
Qed.

Lemma started_values v env :
  eip (started v env) = 0 /\ seg (started v env) R_CS = mkSeg (u32 (Z.shiftl v 8)) (u32 (Z.shiftl v 12)) 0xffff CODE_FLAGS /\
  crx (started v env) 0 = 0x60000010 /\ hflags (started v env) = 0x44 /\ length (segs (started v env)) = 6%nat /\
  sflags (seg (started v env) R_SS) = DATA_FLAGS /\ interrupt_request (svm (started v env)) = 0.
Proof.
  split; [vm_compute; reflexivity|]. split.
  - destruct (woken_values env) as (Hl & H1 & H2 & _). unfold started. rewrite sipi_seg by done. by rewrite H1, H2.
  - split_and!; vm_compute; reflexivity.
Qed.

Lemma icr_sipi_fields v : 0 <= v < 256 ->
  Z.land (Z.shiftr (ICR_SIPI v) 18) 3 = 0 /\ Z.land (Z.shiftr (ICR_SIPI v) 11) 1 = 0 /\ Z.land (Z.shiftr (ICR_SIPI v) 8) 7 = APIC_DM_SIPI /\
  Z.land (ICR_SIPI v) 0xff = v.
Proof.
  intros Hv. unfold ICR_SIPI. rewrite !Z.shiftr_div_pow2 by done.
  rewrite (Z.div_small _ (2 ^ 18)), (Z.div_small _ (2 ^ 11)) by lia. assert ((0x600 + v) / 2 ^ 8 = 6) as -> by (symmetry; apply (Z.div_unique _ _ _ v); lia).
  split_and!; [done..|]. change 0xff with (Z.ones 8). rewrite Z.land_ones by done. symmetry. apply (Z.mod_unique _ _ 6); lia.
Qed.

(** A CPU at [me] other than the boot processor, and one at [i] whose command register is addressed to it. *)
Record ap_at (i : nat) (y : Z) (s : APICCommonState) (b : board) : Prop := {
  ap_apic : b_apics b !! me = Some s;
  ap_sender : exists sender x, b_apics b !! i = Some sender /\ a_icr sender = [x; y];
  ap_other : i <> me;
  ap_ids : NoDup (ids b);
  ap_len : (length (b_apics b) <= MAX_APICS)%nat;
  ap_dest : Z.land (Z.shiftr y 24) 0xff = a_id s;
  ap_id : a_id s <> 0xff;
  ap_role : cpu_is_bsp s = false
}.

(** It stays addressed after a message and after a change of its own APIC. *)
Lemma ap_message now i y s b val :
  ap_at i y s b -> Z.land (Z.shiftr val 18) 3 = 0 -> Z.land (Z.shiftr val 11) 1 = 0 -> Z.land (Z.shiftr val 8) 7 <> APIC_DM_LOWPRI ->
  let s' := ipi_effect true val (Z.land (Z.shiftr val 8) 7) (Z.land val 0xff) (Z.land (Z.shiftr val 15) 1) s in
  cpu_is_bsp s' = false -> ap_at i y s' (apic_mem_writel true now i 0x300 val b).
Proof.
  intros [H1 (sender & x & H2 & H2') H3 H4 H5 H6 H7 H8] V1 V2 V3 s' Hb.
  destruct (ipi_at now i me val b sender s x y H2 H2' H1 H3 H4 H5 H6 H7 V1 V2 V3) as (K1 & K2 & K3 & K4).
  split; [done|by exists (with_a_icr [val; y] sender), val|done|by rewrite K3|by rewrite K4| | |done]; unfold s'; by rewrite ipi_effect_id.
Qed.

Lemma ap_own i y s b f :
  ap_at i y s b -> (forall t, a_id (f t) = a_id t) -> cpu_is_bsp (f s) = false -> ap_at i y (f s) (on_apic me f b).
Proof.
  intros [H1 (sender & x & H2 & H2') H3 H4 H5 H6 H7 H8] Hf Hb. unfold on_apic, on_apics. split; cbn [b_apics]; [by rewrite list_lookup_alter_eq, H1| |done| | | | |done].
  - exists sender, x. by rewrite list_lookup_alter_ne.
  - unfold ids. cbn [b_apics]. by rewrite ids_alter.
  - by rewrite length_alter.
  - by rewrite Hf.
  - by rewrite Hf.
Qed.

Lemma initialised_facts sipi s : me <> 0%nat ->
  a_id (initialised me sipi s) = a_id s /\ cpu_is_bsp (initialised me sipi s) = cpu_is_bsp s /\
  a_wait_for_sipi (initialised me sipi s) = true /\ a_request (initialised me sipi s) = sipi.
Proof. intros Hm. unfold initialised, reset_apic. by destruct (Nat.eqb_spec me 0). Qed.

Lemma initialised_id sipi s : a_id (initialised me sipi s) = a_id s.
Proof. unfold initialised, reset_apic. by destruct (me =? 0)%nat. Qed.

(** The CPU is initialised by the first message. *)
Lemma init_message now i y s env (g : G) :
  ap_at i y s (the_board g) -> me <> 0%nat -> lists_ok env -> has (hflags env) HF_SVMI_MASK = false -> has (requests me env g) CPU_INTERRUPT_DEBUG = false ->
  exists env0 g1 s1, serve_requests me cpuid_version false env (on_board (apic_mem_writel true now i 0x300 ICR_INIT) g) = KExit (init_state cpuid_version env0) g1 /\
    halted g1 = true /\ ap_at i y s1 (the_board g1) /\ a_wait_for_sipi s1 = true /\ (a_request s1 = 0 \/ a_request s1 = CPU_INTERRUPT_SIPI).
Proof.
  intros Ha Hm Hl Hs Hd. set (g0 := on_board _ g).
  pose proof (ap_message now i y s (the_board g) ICR_INIT Ha eq_refl eq_refl ltac:(done) (ap_role _ _ _ _ Ha)) as H0.
  change (ipi_effect _ _ _ _ _ s) with (cpu_interrupt CPU_INTERRUPT_INIT s) in H0. assert (the_board g0 = apic_mem_writel true now i 0x300 ICR_INIT (the_board g)) as Hb0 by apply board_on.
  rewrite <-Hb0 in H0. assert (requests me env g0 = Z.lor (requests me env g) CPU_INTERRUPT_INIT) as Hr.
  { unfold requests, my_apic. rewrite (ap_apic _ _ _ _ H0), (ap_apic _ _ _ _ Ha). cbn [a_request cpu_interrupt with_a_request]. by rewrite Z.lor_assoc. }
  destruct (init_served me cpuid_version env g0 Hl Hs) as (env0 & g1 & poll & sipi & Hk & _ & Hb & Hp & Hsipi & Hh).
  { rewrite Hr. change CPU_INTERRUPT_INIT with (2 ^ 10). by rewrite has_bit, Z.lor_spec, Z.pow2_bits_true, orb_true_r by done. }
  { rewrite Hr. revert Hd. change CPU_INTERRUPT_DEBUG with (2 ^ 7). change CPU_INTERRUPT_INIT with (2 ^ 10). rewrite !has_bit, Z.lor_spec by done.
    intros ->. by rewrite Z.pow2_bits_false by lia. }
  set (t := cpu_interrupt CPU_INTERRUPT_INIT s) in *. destruct (Hp t) as (P1 & P2 & _). destruct (initialised_facts sipi (poll t) Hm) as (F1 & F2 & F3 & F4).
  assert (cpu_is_bsp (initialised me sipi (poll t)) = false) as Hbsp by (rewrite F2; unfold cpu_is_bsp; rewrite P2; exact (ap_role _ _ _ _ Ha)).
  exists env0, g1, (initialised me sipi (poll t)). split; [done|]. split.
  - rewrite Hh. unfold my_apic. rewrite Hb. unfold on_apic, on_apics. cbn [b_apics]. rewrite list_lookup_alter_eq, (ap_apic _ _ _ _ H0). cbn. by rewrite Hbsp.
  - split; [|by rewrite F3, F4]. rewrite Hb. apply (ap_own i y t _ (fun s => initialised me sipi (poll s)) H0); [|done].
    intros u. rewrite initialised_id. apply Hp.
Qed.

(** The second message wakes it and starts it at page [v]. *)
Lemma sipi_message now i y s1 v env0 (g1 : G) :
  ap_at i y s1 (the_board g1) -> a_wait_for_sipi s1 = true -> (a_request s1 = 0 \/ a_request s1 = CPU_INTERRUPT_SIPI) -> halted g1 = true -> 0 <= v < 256 ->
  exists g2 g3 s3, cpu_exec_start me (leave_flags (init_state cpuid_version env0)) (on_board (apic_mem_writel true now i 0x300 (ICR_SIPI v)) g1) = KRet true (woken env0) g2 /\
    serve_requests me cpuid_version false (woken env0) g2 = KRet tt (started v env0) g3 /\ halted g3 = false /\
    my_apic me g3 = Some s3 /\ a_wait_for_sipi s3 = false /\ requests me (started v env0) g3 = 0.
Proof.
  intros Ha Hw Hreq Hh Hv. destruct (icr_sipi_fields v Hv) as (V1 & V2 & V3 & V4). set (g0 := on_board _ g1).
  destruct (woken_values env0) as (_ & _ & _ & W1 & W2). destruct (started_values v env0) as (_ & _ & _ & _ & _ & _ & W3).
  pose proof (ap_message now i y s1 (the_board g1) (ICR_SIPI v) Ha V1 V2) as H0. cbv zeta in H0. rewrite V3, V4 in H0. specialize (H0 ltac:(done) (ap_role _ _ _ _ Ha)).
  change (ipi_effect _ _ _ _ _ s1) with (cpu_interrupt CPU_INTERRUPT_SIPI (with_a_sipi_vector v s1)) in H0.
  assert (the_board g0 = apic_mem_writel true now i 0x300 (ICR_SIPI v) (the_board g1)) as Hb0 by apply board_on. rewrite <-Hb0 in H0.
  set (s2 := cpu_interrupt CPU_INTERRUPT_SIPI (with_a_sipi_vector v s1)) in *. pose proof (ap_apic _ _ _ _ H0 : my_apic me g0 = Some s2) as Hs2.
  assert (a_request s2 = CPU_INTERRUPT_SIPI) as Hq by (cbn; destruct Hreq as [-> | ->]; done).
  assert (halted g0 = true) as Hh0 by (unfold g0; by rewrite halted_on).
  assert (my_apic me (put_halted false g0) = Some s2) as Hs2' by (unfold my_apic; rewrite board_put_halted; exact Hs2).
  destruct (sipi_served (woken env0) (put_halted false g0) s2 Hs2' Hw) as (g3 & Hk & Hb & Hh3).
  { unfold requests. by rewrite Hs2', W1, Hq. }
  exists (put_halted false g0), g3. eexists. split; [|split; [exact Hk|split; [exact Hh3|split]]].
  - unfold cpu_exec_start, cpu_has_work, requests. rewrite Hh0, Hs2, W2, Hq. done.
  - rewrite (my_apic_on me _ _ _ Hb), Hs2'. reflexivity.
  - split; [done|]. unfold requests. rewrite (my_apic_on me _ _ _ Hb), Hs2', W3. cbn [fmap option_fmap option_map a_request drop_apic with_a_request with_a_wait_for_sipi]. by rewrite Hq.
Qed.

(** C10: The processors are started by INIT and SIPI: whatever a processor other than the first is doing outside a
    virtual machine, the INIT message resets it and leaves it halted, and the SIPI message with page [v], sent
    to it afterwards, wakes it and makes it run from that page in real mode at level 0, with hidden flags that agree with
    its segments, no request left, and deaf to a further SIPI. *)
Theorem ap_starts now i y s v env (g : G) :
  ap_at i y s (the_board g) -> me <> 0%nat -> lists_ok env -> has (hflags env) HF_SVMI_MASK = false ->
  has (requests me env g) CPU_INTERRUPT_DEBUG = false -> 0 <= v < 256 ->
  let send val g := on_board (apic_mem_writel true now i 0x300 val) g in
  exists env1 g1, serve_requests me cpuid_version false env (send ICR_INIT g) = KExit env1 g1 /\ halted g1 = true /\
  exists env2 g2 env3 g3, cpu_exec_start me (leave_flags env1) (send (ICR_SIPI v) g1) = KRet true env2 g2 /\
    serve_requests me cpuid_version false env2 g2 = KRet tt env3 g3 /\ halted g3 = false /\
    eip env3 = 0 /\ seg env3 R_CS = mkSeg (v * 256) (v * 4096) 0xffff CODE_FLAGS /\ in_protected env3 = false /\ cpl_of env3 = 0 /\
    SegInv.hidden_ok env3 /\ requests me env3 g3 = 0 /\ exists s3, my_apic me g3 = Some s3 /\ a_wait_for_sipi s3 = false.
Proof.
  intros Ha Hm Hl Hs Hd Hv send. destruct (init_message now i y s env g Ha Hm Hl Hs Hd) as (env0 & g1 & s1 & Hk & Hh & Ha1 & Hw & Hq).
  exists (init_state cpuid_version env0), g1. split; [exact Hk|]. split; [done|].
  destruct (sipi_message now i y s1 v env0 g1 Ha1 Hw Hq Hh Hv) as (g2 & g3 & s3 & H1 & H2 & H3 & H4 & H5 & H6).
  exists (woken env0), g2, (started v env0), g3. destruct (started_values v env0) as (E1 & E2 & E3 & E4 & E5 & E6 & _).
  generalize dependent (started v env0). intros e H2 H6 E1 E2 E3 E4 E5 E6.
  assert (u32 (Z.shiftl v 8) = v * 256 /\ u32 (Z.shiftl v 12) = v * 4096) as [U1 U2] by (rewrite !Z.shiftl_mul_pow2 by done; split; apply u32_id; lia).
  rewrite U1, U2 in E2. split_and!; try done.
  - unfold in_protected. fold (crx e 0). by rewrite E3.
  - unfold cpl_of. by rewrite E4.
  - unfold SegInv.hidden_ok. by rewrite E4, E2, E6.
  - by exists s3.
Qed.
End Start.

(** ** A concrete start *)

Definition pc_hooks : IntrHooks pc := {| on_interrupt _ := kret tt; on_iret := kret tt |}.

(** The boot processor has addressed its command register to the second processor, which is in the middle of a program. *)
Definition start_apic (base id : Z) (icr : list Z) : APICCommonState :=
  mkApic base id 0 0 0x1ff 0 0xf (replicate 8 0) (replicate 8 0) (replicate 8 0) (replicate 6 APIC_LVT_MASKED) 0 icr 0 0 0 0 0 (-1) 0 false 0 None true.
Definition second_apic : APICCommonState := start_apic 0xfee00800 1 [0; 0].
Definition start_pc : pc :=
  (fun _ => 0, (mkBoard [start_apic 0xfee00900 0 [0; Z.shiftl 1 24]; second_apic] (mkIoapic 0 0 0 []) i8259_init, false)).

Lemma start_ap : ap_at 1 0 (Z.shiftl 1 24) second_apic (the_board start_pc).
Proof.
  split; try done.
  - exists (start_apic 0xfee00900 0 [0; Z.shiftl 1 24]), 0. done.
  - change (NoDup [0; 1]). apply NoDup_cons. split; [by intros [=]%list_elem_of_singleton|apply NoDup_singleton].
  - unfold MAX_APICS. cbn. lia.
Qed.

Lemma ap_starts_witness :
  exists env1 g1 env2 g2 env3 g3,
    serve_requests (IntrHooks0 := pc_hooks) 1 0x663 false blank_cpu (on_board (apic_mem_writel true 0 0 0x300 ICR_INIT) start_pc) = KExit env1 g1 /\
    cpu_exec_start 1 (leave_flags env1) (on_board (apic_mem_writel true 0 0 0x300 (ICR_SIPI 0x9a)) g1) = KRet true env2 g2 /\
    serve_requests (IntrHooks0 := pc_hooks) 1 0x663 false env2 g2 = KRet tt env3 g3 /\ base (seg env3 R_CS) = 0x9a000 /\ halted g3 = false.
Proof.
  assert (lists_ok blank_cpu) as Hl by (split; [constructor|constructor|by intros p x ?%elem_of_nil|by intros p x ?%elem_of_nil]).
  destruct (ap_starts (IntrHooks0 := pc_hooks) 1 0x663 0 0 (Z.shiftl 1 24) second_apic 0x9a blank_cpu start_pc start_ap ltac:(done) Hl eq_refl eq_refl ltac:(lia))
    as (env1 & g1 & H1 & _ & env2 & g2 & env3 & g3 & H2 & H3 & H4 & _ & H5 & _).
  exists env1, g1, env2, g2, env3, g3. split; [exact H1|]. split; [exact H2|]. split; [exact H3|]. split; [by rewrite H5|exact H4].
Defined.
