(* ===== verification/ExecIrq.v ===== *)
(** * From a device to the handler

    A line of the board, routed through the I/O APIC, reaches the CPUs its entry names;
    a CPU that takes interrupts enters the handler of the vector, and one that does
    not keeps the request. *)

From stdpp Require Import base list.
From Stdlib Require Import ZArith Lia.
From S2P Require Import Prelude Cpu CcHelper Excp Guest Mmu Seg SegSpec SegTask SegInt SoftMmu SegTracer PhysMem CtrlRegs DebugRegs Image Smm Svm Pic Apic Board ApicInv Reset Exec ExecInv.

Local Open Scope Z_scope.
Local Open Scope k_scope.

(** ** The I/O APIC *)

(** With the 8259s shut off from the CPUs, what they signal changes nothing else. *)
Definition pics_off (b : board) : Prop := Forall (fun s => apic_accept_pic_intr s = false) (b_apics b).

Lemma request_off self level b : pics_off b -> b_apics (pic_irq_request self level b) = b_apics b /\ b_ioapic (pic_irq_request self level b) = b_ioapic b.
Proof.
  intros Hp. split; [|done]. unfold pic_irq_request, on_apics. cbn [b_apics]. unfold pics_off in Hp.
  induction (b_apics b) as [|s l IH]; [done|]. apply Forall_cons in Hp as [Hs Hp]. cbn. rewrite Hs. f_equal. by apply IH.
Qed.

Lemma with_pics_off {A} self (f : pics -> A * pics) b :
  pics_off b -> b_apics (with_pics self f b).2 = b_apics b /\ b_ioapic (with_pics self f b).2 = b_ioapic b.
Proof.
  intros Hp. unfold with_pics. destruct (f (b_pics b)) as [x p]. cbn [snd].
  induction (take _ _) as [|level ls IH]; [done|]. cbn [foldr]. destruct IH as [I1 I2].
  destruct (request_off self level (foldr (pic_irq_request self) (mkBoard (b_apics b) (b_ioapic b) p) ls)) as [R1 R2]; [unfold pics_off; by rewrite I1|].
  by rewrite R1, R2, I1, I2.
Qed.

(** A pin of the I/O APIC routed to a vector, edge triggered, on a board in which nothing else is going on there. *)
Record routed (n : nat) (v : Z) (b : board) : Prop := {
  ro_pin : (0 < n < IOAPIC_NUM_PINS)%nat;
  ro_idle : io_irr (b_ioapic b) = 0;
  ro_edge : Z.land (Z.shiftr (redirection b n) 15) 1 = 0;
  ro_high : has (redirection b n) (Z.shiftl 1 13) = false;
  ro_open : has (redirection b n) IOAPIC_LVT_MASKED = false;
  ro_mode : Z.land (Z.shiftr (redirection b n) 8) 7 = APIC_DM_FIXED;
  ro_vector : Z.land (redirection b n) 0xff = v;
  ro_entry : in_range 64 (redirection b n);
  ro_off : pics_off b;
  ro_ids : NoDup (ids b);
  ro_len : (length (b_apics b) <= MAX_APICS)%nat
}.

Lemma has_pin x i j : has (Z.shiftl 1 (Z.of_nat i)) (Z.shiftl 1 (Z.of_nat j)) = (i =? j)%nat /\ has 0 x = false.
Proof.
  split; [|done]. rewrite !Z.shiftl_1_l, has_bit by lia. destruct (Nat.eqb_spec i j) as [->|]; [by rewrite Z.pow2_bits_true by lia|by rewrite Z.pow2_bits_false by lia].
Qed.

(** Only the requested pin is served. *)
Lemma service_skip self l b n :
  io_irr (b_ioapic b) = 0 \/ (io_irr (b_ioapic b) = Z.shiftl 1 (Z.of_nat n) /\ n ∉ l) -> foldl (fun b i => service_pin self i b) b l = b.
Proof.
  revert b. induction l as [|i l IH]; intros b H; [done|]. cbn [foldl]. assert (service_pin self i b = b) as ->.
  { unfold service_pin. destruct H as [-> |[-> Hi]]; [done|]. rewrite (proj1 (has_pin 0 n i)). destruct (Nat.eqb_spec n i) as [->|]; [|done]. exfalso. apply Hi. left. }
  apply IH. destruct H as [H|[H Hi]]; [by left|right]. split; [done|]. intros Hl. apply Hi. by right.
Qed.

Lemma pin_split n : (n < IOAPIC_NUM_PINS)%nat -> exists l1 l2, seq 0 IOAPIC_NUM_PINS = l1 ++ n :: l2 /\ n ∉ l1.
Proof.
  intros Hn. exists (seq 0 n), (seq (S n) (IOAPIC_NUM_PINS - S n)). split.
  - replace IOAPIC_NUM_PINS with (n + S (IOAPIC_NUM_PINS - S n))%nat at 1 by lia. by rewrite seq_app.
  - intros H%elem_of_seq. lia.
Qed.

Lemma service_one self n b :
  (n < IOAPIC_NUM_PINS)%nat -> io_irr (b_ioapic b) = Z.shiftl 1 (Z.of_nat n) -> Z.land (Z.shiftr (redirection b n) 15) 1 = 0 ->
  has (redirection b n) IOAPIC_LVT_MASKED = false -> Z.land (Z.shiftr (redirection b n) 8) 7 = APIC_DM_FIXED ->
  ioapic_service self b =
  on_apics (apic_deliver_irq self (Z.shiftr (redirection b n) 56) (Z.land (Z.shiftr (redirection b n) 11) 1) APIC_DM_FIXED
    (Z.land (redirection b n) 0xff) 0) (set_io_irr 0 b).
Proof.
  intros Hn Hi He Hm Hd. unfold ioapic_service. destruct (pin_split n Hn) as (l1 & l2 & -> & H1). rewrite foldl_app. rewrite (service_skip self l1 b n) by (right; done).
  cbn [foldl]. assert (service_pin self n b = on_apics (apic_deliver_irq self (Z.shiftr (redirection b n) 56) (Z.land (Z.shiftr (redirection b n) 11) 1) APIC_DM_FIXED
    (Z.land (redirection b n) 0xff) 0) (set_io_irr 0 b)) as ->.
  { unfold service_pin. rewrite Hi, (proj1 (has_pin 0 n n)), Nat.eqb_refl, Hm, He, Hd. cbn [negb andb Z.eqb]. cbv zeta.
    assert (Z.land (Z.shiftl 1 (Z.of_nat n)) (not32 (Z.shiftl 1 (Z.of_nat n))) = 0) as ->.
    { unfold IOAPIC_NUM_PINS in Hn. apply Z.bits_inj'. intros k Hk. rewrite Z.land_spec, Z.bits_0, Z.shiftl_1_l, Z.pow2_bits_eqb by lia.
      destruct (Z.eqb_spec (Z.of_nat n) k) as [<-|]; [|done]. rewrite testbit_not32 by lia. by rewrite Z.pow2_bits_true by lia. }
    change (APIC_DM_FIXED =? APIC_DM_EXTINT) with false. cbv iota. rewrite wrap_id; [done|]. apply (range_land 8); lia. }
  apply (service_skip self l2 _ n). by left.
Qed.

(** What a raised line does. *)
Lemma line_raised self n v b :
  routed n v b ->
  b_apics (gsi_handler self (Z.of_nat n) true b) =
  apic_deliver_irq self (Z.shiftr (redirection b n) 56) (Z.land (Z.shiftr (redirection b n) 11) 1) APIC_DM_FIXED v 0 (b_apics b).
Proof.
  intros [Hn Hi He Hh Ho Hm Hv _ Hp _ _]. unfold gsi_handler.
  set (b0 := if Z.of_nat n <? 16 then _ else b). assert (b_apics b0 = b_apics b /\ b_ioapic b0 = b_ioapic b) as [A I].
  { unfold b0. destruct (_ <? 16); [by apply with_pics_off|done]. }
  assert (redirection b0 n = redirection b n) as Hr by (unfold redirection; by rewrite I). clearbody b0.
  unfold ioapic_set_irq. destruct (Z.eqb_spec (Z.of_nat n) 0); [lia|]. destruct (Z.leb_spec 0 (Z.of_nat n)); [|lia].
  destruct (Z.ltb_spec (Z.of_nat n) (Z.of_nat IOAPIC_NUM_PINS)); [|lia]. cbn [andb]. cbv zeta. rewrite Nat2Z.id, Hr, Hh, He, Ho, I, Hi, Z.lor_0_l. cbn [Z.eqb negb andb].
  rewrite (service_one self n); [cbn [b_apics on_apics set_io_irr on_ioapic]| |done|..].
  - change (redirection (set_io_irr _ b0) n) with (redirection b0 n). by rewrite Hr, Hv, A.
  - lia.
  - change (redirection (set_io_irr _ b0) n) with (redirection b0 n). by rewrite Hr.
  - change (redirection (set_io_irr _ b0) n) with (redirection b0 n). by rewrite Hr.
  - change (redirection (set_io_irr _ b0) n) with (redirection b0 n). by rewrite Hr.
Qed.

Lemma line_at self n v b j s :
  routed n v b -> b_apics b !! j = Some s ->
  b_apics (gsi_handler self (Z.of_nat n) true b) !! j =
  Some (if addressed (Z.shiftr (redirection b n) 56) (Z.land (Z.shiftr (redirection b n) 11) 1) s then apic_set_irq self v 0 s else s).
Proof.
  intros Hr Hj. rewrite (line_raised self n v b Hr). unfold apic_deliver_irq, apic_bus_deliver. cbn [Z.eqb Pos.eqb APIC_DM_FIXED APIC_DM_LOWPRI APIC_DM_SMI APIC_DM_NMI APIC_DM_INIT orb].
  apply foreach_at; [done|]. apply delivery_bits; [apply Hr|apply Hr| |done]. apply (range_shiftr 8 56); [done|done|apply Hr].
Qed.

(** ** The local APIC *)

(** The APIC can take vector [v] at once: it is enabled, nothing of the class of [v] or above is in service ([l]) or masked
    by the task priority, and no higher vector is requested. *)
Record can_take (v : Z) (l : list Z) (s : APICCommonState) : Prop := {
  ct_ok : apic_ok s l;
  ct_enabled : has (a_spurious_vec s) APIC_SV_ENABLE = true;
  ct_legal : 16 <= v < 256;
  ct_tpr : cls (a_tpr s) < cls v;
  ct_service : Forall (fun w => cls w < cls v) l;
  ct_highest : forall w, 0 <= w < 256 -> apic_get_bit (a_irr s) w = true -> w <= v;
  ct_off : apic_accept_pic_intr s = false
}.

Lemma set_irq_fields_of self v s :
  a_spurious_vec (apic_set_irq self v 0 s) = a_spurious_vec s /\ a_tpr (apic_set_irq self v 0 s) = a_tpr s /\ a_lvt (apic_set_irq self v 0 s) = a_lvt s /\
  a_apicbase (apic_set_irq self v 0 s) = a_apicbase s /\ a_irr (apic_set_irq self v 0 s) = apic_set_bit (a_irr s) v.
Proof. unfold apic_set_irq, apic_update_irq, cpu_interrupt. by repeat case_match. Qed.

Lemma take_requested v l s :
  can_take v l s -> let s1 := apic_set_irq true v 0 s in
  can_take v l s1 /\ apic_irq_pending s1 = v /\ a_request s1 = Z.lor (a_request s) CPU_INTERRUPT_HARD.
Proof.
  intros [H1 H2 H3 H4 H5 H6 H7] s1. destruct (set_irq_fields_of true v s) as (F1 & F2 & F3 & F4 & F5). fold s1 in F1, F2, F3, F4, F5.
  assert (apic_ok s1 l) as Ho by (apply calm_set_irq; [lia|done]). pose proof (ao_irr _ _ H1) as Hi.
  assert (largest (a_irr s1) v) as Hl.
  { rewrite F5. split; [lia|]. split; [rewrite set_bit_spec, Z.eqb_refl, orb_true_r by (lia || apply Hi); done|].
    intros w Hw. rewrite set_bit_spec by (lia || apply Hi). intros [Hx|Hx]%orb_true_iff; [by apply H6|lia]. }
  assert (apic_irq_pending s1 = v) as Hp by (apply (pending_complete s1 l); [done|done|by rewrite F2|done]).
  split; [split; rewrite ?F1, ?F2; try done|split; [done|]].
  - apply Hl.
  - unfold apic_accept_pic_intr in *. by rewrite F3, F4.
  - assert (s1 = apic_update_irq true (with_a_tmr (apic_reset_bit (a_tmr s) v) (with_a_irr (apic_set_bit (a_irr s) v) s))) as E by done.
    rewrite E. unfold apic_update_irq. cbn [a_spurious_vec with_a_tmr with_a_irr]. rewrite H2. cbn [negb].
    assert (apic_irq_pending (with_a_tmr (apic_reset_bit (a_tmr s) v) (with_a_irr (apic_set_bit (a_irr s) v) s)) = v) as ->; [|by destruct (Z.ltb_spec 0 v); [|lia]].
    apply (pending_complete _ l); [split; [by apply set_tab_ok; [lia|apply Hi]|apply H1|apply H1]| |done|done]. by rewrite F5 in Hl.
Qed.

(** A CPU that asks is given the vector. *)
Lemma take_given v l output s :
  can_take v l s -> apic_irq_pending s = v ->
  exists s', apic_get_interrupt true output s = (v, s') /\ stack_of (a_isr s') (v :: l) /\ apic_get_bit (a_irr s') v = false.
Proof.
  intros [H1 H2 H3 H4 H5 H6 H7] Hp. destruct (accept_pushes true output s l H1) as [Ha Hv]; [rewrite Hp; lia|]. rewrite H2, Hp in Ha. rewrite H2, Hp in Hv.
  destruct (Z.ltb_spec 0 v); [|lia]. cbn [andb] in Ha, Hv. exists (apic_get_interrupt true output s).2. specialize (Hv eq_refl).
  split; [destruct (apic_get_interrupt true output s); cbn [fst snd] in *; by rewrite Hv|].
  split; [apply Ha|]. unfold apic_get_interrupt. rewrite H2, Hp. cbn [negb]. destruct (Z.eqb_spec v 0); [lia|]. destruct (Z.ltb_spec v 0); [lia|]. cbn [snd].
  unfold apic_check_pic. set (s2 := with_a_isr _ _). assert (apic_accept_pic_intr s2 = false) as -> by exact H7. cbn [andb snd].
  assert (a_irr (apic_update_irq true s2) = apic_reset_bit (a_irr s) v) as -> by (unfold apic_update_irq, cpu_interrupt; by repeat case_match).
  rewrite reset_bit_spec by (lia || apply (ao_irr _ _ H1)). by rewrite Z.eqb_refl, andb_false_r.
Qed.

(** ** The CPU *)

Section Deliver.
Context {G : Type} `{!SoftMmu G, !IntrHooks G, !PhysMem G, !PcBoard G, !PcBoardSpec G} (me : nat) (cpuid_version : Z).
#[local] Existing Instance my_chipset.

Lemma no_requests_svm env (g : G) : requests me env g = 0 -> interrupt_request (svm env) = 0.
Proof. unfold requests. intros H. by apply Z.lor_eq_0_iff in H as [-> _]. Qed.

Lemma drop_svm_none mask env : interrupt_request (svm env) = 0 -> drop_svm mask env = env.
Proof.
  intros H. unfold drop_svm, on_svm. rewrite H. change (Z.land 0 (not32 mask)) with 0. rewrite <-H.
  by destruct env as [? ? ? ? ? ? ? ? ? ? ? ? ? ? ? ? ? ? ? ? ? ? ? ? ? ? ? ? ? ? ? ? ? ? ? ? ? ? ? [] ?].
Qed.

(** A CPU with a request of the board and no other. *)
Lemma hard_served env (g : G) s :
  my_apic me g = Some s -> interrupt_request (svm env) = 0 -> a_request s = CPU_INTERRUPT_HARD ->
  has (hflags env) HF_SVMI_MASK = false -> has (hflags2 env) HF2_GIF_MASK = true ->
  serve_requests me cpuid_version false env g =
  if irq_enabled env
  then (intno <- get_vector me ;; (do_interrupt_x86_hardirq intno true ;; drop_requests me CPU_INTERRUPT_EXITTB)) env
         (on_my_apic me (drop_apic (Z.lor CPU_INTERRUPT_HARD CPU_INTERRUPT_VIRQ)) g)
  else drop_requests me CPU_INTERRUPT_EXITTB env g.
Proof.
  intros Hs Hr Ha Hv Hg. unfold serve_requests. assert (requests me env g = CPU_INTERRUPT_HARD) as -> by (unfold requests; by rewrite Hs, Hr, Ha).
  change (CPU_INTERRUPT_HARD =? 0) with false. cbv iota zeta.
  change (has CPU_INTERRUPT_HARD CPU_INTERRUPT_DEBUG) with false. change (has CPU_INTERRUPT_HARD CPU_INTERRUPT_POLL) with false.
  change (has CPU_INTERRUPT_HARD CPU_INTERRUPT_INIT) with false. change (has CPU_INTERRUPT_HARD CPU_INTERRUPT_SIPI) with false. cbv iota.
  rewrite !skip_then. unfold kbind at 1. unfold kbind at 1, kget at 1. rewrite Hg. unfold serve_events, kbind at 1, kget at 1.
  change (has CPU_INTERRUPT_HARD CPU_INTERRUPT_SMI) with false. change (has CPU_INTERRUPT_HARD CPU_INTERRUPT_NMI) with false.
  change (has CPU_INTERRUPT_HARD CPU_INTERRUPT_MCE) with false. change (has CPU_INTERRUPT_HARD CPU_INTERRUPT_HARD) with true.
  change (has CPU_INTERRUPT_HARD CPU_INTERRUPT_VIRQ) with false. cbn [andb]. destruct (irq_enabled env); [|done].
  unfold serve_irq. rewrite (ret_then _ _ _ _ _ _ _ (no_intercept SVM_EXIT_INTR 0 env g Hv)).
  rewrite (ret_then _ _ _ _ _ _ _ (drop_run me (Z.lor CPU_INTERRUPT_HARD CPU_INTERRUPT_VIRQ) env g)).
  change (on_svm _ env) with (drop_svm (Z.lor CPU_INTERRUPT_HARD CPU_INTERRUPT_VIRQ) env). rewrite (drop_svm_none _ _ Hr).
  unfold kbind. change (on_my_apic me _ g) with (on_my_apic me (drop_apic (Z.lor CPU_INTERRUPT_HARD CPU_INTERRUPT_VIRQ)) g).
  by destruct (get_vector me env _).
Qed.

Lemma drop_takes mask v l s : can_take v l s -> can_take v l (drop_apic mask s) /\ apic_irq_pending (drop_apic mask s) = apic_irq_pending s.
Proof. intros [[O1 O2 O3] H2 H3 H4 H5 H6 H7]. split; [|done]. by split. Qed.

(** C9: A line of a device reaches the handler. On a board whose I/O APIC routes the line, edge triggered, to a fixed vector of
    a destination that names this CPU, and whose local APIC can take that vector, raising the line makes an idle
    CPU that takes interrupts enter the handler of exactly that vector, with the vector in service on top
    of those before it and no longer requested; a CPU that does not take interrupts goes on undisturbed, and the
    request stays with it and with its APIC. *)
Theorem device_interrupt n v l s env (g : G) :
  routed n v (the_board g) -> my_apic me g = Some s -> can_take v l s ->
  addressed (Z.shiftr (redirection (the_board g) n) 56) (Z.land (Z.shiftr (redirection (the_board g) n) 11) 1) s = true ->
  requests me env g = 0 -> has (hflags env) HF_SVMI_MASK = false -> has (hflags2 env) HF2_GIF_MASK = true ->
  exists g' s', my_apic me g' = Some s' /\
    if irq_enabled env
    then serve_requests me cpuid_version false env (on_board (gsi_handler true (Z.of_nat n) true) g) =
           (do_interrupt_x86_hardirq v true ;; drop_requests me CPU_INTERRUPT_EXITTB) env g' /\
         stack_of (a_isr s') (v :: l) /\ apic_get_bit (a_irr s') v = false
    else serve_requests me cpuid_version false env (on_board (gsi_handler true (Z.of_nat n) true) g) = KRet tt env g' /\
         has (requests me env g') CPU_INTERRUPT_HARD = true /\ apic_irq_pending s' = v.
Proof.
  intros Hro Hs Ht Ha Hq Hv Hg. set (g1 := on_board _ g). pose proof (no_requests_svm env g Hq) as Hr.
  assert (a_request s = 0) as Hq0 by (unfold requests in Hq; rewrite Hs in Hq; by apply Z.lor_eq_0_iff in Hq as [_ ->]).
  assert (my_apic me g1 = Some (apic_set_irq true v 0 s)) as Hs1 by (unfold my_apic, g1; rewrite board_on, (line_at true n v _ me s Hro Hs); by rewrite Ha).
  destruct (take_requested v l s Ht) as (Ht1 & Hp1 & Hr1). cbv zeta in Ht1, Hp1, Hr1. set (s1 := apic_set_irq true v 0 s) in *. rewrite Hq0, Z.lor_0_l in Hr1.
  rewrite (hard_served env g1 s1 Hs1 Hr Hr1 Hv Hg). destruct (irq_enabled env).
  - set (g2 := on_my_apic me _ g1). destruct (drop_takes (Z.lor CPU_INTERRUPT_HARD CPU_INTERRUPT_VIRQ) v l s1 Ht1) as [Ht2 Hp2]. set (s2 := drop_apic _ s1) in *.
    assert (b_apics (the_board g2) !! me = Some s2) as Hs2 by (assert (the_board g2 = on_apic me (drop_apic (Z.lor CPU_INTERRUPT_HARD CPU_INTERRUPT_VIRQ)) (the_board g1)) as Hb2 by apply board_on;
      pose proof (my_apic_on me _ _ _ Hb2) as H; by rewrite Hs1 in H).
    destruct (take_given v l (pic_get_output (b_pics (the_board g2))) s2 Ht2 ltac:(by rewrite Hp2)) as (s3 & He & Hst & Hirr).
    exists (put_board (on_apic me (fun _ => s3) (the_board g2)) g2), s3. split; [unfold my_apic; rewrite board_put; unfold on_apic, on_apics; cbn [b_apics]; by rewrite list_lookup_alter_eq, Hs2|].
    split; [|done]. rewrite (ret_then (get_vector me) _ env g2 v env (put_board (on_apic me (fun _ => s3) (the_board g2)) g2)); [done|]. unfold get_vector, cpu_get_pic_interrupt. rewrite Hs2, He. pose proof (ct_legal _ _ _ Ht). by destruct (Z.leb_spec 0 v); [|lia].
  - rewrite drop_run. change (on_svm _ env) with (drop_svm CPU_INTERRUPT_EXITTB env). rewrite (drop_svm_none _ _ Hr).
    set (g2 := on_my_apic me _ g1). assert (my_apic me g2 = Some (drop_apic CPU_INTERRUPT_EXITTB s1)) as Hs2.
    { assert (the_board g2 = on_apic me (drop_apic CPU_INTERRUPT_EXITTB) (the_board g1)) as Hb2 by apply board_on. rewrite (my_apic_on me _ _ _ Hb2). by rewrite Hs1. }
    exists g2, (drop_apic CPU_INTERRUPT_EXITTB s1). split; [done|]. split; [done|]. split; [|by rewrite <-Hp1].
    unfold requests. rewrite Hs2, Hr. cbn [a_request drop_apic with_a_request]. by rewrite Hr1.
Qed.
End Deliver.

(** ** Concrete runs *)

(** Pin 4 is routed to vector 0x34 of APIC 0, which is enabled with its local lines masked. *)
Definition line_apic : APICCommonState :=
  mkApic 0xfee00900 0 0 0 0x1ff 0 0xf (replicate 8 0) (replicate 8 0) (replicate 8 0) (replicate 6 APIC_LVT_MASKED) 0 [0; 0] 0 0 0 0 0 (-1) 0 false 0 None true.
Definition line_pc : pc :=
  (fun _ => 0, (mkBoard [line_apic] (mkIoapic 0 0 0 (<[4%nat := 0x34]> (replicate IOAPIC_NUM_PINS IOAPIC_LVT_MASKED))) i8259_init, false)).
Definition line_cpu : CPUX86State := with_hflags2 HF2_GIF_MASK blank_cpu.

Lemma line_routed : routed 4 0x34 (the_board line_pc).
Proof.
  split; try done.
  - unfold IOAPIC_NUM_PINS. lia.
  - apply Forall_singleton. done.
  - apply NoDup_singleton.
  - unfold MAX_APICS. cbn. lia.
Qed.

Lemma line_takes : can_take 0x34 [] line_apic.
Proof.
  split; try done; [split; [|done|]; apply stack_empty|].
  intros w Hw. change (a_irr line_apic) with no_apics. by rewrite no_bits by lia.
Qed.

Lemma device_interrupt_witness :
  exists g' s', my_apic 0 g' = Some s' /\
    serve_requests (IntrHooks0 := pc_hooks) 0 0 false line_cpu (on_board (gsi_handler true (Z.of_nat 4) true) line_pc) =
      kbind (do_interrupt_x86_hardirq (H := pc_hooks) 0x34 true) (fun _ => drop_requests 0 CPU_INTERRUPT_EXITTB) line_cpu g' /\
    stack_of (a_isr s') [0x34].
Proof.
  destruct (device_interrupt (IntrHooks0 := pc_hooks) 0 0 4 0x34 [] line_apic line_cpu line_pc line_routed eq_refl line_takes eq_refl eq_refl eq_refl eq_refl) as (g' & s' & H1 & H2).
  change (irq_enabled line_cpu) with true in H2. destruct H2 as (H2 & H3 & _).
  exists g', s'. split; [exact H1|]. split; [exact H2|exact H3].
Defined.

(** A line of the 8259s is raised while the CPU has interrupts off; the guest then masks LINT0. The request of the CPU
    stays, and when it is served no controller has a vector: -1 is returned. *)
Definition legacy_board : board :=
  mkBoard [apic_reset_common (with_a_apicbase MSR_IA32_APICBASE_BSP line_apic)] (mkIoapic 0 0 0 (replicate IOAPIC_NUM_PINS IOAPIC_LVT_MASKED)) i8259_init.
Lemma vector_missing :
  let b := apic_mem_writel true 0 0 0x350 0x10700 (gsi_handler true 1 true legacy_board) in
  (exists s, b_apics b !! 0%nat = Some s /\ a_request s = CPU_INTERRUPT_HARD) /\ (cpu_get_pic_interrupt true 0 b).1 = -1.
Proof. split; [by eexists|]. reflexivity. Qed.
