(* ===== verification/MemHelper.v ===== *)
(** * Memory helpers

    The instructions of mem_helper.c that access memory themselves: the exchange of
    eight bytes and the test of array bounds. *)

From stdpp Require Import base list.
From Stdlib Require Import ZArith Lia.
From S2P Require Import Prelude Cpu CcHelper Excp Guest Mmu Seg SegSpec SegTask SegInt SegInv SegOps Msr.

Local Open Scope Z_scope.
Local Open Scope k_scope.

Definition EXCP05_BOUND : Z := 5.

(** Two registers as one number. *)
Definition reg_pair (hi lo : nat) (env : CPUX86State) : Z := Z.lor (Z.shiftl (reg env hi) 32) (reg env lo).

Section Mem.
Context {G : Type} `{!SoftMmu G}.

Definition cpu_ldq_data (a : Z) : K G Z := env <- kget ;; mmu_load (cpu_mmu_index env) 8 (u32 a).
Definition cpu_stq_data (a v : Z) : K G unit := env <- kget ;; mmu_store (cpu_mmu_index env) 8 (u32 a) v.

Definition helper_cmpxchg8b (a0 : Z) : K G unit :=
  env <- kget ;;
  let eflags := cpu_cc_compute_all env (cc_op env) in
  d <- cpu_ldq_data a0 ;;
  eflags <-
    (if d =? reg_pair R_EDX R_EAX env
     then cpu_stq_data a0 (reg_pair R_ECX R_EBX env) ;; kret (Z.lor eflags CC_Z)
     else
       cpu_stq_data a0 d ;;
       kmod (put_reg R_EDX (u32 (Z.shiftr d 32))) ;; kmod (put_reg R_EAX (u32 d)) ;;
       kret (Z.land eflags (not32 CC_Z))) ;;
  kmod (with_cc_src eflags).

Definition helper_boundw (a0 v : Z) : K G unit :=
  low <- cpu_lduw_data a0 ;;
  high <- cpu_lduw_data (a0 + 2) ;;
  if (s16 v <? s16 low) || (s16 high <? s16 v) then raise EXCP05_BOUND 0 else kret tt.

Definition helper_boundl (a0 v : Z) : K G unit :=
  low <- cpu_ldl_data a0 ;;
  high <- cpu_ldl_data (a0 + 4) ;;
  if (s32 v <? s32 low) || (s32 high <? s32 v) then raise EXCP05_BOUND 0 else kret tt.
End Mem.

Section Spec.
Context {G : Type} `{!SoftMmu G, !SoftMmuSpec G}.

Lemma qat_ldq env a : qat (G := G) env (cpu_ldq_data a) (fun v => in_range 64 v).
Proof. apply qat_get_bind. apply (qat_load env _ 8). Qed.
Lemma qat_stq env a v : qat (G := G) env (cpu_stq_data a v) (fun _ => True).
Proof. apply qat_get_bind, qat_store. Qed.
Lemma qat_data env n a : qat (G := G) env (e <- kget ;; mmu_load (cpu_mmu_index e) n (u32 a)) (fun _ => True).
Proof. apply qat_get_bind. eapply qat_weaken; [apply qat_load|done]. Qed.

Lemma pair_put d env :
  length (regs env) = 8%nat -> in_range 64 d ->
  reg_pair R_EDX R_EAX (put_reg R_EAX (u32 d) (put_reg R_EDX (u32 (Z.shiftr d 32)) env)) = d.
Proof.
  intros Hl Hd. unfold reg_pair. rewrite !reg_put by (cbn; rewrite ?length_insert, Hl; unfold R_EAX, R_EDX; lia).
  cbn [Nat.eqb R_EDX R_EAX]. rewrite !(u32_id (u32 _)) by apply u32_range.
  rewrite (u32_id (Z.shiftr d 32)) by (rewrite Z.shiftr_div_pow2 by done; split; [apply Z.div_pos; lia|apply Z.div_lt_upper_bound; lia]).
  apply Z.bits_inj'. intros i Hi. rewrite Z.lor_spec, Z.shiftl_spec by done. unfold u32, wrap. destruct (Z.lt_ge_cases i 32).
  - rewrite Z.testbit_neg_r by lia. by rewrite Z.mod_pow2_bits_low by lia.
  - rewrite Z.shiftr_spec by lia. replace (i - 32 + 32) with i by lia. rewrite Z.mod_pow2_bits_high by lia. apply orb_false_r.
Qed.

(** After CMPXCHG8B the two registers hold what was in memory, the zero flag tells whether they held it
    before, and a fault of either access leaves the CPU as it was. *)
Lemma cmpxchg8b_exchanges a0 env :
  length (regs env) = 8%nat ->
  kat env (helper_cmpxchg8b (G := G) a0) (fun _ env' => exists d, in_range 64 d /\ reg_pair R_EDX R_EAX env' = d /\
    has (cc_src env') CC_Z = (d =? reg_pair R_EDX R_EAX env)).
Proof.
  intros Hl. apply kspec_get. eapply kat_bind; [apply qat_ldq|]. intros d Hd. destruct (Z.eqb_spec d (reg_pair R_EDX R_EAX env)) as [E|E].
  - eapply kspec_bind; [eapply kat_bind; [apply qat_stq|]; intros [] _; by apply kspec_ret with (Q := fun e env' => e = Z.lor (cpu_cc_compute_all env (cc_op env)) CC_Z /\ env' = env)|].
    intros ef env' [-> ->]. apply kspec_mod. exists d. split; [done|]. split; [done|]. cbn [cc_src with_cc_src]. rewrite (proj2 (Z.eqb_eq _ _) E). change CC_Z with (2 ^ 6).
    by rewrite has_bit, Z.lor_spec, Z.pow2_bits_true, orb_true_r by done.
  - eapply kspec_bind; [eapply kat_bind; [apply qat_stq|]; intros [] _|].
    + eapply (kspec_bind _ _ _ _ (fun _ env' => env' = put_reg R_EDX (u32 (Z.shiftr d 32)) env)); [by apply kspec_mod|]. intros [] env' ->.
      eapply (kspec_bind _ _ _ _ (fun _ env' => env' = put_reg R_EAX (u32 d) (put_reg R_EDX (u32 (Z.shiftr d 32)) env))); [by apply kspec_mod|]. intros [] env' ->.
      by apply kspec_ret with (Q := fun e env' => e = Z.land (cpu_cc_compute_all env (cc_op env)) (not32 CC_Z) /\ env' = put_reg R_EAX (u32 d) (put_reg R_EDX (u32 (Z.shiftr d 32)) env)).
    + intros ef env' [-> ->]. apply kspec_mod. exists d. split; [done|]. split; [by apply (pair_put d env)|]. cbn [cc_src with_cc_src]. rewrite (proj2 (Z.eqb_neq _ _) E). change CC_Z with (2 ^ 6).
      by rewrite has_bit, Z.land_spec, testbit_not32, Z.pow2_bits_true, andb_false_r by done.
Qed.

(** BOUND leaves the CPU as it was, whether it goes on or raises. *)
Lemma boundl_precise a0 v env : qat env (helper_boundl (G := G) a0 v) (fun _ => True).
Proof.
  eapply qat_bind; [apply (qat_data env 4)|]. intros low _. eapply qat_bind; [apply (qat_data env 4)|]. intros high _.
  destruct (_ || _); [apply qat_raise|by apply qat_ret].
Qed.
End Spec.
